(* ===== verification/_CoqProject ===== *)
-Q . S2P
Prelude.v
Machine.v
ReferencePricing.v
CorePricing.v
WeightedReference.v
StorageMath.v
IncrementalAggregate.v
Types.v
Host.v
AuditLog.v
Config.v
Admin.v
Assets.v
History.v
Frames.v
Policy.v
PriceBounds.v
RiskTier.v
FreshnessQuorum.v
InfluenceCap.v
FreshnessWeight.v
Explanation.v
Correlation.v
OutlierFilter.v
Deferral.v
DqPipeline.v
SourceLifecycle.v
SourceComparison.v
SourceGuards.v
Blackout.v
SanityLattice.v
Scorecards.v
ConstantTime.v
ConfidenceBand.v
GasMetering.v
Disagreement.v
Latency.v
Provenance.v
Rbac.v
StorageTier.v
ContributionQuality.v
PriceCallback.v
Corrections.v
Aggregation.v
Resilience.v
RoundFrames.v
RoundSafety.v
ConsensusRounds.v
Breaker.v
Recovery.v
DeadMan.v
InputValidation.v
Sources.v
SourceSafety.v
Triggers.v
Submission.v
SubmissionSafety.v
CommitReveal.v
CommitSafety.v
Degradation.v
Twap.v
Queries.v
QuerySafety.v
Multisig.v
Timelock.v
AuditReports.v
EmergencyPause.v
Challenger.v
Optimistic.v
Scheduling.v
Reputation.v
Verification.v
SignedSubmission.v
Relayer.v
StateChannel.v
Footprint.v
Entry.v
Contract.v
AccessControl.v
ContractSafety.v
