(* ===== verification/Prelude.v ===== *)
(** * Verification of the Stellar Unified Price Oracle contract: prelude *)
From stdpp Require Import base list sorting gmap.
From Stdlib Require Import ZArith Lia Permutation Sorted.

#[local] Set Default Goal Selector "!".
#[local] Open Scope Z_scope.

(** ** Tactics and hints of the development *)

Create HintDb oracle.
Create Rewrite HintDb oracle_rw.

(** Splits an option-monad computation known to return [Some]. *)
Ltac opt_inv :=
  repeat match goal with
  | H : (_ ≫= _) = Some _ |- _ => apply bind_Some in H as (? & ? & H)
  | H : Some _ = Some _ |- _ => injection H as H; subst
  | H : None = Some _ |- _ => discriminate H
  end.

(** Steps an option-monad bind whose head is already a constructor. *)
Ltac obind := cbn [mbind option_bind].

(** Case analysis on the boolean test of the first [if] in sight. *)
Ltac case_if :=
  match goal with
  | |- context [if ?b then _ else _] => destruct b eqn:?
  | H : context [if ?b then _ else _] |- _ => destruct b eqn:?
  end.

(** Turns boolean comparisons on [Z] and [nat] into propositions. *)
Ltac bool_hyps :=
  repeat match goal with
  | H : (_ && _)%bool = true |- _ => apply andb_true_iff in H as [? ?]
  | H : (_ && _)%bool = false |- _ => apply andb_false_iff in H
  | H : (_ || _)%bool = true |- _ => apply orb_true_iff in H
  | H : (_ || _)%bool = false |- _ => apply orb_false_iff in H as [? ?]
  | H : negb _ = true |- _ => apply negb_true_iff in H
  | H : negb _ = false |- _ => apply negb_false_iff in H
  | H : (_ <? _) = true |- _ => apply Z.ltb_lt in H
  | H : (_ <? _) = false |- _ => apply Z.ltb_ge in H
  | H : (_ <=? _) = true |- _ => apply Z.leb_le in H
  | H : (_ <=? _) = false |- _ => apply Z.leb_gt in H
  | H : (_ =? _) = true |- _ => apply Z.eqb_eq in H
  | H : (_ =? _) = false |- _ => apply Z.eqb_neq in H
  | H : (_ <? _)%nat = true |- _ => apply Nat.ltb_lt in H
  | H : (_ <? _)%nat = false |- _ => apply Nat.ltb_ge in H
  | H : (_ <=? _)%nat = true |- _ => apply Nat.leb_le in H
  | H : (_ <=? _)%nat = false |- _ => apply Nat.leb_gt in H
  | H : (_ =? _)%nat = true |- _ => apply Nat.eqb_eq in H
  | H : (_ =? _)%nat = false |- _ => apply Nat.eqb_neq in H
  end.

Lemma half_le (n : nat) : (n / 2 <= n)%nat.
Proof. apply Nat.Div0.div_le_upper_bound. lia. Qed.

(** ** Arrays: in-place updates of a segment

    Slices and host vectors are lists indexed from 0.  Every in-place
    algorithm of the program works inside a window [[lo, hi]]; [seg_perm]
    says that an array was rearranged inside its window only. *)

Section Segments.
Context {A : Type}.
Implicit Types (a b c : list A).

(** [slice[i]]: reading out of range panics. *)
Definition aget (a : list A) (i : nat) : option A := a !! i.

(** [slice[i] = x]: writing out of range panics. *)
Definition aset (a : list A) (i : nat) (x : A) : option (list A) :=
  if (i <? length a)%nat then Some (<[i := x]> a) else None.

(** [slice.swap(i, j)]. *)
Definition aswap (a : list A) (i j : nat) : option (list A) :=
  x ← a !! i; y ← a !! j; Some (<[j := x]> (<[i := y]> a)).

Definition seg_perm (lo hi : nat) a b : Prop :=
  a ≡ₚ b ∧ ∀ i, (i < lo ∨ hi < i)%nat → a !! i = b !! i.

Lemma seg_perm_refl lo hi a : seg_perm lo hi a a.
Proof. by split. Qed.

Lemma seg_perm_trans lo hi a b c :
  seg_perm lo hi a b → seg_perm lo hi b c → seg_perm lo hi a c.
Proof.
  intros [P1 O1] [P2 O2]. split; [by etrans|].
  intros i Hi. rewrite O1 by done. auto.
Qed.

Lemma seg_perm_widen lo hi lo' hi' a b :
  (lo' <= lo)%nat → (hi <= hi')%nat → seg_perm lo hi a b → seg_perm lo' hi' a b.
Proof. intros H1 H2 [P O]. split; [done|]. intros i Hi. apply O. lia. Qed.

Lemma seg_perm_length lo hi a b : seg_perm lo hi a b → length a = length b.
Proof. intros [P _]. by apply Permutation_length. Qed.

(** The window itself, as a list. *)
Definition window (lo hi : nat) a : list A := take (S hi - lo) (drop lo a).

Lemma window_split lo hi a :
  (lo <= S hi)%nat → a = take lo a ++ window lo hi a ++ drop (S hi) a.
Proof.
  intros H. unfold window.
  replace (drop (S hi) a) with (drop (S hi - lo) (drop lo a))
    by (rewrite drop_drop; f_equal; lia).
  by rewrite !take_drop.
Qed.

Lemma elem_of_window lo hi a x :
  (lo <= S hi)%nat →
  x ∈ window lo hi a ↔ ∃ i, (lo <= i <= hi)%nat ∧ a !! i = Some x.
Proof.
  intros Hle. unfold window. rewrite list_elem_of_lookup. split.
  - intros [i Hi]. apply lookup_take_Some in Hi as [Hi Hlt].
    rewrite lookup_drop in Hi. exists (lo + i)%nat. split; [lia|done].
  - intros (i & Hi & E). exists (i - lo)%nat. apply lookup_take_Some.
    split; [|lia]. rewrite lookup_drop. by replace (lo + (i - lo))%nat with i by lia.
Qed.

Lemma seg_perm_window lo hi a b :
  (lo <= S hi)%nat → seg_perm lo hi a b → window lo hi a ≡ₚ window lo hi b.
Proof.
  intros Hle [P O].
  assert (take lo a = take lo b) as Et.
  { apply list_eq. intros i. destruct (decide (i < lo)%nat).
    - rewrite !lookup_take_lt by done. apply O. lia.
    - rewrite !lookup_take_ge by lia. done. }
  assert (drop (S hi) a = drop (S hi) b) as Ed.
  { apply list_eq. intros i. rewrite !lookup_drop. apply O. lia. }
  rewrite (window_split lo hi a), (window_split lo hi b) in P by done.
  rewrite Et, Ed in P. apply Permutation_app_inv_l in P.
  by apply Permutation_app_inv_r in P.
Qed.

(** A property of every element of the window survives its rearrangement. *)
Lemma seg_perm_forall (P : A → Prop) lo hi a b :
  (lo <= S hi)%nat → seg_perm lo hi a b →
  (∀ i x, (lo <= i <= hi)%nat → a !! i = Some x → P x) →
  (∀ i x, (lo <= i <= hi)%nat → b !! i = Some x → P x).
Proof.
  intros Hle Hs Ha i x Hi Hx.
  assert (x ∈ window lo hi a) as Hin.
  { rewrite (seg_perm_window _ _ _ _ Hle Hs). apply elem_of_window; eauto. }
  apply elem_of_window in Hin as (j & Hj & E); [|done]. eauto.
Qed.

Lemma aswap_perm a i j b : aswap a i j = Some b → a ≡ₚ b.
Proof.
  unfold aswap. intros H. opt_inv. rename x into u, x0 into v, H0 into Hu, H1 into Hv.
  assert (i < length a)%nat by (by eapply lookup_lt_Some).
  assert (j < length a)%nat by (by eapply lookup_lt_Some).
  destruct (decide (i = j)) as [->|Hne].
  { simplify_eq. rewrite list_insert_insert_eq, list_insert_id; done. }
  symmetry. by apply (Permutation_insert_swap a i j u v).
Qed.

Lemma aswap_Some a i j x y :
  a !! i = Some x → a !! j = Some y →
  aswap a i j = Some (<[j := x]> (<[i := y]> a)).
Proof. intros Hx Hy. unfold aswap. by rewrite Hx, Hy. Qed.

(** What a swap inside the window does to every cell. *)
Lemma aswap_spec a i j lo hi :
  (lo <= i <= hi)%nat → (lo <= j <= hi)%nat → (hi < length a)%nat →
  ∃ b, aswap a i j = Some b ∧ seg_perm lo hi a b ∧ length b = length a ∧
    b !! i = a !! j ∧ b !! j = a !! i ∧
    (∀ k, k ≠ i → k ≠ j → b !! k = a !! k).
Proof.
  intros Hi Hj Hlen.
  destruct (lookup_lt_is_Some_2 a i) as [x Hx]; [lia|].
  destruct (lookup_lt_is_Some_2 a j) as [y Hy]; [lia|].
  pose proof (aswap_Some a i j x y Hx Hy) as E.
  eexists. split; [exact E|].
  assert (∀ k, k ≠ i → k ≠ j → <[j:=x]> (<[i:=y]> a) !! k = a !! k) as Hk.
  { intros k H1 H2. by rewrite !list_lookup_insert_ne by done. }
  split; [split|].
  - by eapply aswap_perm.
  - intros k H. symmetry. apply Hk; lia.
  - split; [by rewrite !length_insert|]. split; [|split]; [..|exact Hk].
    + destruct (decide (i = j)) as [->|Hne].
      * rewrite list_lookup_insert_eq by (rewrite length_insert; lia). by simplify_eq.
      * rewrite list_lookup_insert_ne by done. by rewrite list_lookup_insert_eq by lia.
    + rewrite list_lookup_insert_eq; [done|]. rewrite length_insert; lia.
Qed.
End Segments.

#[export] Hint Resolve seg_perm_refl : oracle.

Lemma elem_of_take_lookup {A} (a : list A) k x :
  x ∈ take k a → ∃ i, (i < k)%nat ∧ a !! i = Some x.
Proof.
  intros [i Hi]%list_elem_of_lookup. apply lookup_take_Some in Hi as [? ?]. eauto.
Qed.

Lemma elem_of_drop_lookup {A} (a : list A) k x :
  x ∈ drop k a → ∃ i, (k <= i)%nat ∧ a !! i = Some x.
Proof.
  intros [i Hi]%list_elem_of_lookup. rewrite lookup_drop in Hi.
  exists (k + i)%nat. split; [lia|done].
Qed.

(** ** Order statistics of integer lists *)

Definition sortZ : list Z → list Z := merge_sort Z.le.

(** [a.[k]] is where sorting would put it: nothing larger before it,
    nothing smaller after it. *)
Definition placed (a : list Z) (k : nat) (v : Z) : Prop :=
  a !! k = Some v ∧
  (∀ i x, (i < k)%nat → a !! i = Some x → x <= v) ∧
  (∀ i x, (k < i)%nat → a !! i = Some x → v <= x).

Section OrderStatistics.
Implicit Types (a b : list Z).

Lemma sortZ_perm a : sortZ a ≡ₚ a.
Proof. apply merge_sort_Permutation. Qed.

Lemma sortZ_sorted a : StronglySorted Z.le (sortZ a).
Proof. apply (StronglySorted_merge_sort Z.le). Qed.

Lemma length_sortZ a : length (sortZ a) = length a.
Proof. apply Permutation_length, sortZ_perm. Qed.

Lemma sorted_perm_eq a b :
  StronglySorted Z.le a → StronglySorted Z.le b → a ≡ₚ b → a = b.
Proof. apply (StronglySorted_unique Z.le). Qed.

Lemma sortZ_unique a b : StronglySorted Z.le b → a ≡ₚ b → sortZ a = b.
Proof.
  intros Hs Hp. apply sorted_perm_eq; [apply sortZ_sorted|done|].
  by rewrite sortZ_perm.
Qed.

Lemma sortZ_proper a b : a ≡ₚ b → sortZ a = sortZ b.
Proof.
  intros H. apply sortZ_unique; [apply sortZ_sorted|]. by rewrite sortZ_perm.
Qed.

Lemma elem_of_sortZ x a : x ∈ sortZ a ↔ x ∈ a.
Proof. by rewrite sortZ_perm. Qed.

Lemma sorted_app a b :
  StronglySorted Z.le a → StronglySorted Z.le b →
  (∀ x y, x ∈ a → y ∈ b → x <= y) → StronglySorted Z.le (a ++ b).
Proof.
  induction a as [|h a IH]; simpl; [done|]. intros Ha Hb H.
  apply StronglySorted_inv in Ha as [Ha Hh]. constructor.
  - apply IH; auto. intros x y Hx. apply H. by constructor.
  - apply Forall_app. split; [done|]. apply Forall_forall. intros y Hy.
    apply H; [constructor|done].
Qed.

Lemma sorted_lookup a i j x y :
  StronglySorted Z.le a → (i <= j)%nat → a !! i = Some x → a !! j = Some y → x <= y.
Proof.
  intros Hs. revert i j. induction Hs as [|h a Hs IH Hh]; intros [|i] [|j]; simpl;
    intros Hij Hi Hj; try discriminate; simplify_eq; try lia.
  - rewrite Forall_forall in Hh. apply Hh. by eapply list_elem_of_lookup_2.
  - eapply IH; [|done..]. lia.
Qed.

Lemma lookup_sorted a :
  (∀ i x y, a !! i = Some x → a !! S i = Some y → x <= y) → StronglySorted Z.le a.
Proof.
  intros H. apply Sorted_StronglySorted; [intros x y z; apply Z.le_trans|].
  induction a as [|h a IH]; constructor.
  - apply IH. intros i x y Hx Hy. by apply (H (S i)).
  - destruct a as [|h' a]; constructor. by apply (H 0%nat).
Qed.

(** Sorting splits at a placed element. *)
Lemma sortZ_placed a k v :
  placed a k v → sortZ a = sortZ (take k a) ++ v :: sortZ (drop (S k) a).
Proof.
  intros (Hk & Hlo & Hhi). apply sortZ_unique.
  - apply sorted_app; [apply sortZ_sorted| |].
    + constructor; [apply sortZ_sorted|]. apply Forall_forall. intros y Hy.
      apply elem_of_sortZ, elem_of_drop_lookup in Hy as (i & Hi & Ey). eapply Hhi; [|done]. lia.
    + intros x y Hx%elem_of_sortZ%elem_of_take_lookup Hy.
      destruct Hx as (i & Hi & Ex). pose proof (Hlo _ _ Hi Ex).
      apply elem_of_cons in Hy as [->|Hy]; [done|].
      apply elem_of_sortZ, elem_of_drop_lookup in Hy as (j & Hj & Ey).
      assert (v <= y) by (eapply Hhi; [|done]; lia). lia.
  - rewrite <- (take_drop_middle a k v Hk) at 1. by rewrite !sortZ_perm.
Qed.

Lemma placed_kth a k v : placed a k v → sortZ a !! k = Some v.
Proof.
  intros H. pose proof (sortZ_placed a k v H) as ->. destruct H as (Hk & _).
  apply lookup_lt_Some in Hk. rewrite lookup_app_r; rewrite length_sortZ, length_take; [|lia].
  by replace (k - k `min` length a)%nat with 0%nat by lia.
Qed.

(** The last element of a sorted prefix is the maximum of that prefix. *)
Lemma placed_pred a k v m :
  placed a (S k) v → m ∈ take (S k) a → (∀ x, x ∈ take (S k) a → x <= m) →
  sortZ a !! k = Some m.
Proof.
  intros H Hm Hmax. pose proof (sortZ_placed a (S k) v H) as ->.
  destruct H as (Hk & _). apply lookup_lt_Some in Hk.
  rewrite lookup_app_l by (rewrite length_sortZ, length_take; lia).
  destruct (lookup_lt_is_Some_2 (sortZ (take (S k) a)) k) as [w Hw].
  { rewrite length_sortZ, length_take; lia. }
  rewrite Hw. f_equal. apply Z.le_antisymm.
  - apply Hmax, elem_of_sortZ. by eapply list_elem_of_lookup_2.
  - apply elem_of_sortZ, list_elem_of_lookup in Hm as [i Hi].
    eapply sorted_lookup; [apply sortZ_sorted| |exact Hi|exact Hw].
    apply lookup_lt_Some in Hi. rewrite length_sortZ, length_take in Hi. lia.
Qed.

Lemma sorted_placed a k v : StronglySorted Z.le a → a !! k = Some v → placed a k v.
Proof.
  intros Hs Hk. split; [done|]. split; intros i x Hi Hx.
  - eapply sorted_lookup; [done| |exact Hx|exact Hk]. lia.
  - eapply sorted_lookup; [done| |exact Hk|exact Hx]. lia.
Qed.

Lemma kth_in_hull a k v lo hi :
  sortZ a !! k = Some v → (∀ x, x ∈ a → lo <= x <= hi) → lo <= v <= hi.
Proof. intros Hk H. apply H. apply elem_of_sortZ. by eapply list_elem_of_lookup_2. Qed.
End OrderStatistics.

#[export] Hint Resolve sortZ_perm sortZ_sorted : oracle.
