(* ===== verification/Machine.v ===== *)
(** * Machine integers of the contract

    The contract computes on [i128], [u128], [u64] and [u32].  Values are
    [Z]; every plain arithmetic operator of the source goes through [i128],
    [u64], ... below, which apply the width.  What happens outside the width
    depends on how the crate is built: with overflow checks (Cargo's default
    for tests) the operation panics, without them (the default of a release
    build, which is what is deployed; the workspace sets no profile) it
    wraps.  Both behaviours are modelled and theorems quantify over them. *)
From S2P Require Import Prelude.
From stdpp Require Import base list.
#[local] Open Scope Z_scope.
#[local] Set Default Goal Selector "!".

(** Cargo build profile, as far as arithmetic is concerned. *)
Inductive Profile := OverflowChecks | Wrapping.

Class BuildProfile := build_profile : Profile.

Definition I128_MIN : Z := - 2 ^ 127.
Definition I128_MAX : Z := 2 ^ 127 - 1.
Definition U128_MAX : Z := 2 ^ 128 - 1.
Definition U64_MAX : Z := 2 ^ 64 - 1.
Definition U32_MAX : Z := 2 ^ 32 - 1.

Definition in_i128 (z : Z) : Prop := I128_MIN <= z <= I128_MAX.
Definition in_u128 (z : Z) : Prop := 0 <= z <= U128_MAX.
Definition in_u64 (z : Z) : Prop := 0 <= z <= U64_MAX.
Definition in_u32 (z : Z) : Prop := 0 <= z <= U32_MAX.

Definition in_range (lo hi z : Z) : bool := (lo <=? z) && (z <=? hi).

(** Two's-complement wrap-around into [[lo, lo + 2^w)]. *)
Definition wrap (lo w z : Z) : Z := lo + (z - lo) mod 2 ^ w.

Definition arith `{BuildProfile} (lo hi w z : Z) : option Z :=
  if in_range lo hi z then Some z
  else match build_profile with
       | OverflowChecks => None
       | Wrapping => Some (wrap lo w z)
       end.

Definition i128 `{BuildProfile} (z : Z) : option Z := arith I128_MIN I128_MAX 128 z.
Definition u128 `{BuildProfile} (z : Z) : option Z := arith 0 U128_MAX 128 z.
Definition u64 `{BuildProfile} (z : Z) : option Z := arith 0 U64_MAX 64 z.
Definition u32 `{BuildProfile} (z : Z) : option Z := arith 0 U32_MAX 32 z.

(** [checked_add] and friends. *)
Definition checked_i128 (z : Z) : option Z :=
  if in_range I128_MIN I128_MAX z then Some z else None.

(** [saturating_*]. *)
Definition clampZ (lo hi z : Z) : Z := Z.max lo (Z.min hi z).
Definition sat_i128 (z : Z) : Z := clampZ I128_MIN I128_MAX z.
Definition sat_u128 (z : Z) : Z := clampZ 0 U128_MAX z.
Definition sat_u64 (z : Z) : Z := clampZ 0 U64_MAX z.
Definition sat_u32 (z : Z) : Z := clampZ 0 U32_MAX z.

(** [as] casts: truncation to the width. *)
Definition as_i128 (z : Z) : Z := wrap I128_MIN 128 z.
Definition as_u128 (z : Z) : Z := wrap 0 128 z.
Definition as_u64 (z : Z) : Z := wrap 0 64 z.
Definition as_u32 (z : Z) : Z := wrap 0 32 z.

(** Signed division and remainder truncate toward zero; a zero divisor and
    [MIN / -1] panic in every build. *)
Definition div_i128 (a b : Z) : option Z :=
  if (b =? 0) || ((a =? I128_MIN) && (b =? -1)) then None else Some (Z.quot a b).
Definition rem_i128 (a b : Z) : option Z :=
  if (b =? 0) || ((a =? I128_MIN) && (b =? -1)) then None else Some (Z.rem a b).
(** Unsigned division. *)
Definition udiv (a b : Z) : option Z := if b =? 0 then None else Some (a / b).
Definition urem (a b : Z) : option Z := if b =? 0 then None else Some (a mod b).

(** ** Facts *)

Lemma in_range_true lo hi z : in_range lo hi z = true ↔ lo <= z <= hi.
Proof. unfold in_range. rewrite andb_true_iff, !Z.leb_le. done. Qed.

Lemma arith_ok `{BuildProfile} lo hi w z : lo <= z <= hi → arith lo hi w z = Some z.
Proof. intros Hz. unfold arith. by rewrite (proj2 (in_range_true lo hi z) Hz). Qed.

Lemma i128_ok `{BuildProfile} z : in_i128 z → i128 z = Some z.
Proof. apply arith_ok. Qed.
Lemma u128_ok `{BuildProfile} z : in_u128 z → u128 z = Some z.
Proof. apply arith_ok. Qed.
Lemma u64_ok `{BuildProfile} z : in_u64 z → u64 z = Some z.
Proof. apply arith_ok. Qed.
Lemma u32_ok `{BuildProfile} z : in_u32 z → u32 z = Some z.
Proof. apply arith_ok. Qed.

Lemma checked_i128_Some z x : checked_i128 z = Some x ↔ x = z ∧ in_i128 z.
Proof.
  unfold checked_i128, in_i128. destruct (in_range _ _ z) eqn:E.
  - apply in_range_true in E. split; [intros [= ->]|intros [-> _]]; auto.
  - split; [done|]. intros [_ Hz]. by rewrite (proj2 (in_range_true _ _ _) Hz) in E.
Qed.

Lemma checked_i128_ok z : in_i128 z → checked_i128 z = Some z.
Proof. intros Hz. by apply checked_i128_Some. Qed.

Lemma wrap_range lo w z : 0 <= w → lo <= wrap lo w z < lo + 2 ^ w.
Proof.
  intros Hw. unfold wrap. assert (0 < 2 ^ w) by (apply Z.pow_pos_nonneg; lia).
  pose proof (Z.mod_pos_bound (z - lo) (2 ^ w)). lia.
Qed.

Lemma wrap_id lo w z : lo <= z < lo + 2 ^ w → wrap lo w z = z.
Proof. intros Hz. unfold wrap. rewrite Z.mod_small by lia. lia. Qed.

Lemma sat_i128_id z : in_i128 z → sat_i128 z = z.
Proof. unfold in_i128, sat_i128, clampZ. lia. Qed.
Lemma sat_i128_range z : in_i128 (sat_i128 z).
Proof. unfold in_i128, sat_i128, clampZ, I128_MIN, I128_MAX. lia. Qed.
Lemma sat_u32_id z : in_u32 z → sat_u32 z = z.
Proof. unfold in_u32, sat_u32, clampZ. lia. Qed.
Lemma sat_u64_id z : in_u64 z → sat_u64 z = z.
Proof. unfold in_u64, sat_u64, clampZ. lia. Qed.

Lemma div_i128_ok a b : 0 < b → div_i128 a b = Some (Z.quot a b).
Proof.
  intros Hb. unfold div_i128. destruct (b =? 0) eqn:E; bool_hyps; [lia|].
  destruct (b =? -1) eqn:E'; bool_hyps; [lia|]. by rewrite andb_false_r.
Qed.

Lemma rem_i128_ok a b : 0 < b → rem_i128 a b = Some (Z.rem a b).
Proof.
  intros Hb. unfold rem_i128. destruct (b =? 0) eqn:E; bool_hyps; [lia|].
  destruct (b =? -1) eqn:E'; bool_hyps; [lia|]. by rewrite andb_false_r.
Qed.

Lemma quot_abs_le a b : 0 < b → Z.abs (Z.quot a b) <= Z.abs a.
Proof.
  intros Hb. rewrite <- Z.quot_abs by lia. rewrite (Z.abs_eq b) by lia.
  rewrite Z.quot_div_nonneg by lia. apply Z.div_le_upper_bound; nia.
Qed.

Lemma quot_nonneg a b : 0 <= a → 0 < b → 0 <= Z.quot a b.
Proof. intros. apply Z.quot_pos; lia. Qed.

Lemma quot_nonpos a b : a <= 0 → 0 < b → Z.quot a b <= 0.
Proof.
  intros. pose proof (Z.quot_opp_l a b ltac:(lia)).
  pose proof (Z.quot_pos (- a) b ltac:(lia) ltac:(lia)). lia.
Qed.

Lemma quot_in_i128 a b : in_i128 a → 0 < b → in_i128 (Z.quot a b).
Proof.
  unfold in_i128, I128_MIN, I128_MAX. intros Ha Hb.
  pose proof (quot_abs_le a b Hb).
  destruct (Z_le_gt_dec 0 a).
  - pose proof (quot_nonneg a b). lia.
  - pose proof (quot_nonpos a b). lia.
Qed.

#[export] Hint Rewrite @i128_ok @u128_ok @u64_ok @u32_ok checked_i128_ok
  div_i128_ok rem_i128_ok using (unfold in_i128, in_u128, in_u64, in_u32 in *; lia) : oracle_rw.
