(* ===== verification/ReferencePricing.v ===== *)
(** * [reference_pricing.rs]: the naive reference of the aggregation rules

    The repository states its aggregation rules twice: in production code and
    in this deliberately naive reference, which sorts and scans.  The
    reference is the abstract specification of this development: the
    production routines are proved to refine it, and the general facts about
    medians and means (bounds, order independence, no overflow) are proved
    once, here. *)
From stdpp Require Import base list sorting.
From S2P Require Import Prelude Machine.
#[local] Open Scope Z_scope.
#[local] Set Default Goal Selector "!".

(** [lower + (upper - lower) / 2], each operator at [i128]. *)
Definition midpoint `{BuildProfile} (a b : Z) : option Z :=
  d ← i128 (b - a); h ← div_i128 d 2; i128 (a + h).

(** [&l[a..b]]: panics when [a > b] or [b] is past the end. *)
Definition slice {A} (l : list A) (a b : nat) : option (list A) :=
  if (a <=? b)%nat && (b <=? length l)%nat then Some (take (b - a) (drop a l)) else None.

Definition ref_median `{BuildProfile} (prices : list Z) : option Z :=
  if (length prices =? 0)%nat then Some 0
  else
    let sorted := sortZ prices in
    let n := length sorted in
    if Nat.odd n then sorted !! (n / 2)%nat
    else
      lower ← sorted !! (n / 2 - 1)%nat;
      upper ← sorted !! (n / 2)%nat;
      midpoint lower upper.

(** The two-accumulator sum of [ref_mean]; [None] outside its domain. *)
Fixpoint ref_split_sum (pos neg : Z) (prices : list Z) : option (Z * Z) :=
  match prices with
  | [] => Some (pos, neg)
  | p :: rest =>
      if 0 <=? p then pos ← checked_i128 (pos + p); ref_split_sum pos neg rest
      else neg ← checked_i128 (neg + p); ref_split_sum pos neg rest
  end.

Definition ref_mean (prices : list Z) : option Z :=
  '(pos, neg) ← ref_split_sum 0 0 prices;
  if (length prices =? 0)%nat then Some 0
  else sum ← checked_i128 (pos + neg); div_i128 sum (Z.of_nat (length prices)).

(** [((n as u32).saturating_mul(trim_percent) / 100 / 2).min(n as u32 - 1)]. *)
Definition trim_count (n : nat) (trim_percent : Z) : nat :=
  Nat.min (Z.to_nat (sat_u32 (Z.of_nat n * trim_percent) / 100 / 2)) (n - 1).

Definition ref_trimmed_mean (prices : list Z) (trim_percent : Z) : option Z :=
  if (length prices =? 0)%nat then Some 0
  else if trim_percent =? 0 then ref_mean prices
  else
    let sorted := sortZ prices in
    let n := length sorted in
    let tc := trim_count n trim_percent in
    if (tc =? 0)%nat then ref_mean sorted
    else
      trimmed ← slice sorted tc (n - tc);
      if (length trimmed =? 0)%nat then sorted !! (n / 2)%nat
      else ref_mean trimmed.

(** The volume-weighted sums, skipping non-positive volumes and saturating. *)
Fixpoint vwap_sums (weighted_sum total_volume : Z) (pv : list (Z * Z)) : Z * Z :=
  match pv with
  | [] => (weighted_sum, total_volume)
  | (p, v) :: rest =>
      if v <=? 0 then vwap_sums weighted_sum total_volume rest
      else vwap_sums (sat_i128 (weighted_sum + sat_i128 (p * v)))
                     (sat_i128 (total_volume + v)) rest
  end.

Definition ref_vwap (prices volumes : list Z) : option Z :=
  if (Nat.min (length prices) (length volumes) =? 0)%nat then Some 0
  else
    let '(weighted_sum, total_volume) := vwap_sums 0 0 (zip prices volumes) in
    if total_volume =? 0 then ref_mean prices
    else div_i128 weighted_sum total_volume.

(** ** Sums and hulls *)

Definition sumZ (l : list Z) : Z := foldr Z.add 0 l.

(** All elements lie in [[lo, hi]]. *)
Definition in_hull (lo hi : Z) (l : list Z) : Prop := ∀ x, x ∈ l → lo <= x <= hi.

(** Differences between elements fit in [i128]: what the source's
    [lower + (upper - lower) / 2] silently relies on. *)
Definition spread_ok (l : list Z) : Prop :=
  ∀ x y, x ∈ l → y ∈ l → in_i128 x ∧ y - x <= I128_MAX.

Lemma in_hull_cons lo hi x l : in_hull lo hi (x :: l) ↔ lo <= x <= hi ∧ in_hull lo hi l.
Proof.
  unfold in_hull. setoid_rewrite elem_of_cons. split.
  - intros H. split; [|intros]; apply H; auto.
  - intros [? ?] y [->|?]; auto.
Qed.

Lemma in_hull_perm lo hi l l' : l ≡ₚ l' → in_hull lo hi l → in_hull lo hi l'.
Proof. intros P H x. rewrite <- P. apply H. Qed.

Lemma in_hull_incl lo hi l l' : l' ⊆ l → in_hull lo hi l → in_hull lo hi l'.
Proof. intros I H x Hx. by apply H, I. Qed.

Lemma sumZ_hull lo hi l :
  in_hull lo hi l → Z.of_nat (length l) * lo <= sumZ l <= Z.of_nat (length l) * hi.
Proof.
  induction l as [|x l IH]; [simpl; lia|].
  intros [Hx Hl]%in_hull_cons. specialize (IH Hl).
  change (sumZ (x :: l)) with (x + sumZ l). rewrite length_cons. lia.
Qed.

Lemma sumZ_nonneg l : (∀ x, x ∈ l → 0 <= x) → 0 <= sumZ l.
Proof.
  induction l as [|y l IH]; intros Hx; [done|]. change (0 <= y + sumZ l).
  assert (0 <= y) by (apply Hx; left).
  assert (0 <= sumZ l); [|lia]. apply IH. intros z Hz. apply Hx. by right.
Qed.

Lemma sumZ_nonpos l : (∀ x, x ∈ l → x <= 0) → sumZ l <= 0.
Proof.
  induction l as [|y l IH]; intros Hx; [done|]. change (y + sumZ l <= 0).
  assert (y <= 0) by (apply Hx; left).
  assert (sumZ l <= 0); [|lia]. apply IH. intros z Hz. apply Hx. by right.
Qed.

Lemma sumZ_perm l l' : l ≡ₚ l' → sumZ l = sumZ l'.
Proof. induction 1; simpl; unfold sumZ in *; simpl; lia. Qed.

(** The truncated mean of values in a hull is in the hull. *)
Lemma quot_mean_hull lo hi s n :
  0 < n → n * lo <= s <= n * hi → lo <= Z.quot s n <= hi.
Proof.
  intros Hn [H1 H2]. destruct (Z_le_gt_dec 0 s).
  - rewrite Z.quot_div_nonneg by lia. split.
    + apply Z.div_le_lower_bound; lia.
    + apply Z.div_le_upper_bound; lia.
  - replace s with (- (- s)) by lia. rewrite Z.quot_opp_l by lia.
    rewrite Z.quot_div_nonneg by lia.
    assert (- s / n <= - lo) by (apply Z.div_le_upper_bound; lia).
    assert (- hi <= - s / n) by (apply Z.div_le_lower_bound; lia). lia.
Qed.

(** Slicing inside the bounds succeeds and yields a sub-list. *)
Lemma slice_ok {A} (l : list A) a b :
  (a <= b)%nat → (b <= length l)%nat →
  ∃ s, slice l a b = Some s ∧ length s = (b - a)%nat ∧ s ⊆ l.
Proof.
  intros Hab Hb. unfold slice. rewrite (proj2 (Nat.leb_le a b) Hab).
  rewrite (proj2 (Nat.leb_le b (length l)) Hb). eexists. split; [done|]. split.
  - rewrite length_take, length_drop. lia.
  - intros x (i & Hi)%list_elem_of_lookup. apply lookup_take_Some in Hi as [Hi _].
    rewrite lookup_drop in Hi. by eapply list_elem_of_lookup_2.
Qed.

Lemma trim_count_le n t : 0 <= t <= 100 → (2 * trim_count n t <= n)%nat.
Proof.
  intros Ht. unfold trim_count.
  assert (sat_u32 (Z.of_nat n * t) <= Z.of_nat n * 100) as Hs.
  { unfold sat_u32, clampZ. nia. }
  assert (0 <= sat_u32 (Z.of_nat n * t)) by (unfold sat_u32, clampZ, U32_MAX; lia).
  assert (sat_u32 (Z.of_nat n * t) / 100 <= Z.of_nat n) by (apply Z.div_le_upper_bound; lia).
  pose proof (Z.mul_div_le (sat_u32 (Z.of_nat n * t) / 100) 2). lia.
Qed.

(** ** Medians *)

Section Median.
Context `{BuildProfile}.
Implicit Types (l : list Z).

Lemma midpoint_spec a b :
  in_i128 a → in_i128 b → a <= b → b - a <= I128_MAX →
  midpoint a b = Some (a + (b - a) / 2) ∧ a <= a + (b - a) / 2 <= b.
Proof.
  unfold in_i128, I128_MIN, I128_MAX. intros Ha Hb Hab Hs. unfold midpoint.
  assert (0 <= (b - a) / 2) by (apply Z.div_pos; lia).
  assert ((b - a) / 2 <= b - a) by (apply Z.div_le_upper_bound; lia).
  rewrite i128_ok by (unfold in_i128, I128_MIN, I128_MAX; lia). simpl.
  rewrite div_i128_ok by lia. simpl. rewrite Z.quot_div_nonneg by lia.
  rewrite i128_ok by (unfold in_i128, I128_MIN, I128_MAX; lia). split; [done|lia].
Qed.

Lemma ref_median_perm l l' : l ≡ₚ l' → ref_median l = ref_median l'.
Proof.
  intros P. unfold ref_median. rewrite (Permutation_length P). by rewrite (sortZ_proper l l' P).
Qed.

(** The two central order statistics bracket the median. *)
Lemma ref_median_central l :
  l ≠ [] → spread_ok l →
  ∃ m a b, ref_median l = Some m ∧ a <= m <= b ∧
    sortZ l !! ((length l - 1) / 2)%nat = Some a ∧ sortZ l !! (length l / 2)%nat = Some b.
Proof.
  intros Hne Hsp. unfold ref_median. rewrite length_sortZ.
  assert (0 < length l)%nat as Hlen by (destruct l; simpl; [done|lia]).
  destruct (length l =? 0)%nat eqn:E0; bool_hyps; [lia|].
  destruct (lookup_lt_is_Some_2 (sortZ l) (length l / 2)) as [b Hb].
  { rewrite length_sortZ. apply Nat.div_lt; lia. }
  destruct (Nat.odd (length l)) eqn:Eo.
  - apply Nat.odd_spec in Eo as [k Hk]. exists b, b, b. split_and!; [done|lia|lia| |done].
    rewrite <- Hb. f_equal. rewrite Hk.
    rewrite Nat.add_sub. rewrite (Nat.add_comm (2 * k)), (Nat.mul_comm 2).
    by rewrite Nat.div_add, Nat.div_mul by lia.
  - rewrite <- Nat.negb_even in Eo. apply negb_false_iff, Nat.even_spec in Eo as [k Hk].
    assert (length l / 2 = k)%nat as Hd.
    { rewrite Hk, Nat.mul_comm. by rewrite Nat.div_mul by lia. }
    assert ((length l - 1) / 2 = k - 1)%nat as Hd'.
    { rewrite Hk. replace (2 * k - 1)%nat with (1 + (k - 1) * 2)%nat by lia.
      rewrite Nat.div_add by lia. simpl. lia. }
    rewrite Hd in *. rewrite Hd'.
    destruct (lookup_lt_is_Some_2 (sortZ l) (k - 1)) as [a Ha].
    { rewrite length_sortZ. lia. }
    rewrite Ha, Hb. simpl.
    assert (a <= b) by (eapply sorted_lookup; [apply sortZ_sorted| |exact Ha|exact Hb]; lia).
    assert (a ∈ l ∧ b ∈ l) as [Ia Ib].
    { split; apply elem_of_sortZ; by eapply list_elem_of_lookup_2. }
    destruct (Hsp a b Ia Ib) as [? ?]. destruct (Hsp b b Ib Ib) as [? _].
    destruct (midpoint_spec a b) as [-> ?]; [done..|]. eauto 10.
Qed.

Lemma ref_median_hull lo hi l :
  l ≠ [] → spread_ok l → in_hull lo hi l → ∃ m, ref_median l = Some m ∧ lo <= m <= hi.
Proof.
  intros Hne Hsp Hh.
  destruct (ref_median_central l Hne Hsp) as (m & a & b & Hm & Hab & Ha & Hb).
  exists m. split; [done|].
  pose proof (kth_in_hull l _ a lo hi Ha Hh). pose proof (kth_in_hull l _ b lo hi Hb Hh). lia.
Qed.

(** Prices as the contract stores them are non-negative, so they never
    violate [spread_ok]. *)
Lemma spread_ok_nonneg l : in_hull 0 I128_MAX l → spread_ok l.
Proof.
  intros Hh x y Hx Hy. pose proof (Hh x Hx). pose proof (Hh y Hy).
  unfold in_i128, I128_MIN, I128_MAX in *. lia.
Qed.

Lemma spread_ok_incl l l' : l' ⊆ l → spread_ok l → spread_ok l'.
Proof. intros I Hs x y Hx Hy. apply Hs; by apply I. Qed.
End Median.

#[export] Hint Resolve spread_ok_nonneg in_hull_perm in_hull_incl : oracle.

(** ** Means *)

Lemma ref_split_sum_total pos neg l p n :
  ref_split_sum pos neg l = Some (p, n) → p + n = pos + neg + sumZ l.
Proof.
  revert pos neg. induction l as [|x l IH]; intros pos neg Hs; simpl in Hs.
  - injection Hs as -> ->. simpl. lia.
  - change (sumZ (x :: l)) with (x + sumZ l).
    destruct (0 <=? x); apply bind_Some in Hs as (s & Hc & Hs);
      apply checked_i128_Some in Hc as [-> _]; apply IH in Hs; lia.
Qed.

Lemma ref_mean_exact l v :
  ref_mean l = Some v → v = Z.quot (sumZ l) (Z.of_nat (length l)).
Proof.
  unfold ref_mean. intros Hm. apply bind_Some in Hm as ([p n] & Hs & Hm).
  apply ref_split_sum_total in Hs. destruct (length l =? 0)%nat eqn:E; bool_hyps.
  - destruct l; [|done]. opt_inv. done.
  - apply bind_Some in Hm as (s & Hc & Hm). apply checked_i128_Some in Hc as [-> _].
    rewrite div_i128_ok in Hm by lia. opt_inv. f_equal. lia.
Qed.
