(* ===== verification/CorePricing.v ===== *)
(** * [core_pricing.rs]: the aggregation algorithms on slices

    Every function works on a slice of [i128] and is written in the option
    monad: [None] is a panic (index out of range, overflow under overflow
    checks, division by zero).  Loops with a data-dependent trip count carry
    fuel; [quickselect_core] starts with one more than the slice length and
    the correctness theorem shows that this always suffices. *)
From stdpp Require Import base list sorting.
From S2P Require Import Prelude Machine ReferencePricing.
#[local] Open Scope Z_scope.
#[local] Set Default Goal Selector "!".

Definition MEDIAN_WINDOW : nat := 128.

(** [if arr[i] > arr[j] { arr.swap(i, j) }]. *)
Definition order_pair (arr : list Z) (i j : nat) : option (list Z) :=
  x ← arr !! i; y ← arr !! j;
  if y <? x then aswap arr i j else Some arr.

(** The Lomuto scan [while i < hi] of [partition_core]; [n] is the number of
    iterations left. *)
Fixpoint partition_scan (n : nat) (arr : list Z) (i store : nat) (pivot : Z)
    : option (list Z * nat) :=
  match n with
  | O => Some (arr, store)
  | S n =>
      x ← arr !! i;
      if x <=? pivot then
        arr ← aswap arr i store;
        partition_scan n arr (S i) (S store) pivot
      else partition_scan n arr (S i) store pivot
  end.

Definition partition_core (arr : list Z) (lo hi : nat) : option (list Z * nat) :=
  let mid := (lo + (hi - lo) / 2)%nat in
  arr ← order_pair arr lo mid;
  arr ← order_pair arr lo hi;
  arr ← order_pair arr mid hi;
  pivot ← arr !! mid;
  arr ← aswap arr mid hi;
  '(arr, store) ← partition_scan (hi - lo) arr lo lo pivot;
  arr ← aswap arr store hi;
  Some (arr, store).

(** The 2- and 3-element windows are sorted directly. *)
Definition sort_tiny (arr : list Z) (lo hi : nat) : option (list Z) :=
  arr ← order_pair arr lo (lo + 1);
  if (hi - lo =? 2)%nat then
    arr ← order_pair arr (lo + 1) hi;
    order_pair arr lo (lo + 1)
  else Some arr.

Fixpoint quickselect_loop (fuel : nat) (arr : list Z) (lo hi k : nat) : option (list Z) :=
  match fuel with
  | O => None
  | S fuel =>
      if (hi <=? lo)%nat then Some arr
      else if (hi - lo <? 3)%nat then sort_tiny arr lo hi
      else
        '(arr, pivot) ← partition_core arr lo hi;
        if (k <? pivot)%nat then quickselect_loop fuel arr lo (pivot - 1) k
        else if (pivot <? k)%nat then quickselect_loop fuel arr (pivot + 1) hi k
        else Some arr
  end.

Definition quickselect_core (arr : list Z) (k : nat) : option (list Z) :=
  let n := length arr in
  if (n <=? 1)%nat || (n <=? k)%nat then Some arr
  else quickselect_loop (S n) arr 0 (n - 1) k.

(** [let mut a = buf[0]; for &v in &buf[1..upper] { if v > a { a = v } }]. *)
Definition max_prefix (buf : list Z) (upper : nat) : option Z :=
  a ← buf !! 0%nat;
  Some (foldl (λ a v, if a <? v then v else a) a (take (upper - 1) (drop 1 buf))).

Definition median_core `{BuildProfile} (prices : list Z) : option Z :=
  match prices with
  | [] => Some 0
  | [p] => Some p
  | _ =>
      let buf := take MEDIAN_WINDOW prices in
      let len := length buf in
      if Nat.odd len then
        buf ← quickselect_core buf (len / 2);
        buf !! (len / 2)%nat
      else
        let upper_mid := (len / 2)%nat in
        buf ← quickselect_core buf upper_mid;
        b ← buf !! upper_mid;
        a ← max_prefix buf upper_mid;
        midpoint a b
  end.

(** [sum.checked_add(p)] over the slice; [None] when a partial sum leaves
    [i128]. *)
Fixpoint checked_sum (sum : Z) (prices : list Z) : option Z :=
  match prices with
  | [] => Some sum
  | p :: rest => s ← checked_i128 (sum + p); checked_sum s rest
  end.

(** The accumulation loop of [mean_no_overflow]. *)
Fixpoint quot_rem_loop `{BuildProfile} (n quotient remainder : Z) (prices : list Z)
    : option (Z * Z) :=
  match prices with
  | [] => Some (quotient, remainder)
  | p :: rest =>
      q ← div_i128 p n; quotient ← i128 (quotient + q);
      r ← rem_i128 p n; remainder ← i128 (remainder + r);
      quot_rem_loop n quotient remainder rest
  end.

Definition mean_no_overflow `{BuildProfile} (prices : list Z) : option Z :=
  let n := Z.of_nat (length prices) in
  '(quotient, remainder) ← quot_rem_loop n 0 0 prices;
  t ← div_i128 remainder n;
  i128 (quotient + t).

Definition mean_core `{BuildProfile} (prices : list Z) : option Z :=
  if (length prices =? 0)%nat then Some 0
  else match checked_sum 0 prices with
       | Some sum => div_i128 sum (Z.of_nat (length prices))
       | None => mean_no_overflow prices
       end.

Definition trimmed_mean_core `{BuildProfile} (prices : list Z) (trim_percent : Z) : option Z :=
  if (length prices =? 0)%nat then Some 0
  else if trim_percent =? 0 then mean_core prices
  else
    let sorted := sortZ (take MEDIAN_WINDOW prices) in
    let len := length sorted in
    let tc := trim_count len trim_percent in
    if (tc =? 0)%nat then mean_core sorted
    else
      trimmed ← slice sorted tc (len - tc);
      if (length trimmed =? 0)%nat then sorted !! (len / 2)%nat
      else mean_core trimmed.

(** The cumulative-weight walk of [weighted_median_core]: returns the index it
    stops at and the cumulative weight there.  [idx] is the index of the head
    of the list and [last] the value of [median_idx] so far. *)
Fixpoint weight_walk (half : Z) (idx last : nat) (cumulative : Z) (pairs : list (Z * Z))
    : nat * Z :=
  match pairs with
  | [] => (last, cumulative)
  | (_, w) :: rest =>
      let cumulative := sat_i128 (cumulative + w) in
      if half <? cumulative then (idx, cumulative)
      else weight_walk half (S idx) idx cumulative rest
  end.

Definition total_weight (pairs : list (Z * Z)) : Z :=
  foldl (λ acc '(_, w), sat_i128 (acc + w)) 0 pairs.

(** [sort_unstable_by_key] leaves the order of equal keys open, so the sort is
    an argument: any function meeting [KeySort] below. *)
Definition weighted_median_core `{BuildProfile}
    (sort_by_price : list (Z * Z) → list (Z * Z)) (prices weights : list Z) : option Z :=
  match prices with
  | [] => Some 0
  | [p] => Some p
  | _ =>
      if negb (length weights =? length prices)%nat then median_core prices
      else
        let len := Nat.min (length prices) MEDIAN_WINDOW in
        let pairs := sort_by_price
          (take len (zip_with (λ p w, (p, Z.max w 1)) prices weights)) in
        let total := total_weight pairs in
        let half := Z.quot total 2 in
        let '(median_idx, cumulative) := weight_walk half 0 0 0 pairs in
        price_at ← fst <$> pairs !! median_idx;
        if (Z.rem total 2 =? 0) && (cumulative =? half) && (median_idx + 1 <? len)%nat then
          next ← fst <$> pairs !! (median_idx + 1)%nat;
          midpoint price_at next
        else Some price_at
  end.

(** ** Quickselect *)

Section Quickselect.
Implicit Types (a arr : list Z).

(** Reading a cell that exists. *)
Lemma get_ok arr i : (i < length arr)%nat → ∃ x, arr !! i = Some x.
Proof. intros Hi. by apply lookup_lt_is_Some_2. Qed.

Lemma order_pair_spec arr i j lo hi :
  (lo <= i <= hi)%nat → (lo <= j <= hi)%nat → (hi < length arr)%nat →
  ∃ b, order_pair arr i j = Some b ∧ seg_perm lo hi arr b ∧ length b = length arr ∧
    (∀ x y, arr !! i = Some x → arr !! j = Some y →
       b !! i = Some (Z.min x y) ∧ b !! j = Some (Z.max x y)) ∧
    (∀ k, k ≠ i → k ≠ j → b !! k = arr !! k).
Proof.
  intros Hi Hj Hlen. destruct (get_ok arr i) as [x Hx]; [lia|].
  destruct (get_ok arr j) as [y Hy]; [lia|].
  unfold order_pair. rewrite Hx, Hy. simpl. destruct (y <? x) eqn:E; bool_hyps.
  - destruct (aswap_spec arr i j lo hi Hi Hj Hlen) as (b & E1 & E2 & E3 & E4 & E5 & E6).
    exists b. split_and!; try done. intros x' y' [= <-] [= <-].
    rewrite E4, E5, Hx, Hy, Z.min_r, Z.max_l by lia. done.
  - exists arr. split_and!; try done; auto with oracle. intros x' y' [= <-] [= <-].
    rewrite Z.min_l, Z.max_r by lia. done.
Qed.

(** What the Lomuto scan establishes. *)
Lemma partition_scan_spec pivot lo hi n : ∀ arr i store,
  (lo <= store <= i)%nat → (i + n = hi)%nat → (hi < length arr)%nat →
  (∀ j x, (lo <= j < store)%nat → arr !! j = Some x → x <= pivot) →
  (∀ j x, (store <= j < i)%nat → arr !! j = Some x → pivot < x) →
  ∃ b s, partition_scan n arr i store pivot = Some (b, s) ∧
    seg_perm lo hi arr b ∧ b !! hi = arr !! hi ∧ (store <= s <= hi)%nat ∧
    (∀ j x, (lo <= j < s)%nat → b !! j = Some x → x <= pivot) ∧
    (∀ j x, (s <= j < hi)%nat → b !! j = Some x → pivot < x).
Proof.
  induction n as [|n IH]; intros arr i store Hs Hn Hlen Hlo Hhi; simpl.
  { exists arr, store. replace i with hi in Hhi by lia.
    split_and!; auto with oracle; lia. }
  destruct (get_ok arr i) as [x Hx]; [lia|]. rewrite Hx. simpl.
  destruct (x <=? pivot) eqn:Ex; bool_hyps.
  - destruct (aswap_spec arr i store lo (hi - 1)) as (b & E1 & E2 & E3 & E4 & E5 & E6);
      [lia..|]. rewrite E1. simpl.
    assert (b !! hi = arr !! hi) as Hbh by (apply E6; lia).
    destruct (IH b (S i) (S store)) as (c & s & H1 & H2 & H3 & H4 & H5 & H6);
      [lia|lia|lia|..].
    + intros j y Hj Hy. destruct (decide (j = store)) as [->|].
      * rewrite E5, Hx in Hy. by simplify_eq.
      * rewrite E6 in Hy by lia. eapply Hlo; [|done]. lia.
    + intros j y Hj Hy. destruct (decide (j = i)) as [->|].
      * rewrite E4 in Hy. eapply Hhi; [|done]. lia.
      * rewrite E6 in Hy by lia. eapply Hhi; [|done]. lia.
    + exists c, s. split_and!; try done; try lia; [|congruence].
      eapply seg_perm_trans; [|done]. eapply seg_perm_widen; [| |done]; lia.
  - destruct (IH arr (S i) store) as (c & s & H1 & H2 & H3 & H4 & H5 & H6);
      [lia|lia|lia|done|..].
    + intros j y Hj Hy. destruct (decide (j = i)) as [->|].
      * rewrite Hx in Hy. simplify_eq. lia.
      * eapply Hhi; [|done]. lia.
    + exists c, s. split_and!; try done; lia.
Qed.

Lemma partition_core_spec arr lo hi :
  (lo < hi)%nat → (hi < length arr)%nat →
  ∃ b s v, partition_core arr lo hi = Some (b, s) ∧ seg_perm lo hi arr b ∧
    (lo <= s <= hi)%nat ∧ b !! s = Some v ∧
    (∀ j x, (lo <= j < s)%nat → b !! j = Some x → x <= v) ∧
    (∀ j x, (s < j <= hi)%nat → b !! j = Some x → v <= x).
Proof.
  intros Hlt Hlen. unfold partition_core.
  set (mid := (lo + (hi - lo) / 2)%nat).
  assert (lo <= mid < hi)%nat as Hmid.
  { unfold mid. pose proof (Nat.div_lt (hi - lo) 2). lia. }
  destruct (order_pair_spec arr lo mid lo hi) as (a1 & E1 & P1 & L1 & _); [lia..|].
  rewrite E1. simpl.
  destruct (order_pair_spec a1 lo hi lo hi) as (a2 & E2 & P2 & L2 & _); [lia..|].
  rewrite E2. simpl.
  destruct (order_pair_spec a2 mid hi lo hi) as (a3 & E3 & P3 & L3 & _); [lia..|].
  rewrite E3. simpl.
  destruct (get_ok a3 mid) as [v Hv]; [lia|]. rewrite Hv. simpl.
  destruct (aswap_spec a3 mid hi lo hi) as (a4 & E4 & P4 & L4 & _ & Hv4 & _); [lia..|].
  rewrite E4. simpl.
  destruct (partition_scan_spec v lo hi (hi - lo) a4 lo lo)
    as (a5 & s & E5 & P5 & Hh & Hs & Hlo & Hhi); [lia..|].
  rewrite E5. simpl.
  assert (length a5 = length arr) as L5.
  { rewrite <- (seg_perm_length _ _ _ _ P5). lia. }
  destruct (aswap_spec a5 s hi lo hi) as (a6 & E6 & P6 & L6 & H6s & H6h & H6o); [lia..|].
  rewrite E6. simpl. exists a6, s, v. split_and!; try done; try lia.
  - eauto 8 using seg_perm_trans.
  - by rewrite H6s, Hh, Hv4.
  - intros j x Hj Hx. rewrite H6o in Hx by lia. eapply Hlo; [|done]. lia.
  - intros j x Hj Hx. destruct (decide (j = hi)) as [->|].
    + rewrite H6h in Hx. destruct (decide (s = hi)) as [->|].
      * lia.
      * assert (v < x) by (eapply Hhi; [|done]; lia). lia.
    + rewrite H6o in Hx by lia. assert (v < x) by (eapply Hhi; [|done]; lia). lia.
Qed.

(** Every cell of the window lies between the cells outside it. *)
Definition window_ok arr (lo hi : nat) : Prop :=
  (∀ i j x y, (i < lo)%nat → (lo <= j)%nat → arr !! i = Some x → arr !! j = Some y → x <= y) ∧
  (∀ i j x y, (i <= hi)%nat → (hi < j)%nat → arr !! i = Some x → arr !! j = Some y → x <= y).

Lemma window_ok_seg a b lo hi :
  (lo <= S hi)%nat → seg_perm lo hi a b → window_ok a lo hi → window_ok b lo hi.
Proof.
  intros Hle P [H1 H2]. pose proof P as [_ O]. split.
  - intros i j x y Hi Hj Hx Hy. rewrite <- O in Hx by lia.
    destruct (decide (hi < j)%nat).
    { rewrite <- O in Hy by lia. eapply H1; [..|exact Hx|exact Hy]; lia. }
    eapply (seg_perm_forall (λ z, x <= z)); [exact Hle|exact P| |by apply conj; [exact Hj|lia]|exact Hy].
    intros k z Hk Hz. eapply H1; [..|exact Hx|exact Hz]; lia.
  - intros i j x y Hi Hj Hx Hy. rewrite <- O in Hy by lia.
    destruct (decide (i < lo)%nat).
    { rewrite <- O in Hx by lia. eapply H2; [..|exact Hx|exact Hy]; lia. }
    eapply (seg_perm_forall (λ z, z <= y)); [exact Hle|exact P| |by apply conj; [|exact Hi]; lia|exact Hx].
    intros k z Hk Hz. eapply H2; [..|exact Hz|exact Hy]; lia.
Qed.

Lemma sort_tiny_spec arr lo hi :
  (lo < hi)%nat → (hi - lo < 3)%nat → (hi < length arr)%nat →
  ∃ b, sort_tiny arr lo hi = Some b ∧ seg_perm lo hi arr b ∧
    (∀ i j x y, (lo <= i <= j)%nat → (j <= hi)%nat →
       b !! i = Some x → b !! j = Some y → x <= y).
Proof.
  intros Hlt H3 Hlen. unfold sort_tiny.
  destruct (get_ok arr lo) as [x Hx]; [lia|].
  destruct (get_ok arr (lo + 1)) as [y Hy]; [lia|].
  destruct (order_pair_spec arr lo (lo + 1) lo hi) as (a1 & E1 & P1 & L1 & M1 & O1); [lia..|].
  rewrite E1. simpl. destruct (M1 x y Hx Hy) as [M1x M1y]. clear M1.
  destruct (hi - lo =? 2)%nat eqn:E; bool_hyps.
  - destruct (get_ok arr hi) as [z Hz]; [lia|]. rewrite <- (O1 hi) in Hz by lia.
    destruct (order_pair_spec a1 (lo + 1) hi lo hi) as (a2 & E2 & P2 & L2 & M2 & O2); [lia..|].
    rewrite E2. simpl. destruct (M2 _ _ M1y Hz) as [M2y M2z]. clear M2.
    rewrite <- (O2 lo) in M1x by lia.
    destruct (order_pair_spec a2 lo (lo + 1) lo hi) as (a3 & E3 & P3 & L3 & M3 & O3); [lia..|].
    destruct (M3 _ _ M1x M2y) as [M3x M3y]. clear M3. rewrite <- (O3 hi) in M2z by lia.
    exists a3. split_and!; [done|by eauto using seg_perm_trans|].
    intros i j u v Hi Hj Hu Hv.
    assert (i = lo ∨ i = lo + 1 ∨ i = hi)%nat as [->|[->| ->]] by lia;
    assert (j = lo ∨ j = lo + 1 ∨ j = hi)%nat as [->|[->| ->]] by lia;
      simplify_eq; lia.
  - exists a1. split_and!; [done..|]. intros i j u v Hi Hj Hu Hv.
    assert (i = lo ∨ i = lo + 1)%nat as [->| ->] by lia;
    assert (j = lo ∨ j = lo + 1)%nat as [->| ->] by lia; simplify_eq; lia.
Qed.

(** A cell whose window is closed around it is placed. *)
Lemma window_placed arr lo hi k v :
  window_ok arr lo hi → (lo <= k <= hi)%nat → arr !! k = Some v →
  (∀ j x, (lo <= j < k)%nat → arr !! j = Some x → x <= v) →
  (∀ j x, (k < j <= hi)%nat → arr !! j = Some x → v <= x) →
  placed arr k v.
Proof.
  intros [W1 W2] Hk Hv Hlo Hhi. split; [done|]. split; intros i x Hi Hx.
  - destruct (decide (i < lo)%nat).
    + eapply W1; [..|exact Hx|exact Hv]; lia.
    + eapply Hlo; [|done]. lia.
  - destruct (decide (hi < i)%nat).
    + eapply W2; [..|exact Hv|exact Hx]; lia.
    + eapply Hhi; [|done]. lia.
Qed.

(** Shrinking the window to one side of a partition point. *)
Lemma window_ok_left arr lo hi s v :
  window_ok arr lo hi → (lo <= s <= hi)%nat → arr !! s = Some v →
  (∀ j x, (lo <= j < s)%nat → arr !! j = Some x → x <= v) →
  (∀ j x, (s < j <= hi)%nat → arr !! j = Some x → v <= x) →
  (lo < s)%nat → window_ok arr lo (s - 1).
Proof.
  intros W Hs Hv Hlo Hhi Hlt.
  destruct (window_placed arr lo hi s v W Hs Hv Hlo Hhi) as (_ & Q1 & Q2).
  destruct W as [W1 W2]. split; [exact W1|].
  intros i j x y Hi Hj Hx Hy. assert (x <= v) by (eapply Q1; [|done]; lia).
  destruct (decide (j = s)) as [->|]; [simplify_eq; lia|].
  assert (v <= y) by (eapply Q2; [|done]; lia). lia.
Qed.

Lemma window_ok_right arr lo hi s v :
  window_ok arr lo hi → (lo <= s <= hi)%nat → arr !! s = Some v →
  (∀ j x, (lo <= j < s)%nat → arr !! j = Some x → x <= v) →
  (∀ j x, (s < j <= hi)%nat → arr !! j = Some x → v <= x) →
  window_ok arr (s + 1) hi.
Proof.
  intros W Hs Hv Hlo Hhi.
  destruct (window_placed arr lo hi s v W Hs Hv Hlo Hhi) as (_ & Q1 & Q2).
  destruct W as [W1 W2]. split; [|exact W2].
  intros i j x y Hi Hj Hx Hy. assert (v <= y) by (eapply Q2; [|done]; lia).
  destruct (decide (i = s)) as [->|]; [simplify_eq; lia|].
  assert (x <= v) by (eapply Q1; [|done]; lia). lia.
Qed.

Lemma quickselect_loop_spec k fuel : ∀ arr lo hi,
  (lo <= k <= hi)%nat → (hi < length arr)%nat → (hi - lo < fuel)%nat →
  window_ok arr lo hi →
  ∃ b v, quickselect_loop fuel arr lo hi k = Some b ∧ arr ≡ₚ b ∧ placed b k v.
Proof.
  induction fuel as [|fuel IH]; intros arr lo hi Hk Hlen Hf W; [lia|]. simpl.
  destruct (hi <=? lo)%nat eqn:E1; bool_hyps.
  { destruct (get_ok arr k) as [v Hv]; [lia|]. exists arr, v. split_and!; [done..|].
    eapply window_placed; [exact W|lia|done|..]; intros; lia. }
  destruct (hi - lo <? 3)%nat eqn:E2; bool_hyps.
  { destruct (sort_tiny_spec arr lo hi) as (b & Eb & P & S); [lia..|].
    destruct (get_ok b k) as [v Hv]; [rewrite <- (seg_perm_length _ _ _ _ P); lia|].
    exists b, v. split_and!; [done|by destruct P|].
    eapply window_placed; [|exact Hk|done|..].
    - eapply window_ok_seg; [|exact P|exact W]. lia.
    - intros j x Hj Hx. eapply S; [..|exact Hx|exact Hv]; lia.
    - intros j x Hj Hx. eapply S; [..|exact Hv|exact Hx]; lia. }
  destruct (partition_core_spec arr lo hi) as (b & s & v & Eb & P & Hs & Hv & Hlo & Hhi);
    [lia..|]. rewrite Eb. simpl.
  assert (window_ok b lo hi) as Wb by (eapply window_ok_seg; [|exact P|exact W]; lia).
  pose proof (seg_perm_length _ _ _ _ P) as HL.
  destruct (k <? s)%nat eqn:E3; bool_hyps; [|destruct (s <? k)%nat eqn:E4; bool_hyps].
  - destruct (IH b lo (s - 1)%nat) as (c & w & Ec & Pc & Hw); [lia..| |].
    { eapply window_ok_left; eauto; lia. }
    exists c, w. split_and!; [done| |done]. destruct P. by etrans.
  - destruct (IH b (s + 1)%nat hi) as (c & w & Ec & Pc & Hw); [lia..| |].
    { eapply window_ok_right; eauto. }
    exists c, w. split_and!; [done| |done]. destruct P. by etrans.
  - assert (s = k) as -> by lia. exists b, v. split_and!; [done|by destruct P|].
    eapply window_placed; eauto.
Qed.

Lemma quickselect_core_spec arr k :
  (k < length arr)%nat →
  ∃ b v, quickselect_core arr k = Some b ∧ arr ≡ₚ b ∧ placed b k v.
Proof.
  intros Hk. unfold quickselect_core.
  destruct ((length arr <=? 1)%nat || (length arr <=? k)%nat) eqn:E.
  - bool_hyps. destruct E as [E|E]; bool_hyps; [|lia].
    destruct arr as [|x [|? ?]]; simpl in *; try lia.
    assert (k = 0%nat) as -> by lia. exists [x], x. split_and!; [done..|].
    apply sorted_placed; [repeat constructor|done].
  - apply quickselect_loop_spec; [lia..|].
    split; intros i j x y Hi Hj Hx Hy; [lia|].
    apply lookup_lt_Some in Hy. lia.
Qed.
End Quickselect.

(** ** The median of the core refines the reference *)

Lemma fold_max_spec l : ∀ a,
  let m := foldl (λ a v, if a <? v then v else a) a l in
  m ∈ a :: l ∧ ∀ x, x ∈ a :: l → x <= m.
Proof.
  induction l as [|h l IH]; intros a; simpl.
  { split; [by left|]. intros x [->|Hx]%elem_of_cons; [lia|]. by apply elem_of_nil in Hx. }
  destruct (IH (if a <? h then h else a)) as [I1 I2]. split.
  - apply elem_of_cons in I1 as [->|I1]; [|by do 2 right].
    destruct (a <? h); [right|]; left.
  - intros x Hx. destruct (a <? h) eqn:E; bool_hyps;
      (apply elem_of_cons in Hx as [->|Hx]; [|apply elem_of_cons in Hx as [->|Hx]]);
      try (apply I2; by repeat constructor).
    + assert (h <= _) by (apply I2; left). lia.
    + assert (a <= _) by (apply I2; left). lia.
Qed.

Lemma max_prefix_spec buf upper :
  (0 < upper <= length buf)%nat →
  ∃ m, max_prefix buf upper = Some m ∧ m ∈ take upper buf ∧
    ∀ x, x ∈ take upper buf → x <= m.
Proof.
  intros Hu. destruct buf as [|h buf]; simpl in *; [lia|].
  destruct upper as [|u]; [lia|]. unfold max_prefix. simpl. rewrite Nat.sub_0_r.
  eexists. split; [done|]. unfold drop. apply fold_max_spec.
Qed.

Section MedianCore.
Context `{BuildProfile}.

Lemma median_core_sel buf :
  (2 <= length buf)%nat →
  (if Nat.odd (length buf) then
     b ← quickselect_core buf (length buf / 2); b !! (length buf / 2)%nat
   else
     b' ← quickselect_core buf (length buf / 2);
     b ← b' !! (length buf / 2)%nat;
     a ← max_prefix b' (length buf / 2);
     midpoint a b) = ref_median buf.
Proof.
  intros Hlen. unfold ref_median. rewrite length_sortZ.
  destruct (length buf =? 0)%nat eqn:E0; bool_hyps; [lia|].
  assert (0 < length buf / 2 < length buf)%nat as Hh.
  { split; [apply Nat.div_str_pos; lia|apply Nat.div_lt; lia]. }
  remember (length buf / 2)%nat as k eqn:Ek. clear Ek.
  destruct (quickselect_core_spec buf k) as (b & v & -> & P & Hp); [lia|].
  rewrite (sortZ_proper _ _ P), (placed_kth _ _ _ Hp).
  pose proof Hp as (Hv & _ & _). cbn. rewrite Hv. cbn.
  destruct (Nat.odd (length buf)); [done|].
  destruct (max_prefix_spec b k) as (m & -> & Hm & Hmax).
  { rewrite <- (Permutation_length P). lia. }
  destruct k as [|k]; [lia|]. rewrite Nat.sub_succ, Nat.sub_0_r.
  by rewrite (placed_pred b k v m).
Qed.

Lemma median_core_ref prices :
  median_core prices = ref_median (take MEDIAN_WINDOW prices).
Proof.
  destruct prices as [|p [|q rest]]; [done..|].
  unfold median_core. set (buf := take MEDIAN_WINDOW (p :: q :: rest)).
  rewrite <- (median_core_sel buf); [done|].
  unfold buf. rewrite length_take. unfold MEDIAN_WINDOW. simpl. lia.
Qed.
End MedianCore.

(** ** The mean of the core is the truncated mean *)

Lemma checked_sum_total s l v : checked_sum s l = Some v → v = s + sumZ l.
Proof.
  revert s. induction l as [|x l IH]; intros s Hs; simpl in Hs.
  - injection Hs as ->. simpl. lia.
  - apply bind_Some in Hs as (t & Hc & Hs). apply checked_i128_Some in Hc as [-> _].
    apply IH in Hs. change (sumZ (x :: l)) with (x + sumZ l). lia.
Qed.

(** All of one sign. *)
Definition same_sign (l : list Z) : Prop := (∀ x, x ∈ l → 0 <= x) ∨ (∀ x, x ∈ l → x <= 0).

Section Mean.
Context `{BuildProfile}.

Lemma quot_rem_loop_nonneg n l : ∀ q r,
  0 < n → 0 <= q → 0 <= r → (∀ x, x ∈ l → 0 <= x) →
  q * n + r + sumZ l <= n * I128_MAX → r + Z.of_nat (length l) * n <= I128_MAX →
  ∃ q' r', quot_rem_loop n q r l = Some (q', r') ∧ 0 <= q' ∧ 0 <= r' <= I128_MAX ∧
    q' * n + r' = q * n + r + sumZ l.
Proof.
  induction l as [|x l IH]; intros q r Hn Hq Hr Hx Hb Hrb.
  { exists q, r. simpl in *. split_and!; try done; lia. }
  change (sumZ (x :: l)) with (x + sumZ l) in *. rewrite length_cons in Hrb.
  assert (0 <= x) as Hx0 by (apply Hx; left).
  assert (0 <= sumZ l) by (apply sumZ_nonneg; intros y Hy; apply Hx; by right).
  pose proof (Z.quot_rem' x n) as E. pose proof (Z.rem_nonneg x n).
  pose proof (Z.rem_bound_pos x n). pose proof (quot_nonneg x n).
  unfold I128_MAX in *. simpl.
  rewrite div_i128_ok, rem_i128_ok by lia. simpl.
  rewrite i128_ok by (unfold in_i128, I128_MIN, I128_MAX; nia). simpl.
  rewrite i128_ok by (unfold in_i128, I128_MIN, I128_MAX; nia). simpl.
  destruct (IH (q + Z.quot x n) (r + Z.rem x n)) as (q' & r' & E' & ? & ? & ?);
    [lia|lia|lia| |nia|nia|].
  - intros y Hy. apply Hx. by right.
  - exists q', r'. split_and!; try done; try lia; nia.
Qed.

Lemma quot_rem_loop_nonpos n l : ∀ q r,
  0 < n → q <= 0 → r <= 0 → (∀ x, x ∈ l → x <= 0) →
  n * I128_MIN <= q * n + r + sumZ l → I128_MIN <= r - Z.of_nat (length l) * n →
  ∃ q' r', quot_rem_loop n q r l = Some (q', r') ∧ q' <= 0 ∧ I128_MIN <= r' <= 0 ∧
    q' * n + r' = q * n + r + sumZ l.
Proof.
  induction l as [|x l IH]; intros q r Hn Hq Hr Hx Hb Hrb.
  { exists q, r. simpl in *. split_and!; try done; lia. }
  change (sumZ (x :: l)) with (x + sumZ l) in *. rewrite length_cons in Hrb.
  assert (x <= 0) as Hx0 by (apply Hx; left).
  assert (sumZ l <= 0) by (apply sumZ_nonpos; intros y Hy; apply Hx; by right).
  pose proof (Z.quot_rem' x n) as E. pose proof (Z.rem_nonpos x n ltac:(lia) ltac:(lia)).
  pose proof (Z.rem_bound_abs x n ltac:(lia)). pose proof (quot_nonpos x n).
  unfold I128_MIN in *. simpl.
  rewrite div_i128_ok, rem_i128_ok by lia. simpl.
  rewrite i128_ok by (unfold in_i128, I128_MIN, I128_MAX; nia). simpl.
  rewrite i128_ok by (unfold in_i128, I128_MIN, I128_MAX; nia). simpl.
  destruct (IH (q + Z.quot x n) (r + Z.rem x n)) as (q' & r' & E' & ? & ? & ?);
    [lia|lia|lia| |nia|nia|].
  - intros y Hy. apply Hx. by right.
  - exists q', r'. split_and!; try done; try lia; nia.
Qed.

Lemma mean_no_overflow_exact l :
  l ≠ [] → in_hull I128_MIN I128_MAX l → Z.of_nat (length l) < 2 ^ 62 → same_sign l →
  mean_no_overflow l = Some (Z.quot (sumZ l) (Z.of_nat (length l))).
Proof.
  intros Hne Hh Hlen Hs. unfold mean_no_overflow.
  assert (0 < Z.of_nat (length l)) as Hn by (destruct l; simpl; [done|lia]).
  set (n := Z.of_nat (length l)) in *.
  pose proof (sumZ_hull _ _ _ Hh) as Hsum.
  pose proof (quot_mean_hull I128_MIN I128_MAX (sumZ l) n Hn Hsum) as Hq.
  destruct Hs as [Hs|Hs].
  - destruct (quot_rem_loop_nonneg n l 0 0) as (q & r & -> & ? & ? & E);
      [lia..|done|lia|unfold I128_MAX; fold n; nia|].
    simpl. rewrite div_i128_ok by lia. simpl.
    assert (Z.quot (sumZ l) n = q + Z.quot r n) as Eq.
    { replace (sumZ l) with (r + q * n) by lia. rewrite Z.quot_add; nia. }
    rewrite i128_ok; [by rewrite Eq|]. rewrite <- Eq. done.
  - destruct (quot_rem_loop_nonpos n l 0 0) as (q & r & -> & ? & ? & E);
      [lia..|done|lia|unfold I128_MIN; fold n; nia|].
    simpl. rewrite div_i128_ok by lia. simpl.
    assert (Z.quot (sumZ l) n = q + Z.quot r n) as Eq.
    { replace (sumZ l) with (r + q * n) by lia. rewrite Z.quot_add; nia. }
    rewrite i128_ok; [by rewrite Eq|]. rewrite <- Eq. done.
Qed.

Lemma mean_core_value l :
  l ≠ [] → in_hull I128_MIN I128_MAX l → Z.of_nat (length l) < 2 ^ 62 →
  same_sign l ∨ is_Some (checked_sum 0 l) →
  mean_core l = Some (Z.quot (sumZ l) (Z.of_nat (length l))).
Proof.
  intros Hne Hh Hlen Hs. unfold mean_core.
  assert (0 < length l)%nat by (destruct l; simpl; [done|lia]).
  destruct (length l =? 0)%nat eqn:E; bool_hyps; [lia|].
  destruct (checked_sum 0 l) as [s|] eqn:Es.
  - rewrite div_i128_ok by lia. apply checked_sum_total in Es. by subst.
  - destruct Hs as [Hs|[? ?]]; [|done]. by apply mean_no_overflow_exact.
Qed.

Lemma mean_core_hull lo hi l :
  l ≠ [] → in_hull lo hi l → 0 <= lo → hi <= I128_MAX → Z.of_nat (length l) < 2 ^ 62 →
  ∃ v, mean_core l = Some v ∧ lo <= v <= hi.
Proof.
  intros Hne Hh Hlo Hhi Hlen.
  assert (0 < Z.of_nat (length l)) by (destruct l; simpl; [done|lia]).
  rewrite mean_core_value; [|done| |done|].
  - eexists. split; [done|]. apply quot_mean_hull; [lia|]. by apply sumZ_hull.
  - intros x Hx. specialize (Hh x Hx). unfold I128_MIN. lia.
  - left. left. intros x Hx. specialize (Hh x Hx). lia.
Qed.
End Mean.

(** ** The trimmed mean *)

Lemma trimmed_mean_core_hull `{BuildProfile} lo hi l t :
  l ≠ [] → in_hull lo hi l → 0 <= lo → hi <= I128_MAX → Z.of_nat (length l) < 2 ^ 62 →
  0 <= t <= 100 → ∃ v, trimmed_mean_core l t = Some v ∧ lo <= v <= hi.
Proof.
  intros Hne Hh Hlo Hhi Hlen Ht. unfold trimmed_mean_core.
  assert (0 < length l)%nat by (destruct l; simpl; [done|lia]).
  destruct (length l =? 0)%nat eqn:E; bool_hyps; [lia|].
  destruct (t =? 0); [by apply mean_core_hull|].
  set (s := sortZ (take MEDIAN_WINDOW l)).
  assert (s ⊆ l) as Is.
  { intros x Hx. apply elem_of_sortZ, elem_of_take_lookup in Hx as (i & _ & Hi).
    by eapply list_elem_of_lookup_2. }
  assert (in_hull lo hi s) as Hs by eauto with oracle.
  assert (length s = Nat.min MEDIAN_WINDOW (length l)) as Ls
    by (unfold s; by rewrite length_sortZ, length_take).
  clearbody s. assert (0 < length s)%nat by (unfold MEDIAN_WINDOW in *; lia).
  assert (s ≠ []) by (intros ->; simpl in *; lia).
  destruct (trim_count (length s) t =? 0)%nat; [apply mean_core_hull; auto; lia|].
  pose proof (trim_count_le (length s) t Ht).
  destruct (slice_ok s (trim_count (length s) t) (length s - trim_count (length s) t))
    as (m & -> & Lm & Im); [lia..|]. cbn.
  destruct (length m =? 0)%nat eqn:Em; bool_hyps.
  - destruct (lookup_lt_is_Some_2 s (length s / 2)) as [v Hv]; [apply Nat.div_lt; lia|].
    exists v. split; [done|]. apply Hs. by eapply list_elem_of_lookup_2.
  - apply mean_core_hull; eauto with oracle; [by intros ->|]. rewrite Lm. lia.
Qed.

(** ** The weighted median *)

(** The weight carried by the pairs whose price satisfies [f]. *)
Definition weight_where (f : Z → bool) (pairs : list (Z * Z)) : Z :=
  sumZ (map (λ '(p, w), if f p then w else 0) pairs).

Definition pair_le (a b : Z * Z) : Prop := a.1 <= b.1.

(** What the standard library promises of [sort_unstable_by_key]. *)
Class KeySort (sort : list (Z * Z) → list (Z * Z)) : Prop := {
  key_sort_perm : ∀ l, sort l ≡ₚ l;
  key_sort_sorted : ∀ l, StronglySorted pair_le (sort l);
}.

Section WeightedMedian.
Implicit Types (ps : list (Z * Z)) (f : Z → bool).

Definition positive_weights ps : Prop := ∀ p w, (p, w) ∈ ps → 1 <= w.

Lemma weight_where_perm f ps ps' : ps ≡ₚ ps' → weight_where f ps = weight_where f ps'.
Proof. intros P. unfold weight_where. apply sumZ_perm. by apply Permutation_map. Qed.

Lemma weight_where_cons f p w ps :
  weight_where f ((p, w) :: ps) = (if f p then w else 0) + weight_where f ps.
Proof. done. Qed.

Lemma weight_where_app f ps ps' :
  weight_where f (ps ++ ps') = weight_where f ps + weight_where f ps'.
Proof. induction ps as [|[p w] ps IH]; [done|]. simpl. rewrite !weight_where_cons. lia. Qed.

Lemma positive_weights_cons p w ps :
  positive_weights ((p, w) :: ps) → 1 <= w ∧ positive_weights ps.
Proof.
  intros H. split; [apply (H p); left|]. intros q v Hq. apply (H q). by right.
Qed.

Lemma weight_where_mono f g ps :
  positive_weights ps → (∀ p w, (p, w) ∈ ps → f p = true → g p = true) →
  0 <= weight_where f ps <= weight_where g ps.
Proof.
  induction ps as [|[p w] ps IH]; intros Hw Hfg; [done|].
  apply positive_weights_cons in Hw as [Hp Hw]. rewrite !weight_where_cons.
  destruct IH; [done|intros q v Hq; eapply Hfg; by right|].
  pose proof (Hfg p w ltac:(by left)). destruct (f p), (g p); naive_solver lia.
Qed.

Lemma total_weight_spec ps : ∀ acc,
  positive_weights ps → 0 <= acc <= I128_MAX →
  foldl (λ acc '(_, w), sat_i128 (acc + w)) acc ps
    = Z.min I128_MAX (acc + weight_where (λ _, true) ps).
Proof.
  induction ps as [|[p w] ps IH]; intros acc Hw Ha; cbn [foldl].
  { unfold weight_where. simpl. lia. }
  pose proof (positive_weights_cons _ _ _ Hw) as [Hp Hw'].
  destruct (weight_where_mono (λ _, true) (λ _, true) ps Hw' ltac:(done)) as [H0 _].
  assert (sat_i128 (acc + w) = Z.min I128_MAX (acc + w)) as ->.
  { unfold sat_i128, clampZ, I128_MIN, I128_MAX in *. lia. }
  rewrite IH by (try done; unfold I128_MAX in *; lia). rewrite weight_where_cons. lia.
Qed.

(** The walk stops at the first index whose cumulative weight exceeds
    [half], and always stops before running off the end. *)
Lemma weight_walk_spec half ps : ∀ idx last cum,
  positive_weights ps → 0 <= cum <= half → half < I128_MAX →
  half < cum + weight_where (λ _, true) ps →
  ∃ k p w, weight_walk half idx last cum ps = ((idx + k)%nat, Z.min I128_MAX (cum + weight_where (λ _, true) (take (S k) ps)))
    ∧ ps !! k = Some (p, w) ∧
    cum + weight_where (λ _, true) (take k ps) <= half ∧
    half < cum + weight_where (λ _, true) (take (S k) ps).
Proof.
  induction ps as [|[p w] ps IH]; intros idx last cum Hw Hc Hh Ht.
  { unfold weight_where in Ht. simpl in Ht. lia. }
  pose proof (positive_weights_cons _ _ _ Hw) as [Hp Hw'].
  rewrite weight_where_cons in Ht. cbn [weight_walk].
  assert (sat_i128 (cum + w) = Z.min I128_MAX (cum + w)) as ->.
  { unfold sat_i128, clampZ, I128_MIN, I128_MAX in *. lia. }
  destruct (half <? Z.min I128_MAX (cum + w)) eqn:E; bool_hyps.
  - exists 0%nat, p, w. rewrite Nat.add_0_r. cbn [take]. rewrite !weight_where_cons.
    unfold weight_where. simpl. split_and!; [f_equal; lia|done|lia|lia].
  - rewrite Z.min_r in * by lia.
    destruct (IH (S idx) idx (cum + w)) as (k & p' & w' & E1 & E2 & E3 & E4); [done|lia..|].
    exists (S k), p', w'. rewrite E1. rewrite !firstn_cons, !weight_where_cons.
    split_and!; [f_equal; [lia|f_equal; lia]|done|lia|lia].
Qed.

Lemma weight_where_ext f g ps :
  (∀ p w, (p, w) ∈ ps → f p = g p) → weight_where f ps = weight_where g ps.
Proof.
  induction ps as [|[p w] ps IH]; intros H; [done|]. rewrite !weight_where_cons, IH.
  - by rewrite (H p w) by left.
  - intros q v Hq. apply (H q v). by right.
Qed.

Lemma weight_where_none ps : weight_where (λ _, false) ps = 0.
Proof. induction ps as [|[p w] ps IH]; [done|]. by rewrite weight_where_cons, IH. Qed.

(** Around the stopping point of a list sorted by price, everything strictly
    cheaper weighs at most [half] and everything up to that price more. *)
Lemma sorted_cut l1 m w l2 half :
  StronglySorted pair_le (l1 ++ (m, w) :: l2) → positive_weights (l1 ++ (m, w) :: l2) →
  weight_where (λ _, true) l1 <= half → half < weight_where (λ _, true) l1 + w →
  weight_where (λ p, p <? m) (l1 ++ (m, w) :: l2) <= half
    < weight_where (λ p, p <=? m) (l1 ++ (m, w) :: l2).
Proof.
  intros Hs Hw H1 H2.
  assert (∀ p v, (p, v) ∈ l1 → p <= m) as Hlow.
  { intros p v Hp. eapply (StronglySorted_app_1_elem_of pair_le _ _ (p, v) (m, w) Hs Hp). by left. }
  assert (∀ p v, (p, v) ∈ l2 → m <= p) as Hhigh.
  { intros p v Hp. apply StronglySorted_app_1_r, StronglySorted_cons in Hs as [Hs _].
    rewrite Forall_forall in Hs. exact (Hs _ Hp). }
  assert (positive_weights l1) as W1.
  { intros p v Hp. apply (Hw p). apply elem_of_app. by left. }
  assert (positive_weights l2) as W2.
  { intros p v Hp. apply (Hw p). apply elem_of_app. right. by right. }
  rewrite !weight_where_app, !weight_where_cons, Z.ltb_irrefl, Z.leb_refl.
  split.
  - rewrite (weight_where_ext (λ p, p <? m) (λ _, false) l2), weight_where_none.
    + destruct (weight_where_mono (λ p, p <? m) (λ _, true) l1 W1); [done|lia].
    + intros p v Hp. specialize (Hhigh p v Hp). apply Z.ltb_ge. lia.
  - rewrite (weight_where_ext (λ p, p <=? m) (λ _, true) l1).
    + destruct (weight_where_mono (λ p, p <=? m) (λ p, p <=? m) l2 W2); [done|lia].
    + intros p v Hp. specialize (Hlow p v Hp). apply Z.leb_le. lia.
Qed.

(** The pairs [weighted_median_core] works on. *)
Definition clamped_pairs (prices weights : list Z) : list (Z * Z) :=
  take (Nat.min (length prices) MEDIAN_WINDOW)
    (zip_with (λ p w, (p, Z.max w 1)) prices weights).

(** [m] is the weighted median of [ps]: at most half of the (saturated) total
    weight is strictly below it, more than half at or below it. *)
Definition is_weighted_median ps (m : Z) : Prop :=
  let half := Z.quot (Z.min I128_MAX (weight_where (λ _, true) ps)) 2 in
  weight_where (λ p, p <? m) ps <= half < weight_where (λ p, p <=? m) ps.

Lemma is_weighted_median_perm ps ps' m :
  ps ≡ₚ ps' → is_weighted_median ps m → is_weighted_median ps' m.
Proof. intros P. unfold is_weighted_median. by rewrite !(weight_where_perm _ _ _ P). Qed.

Lemma is_weighted_median_unique ps m m' :
  positive_weights ps → is_weighted_median ps m → is_weighted_median ps m' → m = m'.
Proof.
  intros Hw. assert (∀ a b, is_weighted_median ps a → is_weighted_median ps b → ¬ a < b) as Hn.
  { intros a b [_ Ha] [Hb _] Hab.
    destruct (weight_where_mono (λ p, p <=? a) (λ p, p <? b) ps Hw); [|lia].
    intros p _ _ ?%Z.leb_le. apply Z.ltb_lt. lia. }
  intros H1 H2. pose proof (Hn m m' H1 H2). pose proof (Hn m' m H2 H1). lia.
Qed.

Lemma clamped_pairs_positive prices weights : positive_weights (clamped_pairs prices weights).
Proof.
  intros p w Hp. unfold clamped_pairs in Hp.
  apply elem_of_take_lookup in Hp as (i & _ & Hi).
  apply lookup_zip_with_Some in Hi as (x & y & [= -> ->] & _). lia.
Qed.

(** The walk on a sorted, non-empty, positively weighted list. *)
Lemma weight_walk_median ps :
  StronglySorted pair_le ps → positive_weights ps → ps ≠ [] →
  ∃ k p w c, weight_walk (Z.quot (total_weight ps) 2) 0 0 0 ps = (k, c) ∧
    ps !! k = Some (p, w) ∧ Z.quot (total_weight ps) 2 < c ∧ is_weighted_median ps p.
Proof.
  intros Hs Hw Hne. unfold total_weight.
  rewrite total_weight_spec by (try done; unfold I128_MAX; lia). rewrite Z.add_0_l.
  destruct ps as [|[p0 w0] ps0] eqn:Eps; [done|]. rewrite <- Eps in *.
  assert (1 <= weight_where (λ _, true) ps) as Hpos.
  { rewrite Eps, weight_where_cons. rewrite Eps in Hw.
    apply positive_weights_cons in Hw as [? Hw].
    destruct (weight_where_mono (λ _, true) (λ _, true) ps0 Hw); [done|lia]. }
  set (T := weight_where (λ _, true) ps) in *.
  pose proof (Z.quot_div_nonneg (Z.min I128_MAX T) 2) as Eq.
  assert (0 <= Z.quot (Z.min I128_MAX T) 2 < Z.min I128_MAX T) as Hh.
  { rewrite Eq by (unfold I128_MAX; lia). split.
    - apply Z.div_pos; unfold I128_MAX; lia.
    - apply Z.div_lt_upper_bound; unfold I128_MAX; lia. }
  destruct (weight_walk_spec (Z.quot (Z.min I128_MAX T) 2) ps 0 0 0)
    as (k & p & w & Ew & Hk & H1 & H2); [done|lia|lia|fold T; lia|].
  rewrite Z.add_0_l in *. exists k, p, w. eexists. split_and!; [exact Ew|done|lia|].
  unfold is_weighted_median. fold T.
  rewrite (take_S_r _ _ _ Hk), weight_where_app, weight_where_cons in H2.
  pose proof (take_drop_middle ps k (p, w) Hk) as Em.
  rewrite <- Em in Hs, Hw |- *. apply sorted_cut; try done.
  unfold weight_where in H2 at 2. simpl in H2. lia.
Qed.
End WeightedMedian.

Section WeightedMedianCore.
Context `{BuildProfile} (sort : list (Z * Z) → list (Z * Z)) `{!KeySort sort}.

Lemma weighted_median_core_value prices weights :
  (2 <= length prices)%nat → length weights = length prices →
  ∃ m, weighted_median_core sort prices weights = Some m ∧ m ∈ prices ∧
    is_weighted_median (clamped_pairs prices weights) m.
Proof.
  intros Hlen Hw.
  destruct prices as [|p0 [|p1 rest]] eqn:Ep; simpl in Hlen; [lia..|].
  cbn [weighted_median_core]. rewrite <- Ep in *.
  assert (2 <= length prices)%nat as Hlen2 by (rewrite Ep; simpl; lia).
  clear p0 p1 rest Ep Hlen.
  rewrite Hw, Nat.eqb_refl. cbn [negb].
  change (take _ (zip_with _ prices weights)) with (clamped_pairs prices weights).
  set (cp := clamped_pairs prices weights).
  assert (length cp = Nat.min (length prices) MEDIAN_WINDOW) as Lcp.
  { unfold cp, clamped_pairs. rewrite length_take, length_zip_with. lia. }
  pose proof (key_sort_perm cp) as P.
  destruct (weight_walk_median (sort cp)) as (k & m & w & c & -> & Hk & Hc & Hm).
  { apply key_sort_sorted. }
  { intros p v. rewrite P. apply clamped_pairs_positive. }
  { intros E. rewrite E in P. apply Permutation_length in P. simpl in P.
    unfold MEDIAN_WINDOW in *. lia. }
  exists m. rewrite Hk. cbn.
  destruct (c =? Z.quot (total_weight (sort cp)) 2) eqn:Ec; bool_hyps; [lia|].
  rewrite andb_false_r. cbn. split_and!; [done| |by eapply is_weighted_median_perm].
  assert ((m, w) ∈ cp) as Hin by (rewrite <- P; by eapply list_elem_of_lookup_2).
  unfold cp, clamped_pairs in Hin. apply elem_of_take_lookup in Hin as (i & _ & Hi).
  apply lookup_zip_with_Some in Hi as (x & y & [= -> ->] & Hx & _).
  by eapply list_elem_of_lookup_2.
Qed.
End WeightedMedianCore.

(** ** Properties *)

(** C14. [quickselect_core(arr, k)] terminates without panicking for every
    in-range [k], rearranges the slice and leaves at index [k] exactly the
    [k]-th smallest value, with nothing larger before it and nothing smaller
    after it. *)
Theorem quickselect_core_selects arr k :
  (k < length arr)%nat →
  ∃ b v, quickselect_core arr k = Some b ∧ b ≡ₚ arr ∧ placed b k v ∧ sortZ arr !! k = Some v.
Proof.
  intros Hk. destruct (quickselect_core_spec arr k Hk) as (b & v & E & P & Hp).
  exists b, v. split_and!; try done. rewrite (sortZ_proper _ _ P). by apply placed_kth.
Qed.

Lemma quickselect_core_selects_witness :
  (3 < length [9; 4; 7; 1; 8; 2])%nat ∧
  ∃ b v, quickselect_core [9; 4; 7; 1; 8; 2] 3 = Some b ∧ b ≡ₚ [9; 4; 7; 1; 8; 2] ∧
    placed b 3 v ∧ sortZ [9; 4; 7; 1; 8; 2] !! 3%nat = Some v.
Proof. split; [simpl; lia|apply quickselect_core_selects; simpl; lia]. Defined.

(** On every input and in both build profiles [median_core] computes the
    reference median of the first [MEDIAN_WINDOW] prices, including when the
    reference panics or wraps. *)
Theorem median_core_refines `{BuildProfile} prices :
  median_core prices = ref_median (take MEDIAN_WINDOW prices).
Proof. apply median_core_ref. Qed.

(** [mean_core] is the exact truncated mean, with no intermediate overflow
    in either profile, whenever the prices all have one sign or the running
    sum never leaves [i128]. *)
Theorem mean_core_exact `{BuildProfile} prices :
  prices ≠ [] → in_hull I128_MIN I128_MAX prices → Z.of_nat (length prices) < 2 ^ 62 →
  same_sign prices ∨ is_Some (checked_sum 0 prices) →
  mean_core prices = Some (Z.quot (sumZ prices) (Z.of_nat (length prices))).
Proof. apply mean_core_value. Qed.

Lemma mean_core_exact_witness :
  let l := [I128_MAX; I128_MAX; 5] in
  l ≠ [] ∧ checked_sum 0 l = None ∧
  @mean_core OverflowChecks l = Some (Z.quot (sumZ l) 3).
Proof.
  cbn zeta. split; [done|]. split; [by vm_compute|].
  apply (@mean_core_exact OverflowChecks [I128_MAX; I128_MAX; 5]).
  - done.
  - intros x Hx. repeat (apply elem_of_cons in Hx as [->|Hx]; [vm_compute; split; discriminate|]).
    by apply elem_of_nil in Hx.
  - simpl. lia.
  - left. left. intros x Hx.
    repeat (apply elem_of_cons in Hx as [->|Hx]; [vm_compute; discriminate|]).
    by apply elem_of_nil in Hx.
Defined.

(** The overflow fallback is reached by mixed-sign inputs too, and there it
    is off by one: the comment on [mean_no_overflow] promises the exact
    truncated mean and says only same-sign inputs reach it. *)
Theorem mean_no_overflow_inexact :
  ∃ prices, Forall in_i128 prices ∧ checked_sum 0 prices = None ∧
    ∀ bp : BuildProfile, mean_core prices = mean_no_overflow prices ∧
      mean_core prices =
        Some (Z.quot (sumZ prices) (Z.of_nat (length prices)) + 1).
Proof.
  exists [I128_MAX - 1; I128_MAX - 1; -1]. split; [|split].
  - repeat constructor; vm_compute; discriminate.
  - by vm_compute.
  - intros [|]; split; by vm_compute.
Qed.

(** For a trim of at most 100 percent the trimmed mean of non-negative
    prices never panics and stays within the hull of the prices. *)
Theorem trimmed_mean_core_bounded `{BuildProfile} lo hi prices t :
  prices ≠ [] → in_hull lo hi prices → 0 <= lo → hi <= I128_MAX →
  Z.of_nat (length prices) < 2 ^ 62 → 0 <= t <= 100 →
  ∃ v, trimmed_mean_core prices t = Some v ∧ lo <= v <= hi.
Proof. apply trimmed_mean_core_hull. Qed.

Lemma trimmed_mean_core_bounded_witness :
  ∃ v, @trimmed_mean_core Wrapping [10; 1; 9; 8; 500; 7; 6; 11; 10; 12] 40 = Some v ∧ 1 <= v <= 500.
Proof.
  apply (@trimmed_mean_core_bounded Wrapping 1 500); [done| |lia|vm_compute; discriminate|simpl; lia|lia].
  intros x Hx. repeat (apply elem_of_cons in Hx as [->|Hx]; [lia|]). by apply elem_of_nil in Hx.
Defined.

(** Whatever order the unstable sort gives to equal prices,
    [weighted_median_core] returns the same value: the unique submitted price
    with at most half of the total weight strictly below it and more than half
    at or below it.  An exact-half tie therefore goes to the higher price and
    the interpolation branch is never taken. *)
Theorem weighted_median_core_spec `{BuildProfile} sort `{!KeySort sort} prices weights :
  (2 <= length prices)%nat → length weights = length prices →
  ∃ m, m ∈ prices ∧ is_weighted_median (clamped_pairs prices weights) m ∧
    ∀ (bp : BuildProfile) sort', KeySort sort' →
      @weighted_median_core bp sort' prices weights = Some m.
Proof.
  intros H2 Hw.
  destruct (weighted_median_core_value sort prices weights H2 Hw) as (m & _ & Hin & Hm).
  exists m. split_and!; [done..|]. intros bp sort' Hs.
  destruct (weighted_median_core_value sort' prices weights H2 Hw) as (m' & E & _ & Hm').
  rewrite E. f_equal. eapply is_weighted_median_unique; [|done..].
  apply clamped_pairs_positive.
Qed.

#[export] Instance pair_le_dec : RelDecision pair_le.
Proof. intros a b. unfold pair_le. apply _. Defined.

#[export] Instance pair_le_total : Total pair_le.
Proof. intros a b. unfold pair_le. lia. Qed.

#[export] Instance pair_le_trans : Transitive pair_le.
Proof. intros a b c. unfold pair_le. lia. Qed.

(** A sort that meets the contract, for concrete inputs. *)
#[export] Instance merge_key_sort : KeySort (merge_sort pair_le).
Proof.
  split; [apply merge_sort_Permutation|apply (StronglySorted_merge_sort pair_le)].
Qed.

Lemma weighted_median_core_spec_witness :
  (∃ m, m ∈ [10; 20; 30; 40] ∧
    is_weighted_median (clamped_pairs [10; 20; 30; 40] [1; 1; 1; 1]) m ∧
    ∀ (bp : BuildProfile) sort', KeySort sort' →
      @weighted_median_core bp sort' [10; 20; 30; 40] [1; 1; 1; 1] = Some m) ∧
  @weighted_median_core Wrapping (merge_sort pair_le) [10; 20; 30; 40] [1; 1; 1; 1] = Some 30.
Proof.
  split; [|by vm_compute].
  apply (@weighted_median_core_spec Wrapping (merge_sort pair_le) _ [10; 20; 30; 40] [1; 1; 1; 1]);
    [simpl; lia|reflexivity].
Defined.
