(* ===== verification/WeightedReference.v ===== *)
(** * [reference_pricing.rs]: the reference of the weighted median, and bounds

    The reference sorts all pairs and scans them; the production routine works
    on a window of at most [MEDIAN_WINDOW] pairs and stops its walk elsewhere
    when nothing exceeds half the weight.  They are shown to agree up to that
    window, whatever order either sort gives to equal prices. *)
From stdpp Require Import base list sorting.
From S2P Require Import Prelude Machine ReferencePricing CorePricing.
#[local] Open Scope Z_scope.
#[local] Set Default Goal Selector "!".

(** [pairs.iter().enumerate()] until the cumulative weight exceeds [half]; the
    last index when it never does. *)
Fixpoint ref_weight_walk (half : Z) (idx fallback : nat) (cumulative : Z) (pairs : list (Z * Z))
    : nat * Z :=
  match pairs with
  | [] => (fallback, cumulative)
  | (_, w) :: rest =>
      let cumulative := sat_i128 (cumulative + w) in
      if half <? cumulative then (idx, cumulative) else ref_weight_walk half (S idx) fallback cumulative rest
  end.

Definition ref_weighted_median `{BuildProfile}
    (sort_by_price : list (Z * Z) → list (Z * Z)) (prices weights : list Z) : option Z :=
  let n := length prices in
  if (n =? 0)%nat then Some 0
  else if (n =? 1)%nat then prices !! 0%nat
  else if negb (length weights =? n)%nat then ref_median prices
  else
    let pairs := sort_by_price (zip_with (λ p w, (p, Z.max w 1)) prices weights) in
    let total := foldl (λ acc '(_, w), sat_i128 (acc + w)) 0 pairs in
    let half := Z.quot total 2 in
    let '(median_idx, cumulative) := ref_weight_walk half 0 (length pairs - 1) 0 pairs in
    price_at ← fst <$> pairs !! median_idx;
    if (Z.rem total 2 =? 0) && (cumulative =? half) && (median_idx + 1 <? length pairs)%nat then
      next ← fst <$> pairs !! (median_idx + 1)%nat;
      midpoint price_at next
    else Some price_at.

(** [xs.iter().min().copied().zip(xs.iter().max().copied())] *)
Definition ref_bounds (xs : list Z) : option (Z * Z) :=
  match xs with
  | [] => None
  | x :: rest => Some (foldl Z.min x rest, foldl Z.max x rest)
  end.

(** ** The walks *)

Lemma walks_agree half ps : ∀ idx last fallback cum,
  (ps ≠ [] → fallback = (idx + length ps - 1)%nat) → (ps = [] → last = fallback) →
  weight_walk half idx last cum ps = ref_weight_walk half idx fallback cum ps.
Proof.
  induction ps as [|[p w] ps IH]; intros idx last fallback cum H1 H2; cbn.
  { by rewrite H2. }
  case_match; [done|]. apply IH.
  - intros Hne. rewrite H1 by done. destruct ps; [done|]. simpl. lia.
  - intros ->. rewrite H1 by done. simpl. lia.
Qed.

Lemma foldl_min_le xs : ∀ x y, y ∈ x :: xs → foldl Z.min x xs <= y.
Proof.
  induction xs as [|z xs IH]; intros x y Hy; cbn; [apply list_elem_of_singleton in Hy; lia|].
  pose proof (IH (Z.min x z) (Z.min x z) ltac:(left)).
  apply elem_of_cons in Hy as [->|[->|Hy]%elem_of_cons]; [lia..|]. apply IH. by right.
Qed.

Lemma foldl_max_ge xs : ∀ x y, y ∈ x :: xs → y <= foldl Z.max x xs.
Proof.
  induction xs as [|z xs IH]; intros x y Hy; cbn; [apply list_elem_of_singleton in Hy; lia|].
  pose proof (IH (Z.max x z) (Z.max x z) ltac:(left)).
  apply elem_of_cons in Hy as [->|[->|Hy]%elem_of_cons]; [lia..|]. apply IH. by right.
Qed.

Lemma ref_bounds_hull xs lo hi : ref_bounds xs = Some (lo, hi) → in_hull lo hi xs.
Proof.
  destruct xs as [|x xs]; [done|]. intros [= <- <-] y Hy.
  split; [by apply foldl_min_le|by apply foldl_max_ge].
Qed.

Section Agreement.
Context `{BP : BuildProfile} (sort sort' : list (Z * Z) → list (Z * Z)) `{!KeySort sort, !KeySort sort'}.

Lemma ref_weighted_median_same prices weights :
  (length prices <= MEDIAN_WINDOW)%nat →
  ref_weighted_median sort prices weights = weighted_median_core sort prices weights.
Proof.
  intros Hn. unfold ref_weighted_median. destruct prices as [|p0 [|p1 rest]] eqn:Ep; [done..|].
  cbn [weighted_median_core]. rewrite <- Ep in *.
  assert (2 <= length prices)%nat as Hlen by (rewrite Ep; simpl; lia). clear p0 p1 rest Ep.
  destruct (length prices =? 0)%nat eqn:E0; bool_hyps; [lia|].
  destruct (length prices =? 1)%nat eqn:E1; bool_hyps; [lia|].
  destruct (length weights =? length prices)%nat eqn:Ew; cbn [negb]; bool_hyps.
  2:{ rewrite median_core_ref. by rewrite take_ge. }
  rewrite Nat.min_l by done.
  set (ps := zip_with _ prices weights).
  assert (length ps = length prices) as Lps by (unfold ps; rewrite length_zip_with; lia).
  rewrite take_ge by lia.
  assert (length (sort ps) = length prices) as Ls by (by rewrite (key_sort_perm ps)).
  fold (total_weight (sort ps)).
  rewrite <- (walks_agree _ _ 0 0 (length (sort ps) - 1) 0); [|lia|].
  2:{ intros E. rewrite E in Ls. simpl in Ls. lia. }
  by rewrite Ls.
Qed.

Lemma weighted_median_any_sort prices weights :
  (length prices <= MEDIAN_WINDOW)%nat →
  weighted_median_core sort prices weights = weighted_median_core sort' prices weights.
Proof.
  intros Hn. destruct prices as [|p0 [|p1 rest]] eqn:Ep; [done..|]. rewrite <- Ep in *.
  assert (2 <= length prices)%nat as Hlen by (rewrite Ep; simpl; lia). clear p0 p1 rest Ep.
  destruct (decide (length weights = length prices)) as [Ew|Ew].
  - destruct (weighted_median_core_value sort prices weights Hlen Ew) as (m & -> & _ & Hm).
    destruct (weighted_median_core_value sort' prices weights Hlen Ew) as (m' & -> & _ & Hm').
    f_equal. eapply is_weighted_median_unique; [|done..]. apply clamped_pairs_positive.
  - unfold weighted_median_core. do 2 (destruct prices; [simpl in *; lia|]).
    by rewrite (proj2 (Nat.eqb_neq _ _) Ew).
Qed.
End Agreement.

(** C12. The production weighted median and the independent reference are the
    same function on every round of at most [MEDIAN_WINDOW] prices: whatever
    the prices and weights (empty, of different lengths, negative, saturating),
    in both builds, panics included, and whatever order either sort gives to
    equal prices; and a weighted result lies within the reference's bounds. *)
Theorem weighted_median_equivalent `{BuildProfile} sort sort' `{!KeySort sort, !KeySort sort'} prices weights :
  (length prices <= MEDIAN_WINDOW)%nat →
  weighted_median_core sort prices weights = ref_weighted_median sort' prices weights ∧
  (length weights = length prices → ∀ lo hi, ref_bounds prices = Some (lo, hi) →
   ∃ m, weighted_median_core sort prices weights = Some m ∧ lo <= m <= hi).
Proof.
  intros Hn. split.
  { by rewrite (ref_weighted_median_same sort'), (weighted_median_any_sort sort sort'). }
  intros Hw lo hi Hb. destruct prices as [|p0 [|p1 rest]] eqn:Ep; [done| |].
  - injection Hb as <- <-. exists p0. split; [done|]. simpl. lia.
  - rewrite <- Ep in *. apply ref_bounds_hull in Hb.
    destruct (weighted_median_core_value sort prices weights) as (m & E & Hm & _);
      [rewrite Ep; simpl; lia|done|]. exists m. split; [done|by apply Hb].
Qed.

Lemma weighted_median_equivalent_witness :
  @weighted_median_core Wrapping (merge_sort pair_le) [30; -10; 20; 20] [5; 1; 0; 4] = Some 20 ∧
  @ref_weighted_median Wrapping (merge_sort pair_le) [30; -10; 20; 20] [5; 1; 0; 4] = Some 20 ∧
  ∃ m, @weighted_median_core Wrapping (merge_sort pair_le) [30; -10; 20; 20] [5; 1; 0; 4] = Some m ∧ -10 <= m <= 30.
Proof.
  destruct (@weighted_median_equivalent Wrapping (merge_sort pair_le) (merge_sort pair_le) _ _
    [30; -10; 20; 20] [5; 1; 0; 4]) as [E H]; [vm_compute; lia|].
  split; [by vm_compute|]. split; [by rewrite <- E; vm_compute|]. by apply H.
Defined.
