(* ===== verification/StorageMath.v ===== *)
(** * [storage.rs] and [median_determinism.rs]: aggregation on host vectors

    The published-price path works on [soroban_sdk::Vec<i128>]: a worst-case
    linear selection (median of medians), a heap sort, means, standard
    deviation and the volume-weighted average.  Vectors are lists; their
    indices are [u32] in the source and [nat] here, since they never exceed
    the vector's length ([2 * current + 2] stays below [2^32] for every vector
    a ledger entry can hold). *)
From stdpp Require Import base list sorting.
From S2P Require Import Prelude Machine ReferencePricing CorePricing.
#[local] Open Scope Z_scope.
#[local] Set Default Goal Selector "!".

(** ** Heap sort *)

(** [heapify]: the sift-down loop.  [current] at least doubles on each turn,
    so [n] iterations are more than enough. *)
Definition heap_largest (prices : list Z) (n current : nat) : option nat :=
  let left := (2 * current + 1)%nat in
  let right := (2 * current + 2)%nat in
  largest ←
    (if (left <? n)%nat then
       l ← prices !! left; c ← prices !! current;
       Some (if c <? l then left else current)
     else Some current);
  if (right <? n)%nat then
    r ← prices !! right; c ← prices !! largest;
    Some (if c <? r then right else largest)
  else Some largest.

Fixpoint heapify_loop (fuel : nat) (prices : list Z) (n current : nat) : option (list Z) :=
  match fuel with
  | O => None
  | S fuel =>
      largest ← heap_largest prices n current;
      if (largest =? current)%nat then Some prices
      else
        prices ← aswap prices current largest;
        heapify_loop fuel prices n largest
  end.

Definition heapify (prices : list Z) (n root : nat) : option (list Z) :=
  heapify_loop (S n) prices n root.

(** [loop { heapify(prices, n, i); if i == 0 { break; } i -= 1; }]. *)
Fixpoint build_heap (prices : list Z) (n i : nat) : option (list Z) :=
  prices ← heapify prices n i;
  match i with
  | O => Some prices
  | S i => build_heap prices n i
  end.

(** The extraction loop, [end] counting down to 0. *)
Fixpoint extract_heap (prices : list Z) (last : nat) : option (list Z) :=
  prices ← aswap prices 0 last;
  prices ← heapify prices last 0;
  match last with
  | O => Some prices
  | S last => extract_heap prices last
  end.

Definition sort_prices (prices : list Z) : option (list Z) :=
  let n := length prices in
  if (n <=? 1)%nat then Some prices
  else
    prices ← build_heap prices n (n / 2);
    extract_heap prices (n - 1).

(** ** Median-of-medians selection *)

Definition vec_swap (prices : list Z) (i j : nat) : option (list Z) :=
  if (i =? j)%nat then Some prices else aswap prices i j.

(** [while j > left && prices[j] < prices[j - 1]]: one insertion. *)
Fixpoint sink (prices : list Z) (left j : nat) : option (list Z) :=
  match j with
  | O => Some prices
  | S j' =>
      if (left <? j)%nat then
        x ← prices !! j; y ← prices !! j';
        if x <? y then
          prices ← vec_swap prices j j';
          sink prices left j'
        else Some prices
      else Some prices
  end.

(** [while i <= right] with [n] iterations left. *)
Fixpoint insertion_loop (n : nat) (prices : list Z) (left i : nat) : option (list Z) :=
  match n with
  | O => Some prices
  | S n =>
      prices ← sink prices left i;
      insertion_loop n prices left (S i)
  end.

Definition median_of_five (prices : list Z) (left right : nat) : option (list Z * nat) :=
  prices ← insertion_loop (right - left) prices left (left + 1);
  Some (prices, (left + (right - left) / 2)%nat).

Fixpoint partition_loop (n : nat) (prices : list Z) (store_index i : nat) (pivot_value : Z)
    : option (list Z * nat) :=
  match n with
  | O => Some (prices, store_index)
  | S n =>
      x ← prices !! i;
      if x <? pivot_value then
        prices ← vec_swap prices store_index i;
        partition_loop n prices (S store_index) (S i) pivot_value
      else partition_loop n prices store_index (S i) pivot_value
  end.

Definition partition (prices : list Z) (left right pivot_index : nat)
    : option (list Z * nat) :=
  pivot_value ← prices !! pivot_index;
  prices ← vec_swap prices pivot_index right;
  '(prices, store_index) ← partition_loop (right - left) prices left left pivot_value;
  prices ← vec_swap prices store_index right;
  Some (prices, store_index).

(** The loop over groups of five; [i] advances by five, so [right + 1]
    iterations are more than enough. *)
Fixpoint group_loop (fuel : nat) (prices : list Z) (store i right : nat)
    : option (list Z * nat) :=
  match fuel with
  | O => None
  | S fuel =>
      if (i <=? right)%nat then
        let group_end := if (i + 4 <=? right)%nat then (i + 4)%nat else right in
        '(prices, median) ← median_of_five prices i group_end;
        prices ← vec_swap prices median store;
        group_loop fuel prices (S store) (i + 5) right
      else Some (prices, store)
  end.

Definition select_pivot (prices : list Z) (left right : nat) : option (list Z * nat) :=
  if (right - left + 1 <=? 5)%nat then median_of_five prices left right
  else
    '(prices, store) ← group_loop (S (S right)) prices left left right;
    median_of_five prices left (store - 1).

Fixpoint select_loop (fuel : nat) (prices : list Z) (left right k : nat)
    : option (list Z * Z) :=
  match fuel with
  | O => None
  | S fuel =>
      if (left =? right)%nat then x ← prices !! left; Some (prices, x)
      else
        '(prices, pivot_index) ← select_pivot prices left right;
        '(prices, pivot_index) ← partition prices left right pivot_index;
        if (k =? pivot_index)%nat then x ← prices !! k; Some (prices, x)
        else if (k <? pivot_index)%nat then select_loop fuel prices left (pivot_index - 1) k
        else select_loop fuel prices (pivot_index + 1) right k
  end.

Definition select_kth (prices : list Z) (left right k : nat) : option (list Z * Z) :=
  select_loop (S (right - left)) prices left right k.

Definition compute_median `{BuildProfile} (prices : list Z) : option Z :=
  let n := length prices in
  if (n =? 0)%nat then Some 0
  else
    let mid := (n / 2)%nat in
    if Nat.even n then
      '(selected, lower) ← select_kth prices 0 (n - 1) (mid - 1);
      '(_, upper) ← select_kth selected 0 (n - 1) mid;
      midpoint lower upper
    else '(_, v) ← select_kth prices 0 (n - 1) mid; Some v.

(** ** Means, deviation, confidence *)

Fixpoint compute_mean_loop `{BuildProfile} (prices : list Z) (n sum : Z) (rest : list Z)
    : option Z :=
  match rest with
  | [] => div_i128 sum n
  | p :: rest =>
      match checked_i128 (sum + p) with
      | Some s => compute_mean_loop prices n s rest
      | None =>
          '(quotient, remainder) ← quot_rem_loop n 0 0 prices;
          t ← div_i128 remainder n;
          i128 (quotient + t)
      end
  end.

Definition compute_mean `{BuildProfile} (prices : list Z) : option Z :=
  let n := length prices in
  if (n =? 0)%nat then Some 0
  else compute_mean_loop prices (Z.of_nat n) 0 prices.

(** Bisection; the gap halves, so 128 rounds cover every [i128]. *)
Fixpoint sqrt_loop `{BuildProfile} (fuel : nat) (value lo hi : Z) : option Z :=
  match fuel with
  | O => None
  | S fuel =>
      l1 ← i128 (lo + 1);
      if l1 <? hi then
        d ← i128 (hi - lo); h ← div_i128 d 2; mid ← i128 (lo + h);
        if sat_i128 (mid * mid) <=? value then sqrt_loop fuel value mid hi
        else sqrt_loop fuel value lo mid
      else Some lo
  end.

Definition integer_sqrt `{BuildProfile} (value : Z) : option Z :=
  if value <=? 1 then Some value else sqrt_loop 129 value 0 value.

Fixpoint sum_squares `{BuildProfile} (mean sum_sq : Z) (prices : list Z) : option Z :=
  match prices with
  | [] => Some sum_sq
  | p :: rest =>
      diff ← i128 (p - mean);
      sum_squares mean (sat_i128 (sum_sq + sat_i128 (diff * diff))) rest
  end.

Definition compute_stddev `{BuildProfile} (prices : list Z) : option Z :=
  let n := length prices in
  if (n =? 0)%nat then Some 0
  else
    mean ← compute_mean prices;
    sum_sq ← sum_squares mean 0 prices;
    variance ← div_i128 sum_sq (Z.of_nat n);
    r ← integer_sqrt variance;
    Some (as_u32 (Z.max r 0)).

Definition compute_confidence_bps `{BuildProfile} (prices : list Z) : option Z :=
  if (length prices =? 0)%nat then Some 0
  else
    mean ← compute_mean prices;
    if mean <=? 0 then Some 0
    else
      stddev ← compute_stddev prices;
      q ← udiv (sat_u128 (stddev * 10000)) mean;
      Some (as_u32 q).

Definition compute_trimmed_mean `{BuildProfile} (prices : list Z) (trim_percent : Z)
    : option Z :=
  let n := length prices in
  if (n =? 0)%nat then Some 0
  else if trim_percent =? 0 then compute_mean prices
  else
    sorted ← sort_prices prices;
    let tc := trim_count n trim_percent in
    if (tc =? 0)%nat then compute_mean sorted
    else
      (** [for i in tc..(n - tc)]: an empty range when [tc >= n - tc]. *)
      let trimmed := take (n - tc - tc) (drop tc sorted) in
      if (length trimmed =? 0)%nat then sorted !! (n / 2)%nat
      else compute_mean trimmed.

Definition compute_weighted_median `{BuildProfile}
    (sort_by_price : list (Z * Z) → list (Z * Z)) (prices weights : list Z) : option Z :=
  weighted_median_core sort_by_price (take 128 prices) (take 128 weights).

Definition compute_vwap `{BuildProfile} (prices volumes : list Z) : option Z :=
  if (Nat.min (length prices) (length volumes) =? 0)%nat then Some 0
  else
    let '(weighted_sum, total_volume) := vwap_sums 0 0 (zip prices volumes) in
    if total_volume =? 0 then compute_mean prices
    else div_i128 weighted_sum total_volume.

(** ** [median_determinism.rs] *)

(** [while j > 0 && values[j - 1] > key { values.set(j, values[j - 1]); j -= 1 }]. *)
Fixpoint shift_right (values : list Z) (key : Z) (j : nat) : option (list Z * nat) :=
  match j with
  | O => Some (values, O)
  | S j' =>
      x ← values !! j';
      if key <? x then
        values ← aset values j x;
        shift_right values key j'
      else Some (values, j)
  end.

Fixpoint sort_ascending_loop (n : nat) (values : list Z) (i : nat) : option (list Z) :=
  match n with
  | O => Some values
  | S n =>
      key ← values !! i;
      '(values, j) ← shift_right values key i;
      values ← aset values j key;
      sort_ascending_loop n values (S i)
  end.

Definition sort_ascending (values : list Z) : option (list Z) :=
  let n := length values in
  if (n <=? 1)%nat then Some values else sort_ascending_loop (n - 1) values 1.

Definition canonical_median `{BuildProfile} (values : list Z) : option Z :=
  let n := length values in
  if (n =? 0)%nat then Some 0
  else
    sorted ← sort_ascending values;
    if Nat.odd n then sorted !! (n / 2)%nat
    else
      lo ← sorted !! (n / 2 - 1)%nat;
      hi ← sorted !! (n / 2)%nat;
      midpoint lo hi.

(** Host vectors pop and push at both ends. *)
Definition orderings (values : list Z) : list (list Z) :=
  let base := [values; rev values] in
  match values with
  | first :: ((_ :: _) as tail) =>
      base ++ [tail ++ [first]] ++
        match last values with
        | Some l => [l :: removelast values]
        | None => []
        end
  | _ => base
  end.

(** ** Selection: correctness *)

Section Selection.
Implicit Types (a prices : list Z).

Lemma vec_swap_spec a i j lo hi :
  (lo <= i <= hi)%nat → (lo <= j <= hi)%nat → (hi < length a)%nat →
  ∃ b, vec_swap a i j = Some b ∧ seg_perm lo hi a b ∧ length b = length a ∧
    b !! i = a !! j ∧ b !! j = a !! i ∧
    (∀ k, k ≠ i → k ≠ j → b !! k = a !! k).
Proof.
  intros Hi Hj Hl. unfold vec_swap. destruct (i =? j)%nat eqn:E; bool_hyps.
  - subst. exists a. split_and!; auto with oracle.
  - by apply aswap_spec.
Qed.

Lemma sink_spec left hi j : ∀ a,
  (left <= j <= hi)%nat → (hi < length a)%nat →
  ∃ b, sink a left j = Some b ∧ seg_perm left hi a b.
Proof.
  induction j as [|j IH]; intros a Hj Hl; cbn [sink].
  { eauto with oracle. }
  destruct (left <? S j)%nat eqn:E; bool_hyps; [|by eauto with oracle].
  destruct (get_ok a (S j)) as [x Hx]; [lia|]. destruct (get_ok a j) as [y Hy]; [lia|].
  rewrite Hx, Hy. cbn. destruct (x <? y); [|by eauto with oracle].
  destruct (vec_swap_spec a (S j) j left hi) as (b & -> & P & L & _); [lia..|]. cbn.
  destruct (IH b) as (c & -> & Pc); [lia..|]. eauto using seg_perm_trans.
Qed.

Lemma insertion_loop_spec left hi n : ∀ a i,
  (left <= i)%nat → (i + n <= S hi)%nat → (hi < length a)%nat →
  ∃ b, insertion_loop n a left i = Some b ∧ seg_perm left hi a b.
Proof.
  induction n as [|n IH]; intros a i Hi Hn Hl; cbn [insertion_loop].
  { eauto with oracle. }
  destruct (sink_spec left hi i a) as (b & -> & P); [lia..|]. cbn.
  destruct (IH b (S i)) as (c & -> & Pc);
    [lia|lia|by rewrite <- (seg_perm_length _ _ _ _ P)|]. eauto using seg_perm_trans.
Qed.

Lemma median_of_five_spec a left right :
  (left <= right)%nat → (right < length a)%nat →
  ∃ b m, median_of_five a left right = Some (b, m) ∧ seg_perm left right a b ∧
    (left <= m <= right)%nat.
Proof.
  intros Hle Hl. unfold median_of_five.
  destruct (insertion_loop_spec left right (right - left) a (left + 1)) as (b & -> & P);
    [lia..|].
  exists b, (left + (right - left) / 2)%nat. pose proof (half_le (right - left)).
  split_and!; [done|done|lia|lia].
Qed.

Lemma partition_loop_spec v left right n : ∀ a store i,
  (left <= store <= i)%nat → (i + n = right)%nat → (right < length a)%nat →
  (∀ j x, (left <= j < store)%nat → a !! j = Some x → x < v) →
  (∀ j x, (store <= j < i)%nat → a !! j = Some x → v <= x) →
  ∃ b s, partition_loop n a store i v = Some (b, s) ∧
    seg_perm left right a b ∧ b !! right = a !! right ∧ (store <= s <= right)%nat ∧
    (∀ j x, (left <= j < s)%nat → b !! j = Some x → x < v) ∧
    (∀ j x, (s <= j < right)%nat → b !! j = Some x → v <= x).
Proof.
  induction n as [|n IH]; intros a store i Hs Hn Hl Hlo Hhi; cbn [partition_loop].
  { exists a, store. replace i with right in Hhi by lia.
    split_and!; auto with oracle; lia. }
  destruct (get_ok a i) as [x Hx]; [lia|]. rewrite Hx. cbn.
  destruct (x <? v) eqn:Ex; bool_hyps.
  - destruct (vec_swap_spec a store i left (right - 1)) as (b & E1 & E2 & E3 & E4 & E5 & E6);
      [lia..|]. rewrite E1. cbn.
    assert (b !! right = a !! right) as Hbh by (apply E6; lia).
    destruct (IH b (S store) (S i)) as (c & s & H1 & H2 & H3 & H4 & H5 & H6);
      [lia|lia|lia|..].
    + intros j y Hj Hy. destruct (decide (j = store)) as [->|].
      * rewrite E4, Hx in Hy. by simplify_eq.
      * rewrite E6 in Hy by lia. eapply Hlo; [|done]. lia.
    + intros j y Hj Hy. destruct (decide (j = i)) as [->|].
      * rewrite E5 in Hy. eapply Hhi; [|done]. lia.
      * rewrite E6 in Hy by lia. eapply Hhi; [|done]. lia.
    + exists c, s. split_and!; try done; try lia; [|congruence].
      eapply seg_perm_trans; [|done]. eapply seg_perm_widen; [| |done]; lia.
  - destruct (IH a store (S i)) as (c & s & H1 & H2 & H3 & H4 & H5 & H6);
      [lia|lia|lia|done|..].
    + intros j y Hj Hy. destruct (decide (j = i)) as [->|].
      * rewrite Hx in Hy. simplify_eq. lia.
      * eapply Hhi; [|done]. lia.
    + exists c, s. split_and!; try done; lia.
Qed.

Lemma partition_spec a left right p :
  (left <= p <= right)%nat → (right < length a)%nat →
  ∃ b s v, partition a left right p = Some (b, s) ∧ seg_perm left right a b ∧
    (left <= s <= right)%nat ∧ b !! s = Some v ∧
    (∀ j x, (left <= j < s)%nat → b !! j = Some x → x <= v) ∧
    (∀ j x, (s < j <= right)%nat → b !! j = Some x → v <= x).
Proof.
  intros Hp Hl. unfold partition. destruct (get_ok a p) as [v Hv]; [lia|].
  rewrite Hv. cbn.
  destruct (vec_swap_spec a p right left right) as (a1 & -> & P1 & L1 & _ & Hv1 & _);
    [lia..|]. cbn. rewrite Hv in Hv1.
  destruct (partition_loop_spec v left right (right - left) a1 left left)
    as (a2 & s & -> & P2 & Hh & Hs & Hlo & Hhi); [lia..|]. cbn.
  pose proof (seg_perm_length _ _ _ _ P2) as L2.
  destruct (vec_swap_spec a2 s right left right) as (a3 & -> & P3 & L3 & H3s & H3r & H3o);
    [lia..|]. cbn. exists a3, s, v. split_and!; try done; try lia.
  - eauto 8 using seg_perm_trans.
  - by rewrite H3s, Hh.
  - intros j x Hj Hx. rewrite H3o in Hx by lia.
    assert (x < v) by (eapply Hlo; [|done]; lia). lia.
  - intros j x Hj Hx. destruct (decide (j = right)) as [->|].
    + rewrite H3r in Hx. destruct (decide (s = right)) as [->|]; [lia|].
      eapply Hhi; [|done]. lia.
    + rewrite H3o in Hx by lia. eapply Hhi; [|done]. lia.
Qed.

Lemma group_loop_spec left right fuel : ∀ a store i,
  (left <= store <= i)%nat → (store <= S right)%nat → (right < length a)%nat →
  (S right - i < fuel)%nat →
  ∃ b s, group_loop fuel a store i right = Some (b, s) ∧ seg_perm left right a b ∧
    (store <= s <= S right)%nat ∧ ((i <= right)%nat → (store < s)%nat).
Proof.
  induction fuel as [|fuel IH]; intros a store i Hs Hst Hl Hf; [lia|]. cbn [group_loop].
  destruct (i <=? right)%nat eqn:Ei; bool_hyps.
  - set (ge := if (i + 4 <=? right)%nat then (i + 4)%nat else right).
    assert (i <= ge <= right)%nat as Hge.
    { unfold ge. destruct (i + 4 <=? right)%nat eqn:E; bool_hyps; lia. }
    destruct (median_of_five_spec a i ge) as (b & m & -> & P1 & Hm); [lia..|]. cbn.
    pose proof (seg_perm_length _ _ _ _ P1) as L1.
    destruct (vec_swap_spec b m store left right) as (c & -> & P2 & L2 & _); [lia..|]. cbn.
    destruct (IH c (S store) (i + 5)%nat) as (d & s & -> & P3 & Hs' & Hp); [lia..|].
    exists d, s. split_and!; [done| |lia|lia|lia].
    eapply seg_perm_trans; [eapply seg_perm_widen; [| |exact P1]; lia|].
    by eapply seg_perm_trans.
  - exists a, store. split_and!; auto with oracle; lia.
Qed.

Lemma select_pivot_spec a left right :
  (left <= right)%nat → (right < length a)%nat →
  ∃ b m, select_pivot a left right = Some (b, m) ∧ seg_perm left right a b ∧
    (left <= m <= right)%nat.
Proof.
  intros Hle Hl. unfold select_pivot.
  destruct (right - left + 1 <=? 5)%nat; [by apply median_of_five_spec|].
  destruct (group_loop_spec left right (S (S right)) a left left)
    as (b & s & -> & P & Hs & Hp); [lia..|]. cbn.
  specialize (Hp Hle). pose proof (seg_perm_length _ _ _ _ P) as L.
  destruct (median_of_five_spec b left (s - 1)) as (c & m & -> & P2 & Hm); [lia..|].
  exists c, m. split_and!; [done| |lia|lia].
  eapply seg_perm_trans; [done|]. eapply seg_perm_widen; [| |exact P2]; lia.
Qed.

(** The selection loop finds the order statistic and only permutes. *)
Lemma select_loop_spec k fuel : ∀ a left right,
  (left <= k <= right)%nat → (right < length a)%nat → (right - left < fuel)%nat →
  window_ok a left right →
  ∃ b v, select_loop fuel a left right k = Some (b, v) ∧ a ≡ₚ b ∧ placed b k v.
Proof.
  induction fuel as [|fuel IH]; intros a left right Hk Hl Hf W; [lia|]. cbn [select_loop].
  destruct (left =? right)%nat eqn:E1; bool_hyps.
  { subst. assert (k = right) as -> by lia. destruct (get_ok a right) as [v Hv]; [lia|].
    rewrite Hv. obind. exists a, v. split_and!; [done..|].
    eapply window_placed; [exact W|lia|done|..]; intros; lia. }
  destruct (select_pivot_spec a left right) as (a1 & p & -> & P1 & Hp); [lia..|]. obind.
  pose proof (seg_perm_length _ _ _ _ P1) as L1.
  destruct (partition_spec a1 left right p) as (b & s & v & -> & P2 & Hs & Hv & Hlo & Hhi);
    [lia..|]. obind.
  assert (seg_perm left right a b) as P by (by eapply seg_perm_trans).
  assert (window_ok b left right) as Wb by (eapply window_ok_seg; [|exact P|exact W]; lia).
  pose proof (seg_perm_length _ _ _ _ P) as HL. assert (a ≡ₚ b) as Pab by apply P.
  destruct (k =? s)%nat eqn:E2; bool_hyps; [|destruct (k <? s)%nat eqn:E3; bool_hyps].
  - subst s. rewrite Hv. obind. exists b, v. split_and!; [done..|]. by eapply window_placed.
  - destruct (IH b left (s - 1)%nat) as (c & w & -> & Pc & Hw); [lia..| |].
    { eapply window_ok_left; eauto; lia. }
    exists c, w. split_and!; [done|by etrans|done].
  - destruct (IH b (s + 1)%nat right) as (c & w & -> & Pc & Hw); [lia..| |].
    { eapply window_ok_right; eauto. }
    exists c, w. split_and!; [done|by etrans|done].
Qed.

Lemma select_kth_spec a k :
  (k < length a)%nat →
  ∃ b v, select_kth a 0 (length a - 1) k = Some (b, v) ∧ a ≡ₚ b ∧ placed b k v.
Proof.
  intros Hk. apply select_loop_spec; [lia..|].
  split; intros i j x y Hi Hj Hx Hy; [lia|]. apply lookup_lt_Some in Hy. lia.
Qed.
End Selection.

Lemma compute_median_ref `{BuildProfile} prices : compute_median prices = ref_median prices.
Proof.
  unfold compute_median, ref_median. rewrite length_sortZ.
  destruct (length prices =? 0)%nat eqn:E0; bool_hyps; [done|].
  rewrite <- Nat.negb_odd. destruct (Nat.odd (length prices)) eqn:Eo; cbn [negb].
  - destruct (select_kth_spec prices (length prices / 2)) as (b & v & -> & P & Hp).
    { apply Nat.div_lt; lia. }
    obind. by rewrite (sortZ_proper _ _ P), (placed_kth _ _ _ Hp).
  - assert (0 < length prices / 2 < length prices)%nat as Hh.
    { split; [|apply Nat.div_lt; lia]. apply Nat.div_str_pos.
      destruct (length prices) as [|[|n]]; [lia|done|lia]. }
    remember (length prices / 2)%nat as k eqn:Ek. clear Ek.
    destruct (select_kth_spec prices (k - 1)) as (b & v & -> & P & Hp); [lia|].
    pose proof (Permutation_length P) as L. obind. rewrite L.
    destruct (select_kth_spec b k) as (c & w & -> & Pc & Hw); [lia|]. obind.
    rewrite (sortZ_proper _ _ P), (placed_kth _ _ _ Hp).
    by rewrite (sortZ_proper _ _ Pc), (placed_kth _ _ _ Hw).
Qed.

(** ** Heap sort: correctness *)

Section HeapSort.
Implicit Types (a b : list Z).

Definition child (i c : nat) : Prop := (c = 2 * i + 1 ∨ c = 2 * i + 2)%nat.

(** Below [r] nothing is known; from [r] on, parents dominate children
    inside the heap of size [n]. *)
Definition heap_from a (n r : nat) : Prop :=
  ∀ i c x y, (r <= i)%nat → child i c → (c < n)%nat →
    a !! i = Some x → a !! c = Some y → y <= x.

(** The heap property may fail only at [cur], whose parents still dominate
    its children. *)
Definition heap_except a (n r cur : nat) : Prop :=
  (∀ i c x y, (r <= i)%nat → i ≠ cur → child i c → (c < n)%nat →
     a !! i = Some x → a !! c = Some y → y <= x) ∧
  (∀ p c x y, (r <= p)%nat → child p cur → child cur c → (c < n)%nat →
     a !! p = Some x → a !! c = Some y → y <= x).

Lemma heap_largest_spec a n cur v :
  a !! cur = Some v → (n <= length a)%nat →
  ∃ m w, heap_largest a n cur = Some m ∧ a !! m = Some w ∧
    (∀ c y, child cur c → (c < n)%nat → a !! c = Some y → y <= w) ∧
    (m = cur ∨ (child cur m ∧ (m < n)%nat ∧ v < w)).
Proof.
  intros Hv Hn. unfold heap_largest, child.
  destruct (2 * cur + 1 <? n)%nat eqn:El; bool_hyps; obind.
  - destruct (get_ok a (2 * cur + 1)) as [l Hl]; [lia|]. rewrite Hl, Hv. obind.
    destruct (2 * cur + 2 <? n)%nat eqn:Er; bool_hyps.
    + destruct (get_ok a (2 * cur + 2)) as [r Hr]; [lia|]. rewrite Hr. obind.
      destruct (v <? l) eqn:E1; bool_hyps; [rewrite Hl|rewrite Hv]; obind;
        (case_if; bool_hyps);
        eexists _, _; split_and!; try done;
        first [intros c y [->| ->] _ Hy; simplify_eq; lia | left; done | right; auto with lia].
    + destruct (v <? l) eqn:E1; bool_hyps; eexists _, _; split_and!; try done;
        first [intros c y [->| ->] Hc Hy; [simplify_eq; lia|lia] | left; done | right; auto with lia].
  - destruct (2 * cur + 2 <? n)%nat eqn:Er; bool_hyps; [lia|].
    exists cur, v. split_and!; try done; [|by left]. intros c y [->| ->] Hc; lia.
Qed.

Lemma heapify_loop_spec n r fuel : ∀ a cur,
  (n <= length a)%nat → (r <= cur)%nat → (cur < length a)%nat → (n - cur < fuel)%nat →
  heap_except a n r cur →
  ∃ b, heapify_loop fuel a n cur = Some b ∧ seg_perm r (n - 1) a b ∧ heap_from b n r.
Proof.
  induction fuel as [|fuel IH]; intros a cur Hn Hr Hc Hf [I1 I2]; [lia|].
  cbn [heapify_loop]. destruct (get_ok a cur Hc) as [v Hv].
  destruct (heap_largest_spec a n cur v Hv Hn) as (m & w & -> & Hw & Hmax & Hm). obind.
  destruct (m =? cur)%nat eqn:E; bool_hyps.
  { subst m. assert (w = v) as -> by congruence. exists a. split_and!; auto with oracle.
    intros i c x y Hi Hch Hcn Hx Hy. destruct (decide (i = cur)) as [->|]; [|by eapply I1].
    rewrite Hv in Hx. simplify_eq. by eapply Hmax. }
  destruct Hm as [->|(Hch & Hmn & Hvw)]; [done|].
  assert (cur < m)%nat by (unfold child in Hch; lia).
  destruct (aswap_spec a cur m r (n - 1)) as (b & -> & P & L & Hbc & Hbm & Hbo); [lia..|]. obind.
  rewrite Hw in Hbc. rewrite Hv in Hbm.
  destruct (IH b m) as (c & Ec & Pc & Hh); [lia..| |].
  - split.
    + intros i c x y Hi Him Hic Hcn Hx Hy. destruct (decide (i = cur)) as [->|].
      * rewrite Hbc in Hx. simplify_eq. destruct (decide (c = m)) as [->|].
        { rewrite Hbm in Hy. simplify_eq. lia. }
        rewrite Hbo in Hy by (unfold child in Hic; lia). by eapply Hmax.
      * rewrite Hbo in Hx by done. destruct (decide (c = cur)) as [->|].
        { rewrite Hbc in Hy. simplify_eq. by eapply I2. }
        rewrite Hbo in Hy by (unfold child in *; lia). by eapply (I1 i c).
    + intros p c x y Hp Hpm Hmc Hcn Hx Hy.
      assert (p = cur) as -> by (unfold child in *; lia). rewrite Hbc in Hx. simplify_eq.
      rewrite Hbo in Hy by (unfold child in *; lia). eapply (I1 m c); try done; lia.
  - exists c. split_and!; [done| |done]. by eapply seg_perm_trans.
Qed.

Lemma heapify_spec a n r :
  (n <= length a)%nat → (r < length a)%nat → heap_from a n (S r) →
  ∃ b, heapify a n r = Some b ∧ seg_perm r (n - 1) a b ∧ heap_from b n r.
Proof.
  intros Hn Hr Hh. apply heapify_loop_spec; try done; [lia|]. split.
  - intros i c x y Hi Hne. apply Hh. lia.
  - intros p c x y Hp Hpr. unfold child in Hpr. lia.
Qed.

Lemma build_heap_spec n i : ∀ a,
  n = length a → (i < n)%nat → heap_from a n (S i) →
  ∃ b, build_heap a n i = Some b ∧ a ≡ₚ b ∧ heap_from b n 0.
Proof.
  induction i as [|i IH]; intros a Hn Hi Hh; cbn [build_heap];
    destruct (heapify_spec a n _ ltac:(lia) ltac:(rewrite <- Hn; exact Hi) Hh)
      as (b & -> & P & Hb); obind.
  - exists b. split_and!; [done|apply P|done].
  - pose proof (seg_perm_length _ _ _ _ P).
    destruct (IH b) as (c & Ec & Pc & Hc); [lia..|done|].
    exists c. split_and!; [done|destruct P; by etrans|done].
Qed.

Lemma heap_max a n x : heap_from a n 0 → (n <= length a)%nat → a !! 0%nat = Some x →
  ∀ i y, (i < n)%nat → a !! i = Some y → y <= x.
Proof.
  intros Hh Hn Hx i. induction i as [i IH] using lt_wf_ind. intros y Hi Hy.
  destruct (decide (i = 0%nat)) as [->|]; [simplify_eq; lia|].
  set (p := ((i - 1) / 2)%nat).
  assert (child p i ∧ (p < i)%nat) as [Hch Hp].
  { pose proof (Nat.div_mod_eq (i - 1) 2). pose proof (Nat.mod_upper_bound (i - 1) 2).
    unfold child. subst p. lia. }
  destruct (get_ok a p) as [z Hz]; [lia|].
  assert (y <= z) by (eapply Hh; [| |exact Hi|exact Hz|exact Hy]; [lia|done]).
  assert (z <= x) by (eapply IH; [exact Hp|lia|exact Hz]). lia.
Qed.

(** From index [k] on the array is final: sorted, and above everything
    before it. *)
Definition tail_sorted a (k : nat) : Prop :=
  ∀ i j x y, (i < j)%nat → (k <= j)%nat → a !! i = Some x → a !! j = Some y → x <= y.

Lemma tail_sorted_seg a b k :
  (0 < k)%nat → seg_perm 0 (k - 1) a b → tail_sorted a k → tail_sorted b k.
Proof.
  intros Hk0 P T i j x y Hij Hk Hx Hy. pose proof P as [_ O].
  rewrite <- O in Hy by lia. destruct (decide (i < k)%nat).
  - eapply (seg_perm_forall (λ z, z <= y)); [|exact P| |split; [lia|]|exact Hx]; [lia| |lia].
    intros q z Hq Hz. eapply T; [..|exact Hz|exact Hy]; lia.
  - rewrite <- O in Hx by lia. by eapply T.
Qed.

(** Moving the heap's maximum to the end of the heap extends the tail. *)
Lemma extract_step a b last x :
  heap_from a (S last) 0 → tail_sorted a (S last) → (last < length a)%nat →
  a !! 0%nat = Some x → b !! last = Some x → b !! 0%nat = a !! last →
  (∀ k, k ≠ 0%nat → k ≠ last → b !! k = a !! k) →
  heap_from b last 1 ∧ tail_sorted b last.
Proof.
  intros Hh T Hl Hx Hbl Hb0 Hbo. split.
  - intros i c u v Hi Hic Hc Hu Hv. unfold child in Hic.
    rewrite Hbo in Hu, Hv by lia. eapply (Hh i c); try done; lia.
  - assert (∀ i u, (i <= last)%nat → b !! i = Some u → ∃ i', (i' <= last)%nat ∧ a !! i' = Some u)
      as Hsrc.
    { intros i u Hi Hu. destruct (decide (i = last)) as [->|].
      { exists 0%nat. split; [lia|congruence]. }
      destruct (decide (i = 0%nat)) as [->|]; [exists last; split; [lia|congruence]|].
      exists i. rewrite <- Hbo by done. by split. }
    intros i j u v Hij Hj Hu Hv. destruct (decide (j = last)) as [->|].
    + rewrite Hbl in Hv. simplify_eq. destruct (Hsrc i u ltac:(lia) Hu) as (i' & Hi' & Hu').
      eapply heap_max; [exact Hh|lia|exact Hx| |exact Hu']. lia.
    + rewrite Hbo in Hv by lia. destruct (decide (i <= last)%nat).
      * destruct (Hsrc i u ltac:(lia) Hu) as (i' & Hi' & Hu').
        eapply (T i' j); try done; lia.
      * rewrite Hbo in Hu by lia. eapply (T i j); try done; lia.
Qed.

Lemma extract_heap_spec last : ∀ a,
  (last < length a)%nat → heap_from a (S last) 0 → tail_sorted a (S last) →
  ∃ b, extract_heap a last = Some b ∧ a ≡ₚ b ∧ tail_sorted b 0.
Proof.
  induction last as [|last IH]; intros a Hl Hh T; cbn [extract_heap];
    destruct (get_ok a 0) as [x Hx]; try lia;
    (destruct (aswap_spec a 0 _ 0 _ ltac:(lia) ltac:(split; [lia|reflexivity]) Hl)
      as (b & -> & P & L & Hb0 & Hbl & Hbo)); obind; rewrite Hx in Hbl;
    destruct (extract_step a b _ x Hh T Hl Hx Hbl Hb0) as [Hhb Tb]; try (intros; by apply Hbo).
  - cbn. exists b. split_and!; [done|apply P|done].
  - destruct (heapify_spec b (S last) 0) as (c & -> & Pc & Hc); [lia|lia|done|]. obind.
    pose proof (seg_perm_length _ _ _ _ Pc).
    destruct (IH c) as (d & Ed & Pd & Hd); [lia|done| |].
    { eapply tail_sorted_seg; [lia|exact Pc|done]. }
    exists d. split_and!; [done| |done].
    destruct P as [P _], Pc as [Pc _]. by rewrite P, Pc.
Qed.

Lemma sort_prices_sortZ prices : sort_prices prices = Some (sortZ prices).
Proof.
  unfold sort_prices. destruct (length prices <=? 1)%nat eqn:E; bool_hyps.
  { f_equal. symmetry. apply sortZ_unique; [|done].
    destruct prices as [|x [|y l]]; simpl in E; try lia; repeat constructor. }
  assert (length prices / 2 < length prices)%nat by (apply Nat.div_lt; lia).
  destruct (build_heap_spec (length prices) (length prices / 2) prices)
    as (a & -> & P & Hh); [done|done| |].
  { intros i c x y Hi Hic Hc. pose proof (Nat.div_mod_eq (length prices) 2).
    pose proof (Nat.mod_upper_bound (length prices) 2). unfold child in Hic. lia. }
  obind. pose proof (Permutation_length P) as L.
  destruct (extract_heap_spec (length prices - 1) a) as (b & -> & Pb & Hb).
  - lia.
  - by replace (S (length prices - 1)) with (length prices) by lia.
  - intros i j x y _ Hj _ Hy. apply lookup_lt_Some in Hy. lia.
  - f_equal. symmetry. apply sortZ_unique; [|by etrans].
    apply lookup_sorted. intros i x y Hx Hy. eapply (Hb i (S i)); try done; lia.
Qed.
End HeapSort.

(** ** The canonical (insertion-sort) median *)

Section InsertionSort.
Lemma lookup_mid {A} (p : list A) x s : (p ++ x :: s) !! length p = Some x.
Proof. by apply list_lookup_middle. Qed.

Lemma aset_mid {A} (p : list A) x s y i :
  i = length p → aset (p ++ x :: s) i y = Some (p ++ y :: s).
Proof.
  intros ->. unfold aset. rewrite (proj2 (Nat.ltb_lt _ _)) by (rewrite length_app; simpl; lia).
  by rewrite insert_app_r_alt, Nat.sub_diag by lia.
Qed.

Lemma shift_right_spec key (p : list Z) : ∀ x s,
  ∃ v j p1 p2, shift_right (p ++ x :: s) key (length p) = Some (v, j) ∧
    aset v j key = Some (p1 ++ key :: p2 ++ s) ∧ p = p1 ++ p2 ∧
    (∀ y, y ∈ p2 → key < y) ∧ (∀ y, last p1 = Some y → y <= key).
Proof.
  induction p as [|y p IH] using rev_ind; intros x s.
  { exists (x :: s), 0%nat, [], []. split_and!; try done.
    intros y Hy. by apply elem_of_nil in Hy. }
  rewrite length_app, Nat.add_1_r. cbn [shift_right].
  rewrite <- app_assoc. simpl app. rewrite lookup_mid. obind.
  destruct (key <? y) eqn:E; bool_hyps.
  - replace (p ++ y :: x :: s) with ((p ++ [y]) ++ x :: s) by by rewrite <- app_assoc.
    rewrite aset_mid by (rewrite length_app; simpl; lia). obind.
    rewrite <- app_assoc. simpl app.
    destruct (IH y (y :: s)) as (v & j & p1 & p2 & E1 & E2 & -> & H1 & H2).
    exists v, j, p1, (p2 ++ [y]). split_and!; try done.
    + by rewrite <- app_assoc.
    + by rewrite <- app_assoc.
    + intros z [Hz|Hz%list_elem_of_singleton]%elem_of_app; [auto|by subst].
  - eexists _, _, (p ++ [y]), []. split_and!; [done| |by rewrite app_nil_r| |].
    + replace (p ++ y :: x :: s) with ((p ++ [y]) ++ x :: s) by by rewrite <- app_assoc.
      rewrite aset_mid by (rewrite length_app; simpl; lia). done.
    + intros z Hz. by apply elem_of_nil in Hz.
    + intros z. rewrite last_snoc. intros [= <-]. lia.
Qed.

Lemma sort_ascending_loop_spec (r : list Z) : ∀ p,
  StronglySorted Z.le p →
  ∃ b, sort_ascending_loop (length r) (p ++ r) (length p) = Some b ∧
    p ++ r ≡ₚ b ∧ StronglySorted Z.le b.
Proof.
  induction r as [|key r IH]; intros p Hp; cbn [sort_ascending_loop length].
  { exists (p ++ []). by rewrite app_nil_r. }
  rewrite lookup_mid. obind.
  destruct (shift_right_spec key p key r) as (v & j & p1 & p2 & -> & E & -> & H2 & H1). obind.
  rewrite E. obind.
  assert (∀ y, y ∈ p1 → y <= key) as H1'.
  { intros y Hy. destruct (last p1) as [z|] eqn:El.
    - apply last_Some in El as [p1' ->]. specialize (H1 z eq_refl).
      apply elem_of_app in Hy as [Hy|Hy%list_elem_of_singleton]; [|by subst].
      apply StronglySorted_app_1_l in Hp.
      pose proof (StronglySorted_app_1_elem_of Z.le _ _ y z Hp Hy ltac:(by left)). lia.
    - apply last_None in El. subst. by apply elem_of_nil in Hy. }
  destruct (IH (p1 ++ key :: p2)) as (b & Eb & Pb & Hb).
  { apply sorted_app; [by eapply StronglySorted_app_1_l| |].
    - apply StronglySorted_cons. split; [|by eapply StronglySorted_app_1_r].
      apply Forall_forall. intros y Hy. specialize (H2 y Hy). lia.
    - intros y z Hy [->|Hz]%elem_of_cons; [auto|].
      specialize (H1' y Hy). specialize (H2 z Hz). lia. }
  exists b. split_and!; [|by rewrite <- Pb, <- !app_assoc; simpl; rewrite Permutation_middle|done].
  rewrite <- Eb, <- app_assoc. f_equal. rewrite !length_app. simpl. lia.
Qed.

Lemma sort_ascending_sortZ values : sort_ascending values = Some (sortZ values).
Proof.
  unfold sort_ascending. destruct (length values <=? 1)%nat eqn:E; bool_hyps.
  { f_equal. symmetry. apply sortZ_unique; [|done].
    destruct values as [|x [|y l]]; simpl in E; try lia; repeat constructor. }
  destruct values as [|x r]; simpl in E; [lia|].
  destruct (sort_ascending_loop_spec r [x]) as (b & Eb & Pb & Hb); [repeat constructor|].
  replace (length (x :: r) - 1)%nat with (length r) by (simpl; lia).
  change (length [x]) with 1%nat in Eb. simpl app in Eb. rewrite Eb. f_equal. symmetry.
  by apply sortZ_unique.
Qed.

Lemma canonical_median_ref `{BuildProfile} values : canonical_median values = ref_median values.
Proof.
  unfold canonical_median, ref_median. rewrite length_sortZ.
  destruct (length values =? 0)%nat; [done|]. by rewrite sort_ascending_sortZ.
Qed.

Lemma orderings_perm values o : o ∈ orderings values → o ≡ₚ values.
Proof.
  unfold orderings. destruct values as [|x [|y l]].
  - intros H. repeat (apply elem_of_cons in H as [->|H]; [done|]). by apply elem_of_nil in H.
  - intros H. repeat (apply elem_of_cons in H as [->|H]; [done|]). by apply elem_of_nil in H.
  - set (t := y :: l). intros H.
    apply elem_of_app in H as [H|H].
    { apply elem_of_cons in H as [->|H]; [done|]. apply list_elem_of_singleton in H as ->.
      apply Permutation_sym, Permutation_rev. }
    apply elem_of_app in H as [H|H].
    { apply list_elem_of_singleton in H as ->. by rewrite Permutation_app_comm. }
    destruct (last (x :: t)) as [z|] eqn:El; [|by apply elem_of_nil in H].
    apply list_elem_of_singleton in H as ->. apply last_Some in El as [m Em].
    rewrite Em. rewrite removelast_last. by rewrite Permutation_app_comm.
Qed.
End InsertionSort.

(** ** Means and their users *)

Section Means.
Context `{BuildProfile}.
Implicit Types (l prices : list Z).

Lemma compute_mean_loop_core prices n s rest :
  compute_mean_loop prices n s rest =
    match checked_sum s rest with
    | Some v => div_i128 v n
    | None => '(q, r) ← quot_rem_loop n 0 0 prices; t ← div_i128 r n; i128 (q + t)
    end.
Proof.
  revert s. induction rest as [|p rest IH]; intros s; [done|]. cbn [compute_mean_loop checked_sum].
  destruct (checked_i128 (s + p)); [|done]. obind. apply IH.
Qed.

Lemma compute_mean_core prices : compute_mean prices = mean_core prices.
Proof.
  unfold compute_mean, mean_core. destruct (length prices =? 0)%nat; [done|].
  by rewrite compute_mean_loop_core.
Qed.

Lemma ref_split_mono l : ∀ pos neg p n,
  0 <= pos → neg <= 0 → ref_split_sum pos neg l = Some (p, n) → pos <= p ∧ n <= neg.
Proof.
  induction l as [|y l IH]; intros pos neg p n Hp Hn Hs; simpl in Hs.
  - injection Hs as -> ->. lia.
  - destruct (0 <=? y) eqn:Ey; bool_hyps; apply bind_Some in Hs as (t & Hc & Hs);
      apply checked_i128_Some in Hc as [-> _]; apply IH in Hs; lia.
Qed.

Lemma ref_split_range l : ∀ pos neg p n, in_i128 pos → in_i128 neg →
  ref_split_sum pos neg l = Some (p, n) → in_i128 p ∧ in_i128 n.
Proof.
  induction l as [|y l IH]; intros pos neg p n Hp Hn Hs; simpl in Hs.
  - by injection Hs as -> ->.
  - destruct (0 <=? y); apply bind_Some in Hs as (t & Hc & Hs);
      apply checked_i128_Some in Hc as [-> Hc]; by eapply IH in Hs.
Qed.

(** The reference mean's domain is a subset of the domain where the running
    sum stays in [i128]. *)
Lemma ref_split_checked l : ∀ pos neg p n,
  0 <= pos → neg <= 0 → ref_split_sum pos neg l = Some (p, n) →
  in_i128 p → in_i128 n → is_Some (checked_sum (pos + neg) l).
Proof.
  induction l as [|x l IH]; intros pos neg p n Hp Hn Hs Hip Hin; [by eexists|].
  simpl in Hs. cbn [checked_sum].
  destruct (0 <=? x) eqn:Ex; bool_hyps; apply bind_Some in Hs as (t & Hc & Hs);
    apply checked_i128_Some in Hc as [-> Hc];
    pose proof Hs as M; apply ref_split_mono in M; try lia;
    (rewrite checked_i128_ok by (unfold in_i128 in *; lia)); obind.
  - replace (pos + neg + x) with ((pos + x) + neg) by lia. eapply IH; try done; lia.
  - replace (pos + neg + x) with (pos + (neg + x)) by lia. eapply IH; try done; lia.
Qed.

Lemma mean_core_ref l v : ref_mean l = Some v → mean_core l = Some v.
Proof.
  intros Hm. pose proof (ref_mean_exact l v Hm) as Hv. unfold ref_mean in Hm.
  apply bind_Some in Hm as ([p n] & Hs & Hm). unfold mean_core.
  destruct (length l =? 0)%nat eqn:E; [done|]. bool_hyps.
  destruct (ref_split_range l 0 0 p n) as [Hp Hn]; try done.
  destruct (ref_split_checked l 0 0 p n) as [t Ht]; try done; [lia..|].
  change (0 + 0) with 0 in Ht. rewrite Ht. apply checked_sum_total in Ht.
  rewrite div_i128_ok by lia. subst. f_equal.
Qed.

Lemma compute_trimmed_mean_core l t :
  (length l <= MEDIAN_WINDOW)%nat → 0 <= t <= 100 →
  compute_trimmed_mean l t = trimmed_mean_core l t.
Proof.
  intros Hl Ht. unfold compute_trimmed_mean, trimmed_mean_core.
  rewrite (take_ge l) by done. rewrite length_sortZ, sort_prices_sortZ, !compute_mean_core.
  destruct (length l =? 0)%nat; [done|]. destruct (t =? 0); [done|]. obind.
  rewrite compute_mean_core. destruct (trim_count (length l) t =? 0)%nat; [done|].
  pose proof (trim_count_le (length l) t Ht). unfold slice. rewrite length_sortZ.
  rewrite (proj2 (Nat.leb_le _ _)) by lia. rewrite (proj2 (Nat.leb_le _ _)) by lia.
  cbn [andb]. obind. by rewrite compute_mean_core.
Qed.

Lemma compute_mean_hull lo hi l :
  l ≠ [] → in_hull lo hi l → 0 <= lo → hi <= I128_MAX → Z.of_nat (length l) < 2 ^ 62 →
  ∃ v, compute_mean l = Some v ∧ lo <= v <= hi.
Proof. rewrite compute_mean_core. apply mean_core_hull. Qed.

(** The trimmed mean of a vector of any length. *)
Lemma compute_trimmed_mean_hull lo hi l t :
  l ≠ [] → in_hull lo hi l → 0 <= lo → hi <= I128_MAX → Z.of_nat (length l) < 2 ^ 62 →
  0 <= t <= 100 → ∃ v, compute_trimmed_mean l t = Some v ∧ lo <= v <= hi.
Proof.
  intros Hne Hh Hlo Hhi Hlen Ht. unfold compute_trimmed_mean.
  assert (0 < length l)%nat by (destruct l; simpl; [done|lia]).
  destruct (length l =? 0)%nat eqn:E; bool_hyps; [lia|].
  destruct (t =? 0); [by apply compute_mean_hull|]. rewrite sort_prices_sortZ. obind.
  assert (in_hull lo hi (sortZ l)) as Hs by (eapply in_hull_perm; [|done]; by rewrite sortZ_perm).
  pose proof (length_sortZ l) as Ls.
  assert (sortZ l ≠ []) by (intros E'; rewrite E' in Ls; simpl in Ls; lia).
  destruct (trim_count (length l) t =? 0)%nat; [apply compute_mean_hull; auto; lia|].
  set (m := take _ (drop _ (sortZ l))).
  assert (m ⊆ sortZ l) as Im.
  { intros x (i & _ & Hi)%elem_of_take_lookup. rewrite lookup_drop in Hi.
    by eapply list_elem_of_lookup_2. }
  assert (length m <= length l)%nat
    by (unfold m; rewrite length_take, length_drop, length_sortZ; lia).
  destruct (length m =? 0)%nat eqn:Em; bool_hyps.
  - destruct (lookup_lt_is_Some_2 (sortZ l) (length l / 2)) as [v Hv];
      [rewrite Ls; apply Nat.div_lt; lia|].
    exists v. split; [done|]. apply Hs. by eapply list_elem_of_lookup_2.
  - apply compute_mean_hull; eauto with oracle; [|lia]. intros E'. by rewrite E' in Em.
Qed.
End Means.

(** ** Integer square root, deviation, volume weighting *)

Section Roots.
Context `{BuildProfile}.

Lemma sqrt_loop_spec value f : ∀ lo hi,
  0 <= value < I128_MAX → 0 <= lo < hi → hi <= value → hi - lo <= 2 ^ Z.of_nat f →
  lo * lo <= value < hi * hi →
  ∃ r, sqrt_loop (S f) value lo hi = Some r ∧ 0 <= r ∧ r * r <= value < (r + 1) * (r + 1).
Proof.
  induction f as [|f IH]; intros lo hi Hv Hlo Hhi Hg Hb;
    [|remember (S f) as g eqn:Eg]; cbn [sqrt_loop];
    (rewrite (i128_ok (lo + 1)) by (unfold in_i128, I128_MIN, I128_MAX in *; lia)); obind.
  - change (2 ^ Z.of_nat 0) with 1 in Hg. case_if; bool_hyps; [lia|].
    exists lo. assert (hi = lo + 1) as -> by lia. split; [done|lia].
  - destruct (lo + 1 <? hi) eqn:E; bool_hyps.
    2:{ exists lo. assert (hi = lo + 1) as -> by lia. split; [done|lia]. }
    rewrite (i128_ok (hi - lo)) by (unfold in_i128, I128_MIN, I128_MAX in *; lia). obind.
    rewrite div_i128_ok, Z.quot_div_nonneg by lia. obind.
    pose proof (Z.div_mod (hi - lo) 2 ltac:(lia)). pose proof (Z.mod_pos_bound (hi - lo) 2 ltac:(lia)).
    set (h := (hi - lo) / 2) in *.
    rewrite i128_ok by (unfold in_i128, I128_MIN, I128_MAX in *; lia). obind.
    replace (2 ^ Z.of_nat g) with (2 * 2 ^ Z.of_nat f) in Hg
      by (rewrite Eg, Nat2Z.inj_succ, Z.pow_succ_r by lia; lia).
    assert (1 <= h) by lia. remember (lo + h) as mid eqn:Emid. remember (mid * mid) as sq eqn:Esq.
    assert (0 <= sq) by nia.
    case_if; bool_hyps; unfold sat_i128, clampZ, I128_MIN, I128_MAX in *;
      apply IH; rewrite <- ?Esq; lia.
Qed.

Lemma integer_sqrt_value value :
  0 <= value < I128_MAX →
  ∃ r, integer_sqrt value = Some r ∧ 0 <= r ∧ r * r <= value < (r + 1) * (r + 1).
Proof.
  intros Hv. unfold integer_sqrt. destruct (value <=? 1) eqn:E; bool_hyps.
  - exists value. split; [done|nia].
  - apply sqrt_loop_spec; try lia; [|nia]. unfold I128_MAX in *.
    change (Z.of_nat 128) with 128. lia.
Qed.

Lemma integer_sqrt_Zsqrt value :
  0 <= value < I128_MAX → integer_sqrt value = Some (Z.sqrt value).
Proof.
  intros Hv. destruct (integer_sqrt_value value Hv) as (r & -> & Hr & Hb). f_equal.
  symmetry. apply Z.sqrt_unique. lia.
Qed.

(** Sum of squared deviations. *)
Definition sum_sq_dev (mean : Z) (l : list Z) : Z :=
  sumZ (map (λ p, (p - mean) * (p - mean)) l).

Lemma sum_sq_dev_nonneg m l : 0 <= sum_sq_dev m l.
Proof.
  apply sumZ_nonneg. intros x (y & -> & _)%list_elem_of_fmap. apply Z.square_nonneg.
Qed.

Lemma sum_squares_spec m l : ∀ acc,
  0 <= acc → 0 <= m <= I128_MAX → in_hull 0 I128_MAX l → acc + sum_sq_dev m l <= I128_MAX →
  sum_squares m acc l = Some (acc + sum_sq_dev m l).
Proof.
  induction l as [|p l IH]; intros acc Ha Hm Hh Hb; cbn [sum_squares].
  { unfold sum_sq_dev. simpl. f_equal. lia. }
  apply in_hull_cons in Hh as [Hp Hh]. pose proof (sum_sq_dev_nonneg m l).
  change (sum_sq_dev m (p :: l)) with ((p - m) * (p - m) + sum_sq_dev m l) in *.
  rewrite i128_ok by (unfold in_i128, I128_MIN, I128_MAX in *; lia). obind.
  pose proof (Z.square_nonneg (p - m)). remember ((p - m) * (p - m)) as sq.
  rewrite (sat_i128_id sq) by (unfold in_i128, I128_MIN in *; lia).
  rewrite sat_i128_id by (unfold in_i128, I128_MIN in *; lia).
  rewrite IH by (try done; lia). f_equal. lia.
Qed.

(** Total of the positive volumes, and of price times volume over them. *)
Definition pos_volume (pv : list (Z * Z)) : Z := sumZ (map (λ x, Z.max x.2 0) pv).
Definition pos_value (pv : list (Z * Z)) : Z := sumZ (map (λ x, x.1 * Z.max x.2 0) pv).

Lemma pos_volume_nonneg pv : 0 <= pos_volume pv.
Proof. apply sumZ_nonneg. intros x (y & -> & _)%list_elem_of_fmap. lia. Qed.

Lemma pos_value_nonneg pv : (∀ p v, (p, v) ∈ pv → 0 <= p) → 0 <= pos_value pv.
Proof.
  intros Hp. apply sumZ_nonneg. intros x ([q w] & -> & Hq)%list_elem_of_fmap.
  specialize (Hp q w Hq). simpl. nia.
Qed.

Lemma pos_volume_le pv : (∀ p v, (p, v) ∈ pv → 1 <= p) → pos_volume pv <= pos_value pv.
Proof.
  induction pv as [|[p v] pv IH]; intros Hp; [done|].
  change (pos_value ((p, v) :: pv)) with (p * Z.max v 0 + pos_value pv).
  change (pos_volume ((p, v) :: pv)) with (Z.max v 0 + pos_volume pv).
  assert (1 <= p) by (apply (Hp p v); by left).
  assert (pos_volume pv <= pos_value pv); [|nia].
  apply IH. intros q w Hq. apply (Hp q w). by right.
Qed.

Lemma vwap_sums_spec lo hi pv : ∀ ws tv,
  (∀ p v, (p, v) ∈ pv → 0 <= lo <= p ∧ p <= hi) → 0 <= ws → 0 <= tv →
  ws + pos_value pv <= I128_MAX → tv + pos_volume pv <= I128_MAX →
  tv * lo <= ws <= tv * hi →
  ∃ ws', vwap_sums ws tv pv = (ws', tv + pos_volume pv) ∧
    (tv + pos_volume pv) * lo <= ws' <= (tv + pos_volume pv) * hi ∧ ws' <= I128_MAX.
Proof.
  induction pv as [|[p v] pv IH]; intros ws tv Hp Hws Htv Hb1 Hb2 Hb; cbn [vwap_sums].
  { change (pos_volume []) with 0. change (pos_value []) with 0 in *.
    exists ws. rewrite Z.add_0_r. split_and!; [done|lia..]. }
  change (pos_value ((p, v) :: pv)) with (p * Z.max v 0 + pos_value pv) in *.
  change (pos_volume ((p, v) :: pv)) with (Z.max v 0 + pos_volume pv) in *.
  assert (∀ q w, (q, w) ∈ pv → 0 <= lo <= q ∧ q <= hi) as Hp'.
  { intros q w Hq. apply (Hp q w). by right. }
  destruct (Hp p v) as [? ?]; [by left|]. pose proof (pos_volume_nonneg pv).
  assert (0 <= pos_value pv).
  { apply pos_value_nonneg. intros q w Hq. destruct (Hp' q w Hq). lia. }
  case_if; bool_hyps.
  - replace (Z.max v 0) with 0 in * by lia. rewrite Z.mul_0_r in Hb1. by apply IH.
  - replace (Z.max v 0) with v in * by lia. remember (p * v) as pr.
    assert (0 <= pr ∧ v * lo <= pr <= v * hi) by nia.
    rewrite (sat_i128_id pr) by (unfold in_i128, I128_MIN in *; lia).
    rewrite !sat_i128_id by (unfold in_i128, I128_MIN in *; lia).
    rewrite Z.add_assoc. apply IH; try done; lia.
Qed.
End Roots.

(** ** The properties of the component *)

(** C11. The quickselect with five-element pivots computes the documented
    median: on every vector, in both build profiles, [compute_median] is the
    reference median of [reference_pricing.rs] and the normative
    [canonical_median] of [median_determinism.rs] (panicking exactly where
    they do), and so is [median_core] on the windows it supports. *)
Theorem compute_median_refines `{BuildProfile} prices :
  compute_median prices = ref_median prices ∧
  canonical_median prices = ref_median prices ∧
  ((length prices <= MEDIAN_WINDOW)%nat → compute_median prices = median_core prices).
Proof.
  split_and!; [apply compute_median_ref|apply canonical_median_ref|].
  intros Hl. rewrite compute_median_ref, median_core_ref. f_equal.
  unfold max_prefix. by rewrite take_ge.
Qed.

Lemma compute_median_refines_witness :
  @compute_median OverflowChecks [9; 4; 7; 1; 8; 2] = @median_core OverflowChecks [9; 4; 7; 1; 8; 2].
Proof. apply (@compute_median_refines OverflowChecks [9; 4; 7; 1; 8; 2]). unfold MEDIAN_WINDOW; simpl; lia. Defined.

(** The median of positive prices never panics, lies between the two
    central order statistics (hence inside every interval containing the
    prices) and is the same for every ordering of the same submissions, the
    family of [median_determinism::orderings] among them. *)
Theorem compute_median_central_order_free `{BuildProfile} prices :
  prices ≠ [] → in_hull 0 I128_MAX prices →
  ∃ m a b, compute_median prices = Some m ∧ a <= m <= b ∧
    sortZ prices !! ((length prices - 1) / 2)%nat = Some a ∧
    sortZ prices !! (length prices / 2)%nat = Some b ∧
    (∀ l, l ≡ₚ prices → compute_median l = Some m) ∧
    (∀ l, l ∈ orderings prices → canonical_median l = Some m).
Proof.
  intros Hne Hh.
  destruct (ref_median_central prices Hne (spread_ok_nonneg _ Hh))
    as (m & a & b & Hm & Hab & Ha & Hb).
  exists m, a, b. rewrite compute_median_ref. split_and!; try done; try lia; intros l Hl.
  - by rewrite compute_median_ref, (ref_median_perm l prices Hl).
  - rewrite canonical_median_ref. by rewrite (ref_median_perm l prices (orderings_perm _ _ Hl)).
Qed.

Lemma compute_median_central_order_free_witness :
  ∃ m a b, @compute_median Wrapping [30; 10; 20; 40] = Some m ∧ a <= m <= b ∧
    sortZ [30; 10; 20; 40] !! 1%nat = Some a ∧ sortZ [30; 10; 20; 40] !! 2%nat = Some b ∧
    (∀ l, l ≡ₚ [30; 10; 20; 40] → @compute_median Wrapping l = Some m) ∧
    (∀ l, l ∈ orderings [30; 10; 20; 40] → @canonical_median Wrapping l = Some m).
Proof.
  apply (@compute_median_central_order_free Wrapping [30; 10; 20; 40]); [done|].
  intros x Hx. unfold I128_MAX.
  repeat (apply elem_of_cons in Hx as [->|Hx]; [lia|]). by apply elem_of_nil in Hx.
Defined.

(** "The subtraction cannot overflow": the comment of
    [median_determinism.rs] fails on the pair of [i128::MIN] and 0.  The gap
    [2^127] is outside [i128]: a checked build panics, and a release build
    publishes [2^126], far above both submissions. *)
Theorem median_gap_overflows :
  @compute_median OverflowChecks [I128_MIN; 0] = None ∧
  @compute_median Wrapping [I128_MIN; 0] = Some (2 ^ 126).
Proof. by vm_compute. Qed.

(** Both in-place sorts of the contract, the heap sort of [storage.rs]
    and the insertion sort of [median_determinism.rs], return on every vector
    and return its sorted permutation, so they agree. *)
Theorem contract_sorts_sort prices :
  ∃ l, sort_prices prices = Some l ∧ sort_ascending prices = Some l ∧
    l ≡ₚ prices ∧ StronglySorted Z.le l.
Proof.
  exists (sortZ prices). rewrite sort_prices_sortZ, sort_ascending_sortZ.
  split_and!; auto using sortZ_perm, sortZ_sorted.
Qed.

(** [integer_sqrt] terminates and is the exact floor square root on every
    non-negative value below [i128::MAX]; at [i128::MAX] the saturating
    product makes every candidate pass and the answer is wrong. *)
Theorem integer_sqrt_floor `{BuildProfile} value :
  (0 <= value < I128_MAX → integer_sqrt value = Some (Z.sqrt value)) ∧
  integer_sqrt I128_MAX = Some (I128_MAX - 1).
Proof.
  split; [apply integer_sqrt_Zsqrt|destruct H; by vm_compute].
Qed.

Lemma integer_sqrt_floor_witness : @integer_sqrt Wrapping 1000003 = Some (Z.sqrt 1000003).
Proof. apply (@integer_sqrt_floor Wrapping 1000003). unfold I128_MAX. lia. Defined.

(** On positive prices whose squared deviations sum within [i128],
    [compute_stddev] is the floor of the root of the mean squared deviation
    from the truncated mean, reduced modulo [2^32] by the final cast. *)
Theorem compute_stddev_value `{BuildProfile} prices mean :
  prices ≠ [] → in_hull 0 I128_MAX prices → Z.of_nat (length prices) < 2 ^ 62 →
  compute_mean prices = Some mean → sum_sq_dev mean prices < I128_MAX →
  compute_stddev prices =
    Some (as_u32 (Z.sqrt (sum_sq_dev mean prices / Z.of_nat (length prices)))).
Proof.
  intros Hne Hh Hlen Hm Hs. unfold compute_stddev.
  assert (0 < length prices)%nat by (destruct prices; simpl; [done|lia]).
  destruct (length prices =? 0)%nat eqn:E; bool_hyps; [lia|]. rewrite Hm. obind.
  destruct (compute_mean_hull 0 I128_MAX prices) as (m & Hm' & Hr); try done.
  rewrite Hm in Hm'. injection Hm' as <-. pose proof (sum_sq_dev_nonneg mean prices).
  rewrite sum_squares_spec by (try done; lia). obind.
  rewrite div_i128_ok, Z.quot_div_nonneg by lia. obind.
  assert (0 <= sum_sq_dev mean prices / Z.of_nat (length prices) < I128_MAX).
  { split; [apply Z.div_pos; lia|]. apply Z.div_lt_upper_bound; nia. }
  rewrite Z.add_0_l, integer_sqrt_Zsqrt by done. obind. by rewrite Z.max_l by apply Z.sqrt_nonneg.
Qed.

Lemma compute_stddev_value_witness :
  @compute_stddev Wrapping [100; 140; 60; 100] =
    Some (as_u32 (Z.sqrt (sum_sq_dev 100 [100; 140; 60; 100] / 4))).
Proof.
  apply (@compute_stddev_value Wrapping [100; 140; 60; 100] 100);
    [done| |simpl; lia|by vm_compute|by vm_compute].
  intros x Hx. unfold I128_MAX.
  repeat (apply elem_of_cons in Hx as [->|Hx]; [lia|]). by apply elem_of_nil in Hx.
Defined.

(** The [as u32] cast of [compute_stddev] loses the deviation of prices at
    the contract's own scale: two sources a factor of eight billion apart
    report a relative deviation of zero, the best confidence there is. *)
Theorem compute_confidence_bps_truncates `{BuildProfile} :
  compute_stddev [1; 2 ^ 33 + 1] = Some 0 ∧
  compute_confidence_bps [1; 2 ^ 33 + 1] = Some 0 ∧
  compute_confidence_bps [1; 2 ^ 31 + 1] = Some 9999.
Proof. destruct H; by vm_compute. Qed.

(** The contract's mean and trimmed mean agree with the reference
    wherever the reference is defined (whose domain is the exact sum fitting
    [i128]), and with the fuzzed core on its window. *)
Theorem compute_mean_refines `{BuildProfile} prices t v :
  (ref_mean prices = Some v → compute_mean prices = Some v) ∧
  compute_mean prices = mean_core prices ∧
  ((length prices <= MEDIAN_WINDOW)%nat → 0 <= t <= 100 →
   compute_trimmed_mean prices t = trimmed_mean_core prices t).
Proof.
  split_and!; [|apply compute_mean_core|apply compute_trimmed_mean_core].
  intros Hm. rewrite compute_mean_core. by apply mean_core_ref.
Qed.

Lemma compute_mean_refines_witness :
  @compute_mean Wrapping [7; -2; 9; 3] = Some 4 ∧
  @compute_trimmed_mean Wrapping [7; -2; 9; 3] 50 = @trimmed_mean_core Wrapping [7; -2; 9; 3] 50.
Proof.
  split.
  - apply (proj1 (@compute_mean_refines Wrapping [7; -2; 9; 3] 50 4)). by vm_compute.
  - apply (proj2 (proj2 (@compute_mean_refines Wrapping [7; -2; 9; 3] 50 4)));
      [by apply Nat.leb_le; vm_compute|lia].
Defined.

(** Volume weighting of positive prices never panics and, when the sum of
    price times volume fits [i128], the result lies between the least and the
    greatest price; without a positive volume it is the mean. *)
Theorem compute_vwap_bounded `{BuildProfile} lo hi prices volumes :
  length prices = length volumes → prices ≠ [] → in_hull lo hi prices → 1 <= lo → hi <= I128_MAX →
  Z.of_nat (length prices) < 2 ^ 62 → pos_value (zip prices volumes) <= I128_MAX →
  ∃ v, compute_vwap prices volumes = Some v ∧ lo <= v <= hi.
Proof.
  intros Hl Hne Hh Hlo Hhi Hlen Hs. unfold compute_vwap.
  assert (0 < length prices)%nat by (destruct prices; simpl; [done|lia]).
  case_if; bool_hyps; [lia|].
  assert (∀ p v, (p, v) ∈ zip prices volumes → 0 <= lo <= p ∧ p <= hi) as Hp.
  { intros p v Hpv. apply elem_of_zip_l in Hpv. specialize (Hh p Hpv). lia. }
  assert (pos_volume (zip prices volumes) <= pos_value (zip prices volumes)) as Hvv.
  { apply pos_volume_le. intros p v Hpv. specialize (Hp p v Hpv). lia. }
  destruct (vwap_sums_spec lo hi (zip prices volumes) 0 0) as (ws & -> & Hb & Hw); try done; [lia..|].
  rewrite Z.add_0_l in *. pose proof (pos_volume_nonneg (zip prices volumes)).
  case_if; bool_hyps; [apply compute_mean_hull; auto; lia|].
  rewrite div_i128_ok, Z.quot_div_nonneg by nia. eexists. split; [done|].
  split; [apply Z.div_le_lower_bound; lia|].
  apply Z.lt_succ_r, Z.div_lt_upper_bound; lia.
Qed.

Lemma compute_vwap_bounded_witness :
  ∃ v, @compute_vwap OverflowChecks [100; 200; 300] [5; -1; 10] = Some v ∧ 100 <= v <= 300.
Proof.
  apply (@compute_vwap_bounded OverflowChecks 100 300);
    [done|done| |lia|vm_compute; discriminate|simpl; lia|vm_compute; discriminate].
  intros x Hx. repeat (apply elem_of_cons in Hx as [->|Hx]; [lia|]). by apply elem_of_nil in Hx.
Defined.
