(* ===== verification/IncrementalAggregate.v ===== *)
(** * [incremental_aggregate.rs]: a median maintained under insertions

    The contributing prices in a sorted vector, tagged with the epoch of the
    source set they belong to.  The searches run on indices, as the source's
    loops do; [lower_bound] halves its interval, so its length is enough fuel.
    The structure is shown to answer what [compute_median] answers on the
    prices that were inserted and not removed. *)
From stdpp Require Import base list sorting.
From S2P Require Import Prelude Machine ReferencePricing StorageMath.
#[local] Open Scope Z_scope.
#[local] Set Default Goal Selector "!".

Record IncrementalAggregate := MkIncrementalAggregate { ia_sorted : list Z; ia_epoch : Z }.

(** ** Operations *)

Definition empty (epoch : Z) : IncrementalAggregate := MkIncrementalAggregate [] epoch.

Definition rebuild (prices : list Z) (epoch : Z) : option IncrementalAggregate :=
  sorted ← sort_prices prices; Some (MkIncrementalAggregate sorted epoch).

(** [while lo < hi] *)
Fixpoint lower_bound_loop (fuel : nat) (sorted : list Z) (price : Z) (lo hi : nat) : option nat :=
  match fuel with
  | O => None
  | S fuel =>
      if (lo <? hi)%nat then
        let mid := (lo + (hi - lo) / 2)%nat in
        v ← sorted !! mid;
        if v <? price then lower_bound_loop fuel sorted price (S mid) hi
        else lower_bound_loop fuel sorted price lo mid
      else Some lo
  end.

Definition lower_bound (a : IncrementalAggregate) (price : Z) : option nat :=
  lower_bound_loop (S (length (ia_sorted a))) (ia_sorted a) price 0 (length (ia_sorted a)).

(** [Vec::insert] and [Vec::remove] at an index within the vector. *)
Definition vec_insert (pos : nat) (x : Z) (l : list Z) : list Z := take pos l ++ x :: drop pos l.
Definition vec_remove (pos : nat) (l : list Z) : list Z := take pos l ++ drop (S pos) l.

Definition insert (a : IncrementalAggregate) (price : Z) : option IncrementalAggregate :=
  pos ← lower_bound a price;
  Some (MkIncrementalAggregate (vec_insert pos price (ia_sorted a)) (ia_epoch a)).

Definition remove (a : IncrementalAggregate) (price : Z) : option (IncrementalAggregate * bool) :=
  pos ← lower_bound a price;
  Some (if bool_decide (ia_sorted a !! pos = Some price)
        then (MkIncrementalAggregate (vec_remove pos (ia_sorted a)) (ia_epoch a), true)
        else (a, false)).

Definition replace (a : IncrementalAggregate) (old new : Z) : option (IncrementalAggregate * bool) :=
  '(a, removed) ← remove a old;
  if removed : bool then a ← insert a new; Some (a, true) else Some (a, false).

(** [for i in 1..n]: no element above the next one. *)
Fixpoint is_consistent_from (sorted : list Z) : bool :=
  match sorted with
  | x :: (y :: _) as rest => (x <=? y) && is_consistent_from rest
  | _ => true
  end.

Definition is_consistent (a : IncrementalAggregate) : bool := is_consistent_from (ia_sorted a).

Definition median_unchecked `{BuildProfile} (a : IncrementalAggregate) : option Z :=
  let n := length (ia_sorted a) in
  if (n =? 0)%nat then Some 0
  else
    let mid := (n / 2)%nat in
    if Nat.even n then
      lower ← ia_sorted a !! (mid - 1)%nat;
      upper ← ia_sorted a !! mid;
      midpoint lower upper
    else ia_sorted a !! mid.

(** [None] for a panic, [Some None] for a stale structure. *)
Definition median_at `{BuildProfile} (a : IncrementalAggregate) (current_epoch : Z) : option (option Z) :=
  if negb (ia_epoch a =? current_epoch) then Some None else m ← median_unchecked a; Some (Some m).

Definition median_or_rebuild `{BuildProfile} (a : IncrementalAggregate) (current_epoch : Z)
    (ground_truth : list Z) : option (IncrementalAggregate * Z * bool) :=
  if (ia_epoch a =? current_epoch) && (length (ia_sorted a) =? length ground_truth)%nat && is_consistent a
  then m ← median_unchecked a; Some (a, m, false)
  else a ← rebuild ground_truth current_epoch; m ← median_unchecked a; Some (a, m, true).

(** ** The search *)

Section Search.
Implicit Types l : list Z.

(** [pos] splits [l] at [price]: smaller before it, not smaller from it on. *)
Definition splits_at l (price : Z) (pos : nat) : Prop :=
  (pos <= length l)%nat ∧ (∀ i v, l !! i = Some v → (i < pos)%nat → v < price)
  ∧ (∀ i v, l !! i = Some v → (pos <= i)%nat → price <= v).

Lemma lower_bound_loop_spec l price : ∀ fuel lo hi,
  StronglySorted Z.le l → (lo <= hi <= length l)%nat → (hi - lo < fuel)%nat →
  (∀ i v, l !! i = Some v → (i < lo)%nat → v < price) →
  (∀ i v, l !! i = Some v → (hi <= i)%nat → price <= v) →
  ∃ pos, lower_bound_loop fuel l price lo hi = Some pos ∧ splits_at l price pos.
Proof.
  induction fuel as [|fuel IH]; intros lo hi Hs Hb Hf Hlo Hhi; [lia|]. cbn [lower_bound_loop].
  destruct (lo <? hi)%nat eqn:E; bool_hyps.
  2:{ exists lo. split; [done|]. split; [lia|]. split; [done|]. intros i v Hi ?. apply (Hhi i v Hi). lia. }
  pose proof (Nat.div_lt (hi - lo) 2 ltac:(lia) ltac:(lia)) as Hd.
  set (mid := (lo + (hi - lo) / 2)%nat) in *.
  destruct (lookup_lt_is_Some_2 l mid) as [v Hv]; [lia|]. rewrite Hv. cbn [mbind option_bind]. cbv zeta.
  destruct (v <? price) eqn:Ev; bool_hyps.
  - apply IH; [done|lia|lia| |done]. intros i x Hi Hlt.
    destruct (decide (i = mid)) as [->|]; [congruence|].
    pose proof (sorted_lookup l i mid x v Hs) as Hle. specialize (Hle ltac:(lia) Hi Hv). lia.
  - apply IH; [done|lia|lia|done|]. intros i x Hi Hle.
    destruct (decide (i = mid)) as [->|]; [congruence|].
    pose proof (sorted_lookup l mid i v x Hs ltac:(lia) Hv Hi). lia.
Qed.
End Search.

(** ** Mutations keep the vector sorted *)

Lemma lower_bound_sorted l epoch price :
  StronglySorted Z.le l → ∃ pos, lower_bound (MkIncrementalAggregate l epoch) price = Some pos ∧ splits_at l price pos.
Proof.
  intros Hs. unfold lower_bound. cbn [ia_sorted]. apply lower_bound_loop_spec; [done|lia|lia|lia|].
  intros i v Hi ?. apply lookup_lt_Some in Hi. lia.
Qed.

Lemma split_below l price pos x : splits_at l price pos → x ∈ take pos l → x < price.
Proof. intros (_ & H & _) (i & ? & Hi)%elem_of_take_lookup. eauto. Qed.

Lemma split_above l price pos x : splits_at l price pos → x ∈ drop pos l → price <= x.
Proof. intros (_ & _ & H) (i & Hi)%list_elem_of_lookup. rewrite lookup_drop in Hi. eapply H; [exact Hi|lia]. Qed.

Lemma sorted_take_drop l pos :
  StronglySorted Z.le l → StronglySorted Z.le (take pos l) ∧ StronglySorted Z.le (drop pos l).
Proof. rewrite <- (take_drop pos l) at 1. intros H. split; [by eapply StronglySorted_app_1_l|by eapply StronglySorted_app_1_r]. Qed.

Lemma vec_insert_sortZ l price pos :
  splits_at (sortZ l) price pos → vec_insert pos price (sortZ l) = sortZ (price :: l).
Proof.
  intros Hp. symmetry. apply sortZ_unique.
  - destruct (sorted_take_drop (sortZ l) pos (sortZ_sorted l)) as [H1 H2].
    apply sorted_app; [done| |].
    + constructor; [done|]. apply Forall_forall. intros x Hx. by eapply split_above.
    + intros x y Hx [->|Hy]%elem_of_cons; [pose proof (split_below _ _ _ _ Hp Hx); lia|].
      pose proof (split_below _ _ _ _ Hp Hx). pose proof (split_above _ _ _ _ Hp Hy). lia.
  - unfold vec_insert. rewrite <- Permutation_middle, take_drop. by rewrite sortZ_perm.
Qed.

Lemma vec_remove_sortZ l price pos :
  sortZ (price :: l) !! pos = Some price → vec_remove pos (sortZ (price :: l)) = sortZ l.
Proof.
  intros Hp. symmetry. apply sortZ_unique.
  - unfold vec_remove. pose proof (sortZ_sorted (price :: l)) as Hs.
    rewrite <- (take_drop_middle _ _ _ Hp) in Hs. apply sorted_app.
    + by eapply StronglySorted_app_1_l.
    + apply StronglySorted_app_1_r in Hs. by apply StronglySorted_cons in Hs as [_ ?].
    + intros x y Hx Hy. apply (StronglySorted_app_1_elem_of Z.le _ _ x y Hs Hx). by right.
  - apply (Permutation_cons_inv (a := price)).
    transitivity (sortZ (price :: l)); [symmetry; apply sortZ_perm|].
    transitivity (take pos (sortZ (price :: l)) ++ price :: drop (S pos) (sortZ (price :: l))).
    + by rewrite (take_drop_middle _ _ _ Hp).
    + symmetry. apply Permutation_middle.
Qed.

(** The place the search finds holds [price] exactly when it is present. *)
Lemma found_iff l price pos :
  StronglySorted Z.le l → splits_at l price pos → l !! pos = Some price ↔ price ∈ l.
Proof.
  intros Hs (Hle & Hlo & Hhi). split; [apply list_elem_of_lookup_2|].
  intros (i & Hi)%list_elem_of_lookup.
  destruct (decide (i < pos)%nat); [pose proof (Hlo i price Hi ltac:(lia)); lia|].
  pose proof (lookup_lt_Some _ _ _ Hi).
  destruct (lookup_lt_is_Some_2 l pos) as [v Hv]; [lia|].
  pose proof (Hhi pos v Hv ltac:(lia)). pose proof (sorted_lookup l pos i v price Hs ltac:(lia) Hv Hi).
  rewrite Hv. f_equal. lia.
Qed.

(** ** Against the ground truth *)

(** The prices of the sources, and what a mutation of the structure stands for
    there; the flag is the value the mutation returns. *)
Inductive Update := Insert (price : Z) | Remove (price : Z) | Replace (old new : Z).

Fixpoint remove_one (price : Z) (prices : list Z) : list Z :=
  match prices with
  | [] => []
  | p :: rest => if p =? price then rest else p :: remove_one price rest
  end.

Definition update_truth (prices : list Z) (u : Update) : list Z * bool :=
  match u with
  | Insert price => (price :: prices, true)
  | Remove price => (remove_one price prices, bool_decide (price ∈ prices))
  | Replace old new =>
      if bool_decide (old ∈ prices) then (new :: remove_one old prices, true) else (prices, false)
  end.

Definition update_aggregate (a : IncrementalAggregate) (u : Update) : option (IncrementalAggregate * bool) :=
  match u with
  | Insert price => a ← insert a price; Some (a, true)
  | Remove price => remove a price
  | Replace old new => replace a old new
  end.

Fixpoint run_truth (prices : list Z) (us : list Update) : list Z * list bool :=
  match us with
  | [] => (prices, [])
  | u :: us =>
      let '(prices, b) := update_truth prices u in
      let '(prices, bs) := run_truth prices us in (prices, b :: bs)
  end.

Fixpoint run_aggregate (a : IncrementalAggregate) (us : list Update)
    : option (IncrementalAggregate * list bool) :=
  match us with
  | [] => Some (a, [])
  | u :: us =>
      '(a, b) ← update_aggregate a u;
      '(a, bs) ← run_aggregate a us; Some (a, b :: bs)
  end.

Lemma remove_one_perm price prices : price ∈ prices → prices ≡ₚ price :: remove_one price prices.
Proof.
  induction prices as [|p prices IH]; [by intros ?%elem_of_nil|]. intros Hp. cbn.
  destruct (p =? price) eqn:E; [by apply Z.eqb_eq in E as ->|apply Z.eqb_neq in E].
  apply elem_of_cons in Hp as [?|Hp]; [congruence|]. rewrite (IH Hp) at 1. apply Permutation_swap.
Qed.

Lemma remove_one_absent price prices : price ∉ prices → remove_one price prices = prices.
Proof.
  induction prices as [|p prices IH]; [done|]. intros Hp. cbn. apply not_elem_of_cons in Hp as [Hne Hp].
  destruct (p =? price) eqn:E; [apply Z.eqb_eq in E; congruence|]. f_equal. by apply IH.
Qed.

(** The structure of some prices: their sorted vector. *)
Definition tracks (a : IncrementalAggregate) (epoch : Z) (prices : list Z) : Prop :=
  a = MkIncrementalAggregate (sortZ prices) epoch.

Lemma insert_tracks a epoch prices price :
  tracks a epoch prices → ∃ a', insert a price = Some a' ∧ tracks a' epoch (price :: prices).
Proof.
  intros ->. destruct (lower_bound_sorted (sortZ prices) epoch price (sortZ_sorted _)) as (pos & E & Hp).
  unfold insert. rewrite E. cbn. eexists. split; [done|]. unfold tracks. f_equal. by apply vec_insert_sortZ.
Qed.

Lemma remove_tracks a epoch prices price :
  tracks a epoch prices →
  ∃ a', remove a price = Some (a', bool_decide (price ∈ prices)) ∧ tracks a' epoch (remove_one price prices).
Proof.
  intros ->. destruct (lower_bound_sorted (sortZ prices) epoch price (sortZ_sorted _)) as (pos & E & Hp).
  pose proof (found_iff _ _ _ (sortZ_sorted prices) Hp) as Hf. rewrite elem_of_sortZ in Hf.
  unfold remove. rewrite E. cbn. destruct (decide (price ∈ prices)) as [Hin|Hin].
  - rewrite !bool_decide_eq_true_2 by tauto. eexists. split; [done|]. unfold tracks. f_equal.
    apply Hf in Hin as Hat. pose proof (remove_one_perm price prices Hin) as P.
    rewrite (sortZ_proper _ _ P) in Hat |- *. by apply vec_remove_sortZ.
  - rewrite !bool_decide_eq_false_2 by tauto. eexists. split; [done|]. by rewrite remove_one_absent.
Qed.

#[local] Arguments insert : simpl never.
#[local] Arguments remove : simpl never.
#[local] Arguments replace : simpl never.

Lemma update_tracks a epoch prices u :
  tracks a epoch prices →
  ∃ a', update_aggregate a u = Some (a', (update_truth prices u).2) ∧ tracks a' epoch (update_truth prices u).1.
Proof.
  intros Ha. destruct u as [price|price|old new]; cbn.
  - destruct (insert_tracks a epoch prices price Ha) as (a' & -> & H). by exists a'.
  - apply remove_tracks, Ha.
  - unfold replace. destruct (remove_tracks a epoch prices old Ha) as (a1 & -> & H1). cbn.
    destruct (decide (old ∈ prices)) as [Hin|Hin].
    + rewrite bool_decide_eq_true_2 by done. cbn.
      destruct (insert_tracks a1 epoch _ new H1) as (a2 & -> & H2). by exists a2.
    + rewrite bool_decide_eq_false_2 by done. cbn. exists a1. split; [done|].
      by rewrite remove_one_absent in H1.
Qed.

Lemma run_tracks us : ∀ a epoch prices,
  tracks a epoch prices →
  ∃ a', run_aggregate a us = Some (a', (run_truth prices us).2) ∧ tracks a' epoch (run_truth prices us).1.
Proof.
  induction us as [|u us IH]; intros a epoch prices Ha; cbn; [by exists a|].
  destruct (update_tracks a epoch prices u Ha) as (a1 & -> & H1). cbn.
  destruct (update_truth prices u) as [prices1 b]; cbn in *.
  destruct (IH a1 epoch prices1 H1) as (a2 & -> & H2). cbn.
  destruct (run_truth prices1 us); cbn in *. by exists a2.
Qed.

Lemma median_tracks `{BuildProfile} a epoch prices :
  tracks a epoch prices → median_unchecked a = compute_median prices.
Proof.
  intros ->. rewrite compute_median_ref. unfold median_unchecked, ref_median. cbn. rewrite !length_sortZ.
  destruct (length prices =? 0)%nat; [done|]. rewrite <- Nat.negb_odd. by destruct (Nat.odd _).
Qed.

Lemma consistent_sorted l : StronglySorted Z.le l → is_consistent_from l = true.
Proof.
  induction 1 as [|x l Hs IH Hx]; [done|]. destruct l as [|y l]; [done|].
  change (((x <=? y) && is_consistent_from (y :: l)) = true). rewrite IH, andb_true_r.
  apply Z.leb_le. rewrite Forall_forall in Hx. apply Hx. left.
Qed.

(** C13. The incremental aggregate is the median.  Rebuilt from any prices and
    then updated by any sequence of insertions, removals and replacements, it
    never panics, returns the flag of whether the price was there, and for its
    own epoch answers exactly what [compute_median] answers on the prices that
    are left, in both builds, overflow included; for another epoch it answers
    nothing.  The fall-back path keeps a structure that tracks the ground truth
    and otherwise returns [compute_median] of it. *)
Theorem incremental_is_median `{BuildProfile} base epoch us :
  let '(prices, flags) := run_truth base us in
  ∃ a, (a ← rebuild base epoch; run_aggregate a us) = Some (a, flags) ∧
    (∀ current, median_at a current =
       if epoch =? current then Some <$> compute_median prices else Some None) ∧
    ∀ current truth m, compute_median truth = Some m →
      (epoch ≠ current ∨ length prices ≠ length truth ∨ prices ≡ₚ truth) →
      ∃ a' rebuilt, median_or_rebuild a current truth = Some (a', m, rebuilt) ∧
        tracks a' current truth ∧ (rebuilt = false → a' = a).
Proof.
  destruct (run_truth base us) as [prices flags] eqn:E.
  destruct (run_tracks us (MkIncrementalAggregate (sortZ base) epoch) epoch base eq_refl) as (a & Hr & Ha).
  rewrite E in Hr, Ha. cbn in Hr, Ha. exists a. split.
  { unfold rebuild. rewrite sort_prices_sortZ. exact Hr. }
  assert (ia_epoch a = epoch) as Ee by (by rewrite Ha). split.
  - intros current. unfold median_at. rewrite Ee, (median_tracks a epoch prices Ha).
    destruct (epoch =? current); cbn; [by destruct (compute_median prices)|done].
  - intros current truth m Hm Hcase. unfold median_or_rebuild. rewrite Ee.
    assert (tracks (MkIncrementalAggregate (sortZ truth) current) current truth) as Ht by done.
    destruct ((epoch =? current) && _ && _) eqn:Ec.
    + apply andb_prop in Ec as [[Ec El]%andb_prop _]. bool_hyps. subst current.
      rewrite Ha in El. cbn in El. rewrite length_sortZ in El.
      destruct Hcase as [?|[?|P]]; [done|done|].
      assert (tracks a epoch truth) as Hat by (unfold tracks; rewrite Ha; f_equal; by apply sortZ_proper).
      rewrite (median_tracks a epoch truth Hat), Hm. cbn. by exists a, false.
    + unfold rebuild. rewrite sort_prices_sortZ. cbn. rewrite (median_tracks _ _ _ Ht), Hm. cbn.
      by eexists _, true.
Qed.

Lemma incremental_is_median_example :
  (a ← rebuild [50; 10; 30] 7; '(a, _) ← run_aggregate a [Insert 20; Remove 99; Replace 50 40];
   @median_at Wrapping a 7) = Some (Some 25).
Proof. by vm_compute. Qed.
