(* ===== verification/Types.v ===== *)
(** * [types.rs], [errors.rs], [events.rs]: the data of the contract

    The structs, enums, error codes, storage keys and events of the modelled
    components, with the fields and variants of the source; machine integers
    are [Z] (their widths are enforced by the operations, see [Machine]),
    [Address] is an opaque identifier, [String] and [Symbol] are strings,
    [Bytes] and [BytesN] are lists of bytes as integers, [Vec] is a list and
    [Map] a finite map.  Fields carry a short prefix because Rocq records
    share one name space.  [DataKey] holds the keys the modelled code uses;
    [ty_of] gives the type at which each is read and written. *)
From stdpp Require Import base list gmap strings.
From S2P Require Import Prelude.
#[local] Open Scope Z_scope.
#[local] Set Default Goal Selector "!".

Definition Address : Type := N.
Definition Bytes : Type := list Z.

(** ** Structs and enums *)

Inductive OperationType :=
  | OpUpgrade
  | OpSetAdmin
  | OpSetMinSources
  | OpSetMaxHistory
  | OpSetResolution
  | OpSetDecimals
  | OpSetDescription
  | OpSetTimestampThreshold.

Inductive OperationPriority :=
  | PrioUrgent
  | PrioNormal
  | PrioLongTerm.

Inductive AggregationMethod :=
  | AggMedian
  | AggMean
  | AggTrimmedMean
  | AggVWAP.

Inductive BudgetCategory :=
  | BudgetOperations
  | BudgetDevelopment
  | BudgetSecurity
  | BudgetMarketing
  | BudgetReserve.

Inductive SpendOutcome :=
  | Approved
  | RejectedUnapproved
  | RejectedOverBudget
  | RejectedMissingEvidence
  | RejectedInvalidAmount.

Inductive RiskTier :=
  | Tier1BlueChip
  | Tier2Standard
  | Tier3Thin
  | Tier4Speculative.

#[export] Instance RiskTier_eq_dec : EqDecision RiskTier.
Proof. solve_decision. Defined.

Definition RiskTier_as_u32 (x : RiskTier) : Z :=
  match x with
  | Tier1BlueChip => 0
  | Tier2Standard => 1
  | Tier3Thin => 2
  | Tier4Speculative => 3
  end.

Inductive FreshnessState :=
  | FreshnessFresh
  | FreshnessStale
  | FreshnessAbsent.

#[export] Instance FreshnessState_eq_dec : EqDecision FreshnessState.
Proof. solve_decision. Defined.

Definition FreshnessState_as_u32 (x : FreshnessState) : Z :=
  match x with
  | FreshnessFresh => 0
  | FreshnessStale => 1
  | FreshnessAbsent => 2
  end.

Inductive BoundReason :=
  | ReasonInBounds
  | ReasonClampedToSoftMin
  | ReasonClampedToSoftMax
  | ReasonRejectedBelowHardMin
  | ReasonRejectedAboveHardMax.

#[export] Instance BoundReason_eq_dec : EqDecision BoundReason.
Proof. solve_decision. Defined.

Definition BoundReason_as_u32 (x : BoundReason) : Z :=
  match x with
  | ReasonInBounds => 0
  | ReasonClampedToSoftMin => 1
  | ReasonClampedToSoftMax => 2
  | ReasonRejectedBelowHardMin => 3
  | ReasonRejectedAboveHardMax => 4
  end.

Inductive PublicationState :=
  | PublicationAbsent
  | PublicationDeferred
  | PublicationPublished
  | PublicationStale.

#[export] Instance PublicationState_eq_dec : EqDecision PublicationState.
Proof. solve_decision. Defined.

Definition PublicationState_as_u32 (x : PublicationState) : Z :=
  match x with
  | PublicationAbsent => 0
  | PublicationDeferred => 1
  | PublicationPublished => 2
  | PublicationStale => 3
  end.

Inductive AnomalyRule :=
  | RulePriceOutOfBounds
  | RuleNonPositivePrice
  | RuleFutureTimestamp
  | RuleStaleSubmission
  | RuleChangeRateBreach
  | RuleCorrelationBand
  | RuleInsufficientSources
  | RuleLowConfidenceBand.

#[export] Instance AnomalyRule_eq_dec : EqDecision AnomalyRule.
Proof. solve_decision. Defined.

Definition AnomalyRule_as_u32 (x : AnomalyRule) : Z :=
  match x with
  | RulePriceOutOfBounds => 1
  | RuleNonPositivePrice => 2
  | RuleFutureTimestamp => 3
  | RuleStaleSubmission => 4
  | RuleChangeRateBreach => 5
  | RuleCorrelationBand => 6
  | RuleInsufficientSources => 7
  | RuleLowConfidenceBand => 8
  end.

Inductive SanityAction :=
  | SanityFlag
  | SanityReject
  | SanityQuarantine.

#[export] Instance SanityAction_eq_dec : EqDecision SanityAction.
Proof. solve_decision. Defined.

Definition SanityAction_as_u32 (x : SanityAction) : Z :=
  match x with
  | SanityFlag => 0
  | SanityReject => 1
  | SanityQuarantine => 2
  end.

Inductive SanityRelationKind :=
  | KindPeg
  | KindTriangle
  | KindSpread.

#[export] Instance SanityRelationKind_eq_dec : EqDecision SanityRelationKind.
Proof. solve_decision. Defined.

Definition SanityRelationKind_as_u32 (x : SanityRelationKind) : Z :=
  match x with
  | KindPeg => 0
  | KindTriangle => 1
  | KindSpread => 2
  end.

Inductive HistoryStorageTier :=
  | TierTemporary
  | TierPersistent.

#[export] Instance HistoryStorageTier_eq_dec : EqDecision HistoryStorageTier.
Proof. solve_decision. Defined.

Definition HistoryStorageTier_as_u32 (x : HistoryStorageTier) : Z :=
  match x with
  | TierTemporary => 0
  | TierPersistent => 1
  end.

Inductive RecomputeReason :=
  | RecomputeRemoved
  | RecomputeAssetClaimRemoved
  | RecomputeDisqualified
  | RecomputeSuspended.

#[export] Instance RecomputeReason_eq_dec : EqDecision RecomputeReason.
Proof. solve_decision. Defined.

Definition RecomputeReason_as_u32 (x : RecomputeReason) : Z :=
  match x with
  | RecomputeRemoved => 0
  | RecomputeAssetClaimRemoved => 1
  | RecomputeDisqualified => 2
  | RecomputeSuspended => 3
  end.

Inductive DegradationState :=
  | DegradationFresh
  | DegradationStale
  | DegradationClamped
  | DegradationLowConfidence
  | DegradationDeferred.

#[export] Instance DegradationState_eq_dec : EqDecision DegradationState.
Proof. solve_decision. Defined.

Definition DegradationState_as_u32 (x : DegradationState) : Z :=
  match x with
  | DegradationFresh => 0
  | DegradationStale => 1
  | DegradationClamped => 2
  | DegradationLowConfidence => 3
  | DegradationDeferred => 4
  end.

Inductive ScheduleKind :=
  | ScheduleEveryNLedgers
  | ScheduleEveryNSeconds.

#[export] Instance ScheduleKind_eq_dec : EqDecision ScheduleKind.
Proof. solve_decision. Defined.

Definition ScheduleKind_as_u32 (x : ScheduleKind) : Z :=
  match x with
  | ScheduleEveryNLedgers => 0
  | ScheduleEveryNSeconds => 1
  end.

Inductive DisqualificationStatus :=
  | StatusActive
  | StatusWarning
  | StatusProbation
  | StatusDisqualified.

#[export] Instance DisqualificationStatus_eq_dec : EqDecision DisqualificationStatus.
Proof. solve_decision. Defined.

Definition DisqualificationStatus_as_u32 (x : DisqualificationStatus) : Z :=
  match x with
  | StatusActive => 0
  | StatusWarning => 1
  | StatusProbation => 2
  | StatusDisqualified => 3
  end.

Inductive SourceHealthStatus :=
  | HealthHealthy
  | HealthDegraded
  | HealthInactive
  | HealthAutoRemoved.

#[export] Instance SourceHealthStatus_eq_dec : EqDecision SourceHealthStatus.
Proof. solve_decision. Defined.

Definition SourceHealthStatus_as_u32 (x : SourceHealthStatus) : Z :=
  match x with
  | HealthHealthy => 0
  | HealthDegraded => 1
  | HealthInactive => 2
  | HealthAutoRemoved => 3
  end.

Inductive TwapMethod :=
  | TwapArithmetic
  | TwapGeometric.

#[export] Instance TwapMethod_eq_dec : EqDecision TwapMethod.
Proof. solve_decision. Defined.

Definition TwapMethod_as_u32 (x : TwapMethod) : Z :=
  match x with
  | TwapArithmetic => 0
  | TwapGeometric => 1
  end.

Inductive BftAggregationMethod :=
  | BftMedian
  | BftMean
  | BftTrimmedMean.

#[export] Instance BftAggregationMethod_eq_dec : EqDecision BftAggregationMethod.
Proof. solve_decision. Defined.

Definition BftAggregationMethod_as_u32 (x : BftAggregationMethod) : Z :=
  match x with
  | BftMedian => 0
  | BftMean => 1
  | BftTrimmedMean => 2
  end.

Inductive Role :=
  | RoleSourceManager
  | RoleAssetManager
  | RolePriceUpdater
  | RoleConfigManager
  | RoleUpgradeManager.

#[export] Instance Role_eq_dec : EqDecision Role.
Proof. solve_decision. Defined.

Definition Role_as_u32 (x : Role) : Z :=
  match x with
  | RoleSourceManager => 0
  | RoleAssetManager => 1
  | RolePriceUpdater => 2
  | RoleConfigManager => 3
  | RoleUpgradeManager => 4
  end.

Inductive DeadManState :=
  | DeadManOperational
  | DeadManDegraded.

#[export] Instance DeadManState_eq_dec : EqDecision DeadManState.
Proof. solve_decision. Defined.

Definition DeadManState_as_u32 (x : DeadManState) : Z :=
  match x with
  | DeadManOperational => 0
  | DeadManDegraded => 1
  end.

Inductive OptimisticProposalStatus :=
  | ProposalPending
  | ProposalFinalized
  | ProposalDisputed
  | ProposalResolved.

#[export] Instance OptimisticProposalStatus_eq_dec : EqDecision OptimisticProposalStatus.
Proof. solve_decision. Defined.

Definition OptimisticProposalStatus_as_u32 (x : OptimisticProposalStatus) : Z :=
  match x with
  | ProposalPending => 0
  | ProposalFinalized => 1
  | ProposalDisputed => 2
  | ProposalResolved => 3
  end.

Inductive RelayerFailureReason :=
  | FailureUnauthorizedPrice
  | FailureInvalidSubmission
  | FailureOther.

#[export] Instance RelayerFailureReason_eq_dec : EqDecision RelayerFailureReason.
Proof. solve_decision. Defined.

Definition RelayerFailureReason_as_u32 (x : RelayerFailureReason) : Z :=
  match x with
  | FailureUnauthorizedPrice => 0
  | FailureInvalidSubmission => 1
  | FailureOther => 2
  end.

Record PriceEntry := MkPriceEntry {
  pe_price : Z;
  pe_timestamp : Z;
  pe_source : Address;
  pe_decimals : Z;
  pe_last_updated : Z;
  pe_ledger_timestamp : Z;
  pe_volume : option Z
}.

Record PriceBounds := MkPriceBounds {
  pb_min_price : Z;
  pb_max_price : Z;
  pb_max_change_bps_per_ledger : Z
}.

Record AggregatePrice := MkAggregatePrice {
  ap_price : Z;
  ap_timestamp : Z;
  ap_num_sources : Z;
  ap_decimals : Z;
  ap_is_override : bool;
  ap_version : Z
}.

Record PriceHistoryEntry := MkPriceHistoryEntry {
  he_price : Z;
  he_timestamp : Z;
  he_ledger : Z;
  he_num_sources : Z;
  he_is_interpolated : bool
}.

Record FrozenPrice := MkFrozenPrice {
  fz_price : Z;
  fz_timestamp : Z;
  fz_decimals : Z;
  fz_reason : string;
  fz_frozen_at_ledger : Z
}.

Record AssetMetadata := MkAssetMetadata {
  am_name : string;
  am_symbol : string;
  am_decimals : option Z;
  am_logo_uri : string
}.

Record AssetMetadataUpdate := MkAssetMetadataUpdate {
  amu_asset : Address;
  amu_name : string;
  amu_symbol : string;
  amu_decimals : option Z;
  amu_logo_uri : string
}.

Record ConfigSnapshot := MkConfigSnapshot {
  cs_version : Z;
  cs_ledger : Z;
  cs_timestamp : Z;
  cs_min_sources_required : Z;
  cs_max_history_length : Z;
  cs_resolution : Z;
  cs_decimals : Z;
  cs_description : string;
  cs_aggregation_method : Z;
  cs_timestamp_threshold : Z;
  cs_max_price_deviation : Z;
  cs_circuit_breaker_threshold : Z;
  cs_heartbeat_interval : Z;
  cs_max_history_per_asset : Z;
  cs_max_events_per_call : Z;
  cs_max_aggregation_sources : Z;
  cs_aggregation_cooldown : Z;
  cs_min_submission_interval : Z;
  cs_interpolation_enabled : bool;
  cs_max_sources : Z;
  cs_query_rate_limit : Z;
  cs_max_assets : Z;
  cs_paused : bool;
  cs_timelock_duration : Z
}.

Record AuditEntry := MkAuditEntry {
  ae_id : Z;
  ae_action : string;
  ae_admin : Address;
  ae_data : Bytes;
  ae_ledger : Z;
  ae_timestamp : Z;
  ae_previous_hash : Bytes;
  ae_current_hash : Bytes
}.

Record GovernanceAuditReport := MkGovernanceAuditReport {
  gar_complete : bool;
  gar_total_events : Z;
  gar_missing_events : Z;
  gar_malformed_events : Z;
  gar_unlinked_events : Z
}.

Record BatchOperation := MkBatchOperation {
  bo_op_type : Z;
  bo_data : Bytes
}.

Record PendingBatch := MkPendingBatch {
  pbt_id : Z;
  pbt_proposed_by : Address;
  pbt_proposed_ledger : Z;
  pbt_operations : list BatchOperation
}.

Record PendingRatification := MkPendingRatification {
  pr_action : Z;
  pr_actor : Address;
  pr_issued_at : Z;
  pr_deadline : Z
}.

Record SourceVerification := MkSourceVerification {
  sv_verified : bool;
  sv_verification_method : string;
  sv_verifier : Address
}.

Record OracleSources := MkOracleSources {
  os_sources : list Address;
  os_metadata : gmap Address string;
  os_verification : gmap Address SourceVerification
}.

Record CircuitBreakerEventEntry := MkCircuitBreakerEventEntry {
  cbe_asset : Address;
  cbe_previous_price : Z;
  cbe_candidate_price : Z;
  cbe_change_bps : Z;
  cbe_max_change_bps : Z;
  cbe_ledger : Z;
  cbe_timestamp : Z
}.

Record CompactionMetadata := MkCompactionMetadata {
  cm_original_count : Z;
  cm_compacted_count : Z;
  cm_last_compaction_ledger : Z;
  cm_threshold_bps : Z
}.

Record StorageBudget := MkStorageBudget {
  sb_asset : Address;
  sb_entry_count : Z;
  sb_estimated_ttl_costs : Z;
  sb_projected_monthly_cost : Z;
  sb_estimated_bytes : Z
}.

Record TotalStorageBudget := MkTotalStorageBudget {
  tsb_asset_count : Z;
  tsb_total_entry_count : Z;
  tsb_total_estimated_ttl_costs : Z;
  tsb_total_projected_monthly_cost : Z;
  tsb_total_estimated_bytes : Z
}.

Record PendingOperation := MkPendingOperation {
  po_id : Z;
  po_op_type : OperationType;
  po_proposed_by : Address;
  po_proposed_ledger : Z;
  po_data : Bytes;
  po_priority : OperationPriority
}.

Record MultiSigOperation := MkMultiSigOperation {
  mo_id : Z;
  mo_op_type : OperationType;
  mo_data : Bytes;
  mo_approvals : list Address;
  mo_required_approvals : Z;
  mo_proposed_ledger : Z;
  mo_proposed_by : Address;
  mo_timelock_start_ledger : Z;
  mo_next_op_id : Z
}.

Record TreasurySpendRequest := MkTreasurySpendRequest {
  tsq_proposal_id : string;
  tsq_category : BudgetCategory;
  tsq_amount : Z;
  tsq_approver : Address;
  tsq_approved : bool;
  tsq_payment_evidence : string
}.

Record TreasurySpendRecord := MkTreasurySpendRecord {
  tsr_proposal_id : string;
  tsr_category : BudgetCategory;
  tsr_amount : Z;
  tsr_approver : Address;
  tsr_payment_evidence : string;
  tsr_outcome : SpendOutcome;
  tsr_timestamp : Z
}.

Record PolicyOverride := MkPolicyOverride {
  plo_method : option Z;
  plo_min_sources : option Z;
  plo_freshness_secs : option Z;
  plo_max_deviation_bps : option Z
}.

Record EffectivePolicy := MkEffectivePolicy {
  ep_method : Z;
  ep_min_sources : Z;
  ep_freshness_secs : Z;
  ep_max_deviation_bps : Z;
  ep_method_layer : Z;
  ep_min_sources_layer : Z;
  ep_freshness_layer : Z;
  ep_max_deviation_layer : Z
}.

Record TierParams := MkTierParams {
  tp_method : Z;
  tp_min_sources : Z;
  tp_freshness_secs : Z;
  tp_max_deviation_bps : Z
}.

Record ResolvedTier := MkResolvedTier {
  rt_tier : RiskTier;
  rt_base : TierParams;
  rt_effective : TierParams;
  rt_overridden : bool
}.

Record FreshnessCurve := MkFreshnessCurve {
  fc_window_secs : Z;
  fc_min_weight : Z
}.

Record WeightedAggregate := MkWeightedAggregate {
  wa_raw_median : Z;
  wa_weighted_median : Z;
  wa_sources : list Address;
  wa_weights : list Z
}.

Record FreshnessStatus := MkFreshnessStatus {
  fst_asset : Address;
  fst_fresh : Z;
  fst_stale : Z;
  fst_quorum : Z;
  fst_window_secs : Z;
  fst_overridden : bool;
  fst_state : FreshnessState;
  fst_measured_at : Z;
  fst_ledger : Z
}.

Record BoundsTier := MkBoundsTier {
  bt_soft_min : Z;
  bt_soft_max : Z;
  bt_hard_min : Z;
  bt_hard_max : Z
}.

Record BoundStatus := MkBoundStatus {
  bs_raw_price : Z;
  bs_price : Z;
  bs_clamped : bool;
  bs_rejected : bool;
  bs_reason_code : Z;
  bs_ledger : Z
}.

Record PublicationGuards := MkPublicationGuards {
  pg_any_source_excluded : bool;
  pg_any_bounds_configured : bool;
  pg_any_deferral_configured : bool;
  pg_any_corrections_enabled : bool;
  pg_any_tier_assigned : bool;
  pg_any_sanity_relations : bool;
  pg_any_freshness_window : bool;
  pg_scorecards_enabled : bool
}.

Record OutlierConfig := MkOutlierConfig {
  oc_detector : Z;
  oc_sensitivity_bps : Z;
  oc_min_sources : Z
}.

Record OutlierExclusion := MkOutlierExclusion {
  ox_source : Address;
  ox_price : Z;
  ox_score_bps : Z;
  ox_center : Z;
  ox_scale : Z
}.

Record DeferralPolicy := MkDeferralPolicy {
  dp_quorum : Z;
  dp_window_secs : Z;
  dp_max_defer_secs : Z
}.

Record PublicationStatus := MkPublicationStatus {
  ps_state : PublicationState;
  ps_received : Z;
  ps_missing : Z;
  ps_quorum : Z;
  ps_window_secs : Z;
  ps_deferred_since : Z;
  ps_max_defer_secs : Z;
  ps_ledger : Z
}.

Record CorrelationBand := MkCorrelationBand {
  cbd_min_ratio : Z;
  cbd_max_ratio : Z;
  cbd_enabled : bool
}.

Record CorrelationPair := MkCorrelationPair {
  cp_base_asset : Address;
  cp_quote_asset : Address
}.

Record AnomalyExplanation := MkAnomalyExplanation {
  ax_rule_id : Z;
  ax_rule : string;
  ax_subject : Address;
  ax_asset : Address;
  ax_ledger : Z;
  ax_observed : Z;
  ax_reference : Z;
  ax_threshold : Z;
  ax_rejected : bool
}.

Record SanityRelation := MkSanityRelation {
  sr_asset : Address;
  sr_peer : Address;
  sr_peer2 : option Address;
  sr_kind : SanityRelationKind;
  sr_tolerance_bps : Z;
  sr_ratio_num : Z;
  sr_ratio_den : Z;
  sr_action : SanityAction
}.

Record SanityStatus := MkSanityStatus {
  ss_asset : Address;
  ss_violated : bool;
  ss_suspended : bool;
  ss_checked : Z;
  ss_conflicting_asset : option Address;
  ss_magnitude_bps : Z;
  ss_tolerance_bps : Z;
  ss_action : SanityAction;
  ss_quarantined : bool;
  ss_ledger : Z
}.

Record ScorecardConfig := MkScorecardConfig {
  scc_short_window : Z;
  scc_long_window : Z;
  scc_cold_start_samples : Z;
  scc_hit_tolerance_bps : Z;
  scc_outlier_cap_bps : Z
}.

Record ScorecardWindow := MkScorecardWindow {
  scw_samples : Z;
  scw_mean_abs_error_bps : Z;
  scw_bias_bps : Z;
  scw_hit_rate_bps : Z
}.

Record SourceScorecard := MkSourceScorecard {
  sc_source : Address;
  sc_short : ScorecardWindow;
  sc_long : ScorecardWindow;
  sc_cold_start : bool;
  sc_short_samples : Z;
  sc_long_max_error_bps : Z
}.

Record ConfidenceBand := MkConfidenceBand {
  cb_lower : Z;
  cb_upper : Z;
  cb_median : Z;
  cb_num_sources : Z;
  cb_decimals : Z;
  cb_low_confidence : bool
}.

Record GasRecord := MkGasRecord {
  gr_method : string;
  gr_cpu_instructions : Z;
  gr_memory_bytes : Z;
  gr_ledger : Z;
  gr_timestamp : Z
}.

Record LatencySample := MkLatencySample {
  ls_submission_ledger : Z;
  ls_inclusion_ledger : Z;
  ls_latency_ledgers : Z;
  ls_deferral_ledgers : Z;
  ls_counted : bool
}.

#[export] Instance LatencySample_eq_dec : EqDecision LatencySample.
Proof. solve_decision. Defined.

Record LatencyReport := MkLatencyReport {
  lr_asset : Address;
  lr_source : Address;
  lr_samples : Z;
  lr_never_counted : Z;
  lr_max_samples : Z;
  lr_p50_ledgers : Z;
  lr_p90_ledgers : Z;
  lr_max_ledgers : Z;
  lr_avg_deferral_ledgers : Z;
  lr_seconds_per_ledger : Z;
  lr_window : list LatencySample
}.

Record ProvenanceEntry := MkProvenanceEntry {
  pve_source : Address;
  pve_price : Z;
  pve_weight_bps : Z;
  pve_submission_ledger : Z
}.

Record ProvenanceHead := MkProvenanceHead {
  pvh_hash : Bytes;
  pvh_ledger : Z
}.

Record ProvenanceRecord := MkProvenanceRecord {
  pv_id : Bytes;
  pv_asset : Address;
  pv_ledger : Z;
  pv_price : Z;
  pv_timestamp : Z;
  pv_reference : Z;
  pv_num_sources : Z;
  pv_method : Z;
  pv_contributors : list ProvenanceEntry;
  pv_deferral_ledgers : list Z;
  pv_previous_hash : Bytes;
  pv_hash : Bytes
}.

Record DisagreementIndex := MkDisagreementIndex {
  di_asset : Address;
  di_ledger : Z;
  di_index_bps : Z;
  di_max_bps : Z;
  di_baseline_bps : Z;
  di_above_baseline : bool;
  di_num_sources : Z;
  di_low_sample : bool
}.

Record DisagreementRecord := MkDisagreementRecord {
  dr_index : DisagreementIndex;
  dr_history : list Z;
  dr_last_aggregate_ledger : Z
}.

Record StorageTierDowngradeRequest := MkStorageTierDowngradeRequest {
  stq_proposed_by : Address;
  stq_approvals : list Address;
  stq_ready_at_ledger : Z;
  stq_from_tier : HistoryStorageTier
}.

Record StorageTierInfo := MkStorageTierInfo {
  sti_tier : HistoryStorageTier;
  sti_retention_ledgers : Z;
  sti_durable : bool;
  sti_entry_count : Z;
  sti_changed_at_ledger : Z
}.

Record ContribQualityRecord := MkContribQualityRecord {
  cq_source : Address;
  cq_asset : Address;
  cq_composite_score_avg : Z;
  cq_last_round_score : Z;
  cq_avg_accuracy_score : Z;
  cq_avg_timeliness_score : Z;
  cq_avg_consistency_score : Z;
  cq_rounds_counted : Z;
  cq_last_updated_ledger : Z
}.

Record CallbackRegistration := MkCallbackRegistration {
  cr_consumer : Address;
  cr_callback_contract : Address;
  cr_method : string;
  cr_active : bool
}.

Record PriceRevision := MkPriceRevision {
  prv_index : Z;
  prv_price : Z;
  prv_timestamp : Z;
  prv_ledger : Z;
  prv_actor : Address;
  prv_reason : string;
  prv_corrected : bool
}.

Record CorrectionScope := MkCorrectionScope {
  csc_assets : option (list Address);
  csc_window_ledgers : Z;
  csc_max_corrections : Z
}.

Record DqConfig := MkDqConfig {
  dq_max_staleness_secs : Z;
  dq_min_price : Z;
  dq_max_price : Z;
  dq_max_step_bps : Z;
  dq_max_drift_bps : Z;
  dq_drift_window_secs : Z
}.

Record DqAnchor := MkDqAnchor {
  da_price : Z;
  da_set_at : Z
}.

Record LifecycleConfig := MkLifecycleConfig {
  lc_probation_secs : Z;
  lc_slash_deviation_bps : Z
}.

Record SourceLifecycle := MkSourceLifecycle {
  sl_identity : Bytes;
  sl_onboarded_at : Z;
  sl_probation_until : Z;
  sl_graduated : bool
}.

Record OnboardingChecklist := MkOnboardingChecklist {
  ob_identity_verified : bool;
  ob_bond_posted : bool;
  ob_bond_amount : Z;
  ob_probation_complete : bool;
  ob_graduated : bool
}.

Record ComparisonRound := MkComparisonRound {
  cmr_aggregate : Z;
  cmr_sources : list Address;
  cmr_prices : list Z;
  cmr_counted : list bool
}.

Record SourceComparisonStats := MkSourceComparisonStats {
  cms_source : Address;
  cms_rounds_admitted : Z;
  cms_rounds_counted : Z;
  cms_mean_deviation_bps : Z;
  cms_direction_persistence_bps : Z;
  cms_influence_bps : Z;
  cms_excluded : bool
}.

Record CollusionPair := MkCollusionPair {
  cop_a : Address;
  cop_b : Address;
  cop_similarity_bps : Z;
  cop_shared_rounds : Z
}.

Record ComparisonReport := MkComparisonReport {
  cpr_rounds : Z;
  cpr_sources : list SourceComparisonStats;
  cpr_collusion : list CollusionPair
}.

Record BlackoutWindow := MkBlackoutWindow {
  bw_start : Z;
  bw_end : Z;
  bw_origin : Z
}.

Record MaintenanceWindow := MkMaintenanceWindow {
  mw_start : Z;
  mw_end : Z;
  mw_assets : list Address
}.

Record VolatilitySignals := MkVolatilitySignals {
  vs_since : Z;
  vs_sources : list Address
}.

Record DegradationConfig := MkDegradationConfig {
  dc_enabled : bool;
  dc_window_ledgers : Z;
  dc_sample_every : Z;
  dc_count_windows : bool
}.

Record DegradationStats := MkDegradationStats {
  ds_window : Z;
  ds_total_degraded : Z;
  ds_by_state : list Z;
  ds_severe : Z;
  ds_emitted_events : Z
}.

Record SubmissionSchedule := MkSubmissionSchedule {
  sch_source : Address;
  sch_asset : Address;
  sch_kind : ScheduleKind;
  sch_interval : Z;
  sch_deadline_multiplier : Z
}.

Record LastSubmissionRecord := MkLastSubmissionRecord {
  lsr_ledger : Z;
  lsr_timestamp : Z
}.

Record DemeritConfig := MkDemeritConfig {
  dmc_warning_threshold : Z;
  dmc_probation_threshold : Z;
  dmc_disqualified_threshold : Z;
  dmc_cooldown_ledgers : Z
}.

Record SourceDemeritState := MkSourceDemeritState {
  sd_demerits : Z;
  sd_status : DisqualificationStatus;
  sd_status_updated_ledger : Z
}.

Record SourceEnrollment := MkSourceEnrollment {
  se_name : string;
  se_identity_evidence : string;
  se_endpoint_ownership_evidence : string;
  se_operational_contact : string;
  se_reliability_evidence : string
}.

Record SourceGovernance := MkSourceGovernance {
  sg_approvers : list Address;
  sg_threshold : Z
}.

Record SourceProposal := MkSourceProposal {
  sp_id : Z;
  sp_source : Address;
  sp_name : string;
  sp_approvals : list Address;
  sp_executed : bool
}.

Record SourceGeoMetadata := MkSourceGeoMetadata {
  sgm_region : string;
  sgm_provider : string;
  sgm_jurisdiction : string;
  sgm_infra : string;
  sgm_upstream : string;
  sgm_owner : string
}.

Record DecentralizationReport := MkDecentralizationReport {
  drp_region_hhi : Z;
  drp_provider_hhi : Z;
  drp_jurisdiction_hhi : Z;
  drp_overall_score : Z
}.

Record PriceData := MkPriceData {
  pd_price : Z;
  pd_timestamp : Z;
  pd_last_updated : Z
}.

Record PriceOverrideEntry := MkPriceOverrideEntry {
  poe_price : Z;
  poe_reason : string;
  poe_expiry_ledger : Z;
  poe_set_ledger : Z
}.

Record TwapResult := MkTwapResult {
  tw_price : Z;
  tw_timestamp : Z;
  tw_last_updated : Z;
  tw_cardinality : Z;
  tw_max_weight_bps : Z;
  tw_concentrated : bool
}.

Record PriceCommit := MkPriceCommit {
  pc_hash : Bytes;
  pc_committed_ledger : Z;
  pc_source : Address;
  pc_asset : Address;
  pc_revealed : bool
}.

Record VersionedAggregatePrice := MkVersionedAggregatePrice {
  va_aggregate : AggregatePrice;
  va_version : Z
}.

Record MerkleLeaf := MkMerkleLeaf {
  ml_source : Address;
  ml_asset : Address;
  ml_price : Z;
  ml_timestamp : Z
}.

Record MerkleProof := MkMerkleProof {
  mp_leaf : MerkleLeaf;
  mp_siblings : list Bytes;
  mp_left_bitmap : Z
}.

Record RoundConfig := MkRoundConfig {
  rcf_required_rounds : Z;
  rcf_quorum : Z;
  rcf_round_ledgers : Z;
  rcf_agreement_bps : Z
}.

Record RoundVote := MkRoundVote {
  rv_source : Address;
  rv_price : Z;
  rv_timestamp : Z;
  rv_ledger : Z;
  rv_observation_id : Bytes
}.

Record RoundTally := MkRoundTally {
  rtl_median : Z;
  rtl_votes : Z;
  rtl_finalized_ledger : Z;
  rtl_timestamp : Z;
  rtl_sources : list RoundVote
}.

Record ConfirmedPrice := MkConfirmedPrice {
  cfp_price : Z;
  cfp_decimals : Z;
  cfp_rounds : list Z;
  cfp_spread_bps : Z;
  cfp_finalized_ledger : Z;
  cfp_timestamp : Z
}.

Record RoundStatus := MkRoundStatus {
  rst_round : Z;
  rst_started_ledger : Z;
  rst_deadline_ledger : Z;
  rst_votes : Z;
  rst_quorum : Z;
  rst_stalled : bool
}.

Record BreakerPolicy := MkBreakerPolicy {
  bp_trip_bps : Z;
  bp_clear_bps : Z;
  bp_settle_ledgers : Z;
  bp_max_open_ledgers : Z;
  bp_auto_rearm : bool
}.

Record BreakerStatus := MkBreakerStatus {
  bst_is_open : bool;
  bst_policy : BreakerPolicy;
  bst_last_deviation_bps : Z;
  bst_settle_ledgers : Z;
  bst_open_ledgers : Z;
  bst_escalated : bool
}.

Record DeadManConfig := MkDeadManConfig {
  dm_trigger_after : Z;
  dm_warn_after : Z;
  dm_operators : list Address
}.

Record GuardianRecovery := MkGuardianRecovery {
  grc_new_admin : Address;
  grc_approvals : list Address;
  grc_initiated_ledger : Z;
  grc_ready_ledger : Z
}.

Record EmergencyPause := MkEmergencyPause {
  epa_initiated_by : Address;
  epa_reason : string;
  epa_initiated_ledger : Z;
  epa_auto_unpause_ledger : Z
}.

Record OptimisticProposal := MkOptimisticProposal {
  op_id : Z;
  op_asset : Address;
  op_proposer : Address;
  op_price : Z;
  op_timestamp : Z;
  op_bond_amount : Z;
  op_dispute_window : Z;
  op_expires_at_ledger : Z;
  op_status : Z;
  op_disputed : bool;
  op_resolved : bool;
  op_resolution : Z;
  op_disputer : option Address
}.

Record ExternalDataProof := MkExternalDataProof {
  edp_source : Address;
  edp_data_hash : Bytes;
  edp_timestamp : Z;
  edp_signature : Bytes
}.

Record Challenge := MkChallenge {
  ch_id : Z;
  ch_asset : Address;
  ch_challenger : Address;
  ch_expected_price : Z;
  ch_proof_data : Bytes;
  ch_challenged_ledger : Z;
  ch_is_resolved : bool;
  ch_is_valid : bool;
  ch_reward_amount : Z
}.

Record RelayerInfo := MkRelayerInfo {
  ri_name : string;
  ri_approved_at_ledger : Z
}.

Record SourceRelayerDelegation := MkSourceRelayerDelegation {
  rd_source : Address;
  rd_relayer : Address;
  rd_nonce : Z;
  rd_expiration_ledger : Z
}.

Record RelayedSubmission := MkRelayedSubmission {
  rs_source : Address;
  rs_asset : Address;
  rs_price : Z;
  rs_timestamp : Z;
  rs_priority_fee : Z
}.

Record RelayerAssetStat := MkRelayerAssetStat {
  ras_asset : Address;
  ras_submissions : Z;
  ras_successful_submissions : Z;
  ras_failed_submissions : Z;
  ras_success_rate_bps : Z;
  ras_avg_latency_seconds : Z
}.

Record RelayerDashboard := MkRelayerDashboard {
  rdb_relayer : Address;
  rdb_total_submissions : Z;
  rdb_failed_submissions : Z;
  rdb_success_rate_bps : Z;
  rdb_submissions_per_day : Z;
  rdb_avg_latency_seconds : Z;
  rdb_submission_history : list Z;
  rdb_latency_percentiles : gmap Z Z;
  rdb_fee_earnings : Z;
  rdb_reward_earnings : Z;
  rdb_bond_deposited : Z;
  rdb_percentile_rank : Z;
  rdb_per_asset : list RelayerAssetStat
}.

Record StateChannel := MkStateChannel {
  scn_source : Address;
  scn_deposit : Z;
  scn_nonce : Z;
  scn_last_price : Z;
  scn_last_timestamp : Z;
  scn_dispute_timeout : Z;
  scn_is_closed : bool;
  scn_token_contract : Address
}.

Record BatchItem := MkBatchItem {
  bi_nonce : Z;
  bi_price : Z;
  bi_timestamp : Z
}.

Record SourceStakeRecord := MkSourceStakeRecord {
  ssr_amount : Z;
  ssr_last_updated_ledger : Z
}.

(** ** Error codes *)

Inductive ErrorCode :=
  | NotAuthorized | AlreadyInitialized | AssetNotRegistered | AssetAlreadyRegistered
  | SourceAlreadyExists | SourceNotFound | InsufficientSources | InvalidPrice | NoData
  | InvalidTimestamp | InvalidConfiguration | DescriptionTooLong | ContractPaused
  | TimelockNotReady | OperationNotFound | PriceBelowMinimum | RateLimitExceeded
  | InvalidDuration | SubscriptionExpired | MigrationInProgress | NoMigrationInProgress
  | SourceNameEmpty | SourceNameTooLong | MaxSourcesReached | InvalidOperationType
  | Reentrant | SourceNotPendingRemoval | CooldownNotElapsed | MaxAssetsReached
  | ReasonTooLong | RecordsLimitExceeded | CommitHashMismatch | CommitExpired
  | CommitNotFound | RevealWindowClosed | AlreadyCommitted | InvalidCommitRound
  | CommitRevealRequired | AlreadyFinalized | PriceRetracted | FinalityPending
  | InsufficientFinality | ReorgDetected | RelayerNotAuthorized | RelayerAlreadyExists
  | ReputationTooHighToSlash | MaxSubscriptionsReached | SourceSuspended
  | InvalidDemeritThreshold | InvalidGovernanceConfig | ProposalNotFound
  | AlreadyApproved | ProposalAlreadyExecuted | InsufficientBond
  | StakeTokenNotConfigured | PriceOutOfBounds | AssetPaused | CircuitBreakerTripped
  | OperationLimitExceeded | ArithmeticOverflow | PoolAlreadyExists | PoolNotFound
  | SlippageExceeded | AmmPriceManipulation | OutOfSubmissionWindow | ChannelNotFound
  | ChannelAlreadyOpen | ExoticCycleLimitExceeded | ExoticCycleDetected
  | ExoticAssetNotConfigured | FeeMarketBelowMinimum | ApprovalNotFound | MsNotQueueHead
  | MsQuorumNotReached | BondTooSmall | ProposalAlreadyDisputed | ProposalAlreadyResolved
  | ProposalExpired | ProposalNotDisputed | ZkProofInvalid | ZkVkNotSet
  | ZkInvalidPublicSignals | SignatureExpired | InvalidNonce | SigningKeyNotRegistered
  | PriceFrozen | PriceNotFrozen | InvalidPageSize | NotificationConfigInvalid
  | ExportLimitExceeded | ExportNotFound | InvalidPriority | PriorityTimelockNotReady
  | InvalidProof | ProofTypeMismatch | TooManyCallbacks | CallbackNotFound
  | ForeignAssetAlreadyMapped | ForeignAssetNotMapped | ForeignAssetMappingDisabled
  | AxelarGatewayNotConfigured | AxelarCommandAlreadyExecuted | AxelarSourceNotTrusted
  | LzEndpointNotConfigured | LzNonceOutOfOrder | LzRemoteNotTrusted
  | LzChainNameNotConfigured | OperationAlreadyExists | InvalidOperationState
  | DependencyNotMet | ConfigVersionNotFound | NotGuardian | RecoveryAlreadyPending
  | RecoveryAlreadyApproved | RecoveryNotPending | RecoveryDelayNotElapsed
  | NoActiveSubscription | InvalidGuardianConfig | InvalidSeverityThresholds | BatchEmpty
  | BatchTooLarge | BatchNotFeePrioritized | GuardianSetNotConfigured
  | GuardianQuorumNotMet | InvalidGuardianSignatureSet | InvalidVaaPayload
  | VaaAlreadyProcessed | UnmappedWormholeChain | RelayerBondInsufficient
  | RelayerFailureThresholdMiss | InvalidExternalProof | SlashFailed | LowSourceDiversity
  | InvalidDiversityThresholds | InvalidBoundOrdering | InvalidDeferralPolicy
  | InvalidCorrectionReason | CorrectionLimitReached | AggregateRejectedByBounds
  | CorrectionWindowExpired | RevisionNotFound | RenewalAuthorizationReplay
  | RenewalAuthorizationMissing | AutoRenewalNotEnabled | AutoRenewalCancelled
  | ConfigMissing | RelayerBondLocked | InvalidPageCursor | TwapInsufficientObservations
  | StorageTierDowngradeNotReady | UnknownStorageTier | StorageTierMigrationFailed
  | AutoRenewalAllowanceExceeded | RoundNotFound | RoundExpired | RoundEvidenceReplay
  | RoundEquivocation | DerivedFeedZeroDenominator | UnknownDerivedPair
  | DerivedFeedCycle | DerivedFeedDepthExceeded | AssetDisabled | SourceEvidenceMissing
  | InvalidRiskTier | InvalidSanityRelation | InvalidSanityTolerance
  | InvalidFreshnessWindow | InvalidScorecardConfig | InvalidSanityRatio
  | DeadManDisabled | NotDegraded | OracleDegraded | ParamOutOfBounds | IdentityRevoked
  | ParamNotRegistered | SimulationRequired | ProposalHarmful | TextTooLong
  | InvalidTextContent | PayloadTooLarge | InvalidBasketWeights
  | InvalidBasketComposition | RecursiveBasket | BasketConstituentStale | BasketNotFound
  | InvalidBreakerDeadband | InvalidBreakerPolicy | InvalidAdaptiveQuorum
  | InsufficientVolatilitySamples | EmergencyExpired | EmergencyActionForbidden
  | NoPendingEmergency | EmergencyRatificationExpired | InvalidInput.

(** The storage keys of the modelled components.  The first block is
    [types::DataKey]; the last ones are the tuple keys some modules use. *)
Inductive DataKey :=
  | KeyAdmin
  | KeyEmergencyCouncil
  | KeyCfgMinSources
  | KeyCfgMaxHistory
  | KeyCfgResolution
  | KeyCfgDecimals
  | KeyCfgTimestampThreshold
  | KeyCfgMaxDeviation
  | KeyCfgHeartbeatInterval
  | KeyCfgMaxInvalidSubs
  | KeyCfgAggregationMethod
  | KeyCfgTimelockDuration
  | KeyCfgOptimisticDisputeWindow
  | KeyCfgOptimisticMinBond
  | KeyMaxAssets
  | KeyQueryRateLimit
  | KeyMaxSources
  | KeyMaxHistoryPerAsset
  | KeyMaxEventsPerCall
  | KeyMaxAggregationSources
  | KeyAggregationCooldown
  | KeyMinSubmissionInterval
  | KeyCircuitBreakerThreshold
  | KeyAssetResolution (a : Address)
  | KeyAssetDisabledAt (a : Address)
  | KeyEmergencyExpiry
  | KeySubscriptionExpiry (a : Address)
  | KeyQueryCount (a : Address) (b : Z)
  | KeyConfigVersionCount
  | KeyAuditEntryCount
  | KeyAssetMinPrice (a : Address)
  | KeyAssetCircuitBreakerLogCount (a : Address)
  | KeyMsRequiredApprovals
  | KeyMsPreviousRequiredApprovals
  | KeyMsQueueHead
  | KeyMsQueueTail
  | KeyMsOpCount
  | KeyTlPendingOpCount
  | KeyTlOpRequiredDelay (a : Z)
  | KeyTimelockDuration
  | KeyPendingBatchCount
  | KeyPendingBatchRequiredDelay (a : Z)
  | KeyTlUrgentDelay
  | KeyTlNormalDelay
  | KeyTlLongTermDelay
  | KeySourceBondAmount
  | KeySourceBond (a : Address)
  | KeyCfgCompactionThresholdBps
  | KeyCfgPauseFlag
  | KeyInterpolationEnabled
  | KeyAssetRegistered (a : Address)
  | KeyAssetRegistryIndex (a : Address)
  | KeyAssetDisabled (a : Address)
  | KeyAssetPauseFlag (a : Address)
  | KeyAssetCircuitBreakerTripped (a : Address)
  | KeySrcActive (a : Address)
  | KeySrcInactive (a : Address)
  | KeyCfgDescription
  | KeyAuditLogHead
  | KeyAssetRegistry
  | KeyMsGovernors
  | KeySourceAssets (a : Address)
  | KeyConfigVersionIndex
  | KeyPriceHistoryLedgers (a : Address)
  | KeyHistoryBucketIndex (a : Address)
  | KeySrcRegistry
  | KeyEmergencyPending
  | KeySubscriptionPlans
  | KeyConfigSnapshot (a : Z)
  | KeyAuditEntry (a : Z)
  | KeyAssetMetadata (a : Address)
  | KeyAssetPriceBounds (a : Address)
  | KeyAssetCircuitBreakerLog (a : Address) (b : Z)
  | KeyAggregate (a : Address)
  | KeyFrozenPrice (a : Address)
  | KeyMsOp (a : Z)
  | KeyTlPendingOp (a : Z)
  | KeyPendingBatch (a : Z)
  | KeyPriceHistory (a : Address) (b : Z)
  | KeyHistoryBucket (a : Address) (b : Z)
  | KeyCompactionMeta (a : Address)
  | KeySubmission (a : Address) (b : Address)
  | KeyBRK_PAUS (a : Address)
  | KeyTREASREC
  | KeyTREASBUD (a : Z)
  | KeyAssetPolicy (a : Address)
  | KeyClassPolicy (a : Z)
  | KeyAssetClassId (a : Address)
  | KeyAssetRiskTier (a : Address)
  | KeyRiskTierEnforcement
  | KeyFreshnessCurve (a : Address)
  | KeyAssetFreshnessWindow (a : Address)
  | KeyDefaultFreshnessWindow
  | KeyAssetFreshnessStatus (a : Address)
  | KeyAssetBoundsTier (a : Address)
  | KeyAssetBoundStatus (a : Address)
  | KeyPublicationGuards
  | KeyOutlierConfig (a : Address)
  | KeyOutlierExclusions (a : Address)
  | KeyAssetDeferral (a : Address)
  | KeyAssetPublicationState (a : Address)
  | KeyCorrelationBand (a : Address) (b : Address)
  | KeyCorrelationPairList
  | KeyCorrelationFlagged (a : Address) (b : Address)
  | KeyAnomalyRetention
  | KeyAnomalyLog (a : Address) (b : Address)
  | KeyAggregateAnomalyLog (a : Address)
  | KeyAssetSanityRelations (a : Address)
  | KeyAssetSanitySuspended (a : Address)
  | KeyAssetSanityStatus (a : Address)
  | KeyCfgScorecard
  | KeySourceScorecard (a : Address)
  | KeyLastGasRecord
  | KeyLatencySamples (a : Address) (b : Address)
  | KeyProvenanceHead (a : Address)
  | KeyProvenance (a : Address) (b : Z)
  | KeyDisagreementIndex (a : Address)
  | KeyAssetStorageTier (a : Address)
  | KeyAssetStorageTierMigrated (a : Address)
  | KeyAssetStorageTierDowngrade (a : Address)
  | KeyContribScore (a : Address) (b : Address)
  | KeyContribScoringWindow
  | KeyPriceCallbackList (a : Address)
  | KeyCfgCorrectionScope
  | KeyPriceRevisions (a : Address)
  | KeyPriceOriginal (a : Address)
  | KeyPriceCorrectionCount (a : Address)
  | KeyDelegatedRole (a : Address) (b : Z)
  | KeyLastForcedRecompute
  | KeyCfgBftFaultTolerance
  | KeyCfgBftAggregationMethod
  | KeyLastSubmissionLedger (a : Address) (b : Address)
  | KeyAssetMinSubmissionInterval (a : Address)
  | KeySourceNonCompliant (a : Address) (b : Address)
  | KeyDqConfig (a : Address)
  | KeyDqAnchor (a : Address)
  | KeyLcConfig
  | KeyLcRecord (a : Address)
  | KeyLcIdentityOwner (a : Bytes)
  | KeyLcRevokedIdentity (a : Bytes)
  | KeyLcRevokedAddress (a : Address)
  | KeyLcAnyProbation
  | KeyCmpEnabled (a : Address)
  | KeyCmpRounds (a : Address)
  | KeyBlackoutWindow (a : Address)
  | KeyBlackoutLastEnd (a : Address)
  | KeyBlackoutSignals (a : Address)
  | KeyBlackoutQuorum
  | KeyBlackoutMaintenance
  | KeyINFL_CAP
  | KeyTriggerTimeInterval (a : Address)
  | KeyTriggerSubmissionThreshold (a : Address)
  | KeyTriggerDeviationBps (a : Address)
  | KeyTriggerSubmissionCount (a : Address)
  | KeyTriggerLastAggTime (a : Address)
  | KeyTotalSubmissionCount
  | KeySourceSubmissionCount (a : Address)
  | KeySourceNonce (a : Address)
  | KeyTwapMinCardinality
  | KeyLastAggregationTrigger (a : Address)
  | KeyCfgCommitWindow
  | KeyCfgRevealWindow
  | KeyCommitRevealSlashAmount
  | KeyTreasuryBalance
  | KeySrcHeartbeat (a : Address)
  | KeySrcMissedHeartbeats (a : Address)
  | KeySrcInactiveSinceLedger (a : Address)
  | KeySrcLastPriceLedger (a : Address)
  | KeySourceRotationLedger (a : Address)
  | KeySourcePendingRemoval (a : Address)
  | KeyRemovalCooldown
  | KeySourceReputation (a : Address)
  | KeyReputationDecayFactor
  | KeyCfgMaxInactiveLedgers
  | KeyCfgHeartbeatWindow
  | KeySourceProposalCount
  | KeySubmissionLedger (a : Address) (b : Address)
  | KeyCommitRevealEnabled
  | KeySrcPriceSubmitAfterReactivation (a : Address)
  | KeySource (a : Address)
  | KeyPriceOverride (a : Address)
  | KeyPriceCommit (a : Address) (b : Address) (c : Z)
  | KeyDegradationConfig
  | KeyDegradationCounters (a : Address) (b : Z)
  | KeySubmissionSchedule (a : Address) (b : Address)
  | KeyLastScheduledSubmission (a : Address) (b : Address)
  | KeyDemeritConfig
  | KeySourceDemerits (a : Address)
  | KeySourceEnrollment (a : Address)
  | KeySourceGovConfig
  | KeySourceProposal (a : Z)
  | KeySourceGeo (a : Address)
  | KeySourceVerification (a : Address)
  | KeySignedSubmitPubKey (a : Address)
  | KeyStakeTokenContract
  | KeyRoleHolders (a : Z)
  | KeyConsensusRoundConfig (a : Address)
  | KeyConsensusRoundCounter (a : Address)
  | KeyConsensusRoundStart (a : Address) (b : Z)
  | KeyConsensusRoundEvidenceOwner (a : Address) (b : Bytes)
  | KeyConsensusEquivocationCount (a : Address) (b : Address)
  | KeyConsensusRoundAbandoned (a : Address)
  | KeyConsensusRoundVote (a : Address) (b : Z) (c : Address)
  | KeyConsensusRoundVoteIndex (a : Address) (b : Z)
  | KeyRecoveryGuardians
  | KeyConsensusRoundTally (a : Address) (b : Z)
  | KeyConsensusRoundEquivocation (a : Address) (b : Z) (c : Address)
  | KeyDeadManDegraded
  | KeyDeadManWarned
  | KeyConsensusConfirmedPrice (a : Address)
  | KeyConsensusConfirmedRounds (a : Address)
  | KeyBreakerPolicy (a : Address)
  | KeyBreakerSettleStreak (a : Address)
  | KeyBreakerArmedLedger (a : Address)
  | KeyBreakerEscalations (a : Address)
  | KeyBreakerSourceRecovery (a : Address)
  | KeyDeadManConfig
  | KeyDeadManLastHeartbeat
  | KeyDeadManTriggeredAt
  | KeyPendingRecovery
  | KeyRecoveryDelay
  | KeyRecoveryThreshold
  | KeyRecoveryVeto
  | KeyReentrancyGuard
  | KeyEmergencyPauseActive
  | KeyEmergencyPauseEntry
  | KeyEmergencyPauseReason
  | KeySignedSubmitNonce (a : Address)
  | KeyOptimisticProposalCount
  | KeyChallengeCount
  | KeyChallengerRewards (a : Address)
  | KeyChallengerStrikes (a : Address)
  | KeyChallengerOpenCount (a : Address)
  | KeyAssetOpenChallenges (a : Address)
  | KeySourceRelayerDelegationNonce (a : Address)
  | KeyRelayerSubmissionCount (a : Address)
  | KeyRelayerFeeBalance (a : Address)
  | KeyRelayerFeePerSubmission
  | KeyRelayerBondAmount
  | KeyRelayerBond (a : Address)
  | KeyRelayerFailureCount (a : Address)
  | KeyRelayerSlashPercent
  | KeyRelayerFailureThreshold
  | KeyRelayerRewardRate
  | KeyRelayerRewardBalance (a : Address)
  | KeyRelayerLatencySum (a : Address)
  | KeyRelayerAssetCount (a : Address) (b : Address)
  | KeyRelayerAssetLatencySum (a : Address) (b : Address)
  | KeyRelayerAssetLatencyCount (a : Address) (b : Address)
  | KeySlashPercent
  | KeySlashReputationThreshold
  | KeyOptimisticProposal (a : Z)
  | KeyChallenge (a : Z)
  | KeyApprovedRelayer (a : Address)
  | KeyRelayerRegistry
  | KeyRelayerAssetList (a : Address)
  | KeySourceRelayerDelegation (a : Address) (b : Address)
  | KeyRelayerSubmissionHistory (a : Address)
  | KeyRelayerLatencyHistory (a : Address)
  | KeyStateChannel (a : Address)
  | KeyStateChannelSigner (a : Address)
  | KeySourceStake (a : Address).

(** Codes of the value types, so that equality of types is decided. *)
Inductive Ty :=
  | TAddress_Z
  | TAddress
  | TAggregatePrice
  | TAssetMetadata
  | TAuditEntry
  | TBlackoutWindow
  | TBoundStatus
  | TBoundsTier
  | TBreakerPolicy
  | TBytes
  | TChallenge
  | TCircuitBreakerEventEntry
  | TCompactionMetadata
  | TConfigSnapshot
  | TConfirmedPrice
  | TContribQualityRecord
  | TCorrectionScope
  | TCorrelationBand
  | TDeadManConfig
  | TDeferralPolicy
  | TDegradationConfig
  | TDegradationStats
  | TDemeritConfig
  | TDisagreementRecord
  | TDqAnchor
  | TDqConfig
  | TEmergencyPause
  | TFreshnessCurve
  | TFreshnessStatus
  | TFrozenPrice
  | TGasRecord
  | TGuardianRecovery
  | THistoryStorageTier
  | TLastSubmissionRecord
  | TLifecycleConfig
  | TMultiSigOperation
  | TOptimisticProposal
  | TOracleSources
  | TOutlierConfig
  | TPendingBatch
  | TPendingOperation
  | TPendingRatification
  | TPolicyOverride
  | TPriceBounds
  | TPriceCommit
  | TPriceEntry
  | TPriceHistoryEntry
  | TPriceOverrideEntry
  | TProvenanceHead
  | TProvenanceRecord
  | TPublicationGuards
  | TPublicationStatus
  | TRelayerInfo
  | TRoundConfig
  | TRoundTally
  | TRoundVote
  | TSanityStatus
  | TScorecardConfig
  | TSourceDemeritState
  | TSourceEnrollment
  | TSourceGeoMetadata
  | TSourceGovernance
  | TSourceLifecycle
  | TSourceProposal
  | TSourceRelayerDelegation
  | TSourceStakeRecord
  | TSourceVerification
  | TStateChannel
  | TStorageTierDowngradeRequest
  | TSubmissionSchedule
  | TVolatilitySignals
  | TZ
  | Tbool
  | Tmap_Z_Z
  | Tlist_Address
  | Tlist_AnomalyExplanation
  | Tlist_CallbackRegistration
  | Tlist_ComparisonRound
  | Tlist_CorrelationPair
  | Tlist_LatencySample
  | Tlist_MaintenanceWindow
  | Tlist_OutlierExclusion
  | Tlist_PriceHistoryEntry
  | Tlist_PriceRevision
  | Tlist_SanityRelation
  | Tlist_TreasurySpendRecord
  | Tlist_Z
  | Tstring.

Definition interp (t : Ty) : Type :=
  match t with
  | TAddress_Z => (Address * Z)
  | TAddress => Address
  | TAggregatePrice => AggregatePrice
  | TAssetMetadata => AssetMetadata
  | TAuditEntry => AuditEntry
  | TBlackoutWindow => BlackoutWindow
  | TBoundStatus => BoundStatus
  | TBoundsTier => BoundsTier
  | TBreakerPolicy => BreakerPolicy
  | TBytes => Bytes
  | TChallenge => Challenge
  | TCircuitBreakerEventEntry => CircuitBreakerEventEntry
  | TCompactionMetadata => CompactionMetadata
  | TConfigSnapshot => ConfigSnapshot
  | TConfirmedPrice => ConfirmedPrice
  | TContribQualityRecord => ContribQualityRecord
  | TCorrectionScope => CorrectionScope
  | TCorrelationBand => CorrelationBand
  | TDeadManConfig => DeadManConfig
  | TDeferralPolicy => DeferralPolicy
  | TDegradationConfig => DegradationConfig
  | TDegradationStats => DegradationStats
  | TDemeritConfig => DemeritConfig
  | TDisagreementRecord => DisagreementRecord
  | TDqAnchor => DqAnchor
  | TDqConfig => DqConfig
  | TEmergencyPause => EmergencyPause
  | TFreshnessCurve => FreshnessCurve
  | TFreshnessStatus => FreshnessStatus
  | TFrozenPrice => FrozenPrice
  | TGasRecord => GasRecord
  | TGuardianRecovery => GuardianRecovery
  | THistoryStorageTier => HistoryStorageTier
  | TLastSubmissionRecord => LastSubmissionRecord
  | TLifecycleConfig => LifecycleConfig
  | TMultiSigOperation => MultiSigOperation
  | TOptimisticProposal => OptimisticProposal
  | TOracleSources => OracleSources
  | TOutlierConfig => OutlierConfig
  | TPendingBatch => PendingBatch
  | TPendingOperation => PendingOperation
  | TPendingRatification => PendingRatification
  | TPolicyOverride => PolicyOverride
  | TPriceBounds => PriceBounds
  | TPriceCommit => PriceCommit
  | TPriceEntry => PriceEntry
  | TPriceHistoryEntry => PriceHistoryEntry
  | TPriceOverrideEntry => PriceOverrideEntry
  | TProvenanceHead => ProvenanceHead
  | TProvenanceRecord => ProvenanceRecord
  | TPublicationGuards => PublicationGuards
  | TPublicationStatus => PublicationStatus
  | TRelayerInfo => RelayerInfo
  | TRoundConfig => RoundConfig
  | TRoundTally => RoundTally
  | TRoundVote => RoundVote
  | TSanityStatus => SanityStatus
  | TScorecardConfig => ScorecardConfig
  | TSourceDemeritState => SourceDemeritState
  | TSourceEnrollment => SourceEnrollment
  | TSourceGeoMetadata => SourceGeoMetadata
  | TSourceGovernance => SourceGovernance
  | TSourceLifecycle => SourceLifecycle
  | TSourceProposal => SourceProposal
  | TSourceRelayerDelegation => SourceRelayerDelegation
  | TSourceStakeRecord => SourceStakeRecord
  | TSourceVerification => SourceVerification
  | TStateChannel => StateChannel
  | TStorageTierDowngradeRequest => StorageTierDowngradeRequest
  | TSubmissionSchedule => SubmissionSchedule
  | TVolatilitySignals => VolatilitySignals
  | TZ => Z
  | Tbool => bool
  | Tmap_Z_Z => gmap Z Z
  | Tlist_Address => list Address
  | Tlist_AnomalyExplanation => list AnomalyExplanation
  | Tlist_CallbackRegistration => list CallbackRegistration
  | Tlist_ComparisonRound => list ComparisonRound
  | Tlist_CorrelationPair => list CorrelationPair
  | Tlist_LatencySample => list LatencySample
  | Tlist_MaintenanceWindow => list MaintenanceWindow
  | Tlist_OutlierExclusion => list OutlierExclusion
  | Tlist_PriceHistoryEntry => list PriceHistoryEntry
  | Tlist_PriceRevision => list PriceRevision
  | Tlist_SanityRelation => list SanityRelation
  | Tlist_TreasurySpendRecord => list TreasurySpendRecord
  | Tlist_Z => list Z
  | Tstring => string
  end.

(** The type each key is read and written at. *)
Definition ty_of (k : DataKey) : Ty :=
  match k with
  | KeyAdmin | KeyEmergencyCouncil | KeyLcIdentityOwner _ | KeyStakeTokenContract => TAddress
  | KeyCfgMinSources | KeyCfgMaxHistory | KeyCfgResolution | KeyCfgDecimals
  | KeyCfgTimestampThreshold | KeyCfgMaxDeviation | KeyCfgHeartbeatInterval
  | KeyCfgMaxInvalidSubs | KeyCfgAggregationMethod | KeyCfgTimelockDuration
  | KeyCfgOptimisticDisputeWindow | KeyCfgOptimisticMinBond | KeyMaxAssets
  | KeyQueryRateLimit | KeyMaxSources | KeyMaxHistoryPerAsset | KeyMaxEventsPerCall
  | KeyMaxAggregationSources | KeyAggregationCooldown | KeyMinSubmissionInterval
  | KeyCircuitBreakerThreshold | KeyAssetResolution _ | KeyAssetDisabledAt _
  | KeyEmergencyExpiry | KeySubscriptionExpiry _ | KeyQueryCount _ _
  | KeyConfigVersionCount | KeyAuditEntryCount | KeyAssetMinPrice _
  | KeyAssetCircuitBreakerLogCount _ | KeyMsRequiredApprovals
  | KeyMsPreviousRequiredApprovals | KeyMsQueueHead | KeyMsQueueTail | KeyMsOpCount
  | KeyTlPendingOpCount | KeyTlOpRequiredDelay _ | KeyTimelockDuration
  | KeyPendingBatchCount | KeyPendingBatchRequiredDelay _ | KeyTlUrgentDelay
  | KeyTlNormalDelay | KeyTlLongTermDelay | KeySourceBondAmount | KeySourceBond _
  | KeyCfgCompactionThresholdBps | KeyTREASBUD _ | KeyAssetClassId _ | KeyAssetRiskTier _
  | KeyAssetFreshnessWindow _ | KeyDefaultFreshnessWindow | KeyAnomalyRetention
  | KeyAssetSanitySuspended _ | KeyAssetStorageTierMigrated _ | KeyContribScoringWindow
  | KeyPriceOriginal _ | KeyPriceCorrectionCount _ | KeyDelegatedRole _ _
  | KeyLastForcedRecompute | KeyCfgBftFaultTolerance | KeyCfgBftAggregationMethod
  | KeyLastSubmissionLedger _ _ | KeyAssetMinSubmissionInterval _ | KeyBlackoutLastEnd _
  | KeyBlackoutQuorum | KeyINFL_CAP | KeyTriggerTimeInterval _
  | KeyTriggerSubmissionThreshold _ | KeyTriggerDeviationBps _
  | KeyTriggerSubmissionCount _ | KeyTriggerLastAggTime _ | KeyTotalSubmissionCount
  | KeySourceSubmissionCount _ | KeySourceNonce _ | KeyTwapMinCardinality
  | KeyLastAggregationTrigger _ | KeyCfgCommitWindow | KeyCfgRevealWindow
  | KeyCommitRevealSlashAmount | KeyTreasuryBalance | KeySrcHeartbeat _
  | KeySrcMissedHeartbeats _ | KeySrcInactiveSinceLedger _ | KeySrcLastPriceLedger _
  | KeySourceRotationLedger _ | KeySourcePendingRemoval _ | KeyRemovalCooldown
  | KeySourceReputation _ | KeyReputationDecayFactor | KeyCfgMaxInactiveLedgers
  | KeyCfgHeartbeatWindow | KeySourceProposalCount | KeySubmissionLedger _ _
  | KeyConsensusRoundCounter _ | KeyConsensusRoundStart _ _
  | KeyConsensusRoundEvidenceOwner _ _ | KeyConsensusEquivocationCount _ _
  | KeyConsensusRoundAbandoned _ | KeyBreakerSettleStreak _ | KeyBreakerArmedLedger _
  | KeyBreakerEscalations _ | KeyBreakerSourceRecovery _ | KeyDeadManLastHeartbeat
  | KeyDeadManTriggeredAt | KeyRecoveryDelay | KeyRecoveryThreshold
  | KeySignedSubmitNonce _ | KeyOptimisticProposalCount | KeyChallengeCount
  | KeyChallengerRewards _ | KeyChallengerStrikes _ | KeyChallengerOpenCount _
  | KeyAssetOpenChallenges _ | KeySourceRelayerDelegationNonce _
  | KeyRelayerSubmissionCount _ | KeyRelayerFeeBalance _ | KeyRelayerFeePerSubmission
  | KeyRelayerBondAmount | KeyRelayerBond _ | KeyRelayerFailureCount _
  | KeyRelayerSlashPercent | KeyRelayerFailureThreshold | KeyRelayerRewardRate
  | KeyRelayerRewardBalance _ | KeyRelayerLatencySum _ | KeyRelayerAssetCount _ _
  | KeyRelayerAssetLatencySum _ _ | KeyRelayerAssetLatencyCount _ _ | KeySlashPercent
  | KeySlashReputationThreshold => TZ
  | KeyCfgPauseFlag | KeyInterpolationEnabled | KeyAssetRegistered _
  | KeyAssetRegistryIndex _ | KeyAssetDisabled _ | KeyAssetPauseFlag _
  | KeyAssetCircuitBreakerTripped _ | KeySrcActive _ | KeySrcInactive _ | KeyBRK_PAUS _
  | KeyRiskTierEnforcement | KeyCorrelationFlagged _ _ | KeySourceNonCompliant _ _
  | KeyLcRevokedIdentity _ | KeyLcRevokedAddress _ | KeyLcAnyProbation | KeyCmpEnabled _
  | KeyCommitRevealEnabled | KeySrcPriceSubmitAfterReactivation _ | KeySource _
  | KeyConsensusRoundEquivocation _ _ _ | KeyDeadManDegraded | KeyDeadManWarned
  | KeyReentrancyGuard | KeyEmergencyPauseActive => Tbool
  | KeyCfgDescription | KeyEmergencyPauseReason => Tstring
  | KeyAuditLogHead | KeySignedSubmitPubKey _ | KeyStateChannelSigner _ => TBytes
  | KeyAssetRegistry | KeyMsGovernors | KeySourceAssets _ | KeyRoleHolders _
  | KeyConsensusRoundVoteIndex _ _ | KeyRecoveryGuardians | KeyRelayerRegistry
  | KeyRelayerAssetList _ => Tlist_Address
  | KeyConfigVersionIndex | KeyPriceHistoryLedgers _ | KeyHistoryBucketIndex _
  | KeySourceScorecard _ | KeyConsensusConfirmedRounds _ | KeyRelayerSubmissionHistory _
  | KeyRelayerLatencyHistory _ => Tlist_Z
  | KeySrcRegistry => TOracleSources
  | KeyEmergencyPending => TPendingRatification
  | KeySubscriptionPlans => Tmap_Z_Z
  | KeyConfigSnapshot _ => TConfigSnapshot
  | KeyAuditEntry _ => TAuditEntry
  | KeyAssetMetadata _ => TAssetMetadata
  | KeyAssetPriceBounds _ => TPriceBounds
  | KeyAssetCircuitBreakerLog _ _ => TCircuitBreakerEventEntry
  | KeyAggregate _ => TAggregatePrice
  | KeyFrozenPrice _ => TFrozenPrice
  | KeyMsOp _ => TMultiSigOperation
  | KeyTlPendingOp _ => TPendingOperation
  | KeyPendingBatch _ => TPendingBatch
  | KeyPriceHistory _ _ => TPriceHistoryEntry
  | KeyHistoryBucket _ _ => Tlist_PriceHistoryEntry
  | KeyCompactionMeta _ => TCompactionMetadata
  | KeySubmission _ _ => TPriceEntry
  | KeyTREASREC => Tlist_TreasurySpendRecord
  | KeyAssetPolicy _ | KeyClassPolicy _ => TPolicyOverride
  | KeyFreshnessCurve _ => TFreshnessCurve
  | KeyAssetFreshnessStatus _ => TFreshnessStatus
  | KeyAssetBoundsTier _ => TBoundsTier
  | KeyAssetBoundStatus _ => TBoundStatus
  | KeyPublicationGuards => TPublicationGuards
  | KeyOutlierConfig _ => TOutlierConfig
  | KeyOutlierExclusions _ => Tlist_OutlierExclusion
  | KeyAssetDeferral _ => TDeferralPolicy
  | KeyAssetPublicationState _ => TPublicationStatus
  | KeyCorrelationBand _ _ => TCorrelationBand
  | KeyCorrelationPairList => Tlist_CorrelationPair
  | KeyAnomalyLog _ _ | KeyAggregateAnomalyLog _ => Tlist_AnomalyExplanation
  | KeyAssetSanityRelations _ => Tlist_SanityRelation
  | KeyAssetSanityStatus _ => TSanityStatus
  | KeyCfgScorecard => TScorecardConfig
  | KeyLastGasRecord => TGasRecord
  | KeyLatencySamples _ _ => Tlist_LatencySample
  | KeyProvenanceHead _ => TProvenanceHead
  | KeyProvenance _ _ => TProvenanceRecord
  | KeyDisagreementIndex _ => TDisagreementRecord
  | KeyAssetStorageTier _ => THistoryStorageTier
  | KeyAssetStorageTierDowngrade _ => TStorageTierDowngradeRequest
  | KeyContribScore _ _ => TContribQualityRecord
  | KeyPriceCallbackList _ => Tlist_CallbackRegistration
  | KeyCfgCorrectionScope => TCorrectionScope
  | KeyPriceRevisions _ => Tlist_PriceRevision
  | KeyDqConfig _ => TDqConfig
  | KeyDqAnchor _ => TDqAnchor
  | KeyLcConfig => TLifecycleConfig
  | KeyLcRecord _ => TSourceLifecycle
  | KeyCmpRounds _ => Tlist_ComparisonRound
  | KeyBlackoutWindow _ => TBlackoutWindow
  | KeyBlackoutSignals _ => TVolatilitySignals
  | KeyBlackoutMaintenance => Tlist_MaintenanceWindow
  | KeyPriceOverride _ => TPriceOverrideEntry
  | KeyPriceCommit _ _ _ => TPriceCommit
  | KeyDegradationConfig => TDegradationConfig
  | KeyDegradationCounters _ _ => TDegradationStats
  | KeySubmissionSchedule _ _ => TSubmissionSchedule
  | KeyLastScheduledSubmission _ _ => TLastSubmissionRecord
  | KeyDemeritConfig => TDemeritConfig
  | KeySourceDemerits _ => TSourceDemeritState
  | KeySourceEnrollment _ => TSourceEnrollment
  | KeySourceGovConfig => TSourceGovernance
  | KeySourceProposal _ => TSourceProposal
  | KeySourceGeo _ => TSourceGeoMetadata
  | KeySourceVerification _ => TSourceVerification
  | KeyConsensusRoundConfig _ => TRoundConfig
  | KeyConsensusRoundVote _ _ _ => TRoundVote
  | KeyConsensusRoundTally _ _ => TRoundTally
  | KeyConsensusConfirmedPrice _ => TConfirmedPrice
  | KeyBreakerPolicy _ => TBreakerPolicy
  | KeyDeadManConfig => TDeadManConfig
  | KeyPendingRecovery => TGuardianRecovery
  | KeyRecoveryVeto => TAddress_Z
  | KeyEmergencyPauseEntry => TEmergencyPause
  | KeyOptimisticProposal _ => TOptimisticProposal
  | KeyChallenge _ => TChallenge
  | KeyApprovedRelayer _ => TRelayerInfo
  | KeySourceRelayerDelegation _ _ => TSourceRelayerDelegation
  | KeyStateChannel _ => TStateChannel
  | KeySourceStake _ => TSourceStakeRecord
  end.

Definition ty_eq (t t' : Ty) : option (t = t') :=
  match t, t' with
  | TAddress_Z, TAddress_Z => Some eq_refl
  | TAddress, TAddress => Some eq_refl
  | TAggregatePrice, TAggregatePrice => Some eq_refl
  | TAssetMetadata, TAssetMetadata => Some eq_refl
  | TAuditEntry, TAuditEntry => Some eq_refl
  | TBlackoutWindow, TBlackoutWindow => Some eq_refl
  | TBoundStatus, TBoundStatus => Some eq_refl
  | TBoundsTier, TBoundsTier => Some eq_refl
  | TBreakerPolicy, TBreakerPolicy => Some eq_refl
  | TBytes, TBytes => Some eq_refl
  | TChallenge, TChallenge => Some eq_refl
  | TCircuitBreakerEventEntry, TCircuitBreakerEventEntry => Some eq_refl
  | TCompactionMetadata, TCompactionMetadata => Some eq_refl
  | TConfigSnapshot, TConfigSnapshot => Some eq_refl
  | TConfirmedPrice, TConfirmedPrice => Some eq_refl
  | TContribQualityRecord, TContribQualityRecord => Some eq_refl
  | TCorrectionScope, TCorrectionScope => Some eq_refl
  | TCorrelationBand, TCorrelationBand => Some eq_refl
  | TDeadManConfig, TDeadManConfig => Some eq_refl
  | TDeferralPolicy, TDeferralPolicy => Some eq_refl
  | TDegradationConfig, TDegradationConfig => Some eq_refl
  | TDegradationStats, TDegradationStats => Some eq_refl
  | TDemeritConfig, TDemeritConfig => Some eq_refl
  | TDisagreementRecord, TDisagreementRecord => Some eq_refl
  | TDqAnchor, TDqAnchor => Some eq_refl
  | TDqConfig, TDqConfig => Some eq_refl
  | TEmergencyPause, TEmergencyPause => Some eq_refl
  | TFreshnessCurve, TFreshnessCurve => Some eq_refl
  | TFreshnessStatus, TFreshnessStatus => Some eq_refl
  | TFrozenPrice, TFrozenPrice => Some eq_refl
  | TGasRecord, TGasRecord => Some eq_refl
  | TGuardianRecovery, TGuardianRecovery => Some eq_refl
  | THistoryStorageTier, THistoryStorageTier => Some eq_refl
  | TLastSubmissionRecord, TLastSubmissionRecord => Some eq_refl
  | TLifecycleConfig, TLifecycleConfig => Some eq_refl
  | TMultiSigOperation, TMultiSigOperation => Some eq_refl
  | TOptimisticProposal, TOptimisticProposal => Some eq_refl
  | TOracleSources, TOracleSources => Some eq_refl
  | TOutlierConfig, TOutlierConfig => Some eq_refl
  | TPendingBatch, TPendingBatch => Some eq_refl
  | TPendingOperation, TPendingOperation => Some eq_refl
  | TPendingRatification, TPendingRatification => Some eq_refl
  | TPolicyOverride, TPolicyOverride => Some eq_refl
  | TPriceBounds, TPriceBounds => Some eq_refl
  | TPriceCommit, TPriceCommit => Some eq_refl
  | TPriceEntry, TPriceEntry => Some eq_refl
  | TPriceHistoryEntry, TPriceHistoryEntry => Some eq_refl
  | TPriceOverrideEntry, TPriceOverrideEntry => Some eq_refl
  | TProvenanceHead, TProvenanceHead => Some eq_refl
  | TProvenanceRecord, TProvenanceRecord => Some eq_refl
  | TPublicationGuards, TPublicationGuards => Some eq_refl
  | TPublicationStatus, TPublicationStatus => Some eq_refl
  | TRelayerInfo, TRelayerInfo => Some eq_refl
  | TRoundConfig, TRoundConfig => Some eq_refl
  | TRoundTally, TRoundTally => Some eq_refl
  | TRoundVote, TRoundVote => Some eq_refl
  | TSanityStatus, TSanityStatus => Some eq_refl
  | TScorecardConfig, TScorecardConfig => Some eq_refl
  | TSourceDemeritState, TSourceDemeritState => Some eq_refl
  | TSourceEnrollment, TSourceEnrollment => Some eq_refl
  | TSourceGeoMetadata, TSourceGeoMetadata => Some eq_refl
  | TSourceGovernance, TSourceGovernance => Some eq_refl
  | TSourceLifecycle, TSourceLifecycle => Some eq_refl
  | TSourceProposal, TSourceProposal => Some eq_refl
  | TSourceRelayerDelegation, TSourceRelayerDelegation => Some eq_refl
  | TSourceStakeRecord, TSourceStakeRecord => Some eq_refl
  | TSourceVerification, TSourceVerification => Some eq_refl
  | TStateChannel, TStateChannel => Some eq_refl
  | TStorageTierDowngradeRequest, TStorageTierDowngradeRequest => Some eq_refl
  | TSubmissionSchedule, TSubmissionSchedule => Some eq_refl
  | TVolatilitySignals, TVolatilitySignals => Some eq_refl
  | TZ, TZ => Some eq_refl
  | Tbool, Tbool => Some eq_refl
  | Tmap_Z_Z, Tmap_Z_Z => Some eq_refl
  | Tlist_Address, Tlist_Address => Some eq_refl
  | Tlist_AnomalyExplanation, Tlist_AnomalyExplanation => Some eq_refl
  | Tlist_CallbackRegistration, Tlist_CallbackRegistration => Some eq_refl
  | Tlist_ComparisonRound, Tlist_ComparisonRound => Some eq_refl
  | Tlist_CorrelationPair, Tlist_CorrelationPair => Some eq_refl
  | Tlist_LatencySample, Tlist_LatencySample => Some eq_refl
  | Tlist_MaintenanceWindow, Tlist_MaintenanceWindow => Some eq_refl
  | Tlist_OutlierExclusion, Tlist_OutlierExclusion => Some eq_refl
  | Tlist_PriceHistoryEntry, Tlist_PriceHistoryEntry => Some eq_refl
  | Tlist_PriceRevision, Tlist_PriceRevision => Some eq_refl
  | Tlist_SanityRelation, Tlist_SanityRelation => Some eq_refl
  | Tlist_TreasurySpendRecord, Tlist_TreasurySpendRecord => Some eq_refl
  | Tlist_Z, Tlist_Z => Some eq_refl
  | Tstring, Tstring => Some eq_refl
  | _, _ => None
  end.

Lemma ty_eq_refl t : ty_eq t t = Some eq_refl.
Proof. by destruct t. Qed.

(** Serialisation of keys: the variant and its arguments, as the host does. *)
Definition key_code (k : DataKey) : list Z :=
  match k with
  | KeyAdmin => [0]
  | KeyEmergencyCouncil => [1]
  | KeyCfgMinSources => [2]
  | KeyCfgMaxHistory => [3]
  | KeyCfgResolution => [4]
  | KeyCfgDecimals => [5]
  | KeyCfgTimestampThreshold => [6]
  | KeyCfgMaxDeviation => [7]
  | KeyCfgHeartbeatInterval => [8]
  | KeyCfgMaxInvalidSubs => [9]
  | KeyCfgAggregationMethod => [10]
  | KeyCfgTimelockDuration => [11]
  | KeyCfgOptimisticDisputeWindow => [12]
  | KeyCfgOptimisticMinBond => [13]
  | KeyMaxAssets => [14]
  | KeyQueryRateLimit => [15]
  | KeyMaxSources => [16]
  | KeyMaxHistoryPerAsset => [17]
  | KeyMaxEventsPerCall => [18]
  | KeyMaxAggregationSources => [19]
  | KeyAggregationCooldown => [20]
  | KeyMinSubmissionInterval => [21]
  | KeyCircuitBreakerThreshold => [22]
  | KeyAssetResolution a => [23; Z.of_N a]
  | KeyAssetDisabledAt a => [24; Z.of_N a]
  | KeyEmergencyExpiry => [25]
  | KeySubscriptionExpiry a => [26; Z.of_N a]
  | KeyQueryCount a b => [27; Z.of_N a; b]
  | KeyConfigVersionCount => [28]
  | KeyAuditEntryCount => [29]
  | KeyAssetMinPrice a => [30; Z.of_N a]
  | KeyAssetCircuitBreakerLogCount a => [31; Z.of_N a]
  | KeyMsRequiredApprovals => [32]
  | KeyMsPreviousRequiredApprovals => [33]
  | KeyMsQueueHead => [34]
  | KeyMsQueueTail => [35]
  | KeyMsOpCount => [36]
  | KeyTlPendingOpCount => [37]
  | KeyTlOpRequiredDelay a => [38; a]
  | KeyTimelockDuration => [39]
  | KeyPendingBatchCount => [40]
  | KeyPendingBatchRequiredDelay a => [41; a]
  | KeyTlUrgentDelay => [42]
  | KeyTlNormalDelay => [43]
  | KeyTlLongTermDelay => [44]
  | KeySourceBondAmount => [45]
  | KeySourceBond a => [46; Z.of_N a]
  | KeyCfgCompactionThresholdBps => [47]
  | KeyCfgPauseFlag => [48]
  | KeyInterpolationEnabled => [49]
  | KeyAssetRegistered a => [50; Z.of_N a]
  | KeyAssetRegistryIndex a => [51; Z.of_N a]
  | KeyAssetDisabled a => [52; Z.of_N a]
  | KeyAssetPauseFlag a => [53; Z.of_N a]
  | KeyAssetCircuitBreakerTripped a => [54; Z.of_N a]
  | KeySrcActive a => [55; Z.of_N a]
  | KeySrcInactive a => [56; Z.of_N a]
  | KeyCfgDescription => [57]
  | KeyAuditLogHead => [58]
  | KeyAssetRegistry => [59]
  | KeyMsGovernors => [60]
  | KeySourceAssets a => [61; Z.of_N a]
  | KeyConfigVersionIndex => [62]
  | KeyPriceHistoryLedgers a => [63; Z.of_N a]
  | KeyHistoryBucketIndex a => [64; Z.of_N a]
  | KeySrcRegistry => [65]
  | KeyEmergencyPending => [66]
  | KeySubscriptionPlans => [67]
  | KeyConfigSnapshot a => [68; a]
  | KeyAuditEntry a => [69; a]
  | KeyAssetMetadata a => [70; Z.of_N a]
  | KeyAssetPriceBounds a => [71; Z.of_N a]
  | KeyAssetCircuitBreakerLog a b => [72; Z.of_N a; b]
  | KeyAggregate a => [73; Z.of_N a]
  | KeyFrozenPrice a => [74; Z.of_N a]
  | KeyMsOp a => [75; a]
  | KeyTlPendingOp a => [76; a]
  | KeyPendingBatch a => [77; a]
  | KeyPriceHistory a b => [78; Z.of_N a; b]
  | KeyHistoryBucket a b => [79; Z.of_N a; b]
  | KeyCompactionMeta a => [80; Z.of_N a]
  | KeySubmission a b => [81; Z.of_N a; Z.of_N b]
  | KeyBRK_PAUS a => [82; Z.of_N a]
  | KeyTREASREC => [83]
  | KeyTREASBUD a => [84; a]
  | KeyAssetPolicy a => [85; Z.of_N a]
  | KeyClassPolicy a => [86; a]
  | KeyAssetClassId a => [87; Z.of_N a]
  | KeyAssetRiskTier a => [88; Z.of_N a]
  | KeyRiskTierEnforcement => [89]
  | KeyFreshnessCurve a => [90; Z.of_N a]
  | KeyAssetFreshnessWindow a => [91; Z.of_N a]
  | KeyDefaultFreshnessWindow => [92]
  | KeyAssetFreshnessStatus a => [93; Z.of_N a]
  | KeyAssetBoundsTier a => [94; Z.of_N a]
  | KeyAssetBoundStatus a => [95; Z.of_N a]
  | KeyPublicationGuards => [96]
  | KeyOutlierConfig a => [97; Z.of_N a]
  | KeyOutlierExclusions a => [98; Z.of_N a]
  | KeyAssetDeferral a => [99; Z.of_N a]
  | KeyAssetPublicationState a => [100; Z.of_N a]
  | KeyCorrelationBand a b => [101; Z.of_N a; Z.of_N b]
  | KeyCorrelationPairList => [102]
  | KeyCorrelationFlagged a b => [103; Z.of_N a; Z.of_N b]
  | KeyAnomalyRetention => [104]
  | KeyAnomalyLog a b => [105; Z.of_N a; Z.of_N b]
  | KeyAggregateAnomalyLog a => [106; Z.of_N a]
  | KeyAssetSanityRelations a => [107; Z.of_N a]
  | KeyAssetSanitySuspended a => [108; Z.of_N a]
  | KeyAssetSanityStatus a => [109; Z.of_N a]
  | KeyCfgScorecard => [110]
  | KeySourceScorecard a => [111; Z.of_N a]
  | KeyLastGasRecord => [112]
  | KeyLatencySamples a b => [113; Z.of_N a; Z.of_N b]
  | KeyProvenanceHead a => [114; Z.of_N a]
  | KeyProvenance a b => [115; Z.of_N a; b]
  | KeyDisagreementIndex a => [116; Z.of_N a]
  | KeyAssetStorageTier a => [117; Z.of_N a]
  | KeyAssetStorageTierMigrated a => [118; Z.of_N a]
  | KeyAssetStorageTierDowngrade a => [119; Z.of_N a]
  | KeyContribScore a b => [120; Z.of_N a; Z.of_N b]
  | KeyContribScoringWindow => [121]
  | KeyPriceCallbackList a => [122; Z.of_N a]
  | KeyCfgCorrectionScope => [123]
  | KeyPriceRevisions a => [124; Z.of_N a]
  | KeyPriceOriginal a => [125; Z.of_N a]
  | KeyPriceCorrectionCount a => [126; Z.of_N a]
  | KeyDelegatedRole a b => [127; Z.of_N a; b]
  | KeyLastForcedRecompute => [128]
  | KeyCfgBftFaultTolerance => [129]
  | KeyCfgBftAggregationMethod => [130]
  | KeyLastSubmissionLedger a b => [131; Z.of_N a; Z.of_N b]
  | KeyAssetMinSubmissionInterval a => [132; Z.of_N a]
  | KeySourceNonCompliant a b => [133; Z.of_N a; Z.of_N b]
  | KeyDqConfig a => [134; Z.of_N a]
  | KeyDqAnchor a => [135; Z.of_N a]
  | KeyLcConfig => [136]
  | KeyLcRecord a => [137; Z.of_N a]
  | KeyLcIdentityOwner a => 138 :: a
  | KeyLcRevokedIdentity a => 139 :: a
  | KeyLcRevokedAddress a => [140; Z.of_N a]
  | KeyLcAnyProbation => [141]
  | KeyCmpEnabled a => [142; Z.of_N a]
  | KeyCmpRounds a => [143; Z.of_N a]
  | KeyBlackoutWindow a => [144; Z.of_N a]
  | KeyBlackoutLastEnd a => [145; Z.of_N a]
  | KeyBlackoutSignals a => [146; Z.of_N a]
  | KeyBlackoutQuorum => [147]
  | KeyBlackoutMaintenance => [148]
  | KeyINFL_CAP => [149]
  | KeyTriggerTimeInterval a => [150; Z.of_N a]
  | KeyTriggerSubmissionThreshold a => [151; Z.of_N a]
  | KeyTriggerDeviationBps a => [152; Z.of_N a]
  | KeyTriggerSubmissionCount a => [153; Z.of_N a]
  | KeyTriggerLastAggTime a => [154; Z.of_N a]
  | KeyTotalSubmissionCount => [155]
  | KeySourceSubmissionCount a => [156; Z.of_N a]
  | KeySourceNonce a => [157; Z.of_N a]
  | KeyTwapMinCardinality => [158]
  | KeyLastAggregationTrigger a => [159; Z.of_N a]
  | KeyCfgCommitWindow => [160]
  | KeyCfgRevealWindow => [161]
  | KeyCommitRevealSlashAmount => [162]
  | KeyTreasuryBalance => [163]
  | KeySrcHeartbeat a => [164; Z.of_N a]
  | KeySrcMissedHeartbeats a => [165; Z.of_N a]
  | KeySrcInactiveSinceLedger a => [166; Z.of_N a]
  | KeySrcLastPriceLedger a => [167; Z.of_N a]
  | KeySourceRotationLedger a => [168; Z.of_N a]
  | KeySourcePendingRemoval a => [169; Z.of_N a]
  | KeyRemovalCooldown => [170]
  | KeySourceReputation a => [171; Z.of_N a]
  | KeyReputationDecayFactor => [172]
  | KeyCfgMaxInactiveLedgers => [173]
  | KeyCfgHeartbeatWindow => [174]
  | KeySourceProposalCount => [175]
  | KeySubmissionLedger a b => [176; Z.of_N a; Z.of_N b]
  | KeyCommitRevealEnabled => [177]
  | KeySrcPriceSubmitAfterReactivation a => [178; Z.of_N a]
  | KeySource a => [179; Z.of_N a]
  | KeyPriceOverride a => [180; Z.of_N a]
  | KeyPriceCommit a b c => [181; Z.of_N a; Z.of_N b; c]
  | KeyDegradationConfig => [182]
  | KeyDegradationCounters a b => [183; Z.of_N a; b]
  | KeySubmissionSchedule a b => [184; Z.of_N a; Z.of_N b]
  | KeyLastScheduledSubmission a b => [185; Z.of_N a; Z.of_N b]
  | KeyDemeritConfig => [186]
  | KeySourceDemerits a => [187; Z.of_N a]
  | KeySourceEnrollment a => [188; Z.of_N a]
  | KeySourceGovConfig => [189]
  | KeySourceProposal a => [190; a]
  | KeySourceGeo a => [191; Z.of_N a]
  | KeySourceVerification a => [192; Z.of_N a]
  | KeySignedSubmitPubKey a => [193; Z.of_N a]
  | KeyStakeTokenContract => [194]
  | KeyRoleHolders a => [195; a]
  | KeyConsensusRoundConfig a => [196; Z.of_N a]
  | KeyConsensusRoundCounter a => [197; Z.of_N a]
  | KeyConsensusRoundStart a b => [198; Z.of_N a; b]
  | KeyConsensusRoundEvidenceOwner a b => 199 :: Z.of_N a :: b
  | KeyConsensusEquivocationCount a b => [200; Z.of_N a; Z.of_N b]
  | KeyConsensusRoundAbandoned a => [201; Z.of_N a]
  | KeyConsensusRoundVote a b c => [202; Z.of_N a; b; Z.of_N c]
  | KeyConsensusRoundVoteIndex a b => [203; Z.of_N a; b]
  | KeyRecoveryGuardians => [204]
  | KeyConsensusRoundTally a b => [205; Z.of_N a; b]
  | KeyConsensusRoundEquivocation a b c => [206; Z.of_N a; b; Z.of_N c]
  | KeyDeadManDegraded => [207]
  | KeyDeadManWarned => [208]
  | KeyConsensusConfirmedPrice a => [209; Z.of_N a]
  | KeyConsensusConfirmedRounds a => [210; Z.of_N a]
  | KeyBreakerPolicy a => [211; Z.of_N a]
  | KeyBreakerSettleStreak a => [212; Z.of_N a]
  | KeyBreakerArmedLedger a => [213; Z.of_N a]
  | KeyBreakerEscalations a => [214; Z.of_N a]
  | KeyBreakerSourceRecovery a => [215; Z.of_N a]
  | KeyDeadManConfig => [216]
  | KeyDeadManLastHeartbeat => [217]
  | KeyDeadManTriggeredAt => [218]
  | KeyPendingRecovery => [219]
  | KeyRecoveryDelay => [220]
  | KeyRecoveryThreshold => [221]
  | KeyRecoveryVeto => [222]
  | KeyReentrancyGuard => [223]
  | KeyEmergencyPauseActive => [224]
  | KeyEmergencyPauseEntry => [225]
  | KeyEmergencyPauseReason => [226]
  | KeySignedSubmitNonce a => [227; Z.of_N a]
  | KeyOptimisticProposalCount => [228]
  | KeyChallengeCount => [229]
  | KeyChallengerRewards a => [230; Z.of_N a]
  | KeyChallengerStrikes a => [231; Z.of_N a]
  | KeyChallengerOpenCount a => [232; Z.of_N a]
  | KeyAssetOpenChallenges a => [233; Z.of_N a]
  | KeySourceRelayerDelegationNonce a => [234; Z.of_N a]
  | KeyRelayerSubmissionCount a => [235; Z.of_N a]
  | KeyRelayerFeeBalance a => [236; Z.of_N a]
  | KeyRelayerFeePerSubmission => [237]
  | KeyRelayerBondAmount => [238]
  | KeyRelayerBond a => [239; Z.of_N a]
  | KeyRelayerFailureCount a => [240; Z.of_N a]
  | KeyRelayerSlashPercent => [241]
  | KeyRelayerFailureThreshold => [242]
  | KeyRelayerRewardRate => [243]
  | KeyRelayerRewardBalance a => [244; Z.of_N a]
  | KeyRelayerLatencySum a => [245; Z.of_N a]
  | KeyRelayerAssetCount a b => [246; Z.of_N a; Z.of_N b]
  | KeyRelayerAssetLatencySum a b => [247; Z.of_N a; Z.of_N b]
  | KeyRelayerAssetLatencyCount a b => [248; Z.of_N a; Z.of_N b]
  | KeySlashPercent => [249]
  | KeySlashReputationThreshold => [250]
  | KeyOptimisticProposal a => [251; a]
  | KeyChallenge a => [252; a]
  | KeyApprovedRelayer a => [253; Z.of_N a]
  | KeyRelayerRegistry => [254]
  | KeyRelayerAssetList a => [255; Z.of_N a]
  | KeySourceRelayerDelegation a b => [256; Z.of_N a; Z.of_N b]
  | KeyRelayerSubmissionHistory a => [257; Z.of_N a]
  | KeyRelayerLatencyHistory a => [258; Z.of_N a]
  | KeyStateChannel a => [259; Z.of_N a]
  | KeyStateChannelSigner a => [260; Z.of_N a]
  | KeySourceStake a => [261; Z.of_N a]
  end.

Definition key_decode (l : list Z) : option DataKey :=
  match l with
  | [0] => Some KeyAdmin
  | [1] => Some KeyEmergencyCouncil
  | [2] => Some KeyCfgMinSources
  | [3] => Some KeyCfgMaxHistory
  | [4] => Some KeyCfgResolution
  | [5] => Some KeyCfgDecimals
  | [6] => Some KeyCfgTimestampThreshold
  | [7] => Some KeyCfgMaxDeviation
  | [8] => Some KeyCfgHeartbeatInterval
  | [9] => Some KeyCfgMaxInvalidSubs
  | [10] => Some KeyCfgAggregationMethod
  | [11] => Some KeyCfgTimelockDuration
  | [12] => Some KeyCfgOptimisticDisputeWindow
  | [13] => Some KeyCfgOptimisticMinBond
  | [14] => Some KeyMaxAssets
  | [15] => Some KeyQueryRateLimit
  | [16] => Some KeyMaxSources
  | [17] => Some KeyMaxHistoryPerAsset
  | [18] => Some KeyMaxEventsPerCall
  | [19] => Some KeyMaxAggregationSources
  | [20] => Some KeyAggregationCooldown
  | [21] => Some KeyMinSubmissionInterval
  | [22] => Some KeyCircuitBreakerThreshold
  | [23; a] => Some (KeyAssetResolution (Z.to_N a))
  | [24; a] => Some (KeyAssetDisabledAt (Z.to_N a))
  | [25] => Some KeyEmergencyExpiry
  | [26; a] => Some (KeySubscriptionExpiry (Z.to_N a))
  | [27; a; b] => Some (KeyQueryCount (Z.to_N a) b)
  | [28] => Some KeyConfigVersionCount
  | [29] => Some KeyAuditEntryCount
  | [30; a] => Some (KeyAssetMinPrice (Z.to_N a))
  | [31; a] => Some (KeyAssetCircuitBreakerLogCount (Z.to_N a))
  | [32] => Some KeyMsRequiredApprovals
  | [33] => Some KeyMsPreviousRequiredApprovals
  | [34] => Some KeyMsQueueHead
  | [35] => Some KeyMsQueueTail
  | [36] => Some KeyMsOpCount
  | [37] => Some KeyTlPendingOpCount
  | [38; a] => Some (KeyTlOpRequiredDelay a)
  | [39] => Some KeyTimelockDuration
  | [40] => Some KeyPendingBatchCount
  | [41; a] => Some (KeyPendingBatchRequiredDelay a)
  | [42] => Some KeyTlUrgentDelay
  | [43] => Some KeyTlNormalDelay
  | [44] => Some KeyTlLongTermDelay
  | [45] => Some KeySourceBondAmount
  | [46; a] => Some (KeySourceBond (Z.to_N a))
  | [47] => Some KeyCfgCompactionThresholdBps
  | [48] => Some KeyCfgPauseFlag
  | [49] => Some KeyInterpolationEnabled
  | [50; a] => Some (KeyAssetRegistered (Z.to_N a))
  | [51; a] => Some (KeyAssetRegistryIndex (Z.to_N a))
  | [52; a] => Some (KeyAssetDisabled (Z.to_N a))
  | [53; a] => Some (KeyAssetPauseFlag (Z.to_N a))
  | [54; a] => Some (KeyAssetCircuitBreakerTripped (Z.to_N a))
  | [55; a] => Some (KeySrcActive (Z.to_N a))
  | [56; a] => Some (KeySrcInactive (Z.to_N a))
  | [57] => Some KeyCfgDescription
  | [58] => Some KeyAuditLogHead
  | [59] => Some KeyAssetRegistry
  | [60] => Some KeyMsGovernors
  | [61; a] => Some (KeySourceAssets (Z.to_N a))
  | [62] => Some KeyConfigVersionIndex
  | [63; a] => Some (KeyPriceHistoryLedgers (Z.to_N a))
  | [64; a] => Some (KeyHistoryBucketIndex (Z.to_N a))
  | [65] => Some KeySrcRegistry
  | [66] => Some KeyEmergencyPending
  | [67] => Some KeySubscriptionPlans
  | [68; a] => Some (KeyConfigSnapshot a)
  | [69; a] => Some (KeyAuditEntry a)
  | [70; a] => Some (KeyAssetMetadata (Z.to_N a))
  | [71; a] => Some (KeyAssetPriceBounds (Z.to_N a))
  | [72; a; b] => Some (KeyAssetCircuitBreakerLog (Z.to_N a) b)
  | [73; a] => Some (KeyAggregate (Z.to_N a))
  | [74; a] => Some (KeyFrozenPrice (Z.to_N a))
  | [75; a] => Some (KeyMsOp a)
  | [76; a] => Some (KeyTlPendingOp a)
  | [77; a] => Some (KeyPendingBatch a)
  | [78; a; b] => Some (KeyPriceHistory (Z.to_N a) b)
  | [79; a; b] => Some (KeyHistoryBucket (Z.to_N a) b)
  | [80; a] => Some (KeyCompactionMeta (Z.to_N a))
  | [81; a; b] => Some (KeySubmission (Z.to_N a) (Z.to_N b))
  | [82; a] => Some (KeyBRK_PAUS (Z.to_N a))
  | [83] => Some KeyTREASREC
  | [84; a] => Some (KeyTREASBUD a)
  | [85; a] => Some (KeyAssetPolicy (Z.to_N a))
  | [86; a] => Some (KeyClassPolicy a)
  | [87; a] => Some (KeyAssetClassId (Z.to_N a))
  | [88; a] => Some (KeyAssetRiskTier (Z.to_N a))
  | [89] => Some KeyRiskTierEnforcement
  | [90; a] => Some (KeyFreshnessCurve (Z.to_N a))
  | [91; a] => Some (KeyAssetFreshnessWindow (Z.to_N a))
  | [92] => Some KeyDefaultFreshnessWindow
  | [93; a] => Some (KeyAssetFreshnessStatus (Z.to_N a))
  | [94; a] => Some (KeyAssetBoundsTier (Z.to_N a))
  | [95; a] => Some (KeyAssetBoundStatus (Z.to_N a))
  | [96] => Some KeyPublicationGuards
  | [97; a] => Some (KeyOutlierConfig (Z.to_N a))
  | [98; a] => Some (KeyOutlierExclusions (Z.to_N a))
  | [99; a] => Some (KeyAssetDeferral (Z.to_N a))
  | [100; a] => Some (KeyAssetPublicationState (Z.to_N a))
  | [101; a; b] => Some (KeyCorrelationBand (Z.to_N a) (Z.to_N b))
  | [102] => Some KeyCorrelationPairList
  | [103; a; b] => Some (KeyCorrelationFlagged (Z.to_N a) (Z.to_N b))
  | [104] => Some KeyAnomalyRetention
  | [105; a; b] => Some (KeyAnomalyLog (Z.to_N a) (Z.to_N b))
  | [106; a] => Some (KeyAggregateAnomalyLog (Z.to_N a))
  | [107; a] => Some (KeyAssetSanityRelations (Z.to_N a))
  | [108; a] => Some (KeyAssetSanitySuspended (Z.to_N a))
  | [109; a] => Some (KeyAssetSanityStatus (Z.to_N a))
  | [110] => Some KeyCfgScorecard
  | [111; a] => Some (KeySourceScorecard (Z.to_N a))
  | [112] => Some KeyLastGasRecord
  | [113; a; b] => Some (KeyLatencySamples (Z.to_N a) (Z.to_N b))
  | [114; a] => Some (KeyProvenanceHead (Z.to_N a))
  | [115; a; b] => Some (KeyProvenance (Z.to_N a) b)
  | [116; a] => Some (KeyDisagreementIndex (Z.to_N a))
  | [117; a] => Some (KeyAssetStorageTier (Z.to_N a))
  | [118; a] => Some (KeyAssetStorageTierMigrated (Z.to_N a))
  | [119; a] => Some (KeyAssetStorageTierDowngrade (Z.to_N a))
  | [120; a; b] => Some (KeyContribScore (Z.to_N a) (Z.to_N b))
  | [121] => Some KeyContribScoringWindow
  | [122; a] => Some (KeyPriceCallbackList (Z.to_N a))
  | [123] => Some KeyCfgCorrectionScope
  | [124; a] => Some (KeyPriceRevisions (Z.to_N a))
  | [125; a] => Some (KeyPriceOriginal (Z.to_N a))
  | [126; a] => Some (KeyPriceCorrectionCount (Z.to_N a))
  | [127; a; b] => Some (KeyDelegatedRole (Z.to_N a) b)
  | [128] => Some KeyLastForcedRecompute
  | [129] => Some KeyCfgBftFaultTolerance
  | [130] => Some KeyCfgBftAggregationMethod
  | [131; a; b] => Some (KeyLastSubmissionLedger (Z.to_N a) (Z.to_N b))
  | [132; a] => Some (KeyAssetMinSubmissionInterval (Z.to_N a))
  | [133; a; b] => Some (KeySourceNonCompliant (Z.to_N a) (Z.to_N b))
  | [134; a] => Some (KeyDqConfig (Z.to_N a))
  | [135; a] => Some (KeyDqAnchor (Z.to_N a))
  | [136] => Some KeyLcConfig
  | [137; a] => Some (KeyLcRecord (Z.to_N a))
  | 138 :: a => Some (KeyLcIdentityOwner a)
  | 139 :: a => Some (KeyLcRevokedIdentity a)
  | [140; a] => Some (KeyLcRevokedAddress (Z.to_N a))
  | [141] => Some KeyLcAnyProbation
  | [142; a] => Some (KeyCmpEnabled (Z.to_N a))
  | [143; a] => Some (KeyCmpRounds (Z.to_N a))
  | [144; a] => Some (KeyBlackoutWindow (Z.to_N a))
  | [145; a] => Some (KeyBlackoutLastEnd (Z.to_N a))
  | [146; a] => Some (KeyBlackoutSignals (Z.to_N a))
  | [147] => Some KeyBlackoutQuorum
  | [148] => Some KeyBlackoutMaintenance
  | [149] => Some KeyINFL_CAP
  | [150; a] => Some (KeyTriggerTimeInterval (Z.to_N a))
  | [151; a] => Some (KeyTriggerSubmissionThreshold (Z.to_N a))
  | [152; a] => Some (KeyTriggerDeviationBps (Z.to_N a))
  | [153; a] => Some (KeyTriggerSubmissionCount (Z.to_N a))
  | [154; a] => Some (KeyTriggerLastAggTime (Z.to_N a))
  | [155] => Some KeyTotalSubmissionCount
  | [156; a] => Some (KeySourceSubmissionCount (Z.to_N a))
  | [157; a] => Some (KeySourceNonce (Z.to_N a))
  | [158] => Some KeyTwapMinCardinality
  | [159; a] => Some (KeyLastAggregationTrigger (Z.to_N a))
  | [160] => Some KeyCfgCommitWindow
  | [161] => Some KeyCfgRevealWindow
  | [162] => Some KeyCommitRevealSlashAmount
  | [163] => Some KeyTreasuryBalance
  | [164; a] => Some (KeySrcHeartbeat (Z.to_N a))
  | [165; a] => Some (KeySrcMissedHeartbeats (Z.to_N a))
  | [166; a] => Some (KeySrcInactiveSinceLedger (Z.to_N a))
  | [167; a] => Some (KeySrcLastPriceLedger (Z.to_N a))
  | [168; a] => Some (KeySourceRotationLedger (Z.to_N a))
  | [169; a] => Some (KeySourcePendingRemoval (Z.to_N a))
  | [170] => Some KeyRemovalCooldown
  | [171; a] => Some (KeySourceReputation (Z.to_N a))
  | [172] => Some KeyReputationDecayFactor
  | [173] => Some KeyCfgMaxInactiveLedgers
  | [174] => Some KeyCfgHeartbeatWindow
  | [175] => Some KeySourceProposalCount
  | [176; a; b] => Some (KeySubmissionLedger (Z.to_N a) (Z.to_N b))
  | [177] => Some KeyCommitRevealEnabled
  | [178; a] => Some (KeySrcPriceSubmitAfterReactivation (Z.to_N a))
  | [179; a] => Some (KeySource (Z.to_N a))
  | [180; a] => Some (KeyPriceOverride (Z.to_N a))
  | [181; a; b; c] => Some (KeyPriceCommit (Z.to_N a) (Z.to_N b) c)
  | [182] => Some KeyDegradationConfig
  | [183; a; b] => Some (KeyDegradationCounters (Z.to_N a) b)
  | [184; a; b] => Some (KeySubmissionSchedule (Z.to_N a) (Z.to_N b))
  | [185; a; b] => Some (KeyLastScheduledSubmission (Z.to_N a) (Z.to_N b))
  | [186] => Some KeyDemeritConfig
  | [187; a] => Some (KeySourceDemerits (Z.to_N a))
  | [188; a] => Some (KeySourceEnrollment (Z.to_N a))
  | [189] => Some KeySourceGovConfig
  | [190; a] => Some (KeySourceProposal a)
  | [191; a] => Some (KeySourceGeo (Z.to_N a))
  | [192; a] => Some (KeySourceVerification (Z.to_N a))
  | [193; a] => Some (KeySignedSubmitPubKey (Z.to_N a))
  | [194] => Some KeyStakeTokenContract
  | [195; a] => Some (KeyRoleHolders a)
  | [196; a] => Some (KeyConsensusRoundConfig (Z.to_N a))
  | [197; a] => Some (KeyConsensusRoundCounter (Z.to_N a))
  | [198; a; b] => Some (KeyConsensusRoundStart (Z.to_N a) b)
  | 199 :: a :: b => Some (KeyConsensusRoundEvidenceOwner (Z.to_N a) b)
  | [200; a; b] => Some (KeyConsensusEquivocationCount (Z.to_N a) (Z.to_N b))
  | [201; a] => Some (KeyConsensusRoundAbandoned (Z.to_N a))
  | [202; a; b; c] => Some (KeyConsensusRoundVote (Z.to_N a) b (Z.to_N c))
  | [203; a; b] => Some (KeyConsensusRoundVoteIndex (Z.to_N a) b)
  | [204] => Some KeyRecoveryGuardians
  | [205; a; b] => Some (KeyConsensusRoundTally (Z.to_N a) b)
  | [206; a; b; c] => Some (KeyConsensusRoundEquivocation (Z.to_N a) b (Z.to_N c))
  | [207] => Some KeyDeadManDegraded
  | [208] => Some KeyDeadManWarned
  | [209; a] => Some (KeyConsensusConfirmedPrice (Z.to_N a))
  | [210; a] => Some (KeyConsensusConfirmedRounds (Z.to_N a))
  | [211; a] => Some (KeyBreakerPolicy (Z.to_N a))
  | [212; a] => Some (KeyBreakerSettleStreak (Z.to_N a))
  | [213; a] => Some (KeyBreakerArmedLedger (Z.to_N a))
  | [214; a] => Some (KeyBreakerEscalations (Z.to_N a))
  | [215; a] => Some (KeyBreakerSourceRecovery (Z.to_N a))
  | [216] => Some KeyDeadManConfig
  | [217] => Some KeyDeadManLastHeartbeat
  | [218] => Some KeyDeadManTriggeredAt
  | [219] => Some KeyPendingRecovery
  | [220] => Some KeyRecoveryDelay
  | [221] => Some KeyRecoveryThreshold
  | [222] => Some KeyRecoveryVeto
  | [223] => Some KeyReentrancyGuard
  | [224] => Some KeyEmergencyPauseActive
  | [225] => Some KeyEmergencyPauseEntry
  | [226] => Some KeyEmergencyPauseReason
  | [227; a] => Some (KeySignedSubmitNonce (Z.to_N a))
  | [228] => Some KeyOptimisticProposalCount
  | [229] => Some KeyChallengeCount
  | [230; a] => Some (KeyChallengerRewards (Z.to_N a))
  | [231; a] => Some (KeyChallengerStrikes (Z.to_N a))
  | [232; a] => Some (KeyChallengerOpenCount (Z.to_N a))
  | [233; a] => Some (KeyAssetOpenChallenges (Z.to_N a))
  | [234; a] => Some (KeySourceRelayerDelegationNonce (Z.to_N a))
  | [235; a] => Some (KeyRelayerSubmissionCount (Z.to_N a))
  | [236; a] => Some (KeyRelayerFeeBalance (Z.to_N a))
  | [237] => Some KeyRelayerFeePerSubmission
  | [238] => Some KeyRelayerBondAmount
  | [239; a] => Some (KeyRelayerBond (Z.to_N a))
  | [240; a] => Some (KeyRelayerFailureCount (Z.to_N a))
  | [241] => Some KeyRelayerSlashPercent
  | [242] => Some KeyRelayerFailureThreshold
  | [243] => Some KeyRelayerRewardRate
  | [244; a] => Some (KeyRelayerRewardBalance (Z.to_N a))
  | [245; a] => Some (KeyRelayerLatencySum (Z.to_N a))
  | [246; a; b] => Some (KeyRelayerAssetCount (Z.to_N a) (Z.to_N b))
  | [247; a; b] => Some (KeyRelayerAssetLatencySum (Z.to_N a) (Z.to_N b))
  | [248; a; b] => Some (KeyRelayerAssetLatencyCount (Z.to_N a) (Z.to_N b))
  | [249] => Some KeySlashPercent
  | [250] => Some KeySlashReputationThreshold
  | [251; a] => Some (KeyOptimisticProposal a)
  | [252; a] => Some (KeyChallenge a)
  | [253; a] => Some (KeyApprovedRelayer (Z.to_N a))
  | [254] => Some KeyRelayerRegistry
  | [255; a] => Some (KeyRelayerAssetList (Z.to_N a))
  | [256; a; b] => Some (KeySourceRelayerDelegation (Z.to_N a) (Z.to_N b))
  | [257; a] => Some (KeyRelayerSubmissionHistory (Z.to_N a))
  | [258; a] => Some (KeyRelayerLatencyHistory (Z.to_N a))
  | [259; a] => Some (KeyStateChannel (Z.to_N a))
  | [260; a] => Some (KeyStateChannelSigner (Z.to_N a))
  | [261; a] => Some (KeySourceStake (Z.to_N a))
  | _ => None
  end.

Lemma key_decode_code k : key_decode (key_code k) = Some k.
Proof. destruct k; cbn [key_code key_decode]; rewrite ?N2Z.id; reflexivity. Qed.

#[export] Instance key_code_inj : Inj (=) (=) key_code.
Proof.
  intros k k' E. pose proof (key_decode_code k) as H. rewrite E, key_decode_code in H. congruence.
Qed.

#[export] Instance DataKey_eq_dec : EqDecision DataKey.
Proof.
  intros k k'. destruct (decide (key_code k = key_code k')) as [E|E].
  - left. by apply (inj key_code).
  - right. intros ->. by apply E.
Defined.

Inductive PriceSubmittedEvent :=
  MkPriceSubmittedEvent (asset : Address) (source : Address) (price : Z) (timestamp : Z).
Inductive AdminChangedEvent :=
  MkAdminChangedEvent (old_admin : Address) (new_admin : Address).
Inductive AggCooldownChangedEvent :=
  MkAggCooldownChangedEvent (cooldown_ledgers : Z).
Inductive AggregationMethodChangedEvent :=
  MkAggregationMethodChangedEvent (admin : Address) (old_method : Z) (new_method : Z).
Inductive AssetResolutionSetEvent :=
  MkAssetResolutionSetEvent (asset : Address) (admin : Address) (resolution : Z).
Inductive ContractUpgradedEvent :=
  MkContractUpgradedEvent (new_wasm_hash : Bytes).
Inductive DecimalsChangedEvent :=
  MkDecimalsChangedEvent (value : Z).
Inductive DescriptionChangedEvent :=
  MkDescriptionChangedEvent (description : string).
Inductive DisputeWindowChangedEvent :=
  MkDisputeWindowChangedEvent (admin : Address) (dispute_window_ledgers : Z).
Inductive EventsPerCallChangedEvent :=
  MkEventsPerCallChangedEvent (value : Z).
Inductive HeartbeatIntervalChangedEvent :=
  MkHeartbeatIntervalChangedEvent (value : Z).
Inductive HistoryPerAssetChangedEvent :=
  MkHistoryPerAssetChangedEvent (value : Z).
Inductive InterpolationChangedEvent :=
  MkInterpolationChangedEvent (enabled : bool).
Inductive MaxAggSourcesChangedEvent :=
  MkMaxAggSourcesChangedEvent (value : Z).
Inductive MaxHistoryChangedEvent :=
  MkMaxHistoryChangedEvent (value : Z).
Inductive MaxSourcesChangedEvent :=
  MkMaxSourcesChangedEvent (value : Z).
Inductive MinSourcesChangedEvent :=
  MkMinSourcesChangedEvent (value : Z).
Inductive OptimisticBondChangedEvent :=
  MkOptimisticBondChangedEvent (admin : Address) (min_bond : Z).
Inductive QueryRateLimitChangedEvent :=
  MkQueryRateLimitChangedEvent (value : Z).
Inductive ResolutionChangedEvent :=
  MkResolutionChangedEvent (value : Z).
Inductive SubmitIntervalChangedEvent :=
  MkSubmitIntervalChangedEvent (interval_ledgers : Z).
Inductive ConfigRolledBackEvent :=
  MkConfigRolledBackEvent (admin : Address) (restored_version : Z) (saved_version : Z).
Inductive ConfigSnapshotTakenEvent :=
  MkConfigSnapshotTakenEvent (admin : Address) (version : Z) (ledger : Z).
Inductive ContractPausedEvent :=
  MkContractPausedEvent (admin : Address).
Inductive ContractUnpausedEvent :=
  MkContractUnpausedEvent (admin : Address).
Inductive AssetMetadataUpdatedEvent :=
  MkAssetMetadataUpdatedEvent (asset : Address) (admin : Address) (name : string)
    (symbol : string) (decimals : option Z) (logo_uri : option string).
Inductive AssetRegisteredEvent :=
  MkAssetRegisteredEvent (asset : Address) (admin : Address).
Inductive AssetUnregisteredEvent :=
  MkAssetUnregisteredEvent (asset : Address) (admin : Address).
Inductive CircuitBreakerResetEvent :=
  MkCircuitBreakerResetEvent (asset : Address) (admin : Address).
Inductive CircuitBreakerTrippedEvent :=
  MkCircuitBreakerTrippedEvent (asset : Address) (previous_price : Z) (candidate_price : Z)
    (change_bps : Z) (max_change_bps : Z) (ledger : Z) (timestamp : Z).
Inductive MsGovernorsRotatedEvent :=
  MkMsGovernorsRotatedEvent (admin : Address) (previous_governors : list Address)
    (new_governors : list Address) (previous_required : Z) (new_required : Z)
    (invalidated_ops : Z).
Inductive MsGovernorsUpdatedEvent :=
  MkMsGovernorsUpdatedEvent (admin : Address) (governor_count : Z) (required_approvals : Z).
Inductive MsOperationApprovedEvent :=
  MkMsOperationApprovedEvent (op_id : Z) (approver : Address).
Inductive MsOperationCancelledEvent :=
  MkMsOperationCancelledEvent (op_id : Z) (cancelled_by : Address).
Inductive MsOperationExecutedEvent :=
  MkMsOperationExecutedEvent (op_id : Z) (op_type : Z) (executed_by : Address).
Inductive MsOperationProposedEvent :=
  MkMsOperationProposedEvent (op_id : Z) (op_type : Z) (proposed_by : Address)
    (proposed_ledger : Z).
Inductive MsOperationRetractedEvent :=
  MkMsOperationRetractedEvent (op_id : Z) (retracted_by : Address).
Inductive MsQuorumReachedEvent :=
  MkMsQuorumReachedEvent (op_id : Z) (approval_count : Z).
Inductive BatchCancelledEvent :=
  MkBatchCancelledEvent (batch_id : Z) (cancelled_by : Address).
Inductive BatchExecutedEvent :=
  MkBatchExecutedEvent (batch_id : Z) (num_operations : Z) (executed_by : Address).
Inductive BatchProposedEvent :=
  MkBatchProposedEvent (batch_id : Z) (num_operations : Z) (proposed_by : Address)
    (proposed_ledger : Z).
Inductive OperationCancelledEvent :=
  MkOperationCancelledEvent (operation_id : Z) (op_type : Z) (cancelled_by : Address).
Inductive OperationExecutedEvent :=
  MkOperationExecutedEvent (operation_id : Z) (op_type : Z) (executed_by : Address).
Inductive OperationProposedEvent :=
  MkOperationProposedEvent (operation_id : Z) (op_type : Z) (proposed_by : Address)
    (proposed_ledger : Z).
Inductive PriorityDelayChangedEvent :=
  MkPriorityDelayChangedEvent (priority : Z) (new_delay : Z) (changed_by : Address).
Inductive AdminAuditEntryAppendedEvent :=
  MkAdminAuditEntryAppendedEvent (admin : Address) (entry_id : Z) (action : string)
    (timestamp : Z) (ledger : Z).
Inductive PriceFrozenEvent :=
  MkPriceFrozenEvent (asset : Address) (reason : string) (price : Z) (frozen_at_ledger : Z).
Inductive PriceUnfrozenEvent :=
  MkPriceUnfrozenEvent (asset : Address) (unfrozen_at_ledger : Z).
Inductive OutlierConfigChangedEvent :=
  MkOutlierConfigChangedEvent (asset : Address) (old : option OutlierConfig)
    (new : option OutlierConfig).
Inductive OutlierExcludedEvent :=
  MkOutlierExcludedEvent (asset : Address) (detector : Z) (source : Address) (price : Z)
    (score_bps : Z) (sensitivity_bps : Z) (center : Z) (scale : Z) (num_retained : Z).
Inductive CorrelationBandSetEvent :=
  MkCorrelationBandSetEvent (base_asset : Address) (quote_asset : Address) (min_ratio : Z)
    (max_ratio : Z) (enabled : bool).
Inductive CorrelationPriceFlaggedEvent :=
  MkCorrelationPriceFlaggedEvent (asset : Address) (source : Address) (flagged_price : Z).
Inductive CorrelationViolationEvent :=
  MkCorrelationViolationEvent (base_asset : Address) (quote_asset : Address) (source : Address)
    (submitted_price : Z) (counterpart_price : Z) (ratio : Z) (min_ratio : Z) (max_ratio : Z).
Inductive AnomalyExplainedEvent :=
  MkAnomalyExplainedEvent (asset : Address) (subject : Address) (rule_id : Z) (rule : string)
    (observed : Z) (reference : Z) (threshold : Z) (rejected : bool).
Inductive SubmissionLatencyEvent :=
  MkSubmissionLatencyEvent (asset : Address) (source : Address) (submission_ledger : Z)
    (inclusion_ledger : Z) (latency_ledgers : Z) (deferral_ledgers : Z).
Inductive SubmissionNeverCountedEvent :=
  MkSubmissionNeverCountedEvent (asset : Address) (source : Address) (submission_ledger : Z).
Inductive ProvenanceRecordedEvent :=
  MkProvenanceRecordedEvent (asset : Address) (ledger : Z) (price : Z) (provenance_id : Bytes)
    (num_sources : Z).
Inductive DisagreementIndexEvent :=
  MkDisagreementIndexEvent (asset : Address) (index_bps : Z) (max_bps : Z) (baseline_bps : Z)
    (above_baseline : bool) (num_sources : Z) (low_sample : bool).
Inductive StorageTierChangedEvent :=
  MkStorageTierChangedEvent (asset : Address) (old_tier : Z) (new_tier : Z) (action : Z)
    (actor : Address) (ledger : Z).
Inductive StorageTierMigratedEvent :=
  MkStorageTierMigratedEvent (asset : Address) (from_tier : Z) (to_tier : Z)
    (entries_migrated : Z) (actor : Address) (ledger : Z).
Inductive WeightedAggregationEvent :=
  MkWeightedAggregationEvent (asset : Address) (raw_median : Z) (weighted_median : Z)
    (weights : list Z).
Inductive InfluenceCapAppliedEvent :=
  MkInfluenceCapAppliedEvent (asset : Address) (cap_bps : Z) (influence_bps : list Z).
Inductive ConfidenceBandEvent :=
  MkConfidenceBandEvent (asset : Address) (price : Z) (band : ConfidenceBand).
Inductive AggregationTriggeredEvent :=
  MkAggregationTriggeredEvent (asset : Address) (price : Z) (num_sources : Z)
    (triggered_at_ledger : Z).
Inductive EventLimitWarningEvent :=
  MkEventLimitWarningEvent (asset : Address) (event_count : Z) (max_events : Z).
Inductive HistoryPerAssetPrunedEvent :=
  MkHistoryPerAssetPrunedEvent (asset : Address) (pruned_ledger : Z) (remaining : Z).
Inductive HistoryPrunedEvent :=
  MkHistoryPrunedEvent (asset : Address) (pruned_ledger : Z) (remaining : Z).
Inductive PriceAggregatedEvent :=
  MkPriceAggregatedEvent (asset : Address) (price : Z) (num_sources : Z) (timestamp : Z).
Inductive PriceOverrideExpiredEvent :=
  MkPriceOverrideExpiredEvent (asset : Address) (expiry_ledger : Z) (current_ledger : Z).
Inductive PriceOverrideRemovedEvent :=
  MkPriceOverrideRemovedEvent (asset : Address) (admin : Address).
Inductive PriceOverrideSetEvent :=
  MkPriceOverrideSetEvent (asset : Address) (admin : Address) (price : Z) (reason : string)
    (expiry_ledger : Z).
Inductive PriceStaleEvent :=
  MkPriceStaleEvent (asset : Address) (last_update_ledger : Z) (current_ledger : Z).
Inductive RateLimitExceededEvent :=
  MkRateLimitExceededEvent (consumer : Address) (current_count : Z) (limit : Z).
Inductive SourceNonCompliantEvent :=
  MkSourceNonCompliantEvent (source : Address) (asset : Address) (last_submission_ledger : Z)
    (required_interval : Z).
Inductive SourcesInsufficientEvent :=
  MkSourcesInsufficientEvent (asset : Address) (current_source_count : Z)
    (min_sources_required : Z).
Inductive AutoTriggerFiredEvent :=
  MkAutoTriggerFiredEvent (asset : Address) (trigger_type : Z).
Inductive TriggerConfigChangedEvent :=
  MkTriggerConfigChangedEvent (asset : Address) (trigger_type : Z) (value : Z).
Inductive DegradedReadEvent :=
  MkDegradedReadEvent (asset : Address) (state : Z) (window : Z) (severe : bool).
Inductive ScheduleRemovedEvent :=
  MkScheduleRemovedEvent (source : Address) (asset : Address).
Inductive CommitWindowChangedEvent :=
  MkCommitWindowChangedEvent (value : Z).
Inductive RevealWindowChangedEvent :=
  MkRevealWindowChangedEvent (value : Z).
Inductive PriceCommittedEvent :=
  MkPriceCommittedEvent (asset : Address) (source : Address) (round_ledger : Z)
    (committed_at_ledger : Z) (hash : Bytes).
Inductive PriceRevealedEvent :=
  MkPriceRevealedEvent (asset : Address) (source : Address) (price : Z) (round_ledger : Z)
    (revealed_at_ledger : Z).
Inductive SourceSlashedEvent :=
  MkSourceSlashedEvent (source : Address) (slash_amount : Z) (remaining_stake : Z)
    (slash_percent : Z).
Inductive CommitWithheldEvent :=
  MkCommitWithheldEvent (asset : Address) (source : Address) (round_ledger : Z)
    (slashed_amount : Z).
Inductive DemeritConfigChangedEvent :=
  MkDemeritConfigChangedEvent (admin : Address) (warning_threshold : Z)
    (probation_threshold : Z) (disqualified_threshold : Z) (cooldown_ledgers : Z).
Inductive InvalidSubmissionEvent :=
  MkInvalidSubmissionEvent (source : Address) (demerits : Z).
Inductive RemovalCooldownChangedEvent :=
  MkRemovalCooldownChangedEvent (value : Z).
Inductive SourceActiveAgainEvent :=
  MkSourceActiveAgainEvent (source : Address) (timestamp : Z).
Inductive SourceAddedEvent :=
  MkSourceAddedEvent (source : Address) (admin : Address) (name : string).
Inductive SourceAssetAddedEvent :=
  MkSourceAssetAddedEvent (source : Address) (asset : Address).
Inductive SourceAssetRemovedEvent :=
  MkSourceAssetRemovedEvent (source : Address) (asset : Address).
Inductive SourceBondConfigChangedEvent :=
  MkSourceBondConfigChangedEvent (admin : Address) (amount : Z).
Inductive SourceBondDepositedEvent :=
  MkSourceBondDepositedEvent (source : Address) (amount : Z).
Inductive SourceBondForfeitedEvent :=
  MkSourceBondForfeitedEvent (source : Address) (amount : Z).
Inductive SourceBondReturnedEvent :=
  MkSourceBondReturnedEvent (source : Address) (amount : Z).
Inductive SourceDemeritsResetEvent :=
  MkSourceDemeritsResetEvent (source : Address) (admin : Address).
Inductive SourceDisqualifiedEvent :=
  MkSourceDisqualifiedEvent (source : Address) (demerits : Z) (status_updated_ledger : Z).
Inductive SourceEnrollmentStartedEvent :=
  MkSourceEnrollmentStartedEvent (source : Address) (admin : Address).
Inductive SourceEvidenceSubmittedEvent :=
  MkSourceEvidenceSubmittedEvent (source : Address).
Inductive SourceGeoUpdatedEvent :=
  MkSourceGeoUpdatedEvent (source : Address) (region : string) (provider : string)
    (jurisdiction : string).
Inductive SourceGovConfigChangedEvent :=
  MkSourceGovConfigChangedEvent (admin : Address) (threshold : Z) (approvers_count : Z).
Inductive SourceHeartbeatEvent :=
  MkSourceHeartbeatEvent (source : Address) (timestamp : Z).
Inductive SourceInactiveEvent :=
  MkSourceInactiveEvent (source : Address) (last_heartbeat : Z).
Inductive SourceKeyRotatedEvent :=
  MkSourceKeyRotatedEvent (old_source : Address) (new_source : Address) (ledger : Z).
Inductive SourceMarkedForRemovalEvent :=
  MkSourceMarkedForRemovalEvent (source : Address) (admin : Address) (eligible_at_ledger : Z).
Inductive SourceProbationEvent :=
  MkSourceProbationEvent (source : Address) (demerits : Z).
Inductive SourceProposalApprovedEvent :=
  MkSourceProposalApprovedEvent (proposal_id : Z) (approver : Address).
Inductive SourceProposalCreatedEvent :=
  MkSourceProposalCreatedEvent (proposal_id : Z) (proposer : Address) (source : Address)
    (name : string).
Inductive SourceProposalExecutedEvent :=
  MkSourceProposalExecutedEvent (proposal_id : Z) (source : Address).
Inductive SourceRemovalCancelledEvent :=
  MkSourceRemovalCancelledEvent (source : Address) (admin : Address).
Inductive SourceRemovedEvent :=
  MkSourceRemovedEvent (source : Address) (admin : Address).
Inductive SourceVerificationSetEvent :=
  MkSourceVerificationSetEvent (source : Address) (verified : bool)
    (verification_method : string) (verifier : Address).
Inductive SourceWarningEvent :=
  MkSourceWarningEvent (source : Address) (demerits : Z).
Inductive SourceHealthChangedEvent :=
  MkSourceHealthChangedEvent (source : Address) (old_status : Z) (new_status : Z)
    (missed_heartbeats : Z).
Inductive SourceAutoRemovedEvent :=
  MkSourceAutoRemovedEvent (source : Address) (inactive_since_ledger : Z)
    (removed_at_ledger : Z) (missed_heartbeats : Z).
Inductive SourceDiversityUpdatedEvent :=
  MkSourceDiversityUpdatedEvent (source : Address) (infra : string) (upstream : string)
    (owner : string).
Inductive ReputationDecayChangedEvent :=
  MkReputationDecayChangedEvent (value : Z).
Inductive SourceReputationUpdatedEvent :=
  MkSourceReputationUpdatedEvent (source : Address) (old_score : Z) (new_score : Z).
Inductive InactiveLedgersChangedEvent :=
  MkInactiveLedgersChangedEvent (value : Z).
Inductive HeartbeatWindowChangedEvent :=
  MkHeartbeatWindowChangedEvent (value : Z).
Inductive AggregationPolicyChangedEvent :=
  MkAggregationPolicyChangedEvent (scope : Z) (asset : option Address) (class : Z)
    (old : option PolicyOverride) (new : option PolicyOverride) (old_class : option Z)
    (new_class : option Z).
Inductive AssetTierChangedEvent :=
  MkAssetTierChangedEvent (asset : Address) (actor : Address) (old_tier : option Z)
    (new_tier : option Z) (reason : string) (ledger : Z).
Inductive PriceClampedEvent :=
  MkPriceClampedEvent (asset : Address) (raw_price : Z) (clamped_price : Z) (reason_code : Z)
    (ledger : Z).
Inductive PriceBoundRejectedEvent :=
  MkPriceBoundRejectedEvent (asset : Address) (raw_price : Z) (reason_code : Z)
    (last_published_price : Z) (ledger : Z).
Inductive FreshnessFilteredEvent :=
  MkFreshnessFilteredEvent (asset : Address) (fresh : Z) (stale : Z) (quorum : Z)
    (window_secs : Z) (overridden : bool) (quorum_met : bool) (measured_at : Z) (ledger : Z).
Inductive AggregateRecomputedEvent :=
  MkAggregateRecomputedEvent (asset : Address) (reason : RecomputeReason) (price : Z)
    (num_sources : Z) (previous_num_sources : Z) (ledger : Z).
Inductive RecomputeDeferredEvent :=
  MkRecomputeDeferredEvent (reason : RecomputeReason) (assets : list Address) (ledger : Z).
Inductive PublicationStateChangedEvent :=
  MkPublicationStateChangedEvent (asset : Address) (state : PublicationState)
    (previous_state : PublicationState) (received : Z) (missing : Z) (quorum : Z) (ledger : Z).
Inductive DqInputRejectedEvent :=
  MkDqInputRejectedEvent (asset : Address) (source : Address) (reason : Z) (value : Z)
    (threshold : Z) (reference : Z).
Inductive DqConfigUpdatedEvent :=
  MkDqConfigUpdatedEvent (asset : Address) (enabled : bool).
Inductive SourceOnboardedEvent :=
  MkSourceOnboardedEvent (source : Address) (identity : Bytes) (probation_until : Z).
Inductive SourceGraduatedEvent :=
  MkSourceGraduatedEvent (source : Address) (bond_amount : Z).
Inductive SourceOffboardedEvent :=
  MkSourceOffboardedEvent (source : Address) (identity : option Bytes) (slashed : bool)
    (assets_revoked : Z).
Inductive EvidenceSlashedEvent :=
  MkEvidenceSlashedEvent (source : Address) (evidence_asset : Address) (submitted_price : Z)
    (aggregate_price : Z) (deviation_bps : Z) (threshold_bps : Z) (bond_forfeited : Z).
Inductive SourceComparisonToggledEvent :=
  MkSourceComparisonToggledEvent (asset : Address) (enabled : bool).
Inductive BlackoutScheduledEvent :=
  MkBlackoutScheduledEvent (asset : Address) (start : Z) (end_ : Z) (origin : Z).
Inductive BlackoutExtendedEvent :=
  MkBlackoutExtendedEvent (asset : Address) (start : Z) (old_end : Z) (new_end : Z).
Inductive BlackoutExitedEvent :=
  MkBlackoutExitedEvent (asset : Address) (start : Z) (end_ : Z) (cancelled : bool).
Inductive BlackoutWithheldEvent :=
  MkBlackoutWithheldEvent (asset : Address) (at_ : Z) (window_end : Z).
Inductive VolatilitySignalEvent :=
  MkVolatilitySignalEvent (asset : Address) (source : Address) (signals : Z) (quorum : Z).
Inductive MaintenanceScheduledEvent :=
  MkMaintenanceScheduledEvent (start : Z) (end_ : Z) (assets : list Address).
Inductive SanityRelationViolatedEvent :=
  MkSanityRelationViolatedEvent (asset : Address) (conflicting_asset : Address) (kind : Z)
    (candidate_price : Z) (reference_price : Z) (magnitude_bps : Z) (tolerance_bps : Z)
    (action : Z) (ledger : Z).
Inductive DepegDeclaredEvent :=
  MkDepegDeclaredEvent (asset : Address) (until_ledger : Z) (reason : string) (ledger : Z).
Inductive SourceScorecardUpdatedEvent :=
  MkSourceScorecardUpdatedEvent (source : Address) (short_samples : Z)
    (short_mean_abs_error_bps : Z) (long_mean_abs_error_bps : Z) (long_hit_rate_bps : Z)
    (long_bias_bps : Z) (cold_start : bool) (samples : list Z) (ledger : Z).
Inductive PriceCorrectedEvent :=
  MkPriceCorrectedEvent (asset : Address) (actor : Address) (reason : string) (old_price : Z)
    (new_price : Z) (revision_index : Z) (ledger : Z) (affects_downstream : bool).
Inductive RoleDelegatedEvent :=
  MkRoleDelegatedEvent (delegator : Address) (delegatee : Address) (role : Z).
Inductive RoleRevokedEvent :=
  MkRoleRevokedEvent (delegator : Address) (delegatee : Address) (role : Z).
Inductive ConsensusRoundEvent :=
  MkConsensusRoundEvent (asset : Address) (round : Z) (kind : Z) (median : Z) (votes : Z).
Inductive RoundEquivocationEvent :=
  MkRoundEquivocationEvent (asset : Address) (source : Address) (round : Z) (kept_price : Z)
    (rejected_price : Z) (lifetime_count : Z).
Inductive BreakerTrippedEvent :=
  MkBreakerTrippedEvent (asset : Address) (deviation_bps : Z) (trip_bps : Z) (clear_bps : Z)
    (ledger : Z).
Inductive BreakerRearmAttemptEvent :=
  MkBreakerRearmAttemptEvent (asset : Address) (deviation_bps : Z) (settle_ledgers : Z)
    (required_ledgers : Z) (source_recovered : bool) (rearmed : bool) (ledger : Z).
Inductive BreakerRearmedEvent :=
  MkBreakerRearmedEvent (asset : Address) (deviation_bps : Z) (settled_for_ledgers : Z)
    (ledger : Z).
Inductive BreakerEscalatedEvent :=
  MkBreakerEscalatedEvent (asset : Address) (open_ledgers : Z) (max_open_ledgers : Z)
    (ledger : Z).
Inductive DeadManWarningEvent :=
  MkDeadManWarningEvent (elapsed_secs : Z) (trigger_after : Z) (last_heartbeat : Z).
Inductive DeadManTriggeredEvent :=
  MkDeadManTriggeredEvent (elapsed_secs : Z) (trigger_after : Z) (last_heartbeat : Z).
Inductive DeadManRecoveredEvent :=
  MkDeadManRecoveredEvent (guardian : Address).
Inductive GuardiansSetEvent :=
  MkGuardiansSetEvent (admin : Address) (guardian_count : Z) (threshold : Z).
Inductive RecoveryApprovedEvent :=
  MkRecoveryApprovedEvent (guardian : Address) (new_admin : Address) (approval_count : Z)
    (threshold : Z).
Inductive RecoveryCancelledEvent :=
  MkRecoveryCancelledEvent (admin : Address) (new_admin : Address).
Inductive RecoveryExecutedEvent :=
  MkRecoveryExecutedEvent (old_admin : Address) (new_admin : Address).
Inductive RecoveryReadyEvent :=
  MkRecoveryReadyEvent (new_admin : Address) (ready_ledger : Z) (execute_after_ledger : Z).
Inductive EmergencyPausedEvent :=
  MkEmergencyPausedEvent (admin : Address) (auto_unpause_ledger : Z) (reason : string)
    (initiated_by : Address).
Inductive EmergencyPauseExtendedEvent :=
  MkEmergencyPauseExtendedEvent (admin : Address) (new_unpause_ledger : Z) (reason : string)
    (extended_by : Address).
Inductive EmergencyUnpausedEvent :=
  MkEmergencyUnpausedEvent (admin : Address) (reason : string) (cancelled_by : Address).
Inductive SubmissionKeyRegisteredEvent :=
  MkSubmissionKeyRegisteredEvent (source : Address) (public_key : Bytes).
Inductive PriceSubmittedWithProofEvent :=
  MkPriceSubmittedWithProofEvent (asset : Address) (source : Address) (price : Z)
    (timestamp : Z) (nonce : Z).
Inductive PriceProposalCreatedEvent :=
  MkPriceProposalCreatedEvent (asset : Address) (proposer : Address) (proposal_id : Z)
    (price : Z) (timestamp : Z) (bond_amount : Z) (expires_at_ledger : Z).
Inductive PriceProposalDisputedEvent :=
  MkPriceProposalDisputedEvent (proposal_id : Z) (disputer : Address) (bond_amount : Z).
Inductive PriceProposalResolvedEvent :=
  MkPriceProposalResolvedEvent (proposal_id : Z) (approved : bool) (finalized : bool).
Inductive ExternalDataResolvedEvent :=
  MkExternalDataResolvedEvent (proposal_id : Z) (external_price : Z) (resolver : Address).
Inductive ChallengePricedEvent :=
  MkChallengePricedEvent (asset : Address) (challenger : Address) (challenge_id : Z)
    (expected_price : Z) (challenged_ledger : Z).
Inductive ChallengeResolvedEvent :=
  MkChallengeResolvedEvent (asset : Address) (challenge_id : Z) (is_valid : bool)
    (reward_amount : Z) (resolved_by : Address).
Inductive RewardsClaimedEvent :=
  MkRewardsClaimedEvent (claimer : Address) (amount : Z).
Inductive RelayerAddedEvent :=
  MkRelayerAddedEvent (relayer : Address) (admin : Address) (name : string).
Inductive RelayerRemovedEvent :=
  MkRelayerRemovedEvent (relayer : Address) (admin : Address).
Inductive PriceRelayedEvent :=
  MkPriceRelayedEvent (asset : Address) (source : Address) (relayer : Address) (price : Z)
    (timestamp : Z).
Inductive BatchPriceRelayedEvent :=
  MkBatchPriceRelayedEvent (relayer : Address) (submission_count : Z) (total_priority_fee : Z).
Inductive RelayerBondDepositedEvent :=
  MkRelayerBondDepositedEvent (relayer : Address) (amount : Z) (total_deposited : Z).
Inductive RelayerBondWithdrawnEvent :=
  MkRelayerBondWithdrawnEvent (relayer : Address) (amount : Z).
Inductive RelayerFailureRecordedEvent :=
  MkRelayerFailureRecordedEvent (relayer : Address) (reason : Z) (failure_count : Z).
Inductive RelayerSlashedEvent :=
  MkRelayerSlashedEvent (relayer : Address) (slash_amount : Z) (remaining_bond : Z)
    (slash_percent : Z).
Inductive SourceStakedEvent :=
  MkSourceStakedEvent (source : Address) (amount : Z) (total_stake : Z).
Inductive SourceUnstakedEvent :=
  MkSourceUnstakedEvent (source : Address) (amount_returned : Z).
Inductive PriceDeviationVerifiedEvent :=
  MkPriceDeviationVerifiedEvent (price_a : Z) (price_b : Z) (deviation_bps : Z)
    (max_deviation_bps : Z) (within_tolerance : bool).
Inductive CrossOracleDeviationEvent :=
  MkCrossOracleDeviationEvent (asset : Address) (oracle_price : Z) (reference_price : Z)
    (deviation_bps : Z) (max_deviation_bps : Z) (within_tolerance : bool).

(** An emitted event; the structs coerce into it.  The last ones are the
    events the code publishes by topic tuple rather than by struct. *)
Inductive Event :=
  | of_PriceSubmittedEvent :> PriceSubmittedEvent → Event
  | of_AdminChangedEvent :> AdminChangedEvent → Event
  | of_AggCooldownChangedEvent :> AggCooldownChangedEvent → Event
  | of_AggregationMethodChangedEvent :> AggregationMethodChangedEvent → Event
  | of_AssetResolutionSetEvent :> AssetResolutionSetEvent → Event
  | of_ContractUpgradedEvent :> ContractUpgradedEvent → Event
  | of_DecimalsChangedEvent :> DecimalsChangedEvent → Event
  | of_DescriptionChangedEvent :> DescriptionChangedEvent → Event
  | of_DisputeWindowChangedEvent :> DisputeWindowChangedEvent → Event
  | of_EventsPerCallChangedEvent :> EventsPerCallChangedEvent → Event
  | of_HeartbeatIntervalChangedEvent :> HeartbeatIntervalChangedEvent → Event
  | of_HistoryPerAssetChangedEvent :> HistoryPerAssetChangedEvent → Event
  | of_InterpolationChangedEvent :> InterpolationChangedEvent → Event
  | of_MaxAggSourcesChangedEvent :> MaxAggSourcesChangedEvent → Event
  | of_MaxHistoryChangedEvent :> MaxHistoryChangedEvent → Event
  | of_MaxSourcesChangedEvent :> MaxSourcesChangedEvent → Event
  | of_MinSourcesChangedEvent :> MinSourcesChangedEvent → Event
  | of_OptimisticBondChangedEvent :> OptimisticBondChangedEvent → Event
  | of_QueryRateLimitChangedEvent :> QueryRateLimitChangedEvent → Event
  | of_ResolutionChangedEvent :> ResolutionChangedEvent → Event
  | of_SubmitIntervalChangedEvent :> SubmitIntervalChangedEvent → Event
  | of_ConfigRolledBackEvent :> ConfigRolledBackEvent → Event
  | of_ConfigSnapshotTakenEvent :> ConfigSnapshotTakenEvent → Event
  | of_ContractPausedEvent :> ContractPausedEvent → Event
  | of_ContractUnpausedEvent :> ContractUnpausedEvent → Event
  | of_AssetMetadataUpdatedEvent :> AssetMetadataUpdatedEvent → Event
  | of_AssetRegisteredEvent :> AssetRegisteredEvent → Event
  | of_AssetUnregisteredEvent :> AssetUnregisteredEvent → Event
  | of_CircuitBreakerResetEvent :> CircuitBreakerResetEvent → Event
  | of_CircuitBreakerTrippedEvent :> CircuitBreakerTrippedEvent → Event
  | of_MsGovernorsRotatedEvent :> MsGovernorsRotatedEvent → Event
  | of_MsGovernorsUpdatedEvent :> MsGovernorsUpdatedEvent → Event
  | of_MsOperationApprovedEvent :> MsOperationApprovedEvent → Event
  | of_MsOperationCancelledEvent :> MsOperationCancelledEvent → Event
  | of_MsOperationExecutedEvent :> MsOperationExecutedEvent → Event
  | of_MsOperationProposedEvent :> MsOperationProposedEvent → Event
  | of_MsOperationRetractedEvent :> MsOperationRetractedEvent → Event
  | of_MsQuorumReachedEvent :> MsQuorumReachedEvent → Event
  | of_BatchCancelledEvent :> BatchCancelledEvent → Event
  | of_BatchExecutedEvent :> BatchExecutedEvent → Event
  | of_BatchProposedEvent :> BatchProposedEvent → Event
  | of_OperationCancelledEvent :> OperationCancelledEvent → Event
  | of_OperationExecutedEvent :> OperationExecutedEvent → Event
  | of_OperationProposedEvent :> OperationProposedEvent → Event
  | of_PriorityDelayChangedEvent :> PriorityDelayChangedEvent → Event
  | of_AdminAuditEntryAppendedEvent :> AdminAuditEntryAppendedEvent → Event
  | of_PriceFrozenEvent :> PriceFrozenEvent → Event
  | of_PriceUnfrozenEvent :> PriceUnfrozenEvent → Event
  | of_OutlierConfigChangedEvent :> OutlierConfigChangedEvent → Event
  | of_OutlierExcludedEvent :> OutlierExcludedEvent → Event
  | of_CorrelationBandSetEvent :> CorrelationBandSetEvent → Event
  | of_CorrelationPriceFlaggedEvent :> CorrelationPriceFlaggedEvent → Event
  | of_CorrelationViolationEvent :> CorrelationViolationEvent → Event
  | of_AnomalyExplainedEvent :> AnomalyExplainedEvent → Event
  | of_SubmissionLatencyEvent :> SubmissionLatencyEvent → Event
  | of_SubmissionNeverCountedEvent :> SubmissionNeverCountedEvent → Event
  | of_ProvenanceRecordedEvent :> ProvenanceRecordedEvent → Event
  | of_DisagreementIndexEvent :> DisagreementIndexEvent → Event
  | of_StorageTierChangedEvent :> StorageTierChangedEvent → Event
  | of_StorageTierMigratedEvent :> StorageTierMigratedEvent → Event
  | of_WeightedAggregationEvent :> WeightedAggregationEvent → Event
  | of_InfluenceCapAppliedEvent :> InfluenceCapAppliedEvent → Event
  | of_ConfidenceBandEvent :> ConfidenceBandEvent → Event
  | of_AggregationTriggeredEvent :> AggregationTriggeredEvent → Event
  | of_EventLimitWarningEvent :> EventLimitWarningEvent → Event
  | of_HistoryPerAssetPrunedEvent :> HistoryPerAssetPrunedEvent → Event
  | of_HistoryPrunedEvent :> HistoryPrunedEvent → Event
  | of_PriceAggregatedEvent :> PriceAggregatedEvent → Event
  | of_PriceOverrideExpiredEvent :> PriceOverrideExpiredEvent → Event
  | of_PriceOverrideRemovedEvent :> PriceOverrideRemovedEvent → Event
  | of_PriceOverrideSetEvent :> PriceOverrideSetEvent → Event
  | of_PriceStaleEvent :> PriceStaleEvent → Event
  | of_RateLimitExceededEvent :> RateLimitExceededEvent → Event
  | of_SourceNonCompliantEvent :> SourceNonCompliantEvent → Event
  | of_SourcesInsufficientEvent :> SourcesInsufficientEvent → Event
  | of_AutoTriggerFiredEvent :> AutoTriggerFiredEvent → Event
  | of_TriggerConfigChangedEvent :> TriggerConfigChangedEvent → Event
  | of_DegradedReadEvent :> DegradedReadEvent → Event
  | of_ScheduleRemovedEvent :> ScheduleRemovedEvent → Event
  | of_CommitWindowChangedEvent :> CommitWindowChangedEvent → Event
  | of_RevealWindowChangedEvent :> RevealWindowChangedEvent → Event
  | of_PriceCommittedEvent :> PriceCommittedEvent → Event
  | of_PriceRevealedEvent :> PriceRevealedEvent → Event
  | of_SourceSlashedEvent :> SourceSlashedEvent → Event
  | of_CommitWithheldEvent :> CommitWithheldEvent → Event
  | of_DemeritConfigChangedEvent :> DemeritConfigChangedEvent → Event
  | of_InvalidSubmissionEvent :> InvalidSubmissionEvent → Event
  | of_RemovalCooldownChangedEvent :> RemovalCooldownChangedEvent → Event
  | of_SourceActiveAgainEvent :> SourceActiveAgainEvent → Event
  | of_SourceAddedEvent :> SourceAddedEvent → Event
  | of_SourceAssetAddedEvent :> SourceAssetAddedEvent → Event
  | of_SourceAssetRemovedEvent :> SourceAssetRemovedEvent → Event
  | of_SourceBondConfigChangedEvent :> SourceBondConfigChangedEvent → Event
  | of_SourceBondDepositedEvent :> SourceBondDepositedEvent → Event
  | of_SourceBondForfeitedEvent :> SourceBondForfeitedEvent → Event
  | of_SourceBondReturnedEvent :> SourceBondReturnedEvent → Event
  | of_SourceDemeritsResetEvent :> SourceDemeritsResetEvent → Event
  | of_SourceDisqualifiedEvent :> SourceDisqualifiedEvent → Event
  | of_SourceEnrollmentStartedEvent :> SourceEnrollmentStartedEvent → Event
  | of_SourceEvidenceSubmittedEvent :> SourceEvidenceSubmittedEvent → Event
  | of_SourceGeoUpdatedEvent :> SourceGeoUpdatedEvent → Event
  | of_SourceGovConfigChangedEvent :> SourceGovConfigChangedEvent → Event
  | of_SourceHeartbeatEvent :> SourceHeartbeatEvent → Event
  | of_SourceInactiveEvent :> SourceInactiveEvent → Event
  | of_SourceKeyRotatedEvent :> SourceKeyRotatedEvent → Event
  | of_SourceMarkedForRemovalEvent :> SourceMarkedForRemovalEvent → Event
  | of_SourceProbationEvent :> SourceProbationEvent → Event
  | of_SourceProposalApprovedEvent :> SourceProposalApprovedEvent → Event
  | of_SourceProposalCreatedEvent :> SourceProposalCreatedEvent → Event
  | of_SourceProposalExecutedEvent :> SourceProposalExecutedEvent → Event
  | of_SourceRemovalCancelledEvent :> SourceRemovalCancelledEvent → Event
  | of_SourceRemovedEvent :> SourceRemovedEvent → Event
  | of_SourceVerificationSetEvent :> SourceVerificationSetEvent → Event
  | of_SourceWarningEvent :> SourceWarningEvent → Event
  | of_SourceHealthChangedEvent :> SourceHealthChangedEvent → Event
  | of_SourceAutoRemovedEvent :> SourceAutoRemovedEvent → Event
  | of_SourceDiversityUpdatedEvent :> SourceDiversityUpdatedEvent → Event
  | of_ReputationDecayChangedEvent :> ReputationDecayChangedEvent → Event
  | of_SourceReputationUpdatedEvent :> SourceReputationUpdatedEvent → Event
  | of_InactiveLedgersChangedEvent :> InactiveLedgersChangedEvent → Event
  | of_HeartbeatWindowChangedEvent :> HeartbeatWindowChangedEvent → Event
  | of_AggregationPolicyChangedEvent :> AggregationPolicyChangedEvent → Event
  | of_AssetTierChangedEvent :> AssetTierChangedEvent → Event
  | of_PriceClampedEvent :> PriceClampedEvent → Event
  | of_PriceBoundRejectedEvent :> PriceBoundRejectedEvent → Event
  | of_FreshnessFilteredEvent :> FreshnessFilteredEvent → Event
  | of_AggregateRecomputedEvent :> AggregateRecomputedEvent → Event
  | of_RecomputeDeferredEvent :> RecomputeDeferredEvent → Event
  | of_PublicationStateChangedEvent :> PublicationStateChangedEvent → Event
  | of_DqInputRejectedEvent :> DqInputRejectedEvent → Event
  | of_DqConfigUpdatedEvent :> DqConfigUpdatedEvent → Event
  | of_SourceOnboardedEvent :> SourceOnboardedEvent → Event
  | of_SourceGraduatedEvent :> SourceGraduatedEvent → Event
  | of_SourceOffboardedEvent :> SourceOffboardedEvent → Event
  | of_EvidenceSlashedEvent :> EvidenceSlashedEvent → Event
  | of_SourceComparisonToggledEvent :> SourceComparisonToggledEvent → Event
  | of_BlackoutScheduledEvent :> BlackoutScheduledEvent → Event
  | of_BlackoutExtendedEvent :> BlackoutExtendedEvent → Event
  | of_BlackoutExitedEvent :> BlackoutExitedEvent → Event
  | of_BlackoutWithheldEvent :> BlackoutWithheldEvent → Event
  | of_VolatilitySignalEvent :> VolatilitySignalEvent → Event
  | of_MaintenanceScheduledEvent :> MaintenanceScheduledEvent → Event
  | of_SanityRelationViolatedEvent :> SanityRelationViolatedEvent → Event
  | of_DepegDeclaredEvent :> DepegDeclaredEvent → Event
  | of_SourceScorecardUpdatedEvent :> SourceScorecardUpdatedEvent → Event
  | of_PriceCorrectedEvent :> PriceCorrectedEvent → Event
  | of_RoleDelegatedEvent :> RoleDelegatedEvent → Event
  | of_RoleRevokedEvent :> RoleRevokedEvent → Event
  | of_ConsensusRoundEvent :> ConsensusRoundEvent → Event
  | of_RoundEquivocationEvent :> RoundEquivocationEvent → Event
  | of_BreakerTrippedEvent :> BreakerTrippedEvent → Event
  | of_BreakerRearmAttemptEvent :> BreakerRearmAttemptEvent → Event
  | of_BreakerRearmedEvent :> BreakerRearmedEvent → Event
  | of_BreakerEscalatedEvent :> BreakerEscalatedEvent → Event
  | of_DeadManWarningEvent :> DeadManWarningEvent → Event
  | of_DeadManTriggeredEvent :> DeadManTriggeredEvent → Event
  | of_DeadManRecoveredEvent :> DeadManRecoveredEvent → Event
  | of_GuardiansSetEvent :> GuardiansSetEvent → Event
  | of_RecoveryApprovedEvent :> RecoveryApprovedEvent → Event
  | of_RecoveryCancelledEvent :> RecoveryCancelledEvent → Event
  | of_RecoveryExecutedEvent :> RecoveryExecutedEvent → Event
  | of_RecoveryReadyEvent :> RecoveryReadyEvent → Event
  | of_EmergencyPausedEvent :> EmergencyPausedEvent → Event
  | of_EmergencyPauseExtendedEvent :> EmergencyPauseExtendedEvent → Event
  | of_EmergencyUnpausedEvent :> EmergencyUnpausedEvent → Event
  | of_SubmissionKeyRegisteredEvent :> SubmissionKeyRegisteredEvent → Event
  | of_PriceSubmittedWithProofEvent :> PriceSubmittedWithProofEvent → Event
  | of_PriceProposalCreatedEvent :> PriceProposalCreatedEvent → Event
  | of_PriceProposalDisputedEvent :> PriceProposalDisputedEvent → Event
  | of_PriceProposalResolvedEvent :> PriceProposalResolvedEvent → Event
  | of_ExternalDataResolvedEvent :> ExternalDataResolvedEvent → Event
  | of_ChallengePricedEvent :> ChallengePricedEvent → Event
  | of_ChallengeResolvedEvent :> ChallengeResolvedEvent → Event
  | of_RewardsClaimedEvent :> RewardsClaimedEvent → Event
  | of_RelayerAddedEvent :> RelayerAddedEvent → Event
  | of_RelayerRemovedEvent :> RelayerRemovedEvent → Event
  | of_PriceRelayedEvent :> PriceRelayedEvent → Event
  | of_BatchPriceRelayedEvent :> BatchPriceRelayedEvent → Event
  | of_RelayerBondDepositedEvent :> RelayerBondDepositedEvent → Event
  | of_RelayerBondWithdrawnEvent :> RelayerBondWithdrawnEvent → Event
  | of_RelayerFailureRecordedEvent :> RelayerFailureRecordedEvent → Event
  | of_RelayerSlashedEvent :> RelayerSlashedEvent → Event
  | of_SourceStakedEvent :> SourceStakedEvent → Event
  | of_SourceUnstakedEvent :> SourceUnstakedEvent → Event
  | of_PriceDeviationVerifiedEvent :> PriceDeviationVerifiedEvent → Event
  | of_CrossOracleDeviationEvent :> CrossOracleDeviationEvent → Event
  | AdminActionEvent (action : string) (admin : Address) (data : Bytes)
  | EmergencyCouncilEvent (council : Address) (expires_at : Z)
  | EmergencyActionEvent (action : Z) (council : Address) (now : Z) (deadline : Z) (payload : Bytes)
  | EmergencyRatifyEvent (action : Z) (approved : bool) (admin : Address)
  | EmergencyEscalateEvent (action : Z) (actor : Address) (deadline : Z)
  | InitializedEvent (admin : Address) (min_sources : Z) (max_history : Z) (decimals : Z) (description : string)
  | TimestampThresholdChanged (admin : Address) (value : Z)
  | MaxPriceDeviationChanged (admin : Address) (value : Z)
  | WasmUpdated (new_wasm_hash : Bytes)
  | ContribQualityEvent (source : Address) (asset : Address) (round_score : Z) (new_avg : Z) (rounds_counted : Z)
  | CallbackRegisteredEvent (asset : Address) (consumer : Address)
  | CallbackUnregisteredEvent (asset : Address) (consumer : Address)
  | CallbackFailedEvent (asset : Address) (consumer : Address) (price : Z) (timestamp : Z)
  | ScheduleRegisteredEvent (source : Address) (asset : Address) (kind : Z) (interval : Z) (deadline_multiplier : Z)
  | ScheduleViolationEvent (source : Address) (asset : Address) (expected_interval : Z) (actual_gap : Z) (kind_code : Z)
  | TokenTransfer (token : Address) (from : Address) (to : Address) (amount : Z)
  | RelayerFeeSet (admin : Address) (fee : Z)
  | RelayerBondConfigChanged (admin : Address) (amount : Z)
  | PriceFreshnessVerified (asset : Address) (is_fresh : bool) (max_age : Z) (price_age : Z)
  | ChannelOpened (source : Address) (deposit : Z) (dispute_timeout : Z)
  | ChannelBatch (source : Address) (nonce : Z) (price : Z) (timestamp : Z)
  | ChannelClosed (source : Address) (nonce : Z) (remaining : Z)
  | ChannelDisputed (source : Address) (nonce : Z) (price : Z) (timestamp : Z).
