(* ===== verification/Host.v ===== *)
(** * The Soroban host as the contract uses it

    An invocation runs in a context (ledger sequence and timestamp, the
    addresses that authorised the call, the contract's own address) against a
    world (the persistent and temporary stores, the feature-flag word of the
    instance store, the emitted events).  Contract code is written in the
    state-and-failure monad [M]: a failing call is an [Err] and the host
    discards everything it did ([invoke]).

    The stores are dependently typed maps: the key decides the type of the
    value ([Types.ty_of]).  Entry lifetimes are not modelled; [extend_ttl] keeps
    the one effect the code can observe, the trap on a missing entry. *)
From stdpp Require Import base list strings.
From S2P Require Import Prelude Machine Types.
#[local] Open Scope Z_scope.
#[local] Set Default Goal Selector "!".

(** ** Typed stores *)

Definition Store : Type := ∀ k : DataKey, option (interp (ty_of k)).

Definition empty_store : Store := λ _, None.

Definition cast {t t'} (e : t = t') (v : option (interp t)) : option (interp t') :=
  match e in _ = t' return option (interp t') with eq_refl => v end.

Definition store_put (k : DataKey) (v : option (interp (ty_of k))) (s : Store) : Store :=
  λ k', if decide (k = k') then
          match ty_eq (ty_of k) (ty_of k') with Some e => cast e v | None => None end
        else s k'.

Lemma store_put_eq k v s : store_put k v s k = v.
Proof. unfold store_put. rewrite decide_True by done. by rewrite ty_eq_refl. Qed.

Lemma store_put_ne k k' v s : k ≠ k' → store_put k v s k' = s k'.
Proof. intros Hk. unfold store_put. by rewrite decide_False. Qed.

(** ** Context, world and the invocation monad *)

Record Ctx := MkCtx {
  sequence : Z;
  timestamp : Z;
  authorized : Address → bool;
  current_contract : Address
}.

Record World := MkWorld {
  persistent : Store;
  temporary : Store;
  instance_flags : option Z;
  events : list Event
}.

Definition empty_world : World := MkWorld empty_store empty_store None [].

Definition put_persistent k v (w : World) : World :=
  MkWorld (store_put k v (persistent w)) (temporary w) (instance_flags w) (events w).
Definition put_temporary k v (w : World) : World :=
  MkWorld (persistent w) (store_put k v (temporary w)) (instance_flags w) (events w).
Definition put_flags v (w : World) : World :=
  MkWorld (persistent w) (temporary w) v (events w).
Definition add_event e (w : World) : World :=
  MkWorld (persistent w) (temporary w) (instance_flags w) (events w ++ [e]).

#[global] Arguments put_persistent : simpl never.
#[global] Arguments put_temporary : simpl never.

(** Why a call fails: a Rust panic or host trap, a missing authorisation, or
    [panic_with_error!]. *)
Inductive Failure :=
  | Panic
  | AuthFailed
  | Error (e : ErrorCode).

Inductive Result (A : Type) :=
  | Ok (a : A) (w : World)
  | Err (f : Failure).
Arguments Ok {A} a w.
Arguments Err {A} f.

Definition M (A : Type) : Type := Ctx → World → Result A.

#[export] Instance M_ret : MRet M := λ A a _ w, Ok a w.
#[export] Instance M_bind : MBind M := λ A B f m c w,
  match m c w with Ok a w1 => f a c w1 | Err e => Err e end.
#[export] Instance M_fmap : FMap M := λ A B f m, a ← m; mret (f a).

(** What the host keeps of a call: everything on success, nothing on failure. *)
Definition invoke {A} (m : M A) (c : Ctx) (w : World) : World :=
  match m c w with Ok _ w' => w' | Err _ => w end.

Definition fail {A} (f : Failure) : M A := λ _ _, Err f.
Definition panic {A} : M A := fail Panic.
Definition panic_with_error {A} (e : ErrorCode) : M A := fail (Error e).
Definition panic_if (b : bool) (e : ErrorCode) : M unit :=
  if b then panic_with_error e else mret tt.
(** Arithmetic and indexing that may panic. *)
Definition lift {A} (o : option A) : M A :=
  match o with Some a => mret a | None => panic end.

Definition ledger_sequence : M Z := λ c w, Ok (sequence c) w.
Definition ledger_timestamp : M Z := λ c w, Ok (timestamp c) w.
Definition contract_address : M Address := λ c w, Ok (current_contract c) w.
Definition require_auth (a : Address) : M unit := λ c w,
  if authorized c a then Ok tt w else Err AuthFailed.
Definition publish (e : Event) : M unit := λ _ w, Ok tt (add_event e w).

Definition get k : M (option (interp (ty_of k))) := λ _ w, Ok (persistent w k) w.
Definition has k : M bool := λ _ w, Ok (bool_decide (is_Some (persistent w k))) w.
Definition set k (v : interp (ty_of k)) : M unit := λ _ w, Ok tt (put_persistent k (Some v) w).
Definition remove k : M unit := λ _ w, Ok tt (put_persistent k None w).
Definition extend_ttl k : M unit := λ _ w,
  match persistent w k with Some _ => Ok tt w | None => Err Panic end.

Definition get_temporary k : M (option (interp (ty_of k))) := λ _ w, Ok (temporary w k) w.
Definition has_temporary k : M bool := λ _ w, Ok (bool_decide (is_Some (temporary w k))) w.
Definition set_temporary k (v : interp (ty_of k)) : M unit :=
  λ _ w, Ok tt (put_temporary k (Some v) w).
Definition remove_temporary k : M unit := λ _ w, Ok tt (put_temporary k None w).
Definition extend_ttl_temporary k : M unit := λ _ w,
  match temporary w k with Some _ => Ok tt w | None => Err Panic end.

(** The one entry of the instance store, the feature-flag word. *)
Definition get_flags : M (option Z) := λ _ w, Ok (instance_flags w) w.
Definition set_flags (v : Z) : M unit := λ _ w, Ok tt (put_flags (Some v) w).

(** [get(&key).unwrap_or(d)] and [get(&key).unwrap()]. *)
Definition get_or k (d : interp (ty_of k)) : M (interp (ty_of k)) :=
  λ _ w, Ok (default d (persistent w k)) w.
Definition get_temporary_or k (d : interp (ty_of k)) : M (interp (ty_of k)) :=
  λ _ w, Ok (default d (temporary w k)) w.
Definition get_unwrap k : M (interp (ty_of k)) := v ← get k; lift v.

(** The access pattern of every configuration getter: bump the lifetime when
    the entry is there, then read it with a default. *)
Definition get_bump_or k (d : interp (ty_of k)) : M (interp (ty_of k)) :=
  b ← has k;
  (if b : bool then extend_ttl k else mret tt);;
  get_or k d.

(** Two more idioms: a read that bumps the lifetime of an entry it finds, and
    a write followed by [extend_ttl]. *)
Definition get_touch k : M (option (interp (ty_of k))) :=
  v ← get k;
  match v with Some _ => extend_ttl k | None => mret tt end;;
  mret v.
Definition put k (v : interp (ty_of k)) : M unit := set k v;; extend_ttl k.

(** [for x in xs { body }] and a loop that accumulates. *)
Fixpoint for_each {A} (xs : list A) (body : A → M unit) : M unit :=
  match xs with
  | [] => mret tt
  | x :: rest => body x;; for_each rest body
  end.
Fixpoint fold_m {A B} (body : B → A → M B) (acc : B) (xs : list A) : M B :=
  match xs with
  | [] => mret acc
  | x :: rest => acc ← body acc x; fold_m body acc rest
  end.

(** ** Running code

    Rewriting rules that execute a call step by step, collected in
    [oracle_rw]. *)

Lemma run_bind {A B} (m : M A) (f : A → M B) c w :
  (m ≫= f) c w = match m c w with Ok a w1 => f a c w1 | Err e => Err e end.
Proof. done. Qed.

Lemma bind_Ok {A B} (m : M A) (f : A → M B) c w b w' :
  (m ≫= f) c w = Ok b w' ↔ ∃ a w1, m c w = Ok a w1 ∧ f a c w1 = Ok b w'.
Proof.
  rewrite run_bind. destruct (m c w) as [a w1|e]; split.
  - intros H. by exists a, w1.
  - by intros (? & ? & [= -> ->] & H).
  - done.
  - by intros (? & ? & ? & ?).
Qed.

Lemma run_require_auth a c w : authorized c a = true → require_auth a c w = Ok tt w.
Proof. intros H. unfold require_auth. by rewrite H. Qed.

Lemma run_get_bump_or k d c w : get_bump_or k d c w = Ok (default d (persistent w k)) w.
Proof.
  unfold get_bump_or. rewrite !run_bind. unfold has, extend_ttl, get_or.
  destruct (persistent w k) eqn:E; simpl; by rewrite run_bind, ?E; simpl; rewrite ?E.
Qed.

Lemma run_panic_if b e c w : panic_if b e c w = if b then Err (Error e) else Ok tt w.
Proof. by destruct b. Qed.

Lemma run_if {A} (b : bool) (m1 m2 : M A) c w :
  (if b then m1 else m2) c w = if b then m1 c w else m2 c w.
Proof. by destruct b. Qed.

Lemma persistent_put_eq k v w : persistent (put_persistent k v w) k = v.
Proof. apply store_put_eq. Qed.

Lemma persistent_put_ne k k' v w : k ≠ k' → persistent (put_persistent k v w) k' = persistent w k'.
Proof. apply store_put_ne. Qed.

Lemma persistent_put_temporary k v w : persistent (put_temporary k v w) = persistent w.
Proof. done. Qed.

Lemma temporary_put_persistent k v w : temporary (put_persistent k v w) = temporary w.
Proof. done. Qed.

Lemma flags_put_persistent k v w : instance_flags (put_persistent k v w) = instance_flags w.
Proof. done. Qed.

Lemma events_put_persistent k v w : events (put_persistent k v w) = events w.
Proof. done. Qed.

Lemma temporary_put_eq k v w : temporary (put_temporary k v w) k = v.
Proof. apply store_put_eq. Qed.

Lemma temporary_put_ne k k' v w : k ≠ k' → temporary (put_temporary k v w) k' = temporary w k'.
Proof. apply store_put_ne. Qed.

Lemma run_extend_ttl k v c w : persistent w k = Some v → extend_ttl k c w = Ok tt w.
Proof. intros E. unfold extend_ttl. by rewrite E. Qed.

Lemma run_extend_put k v c w :
  extend_ttl k c (put_persistent k (Some v) w) = Ok tt (put_persistent k (Some v) w).
Proof. eapply run_extend_ttl, persistent_put_eq. Qed.

Lemma run_set k v c w : set k v c w = Ok tt (put_persistent k (Some v) w).
Proof. done. Qed.
Lemma run_remove k c w : remove k c w = Ok tt (put_persistent k None w).
Proof. done. Qed.
Lemma run_get k c w : get k c w = Ok (persistent w k) w.
Proof. done. Qed.
Lemma run_get_or k d c w : get_or k d c w = Ok (default d (persistent w k)) w.
Proof. done. Qed.
Lemma run_get_or_as k d v c w : default d (persistent w k) = v → get_or k d c w = Ok v w.
Proof. by intros <-. Qed.
Lemma run_get_touch k c w : get_touch k c w = Ok (persistent w k) w.
Proof.
  unfold get_touch. rewrite run_bind. unfold get. rewrite run_bind. unfold extend_ttl.
  by destruct (persistent w k) eqn:E; rewrite ?E.
Qed.
Lemma run_put k v c w : put k v c w = Ok tt (put_persistent k (Some v) w).
Proof. unfold put. rewrite run_bind. unfold set, extend_ttl. by rewrite persistent_put_eq. Qed.
Lemma run_publish e c w : publish e c w = Ok tt (add_event e w).
Proof. done. Qed.
Lemma run_ret {A} (a : A) c w : (mret a : M A) c w = Ok a w.
Proof. done. Qed.
Lemma run_sequence c w : ledger_sequence c w = Ok (sequence c) w.
Proof. done. Qed.
Lemma run_timestamp c w : ledger_timestamp c w = Ok (timestamp c) w.
Proof. done. Qed.

#[export] Hint Rewrite run_extend_put run_set run_remove run_get run_get_or run_publish @run_ret
  run_sequence run_timestamp run_get_touch run_put : oracle_rw.
#[export] Hint Rewrite @run_bind run_get_bump_or run_panic_if @run_if
  persistent_put_eq temporary_put_eq : oracle_rw.

(** Executes what the rules cover. *)
Ltac run := repeat (progress (autorewrite with oracle_rw; cbn [lift])).

(** Reads through writes to other keys; components add their own rules to
    [read_store_extra]. *)
Ltac read_store_extra := fail.
Ltac keys_differ := first [discriminate | congruence | done].
Ltac read_store :=
  cbn [persistent temporary instance_flags events add_event put_flags];
  repeat (match goal with
    | |- context [persistent (put_persistent ?k ?v ?w) ?k'] =>
        first [ constr_eq k k'; rewrite (persistent_put_eq k v w)
              | rewrite (persistent_put_ne k k' v w) by keys_differ
              | unify k k';
                change (persistent (put_persistent k v w) k')
                  with (persistent (put_persistent k v w) k);
                rewrite (persistent_put_eq k v w) ]
    | |- context [temporary (put_temporary ?k ?v ?w) ?k'] =>
        first [ constr_eq k k'; rewrite (temporary_put_eq k v w)
              | rewrite (temporary_put_ne k k' v w) by keys_differ
              | unify k k';
                change (temporary (put_temporary k v w) k')
                  with (temporary (put_temporary k v w) k);
                rewrite (temporary_put_eq k v w) ]
    | |- context [persistent (put_temporary ?k ?v ?w)] =>
        rewrite (persistent_put_temporary k v w)
    | |- context [temporary (put_persistent ?k ?v ?w)] =>
        rewrite (temporary_put_persistent k v w)
    | |- context [instance_flags (put_persistent ?k ?v ?w)] =>
        rewrite (flags_put_persistent k v w)
    | |- context [events (put_persistent ?k ?v ?w)] => rewrite (events_put_persistent k v w)
    | _ => read_store_extra
    end; cbn [persistent temporary instance_flags events add_event put_flags]).

(** Inverts a successful run: every bind is split, every guard becomes a fact. *)
Ltac ok_inv :=
  repeat match goal with
  | H : (_ ≫= _) _ _ = Ok _ _ |- _ =>
      let a := fresh "a" in let w := fresh "w" in let H1 := fresh "Hr" in
      apply bind_Ok in H as (a & w & H1 & H)
  | H : Ok _ _ = Ok _ _ |- _ => injection H as ? ?; subst
  | H : Err _ = Ok _ _ |- _ => discriminate H
  | H : mret _ _ _ = Ok _ _ |- _ => injection H as ? ?; subst
  | H : get _ _ _ = Ok _ _ |- _ => injection H as ? ?; subst
  | H : has _ _ _ = Ok _ _ |- _ => injection H as ? ?; subst
  | H : set _ _ _ _ = Ok _ _ |- _ => injection H as ? ?; subst
  | H : remove _ _ _ = Ok _ _ |- _ => injection H as ? ?; subst
  | H : get_or _ _ _ _ = Ok _ _ |- _ => injection H as ? ?; subst
  | H : get_bump_or _ _ _ _ = Ok _ _ |- _ =>
      rewrite run_get_bump_or in H; injection H as ? ?; subst
  | H : get_touch _ _ _ = Ok _ _ |- _ => rewrite run_get_touch in H; injection H as ? ?; subst
  | H : put _ _ _ _ = Ok _ _ |- _ => rewrite run_put in H; injection H as ? ?; subst
  | H : publish _ _ _ = Ok _ _ |- _ => injection H as ? ?; subst
  | H : ledger_sequence _ _ = Ok _ _ |- _ => injection H as ? ?; subst
  | H : ledger_timestamp _ _ = Ok _ _ |- _ => injection H as ? ?; subst
  | H : contract_address _ _ = Ok _ _ |- _ => injection H as ? ?; subst
  | H : get_temporary _ _ _ = Ok _ _ |- _ => injection H as ? ?; subst
  | H : get_temporary_or _ _ _ _ = Ok _ _ |- _ => injection H as ? ?; subst
  | H : get_flags _ _ = Ok _ _ |- _ => injection H as ? ?; subst
  | H : set_flags _ _ _ = Ok _ _ |- _ => injection H as ? ?; subst
  | H : has_temporary _ _ _ = Ok _ _ |- _ => injection H as ? ?; subst
  | H : set_temporary _ _ _ _ = Ok _ _ |- _ => injection H as ? ?; subst
  | H : remove_temporary _ _ _ = Ok _ _ |- _ => injection H as ? ?; subst
  | H : panic_with_error _ _ _ = Ok _ _ |- _ => discriminate H
  | H : panic _ _ = Ok _ _ |- _ => discriminate H
  | H : fail _ _ _ = Ok _ _ |- _ => discriminate H
  | H : require_auth ?a ?c _ = Ok _ _ |- _ =>
      unfold require_auth in H; destruct (authorized c a) eqn:?; [|discriminate H]
  | H : panic_if ?b _ _ _ = Ok _ _ |- _ =>
      rewrite run_panic_if in H; destruct b eqn:?; [discriminate H|]
  | H : lift ?o _ _ = Ok _ _ |- _ => destruct o eqn:?; cbn [lift] in H
  | H : extend_ttl ?k _ ?w = Ok _ _ |- _ =>
      unfold extend_ttl in H; destruct (persistent w k) eqn:?; [|discriminate H]
  | H : extend_ttl_temporary ?k _ ?w = Ok _ _ |- _ =>
      unfold extend_ttl_temporary in H; destruct (temporary w k) eqn:?; [|discriminate H]
  end.

(** ** Framing: which persistent keys a call may change *)

Definition modifies {A} (P : DataKey → Prop) (m : M A) : Prop :=
  ∀ c w a w', m c w = Ok a w' → ∀ k, ¬ P k → persistent w' k = persistent w k.

Section Modifies.
Context (P : DataKey → Prop).

Lemma modifies_ret {A} (a : A) : modifies P (mret a).
Proof. by intros c w ? ? [= <- <-]. Qed.

Lemma modifies_bind {A B} (m : M A) (f : A → M B) :
  modifies P m → (∀ a, modifies P (f a)) → modifies P (m ≫= f).
Proof.
  intros Hm Hf c w b w' (a & w1 & H1 & H2)%bind_Ok k Hk.
  by rewrite (Hf a _ _ _ _ H2 k Hk), (Hm _ _ _ _ H1 k Hk).
Qed.

Lemma modifies_fail {A} f : modifies P (@fail A f).
Proof. by intros ????. Qed.

Lemma modifies_panic_if b e : modifies P (panic_if b e).
Proof. destruct b; [apply modifies_fail|apply modifies_ret]. Qed.

Lemma modifies_lift {A} (o : option A) : modifies P (lift o).
Proof. destruct o; [apply modifies_ret|apply modifies_fail]. Qed.

Lemma modifies_set k v : P k → modifies P (set k v).
Proof. intros Hk c w ? ? [= <- <-] k' Hk'. apply persistent_put_ne. by intros ->. Qed.

Lemma modifies_remove k : P k → modifies P (remove k).
Proof. intros Hk c w ? ? [= <- <-] k' Hk'. apply persistent_put_ne. by intros ->. Qed.

Lemma modifies_reader {A} (m : M A) :
  (∀ c w a w', m c w = Ok a w' → persistent w' = persistent w) → modifies P m.
Proof. intros Hm c w a w' H k _. by rewrite (Hm _ _ _ _ H). Qed.

Lemma modifies_get k : modifies P (get k).
Proof. by intros c w ? ? [= <- <-]. Qed.
Lemma modifies_has k : modifies P (has k).
Proof. by intros c w ? ? [= <- <-]. Qed.
Lemma modifies_get_or k d : modifies P (get_or k d).
Proof. by intros c w ? ? [= <- <-]. Qed.
Lemma modifies_get_bump_or k d : modifies P (get_bump_or k d).
Proof. intros c w ? ? H. rewrite run_get_bump_or in H. by injection H as <- <-. Qed.
Lemma modifies_extend_ttl k : modifies P (extend_ttl k).
Proof. intros c w ? ? H. ok_inv. done. Qed.
Lemma modifies_publish e : modifies P (publish e).
Proof. by intros c w ? ? [= <- <-]. Qed.
Lemma modifies_require_auth a : modifies P (require_auth a).
Proof. intros c w ? ? H. ok_inv. done. Qed.
Lemma modifies_sequence : modifies P ledger_sequence.
Proof. by intros c w ? ? [= <- <-]. Qed.
Lemma modifies_timestamp : modifies P ledger_timestamp.
Proof. by intros c w ? ? [= <- <-]. Qed.
Lemma modifies_temporary k v : modifies P (set_temporary k v).
Proof. by intros c w ? ? [= <- <-]. Qed.
Lemma modifies_remove_temporary k : modifies P (remove_temporary k).
Proof. by intros c w ? ? [= <- <-]. Qed.
Lemma modifies_get_temporary k : modifies P (get_temporary k).
Proof. by intros c w ? ? [= <- <-]. Qed.
Lemma modifies_has_temporary k : modifies P (has_temporary k).
Proof. by intros c w ? ? [= <- <-]. Qed.
Lemma modifies_get_temporary_or k d : modifies P (get_temporary_or k d).
Proof. by intros c w ? ? [= <- <-]. Qed.
Lemma modifies_get_flags : modifies P get_flags.
Proof. by intros c w ? ? [= <- <-]. Qed.
Lemma modifies_set_flags v : modifies P (set_flags v).
Proof. by intros c w ? ? [= <- <-]. Qed.
Lemma modifies_extend_temporary k : modifies P (extend_ttl_temporary k).
Proof. intros c w ? ? H. ok_inv. done. Qed.

Lemma modifies_get_touch k : modifies P (get_touch k).
Proof. intros c w ? ? H. rewrite run_get_touch in H. by injection H as <- <-. Qed.
Lemma modifies_put k v : P k → modifies P (put k v).
Proof. intros Hk. apply modifies_bind; [by apply modifies_set|]. intros _. apply modifies_extend_ttl. Qed.

Lemma modifies_for_each {A} (xs : list A) body :
  (∀ x, modifies P (body x)) → modifies P (for_each xs body).
Proof.
  intros Hb. induction xs as [|x xs IH]; [apply modifies_ret|].
  apply modifies_bind; [done|]. by intros _.
Qed.

Lemma modifies_fold_m {A B} (body : B → A → M B) xs : ∀ acc,
  (∀ b x, modifies P (body b x)) → modifies P (fold_m body acc xs).
Proof.
  induction xs as [|x xs IH]; intros acc Hb; [apply modifies_ret|].
  apply modifies_bind; [done|]. intros b. by apply IH.
Qed.

Lemma modifies_invoke {A} (m : M A) c w k :
  modifies P m → ¬ P k → persistent (invoke m c w) k = persistent w k.
Proof.
  intros Hm Hk. unfold invoke. destruct (m c w) as [a w'|] eqn:E; [|done]. by eapply Hm.
Qed.
End Modifies.

Lemma modifies_mono {A} (P Q : DataKey → Prop) (m : M A) :
  (∀ k, P k → Q k) → modifies P m → modifies Q m.
Proof. intros HPQ Hm c w a w' H k Hk. eapply Hm; eauto. Qed.

Create HintDb modifies.
#[export] Hint Resolve modifies_ret modifies_fail modifies_panic_if modifies_lift modifies_get
  modifies_has modifies_get_or modifies_get_bump_or modifies_extend_ttl modifies_publish
  modifies_require_auth modifies_sequence modifies_timestamp modifies_temporary
  modifies_remove_temporary modifies_get_temporary modifies_has_temporary
  modifies_get_temporary_or modifies_get_flags modifies_set_flags modifies_extend_temporary : modifies.

(** Walks a handler down to its primitives; what is left are the claims
    [P k] of the keys it writes. *)
Ltac solve_modifies :=
  repeat first
    [ progress intros
    | match goal with
      | |- modifies ?P (_ ≫= _) => apply modifies_bind
      | |- modifies ?P (get ?k) => exact (modifies_get P k)
      | |- modifies ?P (get_or ?k ?d) => exact (modifies_get_or P k d)
      | |- modifies ?P (get_bump_or ?k ?d) => exact (modifies_get_bump_or P k d)
      | |- modifies ?P (get_temporary ?k) => exact (modifies_get_temporary P k)
      | |- modifies ?P (get_temporary_or ?k ?d) => exact (modifies_get_temporary_or P k d)
      | |- modifies ?P (get_touch ?k) => exact (modifies_get_touch P k)
      | |- modifies ?P (put ?k ?v) => refine (modifies_put P k v _)
      | |- modifies ?P (set ?k ?v) => refine (modifies_set P k v _)
      | |- modifies ?P (remove ?k) => refine (modifies_remove P k _)
      | |- modifies _ (panic_with_error _) => apply modifies_fail
      | |- modifies _ panic => apply modifies_fail
      | |- modifies _ (get_unwrap _) => unfold get_unwrap
      | |- modifies _ (for_each _ _) => apply modifies_for_each
      | |- modifies _ (fold_m _ _ _) => apply modifies_fold_m
      | |- modifies _ (match ?x with _ => _ end) => destruct x
      | |- modifies _ _ => solve [eauto 2 with modifies nocore]
      end ].

(** Whether a call succeeds; decided by evaluation on concrete worlds. *)
Definition succeeds {A} (m : M A) (c : Ctx) (w : World) : bool :=
  match m c w with Ok _ _ => true | Err _ => false end.

Lemma run_succeeds (m : M unit) c w : succeeds m c w = true → m c w = Ok tt (invoke m c w).
Proof. unfold succeeds, invoke. by destruct (m c w) as [[] w'|]. Qed.

(** ** Invariants: calls that keep a property of the world *)

Definition preserves {A} (I : World → Prop) (m : M A) : Prop :=
  ∀ c w a w', I w → m c w = Ok a w' → I w'.

Lemma preserves_bind {A B} I (m : M A) (f : A → M B) :
  preserves I m → (∀ a, preserves I (f a)) → preserves I (m ≫= f).
Proof. intros Hm Hf c w b w' HI (a & w1 & H1 & H2)%bind_Ok. eapply Hf; [|done]. by eapply Hm. Qed.

(** A property that reads only the keys of [K] is kept by calls that write
    none of them. *)
Definition reads_only (K : DataKey → Prop) (I : World → Prop) : Prop :=
  ∀ w w', (∀ k, K k → persistent w' k = persistent w k) → I w → I w'.

Lemma preserves_frame {A} K I (m : M A) :
  reads_only K I → modifies (λ k, ¬ K k) m → preserves I m.
Proof. intros HI Hm c w a w' Hw H. apply (HI w); [|done]. intros k Hk. apply (Hm _ _ _ _ H). tauto. Qed.

Lemma preserves_for_each {A} I (xs : list A) body :
  (∀ x, preserves I (body x)) → preserves I (for_each xs body).
Proof.
  intros Hb. induction xs as [|x xs IH]; [by intros c w ? ? ? [= <- <-]|].
  apply preserves_bind; [done|]. by intros _.
Qed.

Lemma preserves_invoke {A} I (m : M A) c w : preserves I m → I w → I (invoke m c w).
Proof. intros Hm HI. unfold invoke. destruct (m c w) as [a w'|] eqn:E; [|done]. by eapply Hm. Qed.

(** [walk_preserves tac] walks a handler; [tac] closes the steps. *)
Ltac walk_preserves tac :=
  repeat first
    [ progress intros
    | match goal with
      | |- preserves _ (_ ≫= _) => apply preserves_bind
      | |- preserves _ (for_each _ _) => apply preserves_for_each
      | |- preserves _ (match ?x with _ => _ end) => destruct x
      | |- preserves _ _ => solve [tac]
      end ].

(** ** Storage typing

    An invariant given key by key: [store_ok T w] says every persistent entry
    satisfies the predicate [T] of its key, and [typed T m Q] that the call
    [m] keeps it so and returns a result in [Q]. *)

Definition KeyInv : Type := ∀ k : DataKey, interp (ty_of k) → Prop.

Definition store_ok (T : KeyInv) (w : World) : Prop := ∀ k v, persistent w k = Some v → T k v.

Definition typed {A} (T : KeyInv) (m : M A) (Q : A → Prop) : Prop :=
  ∀ c w a w', store_ok T w → m c w = Ok a w' → store_ok T w' ∧ Q a.

Section Typed.
Context (T : KeyInv).

Lemma store_ok_empty : store_ok T empty_world.
Proof. by intros k v. Qed.

Lemma typed_ret {A} (a : A) (Q : A → Prop) : Q a → typed T (mret a) Q.
Proof. intros HQ c w ? ? Hw [= <- <-]. done. Qed.

Lemma typed_bind {A B} (m : M A) (f : A → M B) R Q :
  typed T m R → (∀ a, R a → typed T (f a) Q) → typed T (m ≫= f) Q.
Proof.
  intros Hm Hf c w b w' Hw (a & w1 & H1 & H2)%bind_Ok.
  destruct (Hm _ _ _ _ Hw H1) as [Hw1 Ha]. by apply (Hf a Ha c w1).
Qed.

Lemma typed_conseq {A} (m : M A) (R Q : A → Prop) :
  typed T m R → (∀ a, R a → Q a) → typed T m Q.
Proof. intros Hm HRQ c w a w' Hw H. destruct (Hm _ _ _ _ Hw H). auto. Qed.

Lemma typed_fail {A} f (Q : A → Prop) : typed T (fail f) Q.
Proof. by intros ?????. Qed.

(** A call that leaves the persistent store alone. *)
Lemma typed_silent {A} (m : M A) :
  (∀ c w a w', m c w = Ok a w' → persistent w' = persistent w) → typed T m (λ _, True).
Proof. intros Hm c w a w' Hw H. split; [|done]. intros k v. rewrite (Hm _ _ _ _ H). apply Hw. Qed.

Lemma typed_panic_if b e : typed T (panic_if b e) (λ _, b = false).
Proof. destruct b; [apply typed_fail|by apply typed_ret]. Qed.

Lemma typed_lift {A} (o : option A) : typed T (lift o) (λ a, o = Some a).
Proof. destruct o; [by apply typed_ret|apply typed_fail]. Qed.

Lemma typed_get k : typed T (get k) (λ v, ∀ x, v = Some x → T k x).
Proof. intros c w ? ? Hw [= <- <-]. split; [done|]. intros x. apply Hw. Qed.

Lemma typed_get_or k d : T k d → typed T (get_or k d) (T k).
Proof.
  intros Hd c w ? ? Hw [= <- <-]. split; [done|]. destruct (persistent w k) eqn:E; [by apply Hw|done].
Qed.

Lemma typed_get_bump_or k d : T k d → typed T (get_bump_or k d) (T k).
Proof.
  intros Hd c w ? ? Hw H. rewrite run_get_bump_or in H. injection H as <- <-. split; [done|].
  destruct (persistent w k) eqn:E; [by apply Hw|done].
Qed.

Lemma typed_set k v : T k v → typed T (set k v) (λ _, True).
Proof.
  intros Hv c w ? ? Hw [= <- <-]. split; [|done]. intros k' v'.
  destruct (decide (k = k')) as [->|Hk]; read_store; [by intros [= <-]|apply Hw].
Qed.

Lemma typed_remove k : typed T (remove k) (λ _, True).
Proof.
  intros c w ? ? Hw [= <- <-]. split; [|done]. intros k' v'.
  destruct (decide (k = k')) as [->|Hk]; read_store; [done|apply Hw].
Qed.

Lemma typed_get_unwrap k : typed T (get_unwrap k) (T k).
Proof.
  unfold get_unwrap. eapply typed_bind; [apply typed_get|]. intros [v|] Hv; cbn [lift].
  - apply typed_ret. auto.
  - apply typed_fail.
Qed.

Lemma typed_invoke {A} (m : M A) Q c w : typed T m Q → store_ok T w → store_ok T (invoke m c w).
Proof.
  intros Hm Hw. unfold invoke. destruct (m c w) as [a w'|] eqn:E; [|done]. by eapply Hm.
Qed.
End Typed.

Lemma silent_has k c w a w' : has k c w = Ok a w' → persistent w' = persistent w.
Proof. by intros [= <- <-]. Qed.
Lemma silent_extend_ttl k c w a w' : extend_ttl k c w = Ok a w' → persistent w' = persistent w.
Proof. intros H. by ok_inv. Qed.
Lemma silent_publish e c w a w' : publish e c w = Ok a w' → persistent w' = persistent w.
Proof. by intros [= <- <-]. Qed.
Lemma silent_require_auth x c w a w' :
  require_auth x c w = Ok a w' → persistent w' = persistent w.
Proof. intros H. by ok_inv. Qed.
Lemma silent_sequence c w a w' : ledger_sequence c w = Ok a w' → persistent w' = persistent w.
Proof. by intros [= <- <-]. Qed.
Lemma silent_timestamp c w a w' : ledger_timestamp c w = Ok a w' → persistent w' = persistent w.
Proof. by intros [= <- <-]. Qed.
Lemma silent_get_flags c w a w' : get_flags c w = Ok a w' → persistent w' = persistent w.
Proof. by intros [= <- <-]. Qed.
Lemma silent_set_flags v c w a w' : set_flags v c w = Ok a w' → persistent w' = persistent w.
Proof. by intros [= <- <-]. Qed.

Create HintDb silent.
#[export] Hint Resolve silent_has silent_extend_ttl silent_publish silent_require_auth
  silent_sequence silent_timestamp silent_get_flags silent_set_flags : silent.

(** Types a handler step by step, leaving the key predicates to prove. *)
Ltac typed_step :=
  match goal with
  | |- typed _ (_ ≫= _) _ => eapply typed_bind
  | |- typed _ (mret _) _ => apply typed_ret
  | |- typed _ (fail _) _ => apply typed_fail
  | |- typed _ (panic_with_error _) _ => apply typed_fail
  | |- typed _ panic _ => apply typed_fail
  | |- typed _ (panic_if _ _) _ => apply typed_panic_if
  | |- typed _ (lift _) _ => apply typed_lift
  | |- typed ?T (get ?k) _ => refine (typed_get T k)
  | |- typed ?T (get_or ?k ?d) _ => refine (typed_get_or T k d _)
  | |- typed ?T (get_bump_or ?k ?d) _ => refine (typed_get_bump_or T k d _)
  | |- typed ?T (get_unwrap ?k) _ => refine (typed_get_unwrap T k)
  | |- typed ?T (set ?k ?v) _ => refine (typed_set T k v _)
  | |- typed ?T (remove ?k) _ => refine (typed_remove T k)
  | |- typed _ (match ?x with _ => _ end) _ => destruct x eqn:?
  | |- typed _ _ _ => apply typed_silent; solve [eauto with silent]
  | |- typed _ _ _ => solve [eauto with typed]
  | |- ∀ _, _ => intros
  end.
Create HintDb typed.
