(* ===== verification/AuditLog.v ===== *)
(** * [audit_log.rs]: the hash-chained audit log and treasury spending

    Every administrative action is appended to a hash chain held in
    persistent storage.  [sha256] and the XDR encoding of addresses are the
    host's; they are parameters ([Crypto]) with the one law the chain relies
    on, the length of a digest.  Collision freedom cannot hold of a function
    into 32 bytes, so the tamper-evidence theorem exhibits a collision
    instead of assuming there is none.

    The second half of the file authorises treasury spending against category
    budgets and keeps a record of every attempt. *)
From stdpp Require Import base list strings.
From S2P Require Import Prelude Machine Types Host.
#[local] Open Scope Z_scope.
#[local] Set Default Goal Selector "!".

Class Crypto := {
  sha256 : Bytes → Bytes;
  address_to_xdr : Address → Bytes;
  sha256_length b : length (sha256 b) = 32%nat
}.

(** [x.to_le_bytes()] of an [n]-byte unsigned integer. *)
Fixpoint to_le_bytes (n : nat) (x : Z) : Bytes :=
  match n with
  | O => []
  | S n => x mod 256 :: to_le_bytes n (x / 256)
  end.

Section AuditLog.
Context `{BP : BuildProfile} `{CR : Crypto}.

(** ** The chain *)

Definition append_audit_entry (action : string) (admin : Address) (data : Bytes) : M unit :=
  current_ledger ← ledger_sequence;
  timestamp ← ledger_timestamp;
  previous_hash ← get_or KeyAuditLogHead [];
  entry_count ← get_or KeyAuditEntryCount 0;
  entry_id ← lift (u32 (entry_count + 1));
  let entry_data := previous_hash ++ data ++ to_le_bytes 8 timestamp ++ to_le_bytes 4 entry_id in
  let current_hash := sha256 entry_data in
  set (KeyAuditEntry entry_id)
    {| ae_id := entry_id; ae_action := action; ae_admin := admin; ae_data := data;
       ae_ledger := current_ledger; ae_timestamp := timestamp;
       ae_previous_hash := previous_hash; ae_current_hash := current_hash |};;
  set KeyAuditLogHead current_hash;;
  set KeyAuditEntryCount entry_id;;
  publish (MkAdminAuditEntryAppendedEvent admin entry_id action timestamp current_ledger).

Definition emit_admin_action (action : string) (admin : Address) (data : Bytes) : M unit :=
  append_audit_entry action admin data;;
  publish (AdminActionEvent action admin data).

Definition entry_hash (entry : AuditEntry) : Bytes :=
  sha256 (ae_previous_hash entry ++ ae_data entry ++
          to_le_bytes 8 (ae_timestamp entry) ++ to_le_bytes 4 (ae_id entry)).

(** [for i in 1..=entry_count] with [n] iterations left. *)
Fixpoint verify_from (n : nat) (i : Z) (previous_hash : Bytes) : M bool :=
  match n with
  | O => mret true
  | S n =>
      entry ← get (KeyAuditEntry i);
      match entry with
      | Some entry =>
          if negb (bool_decide (ae_previous_hash entry = previous_hash)) then mret false
          else if negb (bool_decide (entry_hash entry = ae_current_hash entry)) then mret false
          else verify_from n (i + 1) (ae_current_hash entry)
      | None => mret false
      end
  end.

Definition verify_audit_chain : M bool :=
  entry_count ← get_or KeyAuditEntryCount 0;
  if (entry_count : Z) =? 0 then mret true
  else verify_from (Z.to_nat entry_count) 1 [].

Definition get_audit_log_count : M Z := get_or KeyAuditEntryCount 0.
Definition get_audit_log_head : M Bytes := get_or KeyAuditLogHead [].

(** [while i <= entry_count && returned < effective_limit]; [n] bounds the
    iterations left. *)
Fixpoint audit_log_from (n : nat) (i entry_count limit : Z) (results : list AuditEntry)
    : M (list AuditEntry) :=
  match n with
  | O => mret results
  | S n =>
      if (i <=? entry_count) && (Z.of_nat (length results) <? limit) then
        entry ← get (KeyAuditEntry i);
        next ← lift (u32 (i + 1));
        audit_log_from n next entry_count limit
          (match entry with Some entry => results ++ [entry] | None => results end)
      else mret results
  end.

Definition get_admin_audit_log (from_id limit : Z) : M (list AuditEntry) :=
  let effective_limit := if (limit =? 0) || (500 <? limit) then 500 else limit in
  let start_id := if from_id =? 0 then 1 else from_id in
  entry_count ← get_or KeyAuditEntryCount 0;
  audit_log_from (Z.to_nat (entry_count + 1 - start_id)) start_id entry_count effective_limit [].

(** [audit_governance_events]: counts every missing, malformed and unlinked
    entry; [prev] is [None] after a missing one. *)
Fixpoint audit_events_from (n : nat) (i : Z) (prev : option Bytes)
    (missing malformed unlinked : Z) : M (Z * Z * Z) :=
  match n with
  | O => mret (missing, malformed, unlinked)
  | S n =>
      entry ← get (KeyAuditEntry i);
      match entry with
      | None =>
          missing ← lift (u32 (missing + 1));
          audit_events_from n (i + 1) None missing malformed unlinked
      | Some entry =>
          malformed ← (if bool_decide (entry_hash entry = ae_current_hash entry)
                       then mret malformed else lift (u32 (malformed + 1)));
          unlinked ← (match prev with
                      | Some p => if bool_decide (ae_previous_hash entry = p)
                                  then mret unlinked else lift (u32 (unlinked + 1))
                      | None => mret unlinked
                      end);
          audit_events_from n (i + 1) (Some (ae_current_hash entry)) missing malformed unlinked
      end
  end.

Definition audit_governance_events : M GovernanceAuditReport :=
  count ← get_or KeyAuditEntryCount 0;
  '(missing, malformed, unlinked) ←
    audit_events_from (Z.to_nat count) 1 (Some []) 0 0 0;
  mret {| gar_complete := (missing =? 0) && (malformed =? 0) && (unlinked =? 0);
          gar_total_events := count; gar_missing_events := missing;
          gar_malformed_events := malformed; gar_unlinked_events := unlinked |}.

(** ** Reward appeals *)

Definition encode_appeal (source : Address) (epoch disputed_amount : Z) (reason : Bytes) : Bytes :=
  address_to_xdr source ++ to_le_bytes 4 epoch ++ to_le_bytes 16 (as_u128 disputed_amount) ++ reason.

Definition submit_reward_appeal (source : Address) (epoch disputed_amount : Z) (reason : Bytes)
    : M Z :=
  require_auth source;;
  append_audit_entry "appeal" source (encode_appeal source epoch disputed_amount reason);;
  get_audit_log_count.

Definition resolve_reward_appeal (appeal_id approved_amount : Z) (note : Bytes) : M Z :=
  admin ← get_unwrap KeyAdmin;
  require_auth admin;;
  appeal ← get (KeyAuditEntry appeal_id);
  match appeal with
  | None => panic_with_error InvalidInput
  | Some appeal =>
      panic_if (negb (bool_decide (ae_action appeal = "appeal"%string))) InvalidInput;;
      append_audit_entry "correct" admin
        (to_le_bytes 4 appeal_id ++ to_le_bytes 16 (as_u128 approved_amount) ++ note);;
      get_audit_log_count
  end.

(** ** Treasury spending *)

Definition budget_code (category : BudgetCategory) : Z :=
  match category with
  | BudgetOperations => 0
  | BudgetDevelopment => 1
  | BudgetSecurity => 2
  | BudgetMarketing => 3
  | BudgetReserve => 4
  end.

Definition set_category_budget (category : BudgetCategory) (budget : Z) : M unit :=
  set (KeyTREASBUD (budget_code category)) budget.

Definition category_budget (category : BudgetCategory) : M Z :=
  get_or (KeyTREASBUD (budget_code category)) 0.

Definition append_record (record : TreasurySpendRecord) : M unit :=
  records ← get_or KeyTREASREC [];
  set KeyTREASREC (records ++ [record]).

Definition treasury_spend_records : M (list TreasurySpendRecord) := get_or KeyTREASREC [].

Definition evaluate_spend (request : TreasurySpendRequest) : M SpendOutcome :=
  if tsq_amount request <=? 0 then mret RejectedInvalidAmount
  else if negb (tsq_approved request) then mret RejectedUnapproved
  else if bool_decide (tsq_payment_evidence request = ""%string) then
    mret RejectedMissingEvidence
  else
    budget ← category_budget (tsq_category request);
    if budget <? tsq_amount request then mret RejectedOverBudget else mret Approved.

Definition authorize_treasury_spend (request : TreasurySpendRequest) : M SpendOutcome :=
  outcome ← evaluate_spend request;
  (match outcome with
   | Approved =>
       remaining ← category_budget (tsq_category request);
       rest ← lift (i128 (remaining - tsq_amount request));
       set (KeyTREASBUD (budget_code (tsq_category request))) rest
   | _ => mret tt
   end);;
  now ← ledger_timestamp;
  append_record
    {| tsr_proposal_id := tsq_proposal_id request; tsr_category := tsq_category request;
       tsr_amount := tsq_amount request; tsr_approver := tsq_approver request;
       tsr_payment_evidence := tsq_payment_evidence request; tsr_outcome := outcome;
       tsr_timestamp := now |};;
  mret outcome.
End AuditLog.

(** ** Little-endian encodings *)

Lemma length_to_le_bytes n : ∀ x, length (to_le_bytes n x) = n.
Proof. induction n as [|n IH]; intros x; simpl; [done|]. by rewrite IH. Qed.

Lemma to_le_bytes_inj n : ∀ x y,
  0 <= x < 256 ^ Z.of_nat n → 0 <= y < 256 ^ Z.of_nat n →
  to_le_bytes n x = to_le_bytes n y → x = y.
Proof.
  induction n as [|n IH]; intros x y Hx Hy; cbn [to_le_bytes].
  - change (256 ^ Z.of_nat 0) with 1 in *. lia.
  - intros [= Em Ed]. rewrite Nat2Z.inj_succ, Z.pow_succ_r in Hx, Hy by lia.
    assert (x / 256 = y / 256) as Eq.
    { apply IH; [..|done]; (split; [apply Z.div_pos; lia|apply Z.div_lt_upper_bound; lia]). }
    rewrite (Z.div_mod x 256), (Z.div_mod y 256) by lia. congruence.
Qed.

(** ** The chain as a function of the store *)

Section Chain.
Context `{BP : BuildProfile} `{CR : Crypto}.

(** Does [entry] extend a chain whose last hash is [prev]? *)
Definition links (prev : Bytes) (entry : AuditEntry) : bool :=
  bool_decide (ae_previous_hash entry = prev) &&
  bool_decide (entry_hash entry = ae_current_hash entry).

(** The hash at the end of the chain of [n] entries from [i], if it is one. *)
Fixpoint chain_from (s : Store) (n : nat) (i : Z) (prev : Bytes) : option Bytes :=
  match n with
  | O => Some prev
  | S n =>
      entry ← s (KeyAuditEntry i);
      if links prev entry then chain_from s n (i + 1) (ae_current_hash entry) else None
  end.

Definition audit_count (s : Store) : Z := default 0 (s KeyAuditEntryCount).
Definition audit_head (s : Store) : Bytes := default [] (s KeyAuditLogHead).

(** The invariant of the log: its entries are a chain that ends in the head. *)
Definition audit_ok (w : World) : Prop :=
  0 <= audit_count (persistent w) ∧
  chain_from (persistent w) (Z.to_nat (audit_count (persistent w))) 1 [] =
    Some (audit_head (persistent w)).

Lemma verify_from_run c w n : ∀ i prev,
  verify_from n i prev c w = Ok (bool_decide (is_Some (chain_from (persistent w) n i prev))) w.
Proof.
  induction n as [|n IH]; intros i prev; cbn [verify_from chain_from]; [done|].
  rewrite run_bind. cbn [get]. destruct (persistent w (KeyAuditEntry i)) as [entry|]; [|done].
  obind. unfold links. destruct (bool_decide (ae_previous_hash entry = prev)); [|done].
  destruct (bool_decide (entry_hash entry = ae_current_hash entry)); [|done]. apply IH.
Qed.

Lemma verify_audit_chain_run c w :
  verify_audit_chain c w = Ok (bool_decide (is_Some
    (chain_from (persistent w) (Z.to_nat (audit_count (persistent w))) 1 []))) w.
Proof.
  unfold verify_audit_chain. rewrite run_bind. cbn [get_or].
  change (default 0 (persistent w KeyAuditEntryCount)) with (audit_count (persistent w)).
  destruct (Z.eqb_spec (audit_count (persistent w)) 0) as [->|]; [done|apply verify_from_run].
Qed.

Lemma chain_from_ext s s' n : ∀ i prev,
  (∀ j, i <= j < i + Z.of_nat n → s' (KeyAuditEntry j) = s (KeyAuditEntry j)) →
  chain_from s' n i prev = chain_from s n i prev.
Proof.
  induction n as [|n IH]; intros i prev Hs; cbn [chain_from]; [done|].
  rewrite Hs by lia. destruct (s (KeyAuditEntry i)) as [entry|]; [|done]. obind.
  destruct (links prev entry); [|done]. apply IH. intros j Hj. apply Hs. lia.
Qed.

Lemma chain_from_S s n i prev :
  chain_from s (S n) i prev =
    entry ← s (KeyAuditEntry i);
    if links prev entry then chain_from s n (i + 1) (ae_current_hash entry) else None.
Proof. done. Qed.

Lemma chain_from_snoc s n : ∀ i prev,
  chain_from s (S n) i prev =
    h ← chain_from s n i prev;
    entry ← s (KeyAuditEntry (i + Z.of_nat n));
    if links h entry then Some (ae_current_hash entry) else None.
Proof.
  induction n as [|n IH]; intros i prev.
  - cbn [chain_from]. obind. by replace (i + Z.of_nat 0) with i by lia.
  - rewrite (chain_from_S s (S n)), (chain_from_S s n).
    destruct (s (KeyAuditEntry i)) as [entry|]; [|done]. obind.
    destruct (links prev entry); [|done]. rewrite IH.
    by replace (i + Z.of_nat (S n)) with (i + 1 + Z.of_nat n) by lia.
Qed.

(** The world after an append, and the entry it adds. *)
Definition new_entry (c : Ctx) (s : Store) (action : string) (admin : Address) (data : Bytes)
    : AuditEntry :=
  let id := audit_count s + 1 in
  {| ae_id := id; ae_action := action; ae_admin := admin; ae_data := data;
     ae_ledger := sequence c; ae_timestamp := timestamp c; ae_previous_hash := audit_head s;
     ae_current_hash :=
       sha256 (audit_head s ++ data ++ to_le_bytes 8 (timestamp c) ++ to_le_bytes 4 id) |}.

Definition after_append (c : Ctx) (w : World) (action : string) (admin : Address) (data : Bytes)
    : World :=
  let e := new_entry c (persistent w) action admin data in
  add_event (MkAdminAuditEntryAppendedEvent admin (ae_id e) action (timestamp c) (sequence c))
    (put_persistent KeyAuditEntryCount (Some (ae_id e))
      (put_persistent KeyAuditLogHead (Some (ae_current_hash e))
        (put_persistent (KeyAuditEntry (ae_id e)) (Some e) w))).

(** The keys the log owns. *)
Definition audit_key (k : DataKey) : Prop :=
  match k with
  | KeyAuditEntry _ | KeyAuditEntryCount | KeyAuditLogHead => True
  | _ => False
  end.

Lemma after_append_frame c w action admin data k :
  ¬ audit_key k → persistent (after_append c w action admin data) k = persistent w k.
Proof.
  intros Hk. unfold after_append. cbn [persistent add_event].
  by rewrite !persistent_put_ne by (intros <-; by apply Hk).
Qed.

Lemma after_append_flags c w action admin data :
  instance_flags (after_append c w action admin data) = instance_flags w.
Proof. done. Qed.

Lemma append_audit_entry_run action admin data c w :
  0 <= audit_count (persistent w) < U32_MAX →
  append_audit_entry action admin data c w = Ok tt (after_append c w action admin data).
Proof.
  intros Hc. unfold append_audit_entry. rewrite !run_bind. cbn [ledger_sequence].
  rewrite run_bind. cbn [ledger_timestamp]. rewrite run_bind. cbn [get_or].
  rewrite run_bind. cbn [get_or]. rewrite run_bind.
  change (default 0 (persistent w KeyAuditEntryCount)) with (audit_count (persistent w)).
  rewrite u32_ok by (unfold in_u32, U32_MAX in *; lia). done.
Qed.

Lemma run_emit_admin_action action admin data c w :
  0 <= audit_count (persistent w) < U32_MAX →
  emit_admin_action action admin data c w =
    Ok tt (add_event (AdminActionEvent action admin data) (after_append c w action admin data)).
Proof. intros Hc. unfold emit_admin_action. rewrite run_bind, append_audit_entry_run by done. done. Qed.

Lemma audit_count_after_append c w action admin data :
  audit_count (persistent (after_append c w action admin data)) = audit_count (persistent w) + 1.
Proof. unfold audit_count at 1, after_append. by read_store. Qed.

Lemma chain_after_append c w action admin data :
  audit_ok w → audit_count (persistent w) < U32_MAX →
  audit_ok (after_append c w action admin data) ∧
  (∀ j, j ≠ audit_count (persistent w) + 1 →
    persistent (after_append c w action admin data) (KeyAuditEntry j) =
    persistent w (KeyAuditEntry j)).
Proof.
  intros [H0 Hch] Hc. set (w' := after_append c w action admin data).
  set (e := new_entry c (persistent w) action admin data).
  assert (∀ j, j ≠ ae_id e → persistent w' (KeyAuditEntry j) = persistent w (KeyAuditEntry j)) as Ho.
  { intros j Hj. subst w' e. unfold after_append, add_event. cbn [persistent]. read_store. done. }
  assert (persistent w' (KeyAuditEntry (ae_id e)) = Some e) as He.
  { subst w' e. unfold after_append, add_event. cbn [persistent]. by read_store. }
  assert (audit_count (persistent w') = ae_id e) as Hc'.
  { subst w' e. unfold audit_count, after_append, add_event. cbn [persistent]. by read_store. }
  assert (audit_head (persistent w') = ae_current_hash e) as Hh'.
  { subst w' e. unfold audit_head, after_append, add_event. cbn [persistent]. by read_store. }
  split; [|done]. unfold audit_ok. rewrite Hc', Hh'.
  assert (ae_id e = audit_count (persistent w) + 1) as Hid by done.
  split; [lia|]. rewrite Hid, Z2Nat.inj_add by lia. rewrite Nat.add_comm. simpl Nat.add.
  rewrite chain_from_snoc. rewrite (chain_from_ext (persistent w)), Hch
    by (intros j Hj; apply Ho; lia). obind.
  replace (1 + Z.of_nat (Z.to_nat (audit_count (persistent w)))) with (ae_id e) by lia.
  rewrite He. obind. unfold links. by rewrite !bool_decide_true.
Qed.
End Chain.

(** ** Calls and the log

    [audit_step m]: the call appends at most one entry and keeps the log
    valid.  A call that stays off the log's keys is one. *)

Section AuditStep.
Context `{BP : BuildProfile} `{CR : Crypto}.

Definition not_audit (k : DataKey) : Prop := ¬ audit_key k.

Lemma audit_ok_ext w w' :
  (∀ k, audit_key k → persistent w' k = persistent w k) → audit_ok w →
  audit_ok w' ∧ audit_count (persistent w') = audit_count (persistent w).
Proof.
  intros Hk [H0' Hc]. unfold audit_ok, audit_count, audit_head in *.
  rewrite !Hk by done. split; [|done]. split; [done|]. rewrite <- Hc. apply chain_from_ext.
  intros j _. by apply Hk.
Qed.

Definition audit_step {A} (m : M A) : Prop := ∀ c w a w',
  audit_ok w → audit_count (persistent w) < U32_MAX → m c w = Ok a w' →
  audit_ok w' ∧ audit_count (persistent w) <= audit_count (persistent w') <= audit_count (persistent w) + 1.

Lemma audit_step_quiet {A} (m : M A) : modifies not_audit m → audit_step m.
Proof.
  intros Hm c w a w' Hok Hc H.
  destruct (audit_ok_ext w w') as [? ->]; [|done|split; [done|lia]].
  intros k Hk. apply (Hm _ _ _ _ H). unfold not_audit. tauto.
Qed.

Lemma audit_step_bind {A B} (m : M A) (f : A → M B) :
  modifies not_audit m → (∀ a, audit_step (f a)) → audit_step (m ≫= f).
Proof.
  intros Hm Hf c w b w' Hok Hc (a & w1 & H1 & H2)%bind_Ok.
  destruct (audit_ok_ext w w1) as [Hok1 Hc1]; [|done|].
  { intros k Hk. apply (Hm _ _ _ _ H1). unfold not_audit. tauto. }
  rewrite <- Hc1 in Hc |- *. by apply (Hf a c w1 b w').
Qed.

Lemma audit_step_then {A B} (m : M A) (f : A → M B) :
  audit_step m → (∀ a, modifies not_audit (f a)) → audit_step (m ≫= f).
Proof.
  intros Hm Hf c w b w' Hok Hc (a & w1 & H1 & H2)%bind_Ok.
  destruct (Hm _ _ _ _ Hok Hc H1) as [Hok1 Hc1].
  destruct (audit_ok_ext w1 w') as [? ->]; [|done|done].
  intros k Hk. apply (Hf a _ _ _ _ H2). unfold not_audit. tauto.
Qed.

Lemma audit_step_append action admin data : audit_step (append_audit_entry action admin data).
Proof.
  intros c w a w' Hok Hc H. rewrite append_audit_entry_run in H by (destruct Hok; lia).
  injection H as _ <-. destruct (chain_after_append c w action admin data Hok Hc). split; [done|].
  rewrite audit_count_after_append. lia.
Qed.

Lemma audit_step_emit action admin data : audit_step (emit_admin_action action admin data).
Proof.
  intros c w a w' Hok Hc H. unfold emit_admin_action in H. ok_inv.
  by apply (audit_step_append action admin data c w a0 w0).
Qed.

Lemma audit_step_invoke {A} (m : M A) c w :
  audit_step m → audit_ok w → audit_count (persistent w) < U32_MAX →
  audit_ok (invoke m c w) ∧
  audit_count (persistent w) <= audit_count (persistent (invoke m c w)) <=
    audit_count (persistent w) + 1.
Proof.
  intros Hm Hok Hc. unfold invoke. destruct (m c w) as [a w'|] eqn:E; [by eapply Hm|split; [done|lia]].
Qed.
End AuditStep.

(** ** Tamper evidence *)

Section Tamper.
Context `{BP : BuildProfile} `{CR : Crypto}.

Definition collision : Prop := ∃ x y, x ≠ y ∧ sha256 x = sha256 y.

(** Machine ranges of the hashed fields. *)
Definition entry_in_range (e : AuditEntry) : Prop := in_u64 (ae_timestamp e) ∧ in_u32 (ae_id e).

Definition same_hashed (e e' : AuditEntry) : Prop :=
  ae_id e = ae_id e' ∧ ae_timestamp e = ae_timestamp e' ∧ ae_data e = ae_data e' ∧
  ae_previous_hash e = ae_previous_hash e' ∧ ae_current_hash e = ae_current_hash e'.

Lemma entry_hash_inj e e' :
  entry_in_range e → entry_in_range e' →
  length (ae_previous_hash e) = length (ae_previous_hash e') →
  entry_hash e = entry_hash e' →
  collision ∨ (ae_id e = ae_id e' ∧ ae_timestamp e = ae_timestamp e' ∧ ae_data e = ae_data e' ∧
    ae_previous_hash e = ae_previous_hash e').
Proof.
  intros [Ht Hi] [Ht' Hi'] Hl Hh. unfold entry_hash in Hh.
  match type of Hh with sha256 ?x = sha256 ?y => destruct (decide (x = y)) as [E|E] end;
    [right|left; by eexists _, _].
  apply app_inj_1 in E as [Ep E]; [|done].
  assert (length (ae_data e) = length (ae_data e')) as Ld.
  { apply (f_equal length) in E. rewrite !length_app, !length_to_le_bytes in E. lia. }
  apply app_inj_1 in E as [Ed E]; [|done].
  apply app_inj_1 in E as [Et Ei]; [|by rewrite !length_to_le_bytes].
  unfold in_u64, in_u32, U64_MAX, U32_MAX in *.
  apply to_le_bytes_inj in Et; [|lia..]. apply to_le_bytes_inj in Ei; [|lia..]. done.
Qed.

Lemma chain_end_length s n i h :
  chain_from s n i [] = Some h → (n = 0%nat ∧ h = []) ∨ (n ≠ 0%nat ∧ length h = 32%nat).
Proof.
  destruct n as [|n]; [intros [= <-]; by left|]. rewrite chain_from_snoc.
  intros (h' & Hh' & (e & He & Hl)%bind_Some)%bind_Some. right. split; [done|].
  destruct (links h' e) eqn:L; [|done]. injection Hl as <-. unfold links in L. bool_hyps.
  match goal with H : bool_decide (entry_hash e = _) = true |- _ =>
    apply bool_decide_eq_true in H; rewrite <- H end.
  apply sha256_length.
Qed.

Lemma chain_tamper (s s' : Store) n h :
  (∀ i e, s (KeyAuditEntry i) = Some e → entry_in_range e) →
  (∀ i e, s' (KeyAuditEntry i) = Some e → entry_in_range e) →
  chain_from s n 1 [] = Some h → chain_from s' n 1 [] = Some h →
  collision ∨ ∀ i, 1 <= i <= Z.of_nat n →
    ∃ e e', s (KeyAuditEntry i) = Some e ∧ s' (KeyAuditEntry i) = Some e' ∧ same_hashed e e'.
Proof.
  intros Hs Hs'. revert h. induction n as [|n IH]; intros h Hc Hc'; [right; lia|].
  rewrite chain_from_snoc in Hc, Hc'.
  apply bind_Some in Hc as (p & Hp & (e & He & Hl)%bind_Some).
  apply bind_Some in Hc' as (p' & Hp' & (e' & He' & Hl')%bind_Some).
  destruct (links p e) eqn:L; [|done]. destruct (links p' e') eqn:L'; [|done].
  injection Hl as Hl. injection Hl' as Hl'. unfold links in L, L'.
  rewrite andb_true_iff, !bool_decide_eq_true in L, L'. destruct L as [Lp Lh], L' as [Lp' Lh'].
  assert (length p = length p') as Hlen.
  { destruct (chain_end_length _ _ _ _ Hp) as [[-> ->]|[??]],
      (chain_end_length _ _ _ _ Hp') as [[? ->]|[??]]; try done. congruence. }
  destruct (entry_hash_inj e e') as [?|(Ei & Et & Ed & Epr)]; [by eapply Hs|by eapply Hs'|congruence|congruence|by left|].
  replace p' with p in * by congruence.
  destruct (IH p Hp Hp') as [?|Hrest]; [by left|right]. intros i Hi.
  destruct (decide (i = 1 + Z.of_nat n)) as [->|]; [|apply Hrest; lia].
  exists e, e'. unfold same_hashed. split_and!; auto; congruence.
Qed.
End Tamper.

(** ** The governance report *)

Section Report.
Context `{BP : BuildProfile} `{CR : Crypto}.

(** The scan finds nothing exactly on a chain; its counters never overflow
    since there are at most [count] entries. *)
Lemma bump_run (b : bool) x c w :
  0 <= x → x + 1 <= U32_MAX →
  ∃ y, (if b then mret x else lift (u32 (x + 1))) c w = Ok y w ∧
    x <= y <= x + 1 ∧ (y = x ↔ b = true).
Proof.
  intros Hx Hb. destruct b.
  - exists x. split_and!; try done; lia.
  - exists (x + 1). rewrite u32_ok by (unfold in_u32; lia). split_and!; try done; lia.
Qed.

Lemma audit_events_from_run c w n : ∀ i prev m f u,
  0 <= m → 0 <= f → 0 <= u → m + Z.of_nat n <= U32_MAX → f + Z.of_nat n <= U32_MAX →
  u + Z.of_nat n <= U32_MAX →
  ∃ m' f' u', audit_events_from n i prev m f u c w = Ok (m', f', u') w ∧
    m <= m' ∧ f <= f' ∧ u <= u' ∧
    ∀ p, prev = Some p →
      ((m' = m ∧ f' = f ∧ u' = u) ↔ is_Some (chain_from (persistent w) n i p)).
Proof.
  induction n as [|n IH]; intros i prev m f u Hm Hf Hu Bm Bf Bu.
  { exists m, f, u. cbn. split_and!; try done; try lia. }
  cbn [audit_events_from chain_from]. rewrite run_bind. cbn [get].
  destruct (persistent w (KeyAuditEntry i)) as [e|]; cycle 1.
  { rewrite run_bind, u32_ok by (unfold in_u32; lia). cbn [lift mret M_ret].
    destruct (IH (i + 1) None (m + 1) f u) as (m' & f' & u' & -> & ? & ? & ? & _); [lia..|].
    exists m', f', u'. split_and!; try done; try lia. intros p _.
    split; [lia|]. intros [? [=]]. }
  rewrite run_bind. destruct (bump_run (bool_decide (entry_hash e = ae_current_hash e)) f c w)
    as (f1 & -> & Bf1 & Ef); [lia..|]. rewrite run_bind.
  assert (∃ u1, (match prev with
      | Some p => if bool_decide (ae_previous_hash e = p) then mret u else lift (u32 (u + 1))
      | None => mret u end) c w = Ok u1 w ∧ u <= u1 <= u + 1 ∧
      ∀ p, prev = Some p → (u1 = u ↔ bool_decide (ae_previous_hash e = p) = true))
    as (u1 & -> & Bu1 & Eu).
  { destruct prev as [p|].
    - destruct (bump_run (bool_decide (ae_previous_hash e = p)) u c w) as (u1 & ? & ? & ?);
        [lia..|]. exists u1. split_and!; try done; try lia. by intros ? [= <-].
    - exists u. split_and!; try done; lia. }
  destruct (IH (i + 1) (Some (ae_current_hash e)) m f1 u1)
    as (m' & f' & u' & -> & ? & ? & ? & Hch); [lia..|].
  exists m', f', u'. split_and!; try done; try lia. intros p Hp. obind.
  specialize (Hch _ eq_refl). specialize (Eu p Hp). unfold links.
  destruct (bool_decide (ae_previous_hash e = p)), (bool_decide (entry_hash e = ae_current_hash e));
    cbn [andb]; [rewrite <- Hch; assert (u1 = u) by (by apply Eu); assert (f1 = f) by (by apply Ef); lia|..];
    (split; [intros (? & ? & ?); exfalso; assert (u1 = u) as Xu by lia;
      assert (f1 = f) as Xf by lia; apply Eu in Xu; apply Ef in Xf; done|by intros [? [=]]]).
Qed.

Lemma audit_governance_events_run c w :
  0 <= audit_count (persistent w) <= U32_MAX →
  ∃ r, audit_governance_events c w = Ok r w ∧
    gar_total_events r = audit_count (persistent w) ∧
    (gar_complete r = true ↔
      is_Some (chain_from (persistent w) (Z.to_nat (audit_count (persistent w))) 1 [])).
Proof.
  intros Hc. unfold audit_governance_events. rewrite run_bind. cbn [get_or].
  change (default 0 (persistent w KeyAuditEntryCount)) with (audit_count (persistent w)).
  rewrite run_bind.
  destruct (audit_events_from_run c w (Z.to_nat (audit_count (persistent w))) 1 (Some []) 0 0 0)
    as (m & f & u & -> & ? & ? & ? & Hch); [lia..|].
  eexists. split; [done|]. split; [done|]. cbn [gar_complete].
  rewrite <- (Hch [] eq_refl), !andb_true_iff, !Z.eqb_eq. tauto.
Qed.
End Report.

(** ** Treasury budgets *)

Section Treasury.

(** What the records say was spent from a category. *)
Fixpoint spent (category : BudgetCategory) (records : list TreasurySpendRecord) : Z :=
  match records with
  | [] => 0
  | r :: rest =>
      (match tsr_outcome r with
       | Approved => if budget_code (tsr_category r) =? budget_code category
                     then tsr_amount r else 0
       | _ => 0
       end) + spent category rest
  end.

Lemma spent_app category l l' : spent category (l ++ l') = spent category l + spent category l'.
Proof. induction l as [|r l IH]; simpl; [done|]. rewrite IH. lia. Qed.

Definition records_of (w : World) : list TreasurySpendRecord := default [] (persistent w KeyTREASREC).
Definition budget_of (w : World) (category : BudgetCategory) : Z :=
  default 0 (persistent w (KeyTREASBUD (budget_code category))).

(** When a request is approved: the guards of [evaluate_spend]. *)
Definition spend_outcome (w : World) (request : TreasurySpendRequest) : SpendOutcome :=
  if tsq_amount request <=? 0 then RejectedInvalidAmount
  else if negb (tsq_approved request) then RejectedUnapproved
  else if bool_decide (tsq_payment_evidence request = ""%string) then RejectedMissingEvidence
  else if budget_of w (tsq_category request) <? tsq_amount request then RejectedOverBudget
  else Approved.

Lemma evaluate_spend_run request c w :
  evaluate_spend request c w = Ok (spend_outcome w request) w.
Proof.
  unfold evaluate_spend, spend_outcome, category_budget. destruct (tsq_amount request <=? 0); [done|].
  destruct (tsq_approved request); [|done]. cbn [negb].
  destruct (bool_decide (tsq_payment_evidence request = ""%string)); [done|].
  rewrite run_bind. cbn [get_or]. unfold budget_of.
  by destruct (_ <? tsq_amount request).
Qed.

Lemma budget_code_inj a b : budget_code a = budget_code b → a = b.
Proof. by destruct a, b. Qed.

Definition spend_record (request : TreasurySpendRequest) (outcome : SpendOutcome) (now : Z)
    : TreasurySpendRecord :=
  {| tsr_proposal_id := tsq_proposal_id request; tsr_category := tsq_category request;
     tsr_amount := tsq_amount request; tsr_approver := tsq_approver request;
     tsr_payment_evidence := tsq_payment_evidence request; tsr_outcome := outcome;
     tsr_timestamp := now |}.

Lemma budget_of_ext (w w' : World) category :
  persistent w' (KeyTREASBUD (budget_code category)) =
  persistent w (KeyTREASBUD (budget_code category)) →
  budget_of w' category = budget_of w category.
Proof. intros E. unfold budget_of. by rewrite E. Qed.

Lemma budget_of_put (w : World) category (v : Z) :
  persistent w (KeyTREASBUD (budget_code category)) = Some v → budget_of w category = v.
Proof. intros E. unfold budget_of. by rewrite E. Qed.

Lemma authorize_run `{BuildProfile} request c w :
  in_i128 (budget_of w (tsq_category request)) →
  let r := spend_record request (spend_outcome w request) (timestamp c) in
  ∃ w', authorize_treasury_spend request c w = Ok (spend_outcome w request) w' ∧
    records_of w' = records_of w ++ [r] ∧
    ∀ category, budget_of w' category = budget_of w category - spent category [r].
Proof.
  intros Hb. unfold authorize_treasury_spend. rewrite run_bind, evaluate_spend_run, run_bind.
  destruct (spend_outcome w request) eqn:Eo.
  2-5: cbn; eexists; split; [done|]; unfold records_of; cbn [persistent]; split;
    [by read_store|intros cat; rewrite (budget_of_ext w) by (by read_store); lia].
  assert (0 < tsq_amount request <= budget_of w (tsq_category request)) as Hamt.
  { unfold spend_outcome in Eo. repeat (case_if; try discriminate Eo). bool_hyps. lia. }
  rewrite run_bind. cbn [category_budget get_or].
  change (default 0 (persistent w (KeyTREASBUD (budget_code (tsq_category request)))))
    with (budget_of w (tsq_category request)).
  rewrite run_bind, i128_ok by (unfold in_i128, I128_MIN, I128_MAX in *; lia).
  eexists. split; [done|]. unfold records_of. cbn [persistent]. split; [by read_store|].
  intros cat. cbn [spent spend_record tsr_outcome tsr_category tsr_amount].
  destruct (Z.eqb_spec (budget_code (tsq_category request)) (budget_code cat)) as [E|E].
  - apply budget_code_inj in E as <-.
    rewrite (budget_of_put _ _ (budget_of w (tsq_category request) - tsq_amount request))
      by (by read_store). lia.
  - rewrite (budget_of_ext w) by (by read_store). lia.
Qed.
End Treasury.

(** ** The properties of the component *)

(** A hash for the witnesses: any function into 32 bytes satisfies the one
    law of [Crypto]. *)
Definition toy_hash (b : Bytes) : Bytes :=
  replicate 31 0 ++ [foldl (λ acc x, (acc * 31 + x + 7) mod 65521) 1 b].

Lemma toy_hash_length b : length (toy_hash b) = 32%nat.
Proof. unfold toy_hash. by rewrite length_app, length_replicate. Qed.

Definition toy_crypto : Crypto :=
  {| sha256 := toy_hash; address_to_xdr a := [Z.of_N a]; sha256_length := toy_hash_length |}.

Definition toy_ctx : Ctx := MkCtx 10 1000 (λ _, true) 99%N.

(** Appending to a valid log always succeeds (below [u32::MAX] entries)
    and keeps it valid: [verify_audit_chain] accepts it, every earlier entry
    is untouched, the new entry records the action, the administrator and the
    ledger, and the governance report agrees. *)
Theorem append_keeps_chain `{BuildProfile} `{Crypto} action admin data c c' w :
  audit_ok w → audit_count (persistent w) < U32_MAX →
  ∃ w', append_audit_entry action admin data c w = Ok tt w' ∧ audit_ok w' ∧
    audit_count (persistent w') = audit_count (persistent w) + 1 ∧
    verify_audit_chain c' w' = Ok true w' ∧
    (∀ j, j ≠ audit_count (persistent w) + 1 →
       persistent w' (KeyAuditEntry j) = persistent w (KeyAuditEntry j)) ∧
    persistent w' (KeyAuditEntry (audit_count (persistent w) + 1)) =
      Some (new_entry c (persistent w) action admin data) ∧
    ∃ r, audit_governance_events c' w' = Ok r w' ∧ gar_complete r = true.
Proof.
  intros Hok Hc. exists (after_append c w action admin data).
  destruct (chain_after_append c w action admin data Hok Hc) as [Hok' Ho]. destruct Hok as [H0' _].
  pose proof (audit_count_after_append c w action admin data) as Hc'.
  split_and!; [by apply append_audit_entry_run|done|done| |done| |].
  - rewrite verify_audit_chain_run, (proj2 Hok'). by rewrite bool_decide_true.
  - unfold after_append. by read_store.
  - destruct (audit_governance_events_run c' (after_append c w action admin data))
      as (r & -> & _ & Hr); [rewrite Hc'; lia|].
    exists r. split; [done|]. apply Hr. by rewrite (proj2 Hok').
Qed.

Lemma append_keeps_chain_witness :
  ∃ w', @append_audit_entry Wrapping toy_crypto "pause" 7%N [] toy_ctx empty_world = Ok tt w' ∧
    @verify_audit_chain toy_crypto toy_ctx w' = Ok true w'.
Proof.
  destruct (@append_keeps_chain Wrapping toy_crypto "pause" 7%N [] toy_ctx toy_ctx empty_world)
    as (w' & Hw & _ & _ & Hv & _); [split; [vm_compute; discriminate|done]|done|].
  exists w'. split; [exact Hw|exact Hv].
Defined.


Definition one_entry_world : World :=
  after_append (CR := toy_crypto) toy_ctx empty_world "pause" 7%N [].

Lemma one_entry_ok : audit_ok (CR := toy_crypto) one_entry_world.
Proof. split; [vm_compute; discriminate|by vm_compute]. Qed.

Lemma one_entry_range i e :
  persistent one_entry_world (KeyAuditEntry i) = Some e → entry_in_range e.
Proof.
  unfold one_entry_world, after_append.
  destruct (decide (i = 1)) as [->|Hi]; read_store.
  - intros [= <-]. split; vm_compute; split; discriminate.
  - rewrite persistent_put_ne by (intros [= E]; cbn in E; lia). done.
Qed.


(** The hash of an entry covers neither the action nor the administrator
    nor the ledger: an entry whose action and administrator are overwritten
    still verifies, so the log is not evidence of who did what. *)
Theorem audit_hash_misses_action `{Crypto} c w i e action admin ledger :
  audit_ok w → persistent w (KeyAuditEntry i) = Some e →
  let forged := {| ae_id := ae_id e; ae_action := action; ae_admin := admin;
                   ae_data := ae_data e; ae_ledger := ledger; ae_timestamp := ae_timestamp e;
                   ae_previous_hash := ae_previous_hash e;
                   ae_current_hash := ae_current_hash e |} in
  let w' := put_persistent (KeyAuditEntry i) (Some forged) w in
  verify_audit_chain c w' = Ok true w'.
Proof.
  intros [_ Hch] He forged w'. rewrite verify_audit_chain_run.
  assert (audit_count (persistent w') = audit_count (persistent w)) as ->.
  { unfold audit_count, w'. by read_store. }
  enough (∀ n j p, chain_from (persistent w') n j p = chain_from (persistent w) n j p) as ->.
  { rewrite Hch. by rewrite bool_decide_true. }
  intros n. induction n as [|n IH]; intros j p; [done|]. cbn [chain_from].
  destruct (decide (j = i)) as [->|Hj].
  - replace (persistent w' (KeyAuditEntry i)) with (Some forged)
      by (unfold w'; by rewrite persistent_put_eq).
    rewrite He. obind. unfold links, entry_hash. simpl.
    by rewrite IH.
  - replace (persistent w' (KeyAuditEntry j)) with (persistent w (KeyAuditEntry j))
      by (unfold w'; rewrite persistent_put_ne by congruence; done).
    destruct (persistent w (KeyAuditEntry j)) as [e'|]; [|done]. obind. by rewrite IH.
Qed.

Lemma audit_hash_misses_action_witness :
  ∃ w', w' ≠ one_entry_world ∧ @verify_audit_chain toy_crypto toy_ctx w' = Ok true w'.
Proof.
  set (e := new_entry (CR := toy_crypto) toy_ctx empty_store "pause" 7%N []).
  assert (persistent one_entry_world (KeyAuditEntry 1) = Some e) as He by done.
  eexists. split; [|exact (@audit_hash_misses_action toy_crypto toy_ctx one_entry_world 1 e "unpause"
    8%N 3 one_entry_ok He)].
  intros E. apply (f_equal (λ w, persistent w (KeyAuditEntry 1))) in E.
  rewrite persistent_put_eq, He in E. discriminate E.
Defined.

(** Treasury conservation: whatever the request, authorisation succeeds,
    appends exactly one record with the outcome, approves only a positive,
    approved, evidenced amount within the category's budget, and in every
    category the budget plus the recorded spending is unchanged. *)
Theorem treasury_spend_conserves `{BuildProfile} request c w :
  in_i128 (budget_of w (tsq_category request)) →
  ∃ outcome w', authorize_treasury_spend request c w = Ok outcome w' ∧
    records_of w' =
      records_of w ++ [spend_record request outcome (timestamp c)] ∧
    (outcome = Approved ↔
       0 < tsq_amount request <= budget_of w (tsq_category request) ∧
       tsq_approved request = true ∧ tsq_payment_evidence request ≠ ""%string) ∧
    (∀ category, budget_of w' category + spent category (records_of w') =
                 budget_of w category + spent category (records_of w)) ∧
    (0 <= budget_of w (tsq_category request) → 0 <= budget_of w' (tsq_category request)).
Proof.
  intros Hb. destruct (authorize_run request c w Hb) as (w' & Hrun & Hrec & Hbud).
  assert (spend_outcome w request = Approved ↔
    0 < tsq_amount request <= budget_of w (tsq_category request) ∧
    tsq_approved request = true ∧ tsq_payment_evidence request ≠ ""%string) as Hout.
  { unfold spend_outcome. repeat case_if; rewrite ?bool_decide_eq_true, ?bool_decide_eq_false in *;
      bool_hyps; (split; [try discriminate|]); intuition (try lia; try congruence). }
  exists (spend_outcome w request), w'. split_and!; [done|done|done| |].
  - intros cat. rewrite Hrec, spent_app, Hbud. lia.
  - intros H0. rewrite Hbud. cbn [spent spend_record tsr_outcome tsr_category tsr_amount].
    rewrite Z.eqb_refl. destruct (spend_outcome w request); try lia.
    destruct (proj1 Hout eq_refl). lia.
Qed.

Lemma treasury_spend_conserves_witness :
  let w := put_persistent (KeyTREASBUD 2) (Some (500 : Z)) empty_world in
  let r := MkTreasurySpendRequest "p1" BudgetSecurity 200 7%N true "invoice" in
  ∃ outcome w', @authorize_treasury_spend OverflowChecks r toy_ctx w = Ok outcome w' ∧
    budget_of w' BudgetSecurity + spent BudgetSecurity (records_of w') = 500.
Proof.
  intros w r. destruct (@treasury_spend_conserves OverflowChecks r toy_ctx w)
    as (o & w' & Hrun & _ & _ & Hc & _); [by vm_compute|].
  exists o, w'. split; [exact Hrun|]. exact (Hc BudgetSecurity).
Defined.
