(* ===== verification/Config.v ===== *)
(** * [feature_flags.rs], [admin.rs], [pause.rs], [config_history.rs] and the
    accessors of [storage.rs]: configuration

    Every parameter is a persistent entry with a default; the hot ones are
    read only when their feature bit is set.  Setters are for the
    administrator, validate, snapshot the whole configuration and then write.
    The theorems show that the snapshot history restores exactly the
    configuration that was in force. *)
From stdpp Require Import base list gmap strings.
From S2P Require Import Prelude Machine Types Host AuditLog.
#[local] Open Scope Z_scope.
#[local] Set Default Goal Selector "!".

(** ** [feature_flags.rs] *)

Module Flags.
Definition INFLUENCE_CAP : Z := Z.shiftl 1 0.
Definition ANOMALY_RETENTION : Z := Z.shiftl 1 1.
Definition BFT : Z := Z.shiftl 1 2.
Definition COMPACTION_THRESHOLD : Z := Z.shiftl 1 3.
Definition PAUSE : Z := Z.shiftl 1 4.
Definition TIMESTAMP_THRESHOLD : Z := Z.shiftl 1 5.
Definition COMMIT_REVEAL : Z := Z.shiftl 1 6.
Definition CONTRIB_SCORING_WINDOW : Z := Z.shiftl 1 7.
Definition CORRELATION : Z := Z.shiftl 1 8.
Definition FRESHNESS_WINDOW : Z := Z.shiftl 1 9.
Definition MAX_AGGREGATION_SOURCES : Z := Z.shiftl 1 10.
Definition MAX_EVENTS_PER_CALL : Z := Z.shiftl 1 11.
Definition MAX_HISTORY_PER_ASSET : Z := Z.shiftl 1 12.
Definition MIN_SUBMISSION_INTERVAL : Z := Z.shiftl 1 13.
Definition PUBLICATION_GUARDS : Z := Z.shiftl 1 14.
Definition RISK_TIER : Z := Z.shiftl 1 15.
Definition SOURCE_BOND : Z := Z.shiftl 1 16.
Definition ASSET_POLICY : Z := Z.shiftl 1 17.
Definition ASSET_DEFERRAL : Z := Z.shiftl 1 18.
Definition ASSET_DISABLED : Z := Z.shiftl 1 19.
Definition ASSET_MIN_SUBMISSION_INTERVAL : Z := Z.shiftl 1 20.
Definition STORAGE_TIER : Z := Z.shiftl 1 21.
Definition SOURCE_LIFECYCLE : Z := Z.shiftl 1 22.
Definition DQ_PIPELINE : Z := Z.shiftl 1 23.
Definition SOURCE_COMPARISON : Z := Z.shiftl 1 24.
Definition FRESHNESS_CURVE : Z := Z.shiftl 1 25.
Definition FREEZE : Z := Z.shiftl 1 26.
Definition OUTLIER_FILTER : Z := Z.shiftl 1 27.
Definition PRICE_CALLBACK : Z := Z.shiftl 1 28.
Definition TRIGGERS : Z := Z.shiftl 1 29.
Definition BLACKOUT : Z := Z.shiftl 1 30.
Definition SOURCE_ASSETS : Z := Z.shiftl 1 31.
Definition SOURCE_DEMERITS : Z := Z.shiftl 1 32.
Definition SOURCE_INACTIVE : Z := Z.shiftl 1 33.

Definition read : M Z := flags ← get_flags; mret (default 0 flags).

Definition on (bit : Z) : M bool :=
  flags ← read; mret (negb (Z.land flags bit =? 0)).

Definition mark (bit : Z) : M unit :=
  flags ← read;
  if negb (Z.land flags bit =? bit) then set_flags (Z.lor flags bit)
  else mret tt.

Definition mark_all : M unit := set_flags U64_MAX.

(** What [on] answers in a world. *)
Definition is_on (w : World) (bit : Z) : bool :=
  negb (Z.land (default 0 (instance_flags w)) bit =? 0).
End Flags.

(** ** Accessors of [storage.rs] *)

Definition DEFAULT_QUERY_RATE_LIMIT : Z := 100.

Definition get_admin : M Address := get_unwrap KeyAdmin.

(** [let admin = get_admin(env); admin.require_auth();] *)
Definition auth_admin : M Address := admin ← get_admin; require_auth admin;; mret admin.

Definition read_registered_assets : M (list Address) := get_bump_or KeyAssetRegistry [].
Definition write_registered_assets (assets : list Address) : M unit := set KeyAssetRegistry assets.

Definition read_oracle_sources : M OracleSources :=
  get_bump_or KeySrcRegistry {| os_sources := []; os_metadata := ∅; os_verification := ∅ |}.

Definition is_source_inactive (source : Address) : M bool :=
  b ← Flags.on Flags.SOURCE_INACTIVE;
  if negb b then mret false else get_or (KeySrcInactive source) false.

Definition mark_source_inactive (source : Address) : M unit :=
  Flags.mark Flags.SOURCE_INACTIVE;; set (KeySrcInactive source) true.

Definition mark_source_active (source : Address) : M unit :=
  b ← Flags.on Flags.SOURCE_INACTIVE;
  if negb b then mret tt else remove (KeySrcInactive source).

Definition check_rate_limit (consumer : Address) : M bool :=
  ledger ← ledger_sequence;
  count ← get_temporary_or (KeyQueryCount consumer ledger) 0;
  max_queries ← get_or KeyQueryRateLimit DEFAULT_QUERY_RATE_LIMIT;
  mret (count <? max_queries).

Definition increment_query_count `{BuildProfile} (consumer : Address) : M Z :=
  ledger ← ledger_sequence;
  count ← get_temporary_or (KeyQueryCount consumer ledger) 0;
  new_count ← lift (u32 (count + 1));
  set_temporary (KeyQueryCount consumer ledger) new_count;;
  extend_ttl_temporary (KeyQueryCount consumer ledger);;
  mret new_count.

Definition read_subscription_plans : M (gmap Z Z) := get_or KeySubscriptionPlans ∅.
Definition write_subscription_plans (plans : gmap Z Z) : M unit := set KeySubscriptionPlans plans.
Definition get_plan_amount (duration : Z) : M (option Z) :=
  plans ← read_subscription_plans; mret (plans !! duration).
Definition read_subscription_expiry (consumer : Address) : M (option Z) :=
  get (KeySubscriptionExpiry consumer).
Definition write_subscription_expiry (consumer : Address) (expiry : Z) : M unit :=
  set (KeySubscriptionExpiry consumer) expiry.

Definition is_subscribed (consumer : Address) : M bool :=
  expiry ← get_or (KeySubscriptionExpiry consumer) 0;
  if 0 <? (expiry : Z) then now ← ledger_timestamp; mret (now <? expiry) else mret false.

(** ** Configuration getters of [admin.rs], [pause.rs], [timelock.rs] *)

Definition DEFAULT_MAX_HISTORY : Z := 100.
Definition DEFAULT_MIN_SOURCES : Z := 1.
Definition DEFAULT_MAX_ASSETS : Z := 100.
Definition DEFAULT_DECIMALS : Z := 18.
Definition DEFAULT_RESOLUTION : Z := 0.
Definition DEFAULT_TIMESTAMP_THRESHOLD : Z := 300.
Definition DEFAULT_OPTIMISTIC_DISPUTE_WINDOW : Z := 120.
Definition DEFAULT_OPTIMISTIC_MIN_BOND : Z := 100000000.
Definition MAX_DESCRIPTION_LENGTH : Z := 256.
Definition DEFAULT_MAX_PRICE_DEVIATION : Z := 500.
Definition DEFAULT_HEARTBEAT_INTERVAL : Z := 3600.
Definition DEFAULT_MAX_INVALID_SUBMISSIONS : Z := 5.
Definition DEFAULT_MAX_HISTORY_PER_ASSET : Z := 1000.
Definition DEFAULT_MAX_EVENTS_PER_CALL : Z := 20.
Definition DEFAULT_MAX_AGGREGATION_SOURCES : Z := 0.
Definition MAX_MIN_SOURCES : Z := 100000.
Definition MAX_MAX_HISTORY : Z := 1000000.
Definition MAX_RESOLUTION : Z := 1000000.
Definition MAX_TIMESTAMP_THRESHOLD : Z := 86400.
Definition MAX_HEARTBEAT_INTERVAL : Z := 31536000.

(** A getter behind a feature bit. *)
Definition get_flagged (bit : Z) k (d : interp (ty_of k)) : M (interp (ty_of k)) :=
  b ← Flags.on bit; if negb b then mret d else get_bump_or k d.

Definition get_min_sources_required : M Z :=
  b ← has KeyCfgMinSources;
  (if b : bool then extend_ttl KeyCfgMinSources else mret tt);;
  v ← get KeyCfgMinSources;
  match v with Some v => mret v | None => panic_with_error ConfigMissing end.
Definition get_max_history_length : M Z := get_bump_or KeyCfgMaxHistory DEFAULT_MAX_HISTORY.
Definition get_resolution : M Z := get_bump_or KeyCfgResolution DEFAULT_RESOLUTION.
Definition get_decimals : M Z := get_bump_or KeyCfgDecimals DEFAULT_DECIMALS.
Definition get_description : M string := get_bump_or KeyCfgDescription "Stellar Price Oracle"%string.
Definition get_aggregation_method : M Z := get_bump_or KeyCfgAggregationMethod 0.
Definition get_timestamp_threshold : M Z :=
  get_flagged Flags.TIMESTAMP_THRESHOLD KeyCfgTimestampThreshold DEFAULT_TIMESTAMP_THRESHOLD.
Definition get_max_price_deviation : M Z :=
  get_bump_or KeyCfgMaxDeviation DEFAULT_MAX_PRICE_DEVIATION.
Definition get_circuit_breaker_threshold : M Z := get_bump_or KeyCircuitBreakerThreshold 0.
Definition get_heartbeat_interval : M Z :=
  get_bump_or KeyCfgHeartbeatInterval DEFAULT_HEARTBEAT_INTERVAL.
Definition get_max_history_per_asset : M Z :=
  get_flagged Flags.MAX_HISTORY_PER_ASSET KeyMaxHistoryPerAsset DEFAULT_MAX_HISTORY_PER_ASSET.
Definition get_max_events_per_call : M Z :=
  get_flagged Flags.MAX_EVENTS_PER_CALL KeyMaxEventsPerCall DEFAULT_MAX_EVENTS_PER_CALL.
Definition get_max_aggregation_sources : M Z :=
  get_flagged Flags.MAX_AGGREGATION_SOURCES KeyMaxAggregationSources
    DEFAULT_MAX_AGGREGATION_SOURCES.
Definition get_aggregation_cooldown : M Z := get_bump_or KeyAggregationCooldown 10.
Definition get_min_submission_interval : M Z :=
  get_flagged Flags.MIN_SUBMISSION_INTERVAL KeyMinSubmissionInterval 0.
Definition get_interpolation_enabled : M bool := get_bump_or KeyInterpolationEnabled true.
Definition get_max_sources : M Z := get_bump_or KeyMaxSources 0.
Definition get_query_rate_limit : M Z := get_bump_or KeyQueryRateLimit DEFAULT_QUERY_RATE_LIMIT.
Definition get_max_assets : M Z := get_bump_or KeyMaxAssets DEFAULT_MAX_ASSETS.
Definition is_paused : M bool :=
  b ← Flags.on Flags.PAUSE; if negb b then mret false else get_or KeyCfgPauseFlag false.
Definition get_timelock_duration : M Z := get_bump_or KeyCfgTimelockDuration 10.

Definition get_asset_resolution (asset : Address) : M Z :=
  r ← get (KeyAssetResolution asset);
  match r with
  | Some r => extend_ttl (KeyAssetResolution asset);; mret r
  | None => get_resolution
  end.
Definition get_optimistic_dispute_window : M Z :=
  get_bump_or KeyCfgOptimisticDisputeWindow DEFAULT_OPTIMISTIC_DISPUTE_WINDOW.
Definition get_optimistic_min_bond : M Z :=
  get_bump_or KeyCfgOptimisticMinBond DEFAULT_OPTIMISTIC_MIN_BOND.

Definition check_not_paused : M unit := p ← is_paused; panic_if p ContractPaused.

Definition is_asset_disabled (asset : Address) : M bool :=
  b ← Flags.on Flags.ASSET_DISABLED;
  if negb b then mret false
  else
    disabled ← get_or (KeyAssetDisabled asset) false;
    (if disabled : bool then extend_ttl (KeyAssetDisabled asset) else mret tt);;
    mret disabled.

Definition get_asset_disabled_at (asset : Address) : M Z :=
  disabled_at ← get_or (KeyAssetDisabledAt asset) 0;
  (if 0 <? (disabled_at : Z) then extend_ttl (KeyAssetDisabledAt asset) else mret tt);;
  mret disabled_at.

(** ** [config_history.rs] *)

Definition MAX_CONFIG_HISTORY : nat := 100.

Section Config.
Context `{BP : BuildProfile} `{CR : Crypto}.

Definition capture_current (version : Z) : M ConfigSnapshot :=
  ledger ← ledger_sequence;
  timestamp ← ledger_timestamp;
  min_sources_required ← get_min_sources_required;
  max_history_length ← get_max_history_length;
  resolution ← get_resolution;
  decimals ← get_decimals;
  description ← get_description;
  aggregation_method ← get_aggregation_method;
  timestamp_threshold ← get_timestamp_threshold;
  max_price_deviation ← get_max_price_deviation;
  circuit_breaker_threshold ← get_circuit_breaker_threshold;
  heartbeat_interval ← get_heartbeat_interval;
  max_history_per_asset ← get_max_history_per_asset;
  max_events_per_call ← get_max_events_per_call;
  max_aggregation_sources ← get_max_aggregation_sources;
  aggregation_cooldown ← get_aggregation_cooldown;
  min_submission_interval ← get_min_submission_interval;
  interpolation_enabled ← get_interpolation_enabled;
  max_sources ← get_max_sources;
  query_rate_limit ← get_query_rate_limit;
  max_assets ← get_max_assets;
  paused ← is_paused;
  timelock_duration ← get_timelock_duration;
  mret {| cs_version := version; cs_ledger := ledger; cs_timestamp := timestamp;
          cs_min_sources_required := min_sources_required;
          cs_max_history_length := max_history_length; cs_resolution := resolution;
          cs_decimals := decimals; cs_description := description;
          cs_aggregation_method := aggregation_method;
          cs_timestamp_threshold := timestamp_threshold;
          cs_max_price_deviation := max_price_deviation;
          cs_circuit_breaker_threshold := circuit_breaker_threshold;
          cs_heartbeat_interval := heartbeat_interval;
          cs_max_history_per_asset := max_history_per_asset;
          cs_max_events_per_call := max_events_per_call;
          cs_max_aggregation_sources := max_aggregation_sources;
          cs_aggregation_cooldown := aggregation_cooldown;
          cs_min_submission_interval := min_submission_interval;
          cs_interpolation_enabled := interpolation_enabled; cs_max_sources := max_sources;
          cs_query_rate_limit := query_rate_limit; cs_max_assets := max_assets;
          cs_paused := paused; cs_timelock_duration := timelock_duration |}.

Definition read_version_index : M (list Z) := get_or KeyConfigVersionIndex [].
Definition write_version_index (index : list Z) : M unit :=
  set KeyConfigVersionIndex index;; extend_ttl KeyConfigVersionIndex.

(** [while index.len() > MAX_CONFIG_HISTORY]: drops the oldest version. *)
Fixpoint prune_versions (index : list Z) : M (list Z) :=
  if (MAX_CONFIG_HISTORY <? length index)%nat then
    match index with
    | old :: index => remove (KeyConfigSnapshot old);; prune_versions index
    | [] => panic
    end
  else mret index.

Definition store_snapshot (snapshot : ConfigSnapshot) (admin : Address) : M unit :=
  let version := cs_version snapshot in
  set (KeyConfigSnapshot version) snapshot;;
  extend_ttl (KeyConfigSnapshot version);;
  set KeyConfigVersionCount version;;
  extend_ttl KeyConfigVersionCount;;
  index ← read_version_index;
  index ← prune_versions (index ++ [version]);
  write_version_index index;;
  publish (MkConfigSnapshotTakenEvent admin version (cs_ledger snapshot)).

Definition snapshot_before_change (admin : Address) : M Z :=
  count ← get_or KeyConfigVersionCount 0;
  version ← lift (u32 (count + 1));
  snapshot ← capture_current version;
  store_snapshot snapshot admin;;
  mret version.

(** [get_config_history]: the newest [count] retained snapshots. *)
Fixpoint history_from (index_rev : list Z) (returned take : nat) : M (list ConfigSnapshot) :=
  match index_rev with
  | version :: rest =>
      if (returned <? take)%nat then
        s ← get (KeyConfigSnapshot version);
        match s with
        | Some s => l ← history_from rest (S returned) take; mret (s :: l)
        | None => history_from rest returned take
        end
      else mret []
  | [] => mret []
  end.

Definition get_config_history (count : Z) : M (list ConfigSnapshot) :=
  if count =? 0 then mret []
  else
    index ← read_version_index;
    if (length index =? 0)%nat then mret []
    else
      let take := Nat.min (Nat.min (Z.to_nat count) (length index)) MAX_CONFIG_HISTORY in
      history_from (reverse index) 0 take.

Definition apply_snapshot (snapshot : ConfigSnapshot) : M unit :=
  set KeyCfgMinSources (cs_min_sources_required snapshot);;
  set KeyCfgMaxHistory (cs_max_history_length snapshot);;
  set KeyCfgResolution (cs_resolution snapshot);;
  set KeyCfgDecimals (cs_decimals snapshot);;
  set KeyCfgDescription (cs_description snapshot);;
  set KeyCfgAggregationMethod (cs_aggregation_method snapshot);;
  Flags.mark (Z.lor Flags.TIMESTAMP_THRESHOLD (Z.lor Flags.MAX_HISTORY_PER_ASSET
    (Z.lor Flags.MAX_EVENTS_PER_CALL (Z.lor Flags.MAX_AGGREGATION_SOURCES
    (Z.lor Flags.MIN_SUBMISSION_INTERVAL Flags.PAUSE)))));;
  set KeyCfgTimestampThreshold (cs_timestamp_threshold snapshot);;
  set KeyCfgMaxDeviation (cs_max_price_deviation snapshot);;
  set KeyCircuitBreakerThreshold (cs_circuit_breaker_threshold snapshot);;
  set KeyCfgHeartbeatInterval (cs_heartbeat_interval snapshot);;
  set KeyMaxHistoryPerAsset (cs_max_history_per_asset snapshot);;
  set KeyMaxEventsPerCall (cs_max_events_per_call snapshot);;
  set KeyMaxAggregationSources (cs_max_aggregation_sources snapshot);;
  set KeyAggregationCooldown (cs_aggregation_cooldown snapshot);;
  set KeyMinSubmissionInterval (cs_min_submission_interval snapshot);;
  set KeyInterpolationEnabled (cs_interpolation_enabled snapshot);;
  set KeyMaxSources (cs_max_sources snapshot);;
  set KeyQueryRateLimit (cs_query_rate_limit snapshot);;
  set KeyMaxAssets (cs_max_assets snapshot);;
  set KeyCfgPauseFlag (cs_paused snapshot);;
  set KeyCfgTimelockDuration (cs_timelock_duration snapshot).

Definition rollback_config (version : Z) : M unit :=
  admin ← auth_admin;
  target ← get (KeyConfigSnapshot version);
  match target with
  | None => panic_with_error ConfigVersionNotFound
  | Some target =>
      saved_version ← snapshot_before_change admin;
      apply_snapshot target;;
      publish (MkConfigRolledBackEvent admin version saved_version);;
      emit_admin_action "rollback" admin []
  end.

(** ** [pause.rs] *)

Definition pause : M unit :=
  admin ← auth_admin;
  _ ← snapshot_before_change admin;
  Flags.mark Flags.PAUSE;;
  set KeyCfgPauseFlag true;;
  publish (MkContractPausedEvent admin);;
  emit_admin_action "pause" admin [].

Definition unpause : M unit :=
  admin ← auth_admin;
  _ ← snapshot_before_change admin;
  set KeyCfgPauseFlag false;;
  publish (MkContractUnpausedEvent admin);;
  emit_admin_action "unpause" admin [].
End Config.

(** ** Reading the configuration

    Every getter is a function of the world that leaves it unchanged. *)

Lemma run_flag_on bit c w : Flags.on bit c w = Ok (Flags.is_on w bit) w.
Proof. done. Qed.

Definition flagged (w : World) (bit : Z) k (d : interp (ty_of k)) : interp (ty_of k) :=
  if Flags.is_on w bit then default d (persistent w k) else d.

Lemma run_get_flagged bit k d c w : get_flagged bit k d c w = Ok (flagged w bit k d) w.
Proof.
  unfold get_flagged, flagged. rewrite run_bind, run_flag_on. destruct (Flags.is_on w bit); [|done].
  apply run_get_bump_or.
Qed.

Lemma run_get_min_sources c w :
  get_min_sources_required c w =
    match persistent w KeyCfgMinSources with
    | Some v => Ok v w
    | None => Err (Error ConfigMissing)
    end.
Proof.
  unfold get_min_sources_required. rewrite !run_bind. unfold has, extend_ttl.
  destruct (persistent w KeyCfgMinSources) eqn:E; simpl;
    rewrite run_bind, ?E; simpl; rewrite run_bind; simpl; by rewrite E.
Qed.

Definition paused (w : World) : bool :=
  if Flags.is_on w Flags.PAUSE then default false (persistent w KeyCfgPauseFlag) else false.

Lemma run_is_paused c w : is_paused c w = Ok (paused w) w.
Proof.
  unfold is_paused, paused. rewrite run_bind, run_flag_on. by destruct (Flags.is_on w Flags.PAUSE).
Qed.

(** The configuration in force, as [capture_current] reads it. *)
Definition config_of (w : World) (version ledger now min_sources : Z) : ConfigSnapshot :=
  {| cs_version := version; cs_ledger := ledger; cs_timestamp := now;
     cs_min_sources_required := min_sources;
     cs_max_history_length := default DEFAULT_MAX_HISTORY (persistent w KeyCfgMaxHistory);
     cs_resolution := default DEFAULT_RESOLUTION (persistent w KeyCfgResolution);
     cs_decimals := default DEFAULT_DECIMALS (persistent w KeyCfgDecimals);
     cs_description := default "Stellar Price Oracle"%string (persistent w KeyCfgDescription);
     cs_aggregation_method := default 0 (persistent w KeyCfgAggregationMethod);
     cs_timestamp_threshold :=
       flagged w Flags.TIMESTAMP_THRESHOLD KeyCfgTimestampThreshold DEFAULT_TIMESTAMP_THRESHOLD;
     cs_max_price_deviation := default DEFAULT_MAX_PRICE_DEVIATION (persistent w KeyCfgMaxDeviation);
     cs_circuit_breaker_threshold := default 0 (persistent w KeyCircuitBreakerThreshold);
     cs_heartbeat_interval :=
       default DEFAULT_HEARTBEAT_INTERVAL (persistent w KeyCfgHeartbeatInterval);
     cs_max_history_per_asset :=
       flagged w Flags.MAX_HISTORY_PER_ASSET KeyMaxHistoryPerAsset DEFAULT_MAX_HISTORY_PER_ASSET;
     cs_max_events_per_call :=
       flagged w Flags.MAX_EVENTS_PER_CALL KeyMaxEventsPerCall DEFAULT_MAX_EVENTS_PER_CALL;
     cs_max_aggregation_sources :=
       flagged w Flags.MAX_AGGREGATION_SOURCES KeyMaxAggregationSources
         DEFAULT_MAX_AGGREGATION_SOURCES;
     cs_aggregation_cooldown := default 10 (persistent w KeyAggregationCooldown);
     cs_min_submission_interval :=
       flagged w Flags.MIN_SUBMISSION_INTERVAL KeyMinSubmissionInterval 0;
     cs_interpolation_enabled := default true (persistent w KeyInterpolationEnabled);
     cs_max_sources := default 0 (persistent w KeyMaxSources);
     cs_query_rate_limit := default DEFAULT_QUERY_RATE_LIMIT (persistent w KeyQueryRateLimit);
     cs_max_assets := default DEFAULT_MAX_ASSETS (persistent w KeyMaxAssets);
     cs_paused := paused w;
     cs_timelock_duration := default 10 (persistent w KeyCfgTimelockDuration) |}.

Lemma run_capture version c w :
  capture_current version c w =
    match persistent w KeyCfgMinSources with
    | Some m => Ok (config_of w version (sequence c) (timestamp c) m) w
    | None => Err (Error ConfigMissing)
    end.
Proof.
  unfold capture_current. do 2 (rewrite run_bind; cbn [ledger_sequence ledger_timestamp]).
  rewrite run_bind, run_get_min_sources. destruct (persistent w KeyCfgMinSources); [|done].
  unfold get_max_history_length, get_resolution, get_decimals, get_description,
    get_aggregation_method, get_timestamp_threshold, get_max_price_deviation,
    get_circuit_breaker_threshold, get_heartbeat_interval, get_max_history_per_asset,
    get_max_events_per_call, get_max_aggregation_sources, get_aggregation_cooldown,
    get_min_submission_interval, get_interpolation_enabled, get_max_sources,
    get_query_rate_limit, get_max_assets, get_timelock_duration.
  repeat (rewrite run_bind; rewrite ?run_get_bump_or, ?run_get_flagged, ?run_is_paused).
  done.
Qed.

(** ** Feature bits *)

Lemma flag_lor f b b' :
  negb (Z.land (Z.lor f b) b' =? 0) = negb (Z.land f b' =? 0) || negb (Z.land b b' =? 0).
Proof.
  rewrite Z.land_lor_distr_l, <- negb_andb. f_equal. apply eq_true_iff_eq.
  rewrite andb_true_iff, !Z.eqb_eq. apply Z.lor_eq_0_iff.
Qed.

Definition marked (bit : Z) (w : World) : World :=
  put_flags
    (if negb (Z.land (default 0 (instance_flags w)) bit =? bit)
     then Some (Z.lor (default 0 (instance_flags w)) bit) else instance_flags w) w.

Lemma run_mark bit c w : Flags.mark bit c w = Ok tt (marked bit w).
Proof.
  unfold Flags.mark, Flags.read, marked. rewrite !run_bind. unfold get_flags. simpl.
  destruct (negb (Z.land (default 0 (instance_flags w)) bit =? bit)); [done|by destruct w].
Qed.

Lemma persistent_marked bit w : persistent (marked bit w) = persistent w.
Proof. done. Qed.

Lemma is_on_marked bit w bit' :
  Flags.is_on (marked bit w) bit' = Flags.is_on w bit' || negb (Z.land bit bit' =? 0).
Proof.
  unfold Flags.is_on, marked. cbn [instance_flags put_flags]. case_if; [apply flag_lor|].
  bool_hyps. match goal with H : Z.land ?f bit = bit |- _ => rewrite <- flag_lor;
    replace (Z.lor f bit) with f; [done|]; apply Z.bits_inj'; intros n _;
    apply (f_equal (λ z, Z.testbit z n)) in H; rewrite Z.land_spec in H;
    rewrite Z.lor_spec, <- H; by destruct (Z.testbit f n) end.
Qed.

Lemma is_on_put_persistent k v w bit : Flags.is_on (put_persistent k v w) bit = Flags.is_on w bit.
Proof. done. Qed.

#[export] Hint Rewrite persistent_marked is_on_marked is_on_put_persistent : oracle_rw.
Ltac read_store_extra ::=
  first [rewrite persistent_marked | rewrite is_on_marked | rewrite is_on_put_persistent].

(** ** Snapshots and rollback *)

Section Rollback.
Context `{BP : BuildProfile} `{CR : Crypto}.

(** Two snapshots hold the same configuration (whenever they were taken). *)
Definition same_config (a b : ConfigSnapshot) : Prop :=
  ∃ version ledger now, b = 
    {| cs_version := version; cs_ledger := ledger; cs_timestamp := now;
       cs_min_sources_required := cs_min_sources_required a;
       cs_max_history_length := cs_max_history_length a; cs_resolution := cs_resolution a;
       cs_decimals := cs_decimals a; cs_description := cs_description a;
       cs_aggregation_method := cs_aggregation_method a;
       cs_timestamp_threshold := cs_timestamp_threshold a;
       cs_max_price_deviation := cs_max_price_deviation a;
       cs_circuit_breaker_threshold := cs_circuit_breaker_threshold a;
       cs_heartbeat_interval := cs_heartbeat_interval a;
       cs_max_history_per_asset := cs_max_history_per_asset a;
       cs_max_events_per_call := cs_max_events_per_call a;
       cs_max_aggregation_sources := cs_max_aggregation_sources a;
       cs_aggregation_cooldown := cs_aggregation_cooldown a;
       cs_min_submission_interval := cs_min_submission_interval a;
       cs_interpolation_enabled := cs_interpolation_enabled a;
       cs_max_sources := cs_max_sources a; cs_query_rate_limit := cs_query_rate_limit a;
       cs_max_assets := cs_max_assets a; cs_paused := cs_paused a;
       cs_timelock_duration := cs_timelock_duration a |}.

(** The configuration the getters see in [w] is that of [snap]. *)
Definition in_force (snap : ConfigSnapshot) (w : World) : Prop :=
  ∃ m, persistent w KeyCfgMinSources = Some m ∧ same_config snap (config_of w 0 0 0 m).

Lemma flagged_on w bit k d : Flags.is_on w bit = true → flagged w bit k d = default d (persistent w k).
Proof. unfold flagged. by intros ->. Qed.

Lemma paused_on w :
  Flags.is_on w Flags.PAUSE = true → paused w = default false (persistent w KeyCfgPauseFlag).
Proof. unfold paused. by intros ->. Qed.

(** The keys the snapshot history owns. *)
Definition history_key (k : DataKey) : Prop :=
  match k with
  | KeyConfigVersionCount | KeyConfigVersionIndex | KeyConfigSnapshot _ => True
  | _ => False
  end.

Lemma apply_snapshot_in_force snap c w :
  ∃ w', apply_snapshot snap c w = Ok tt w' ∧ in_force snap w' ∧
    ∀ k, history_key k ∨ audit_key k ∨ k = KeyAdmin → persistent w' k = persistent w k.
Proof.
  unfold apply_snapshot. repeat (rewrite run_bind; cbn [set]; rewrite ?run_mark).
  eexists. split; [reflexivity|]. split.
  - exists (cs_min_sources_required snap). split; [by vm_compute|]. exists 0, 0, 0.
    unfold config_of. rewrite !flagged_on, paused_on
      by (rewrite !is_on_put_persistent, is_on_marked; apply orb_true_r).
    by vm_compute.
  - intros k Hk. destruct k; cbn in Hk; first [by vm_compute | by destruct Hk as [[]|[[]|[=]]]].
Qed.

(** The retained versions are the newest [min count 100] ones, and exactly
    those have a snapshot. *)
Definition version_count (w : World) : Z := default 0 (persistent w KeyConfigVersionCount).
Definition version_index (w : World) : list Z := default [] (persistent w KeyConfigVersionIndex).
Definition retained (n : Z) : Z := Z.min n (Z.of_nat MAX_CONFIG_HISTORY).

Definition history_ok (w : World) : Prop :=
  let n := version_count w in
  0 <= n ∧ version_index w = seqZ (n - retained n + 1) (retained n) ∧
  ∀ v, is_Some (persistent w (KeyConfigSnapshot v)) ↔ n - retained n < v <= n.

Lemma run_prune_short index c w :
  (length index <= MAX_CONFIG_HISTORY)%nat → prune_versions index c w = Ok index w.
Proof.
  intros Hl. destruct index; cbn [prune_versions]; rewrite (proj2 (Nat.ltb_ge _ _)) by done; done.
Qed.

Lemma run_prune_long old index c w :
  length index = MAX_CONFIG_HISTORY →
  prune_versions (old :: index) c w =
    Ok index (put_persistent (KeyConfigSnapshot old) None w).
Proof.
  intros Hl. cbn [prune_versions]. rewrite (proj2 (Nat.ltb_lt _ _)) by (simpl; lia).
  rewrite run_bind. cbn [remove]. apply run_prune_short. lia.
Qed.

(** The world after a snapshot is taken. *)
Definition snapshot_writes (version : Z) (snap : ConfigSnapshot) (w : World) : World :=
  let w1 := put_persistent KeyConfigVersionCount (Some version)
              (put_persistent (KeyConfigSnapshot version) (Some snap) w) in
  let n := version_count w in
  if n <? Z.of_nat MAX_CONFIG_HISTORY
  then put_persistent KeyConfigVersionIndex (Some (version_index w ++ [version])) w1
  else put_persistent KeyConfigVersionIndex (Some (tail (version_index w) ++ [version]))
         (put_persistent (KeyConfigSnapshot (version - Z.of_nat MAX_CONFIG_HISTORY)) None w1).

Lemma run_snapshot admin c w m :
  history_ok w → version_count w < U32_MAX → persistent w KeyCfgMinSources = Some m →
  let v := version_count w + 1 in
  let snap := config_of w v (sequence c) (timestamp c) m in
  snapshot_before_change admin c w =
    Ok v (add_event (MkConfigSnapshotTakenEvent admin v (sequence c)) (snapshot_writes v snap w)).
Proof.
  intros (H0' & Hidx & _) Hc Hm v snap. unfold snapshot_before_change. rewrite run_bind.
  cbn [get_or]. change (default 0 (persistent w KeyConfigVersionCount)) with (version_count w).
  rewrite run_bind, u32_ok by (unfold in_u32; lia). cbn [lift mret M_ret].
  rewrite run_bind, run_capture, Hm. fold v snap. unfold store_snapshot. cbn [cs_version snap config_of].
  rewrite run_bind. do 2 rewrite run_bind, run_set, run_bind, run_extend_put.
  rewrite run_bind. unfold read_version_index. rewrite run_get_or. read_store.
  change (default [] (persistent w KeyConfigVersionIndex)) with (version_index w).
  assert (length (version_index w) = Z.to_nat (retained (version_count w))) as Hlen
    by (by rewrite Hidx, length_seqZ).
  unfold snapshot_writes. fold v.
  assert (∀ index w', (write_version_index index;;
      publish (MkConfigSnapshotTakenEvent admin v (cs_ledger snap))) c w' =
    Ok tt (add_event (MkConfigSnapshotTakenEvent admin v (sequence c))
      (put_persistent KeyConfigVersionIndex (Some index) w'))) as Hw.
  { intros index w'. unfold write_version_index. run. done. }
  destruct (version_count w <? Z.of_nat MAX_CONFIG_HISTORY) eqn:E; bool_hyps; rewrite run_bind.
  - rewrite run_prune_short by (rewrite length_app, Hlen; unfold retained; simpl; lia).
    by rewrite Hw.
  - assert (retained (version_count w) = Z.of_nat MAX_CONFIG_HISTORY) as Er by (unfold retained; lia).
    rewrite Hidx, Er, seqZ_cons by done. cbn [app tail].
    rewrite run_prune_long by (rewrite length_app, length_seqZ; done).
    rewrite Hw.
    by replace (v - Z.of_nat MAX_CONFIG_HISTORY)
      with (version_count w - Z.of_nat MAX_CONFIG_HISTORY + 1) by (subst v; lia).
Qed.
Lemma snapshot_writes_frame v snap w k :
  ¬ history_key k → persistent (snapshot_writes v snap w) k = persistent w k.
Proof.
  intros Hk. unfold snapshot_writes. case_if.
  all: repeat (rewrite persistent_put_ne by (intros <-; by apply Hk)); done.
Qed.

Lemma snapshot_writes_flags v snap w bit :
  Flags.is_on (snapshot_writes v snap w) bit = Flags.is_on w bit.
Proof. unfold snapshot_writes. by case_if. Qed.

Lemma version_count_writes v snap w : version_count (snapshot_writes v snap w) = v.
Proof. unfold version_count, snapshot_writes. case_if; by read_store. Qed.

Lemma snapshot_lookup v snap w u :
  v = version_count w + 1 →
  persistent (snapshot_writes v snap w) (KeyConfigSnapshot u) =
    if decide (u = v) then Some snap
    else if decide (Z.of_nat MAX_CONFIG_HISTORY <= version_count w ∧
                    u = v - Z.of_nat MAX_CONFIG_HISTORY) then None
    else persistent w (KeyConfigSnapshot u).
Proof.
  intros Hv. unfold snapshot_writes. destruct (decide (u = v)) as [->|Hu].
  - case_if; read_store; [done|]. rewrite persistent_put_ne by (intros [= E]; unfold MAX_CONFIG_HISTORY in E; lia).
    by read_store.
  - case_if; bool_hyps; read_store.
    + rewrite decide_False by lia. done.
    + destruct (decide (u = v - Z.of_nat MAX_CONFIG_HISTORY)) as [->|Hn].
      * rewrite decide_True by (split; [lia|done]). by read_store.
      * rewrite decide_False by (intros [_ ?]; done). by read_store.
Qed.

Lemma history_ok_snapshot v snap w :
  v = version_count w + 1 → history_ok w → history_ok (snapshot_writes v snap w).
Proof.
  intros Hv (H0' & Hidx & Hs). unfold history_ok. rewrite version_count_writes.
  split_and!; [lia| |].
  - unfold version_index at 1, snapshot_writes. case_if; bool_hyps; read_store; cbn [default];
      rewrite Hidx.
    + replace (retained (version_count w)) with (version_count w) by (unfold retained; lia).
      replace (retained v) with v by (unfold retained, MAX_CONFIG_HISTORY in *; lia).
      replace (version_count w - version_count w + 1) with 1 by lia.
      replace (v - v + 1) with 1 by lia. rewrite Hv.
      replace (version_count w + 1) with (Z.of_nat (S (Z.to_nat (version_count w)))) by lia.
      rewrite seqZ_S, Z2Nat.id by lia. unfold id. do 2 f_equal. lia.
    + replace (retained (version_count w)) with (Z.of_nat MAX_CONFIG_HISTORY) by (unfold retained, MAX_CONFIG_HISTORY in *; lia).
      replace (retained v) with (Z.of_nat MAX_CONFIG_HISTORY) by (unfold retained, MAX_CONFIG_HISTORY in *; lia).
      rewrite seqZ_cons by done. cbn [tail].
      replace (Z.succ (version_count w - Z.of_nat MAX_CONFIG_HISTORY + 1))
        with (v - Z.of_nat MAX_CONFIG_HISTORY + 1) by lia.
      change (Z.pred (Z.of_nat MAX_CONFIG_HISTORY)) with (Z.of_nat 99).
      change (Z.of_nat MAX_CONFIG_HISTORY) with (Z.of_nat (S 99)) at 3.
      rewrite (seqZ_S _ 99). unfold id. do 2 f_equal. unfold MAX_CONFIG_HISTORY. lia.
  - intros u. rewrite snapshot_lookup by done. unfold retained, MAX_CONFIG_HISTORY in *.
    destruct (decide (u = v)) as [->|Hu]; [split; [lia|eauto]|].
    destruct (decide _) as [[? ->]|Hn].
    + split; [by intros [? [=]]|lia].
    + rewrite Hs. lia.
Qed.
Lemma in_force_ext snap w w' :
  (∀ k, ¬ history_key k → ¬ audit_key k → persistent w' k = persistent w k) →
  (∀ bit, Flags.is_on w' bit = Flags.is_on w bit) → in_force snap w → in_force snap w'.
Proof.
  intros Hk Hf (m & Hm & Hs). exists m. rewrite Hk by tauto. split; [done|].
  replace (config_of w' 0 0 0 m) with (config_of w 0 0 0 m); [done|].
  unfold config_of, flagged, paused. by rewrite !Hf, !Hk by tauto.
Qed.

Lemma history_ok_ext w w' :
  (∀ k, history_key k → persistent w' k = persistent w k) → history_ok w → history_ok w'.
Proof.
  intros Hk (H0' & Hidx & Hs). unfold history_ok, version_count, version_index in *.
  rewrite !Hk by done. split_and!; [done|done|]. intros v. by rewrite Hk.
Qed.

Lemma run_auth_admin admin c w :
  persistent w KeyAdmin = Some admin → authorized c admin = true → auth_admin c w = Ok admin w.
Proof.
  intros Ha Hc. unfold auth_admin, get_admin, get_unwrap.
  rewrite run_bind, run_bind, run_get, Ha. cbn [lift]. rewrite run_ret, run_bind.
  by rewrite run_require_auth.
Qed.

Lemma auth_admin_Ok c w admin w' :
  auth_admin c w = Ok admin w' → w' = w ∧ persistent w KeyAdmin = Some admin ∧ authorized c admin = true.
Proof.
  unfold auth_admin, get_admin, get_unwrap. intros E. ok_inv. done.
Qed.

Lemma auth_admin_denied admin c w :
  persistent w KeyAdmin = Some admin → authorized c admin = false → auth_admin c w = Err AuthFailed.
Proof.
  intros Ha Hc. unfold auth_admin, get_admin, get_unwrap.
  rewrite run_bind, run_bind, run_get, Ha. cbn [lift]. rewrite run_ret, run_bind.
  unfold require_auth. by rewrite Hc.
Qed.

Lemma run_rollback version target admin m c w :
  history_ok w → version_count w < U32_MAX → 0 <= audit_count (persistent w) < U32_MAX →
  persistent w KeyAdmin = Some admin → authorized c admin = true →
  persistent w KeyCfgMinSources = Some m →
  persistent w (KeyConfigSnapshot version) = Some target →
  ∃ w', rollback_config version c w = Ok tt w' ∧ in_force target w' ∧ history_ok w' ∧
    version_count w' = version_count w + 1 ∧
    persistent w' (KeyConfigSnapshot (version_count w + 1)) =
      Some (config_of w (version_count w + 1) (sequence c) (timestamp c) m).
Proof.
  intros Hh Hv Hau Hadm Hauth Hm Ht. unfold rollback_config.
  rewrite run_bind, (run_auth_admin admin), run_bind, run_get, Ht by done.
  rewrite run_bind, (run_snapshot admin c w m) by done.
  set (snap := config_of w _ _ _ m). set (w1 := add_event _ (snapshot_writes _ snap w)).
  destruct (apply_snapshot_in_force target c w1) as (w2 & Hw2 & Hin & Hf).
  rewrite run_bind, Hw2, run_bind, run_publish.
  set (w3 := add_event _ w2).
  assert (audit_count (persistent w3) = audit_count (persistent w)) as Hac.
  { unfold audit_count. subst w3. cbn [persistent add_event]. rewrite Hf by (cbn; tauto).
    subst w1. cbn [persistent add_event]. by rewrite snapshot_writes_frame by (cbn; tauto). }
  rewrite run_emit_admin_action by (rewrite Hac; lia).
  eexists. split; [done|]. set (w4 := add_event _ (after_append _ _ _ _ _)).
  assert (∀ k, ¬ audit_key k → persistent w4 k = persistent w2 k) as H4.
  { intros k Hk. subst w4. cbn [persistent add_event]. by rewrite after_append_frame. }
  assert (history_ok w4) as Hok.
  { apply (history_ok_ext w1).
    - intros k Hk. rewrite H4 by (intros ?; by destruct k). apply Hf. by left.
    - apply (history_ok_ext (snapshot_writes (version_count w + 1) snap w)); [done|].
      by apply history_ok_snapshot. }
  split_and!; [|done| |].
  - apply (in_force_ext _ w2); [|done|done]. intros k _. apply H4.
  - unfold version_count at 1. rewrite H4 by (cbn; tauto). rewrite Hf by (cbn; tauto).
    subst w1. cbn [persistent add_event]. apply (version_count_writes (version_count w + 1)).
  - rewrite H4, Hf by (cbn; tauto). subst w1. cbn [persistent add_event].
    rewrite snapshot_lookup by done. by rewrite decide_True.
Qed.
End Rollback.

(** ** The properties of the component *)

(** Configuration history: a rollback to any retained version succeeds
    for the administrator, puts exactly the captured configuration back in
    force (what every getter then reads, feature bits included), and first
    saves the configuration it replaces as the next version; the retained
    versions stay the newest hundred. *)
Theorem rollback_restores `{BuildProfile} `{Crypto} version target admin m c w :
  history_ok w → version_count w < U32_MAX → 0 <= audit_count (persistent w) < U32_MAX →
  persistent w KeyAdmin = Some admin → authorized c admin = true →
  persistent w KeyCfgMinSources = Some m →
  persistent w (KeyConfigSnapshot version) = Some target →
  ∃ w', rollback_config version c w = Ok tt w' ∧ in_force target w' ∧ history_ok w' ∧
    version_count w' = version_count w + 1 ∧
    persistent w' (KeyConfigSnapshot (version_count w + 1)) =
      Some (config_of w (version_count w + 1) (sequence c) (timestamp c) m).
Proof. apply run_rollback. Qed.

Definition base_world : World :=
  put_persistent KeyCfgMinSources (Some (3 : Z)) (put_persistent KeyAdmin (Some (7%N : Address)) empty_world).

Lemma base_history_ok : history_ok base_world.
Proof.
  split; [vm_compute; discriminate|]. split; [by vm_compute|]. intros v.
  change (persistent base_world (KeyConfigSnapshot v)) with (persistent base_world (KeyConfigSnapshot v)).
  unfold base_world. read_store. change (version_count _) with 0. change (retained 0) with 0.
  split; [by intros [? ?]|lia].
Qed.

Lemma rollback_restores_witness :
  let snap := config_of base_world 1 10 1000 3 in
  let w := put_persistent KeyCfgDecimals (Some (6 : Z)) (snapshot_writes 1 snap base_world) in
  ∃ w', @rollback_config Wrapping toy_crypto 1 toy_ctx w = Ok tt w' ∧ in_force snap w' ∧
    get_decimals toy_ctx w = Ok (6 : Z) w.
Proof.
  intros snap w.
  destruct (@rollback_restores Wrapping toy_crypto 1 snap 7%N 3 toy_ctx w)
    as (w' & Hw & Hin & _); [| |split; [vm_compute; discriminate|done]|done..|].
  - apply (history_ok_ext (snapshot_writes 1 snap base_world)).
    + intros k Hk. subst w. rewrite persistent_put_ne by (intros <-; by apply Hk). done.
    + apply history_ok_snapshot; [done|apply base_history_ok].
  - by vm_compute.
  - exists w'. split; [exact Hw|]. split; [exact Hin|]. by vm_compute.
Defined.

(** The version history is sound: taking a snapshot records the live
    configuration under the next version, keeps the retained window exact
    (the newest [min n 100] versions, each with its snapshot and no other)
    and changes nothing outside the history. *)
Theorem snapshot_history_exact `{BuildProfile} `{Crypto} admin m c w :
  history_ok w → version_count w < U32_MAX → persistent w KeyCfgMinSources = Some m →
  let v := version_count w + 1 in
  ∃ w', snapshot_before_change admin c w = Ok v w' ∧ history_ok w' ∧ version_count w' = v ∧
    persistent w' (KeyConfigSnapshot v) = Some (config_of w v (sequence c) (timestamp c) m) ∧
    (∀ u, v - Z.of_nat MAX_CONFIG_HISTORY < u < v →
       persistent w' (KeyConfigSnapshot u) = persistent w (KeyConfigSnapshot u)) ∧
    (∀ k, ¬ history_key k → persistent w' k = persistent w k) ∧
    instance_flags w' = instance_flags w.
Proof.
  intros Hh Hc Hm v. eexists. split; [by apply run_snapshot|]. cbn [persistent add_event].
  split_and!.
  - eapply history_ok_ext; [|by apply history_ok_snapshot]. done.
  - apply (version_count_writes v).
  - rewrite snapshot_lookup by done. by rewrite decide_True.
  - intros u Hu. rewrite snapshot_lookup by done. rewrite decide_False by lia.
    by rewrite decide_False by lia.
  - intros k Hk. by apply snapshot_writes_frame.
  - unfold snapshot_writes. cbn [instance_flags add_event]. by case_if.
Qed.

Lemma snapshot_history_exact_witness :
  ∃ w', @snapshot_before_change OverflowChecks 7%N toy_ctx base_world = Ok (1 : Z) w' ∧ history_ok w'.
Proof.
  destruct (@snapshot_history_exact OverflowChecks toy_crypto 7%N 3 toy_ctx base_world)
    as (w' & Hw & Hh & _); [apply base_history_ok|by vm_compute|done|].
  exists w'. split; [exact Hw|exact Hh].
Defined.
