(* ===== verification/Admin.v ===== *)
(** * [admin.rs]: initialisation, administration, emergency council

    The administrator's setters.  Each authenticates, validates its bound,
    snapshots the configuration, writes the parameter and logs the action;
    the order of these steps is the source's. *)
From stdpp Require Import base list gmap strings.
From S2P Require Import Prelude Machine Types Host AuditLog Config.
#[local] Open Scope Z_scope.
#[local] Set Default Goal Selector "!".

Section Admin.
Context `{BP : BuildProfile} `{CR : Crypto}.

(** ** Initialisation and ownership *)

Definition initialize (admin : Address) (min_sources_required max_history_length decimals : Z)
    (description : string) : M unit :=
  b ← has KeyAdmin;
  panic_if b AlreadyInitialized;;
  panic_if (MAX_DESCRIPTION_LENGTH <? Z.of_nat (String.length description)) DescriptionTooLong;;
  panic_if (18 <? decimals) InvalidConfiguration;;
  require_auth admin;;
  let min_sources := if 0 <? min_sources_required then min_sources_required
                     else DEFAULT_MIN_SOURCES in
  let max_history := if 0 <? max_history_length then max_history_length
                     else DEFAULT_MAX_HISTORY in
  set KeyAdmin admin;;
  set KeyCfgMinSources min_sources;;
  set KeyCfgMaxHistory max_history;;
  set KeyCfgResolution DEFAULT_RESOLUTION;;
  set KeyCfgDecimals decimals;;
  set KeyCfgDescription description;;
  set KeyCfgOptimisticDisputeWindow DEFAULT_OPTIMISTIC_DISPUTE_WINDOW;;
  set KeyCfgOptimisticMinBond DEFAULT_OPTIMISTIC_MIN_BOND;;
  set KeySrcRegistry {| os_sources := []; os_metadata := ∅; os_verification := ∅ |};;
  set KeyAssetRegistry ([] : list Address);;
  set KeyCfgMaxInvalidSubs DEFAULT_MAX_INVALID_SUBMISSIONS;;
  set KeyMaxAssets DEFAULT_MAX_ASSETS;;
  set KeyCfgAggregationMethod 0;;
  set KeyQueryRateLimit DEFAULT_QUERY_RATE_LIMIT;;
  init_admin ← get_unwrap KeyAdmin;
  publish (InitializedEvent init_admin min_sources max_history decimals description);;
  emit_admin_action "init" init_admin [].

(** The host's code replacement itself is only recorded as an event. *)
Definition upgrade (new_wasm_hash : Bytes) : M unit :=
  admin ← auth_admin;
  publish (MkContractUpgradedEvent new_wasm_hash);;
  emit_admin_action "upgrade" admin [];;
  publish (WasmUpdated new_wasm_hash).

Definition set_admin (new_admin : Address) : M unit :=
  admin ← auth_admin;
  set KeyAdmin new_admin;;
  publish (MkAdminChangedEvent admin new_admin);;
  emit_admin_action "set_admin" admin [].

Definition get_admin_address : M Address :=
  b ← has KeyAdmin;
  (if b : bool then extend_ttl KeyAdmin else mret tt);;
  get_admin.

(** ** Emergency council *)

Definition DEFAULT_EMERGENCY_MANDATE_SECS : Z := 86400.
Definition DEFAULT_EMERGENCY_RATIFICATION_SECS : Z := 172800.

Inductive EmergencyAction := EmPause | EmUnpause | EmTripBreaker | EmOracleOverride.

Definition emergency_from_u32 (value : Z) : option EmergencyAction :=
  match value with
  | 1 => Some EmPause
  | 2 => Some EmUnpause
  | 3 => Some EmTripBreaker
  | 4 => Some EmOracleOverride
  | _ => None
  end.

Definition is_governance_action (action : Z) : bool := (100 <=? action) && (action <=? 199).

Definition set_emergency_council (council : Address) (duration_secs : Z) : M unit :=
  admin ← auth_admin;
  let duration := if duration_secs =? 0 then DEFAULT_EMERGENCY_MANDATE_SECS else duration_secs in
  now ← ledger_timestamp;
  let expires_at := sat_u64 (now + duration) in
  set KeyEmergencyCouncil council;;
  set KeyEmergencyExpiry expires_at;;
  publish (EmergencyCouncilEvent council expires_at);;
  emit_admin_action "set_emrg" admin [].

Definition get_active_emergency_council : M (option Address) :=
  council ← get KeyEmergencyCouncil;
  match council with
  | None => mret None
  | Some council =>
      expires_at ← get_or KeyEmergencyExpiry 0;
      now ← ledger_timestamp;
      mret (if (expires_at : Z) <=? now then None else Some (council : Address))
  end.

Definition emergency_action (action : Z) (payload : Bytes) : M unit :=
  council ← get_active_emergency_council;
  match council with
  | None => panic_with_error EmergencyExpired
  | Some council =>
      require_auth council;;
      panic_if (is_governance_action action) EmergencyActionForbidden;;
      panic_if (match emergency_from_u32 action with None => true | Some _ => false end)
        EmergencyActionForbidden;;
      now ← ledger_timestamp;
      let deadline := sat_u64 (now + DEFAULT_EMERGENCY_RATIFICATION_SECS) in
      set KeyEmergencyPending
        {| pr_action := action; pr_actor := council; pr_issued_at := now;
           pr_deadline := deadline |};;
      publish (EmergencyActionEvent action council now deadline payload)
  end.

Definition ratify_emergency_action (approved : bool) : M unit :=
  admin ← auth_admin;
  pending ← get KeyEmergencyPending;
  match pending with
  | None => panic_with_error NoPendingEmergency
  | Some pending =>
      now ← ledger_timestamp;
      panic_if (pr_deadline pending <? now) EmergencyRatificationExpired;;
      remove KeyEmergencyPending;;
      publish (EmergencyRatifyEvent (pr_action pending) approved admin)
  end.

Definition check_emergency_ratification : M bool :=
  pending ← get KeyEmergencyPending;
  match pending with
  | None => mret false
  | Some pending =>
      now ← ledger_timestamp;
      if now <=? pr_deadline pending then mret false
      else
        remove KeyEmergencyPending;;
        publish (EmergencyEscalateEvent (pr_action pending) (pr_actor pending)
          (pr_deadline pending));;
        mret true
  end.

(** ** Parameter setters *)

Definition set_min_sources_required (new_min : Z) : M unit :=
  admin ← auth_admin;
  panic_if ((new_min =? 0) || (MAX_MIN_SOURCES <? new_min)) InvalidConfiguration;;
  oracle_sources ← read_oracle_sources;
  let source_count := Z.of_nat (length (os_sources oracle_sources)) in
  panic_if ((0 <? source_count) && (source_count <? new_min)) InvalidConfiguration;;
  _ ← snapshot_before_change admin;
  set KeyCfgMinSources new_min;;
  publish (MkMinSourcesChangedEvent new_min);;
  emit_admin_action "set_min" admin [].

Definition set_max_history_length (new_max : Z) : M unit :=
  admin ← auth_admin;
  panic_if ((new_max =? 0) || (MAX_MAX_HISTORY <? new_max)) InvalidConfiguration;;
  _ ← snapshot_before_change admin;
  set KeyCfgMaxHistory new_max;;
  publish (MkMaxHistoryChangedEvent new_max);;
  emit_admin_action "set_maxh" admin [].

Definition set_resolution (new_resolution : Z) : M unit :=
  admin ← auth_admin;
  panic_if (MAX_RESOLUTION <? new_resolution) InvalidConfiguration;;
  _ ← snapshot_before_change admin;
  set KeyCfgResolution new_resolution;;
  publish (MkResolutionChangedEvent new_resolution);;
  emit_admin_action "set_res" admin [].

Definition set_decimals (new_decimals : Z) : M unit :=
  admin ← auth_admin;
  panic_if (18 <? new_decimals) InvalidConfiguration;;
  _ ← snapshot_before_change admin;
  set KeyCfgDecimals new_decimals;;
  publish (MkDecimalsChangedEvent new_decimals);;
  emit_admin_action "set_dec" admin [].

Definition set_description (new_description : string) : M unit :=
  admin ← auth_admin;
  panic_if (MAX_DESCRIPTION_LENGTH <? Z.of_nat (String.length new_description))
    DescriptionTooLong;;
  _ ← snapshot_before_change admin;
  set KeyCfgDescription new_description;;
  publish (MkDescriptionChangedEvent new_description);;
  emit_admin_action "set_desc" admin [].

Definition set_aggregation_method (method : Z) : M unit :=
  admin ← auth_admin;
  panic_if (4 <? method) InvalidConfiguration;;
  old_method ← get_aggregation_method;
  _ ← snapshot_before_change admin;
  set KeyCfgAggregationMethod method;;
  publish (MkAggregationMethodChangedEvent admin old_method method);;
  emit_admin_action "set_agg" admin [].

Definition set_timestamp_threshold (threshold : Z) : M unit :=
  admin ← auth_admin;
  panic_if ((threshold =? 0) || (MAX_TIMESTAMP_THRESHOLD <? threshold)) InvalidConfiguration;;
  _ ← snapshot_before_change admin;
  Flags.mark Flags.TIMESTAMP_THRESHOLD;;
  set KeyCfgTimestampThreshold threshold;;
  publish (TimestampThresholdChanged admin threshold);;
  emit_admin_action "set_ts" admin [].

Definition set_max_price_deviation (deviation_basis_points : Z) : M unit :=
  admin ← auth_admin;
  panic_if (100000 <? deviation_basis_points) InvalidConfiguration;;
  _ ← snapshot_before_change admin;
  set KeyCfgMaxDeviation deviation_basis_points;;
  publish (MaxPriceDeviationChanged admin deviation_basis_points);;
  emit_admin_action "set_dev" admin [].

Definition set_circuit_breaker_threshold (threshold_bps : Z) : M unit :=
  admin ← auth_admin;
  panic_if (100000 <? threshold_bps) InvalidConfiguration;;
  _ ← snapshot_before_change admin;
  set KeyCircuitBreakerThreshold threshold_bps.

Definition set_heartbeat_interval (interval : Z) : M unit :=
  admin ← auth_admin;
  panic_if ((interval =? 0) || (MAX_HEARTBEAT_INTERVAL <? interval)) InvalidConfiguration;;
  _ ← snapshot_before_change admin;
  set KeyCfgHeartbeatInterval interval;;
  publish (MkHeartbeatIntervalChangedEvent interval);;
  emit_admin_action "set_hb" admin [].

Definition set_max_history_per_asset (new_max : Z) : M unit :=
  admin ← auth_admin;
  _ ← snapshot_before_change admin;
  Flags.mark Flags.MAX_HISTORY_PER_ASSET;;
  set KeyMaxHistoryPerAsset new_max;;
  publish (MkHistoryPerAssetChangedEvent new_max).

Definition set_max_events_per_call (new_max : Z) : M unit :=
  admin ← auth_admin;
  _ ← snapshot_before_change admin;
  Flags.mark Flags.MAX_EVENTS_PER_CALL;;
  set KeyMaxEventsPerCall new_max;;
  publish (MkEventsPerCallChangedEvent new_max).

Definition set_max_aggregation_sources (new_max : Z) : M unit :=
  admin ← auth_admin;
  _ ← snapshot_before_change admin;
  Flags.mark Flags.MAX_AGGREGATION_SOURCES;;
  set KeyMaxAggregationSources new_max;;
  publish (MkMaxAggSourcesChangedEvent new_max).

Definition set_asset_resolution (asset : Address) (resolution : Z) : M unit :=
  admin ← auth_admin;
  (if resolution =? 0 then remove (KeyAssetResolution asset)
   else set (KeyAssetResolution asset) resolution);;
  publish (MkAssetResolutionSetEvent asset admin resolution);;
  emit_admin_action "set_ares" admin [].

Definition set_aggregation_cooldown (cooldown_ledgers : Z) : M unit :=
  admin ← auth_admin;
  _ ← snapshot_before_change admin;
  set KeyAggregationCooldown cooldown_ledgers;;
  publish (MkAggCooldownChangedEvent cooldown_ledgers);;
  emit_admin_action "set_acd" admin [].

Definition set_optimistic_dispute_window (dispute_window_ledgers : Z) : M unit :=
  admin ← auth_admin;
  panic_if (dispute_window_ledgers =? 0) InvalidConfiguration;;
  set KeyCfgOptimisticDisputeWindow dispute_window_ledgers;;
  publish (MkDisputeWindowChangedEvent admin dispute_window_ledgers);;
  emit_admin_action "set_odw" admin [].

Definition set_optimistic_min_bond (min_bond : Z) : M unit :=
  admin ← auth_admin;
  panic_if (min_bond <=? 0) InvalidConfiguration;;
  set KeyCfgOptimisticMinBond min_bond;;
  publish (MkOptimisticBondChangedEvent admin min_bond);;
  emit_admin_action "set_omb" admin [].

Definition set_min_submission_interval (interval_ledgers : Z) : M unit :=
  admin ← auth_admin;
  _ ← snapshot_before_change admin;
  Flags.mark Flags.MIN_SUBMISSION_INTERVAL;;
  set KeyMinSubmissionInterval interval_ledgers;;
  publish (MkSubmitIntervalChangedEvent interval_ledgers);;
  emit_admin_action "set_msi" admin [].

Definition set_interpolation_enabled (enabled : bool) : M unit :=
  admin ← auth_admin;
  _ ← snapshot_before_change admin;
  set KeyInterpolationEnabled enabled;;
  publish (MkInterpolationChangedEvent enabled);;
  emit_admin_action "set_intp" admin [].

Definition set_max_sources (new_max : Z) : M unit :=
  admin ← auth_admin;
  _ ← snapshot_before_change admin;
  set KeyMaxSources new_max;;
  publish (MkMaxSourcesChangedEvent new_max);;
  emit_admin_action "set_msrc" admin [].

Definition set_query_rate_limit (max_per_ledger : Z) : M unit :=
  admin ← auth_admin;
  _ ← snapshot_before_change admin;
  set KeyQueryRateLimit max_per_ledger;;
  publish (MkQueryRateLimitChangedEvent max_per_ledger).

Definition set_max_assets (new_max : Z) : M unit :=
  admin ← auth_admin;
  _ ← snapshot_before_change admin;
  set KeyMaxAssets new_max.

Definition set_subscription_price (duration amount : Z) : M unit :=
  admin ← auth_admin;
  plans ← read_subscription_plans;
  write_subscription_plans (<[duration := amount]> plans).
End Admin.

(** ** The administrative interface as a state machine *)

Inductive AdminCall :=
  | CallInitialize (admin : Address) (min_sources max_history decimals : Z) (description : string)
  | CallUpgrade (hash : Bytes)
  | CallSetAdmin (new_admin : Address)
  | CallSetEmergencyCouncil (council : Address) (duration : Z)
  | CallEmergencyAction (action : Z) (payload : Bytes)
  | CallRatify (approved : bool)
  | CallCheckRatification
  | CallSetMinSources (v : Z)
  | CallSetMaxHistory (v : Z)
  | CallSetResolution (v : Z)
  | CallSetDecimals (v : Z)
  | CallSetDescription (v : string)
  | CallSetAggregationMethod (v : Z)
  | CallSetTimestampThreshold (v : Z)
  | CallSetMaxPriceDeviation (v : Z)
  | CallSetCircuitBreakerThreshold (v : Z)
  | CallSetHeartbeatInterval (v : Z)
  | CallSetMaxHistoryPerAsset (v : Z)
  | CallSetMaxEventsPerCall (v : Z)
  | CallSetMaxAggregationSources (v : Z)
  | CallSetAssetResolution (asset : Address) (v : Z)
  | CallSetAggregationCooldown (v : Z)
  | CallSetOptimisticDisputeWindow (v : Z)
  | CallSetOptimisticMinBond (v : Z)
  | CallSetMinSubmissionInterval (v : Z)
  | CallSetInterpolationEnabled (v : bool)
  | CallSetMaxSources (v : Z)
  | CallSetQueryRateLimit (v : Z)
  | CallSetMaxAssets (v : Z)
  | CallSetSubscriptionPrice (duration amount : Z)
  | CallPause
  | CallUnpause
  | CallRollback (version : Z).

(** The arguments fit the unsigned types of the entry points. *)
Definition args_ok (call : AdminCall) : Prop :=
  match call with
  | CallInitialize _ m h d _ => in_u32 m ∧ in_u32 h ∧ in_u32 d
  | CallSetMinSources v | CallSetMaxHistory v | CallSetResolution v | CallSetDecimals v
  | CallSetAggregationMethod v | CallSetMaxPriceDeviation v | CallSetCircuitBreakerThreshold v
  | CallSetMaxHistoryPerAsset v | CallSetMaxEventsPerCall v | CallSetMaxAggregationSources v
  | CallSetAssetResolution _ v | CallSetAggregationCooldown v | CallSetOptimisticDisputeWindow v
  | CallSetMinSubmissionInterval v | CallSetMaxSources v | CallSetQueryRateLimit v
  | CallSetMaxAssets v => in_u32 v
  | CallSetTimestampThreshold v | CallSetHeartbeatInterval v => in_u64 v
  | _ => True
  end.

(** Opens the handler of a call. *)
Ltac unfold_handlers :=
  unfold upgrade, set_admin, set_emergency_council, ratify_emergency_action,
    set_min_sources_required, set_max_history_length, set_resolution, set_decimals,
    set_description, set_aggregation_method, set_timestamp_threshold, set_max_price_deviation,
    set_circuit_breaker_threshold, set_heartbeat_interval, set_max_history_per_asset,
    set_max_events_per_call, set_max_aggregation_sources, set_asset_resolution,
    set_aggregation_cooldown, set_optimistic_dispute_window, set_optimistic_min_bond,
    set_min_submission_interval, set_interpolation_enabled, set_max_sources,
    set_query_rate_limit, set_max_assets, set_subscription_price, pause, unpause, rollback_config.
Ltac unfold_calls :=
  unfold_handlers; unfold initialize, emergency_action, read_oracle_sources,
    get_aggregation_method, read_subscription_plans, write_subscription_plans.

Section Machine.
Context `{BP : BuildProfile} `{CR : Crypto}.

Definition run_call (call : AdminCall) : M unit :=
  match call with
  | CallInitialize admin m h d s => initialize admin m h d s
  | CallUpgrade hash => upgrade hash
  | CallSetAdmin a => set_admin a
  | CallSetEmergencyCouncil council d => set_emergency_council council d
  | CallEmergencyAction action payload => emergency_action action payload
  | CallRatify approved => ratify_emergency_action approved
  | CallCheckRatification => _ ← check_emergency_ratification; mret tt
  | CallSetMinSources v => set_min_sources_required v
  | CallSetMaxHistory v => set_max_history_length v
  | CallSetResolution v => set_resolution v
  | CallSetDecimals v => set_decimals v
  | CallSetDescription v => set_description v
  | CallSetAggregationMethod v => set_aggregation_method v
  | CallSetTimestampThreshold v => set_timestamp_threshold v
  | CallSetMaxPriceDeviation v => set_max_price_deviation v
  | CallSetCircuitBreakerThreshold v => set_circuit_breaker_threshold v
  | CallSetHeartbeatInterval v => set_heartbeat_interval v
  | CallSetMaxHistoryPerAsset v => set_max_history_per_asset v
  | CallSetMaxEventsPerCall v => set_max_events_per_call v
  | CallSetMaxAggregationSources v => set_max_aggregation_sources v
  | CallSetAssetResolution asset v => set_asset_resolution asset v
  | CallSetAggregationCooldown v => set_aggregation_cooldown v
  | CallSetOptimisticDisputeWindow v => set_optimistic_dispute_window v
  | CallSetOptimisticMinBond v => set_optimistic_min_bond v
  | CallSetMinSubmissionInterval v => set_min_submission_interval v
  | CallSetInterpolationEnabled v => set_interpolation_enabled v
  | CallSetMaxSources v => set_max_sources v
  | CallSetQueryRateLimit v => set_query_rate_limit v
  | CallSetMaxAssets v => set_max_assets v
  | CallSetSubscriptionPrice d a => set_subscription_price d a
  | CallPause => pause
  | CallUnpause => unpause
  | CallRollback v => rollback_config v
  end.

(** A history of calls, each in its own context, from an empty contract; a
    failing call leaves no trace. *)
Inductive reachable : World → nat → Prop :=
  | reach_init : reachable empty_world 0
  | reach_step w n c call :
      reachable w n → args_ok call → reachable (invoke (run_call call) c w) (S n).

(** *** Configuration bounds as a storage typing *)

Definition snapshot_ok (s : ConfigSnapshot) : Prop :=
  1 <= cs_min_sources_required s ∧ 1 <= cs_max_history_length s ∧
  0 <= cs_resolution s <= MAX_RESOLUTION ∧ 0 <= cs_decimals s <= 18 ∧
  Z.of_nat (String.length (cs_description s)) <= MAX_DESCRIPTION_LENGTH ∧
  0 <= cs_aggregation_method s <= 4 ∧
  1 <= cs_timestamp_threshold s <= MAX_TIMESTAMP_THRESHOLD ∧
  0 <= cs_max_price_deviation s <= 100000 ∧ 0 <= cs_circuit_breaker_threshold s <= 100000 ∧
  1 <= cs_heartbeat_interval s <= MAX_HEARTBEAT_INTERVAL.

Definition config_inv : KeyInv := λ k,
  match k return interp (ty_of k) → Prop with
  | KeyCfgMinSources | KeyCfgMaxHistory => λ v, 1 <= v
  | KeyCfgResolution => λ v, 0 <= v <= MAX_RESOLUTION
  | KeyCfgDecimals => λ v, 0 <= v <= 18
  | KeyCfgDescription => λ v, Z.of_nat (String.length v) <= MAX_DESCRIPTION_LENGTH
  | KeyCfgAggregationMethod => λ v, 0 <= v <= 4
  | KeyCfgTimestampThreshold => λ v, 1 <= v <= MAX_TIMESTAMP_THRESHOLD
  | KeyCfgMaxDeviation | KeyCircuitBreakerThreshold => λ v, 0 <= v <= 100000
  | KeyCfgHeartbeatInterval => λ v, 1 <= v <= MAX_HEARTBEAT_INTERVAL
  | KeyConfigSnapshot _ => snapshot_ok
  | _ => λ _, True
  end.

Lemma typed_flag_on T bit : typed T (Flags.on bit) (λ _, True).
Proof. apply typed_silent; intros c w a w' H. rewrite run_flag_on in H. by injection H as _ <-. Qed.

Lemma typed_mark T bit : typed T (Flags.mark bit) (λ _, True).
Proof. apply typed_silent; intros c w a w' H. rewrite run_mark in H. by injection H as _ <-. Qed.

Lemma typed_get_flagged (T : KeyInv) bit k d : T k d → typed T (get_flagged bit k d) (T k).
Proof.
  intros Hd. unfold get_flagged. eapply typed_bind; [apply typed_flag_on|]. intros b _.
  destruct b; [by apply typed_get_bump_or|by apply typed_ret].
Qed.

Lemma typed_auth_admin T : typed T auth_admin (λ _, True).
Proof.
  unfold auth_admin, get_admin. repeat typed_step. done.
Qed.

Lemma typed_append_audit_entry (T : KeyInv) action admin data :
  (∀ k v, audit_key k → T k v) → typed T (append_audit_entry action admin data) (λ _, True).
Proof. intros HT. unfold append_audit_entry. repeat typed_step; by apply HT. Qed.

Lemma typed_emit_admin_action (T : KeyInv) action admin data :
  (∀ k v, audit_key k → T k v) → typed T (emit_admin_action action admin data) (λ _, True).
Proof.
  intros HT. unfold emit_admin_action. eapply typed_bind; [by apply typed_append_audit_entry|].
  repeat typed_step.
Qed.

Lemma config_inv_audit k v : audit_key k → config_inv k v.
Proof. by destruct k. Qed.

Lemma typed_prune T index : typed T (prune_versions index) (λ _, True).
Proof.
  induction index as [|old index IH]; cbn [prune_versions]; repeat typed_step; try done.
Qed.

Lemma typed_capture version : typed config_inv (capture_current version) snapshot_ok.
Proof.
  intros c w s w' Hw H. rewrite run_capture in H.
  destruct (persistent w KeyCfgMinSources) as [m|] eqn:Em; [|done]. injection H as <- <-.
  split; [done|].
  assert (∀ k (d : interp (ty_of k)), config_inv k d → config_inv k (default d (persistent w k))) as Hd.
  { intros k d Hd. destruct (persistent w k) eqn:E; [by apply Hw|done]. }
  assert (∀ bit k (d : interp (ty_of k)), config_inv k d → config_inv k (flagged w bit k d)) as Hf.
  { intros bit k d Hk. unfold flagged. case_if; auto. }
  unfold snapshot_ok, config_of. cbn -[flagged Z.of_nat].
  split_and!; [by apply (Hw KeyCfgMinSources)|..].
  all: first
    [ apply (Hd KeyCfgMaxHistory) | apply (Hd KeyCfgResolution) | apply (Hd KeyCfgDecimals)
    | apply (Hd KeyCfgDescription) | apply (Hd KeyCfgAggregationMethod)
    | apply (Hf Flags.TIMESTAMP_THRESHOLD KeyCfgTimestampThreshold) | apply (Hd KeyCfgMaxDeviation)
    | apply (Hd KeyCircuitBreakerThreshold) | apply (Hd KeyCfgHeartbeatInterval) ].
  all: vm_compute; done || (split; discriminate) || discriminate.
Qed.

#[local] Hint Resolve typed_flag_on typed_mark typed_get_flagged typed_auth_admin typed_prune
  typed_capture : typed.

Lemma typed_store_snapshot snapshot admin :
  snapshot_ok snapshot → typed config_inv (store_snapshot snapshot admin) (λ _, True).
Proof.
  intros Hs. unfold store_snapshot, read_version_index, write_version_index.
  repeat typed_step; try done.
Qed.

Lemma typed_snapshot admin : typed config_inv (snapshot_before_change admin) (λ _, True).
Proof.
  unfold snapshot_before_change. repeat typed_step; try done. by apply typed_store_snapshot.
Qed.

Lemma typed_emit action admin data :
  typed config_inv (emit_admin_action action admin data) (λ _, True).
Proof. apply typed_emit_admin_action. apply config_inv_audit. Qed.

Lemma typed_apply_snapshot s : snapshot_ok s → typed config_inv (apply_snapshot s) (λ _, True).
Proof.
  intros (? & ? & ? & ? & ? & ? & ? & ? & ? & ?). unfold apply_snapshot. repeat typed_step; done.
Qed.

Lemma typed_active_council :
  typed config_inv get_active_emergency_council (λ _, True).
Proof. unfold get_active_emergency_council. repeat typed_step; done. Qed.

Lemma typed_check_ratification : typed config_inv check_emergency_ratification (λ _, True).
Proof. unfold check_emergency_ratification. repeat typed_step; done. Qed.

#[local] Hint Resolve typed_snapshot typed_emit typed_active_council typed_check_ratification : typed.

Lemma typed_run_call call : args_ok call → typed config_inv (run_call call) (λ _, True).
Proof.
  intros Ha. destruct call; cbn [run_call args_ok] in *.
  all: unfold_calls.
  all: repeat typed_step; try done.
  all: cbn [config_inv] in *; cbn beta in *; unfold in_u32, in_u64, MAX_RESOLUTION in *; bool_hyps.
  all: try case_if; bool_hyps; unfold DEFAULT_MIN_SOURCES, DEFAULT_MAX_HISTORY in *; try lia.
  apply typed_apply_snapshot. auto.
Qed.

(** *** Calls and the audit log *)

Lemma modifies_flag_on P bit : modifies P (Flags.on bit).
Proof. intros c w a w' H. rewrite run_flag_on in H. by injection H as _ <-. Qed.

Lemma modifies_mark P bit : modifies P (Flags.mark bit).
Proof. intros c w a w' H. rewrite run_mark in H. by injection H as _ <-. Qed.

Lemma modifies_auth_admin P : modifies P auth_admin.
Proof. unfold auth_admin, get_admin. solve_modifies. Qed.

Lemma modifies_capture P version : modifies P (capture_current version).
Proof.
  intros c w s w' H. rewrite run_capture in H. by destruct (persistent w KeyCfgMinSources);
    [injection H as _ <-|].
Qed.

Lemma modifies_prune (P : DataKey → Prop) index :
  (∀ v, P (KeyConfigSnapshot v)) → modifies P (prune_versions index).
Proof.
  intros HP. induction index as [|old index IH]; cbn [prune_versions]; solve_modifies; auto.
Qed.

Lemma modifies_snapshot (P : DataKey → Prop) admin :
  (∀ k, history_key k → P k) → modifies P (snapshot_before_change admin).
Proof.
  intros HP. unfold snapshot_before_change, store_snapshot, read_version_index, write_version_index.
  solve_modifies; auto using modifies_capture. all: try (apply modifies_prune; intros); by apply HP.
Qed.

Lemma modifies_apply_snapshot s : modifies not_audit (apply_snapshot s).
Proof. unfold apply_snapshot. solve_modifies; auto using modifies_mark. all: by intros []. Qed.

Lemma modifies_snapshot_audit admin : modifies not_audit (snapshot_before_change admin).
Proof. apply modifies_snapshot. intros k Hk Ha. by destruct k. Qed.

#[local] Hint Resolve modifies_flag_on modifies_mark modifies_auth_admin modifies_snapshot_audit
  modifies_apply_snapshot : modifies.

Ltac audit_walk :=
  repeat first
    [ progress intros
    | match goal with
      | |- audit_step (emit_admin_action _ _ _) => apply audit_step_emit
      | |- audit_step (_ ≫= _) =>
          apply audit_step_bind; [solve [solve_modifies; by intros []]|]
      | |- audit_step (match ?x with _ => _ end) => destruct x
      | |- audit_step _ => apply audit_step_quiet; solve [solve_modifies; by intros []]
      end ].

Lemma audit_step_run_call call : audit_step (run_call call).
Proof.
  destruct call; cbn [run_call].
  all: unfold_calls; unfold get_active_emergency_council, check_emergency_ratification.
  all: audit_walk.
  apply audit_step_then; [apply audit_step_emit|]. intros. solve_modifies.
Qed.

(** *** Who may call *)

(** The calls that need the administrator's signature. *)
Definition needs_admin (call : AdminCall) : bool :=
  match call with
  | CallInitialize _ _ _ _ _ | CallEmergencyAction _ _ | CallCheckRatification => false
  | _ => true
  end.

Lemma run_call_denied call admin c w :
  needs_admin call = true → persistent w KeyAdmin = Some admin → authorized c admin = false →
  run_call call c w = Err AuthFailed.
Proof.
  intros Hn Ha Hc. pose proof (auth_admin_denied admin c w Ha Hc) as Hd.
  destruct call; try discriminate Hn; cbn [run_call].
  all: unfold_handlers; by rewrite run_bind, Hd.
Qed.

(** *** Feature bits *)

Lemma prune_flags index : ∀ c w a w',
  prune_versions index c w = Ok a w' → instance_flags w' = instance_flags w.
Proof.
  induction index as [|old index IH]; intros c w a w'; cbn [prune_versions].
  - case_if; [done|]. by intros [= _ <-].
  - case_if; [|by intros [= _ <-]]. intros H. ok_inv. by apply IH in H.
Qed.

Lemma snapshot_flags admin c w a w' :
  snapshot_before_change admin c w = Ok a w' → instance_flags w' = instance_flags w.
Proof.
  unfold snapshot_before_change, store_snapshot, read_version_index, write_version_index.
  intros H. ok_inv.
  repeat match goal with H : prune_versions _ _ _ = Ok _ _ |- _ => apply prune_flags in H end.
  match goal with H : capture_current _ _ _ = Ok _ _ |- _ => rewrite run_capture in H;
    destruct (persistent _ KeyCfgMinSources); [|done]; injection H as <- <- end.
  done.
Qed.

Lemma emit_flags action admin data c w a w' :
  emit_admin_action action admin data c w = Ok a w' → instance_flags w' = instance_flags w.
Proof. unfold emit_admin_action, append_audit_entry. intros H. by ok_inv. Qed.

Lemma modifies_emit action admin data : modifies audit_key (emit_admin_action action admin data).
Proof. unfold emit_admin_action, append_audit_entry. solve_modifies; done. Qed.

Lemma is_on_ext w w' bit : instance_flags w' = instance_flags w → Flags.is_on w' bit = Flags.is_on w bit.
Proof. unfold Flags.is_on. by intros ->. Qed.

Lemma pause_run_inv c w a w' : pause c w = Ok a w' → paused w' = true.
Proof.
  unfold pause. intros H. ok_inv.
  match goal with H : Flags.mark _ _ _ = Ok _ _ |- _ => rewrite run_mark in H; ok_inv end.
  pose proof (emit_flags _ _ _ _ _ _ _ H) as Ef.
  pose proof (modifies_emit _ _ _ _ _ _ _ H KeyCfgPauseFlag (λ f, f)) as Ek.
  unfold paused. rewrite (is_on_ext _ _ _ Ef), Ek. read_store.
  change (Flags.is_on (add_event _ (put_persistent _ _ ?w)) ?b) with (Flags.is_on w b).
  rewrite is_on_marked. change (negb (Z.land Flags.PAUSE Flags.PAUSE =? 0)) with true.
  by rewrite orb_true_r.
Qed.

Lemma unpause_run_inv c w a w' : unpause c w = Ok a w' → paused w' = false.
Proof.
  unfold unpause. intros H. ok_inv.
  pose proof (modifies_emit _ _ _ _ _ _ _ H KeyCfgPauseFlag (λ f, f)) as Ek.
  unfold paused. rewrite Ek. read_store. by case_if.
Qed.
End Machine.

(** ** The properties of the component *)


Definition init_call : AdminCall := CallInitialize 7%N 0 50 8 "oracle".

Lemma init_reachable `{BuildProfile} `{Crypto} :
  reachable (invoke (run_call init_call) toy_ctx empty_world) 1.
Proof. apply reach_step; [constructor|]. cbn. unfold in_u32, U32_MAX. lia. Qed.




(** Only the administrator administers: without the stored
    administrator's authorisation every administrative call fails and leaves
    the world exactly as it was. *)
Theorem admin_calls_need_admin `{BuildProfile} `{Crypto} call admin c w :
  needs_admin call = true → persistent w KeyAdmin = Some admin → authorized c admin = false →
  run_call call c w = Err AuthFailed ∧ invoke (run_call call) c w = w.
Proof.
  intros Hn Ha Hc. pose proof (run_call_denied call admin c w Hn Ha Hc) as E.
  split; [done|]. unfold invoke. by rewrite E.
Qed.

Lemma admin_calls_need_admin_witness :
  let c := MkCtx 1 1 (λ _, false) 99%N in
  @run_call Wrapping toy_crypto CallPause c base_world = Err AuthFailed.
Proof.
  intros c.
  exact (proj1 (@admin_calls_need_admin Wrapping toy_crypto CallPause 7%N c base_world
    eq_refl eq_refl eq_refl)).
Defined.

(** The pause switch works: after a successful [pause] every guarded
    entry point fails with [ContractPaused] in whatever context, and after a
    successful [unpause] the guard passes. *)
Theorem pause_unpause_effective `{BuildProfile} `{Crypto} c c' w a w' :
  (pause c w = Ok a w' → check_not_paused c' w' = Err (Error ContractPaused)) ∧
  (unpause c w = Ok a w' → check_not_paused c' w' = Ok tt w').
Proof.
  split; intros E; unfold check_not_paused; rewrite run_bind, run_is_paused.
  - by rewrite (pause_run_inv _ _ _ _ E).
  - by rewrite (unpause_run_inv _ _ _ _ E).
Qed.

Lemma pause_unpause_effective_witness :
  ∃ w', @pause Wrapping toy_crypto toy_ctx base_world = Ok tt w' ∧
    check_not_paused toy_ctx w' = Err (Error ContractPaused).
Proof.
  destruct (@pause Wrapping toy_crypto toy_ctx base_world) as [[] w'|f] eqn:E.
  - exists w'. split; [done|].
    apply (proj1 (@pause_unpause_effective Wrapping toy_crypto toy_ctx toy_ctx base_world tt w') E).
  - exfalso. vm_compute in E. discriminate E.
Defined.

(** The council in office at [now], if any. *)
Definition council_in_office (now : Z) (w : World) : option Address :=
  match persistent w KeyEmergencyCouncil with
  | Some council =>
      if (default 0 (persistent w KeyEmergencyExpiry) : Z) <=? now then None
      else Some (council : Address)
  | None => None
  end.

Lemma run_active_council c w :
  get_active_emergency_council c w = Ok (council_in_office (timestamp c) w) w.
Proof.
  unfold get_active_emergency_council, council_in_office. rewrite run_bind, run_get.
  destruct (persistent w KeyEmergencyCouncil); [|done].
  by rewrite run_bind, run_get_or, run_bind, run_timestamp.
Qed.

Lemma council_in_office_inv now w council :
  council_in_office now w = Some council →
  persistent w KeyEmergencyCouncil = Some council ∧
  now < default 0 (persistent w KeyEmergencyExpiry).
Proof.
  unfold council_in_office. destruct (persistent w KeyEmergencyCouncil); [|done].
  intros E. case_if; [done|]. injection E as ->. bool_hyps. split; [done|lia].
Qed.

Lemma emergency_from_u32_inv action : emergency_from_u32 action ≠ None → 1 <= action <= 4.
Proof. unfold emergency_from_u32. destruct action as [|[[[]|[]|]|[[]|[]|]|]|]; try done; lia. Qed.

Lemma run_emergency_action action payload c w a w' :
  emergency_action action payload c w = Ok a w' →
  ∃ council, council_in_office (timestamp c) w = Some council ∧ authorized c council = true ∧
    1 <= action <= 4 ∧
    let deadline := sat_u64 (timestamp c + DEFAULT_EMERGENCY_RATIFICATION_SECS) in
    w' = add_event (EmergencyActionEvent action council (timestamp c) deadline payload)
      (put_persistent KeyEmergencyPending
        (Some (MkPendingRatification action council (timestamp c) deadline)) w).
Proof.
  unfold emergency_action. rewrite run_bind, run_active_council.
  destruct (council_in_office (timestamp c) w) as [council|]; intros E; ok_inv.
  exists council. split_and!; try done.
  all: apply emergency_from_u32_inv; by destruct (emergency_from_u32 action).
Qed.

Lemma ratify_within_deadline approved pending c w a w' :
  ratify_emergency_action approved c w = Ok a w' →
  persistent w KeyEmergencyPending = Some pending → timestamp c <= pr_deadline pending.
Proof.
  unfold ratify_emergency_action. intros E Hp.
  apply bind_Ok in E as (admin & w1 & Ha & E). apply auth_admin_Ok in Ha as (-> & _ & _).
  rewrite run_bind, run_get, Hp in E. ok_inv. by bool_hyps.
Qed.


