(* ===== verification/Assets.v ===== *)
(** * [assets.rs], [freeze.rs] and the asset operations of [storage.rs] and
    [admin.rs]: the asset registry

    The registry is kept three times: as the ordered list of assets, as one
    flag per asset, and as a membership index that older deployments lack and
    that is rebuilt on use.  [registry_ok] says the three agree; every
    operation keeps it.  Around the registry are the price bounds, the pause
    flag with the circuit breaker, the disabled flag and the price freeze. *)
From stdpp Require Import base list sets strings.
From S2P Require Import Prelude Machine Types Host AuditLog Config Admin.
#[local] Open Scope Z_scope.
#[local] Set Default Goal Selector "!".

(** [history::MAX_PAGE_SIZE] *)
Definition MAX_PAGE_SIZE : Z := 50.

Definition check_registered_asset (asset : Address) : M unit :=
  indexed ← get_or (KeyAssetRegistryIndex asset) false;
  if indexed : bool then extend_ttl (KeyAssetRegistryIndex asset)
  else
    exists_ ← get_or (KeyAssetRegistered asset) false;
    panic_if (negb exists_) AssetNotRegistered;;
    extend_ttl (KeyAssetRegistered asset);;
    set (KeyAssetRegistryIndex asset) true;;
    extend_ttl (KeyAssetRegistryIndex asset).

(** ** Price bounds *)

Definition default_bounds : PriceBounds := MkPriceBounds 0 I128_MAX 0.

Definition initialize_asset_price_bounds (asset : Address) : M unit :=
  set (KeyAssetPriceBounds asset) default_bounds;;
  set (KeyAssetPauseFlag asset) false;;
  set (KeyAssetCircuitBreakerTripped asset) false;;
  set (KeyAssetCircuitBreakerLogCount asset) 0.

Definition get_price_bounds (asset : Address) : M PriceBounds :=
  check_registered_asset asset;;
  get_bump_or (KeyAssetPriceBounds asset) default_bounds.

Definition get_min_price (asset : Address) : M Z :=
  check_registered_asset asset;;
  bounds ← get_price_bounds asset;
  if 0 <? pb_min_price bounds then mret (pb_min_price bounds)
  else get_bump_or (KeyAssetMinPrice asset) 0.

Definition set_min_price (asset : Address) (min_price : Z) : M unit :=
  auth_admin;;
  check_registered_asset asset;;
  set (KeyAssetMinPrice asset) min_price.

(** ** Pause flag and circuit breaker *)

Definition is_asset_paused (asset : Address) : M bool :=
  get_bump_or (KeyAssetPauseFlag asset) false.

Definition set_asset_paused (asset : Address) (paused : bool) : M unit :=
  set (KeyAssetPauseFlag asset) paused.

Definition is_circuit_breaker_tripped (asset : Address) : M bool :=
  get_bump_or (KeyAssetCircuitBreakerTripped asset) false.

Definition set_circuit_breaker (asset : Address) (tripped : bool) : M unit :=
  set (KeyAssetCircuitBreakerTripped asset) tripped;;
  extend_ttl (KeyAssetCircuitBreakerTripped asset).

Definition rearm_circuit_breaker (asset : Address) : M unit :=
  set_circuit_breaker asset false;;
  b ← has (KeyBRK_PAUS asset);
  if b : bool then remove (KeyBRK_PAUS asset);; set_asset_paused asset false
  else mret tt.

Definition trip_circuit_breaker `{BuildProfile} (asset : Address)
    (previous_price candidate_price change_bps max_change_bps : Z) : M unit :=
  paused ← is_asset_paused asset;
  (if negb paused then set (KeyBRK_PAUS asset) true else mret tt);;
  set_asset_paused asset true;;
  set (KeyAssetCircuitBreakerTripped asset) true;;
  count ← get_or (KeyAssetCircuitBreakerLogCount asset) 0;
  next_count ← lift (u32 (count + 1));
  ledger ← ledger_sequence;
  timestamp ← ledger_timestamp;
  let bps := wrap 0 32 (Z.min change_bps U32_MAX) in
  set (KeyAssetCircuitBreakerLog asset next_count)
    (MkCircuitBreakerEventEntry asset previous_price candidate_price bps max_change_bps ledger
       timestamp);;
  set (KeyAssetCircuitBreakerLogCount asset) next_count;;
  publish (MkCircuitBreakerTrippedEvent asset previous_price candidate_price bps max_change_bps
    ledger timestamp).

(** ** Operations of the administrator *)

Section Assets.
Context `{BP : BuildProfile} `{CR : Crypto}.

Definition register_asset (asset : Address) : M unit :=
  admin ← auth_admin;
  registered ← has (KeyAssetRegistered asset);
  panic_if registered AssetAlreadyRegistered;;
  max_assets ← get_max_assets;
  assets ← read_registered_assets;
  panic_if (max_assets <=? Z.of_nat (length assets)) MaxAssetsReached;;
  set (KeyAssetRegistered asset) true;;
  set (KeyAssetRegistryIndex asset) true;;
  write_registered_assets (assets ++ [asset]);;
  initialize_asset_price_bounds asset;;
  publish (MkAssetRegisteredEvent asset admin);;
  emit_admin_action "reg_asset" admin [].

Definition unregister_asset (asset : Address) : M unit :=
  admin ← auth_admin;
  check_registered_asset asset;;
  remove (KeyAssetRegistered asset);;
  remove (KeyAssetRegistryIndex asset);;
  remove (KeyAggregate asset);;
  assets ← read_registered_assets;
  write_registered_assets (filter (λ a, a ≠ asset) assets);;
  publish (MkAssetUnregisteredEvent asset admin);;
  emit_admin_action "unreg_ast" admin [].

Definition is_asset_registered (asset : Address) : M bool :=
  indexed ← get_or (KeyAssetRegistryIndex asset) false;
  if indexed : bool then extend_ttl (KeyAssetRegistryIndex asset);; mret true
  else
    exists_ ← get_or (KeyAssetRegistered asset) false;
    (if exists_ : bool then
       extend_ttl (KeyAssetRegistered asset);;
       set (KeyAssetRegistryIndex asset) true;;
       extend_ttl (KeyAssetRegistryIndex asset)
     else mret tt);;
    mret (exists_ : bool).

(** The search of the cursor: the index after the first occurrence. *)
Fixpoint next_index (registered : list Address) (last_asset : Address) (i : nat) : option nat :=
  match registered with
  | [] => None
  | a :: registered =>
      if decide (a = last_asset) then Some (S i) else next_index registered last_asset (S i)
  end.

(** [while index < registered.len() && page.len() < limit] *)
Fixpoint page_loop (fuel : nat) (registered : list Address) (limit : Z) (index : nat)
    (page : list Address) : list Address * nat :=
  match fuel with
  | O => (page, index)
  | S fuel =>
      match registered !! index with
      | Some a =>
          if Z.of_nat (length page) <? limit
          then page_loop fuel registered limit (S index) (page ++ [a])
          else (page, index)
      | None => (page, index)
      end
  end.

Definition get_registered_assets_paginated (cursor : option Address) (limit : Z)
    : M (list Address * option Address) :=
  panic_if ((limit =? 0) || (MAX_PAGE_SIZE <? limit)) InvalidPageSize;;
  registered ← read_registered_assets;
  start ← match cursor with
          | Some last_asset =>
              match next_index registered last_asset 0 with
              | Some index => mret index
              | None => panic_with_error InvalidPageCursor
              end
          | None => mret 0%nat
          end;
  let '(page, index) := page_loop (length registered) registered limit start [] in
  if (index <? length registered)%nat then
    next ← lift (last page); mret (page, Some next)
  else mret (page, None).

Definition set_asset_metadata (asset : Address) (metadata : AssetMetadata) : M unit :=
  admin ← auth_admin;
  check_registered_asset asset;;
  set (KeyAssetMetadata asset) metadata;;
  publish (MkAssetMetadataUpdatedEvent asset admin (am_name metadata) (am_symbol metadata)
    (am_decimals metadata) (Some (am_logo_uri metadata))).

Definition batch_set_asset_metadata (updates : list AssetMetadataUpdate) : M unit :=
  admin ← auth_admin;
  for_each updates (λ update,
    check_registered_asset (amu_asset update);;
    set (KeyAssetMetadata (amu_asset update))
      (MkAssetMetadata (amu_name update) (amu_symbol update) (amu_decimals update)
         (amu_logo_uri update));;
    publish (MkAssetMetadataUpdatedEvent (amu_asset update) admin (amu_name update)
      (amu_symbol update) (amu_decimals update) (Some (amu_logo_uri update)))).

Definition get_asset_metadata (asset : Address) : M (option AssetMetadata) :=
  check_registered_asset asset;;
  b ← has (KeyAssetMetadata asset);
  (if b : bool then extend_ttl (KeyAssetMetadata asset) else mret tt);;
  get (KeyAssetMetadata asset).

Definition set_price_bounds (asset : Address) (min_price max_price max_change_bps_per_ledger : Z)
    : M unit :=
  admin ← auth_admin;
  check_registered_asset asset;;
  panic_if (max_price <? min_price) InvalidConfiguration;;
  panic_if (100000 <? max_change_bps_per_ledger) InvalidConfiguration;;
  set (KeyAssetPriceBounds asset) (MkPriceBounds min_price max_price max_change_bps_per_ledger);;
  emit_admin_action "st_bounds" admin [].

Definition pause_asset (asset : Address) : M unit :=
  admin ← auth_admin;
  check_registered_asset asset;;
  set_asset_paused asset true;;
  emit_admin_action "pause_ast" admin [].

Definition unpause_asset (asset : Address) : M unit :=
  admin ← auth_admin;
  check_registered_asset asset;;
  set_asset_paused asset false;;
  remove (KeyBRK_PAUS asset);;
  set (KeyAssetCircuitBreakerTripped asset) false;;
  publish (MkCircuitBreakerResetEvent asset admin);;
  emit_admin_action "unp_asts" admin [].

(** ** [admin.rs]: disabling an asset *)

Definition disable_asset (asset : Address) : M unit :=
  admin ← auth_admin;
  check_registered_asset asset;;
  Flags.mark Flags.ASSET_DISABLED;;
  set (KeyAssetDisabled asset) true;;
  current_ledger ← ledger_sequence;
  set (KeyAssetDisabledAt asset) current_ledger;;
  emit_admin_action "dis_ast" admin [].

Definition enable_asset (asset : Address) : M unit :=
  admin ← auth_admin;
  check_registered_asset asset;;
  remove (KeyAssetDisabled asset);;
  emit_admin_action "en_ast" admin [].

(** ** [freeze.rs] *)

Definition freeze_price (asset : Address) (reason : string) : M unit :=
  auth_admin;;
  check_registered_asset asset;;
  panic_if (256 <? Z.of_nat (String.length reason)) ReasonTooLong;;
  frozen ← has (KeyFrozenPrice asset);
  panic_if frozen PriceFrozen;;
  aggregate ← get (KeyAggregate asset);
  match aggregate with
  | None => panic_with_error NoData
  | Some aggregate =>
      current_ledger ← ledger_sequence;
      Flags.mark Flags.FREEZE;;
      set (KeyFrozenPrice asset)
        (MkFrozenPrice (ap_price aggregate) (ap_timestamp aggregate) (ap_decimals aggregate)
           reason current_ledger);;
      publish (MkPriceFrozenEvent asset reason (ap_price aggregate) current_ledger)
  end.

Definition unfreeze_price (asset : Address) : M unit :=
  auth_admin;;
  frozen ← has (KeyFrozenPrice asset);
  panic_if (negb frozen) PriceNotFrozen;;
  remove (KeyFrozenPrice asset);;
  current_ledger ← ledger_sequence;
  publish (MkPriceUnfrozenEvent asset current_ledger).

Definition is_price_frozen (asset : Address) : M bool :=
  b ← Flags.on Flags.FREEZE;
  if negb b then mret false else has (KeyFrozenPrice asset).

Definition get_frozen_price (asset : Address) : M (option FrozenPrice) :=
  b ← Flags.on Flags.FREEZE;
  if negb b then mret None else get (KeyFrozenPrice asset).

Definition check_not_frozen (asset : Address) : M unit :=
  b ← Flags.on Flags.FREEZE;
  if negb b then mret tt
  else frozen ← has (KeyFrozenPrice asset); panic_if frozen PriceFrozen.
End Assets.

(** ** The registry invariant *)

Definition registered (w : World) : list Address := default [] (persistent w KeyAssetRegistry).

Definition registry_ok (w : World) : Prop :=
  NoDup (registered w) ∧
  (∀ a, persistent w (KeyAssetRegistered a) =
        if bool_decide (a ∈ registered w) then Some true else None) ∧
  (∀ a v, persistent w (KeyAssetRegistryIndex a) = Some v → v = true ∧ a ∈ registered w).

Definition registry_key (k : DataKey) : Prop :=
  match k with
  | KeyAssetRegistry | KeyAssetRegistered _ | KeyAssetRegistryIndex _ => True
  | _ => False
  end.

Lemma registry_ok_reads : reads_only registry_key registry_ok.
Proof.
  intros w w' Hk (Hn & Hr & Hi). unfold registry_ok, registered in *. rewrite !Hk by done.
  split_and!; [done| |]; intros a; rewrite Hk by done; auto.
Qed.

Lemma registry_ok_empty : registry_ok empty_world.
Proof. split_and!; [constructor|done|done]. Qed.

(** The world after a membership check of a registered asset. *)
Definition indexed (asset : Address) (w : World) : World :=
  match persistent w (KeyAssetRegistryIndex asset) with
  | Some _ => w
  | None => put_persistent (KeyAssetRegistryIndex asset) (Some (true : interp (ty_of (KeyAssetRegistryIndex asset)))) w
  end.

Lemma indexed_frame asset w k :
  k ≠ KeyAssetRegistryIndex asset → persistent (indexed asset w) k = persistent w k.
Proof.
  intros Hk. unfold indexed. destruct (persistent w (KeyAssetRegistryIndex asset)); [done|].
  apply persistent_put_ne. by intros <-.
Qed.

Lemma indexed_flags asset w : instance_flags (indexed asset w) = instance_flags w.
Proof. unfold indexed. by destruct (persistent w (KeyAssetRegistryIndex asset)). Qed.

Lemma registered_indexed asset w : registered (indexed asset w) = registered w.
Proof. unfold registered. by rewrite indexed_frame. Qed.

Lemma indexed_ok asset w : registry_ok w → asset ∈ registered w → registry_ok (indexed asset w).
Proof.
  intros (Hn & Hr & Hi) Ha. unfold registry_ok. rewrite registered_indexed.
  split_and!; [done|intros a; by rewrite indexed_frame|]. intros a v.
  unfold indexed. destruct (persistent w (KeyAssetRegistryIndex asset)) eqn:E; [apply Hi|].
  destruct (decide (a = asset)) as [->|Hne].
  - rewrite persistent_put_eq. by intros [= <-].
  - rewrite persistent_put_ne by congruence. apply Hi.
Qed.

Lemma run_check_registered asset c w :
  registry_ok w →
  check_registered_asset asset c w =
    if bool_decide (asset ∈ registered w) then Ok tt (indexed asset w) else Err (Error AssetNotRegistered).
Proof.
  intros (_ & Hr & Hi). unfold check_registered_asset, indexed. rewrite run_bind, run_get_or.
  destruct (persistent w (KeyAssetRegistryIndex asset)) as [b|] eqn:E; simpl.
  - destruct (Hi _ _ E) as [-> Ha]. rewrite bool_decide_true by done.
    by rewrite (run_extend_ttl _ _ _ _ E).
  - rewrite run_bind, run_get_or, Hr. case_bool_decide as Ha; [|done]. cbn [from_option id negb].
    rewrite run_bind, run_panic_if, run_bind.
    rewrite (run_extend_ttl (KeyAssetRegistered asset) true) by (by rewrite Hr, bool_decide_true).
    rewrite run_bind, run_set. by rewrite (run_extend_put (KeyAssetRegistryIndex asset)).
Qed.

Lemma run_is_asset_registered asset c w :
  registry_ok w →
  is_asset_registered asset c w =
    Ok (bool_decide (asset ∈ registered w))
       (if bool_decide (asset ∈ registered w) then indexed asset w else w).
Proof.
  intros (_ & Hr & Hi). unfold is_asset_registered, indexed. rewrite run_bind, run_get_or.
  destruct (persistent w (KeyAssetRegistryIndex asset)) as [b|] eqn:E; simpl.
  - destruct (Hi _ _ E) as [-> Ha]. rewrite bool_decide_true by done.
    by rewrite run_bind, (run_extend_ttl _ _ _ _ E).
  - rewrite run_bind, run_get_or, Hr. case_bool_decide as Ha; [|done]. cbn [from_option id]. rewrite !run_bind.
    rewrite (run_extend_ttl (KeyAssetRegistered asset) true) by (by rewrite Hr, bool_decide_true).
    rewrite run_bind, run_set. by rewrite (run_extend_put (KeyAssetRegistryIndex asset)).
Qed.

(** ** Registration and removal *)

Lemma registry_ok_insert asset w w' :
  registry_ok w → asset ∉ registered w → registered w' = registered w ++ [asset] →
  (∀ a, persistent w' (KeyAssetRegistered a) =
        if decide (a = asset) then Some true else persistent w (KeyAssetRegistered a)) →
  (∀ a, persistent w' (KeyAssetRegistryIndex a) =
        if decide (a = asset) then Some true else persistent w (KeyAssetRegistryIndex a)) →
  registry_ok w'.
Proof.
  intros (Hn & Hr & Hi) Ha Hl Hr' Hi'. unfold registry_ok. rewrite Hl. split_and!.
  - apply NoDup_app. split_and!; [done| |apply NoDup_singleton]. set_solver.
  - intros a. rewrite Hr'. destruct (decide (a = asset)) as [->|Hne].
    + rewrite bool_decide_true; [done|]. set_solver.
    + rewrite Hr. apply (f_equal (λ b : bool, if b then Some true else None)).
      apply bool_decide_ext. set_solver.
  - intros a v. rewrite Hi'. destruct (decide (a = asset)) as [->|Hne].
    + intros [= <-]. split; [done|]. set_solver.
    + intros [-> Hin]%Hi. split; [done|]. set_solver.
Qed.

Lemma registry_ok_delete asset w w' :
  registry_ok w → registered w' = filter (λ a, a ≠ asset) (registered w) →
  (∀ a, persistent w' (KeyAssetRegistered a) =
        if decide (a = asset) then None else persistent w (KeyAssetRegistered a)) →
  (∀ a, persistent w' (KeyAssetRegistryIndex a) =
        if decide (a = asset) then None else persistent w (KeyAssetRegistryIndex a)) →
  registry_ok w'.
Proof.
  intros (Hn & Hr & Hi) Hl Hr' Hi'. unfold registry_ok. rewrite Hl. split_and!.
  - by apply NoDup_filter.
  - intros a. rewrite Hr'. destruct (decide (a = asset)) as [->|Hne].
    + rewrite bool_decide_false; [done|]. rewrite list_elem_of_filter. tauto.
    + rewrite Hr. apply (f_equal (λ b : bool, if b then Some true else None)).
      apply bool_decide_ext. rewrite list_elem_of_filter. tauto.
  - intros a v. rewrite Hi'. destruct (decide (a = asset)) as [->|Hne]; [done|].
    intros [-> Hin]%Hi. split; [done|]. rewrite list_elem_of_filter. tauto.
Qed.

(** Reads of a family of keys through one write. *)
Lemma registered_put w k v :
  k ≠ KeyAssetRegistry → registered (put_persistent k v w) = registered w.
Proof. intros Hk. unfold registered. by rewrite persistent_put_ne. Qed.

Lemma lookup_registered_put asset v w a :
  persistent (put_persistent (KeyAssetRegistered asset) v w) (KeyAssetRegistered a) =
    if decide (a = asset) then v else persistent w (KeyAssetRegistered a).
Proof.
  destruct (decide (a = asset)) as [->|Hne]; [by rewrite persistent_put_eq|].
  by rewrite persistent_put_ne by congruence.
Qed.

Lemma lookup_index_put asset v w a :
  persistent (put_persistent (KeyAssetRegistryIndex asset) v w) (KeyAssetRegistryIndex a) =
    if decide (a = asset) then v else persistent w (KeyAssetRegistryIndex a).
Proof.
  destruct (decide (a = asset)) as [->|Hne]; [by rewrite persistent_put_eq|].
  by rewrite persistent_put_ne by congruence.
Qed.

Section Registry.
Context `{BP : BuildProfile} `{CR : Crypto}.

(** The writes of a registration before its audit entry. *)
Definition register_writes (asset admin : Address) (w : World) : World :=
  add_event (MkAssetRegisteredEvent asset admin)
  (put_persistent (KeyAssetCircuitBreakerLogCount asset)
    (Some (0 : interp (ty_of (KeyAssetCircuitBreakerLogCount asset))))
  (put_persistent (KeyAssetCircuitBreakerTripped asset)
    (Some (false : interp (ty_of (KeyAssetCircuitBreakerTripped asset))))
  (put_persistent (KeyAssetPauseFlag asset)
    (Some (false : interp (ty_of (KeyAssetPauseFlag asset))))
  (put_persistent (KeyAssetPriceBounds asset)
    (Some (default_bounds : interp (ty_of (KeyAssetPriceBounds asset))))
  (put_persistent KeyAssetRegistry (Some (registered w ++ [asset] : interp (ty_of KeyAssetRegistry)))
  (put_persistent (KeyAssetRegistryIndex asset)
    (Some (true : interp (ty_of (KeyAssetRegistryIndex asset))))
  (put_persistent (KeyAssetRegistered asset)
    (Some (true : interp (ty_of (KeyAssetRegistered asset)))) w))))))).

Lemma registered_register_writes asset admin w :
  registered (register_writes asset admin w) = registered w ++ [asset].
Proof. unfold registered at 1, register_writes. by read_store. Qed.

Lemma register_writes_ok asset admin w :
  registry_ok w → asset ∉ registered w → registry_ok (register_writes asset admin w).
Proof.
  intros Hok Ha. apply (registry_ok_insert asset w); [done|done| | |].
  - apply registered_register_writes.
  - intros a. unfold register_writes. cbn [persistent add_event].
    do 6 (rewrite persistent_put_ne by done). apply lookup_registered_put.
  - intros a. unfold register_writes. cbn [persistent add_event].
    do 5 (rewrite persistent_put_ne by done). rewrite lookup_index_put.
    destruct (decide (a = asset)); [done|]. by rewrite persistent_put_ne by done.
Qed.

Lemma run_register asset admin c w :
  registry_ok w → persistent w KeyAdmin = Some admin → authorized c admin = true →
  register_asset asset c w =
    if bool_decide (asset ∈ registered w) then Err (Error AssetAlreadyRegistered)
    else if default DEFAULT_MAX_ASSETS (persistent w KeyMaxAssets) <=? Z.of_nat (length (registered w))
    then Err (Error MaxAssetsReached)
    else emit_admin_action "reg_asset" admin [] c (register_writes asset admin w).
Proof.
  intros (_ & Hr & _) Ha Hc. unfold register_asset.
  rewrite run_bind, (run_auth_admin admin) by done. rewrite run_bind. unfold has. rewrite Hr.
  destruct (bool_decide (asset ∈ registered w)); [reflexivity|]. rewrite bool_decide_false by (by intros [? [=]]). rewrite run_bind, run_panic_if. unfold get_max_assets.
  rewrite run_bind, run_get_bump_or. unfold read_registered_assets. rewrite run_bind, run_get_bump_or.
  rewrite run_bind, run_panic_if. change (default [] (persistent w KeyAssetRegistry)) with (registered w).
  destruct (_ <=? _); [done|]. unfold write_registered_assets, initialize_asset_price_bounds.
  by rewrite !run_bind, ?run_set.
Qed.

(** The writes of a removal before its audit entry. *)
Definition unregister_writes (asset admin : Address) (w : World) : World :=
  add_event (MkAssetUnregisteredEvent asset admin)
  (put_persistent KeyAssetRegistry
    (Some (filter (λ a, a ≠ asset) (registered w) : interp (ty_of KeyAssetRegistry)))
  (put_persistent (KeyAggregate asset) None
  (put_persistent (KeyAssetRegistryIndex asset) None
  (put_persistent (KeyAssetRegistered asset) None w)))).

Lemma registered_unregister_writes asset admin w :
  registered (unregister_writes asset admin w) = filter (λ a, a ≠ asset) (registered w).
Proof. unfold registered at 1, unregister_writes. by read_store. Qed.

Lemma unregister_writes_ok asset admin w :
  registry_ok w → registry_ok (unregister_writes asset admin w).
Proof.
  intros Hok. apply (registry_ok_delete asset w); [done| | |].
  - apply registered_unregister_writes.
  - intros a. unfold unregister_writes. cbn [persistent add_event].
    do 3 (rewrite persistent_put_ne by done). apply lookup_registered_put.
  - intros a. unfold unregister_writes. cbn [persistent add_event].
    do 2 (rewrite persistent_put_ne by done). rewrite lookup_index_put.
    destruct (decide (a = asset)); [done|]. by rewrite persistent_put_ne by done.
Qed.

Lemma run_unregister asset admin c w :
  registry_ok w → persistent w KeyAdmin = Some admin → authorized c admin = true →
  unregister_asset asset c w =
    if bool_decide (asset ∈ registered w)
    then emit_admin_action "unreg_ast" admin [] c (unregister_writes asset admin (indexed asset w))
    else Err (Error AssetNotRegistered).
Proof.
  intros Hok Ha Hc. unfold unregister_asset.
  rewrite run_bind, (run_auth_admin admin) by done. rewrite run_bind, run_check_registered by done.
  destruct (bool_decide (asset ∈ registered w)); [|done].
  do 3 rewrite run_bind, run_remove. unfold read_registered_assets.
  rewrite run_bind, run_get_bump_or. read_store. by rewrite !run_bind.
Qed.

(** Every asset operation, as an invocation. *)
Inductive AssetCall :=
  | CallRegisterAsset (asset : Address)
  | CallUnregisterAsset (asset : Address)
  | CallIsAssetRegistered (asset : Address)
  | CallSetAssetMetadata (asset : Address) (metadata : AssetMetadata)
  | CallBatchMetadata (updates : list AssetMetadataUpdate)
  | CallSetMinPrice (asset : Address) (min_price : Z)
  | CallSetPriceBounds (asset : Address) (min_price max_price max_change : Z)
  | CallPauseAsset (asset : Address)
  | CallUnpauseAsset (asset : Address)
  | CallTripBreaker (asset : Address) (previous candidate change max_change : Z)
  | CallRearmBreaker (asset : Address)
  | CallDisableAsset (asset : Address)
  | CallEnableAsset (asset : Address)
  | CallFreezePrice (asset : Address) (reason : string)
  | CallUnfreezePrice (asset : Address).

Definition run_asset_call (call : AssetCall) : M unit :=
  match call with
  | CallRegisterAsset a => register_asset a
  | CallUnregisterAsset a => unregister_asset a
  | CallIsAssetRegistered a => _ ← is_asset_registered a; mret tt
  | CallSetAssetMetadata a m => set_asset_metadata a m
  | CallBatchMetadata us => batch_set_asset_metadata us
  | CallSetMinPrice a p => set_min_price a p
  | CallSetPriceBounds a lo hi m => set_price_bounds a lo hi m
  | CallPauseAsset a => pause_asset a
  | CallUnpauseAsset a => unpause_asset a
  | CallTripBreaker a p q ch m => trip_circuit_breaker a p q ch m
  | CallRearmBreaker a => rearm_circuit_breaker a
  | CallDisableAsset a => disable_asset a
  | CallEnableAsset a => enable_asset a
  | CallFreezePrice a r => freeze_price a r
  | CallUnfreezePrice a => unfreeze_price a
  end.

Definition not_registry (k : DataKey) : Prop := ¬ registry_key k.

Lemma registry_emit action admin data : preserves registry_ok (emit_admin_action action admin data).
Proof.
  apply (preserves_frame registry_key); [apply registry_ok_reads|].
  apply (modifies_mono audit_key); [|apply modifies_emit]. intros k Hk Hr. by destruct k.
Qed.

Lemma registry_auth : preserves registry_ok auth_admin.
Proof. apply (preserves_frame registry_key); [apply registry_ok_reads|apply modifies_auth_admin]. Qed.

Lemma registry_check asset : preserves registry_ok (check_registered_asset asset).
Proof.
  intros c w a w' Hok H. rewrite run_check_registered in H by done.
  case_bool_decide; [|done]. injection H as <- <-. by apply indexed_ok.
Qed.

Lemma registry_register asset : preserves registry_ok (register_asset asset).
Proof.
  intros c w a w' Hok H.
  pose proof H as H1. unfold register_asset in H1. apply bind_Ok in H1 as (admin & w1 & Hau & _).
  apply auth_admin_Ok in Hau as (_ & Had & Hau). rewrite (run_register _ admin) in H by done.
  case_bool_decide as Hin; [done|]. case_if; [done|].
  eapply registry_emit; [|done]. by apply register_writes_ok.
Qed.

Lemma registry_unregister asset : preserves registry_ok (unregister_asset asset).
Proof.
  intros c w a w' Hok H.
  pose proof H as H1. unfold unregister_asset in H1. apply bind_Ok in H1 as (admin & w1 & Hau & _).
  apply auth_admin_Ok in Hau as (_ & Had & Hau). rewrite (run_unregister _ admin) in H by done.
  case_bool_decide as Hin; [|done].
  eapply registry_emit; [|done]. by apply unregister_writes_ok, indexed_ok.
Qed.

Lemma registry_is_registered asset : preserves registry_ok (is_asset_registered asset).
Proof.
  intros c w a w' Hok H. rewrite run_is_asset_registered in H by done. injection H as _ <-.
  case_bool_decide; [by apply indexed_ok|done].
Qed.

Ltac registry_quiet :=
  idtac; refine (preserves_frame registry_key _ _ registry_ok_reads _);
  match goal with
  | |- modifies ?P (Flags.on ?b) => exact (modifies_flag_on P b)
  | |- modifies ?P (Flags.mark ?b) => exact (modifies_mark P b)
  | |- modifies _ _ => solve [solve_modifies; by intros []]
  end.

Ltac registry_leaf :=
  idtac;
  match goal with
  | |- preserves _ (emit_admin_action ?a ?b ?d) => exact (registry_emit a b d)
  | |- preserves _ auth_admin => exact registry_auth
  | |- preserves _ (check_registered_asset ?a) => exact (registry_check a)
  | |- preserves _ (register_asset ?a) => exact (registry_register a)
  | |- preserves _ (unregister_asset ?a) => exact (registry_unregister a)
  | |- preserves _ (is_asset_registered ?a) => exact (registry_is_registered a)
  | |- preserves _ _ => registry_quiet
  end.

Lemma registry_snapshot admin : preserves registry_ok (snapshot_before_change admin).
Proof.
  apply (preserves_frame registry_key); [apply registry_ok_reads|].
  apply modifies_snapshot. intros k Hk Hr. by destruct k.
Qed.

Lemma registry_apply_snapshot s : preserves registry_ok (apply_snapshot s).
Proof. unfold apply_snapshot. walk_preserves registry_leaf. Qed.

Ltac registry_admin_leaf :=
  idtac;
  match goal with
  | |- preserves _ (snapshot_before_change ?a) => exact (registry_snapshot a)
  | |- preserves _ (apply_snapshot ?a) => exact (registry_apply_snapshot a)
  | |- _ => registry_leaf
  end.

(** An administrator, once set, stays set. *)
Definition admin_set (w : World) : Prop := is_Some (persistent w KeyAdmin).

Definition admin_key (k : DataKey) : Prop := match k with KeyAdmin => True | _ => False end.

Lemma admin_set_reads : reads_only admin_key admin_set.
Proof. intros w w' Hk. unfold admin_set. by rewrite Hk. Qed.

Lemma admin_set_write v : preserves admin_set (set KeyAdmin v).
Proof. intros c w a w' _ [= _ <-]. unfold admin_set. by rewrite persistent_put_eq. Qed.

Lemma admin_set_emit action admin data : preserves admin_set (emit_admin_action action admin data).
Proof.
  apply (preserves_frame admin_key); [apply admin_set_reads|].
  apply (modifies_mono audit_key); [|apply modifies_emit]. intros k Hk Hr. by destruct k.
Qed.

Lemma admin_set_snapshot admin : preserves admin_set (snapshot_before_change admin).
Proof.
  apply (preserves_frame admin_key); [apply admin_set_reads|].
  apply modifies_snapshot. intros k Hk Hr. by destruct k.
Qed.

Ltac admin_leaf :=
  idtac;
  match goal with
  | |- preserves _ (set KeyAdmin ?v) => exact (admin_set_write v)
  | |- preserves _ (emit_admin_action ?a ?b ?d) => exact (admin_set_emit a b d)
  | |- preserves _ (snapshot_before_change ?a) => exact (admin_set_snapshot a)
  | |- _ =>
      refine (preserves_frame admin_key _ _ admin_set_reads _);
      match goal with
      | |- modifies ?P (Flags.on ?b) => exact (modifies_flag_on P b)
      | |- modifies ?P (Flags.mark ?b) => exact (modifies_mark P b)
      | |- modifies ?P auth_admin => exact (modifies_auth_admin P)
      | |- modifies _ _ => solve [solve_modifies; by intros []]
      end
  end.

(** The invariant of every history: the registry is consistent, and empty
    until the contract has an administrator. *)
Definition registry_inv (w : World) : Prop :=
  registry_ok w ∧ (persistent w KeyAdmin = None → registered w = []).

Lemma registry_inv_reads : reads_only (λ k, registry_key k ∨ admin_key k) registry_inv.
Proof.
  intros w w' Hk [Hok Ha]. split; [apply (registry_ok_reads w); auto|].
  unfold registered in *. rewrite !Hk by (simpl; auto). done.
Qed.

Lemma registry_inv_auth {A} (f : Address → M A) :
  preserves registry_ok (auth_admin ≫= f) → (∀ a, preserves admin_set (f a)) →
  preserves registry_inv (auth_admin ≫= f).
Proof.
  intros Hr Ha c w b w' [Hok _] H. split; [by eapply Hr|]. intros Hn.
  apply bind_Ok in H as (admin & w1 & Hau & H). apply auth_admin_Ok in Hau as (-> & Had & _).
  assert (admin_set w') as [x Hx]; [|congruence]. eapply Ha; [|done]. by exists admin.
Qed.

(** An empty registry stays empty through initialisation. *)
Definition registry_empty (w : World) : Prop := registry_ok w ∧ registered w = [].

Lemma registry_empty_reads : reads_only registry_key registry_empty.
Proof.
  intros w w' Hk [Hok He]. split; [by apply (registry_ok_reads w)|].
  unfold registered in *. by rewrite Hk.
Qed.

Lemma registry_empty_write :
  preserves registry_empty (set KeyAssetRegistry ([] : interp (ty_of KeyAssetRegistry))).
Proof.
  intros c w a w' [(Hn & Hr & Hi) He] [= _ <-].
  assert (registered (put_persistent KeyAssetRegistry (Some []) w) = []) as He'
    by (unfold registered; by rewrite persistent_put_eq).
  split; [|done]. unfold registry_ok. rewrite He', He in *.
  split_and!; [done| |]; intros x; rewrite persistent_put_ne by done; auto.
Qed.

Lemma registry_empty_emit action admin data :
  preserves registry_empty (emit_admin_action action admin data).
Proof.
  apply (preserves_frame registry_key); [apply registry_empty_reads|].
  apply (modifies_mono audit_key); [|apply modifies_emit]. intros k Hk Hr. by destruct k.
Qed.

Lemma registry_initialize admin min_sources max_history decimals description :
  preserves registry_inv (initialize admin min_sources max_history decimals description).
Proof.
  intros c w a w' [Hok Hn] H. unfold initialize in H.
  apply bind_Ok in H as (b & w1 & [= <- <-] & H). apply bind_Ok in H as (x & w1 & Hb & H).
  rewrite run_panic_if in Hb. case_bool_decide as Hadm; [done|]. injection Hb as _ <-.
  apply eq_None_not_Some in Hadm.
  enough (registry_empty w') as [Hok' He] by done.
  assert (registry_empty w) as He by (split; auto). revert H. generalize dependent He.
  match goal with |- _ → ?m c w = _ → _ => assert (preserves registry_empty m) as Hp end.
  { unfold get_unwrap. walk_preserves ltac:(idtac; match goal with
    | |- preserves _ (emit_admin_action ?a ?b ?d) => exact (registry_empty_emit a b d)
    | |- preserves _ (set KeyAssetRegistry _) => exact registry_empty_write
    | |- _ => refine (preserves_frame registry_key _ _ registry_empty_reads _);
        solve [solve_modifies; by intros []]
    end). }
  intros He H. by eapply Hp.
Qed.

Ltac registry_inv_frame :=
  apply (preserves_frame (λ k, registry_key k ∨ admin_key k)); [apply registry_inv_reads|];
  solve_modifies; intros [[]|[]].

Lemma registry_run_call call : preserves registry_inv (run_call call).
Proof.
  destruct call; cbn [run_call].
  all: try (unfold_handlers; apply registry_inv_auth; intros;
    [solve [unfold read_oracle_sources, get_aggregation_method, read_subscription_plans,
       write_subscription_plans; walk_preserves registry_admin_leaf]
    |unfold read_oracle_sources, get_aggregation_method, read_subscription_plans,
       write_subscription_plans, apply_snapshot; walk_preserves admin_leaf]).
  - apply registry_initialize.
  - unfold emergency_action, get_active_emergency_council. registry_inv_frame.
  - unfold check_emergency_ratification. registry_inv_frame.
Qed.

Lemma admin_set_check asset : preserves admin_set (check_registered_asset asset).
Proof. unfold check_registered_asset. walk_preserves admin_leaf. Qed.

Lemma registry_inv_is_registered asset : preserves registry_inv (is_asset_registered asset).
Proof.
  intros c w a w' [Hok Hn] H. pose proof (registry_is_registered _ _ _ _ _ Hok H) as Hok'.
  rewrite run_is_asset_registered in H by done. injection H as _ <-. split; [done|].
  case_bool_decide; [|done]. rewrite registered_indexed, indexed_frame by done. done.
Qed.

Ltac admin_asset_leaf :=
  idtac;
  match goal with
  | |- preserves _ (check_registered_asset ?a) => exact (admin_set_check a)
  | |- _ => admin_leaf
  end.

Ltac unfold_asset_calls :=
  unfold set_asset_metadata, batch_set_asset_metadata, set_min_price, set_price_bounds,
    pause_asset, unpause_asset, disable_asset, enable_asset, freeze_price, unfreeze_price.

Lemma registry_run_asset_call call : preserves registry_inv (run_asset_call call).
Proof.
  destruct call; cbn [run_asset_call].
  all: try (unfold_asset_calls; apply registry_inv_auth; intros; unfold set_asset_paused;
    [solve [walk_preserves registry_leaf]
    |walk_preserves admin_asset_leaf]).
  - apply registry_inv_auth; [apply registry_register|intros].
    unfold get_max_assets, read_registered_assets, write_registered_assets,
      initialize_asset_price_bounds. walk_preserves admin_leaf.
  - apply registry_inv_auth; [apply registry_unregister|intros].
    unfold read_registered_assets, write_registered_assets. walk_preserves admin_asset_leaf.
  - apply preserves_bind; [apply registry_inv_is_registered|]. intros. registry_inv_frame.
  - unfold trip_circuit_breaker, is_asset_paused, set_asset_paused. registry_inv_frame.
  - unfold rearm_circuit_breaker, set_circuit_breaker, set_asset_paused. registry_inv_frame.
Qed.

(** The histories of the contract under administrative and asset calls,
    successful or not, by any callers in any contexts. *)
Inductive registry_reachable : World → Prop :=
  | registry_init : registry_reachable empty_world
  | registry_admin w c call :
      registry_reachable w → registry_reachable (invoke (run_call call) c w)
  | registry_asset w c call :
      registry_reachable w → registry_reachable (invoke (run_asset_call call) c w).

Lemma registry_reachable_inv w : registry_reachable w → registry_inv w.
Proof.
  induction 1; [split; [apply registry_ok_empty|done]| |].
  - by apply preserves_invoke; [apply registry_run_call|].
  - by apply preserves_invoke; [apply registry_run_asset_call|].
Qed.
End Registry.

(** ** Pagination *)

Lemma next_index_spec l a : ∀ i j, next_index l a i = Some j ↔
  ∃ k, l !! k = Some a ∧ j = (i + S k)%nat ∧ ∀ k', (k' < k)%nat → l !! k' ≠ Some a.
Proof.
  induction l as [|x l IH]; intros i j; cbn [next_index].
  - split; [done|]. by intros (k & Hk & _).
  - destruct (decide (x = a)) as [->|Hne].
    + split.
      * intros [= <-]. exists 0%nat. split_and!; [done|lia|lia].
      * intros ([|k] & Hk & -> & Hmin); [f_equal; lia|]. exfalso. by apply (Hmin 0%nat); [lia|].
    + rewrite IH. split; intros (k & Hk & -> & Hmin).
      * exists (S k). split_and!; [done|lia|]. intros [|k'] Hk'; [simpl; congruence|].
        apply Hmin. lia.
      * destruct k as [|k]; [simpl in Hk; congruence|]. exists k. split_and!; [done|lia|].
        intros k' Hk'. apply (Hmin (S k')). lia.
Qed.

Lemma next_index_nodup l a k : NoDup l → l !! k = Some a → next_index l a 0 = Some (S k).
Proof.
  intros Hn Hk. apply next_index_spec. exists k. split_and!; [done|lia|]. intros k' Hk' Ha.
  pose proof (NoDup_lookup _ _ _ _ Hn Hk Ha). lia.
Qed.

(** The loop takes what is left of the page size from the index on. *)
Lemma page_loop_spec l limit : ∀ fuel index page,
  (length l <= index + fuel)%nat → Z.of_nat (length page) <= limit →
  let n := Z.to_nat (limit - Z.of_nat (length page)) in
  page_loop fuel l limit index page =
    (page ++ take n (drop index l), (index + length (take n (drop index l)))%nat).
Proof.
  induction fuel as [|fuel IH]; intros index page Hl Hp n; cbn [page_loop].
  - rewrite drop_ge by lia. rewrite take_nil, app_nil_r. by rewrite Nat.add_0_r.
  - destruct (l !! index) as [a|] eqn:Ha.
    + destruct (Z.ltb_spec (Z.of_nat (length page)) limit) as [Hlt|Hge].
      * rewrite IH by (rewrite ?length_app; simpl; lia).
        rewrite length_app. simpl. replace n with (S (Z.to_nat (limit - Z.of_nat (length page + 1)))) by lia.
        rewrite (drop_S l a index) by done. simpl. rewrite <- app_assoc. simpl. f_equal. lia.
      * replace n with 0%nat by lia. simpl. by rewrite app_nil_r, Nat.add_0_r.
    + apply lookup_ge_None in Ha. rewrite drop_ge by lia. rewrite take_nil, app_nil_r.
      by rewrite Nat.add_0_r.
Qed.

(** The position a cursor stands for in a list without duplicates. *)
Definition cursor_at (l : list Address) (cursor : option Address) (start : nat) : Prop :=
  match cursor with
  | None => start = 0%nat
  | Some a => ∃ k, l !! k = Some a ∧ start = S k
  end.

Lemma run_paginated cursor limit start c w :
  NoDup (registered w) → 1 <= limit <= MAX_PAGE_SIZE → cursor_at (registered w) cursor start →
  let page := take (Z.to_nat limit) (drop start (registered w)) in
  get_registered_assets_paginated cursor limit c w =
    Ok (page, if (start + length page <? length (registered w))%nat then last page else None) w.
Proof.
  intros Hn Hl Hcur page. unfold get_registered_assets_paginated, read_registered_assets.
  rewrite run_bind, run_panic_if. destruct (_ || _) eqn:E; [unfold MAX_PAGE_SIZE in *; bool_hyps; lia|].
  rewrite run_bind, run_get_bump_or. change (default [] (persistent w KeyAssetRegistry)) with (registered w).
  set (l := registered w) in *.
  assert ((match cursor with
           | Some a => match next_index l a 0 with
                       | Some i => mret i | None => panic_with_error InvalidPageCursor end
           | None => mret 0%nat end) c w = Ok start w) as Hs.
  { destruct cursor as [a|]; [|by rewrite (Hcur : start = 0%nat)]. destruct Hcur as (k & Hk & ->).
    by rewrite (next_index_nodup l a k). }
  rewrite run_bind, Hs, page_loop_spec by (simpl; lia).
  simpl length. rewrite Z.sub_0_r. fold page. rewrite app_nil_l.
  destruct (Nat.ltb_spec (start + length page) (length l)) as [Hlt|Hge]; [|done].
  rewrite run_bind. destruct (last page) eqn:El; [done|].
  apply last_None in El. exfalso. subst page. apply (f_equal length) in El.
  rewrite length_take, length_drop in *. simpl in *. lia.
Qed.

(** A client that follows the cursors. *)
Fixpoint list_all (fuel : nat) (cursor : option Address) (limit : Z) : M (list Address) :=
  match fuel with
  | O => panic
  | S fuel =>
      r ← get_registered_assets_paginated cursor limit;
      match snd r with
      | None => mret (fst r)
      | Some _ => rest ← list_all fuel (snd r) limit; mret (fst r ++ rest)
      end
  end.

Lemma list_all_from limit c w : ∀ fuel cursor start,
  NoDup (registered w) → 1 <= limit <= MAX_PAGE_SIZE → cursor_at (registered w) cursor start →
  (length (registered w) - start < fuel)%nat →
  list_all fuel cursor limit c w = Ok (drop start (registered w)) w.
Proof.
  induction fuel as [|fuel IH]; intros cursor start Hn Hl Hcur Hf; [lia|]. cbn [list_all].
  rewrite run_bind, (run_paginated _ _ start) by done. cbn [fst snd].
  set (l := registered w) in *. set (page := take (Z.to_nat limit) (drop start l)).
  assert (length page = Nat.min (Z.to_nat limit) (length l - start)) as Hp
    by (subst page; by rewrite length_take, length_drop).
  destruct (Nat.ltb_spec (start + length page) (length l)) as [Hlt|Hge].
  - destruct (last page) as [a|] eqn:El.
    + rewrite run_bind, (IH _ (start + length page)%nat); [|done|done| |lia].
      * rewrite run_ret, <- drop_drop. f_equal. subst page.
        rewrite length_take, length_drop, Nat.min_l by lia. apply take_drop.
      * rewrite last_lookup in El. remember (Nat.pred (length page)) as i eqn:Hi. unfold page in El. rewrite lookup_take_lt, lookup_drop in El by lia.
        eexists. split; [exact El|]. lia.
    + apply last_None in El. rewrite El in Hp. simpl in Hp. lia.
  - rewrite run_ret. f_equal. subst page. apply take_ge. rewrite length_drop. lia.
Qed.

(** ** The properties of the component *)

(** The registry is consistent in every reachable state: the list of
    assets has no duplicates, an asset is flagged registered exactly when it
    is in the list, the lazily rebuilt index never holds an unregistered
    asset, and the membership query answers membership in the list. *)
Theorem registry_consistent `{BuildProfile} `{Crypto} w asset c :
  registry_reachable w →
  NoDup (registered w) ∧
  (persistent w (KeyAssetRegistered asset) = Some true ↔ asset ∈ registered w) ∧
  (persistent w (KeyAssetRegistryIndex asset) = Some true → asset ∈ registered w) ∧
  ∃ w', is_asset_registered asset c w = Ok (bool_decide (asset ∈ registered w)) w'.
Proof.
  intros Hr. destruct (registry_reachable_inv w Hr) as [Hok _]. split_and!.
  - apply Hok.
  - destruct Hok as (_ & -> & _). by case_bool_decide.
  - intros Hi. by apply Hok in Hi as [_ ?].
  - rewrite run_is_asset_registered by done. eauto.
Qed.

(** One registered asset after initialisation. *)
Definition registered_world : World :=
  invoke (@register_asset OverflowChecks toy_crypto 30%N) toy_ctx
    (invoke (@run_call OverflowChecks toy_crypto init_call) toy_ctx empty_world).

Lemma registered_world_reachable : @registry_reachable OverflowChecks toy_crypto registered_world.
Proof.
  apply (@registry_asset OverflowChecks toy_crypto _ toy_ctx (CallRegisterAsset 30%N)).
  apply (@registry_admin OverflowChecks toy_crypto _ toy_ctx init_call). constructor.
Qed.

Lemma registry_consistent_witness :
  registered registered_world = [30%N] ∧ NoDup (registered registered_world).
Proof.
  split; [vm_compute; reflexivity|].
  exact (proj1 (@registry_consistent OverflowChecks toy_crypto registered_world 30%N toy_ctx
    registered_world_reachable)).
Defined.

(** Paging through the registry is exact: with any page size the contract
    accepts, following the cursors from the start terminates and returns
    every registered asset once, in registration order. *)
Theorem pagination_exact `{BuildProfile} `{Crypto} w limit c :
  registry_reachable w → 1 <= limit <= MAX_PAGE_SIZE →
  list_all (S (length (registered w))) None limit c w = Ok (registered w) w.
Proof.
  intros Hr Hl. destruct (registry_reachable_inv w Hr) as [Hok _].
  rewrite (list_all_from _ _ _ _ _ 0%nat); [by rewrite drop_0|apply Hok|done|done|lia].
Qed.

Lemma pagination_exact_witness :
  list_all 2 None 1 toy_ctx registered_world = Ok [30%N] registered_world.
Proof.
  apply (@pagination_exact OverflowChecks toy_crypto registered_world 1 toy_ctx
    registered_world_reachable). unfold MAX_PAGE_SIZE. lia.
Defined.

Lemma filter_ne_app (l : list Address) a : a ∉ l → filter (λ x, x ≠ a) (l ++ [a]) = l.
Proof.
  intros Ha. rewrite filter_app, (filter_cons_False _ a), filter_nil, app_nil_r by (by intros []).
  induction l as [|x l IH]; [done|]. apply not_elem_of_cons in Ha as [Hx Ha].
  rewrite filter_cons_True by congruence. by rewrite IH.
Qed.

Section Spec.
Context `{BP : BuildProfile} `{CR : Crypto}.

Lemma emit_frame action admin data c w a w' k :
  emit_admin_action action admin data c w = Ok a w' → ¬ audit_key k → persistent w' k = persistent w k.
Proof. intros H Hk. by eapply modifies_emit. Qed.

(** A call that ends in its audit entry succeeds. *)
Lemma run_emit_frame action admin data c w :
  0 <= audit_count (persistent w) < U32_MAX →
  ∃ w', emit_admin_action action admin data c w = Ok tt w' ∧
    instance_flags w' = instance_flags w ∧
    ∀ k, ¬ audit_key k → persistent w' k = persistent w k.
Proof.
  intros Hc. eexists. split; [by apply run_emit_admin_action|]. split; [done|]. intros k Hk.
  cbn [persistent add_event]. by apply after_append_frame.
Qed.

Lemma audit_count_register_writes asset admin w :
  audit_count (persistent (register_writes asset admin w)) = audit_count (persistent w).
Proof. unfold audit_count, register_writes. by read_store. Qed.

Lemma audit_count_unregister_writes asset admin w :
  audit_count (persistent (unregister_writes asset admin (indexed asset w))) = audit_count (persistent w).
Proof. unfold audit_count, unregister_writes. read_store. by rewrite indexed_frame. Qed.

Lemma register_succeeds asset admin c w :
  registry_ok w → persistent w KeyAdmin = Some admin → authorized c admin = true →
  0 <= audit_count (persistent w) < U32_MAX → asset ∉ registered w →
  Z.of_nat (length (registered w)) < default DEFAULT_MAX_ASSETS (persistent w KeyMaxAssets) →
  ∃ w', register_asset asset c w = Ok tt w' ∧ registered w' = registered w ++ [asset] ∧
    registry_ok w' ∧ persistent w' (KeyAssetPriceBounds asset) = Some default_bounds ∧
    persistent w' (KeyAssetPauseFlag asset) = Some false.
Proof.
  intros Hok Ha Hc Hcount Hin Hmax. pose proof (registry_register asset) as Hkeep.
  specialize (Hkeep c w tt). rewrite (run_register _ admin) in * by done.
  rewrite bool_decide_false in * by done. rewrite (proj2 (Z.leb_gt _ _)) in * by done.
  destruct (run_emit_frame "reg_asset" admin [] c (register_writes asset admin w)) as (w' & E & _ & Hf).
  { by rewrite audit_count_register_writes. }
  exists w'. split; [done|]. split_and!.
  - unfold registered at 1. rewrite Hf by (by intros []).
    apply (registered_register_writes asset admin w).
  - by apply Hkeep.
  - rewrite Hf by (by intros []). unfold register_writes. by read_store.
  - rewrite Hf by (by intros []). unfold register_writes. by read_store.
Qed.

Lemma unregister_succeeds asset admin c w :
  registry_ok w → persistent w KeyAdmin = Some admin → authorized c admin = true →
  0 <= audit_count (persistent w) < U32_MAX → asset ∈ registered w →
  ∃ w', unregister_asset asset c w = Ok tt w' ∧
    registered w' = filter (λ a, a ≠ asset) (registered w) ∧
    registry_ok w' ∧ persistent w' (KeyAggregate asset) = None.
Proof.
  intros Hok Ha Hc Hcount Hin. pose proof (registry_unregister asset) as Hkeep.
  specialize (Hkeep c w tt). rewrite (run_unregister _ admin) in * by done.
  rewrite bool_decide_true in * by done.
  destruct (run_emit_frame "unreg_ast" admin [] c (unregister_writes asset admin (indexed asset w)))
    as (w' & E & _ & Hf).
  { by rewrite audit_count_unregister_writes. }
  exists w'. split; [done|]. split_and!.
  - unfold registered at 1. rewrite Hf by (by intros []).
    change (default [] (persistent ?x KeyAssetRegistry)) with (registered x).
    by rewrite registered_unregister_writes, registered_indexed.
  - by apply Hkeep.
  - rewrite Hf by (by intros []). unfold unregister_writes. by read_store.
Qed.

Lemma run_audit_register asset admin c w w' :
  registry_ok w → persistent w KeyAdmin = Some admin → authorized c admin = true →
  0 <= audit_count (persistent w) < U32_MAX →
  register_asset asset c w = Ok tt w' →
  audit_count (persistent w') = audit_count (persistent w) + 1 ∧ persistent w' KeyAdmin = Some admin.
Proof.
  intros Hok Ha Hc Hcount. rewrite (run_register _ admin) by done.
  case_bool_decide; [done|]. case_if; [done|]. rewrite run_emit_admin_action.
  2: by rewrite audit_count_register_writes. intros [= <-]. cbn [persistent add_event].
  rewrite audit_count_after_append, audit_count_register_writes. split; [done|].
  rewrite after_append_frame by (by intros []). unfold register_writes.
  cbn [persistent add_event]. by do 7 rewrite persistent_put_ne by done.
Qed.
End Spec.

(** Registration on every branch: a registered asset is refused, a full
    registry is refused, otherwise the asset is appended with open price
    bounds and not paused; removal of an unregistered asset is refused,
    removal of a registered one drops exactly it and its aggregate; and
    removing what was just registered restores the list. *)
Theorem register_unregister_spec `{BuildProfile} `{Crypto} asset admin c w :
  registry_reachable w → persistent w KeyAdmin = Some admin → authorized c admin = true →
  0 <= audit_count (persistent w) < U32_MAX - 1 →
  let max_assets := default DEFAULT_MAX_ASSETS (persistent w KeyMaxAssets) in
  if bool_decide (asset ∈ registered w) then
    register_asset asset c w = Err (Error AssetAlreadyRegistered) ∧
    ∃ w', unregister_asset asset c w = Ok tt w' ∧
      registered w' = filter (λ a, a ≠ asset) (registered w) ∧
      persistent w' (KeyAggregate asset) = None
  else
    unregister_asset asset c w = Err (Error AssetNotRegistered) ∧
    if max_assets <=? Z.of_nat (length (registered w))
    then register_asset asset c w = Err (Error MaxAssetsReached)
    else ∃ w' w2, register_asset asset c w = Ok tt w' ∧ registered w' = registered w ++ [asset] ∧
      persistent w' (KeyAssetPriceBounds asset) = Some default_bounds ∧
      persistent w' (KeyAssetPauseFlag asset) = Some false ∧
      unregister_asset asset c w' = Ok tt w2 ∧ registered w2 = registered w.
Proof.
  intros Hr Ha Hc Hcount max_assets. destruct (registry_reachable_inv w Hr) as [Hok _].
  case_bool_decide as Hin.
  - rewrite (run_register _ admin) by done. rewrite bool_decide_true by done. split; [done|].
    destruct (unregister_succeeds asset admin c w) as (w' & ? & ? & _ & ?); [done..|lia|done|].
    exists w'. done.
  - rewrite (run_unregister _ admin) by done. rewrite bool_decide_false by done. split; [done|].
    subst max_assets. destruct (_ <=? _) eqn:Hmax.
    + rewrite (run_register _ admin) by done. rewrite bool_decide_false by done. by rewrite Hmax.
    + apply Z.leb_gt in Hmax. destruct (register_succeeds asset admin c w) as (w' & E & Hl & Hok' & Hb & Hp); [done..|lia|done|done|].
      destruct (run_audit_register asset admin c w w') as [Hc' Ha']; [done..|lia|done|].
      destruct (unregister_succeeds asset admin c w') as (w2 & E2 & Hl2 & _); [done..|lia| |].
      { rewrite Hl. set_solver. }
      exists w', w2. split_and!; try done. by rewrite Hl2, Hl, filter_ne_app.
Qed.

Lemma register_unregister_spec_witness :
  ∃ w' w2, @register_asset OverflowChecks toy_crypto 31%N toy_ctx registered_world = Ok tt w' ∧
    registered w' = [30%N; 31%N] ∧
    @unregister_asset OverflowChecks toy_crypto 31%N toy_ctx w' = Ok tt w2 ∧ registered w2 = [30%N].
Proof.
  assert (0 <= audit_count (persistent registered_world) < U32_MAX - 1) as Hc.
  { split; [vm_compute; discriminate|reflexivity]. }
  destruct (proj2 (@register_unregister_spec OverflowChecks toy_crypto 31%N 7%N toy_ctx registered_world
    registered_world_reachable eq_refl eq_refl Hc)) as (w' & w2 & E1 & E2 & _ & _ & E3 & E4).
  exists w', w2. split_and!; [exact E1|exact E2|exact E3|exact E4].
Defined.

(** ** Circuit breaker *)

(** The pause flag an observer reads. *)
Definition asset_paused (asset : Address) (w : World) : bool :=
  default false (persistent w (KeyAssetPauseFlag asset)).

Definition breaker_tripped (asset : Address) (w : World) : bool :=
  default false (persistent w (KeyAssetCircuitBreakerTripped asset)).

Lemma run_is_asset_paused asset c w : is_asset_paused asset c w = Ok (asset_paused asset w) w.
Proof. exact (run_get_bump_or (KeyAssetPauseFlag asset) false c w). Qed.

Lemma run_is_tripped asset c w : is_circuit_breaker_tripped asset c w = Ok (breaker_tripped asset w) w.
Proof. exact (run_get_bump_or (KeyAssetCircuitBreakerTripped asset) false c w). Qed.

Section Breaker.
Context `{BP : BuildProfile}.

Definition trip_count (asset : Address) (w : World) : Z :=
  default 0 (persistent w (KeyAssetCircuitBreakerLogCount asset)).

Lemma run_trip asset p q change max_change c w :
  0 <= trip_count asset w < U32_MAX →
  ∃ w', trip_circuit_breaker asset p q change max_change c w = Ok tt w' ∧
    asset_paused asset w' = true ∧ breaker_tripped asset w' = true ∧
    trip_count asset w' = trip_count asset w + 1 ∧
    persistent w' (KeyAssetCircuitBreakerLog asset (trip_count asset w + 1)) =
      Some (MkCircuitBreakerEventEntry asset p q (wrap 0 32 (Z.min change U32_MAX)) max_change
              (sequence c) (timestamp c)) ∧
    persistent w' (KeyBRK_PAUS asset) =
      if asset_paused asset w then persistent w (KeyBRK_PAUS asset) else Some true.
Proof.
  intros Hc. unfold trip_circuit_breaker. rewrite run_bind, run_is_asset_paused, run_bind.
  set (w1 := if asset_paused asset w then w
             else put_persistent (KeyBRK_PAUS asset)
               (Some (true : interp (ty_of (KeyBRK_PAUS asset)))) w).
  assert ((if negb (asset_paused asset w) then set (KeyBRK_PAUS asset) true else mret tt) c w = Ok tt w1)
    as -> by (subst w1; by destruct (asset_paused asset w)).
  assert (trip_count asset w1 = trip_count asset w) as Hcount.
  { unfold trip_count. subst w1. destruct (asset_paused asset w); by read_store. }
  unfold set_asset_paused. rewrite run_bind, run_set, run_bind, run_set, run_bind, run_get_or.
  read_store. change (default 0 (persistent w1 (KeyAssetCircuitBreakerLogCount asset)))
    with (trip_count asset w1). rewrite Hcount.
  rewrite run_bind, u32_ok by (unfold in_u32, U32_MAX in *; lia). cbn [lift]. rewrite run_ret.
  eexists. split; [reflexivity|]. unfold asset_paused, breaker_tripped, trip_count.
  split_and!; try by read_store.
  read_store. change (default false (persistent w (KeyAssetPauseFlag asset)))
    with (asset_paused asset w). subst w1. by destruct (asset_paused asset w); read_store.
Qed.

Lemma run_rearm asset c w :
  ∃ w', rearm_circuit_breaker asset c w = Ok tt w' ∧ breaker_tripped asset w' = false ∧
    persistent w' (KeyBRK_PAUS asset) = None ∧
    asset_paused asset w' =
      match persistent w (KeyBRK_PAUS asset) with
      | Some _ => false
      | None => asset_paused asset w
      end.
Proof.
  unfold rearm_circuit_breaker, set_circuit_breaker, set_asset_paused, breaker_tripped, asset_paused.
  rewrite run_bind, run_bind, run_set, (run_extend_put (KeyAssetCircuitBreakerTripped asset)), run_bind.
  unfold has. read_store. destruct (persistent w (KeyBRK_PAUS asset)) as [b|] eqn:E.
  - rewrite bool_decide_true by eauto. rewrite run_bind, run_remove, run_set.
    eexists. split; [done|]. by read_store.
  - rewrite bool_decide_false by (by intros []). eexists. split; [done|]. by read_store.
Qed.
End Breaker.

(** Tripping and re-arming the circuit breaker is transparent to the
    operator's pause: a trip pauses the asset and logs the price change; when
    no trip is outstanding, re-arming afterwards clears the breaker and
    leaves the pause flag as it was before the trip. *)
Theorem trip_then_rearm `{BuildProfile} asset p q change max_change c c' w :
  0 <= trip_count asset w < U32_MAX → persistent w (KeyBRK_PAUS asset) = None →
  ∃ w1 w2, trip_circuit_breaker asset p q change max_change c w = Ok tt w1 ∧
    is_asset_paused asset c w1 = Ok true w1 ∧ is_circuit_breaker_tripped asset c w1 = Ok true w1 ∧
    persistent w1 (KeyAssetCircuitBreakerLog asset (trip_count asset w + 1)) =
      Some (MkCircuitBreakerEventEntry asset p q (wrap 0 32 (Z.min change U32_MAX)) max_change
              (sequence c) (timestamp c)) ∧
    rearm_circuit_breaker asset c' w1 = Ok tt w2 ∧
    is_circuit_breaker_tripped asset c' w2 = Ok false w2 ∧
    is_asset_paused asset c' w2 = Ok (asset_paused asset w) w2 ∧
    persistent w2 (KeyBRK_PAUS asset) = None.
Proof.
  intros Hc Hn. destruct (run_trip asset p q change max_change c w Hc) as (w1 & E1 & Hp & Ht & _ & Hlog & Hb).
  destruct (run_rearm asset c' w1) as (w2 & E2 & Ht2 & Hb2 & Hp2).
  exists w1, w2. rewrite !run_is_asset_paused, !run_is_tripped, Hp, Ht, Ht2, Hp2, Hb, Hn, Hp.
  split_and!; try done. by destruct (asset_paused asset w).
Qed.

Lemma trip_then_rearm_witness :
  ∃ w1 w2, @trip_circuit_breaker Wrapping 30%N 100 200 10000 500 toy_ctx registered_world = Ok tt w1 ∧
    rearm_circuit_breaker 30%N toy_ctx w1 = Ok tt w2 ∧
    is_asset_paused 30%N toy_ctx w2 = Ok false w2.
Proof.
  assert (0 <= trip_count 30%N registered_world < U32_MAX) as Hc.
  { split; [vm_compute; discriminate|reflexivity]. }
  destruct (@trip_then_rearm Wrapping 30%N 100 200 10000 500 toy_ctx toy_ctx registered_world Hc eq_refl)
    as (w1 & w2 & E1 & _ & _ & _ & E2 & _ & E3 & _).
  exists w1, w2. split_and!; [exact E1|exact E2|exact E3].
Defined.

(** The calls of an operator on one asset, in order. *)
Definition replay `{BuildProfile} `{Crypto} (calls : list AssetCall) (w : World) : World :=
  fold_left (λ w call, invoke (run_asset_call call) toy_ctx w) calls w.

(** Removing an asset leaves the record of an outstanding trip behind: when
    the asset is tripped, removed, registered again and then paused by the
    operator, the next trip and re-arm lift the operator's pause, which the
    comment on [rearm_circuit_breaker] says is left in place. *)
Theorem stale_trip_lifts_pause :
  let trip := CallTripBreaker 30%N 100 200 10000 500 in
  let w := @replay OverflowChecks toy_crypto
    [trip; CallUnregisterAsset 30%N; CallRegisterAsset 30%N; CallPauseAsset 30%N] registered_world in
  asset_paused 30%N w = true ∧
  asset_paused 30%N (@replay OverflowChecks toy_crypto [trip; CallRearmBreaker 30%N] w) = false.
Proof. vm_compute. done. Qed.

(** ** Freezing and disabling *)

Lemma is_on_mark_same w bit : bit ≠ 0 → Flags.is_on (marked bit w) bit = true.
Proof.
  intros Hb. rewrite is_on_marked, Z.land_diag. apply orb_true_iff. right.
  by apply negb_true_iff, Z.eqb_neq.
Qed.

Lemma freeze_inv asset reason c w a w' :
  registry_ok w → freeze_price asset reason c w = Ok a w' →
  ∃ aggregate, persistent w (KeyAggregate asset) = Some aggregate ∧
    persistent w (KeyFrozenPrice asset) = None ∧
    Flags.is_on w' Flags.FREEZE = true ∧
    persistent w' (KeyFrozenPrice asset) =
      Some (MkFrozenPrice (ap_price aggregate) (ap_timestamp aggregate) (ap_decimals aggregate)
              reason (sequence c)).
Proof.
  intros Hok H. unfold freeze_price in H.
  apply bind_Ok in H as (admin & w1 & Hau & H). apply auth_admin_Ok in Hau as (-> & _ & _).
  rewrite run_bind, run_check_registered in H by done. case_bool_decide; [|done].
  rewrite run_bind, run_panic_if in H. case_if; [done|].
  rewrite run_bind in H. unfold has in H. rewrite run_bind, run_panic_if in H.
  case_bool_decide as Hf; [done|]. rewrite run_bind, run_get in H.
  rewrite !indexed_frame in * by done. apply eq_None_not_Some in Hf.
  destruct (persistent w (KeyAggregate asset)) as [aggregate|]; [|done].
  rewrite run_bind, run_sequence, run_bind, run_mark, run_bind, run_set, run_publish in H.
  injection H as _ <-. exists aggregate. split_and!; [done|done| |by read_store].
  change (Flags.is_on (add_event _ (put_persistent _ _ ?x)) ?b) with (Flags.is_on x b).
  by apply is_on_mark_same.
Qed.

(** Freezing works: after a successful freeze every submission guard fails
    with [PriceFrozen] and readers get the aggregate of that moment; after the
    unfreeze the guard passes again and no frozen price is served. *)
Theorem freeze_unfreeze asset reason c c' w a w1 :
  registry_ok w → freeze_price asset reason c w = Ok a w1 →
  ∃ aggregate, persistent w (KeyAggregate asset) = Some aggregate ∧
    check_not_frozen asset c' w1 = Err (Error PriceFrozen) ∧
    is_price_frozen asset c' w1 = Ok true w1 ∧
    get_frozen_price asset c' w1 =
      Ok (Some (MkFrozenPrice (ap_price aggregate) (ap_timestamp aggregate) (ap_decimals aggregate)
                 reason (sequence c))) w1 ∧
    ∀ b w2, unfreeze_price asset c' w1 = Ok b w2 →
      check_not_frozen asset c' w2 = Ok tt w2 ∧ get_frozen_price asset c' w2 = Ok None w2.
Proof.
  intros Hok E.
  destruct (freeze_inv _ _ _ _ _ _ Hok E) as (aggregate & Ha & _ & Hon & Hfz).
  exists aggregate. split; [done|].
  unfold check_not_frozen, is_price_frozen, get_frozen_price.
  rewrite !run_bind, !run_flag_on, Hon. cbn [negb]. unfold has. rewrite run_bind, run_get, Hfz.
  split_and!; [done|done|done|]. intros b w2 E2. unfold unfreeze_price in E2.
  apply bind_Ok in E2 as (admin & w3 & Hau & E2). apply auth_admin_Ok in Hau as (-> & _ & _).
  unfold has in E2. ok_inv. rewrite !run_bind, !run_flag_on.
  destruct (Flags.is_on _ _); [|done]. cbn [negb]. rewrite run_bind, run_get. unfold has.
  rewrite run_panic_if. by read_store.
Qed.

(** A registered asset with an aggregate price. *)
Definition priced_world : World :=
  put_persistent (KeyAggregate 30%N)
    (Some (MkAggregatePrice 5 6 3 7 false 0 : interp (ty_of (KeyAggregate 30%N)))) registered_world.

Lemma priced_world_ok : registry_ok priced_world.
Proof.
  apply (registry_ok_reads registered_world).
  - intros k Hk. apply persistent_put_ne. by intros <-.
  - apply (@registry_reachable_inv OverflowChecks toy_crypto), registered_world_reachable.
Qed.

Lemma freeze_unfreeze_witness :
  let w1 := invoke (freeze_price 30%N "halt") toy_ctx priced_world in
  check_not_frozen 30%N toy_ctx w1 = Err (Error PriceFrozen).
Proof.
  intros w1. assert (freeze_price 30%N "halt" toy_ctx priced_world = Ok tt w1) as E
    by (apply run_succeeds; vm_compute; reflexivity).
  destruct (freeze_unfreeze 30%N "halt" toy_ctx toy_ctx priced_world tt w1 priced_world_ok E)
    as (aggregate & _ & Hc & _). exact Hc.
Defined.

Lemma disable_inv `{BuildProfile} `{Crypto} asset c w a w' :
  registry_ok w → disable_asset asset c w = Ok a w' →
  Flags.is_on w' Flags.ASSET_DISABLED = true ∧ registry_ok w' ∧
  persistent w' (KeyAssetDisabled asset) = Some true ∧
  persistent w' (KeyAssetDisabledAt asset) = Some (sequence c).
Proof.
  intros Hok E. unfold disable_asset in E.
  apply bind_Ok in E as (admin & w3 & Hau & E). apply auth_admin_Ok in Hau as (-> & _ & _).
  rewrite run_bind, run_check_registered in E by done. case_bool_decide; [|done].
  rewrite run_bind, run_mark, run_bind, run_set, run_bind, run_sequence, run_bind, run_set in E.
  split_and!.
  - rewrite (is_on_ext _ _ _ (emit_flags _ _ _ _ _ _ _ E)).
    change (Flags.is_on (put_persistent _ _ (put_persistent _ _ ?x)) ?b) with (Flags.is_on x b).
    by apply is_on_mark_same.
  - eapply registry_emit; [|exact E]. apply (registry_ok_reads (indexed asset w)).
    + intros k Hk. rewrite !persistent_put_ne by (by intros <-). by rewrite persistent_marked.
    + by apply indexed_ok.
  - rewrite (emit_frame _ _ _ _ _ _ _ _ E) by (by intros []). by read_store.
  - rewrite (emit_frame _ _ _ _ _ _ _ _ E) by (by intros []). by read_store.
Qed.

Lemma enable_inv `{BuildProfile} `{Crypto} asset c w a w' :
  registry_ok w → enable_asset asset c w = Ok a w' →
  persistent w' (KeyAssetDisabled asset) = None ∧
  persistent w' (KeyAssetDisabledAt asset) = persistent w (KeyAssetDisabledAt asset).
Proof.
  intros Hok E. unfold enable_asset in E.
  apply bind_Ok in E as (admin & w3 & Hau & E). apply auth_admin_Ok in Hau as (-> & _ & _).
  rewrite run_bind, run_check_registered in E by done. case_bool_decide; [|done].
  rewrite run_bind, run_remove in E.
  rewrite !(emit_frame _ _ _ _ _ _ _ _ E) by (by intros []). read_store. by rewrite indexed_frame.
Qed.

Lemma run_is_asset_disabled asset c w :
  is_asset_disabled asset c w =
    Ok (Flags.is_on w Flags.ASSET_DISABLED && default false (persistent w (KeyAssetDisabled asset))) w.
Proof.
  unfold is_asset_disabled. rewrite run_bind, run_flag_on.
  destruct (Flags.is_on w Flags.ASSET_DISABLED); [|done]. cbn [negb andb].
  rewrite run_bind, run_get_or, run_bind.
  destruct (persistent w (KeyAssetDisabled asset)) as [[|]|] eqn:E; [|done|done].
  cbn [from_option id]. by rewrite (run_extend_ttl (KeyAssetDisabled asset) true).
Qed.

(** Disabling and enabling: [disable_asset] makes the asset disabled and
    [enable_asset] enables it, but the ledger of the disabling is never
    cleared, so [get_asset_disabled_at] keeps answering for an enabled asset
    where its documentation says [0]. *)
Theorem enable_keeps_disabled_at `{BuildProfile} `{Crypto} asset c c' w w1 w2 :
  registry_ok w → 0 < sequence c →
  disable_asset asset c w = Ok tt w1 → enable_asset asset c' w1 = Ok tt w2 →
  is_asset_disabled asset c w1 = Ok true w1 ∧
  is_asset_disabled asset c' w2 = Ok false w2 ∧
  get_asset_disabled_at asset c' w2 = Ok (sequence c) w2.
Proof.
  intros Hok Hs E1 E2. destruct (disable_inv _ _ _ _ _ Hok E1) as (Hon & Hok1 & Hd & Hat).
  destruct (enable_inv _ _ _ _ _ Hok1 E2) as [Hd2 Hat2].
  rewrite !run_is_asset_disabled, Hon, Hd, Hd2, andb_false_r. split_and!; [done|done|].
  unfold get_asset_disabled_at. rewrite run_bind, run_get_or, run_bind, Hat2, Hat.
  cbn [from_option id]. rewrite (proj2 (Z.ltb_lt _ _) Hs).
  by rewrite (run_extend_ttl (KeyAssetDisabledAt asset) (sequence c)) by (by rewrite Hat2, Hat).
Qed.

Lemma enable_keeps_disabled_at_witness :
  let w1 := invoke (@disable_asset OverflowChecks toy_crypto 30%N) toy_ctx registered_world in
  let w2 := invoke (@enable_asset OverflowChecks toy_crypto 30%N) toy_ctx w1 in
  get_asset_disabled_at 30%N toy_ctx w2 = Ok (sequence toy_ctx) w2.
Proof.
  intros w1 w2.
  assert (@disable_asset OverflowChecks toy_crypto 30%N toy_ctx registered_world = Ok tt w1) as E1
    by (apply run_succeeds; vm_compute; reflexivity).
  assert (@enable_asset OverflowChecks toy_crypto 30%N toy_ctx w1 = Ok tt w2) as E2
    by (apply run_succeeds; vm_compute; reflexivity).
  assert (registry_ok registered_world) as Hok
    by apply (@registry_reachable_inv OverflowChecks toy_crypto), registered_world_reachable.
  exact (proj2 (proj2 (@enable_keeps_disabled_at OverflowChecks toy_crypto 30%N toy_ctx toy_ctx
    registered_world w1 w2 Hok eq_refl E1 E2))).
Defined.
