(* ===== verification/History.v ===== *)
(** * [history.rs]: price history, shards, compaction and storage budgets

    An entry of the price history is kept twice: under its own ledger in
    temporary storage, and in a persistent shard, the bucket of its block of
    [LEDGERS_PER_BUCKET] ledgers; a persistent list of ledgers is the index.
    The shards are shown to implement a finite map from ledgers to entries
    (writing, removing and pruning included), reads are shown to interpolate
    between the neighbouring prices, and pages and compaction to respect the
    index. *)
From stdpp Require Import base list sets strings.
From S2P Require Import Prelude Machine Types Host AuditLog Config Admin Assets.
#[local] Open Scope Z_scope.
#[local] Set Default Goal Selector "!".

Definition LEDGERS_PER_BUCKET : Z := 256.

Definition ledger_to_bucket (ledger : Z) : Z := ledger / LEDGERS_PER_BUCKET.

(** The first entry of a bucket for a ledger. *)
Fixpoint find_entry (ledger : Z) (bucket : list PriceHistoryEntry) : option PriceHistoryEntry :=
  match bucket with
  | [] => None
  | entry :: bucket => if he_ledger entry =? ledger then Some entry else find_entry ledger bucket
  end.

Definition read_history_entry (asset : Address) (ledger : Z) : M (option PriceHistoryEntry) :=
  let key := KeyPriceHistory asset ledger in
  entry ← get_temporary key;
  match entry with
  | Some entry => extend_ttl_temporary key;; mret (Some (entry : PriceHistoryEntry))
  | None =>
      let bucket_key := KeyHistoryBucket asset (ledger_to_bucket ledger) in
      bucket ← get bucket_key;
      match bucket with
      | None => mret None
      | Some bucket =>
          match find_entry ledger bucket with
          | Some entry => extend_ttl bucket_key;; mret (Some entry)
          | None => mret None
          end
      end
  end.

(** ** Shards *)

Definition update_bucket_index (asset : Address) (bucket_idx : Z) : M unit :=
  let idx_key := KeyHistoryBucketIndex asset in
  index ← get_or idx_key [];
  if bool_decide (bucket_idx ∈ (index : list Z)) then mret tt
  else set idx_key ((index : list Z) ++ [bucket_idx]);; extend_ttl idx_key.

Definition remove_bucket_index (asset : Address) (bucket_idx : Z) : M unit :=
  let idx_key := KeyHistoryBucketIndex asset in
  index ← get_or idx_key [];
  let retained := filter (λ value, value ≠ bucket_idx) (index : list Z) in
  match retained with [] => remove idx_key | _ => set idx_key retained end.

(** The bucket with the first entry of the same ledger replaced, if any. *)
Fixpoint replace_entry (entry : PriceHistoryEntry) (bucket : list PriceHistoryEntry)
    : option (list PriceHistoryEntry) :=
  match bucket with
  | [] => None
  | e :: bucket =>
      if he_ledger e =? he_ledger entry then Some (entry :: bucket)
      else updated ← replace_entry entry bucket; Some (e :: updated)
  end.

Definition write_history_shard (asset : Address) (entry : PriceHistoryEntry) : M unit :=
  let bucket_idx := ledger_to_bucket (he_ledger entry) in
  let bucket_key := KeyHistoryBucket asset bucket_idx in
  bucket ← get_or bucket_key [];
  match replace_entry entry bucket with
  | Some updated =>
      set bucket_key updated;; extend_ttl bucket_key;; update_bucket_index asset bucket_idx
  | None =>
      set bucket_key ((bucket : list PriceHistoryEntry) ++ [entry]);;
      extend_ttl bucket_key;;
      update_bucket_index asset bucket_idx
  end.

Definition remove_history_shard_entry (asset : Address) (ledger : Z) : M unit :=
  let bucket_idx := ledger_to_bucket ledger in
  let bucket_key := KeyHistoryBucket asset bucket_idx in
  bucket ← get bucket_key;
  match bucket with
  | None => mret tt
  | Some bucket =>
      let retained := filter (λ entry, he_ledger entry ≠ ledger) (bucket : list PriceHistoryEntry) in
      match retained with
      | [] => remove bucket_key;; remove_bucket_index asset bucket_idx
      | _ => set bucket_key retained;; extend_ttl bucket_key
      end
  end.

Definition prune_old_buckets (asset : Address) (min_bucket_idx : Z) : M unit :=
  let idx_key := KeyHistoryBucketIndex asset in
  index ← get_or idx_key [];
  match (index : list Z) with
  | [] => mret tt
  | _ =>
      retained ← fold_m (λ (retained : list Z) b,
        if b <? min_bucket_idx then remove (KeyHistoryBucket asset b);; mret retained
        else mret (retained ++ [b])) [] (index : list Z);
      set idx_key retained;;
      match retained with [] => mret tt | _ => extend_ttl idx_key end
  end.

(** ** Queries *)

Section History.
Context `{BP : BuildProfile}.

(** The interpolated entry between two neighbours. *)
Definition interpolate (b a : PriceHistoryEntry) (ledger : Z) : M PriceHistoryEntry :=
  range ← lift (u32 (he_ledger a - he_ledger b));
  offset ← lift (u32 (ledger - he_ledger b));
  diff ← lift (i128 (he_price a - he_price b));
  scaled ← lift (i128 (diff * offset));
  step ← lift (div_i128 scaled range);
  interpolated_price ← lift (i128 (he_price b + step));
  scaled_ts ← lift (i128 (sat_u64 (he_timestamp a - he_timestamp b) * offset));
  step_ts ← lift (div_i128 scaled_ts range);
  interpolated_ts ← lift (u64 (he_timestamp b + as_u64 step_ts));
  mret (MkPriceHistoryEntry interpolated_price interpolated_ts ledger 0 true).

(** The walk over the index for the neighbours of a ledger. *)
Definition neighbours (asset : Address) (ledger : Z) (ledger_list : list Z)
    : M (option PriceHistoryEntry * option PriceHistoryEntry) :=
  fold_m (λ acc l,
    if l <=? ledger then
      e ← read_history_entry asset l;
      mret (match e with Some entry => (Some entry, snd acc) | None => acc end)
    else match snd acc with
         | None =>
             e ← read_history_entry asset l;
             mret (match e with Some entry => (fst acc, Some entry) | None => acc end)
         | Some _ => mret acc
         end) (None, None) ledger_list.

Definition get_historical_price (asset : Address) (ledger : Z) : M PriceHistoryEntry :=
  check_registered_asset asset;;
  let key := KeyPriceHistory asset ledger in
  exact_ ← has_temporary key;
  if exact_ : bool then
    extend_ttl_temporary key;; e ← get_temporary key; lift e
  else
    bucket ← get (KeyHistoryBucket asset (ledger_to_bucket ledger));
    match bucket ≫= find_entry ledger with
    | Some e => mret e
    | None =>
        enabled ← get_interpolation_enabled;
        panic_if (negb enabled) NoData;;
        ledger_list ← get_or (KeyPriceHistoryLedgers asset) [];
        ba ← neighbours asset ledger ledger_list;
        match ba with
        | (Some b, Some a) => interpolate b a ledger
        | _ => panic_with_error NoData
        end
    end.

Definition has_historical_price (asset : Address) (ledger : Z) : M bool :=
  registered ← has (KeyAssetRegistered asset);
  if negb registered then mret false
  else
    let key := KeyPriceHistory asset ledger in
    exact_ ← has_temporary key;
    if exact_ : bool then extend_ttl_temporary key;; mret true
    else
      bucket ← get (KeyHistoryBucket asset (ledger_to_bucket ledger));
      match bucket ≫= find_entry ledger with Some _ => mret true | None => mret false end.

(** [loop { ...; if ledger == end_ledger { break; } ledger += 1; }] with [n] ledgers after this one *)
Fixpoint range_loop (n : nat) (asset : Address) (ledger : Z) : M (list PriceHistoryEntry) :=
  e ← read_history_entry asset ledger;
  rest ← match n with O => mret [] | S n => range_loop n asset (ledger + 1) end;
  mret (match e with Some entry => entry :: rest | None => rest end).

Definition get_historical_prices (asset : Address) (start_ledger end_ledger : Z)
    : M (list PriceHistoryEntry) :=
  check_registered_asset asset;;
  max_range ← get_max_history_length;
  panic_if (end_ledger <? start_ledger) NoData;;
  let ledger_span := end_ledger - start_ledger in
  panic_if (max_range <? ledger_span) NoData;;
  panic_if (MAX_PAGE_SIZE <=? ledger_span) RecordsLimitExceeded;;
  range_loop (Z.to_nat ledger_span) asset start_ledger.

(** The page loop over the index; [n] entries are still wanted. *)
Fixpoint history_page (asset : Address) (cursor : Z) (n : nat) (ledger_list : list Z)
    : M (list PriceHistoryEntry * option Z) :=
  match ledger_list with
  | [] => mret ([], None)
  | l :: ledger_list =>
      if l <? cursor then history_page asset cursor n ledger_list
      else
        e ← read_history_entry asset l;
        match e with
        | None => history_page asset cursor n ledger_list
        | Some entry =>
            match n with
            | O => mret ([], Some l)
            | S n =>
                r ← history_page asset cursor n ledger_list;
                mret (entry :: fst r, snd r)
            end
        end
  end.

Definition get_historical_prices_paginated (asset : Address) (cursor limit : Z)
    : M (list PriceHistoryEntry * option Z) :=
  check_registered_asset asset;;
  panic_if ((limit =? 0) || (MAX_PAGE_SIZE <? limit)) InvalidPageSize;;
  ledger_list ← get_or (KeyPriceHistoryLedgers asset) [];
  history_page asset cursor (Z.to_nat limit) ledger_list.

(** ** Compaction *)

Definition DEFAULT_COMPACTION_THRESHOLD_BPS : Z := 0.

Definition get_compaction_threshold_bps : M Z :=
  b ← Flags.on Flags.COMPACTION_THRESHOLD;
  if negb b then mret DEFAULT_COMPACTION_THRESHOLD_BPS
  else get_or KeyCfgCompactionThresholdBps DEFAULT_COMPACTION_THRESHOLD_BPS.

Definition set_compaction_threshold_bps (threshold_bps : Z) : M unit :=
  Flags.mark Flags.COMPACTION_THRESHOLD;;
  set KeyCfgCompactionThresholdBps threshold_bps;;
  extend_ttl KeyCfgCompactionThresholdBps.

Definition within_threshold (reference_price candidate_price threshold_bps : Z) : option bool :=
  if (threshold_bps =? 0) || (reference_price =? 0) then Some false
  else
    diff ← (if reference_price <? candidate_price
            then i128 (candidate_price - reference_price)
            else i128 (reference_price - candidate_price));
    reference ← i128 (Z.abs reference_price);
    let lhs := sat_i128 (diff * 10000) in
    let rhs := sat_i128 (threshold_bps * reference) in
    Some (lhs <=? rhs).

Definition should_skip_on_write (asset : Address) (candidate_price : Z) : M bool :=
  threshold_bps ← get_compaction_threshold_bps;
  if threshold_bps =? 0 then mret false
  else
    ledger_list ← get_or (KeyPriceHistoryLedgers asset) [];
    match last (ledger_list : list Z) with
    | None => mret false
    | Some last_ledger =>
        now ← ledger_sequence;
        if last_ledger =? now then mret false
        else
          e ← read_history_entry asset last_ledger;
          match e with
          | Some last_entry =>
              lift (within_threshold (he_price last_entry) candidate_price threshold_bps)
          | None => mret false
          end
    end.

(** One entry of the middle of the index. *)
Definition compact_step (asset : Address) (threshold_bps : Z) (acc : list Z * Z) (l : Z)
    : M (list Z * Z) :=
  e ← read_history_entry asset l;
  match e with
  | None => mret acc
  | Some entry =>
      merge ← lift (within_threshold (snd acc) (he_price entry) threshold_bps);
      if merge : bool then
        remove_temporary (KeyPriceHistory asset l);;
        remove_history_shard_entry asset l;;
        mret acc
      else mret (fst acc ++ [l], he_price entry)
  end.

Definition compact_history (asset : Address) : M CompactionMetadata :=
  check_registered_asset asset;;
  threshold_bps ← get_compaction_threshold_bps;
  ledger_list ← get_or (KeyPriceHistoryLedgers asset) [];
  let original_count := Z.of_nat (length (ledger_list : list Z)) in
  now ← ledger_sequence;
  match (ledger_list : list Z) with
  | first_ledger :: rest =>
      if (original_count <=? 1) || (threshold_bps =? 0) then
        let meta := MkCompactionMetadata original_count original_count now threshold_bps in
        set (KeyCompactionMeta asset) meta;; mret meta
      else
        first ← read_history_entry asset first_ledger;
        let first_price := match first with Some e => he_price e | None => 0 end in
        acc ← fold_m (compact_step asset threshold_bps) ([first_ledger], first_price)
                (take (length rest - 1) rest);
        last_ledger ← lift (last rest);
        let retained := if bool_decide (last (fst acc) = Some last_ledger) then fst acc
                        else fst acc ++ [last_ledger] in
        set (KeyPriceHistoryLedgers asset) retained;;
        extend_ttl (KeyPriceHistoryLedgers asset);;
        let meta := MkCompactionMetadata original_count (Z.of_nat (length retained)) now
                      threshold_bps in
        set (KeyCompactionMeta asset) meta;;
        extend_ttl (KeyCompactionMeta asset);;
        mret meta
  | [] =>
      let meta := MkCompactionMetadata 0 0 now threshold_bps in
      set (KeyCompactionMeta asset) meta;; mret meta
  end.

Definition get_compaction_metadata (asset : Address) : M (option CompactionMetadata) :=
  get (KeyCompactionMeta asset).

(** ** Migration and bucket queries *)

Definition migrate_history_to_shards (asset : Address) : M Z :=
  check_registered_asset asset;;
  ledger_list ← get_or (KeyPriceHistoryLedgers asset) [];
  fold_m (λ (migrated : Z) l,
    e ← get_temporary (KeyPriceHistory asset l);
    match e with
    | Some entry => write_history_shard asset entry;; lift (u32 (migrated + 1))
    | None => mret migrated
    end) 0 (ledger_list : list Z).

Definition get_bucket_entries (asset : Address) (ledger : Z) : M (list PriceHistoryEntry) :=
  check_registered_asset asset;;
  get_or (KeyHistoryBucket asset (ledger_to_bucket ledger)) [].

(** ** Storage budgets *)

Definition BYTES_PER_HISTORY_ENTRY : Z := 96.
Definition STROOP_PER_KB_PER_MONTH : Z := 4000.

Definition get_storage_budget (asset : Address) : M StorageBudget :=
  check_registered_asset asset;;
  ledger_list ← get (KeyPriceHistoryLedgers asset);
  let entry_count := match ledger_list with
                     | Some v => Z.of_nat (length (v : list Z)) | None => 0 end in
  let estimated_bytes := sat_u32 (entry_count * BYTES_PER_HISTORY_ENTRY) in
  let estimated_kb := Z.quot (sat_i128 (estimated_bytes + 1023)) 1024 in
  let estimated_ttl_costs := sat_i128 (estimated_kb * STROOP_PER_KB_PER_MONTH) in
  let projected_monthly_cost :=
    sat_i128 (estimated_ttl_costs + Z.quot estimated_ttl_costs 5) in
  mret (MkStorageBudget asset entry_count estimated_ttl_costs projected_monthly_cost
          estimated_bytes).

Definition add_budget (t : TotalStorageBudget) (b : StorageBudget) : TotalStorageBudget :=
  MkTotalStorageBudget (tsb_asset_count t)
    (sat_u32 (tsb_total_entry_count t + sb_entry_count b))
    (sat_i128 (tsb_total_estimated_ttl_costs t + sb_estimated_ttl_costs b))
    (sat_i128 (tsb_total_projected_monthly_cost t + sb_projected_monthly_cost b))
    (sat_u32 (tsb_total_estimated_bytes t + sb_estimated_bytes b)).

Definition get_total_storage_budget : M TotalStorageBudget :=
  assets ← read_registered_assets;
  fold_m (λ total asset,
    registered ← get_or (KeyAssetRegistryIndex asset) false;
    legacy ← (if registered : bool then mret true
              else get_or (KeyAssetRegistered asset) false);
    if negb legacy then mret total
    else b ← get_storage_budget asset; mret (add_budget total b))
    (MkTotalStorageBudget (Z.of_nat (length assets)) 0 0 0 0) assets.
End History.

(** [admin.rs]: the guarded setter *)
Definition admin_set_compaction_threshold_bps `{BuildProfile} `{Crypto} (threshold_bps : Z) : M unit :=
  admin ← auth_admin;
  set_compaction_threshold_bps threshold_bps;;
  emit_admin_action "set_comp" admin [].

(** ** The shards as a map *)

Definition bucket_of (w : World) (asset : Address) (b : Z) : option (list PriceHistoryEntry) :=
  persistent w (KeyHistoryBucket asset b).

Definition bucket_index (w : World) (asset : Address) : list Z :=
  default [] (persistent w (KeyHistoryBucketIndex asset)).

(** What the shards hold for a ledger. *)
Definition shard (w : World) (asset : Address) (ledger : Z) : option PriceHistoryEntry :=
  bucket_of w asset (ledger_to_bucket ledger) ≫= find_entry ledger.

(** Buckets hold entries of their own ledgers, at most one per ledger, and
    are listed in the index exactly while they exist. *)
Definition bucket_ok (b : Z) (bucket : list PriceHistoryEntry) : Prop :=
  Forall (λ e, ledger_to_bucket (he_ledger e) = b) bucket ∧ NoDup (map he_ledger bucket).

Definition shards_ok (w : World) : Prop :=
  ∀ asset, NoDup (bucket_index w asset) ∧
    (∀ b, b ∈ bucket_index w asset ↔ is_Some (bucket_of w asset b)) ∧
    (∀ b bucket, bucket_of w asset b = Some bucket → bucket_ok b bucket).

Lemma run_read_history_entry asset ledger c w :
  read_history_entry asset ledger c w =
    Ok (match temporary w (KeyPriceHistory asset ledger) with
        | Some e => Some (e : PriceHistoryEntry)
        | None => shard w asset ledger
        end) w.
Proof.
  unfold read_history_entry, shard, bucket_of. rewrite run_bind. unfold get_temporary.
  destruct (temporary w (KeyPriceHistory asset ledger)) as [e|] eqn:Et.
  - rewrite run_bind. unfold extend_ttl_temporary. by rewrite Et.
  - rewrite run_bind, run_get.
    destruct (persistent w (KeyHistoryBucket asset (ledger_to_bucket ledger))) as [bucket|] eqn:Eb; [|done].
    cbn [mbind option_bind]. destruct (find_entry ledger bucket); [|done].
    by rewrite run_bind, (run_extend_ttl _ _ _ _ Eb).
Qed.

Lemma find_entry_Some l bucket e : find_entry l bucket = Some e → e ∈ bucket ∧ he_ledger e = l.
Proof.
  induction bucket as [|x bucket IH]; [done|]. cbn [find_entry]. destruct (Z.eqb_spec (he_ledger x) l) as [E|].
  - intros [= ->]. split; [left|done].
  - intros H. destruct (IH H). split; [by right|done].
Qed.

Lemma find_entry_None l bucket : find_entry l bucket = None ↔ l ∉ map he_ledger bucket.
Proof.
  induction bucket as [|x bucket IH]; cbn [find_entry map].
  - split; [by intros _ ?%not_elem_of_nil|done].
  - rewrite not_elem_of_cons. destruct (Z.eqb_spec (he_ledger x) l) as [E|E].
    + split; [done|]. intros [Hne _]. congruence.
    + rewrite IH. split; [|by intros []]. intros Hn. split; [congruence|done].
Qed.

Lemma find_entry_replace e bucket updated l :
  replace_entry e bucket = Some updated →
  find_entry l updated = if l =? he_ledger e then Some e else find_entry l bucket.
Proof.
  revert updated. induction bucket as [|x bucket IH]; intros updated; [done|]. cbn [replace_entry].
  destruct (Z.eqb_spec (he_ledger x) (he_ledger e)) as [E|E].
  - intros [= <-]. cbn [find_entry]. rewrite E, (Z.eqb_sym (he_ledger e)). by destruct (l =? he_ledger e).
  - destruct (replace_entry e bucket) as [u|]; [|done]. intros [= <-]. cbn [find_entry].
    rewrite (IH u) by done. destruct (Z.eqb_spec (he_ledger x) l) as [<-|]; [|done].
    by rewrite (proj2 (Z.eqb_neq _ _) E).
Qed.

Lemma replace_entry_ledgers e bucket updated :
  replace_entry e bucket = Some updated → map he_ledger updated = map he_ledger bucket.
Proof.
  revert updated. induction bucket as [|x bucket IH]; intros updated; [done|]. cbn [replace_entry].
  destruct (Z.eqb_spec (he_ledger x) (he_ledger e)) as [E|E].
  - intros [= <-]. simpl. by rewrite E.
  - destruct (replace_entry e bucket) as [u|]; [|done]. intros [= <-]. simpl. by rewrite (IH u).
Qed.

Lemma replace_entry_None e bucket : replace_entry e bucket = None → he_ledger e ∉ map he_ledger bucket.
Proof.
  induction bucket as [|x bucket IH]; cbn [replace_entry map]; [by intros _ ?%not_elem_of_nil|].
  destruct (Z.eqb_spec (he_ledger x) (he_ledger e)) as [E|E]; [done|].
  destruct (replace_entry e bucket); [done|]. intros _. apply not_elem_of_cons. split; [congruence|auto].
Qed.

Lemma find_entry_snoc e bucket l :
  he_ledger e ∉ map he_ledger bucket →
  find_entry l (bucket ++ [e]) = if l =? he_ledger e then Some e else find_entry l bucket.
Proof.
  induction bucket as [|x bucket IH]; simpl; intros Hn.
  - by rewrite (Z.eqb_sym l).
  - apply not_elem_of_cons in Hn as [Hx Hn]. rewrite IH by done.
    destruct (Z.eqb_spec (he_ledger x) l) as [<-|]; [|done].
    by rewrite (proj2 (Z.eqb_neq _ _) (not_eq_sym Hx)).
Qed.

Lemma find_entry_filter k bucket l :
  find_entry l (filter (λ e, he_ledger e ≠ k) bucket) = if l =? k then None else find_entry l bucket.
Proof.
  induction bucket as [|x bucket IH]; [by destruct (l =? k)|]. rewrite filter_cons.
  destruct (decide (he_ledger x ≠ k)) as [Hx|Hx]; cbn [find_entry]; rewrite IH.
  - destruct (Z.eqb_spec (he_ledger x) l) as [<-|]; [|done]. by rewrite (proj2 (Z.eqb_neq _ _) Hx).
  - apply dec_stable in Hx. subst k. destruct (Z.eqb_spec l (he_ledger x)) as [_|Hl]; [done|].
    by rewrite (proj2 (Z.eqb_neq _ _) (not_eq_sym Hl)).
Qed.

Lemma bucket_ok_snoc b bucket e :
  bucket_ok b bucket → ledger_to_bucket (he_ledger e) = b → he_ledger e ∉ map he_ledger bucket →
  bucket_ok b (bucket ++ [e]).
Proof.
  intros [Hf Hn] Hb Hne. split.
  - apply Forall_app. split; [done|]. by apply Forall_singleton.
  - rewrite map_app. apply NoDup_app. split_and!; [done| |apply NoDup_singleton]. set_solver.
Qed.

Lemma bucket_ok_replace b bucket e updated :
  bucket_ok b bucket → replace_entry e bucket = Some updated → bucket_ok b updated.
Proof.
  intros [Hf Hn] Hr. pose proof (replace_entry_ledgers _ _ _ Hr) as E. split; [|by rewrite E].
  rewrite Forall_forall in *. intros x Hx. 
  assert (he_ledger x ∈ map he_ledger bucket) as (y & -> & Hy)%list_elem_of_fmap; [|auto].
  rewrite <- E. by apply list_elem_of_fmap_2.
Qed.

Lemma bucket_ok_filter b bucket k :
  bucket_ok b bucket → bucket_ok b (filter (λ e, he_ledger e ≠ k) bucket).
Proof.
  intros [Hf Hn]. split.
  - rewrite Forall_forall in *. intros e [_ He]%list_elem_of_filter. auto.
  - clear Hf. induction bucket as [|x bucket IH]; [done|]. simpl in Hn. apply NoDup_cons in Hn as [Hx Hn].
    rewrite filter_cons. destruct (decide _); [|auto]. simpl. apply NoDup_cons. split; [|auto].
    intros (e & E & [_ He]%list_elem_of_filter)%list_elem_of_fmap. apply Hx. rewrite E.
    by apply list_elem_of_fmap_2.
Qed.

(** *** The operations on the map *)

Lemma run_update_bucket_index asset b c w :
  ∃ w', update_bucket_index asset b c w = Ok tt w' ∧
    (∀ k, k ≠ KeyHistoryBucketIndex asset → persistent w' k = persistent w k) ∧
    temporary w' = temporary w ∧
    bucket_index w' asset =
      if bool_decide (b ∈ bucket_index w asset) then bucket_index w asset
      else bucket_index w asset ++ [b].
Proof.
  unfold update_bucket_index. rewrite run_bind, run_get_or.
  change (default [] (persistent w (KeyHistoryBucketIndex asset))) with (bucket_index w asset).
  destruct (bool_decide (b ∈ bucket_index w asset)) eqn:Hb.
  - exists w. done.
  - rewrite run_bind, run_set, (run_extend_put (KeyHistoryBucketIndex asset)).
    eexists. split; [done|]. split_and!; [|done|].
    + intros k Hk. by apply persistent_put_ne.
    + unfold bucket_index at 1. by rewrite persistent_put_eq.
Qed.

(** One bucket replaced and its index entry ensured. *)
Lemma shards_ok_write asset e bucket' w w' :
  let b := ledger_to_bucket (he_ledger e) in
  shards_ok w → bucket_ok b bucket' →
  (∀ a b', bucket_of w' a b' =
     if bool_decide (a = asset ∧ b' = b) then Some bucket' else bucket_of w a b') →
  (∀ a, a ≠ asset → bucket_index w' a = bucket_index w a) →
  bucket_index w' asset =
    (if bool_decide (b ∈ bucket_index w asset) then bucket_index w asset
     else bucket_index w asset ++ [b]) →
  shards_ok w'.
Proof.
  intros b Hok Hb' Hbk Hidx Hida a. destruct (Hok a) as (Hn & Hin & Hbo).
  destruct (decide (a = asset)) as [->|Hne].
  - rewrite Hida. clear Hida. split_and!.
    + case_bool_decide; [done|]. apply NoDup_app. split_and!; [done| |apply NoDup_singleton]. set_solver.
    + intros b'. rewrite Hbk. case_bool_decide as H1; case_bool_decide as H2.
      * destruct H2 as [_ ->]. split; [done|done].
      * apply Hin.
      * destruct H2 as [_ ->]. split; [done|set_solver].
      * rewrite elem_of_app, list_elem_of_singleton, Hin. split; [|by left].
        intros [?| ->]; [done|]. by destruct H2.
    + intros b' bucket. rewrite Hbk. case_bool_decide as H2; [|apply Hbo].
      destruct H2 as [_ ->]. by intros [= <-].
  - rewrite (Hidx a) by done. split_and!; [done| |].
    + intros b'. rewrite Hbk, bool_decide_false by (by intros []). apply Hin.
    + intros b' bucket. rewrite Hbk, bool_decide_false by (by intros []). apply Hbo.
Qed.

Lemma lookup_bucket_put asset b v w a b' :
  bucket_of (put_persistent (KeyHistoryBucket asset b) v w) a b' =
    if bool_decide (a = asset ∧ b' = b) then v else bucket_of w a b'.
Proof.
  unfold bucket_of. case_bool_decide as H.
  - destruct H as [-> ->]. by rewrite persistent_put_eq.
  - rewrite persistent_put_ne; [done|]. intros [= -> ->]. by apply H.
Qed.

Lemma run_write_shard asset e c w :
  shards_ok w →
  ∃ w', write_history_shard asset e c w = Ok tt w' ∧ shards_ok w' ∧ temporary w' = temporary w ∧
    ∀ a l, shard w' a l = if bool_decide (a = asset ∧ l = he_ledger e) then Some e else shard w a l.
Proof.
  intros Hok. unfold write_history_shard. rewrite run_bind, run_get_or.
  set (b := ledger_to_bucket (he_ledger e)).
  change (default [] (persistent w (KeyHistoryBucket asset b))) with (default [] (bucket_of w asset b)).
  set (bucket := default [] (bucket_of w asset b)).
  assert (bucket_ok b bucket) as Hbk.
  { subst bucket. destruct (bucket_of w asset b) as [l|] eqn:E; [by apply (Hok asset)|].
    split; [constructor|constructor]. }
  assert (∃ bucket', (∀ l, find_entry l bucket' = if l =? he_ledger e then Some e else find_entry l bucket) ∧
    bucket_ok b bucket' ∧
    match replace_entry e bucket with Some u => bucket' = u | None => bucket' = bucket ++ [e] end)
    as (bucket' & Hfind & Hbk' & Hcase).
  { destruct (replace_entry e bucket) as [u|] eqn:Er.
    - exists u. split_and!; [|by eapply bucket_ok_replace|done]. intros l. by apply find_entry_replace.
    - apply replace_entry_None in Er. exists (bucket ++ [e]).
      split_and!; [|by apply bucket_ok_snoc|done]. intros l. by apply find_entry_snoc. }
  set (w1 := put_persistent (KeyHistoryBucket asset b)
    (Some (bucket' : interp (ty_of (KeyHistoryBucket asset b)))) w).
  destruct (run_update_bucket_index asset b c w1) as (w' & E & Hfr & Htmp & Hidx).
  exists w'. assert (∀ a b', bucket_of w' a b' =
    if bool_decide (a = asset ∧ b' = b) then Some bucket' else bucket_of w a b') as Hbuckets.
  { intros a b'. unfold bucket_of at 1. rewrite Hfr by done. apply lookup_bucket_put. }
  split_and!.
  - destruct (replace_entry e bucket); rewrite <- Hcase;
      rewrite run_bind, run_set, run_bind, (run_extend_put (KeyHistoryBucket asset b)); exact E.
  - assert (∀ a, bucket_index w1 a = bucket_index w a) as Hw1
      by (intros a; unfold bucket_index, w1; by rewrite persistent_put_ne).
    apply (shards_ok_write asset e bucket' w); [done|done|done| |by rewrite Hidx, Hw1].
    intros a Ha. rewrite <- Hw1. unfold bucket_index. by rewrite Hfr by congruence.
  - done.
  - clear Hidx. intros a l. unfold shard. rewrite Hbuckets. case_bool_decide as H1.
    + destruct H1 as [-> Hl]. cbn [mbind option_bind]. rewrite Hfind, Hl.
      destruct (Z.eqb_spec l (he_ledger e)) as [->|Hne]; [by rewrite bool_decide_true|].
      rewrite bool_decide_false by (by intros []). subst bucket.
      by destruct (bucket_of w asset b).
    + rewrite bool_decide_false; [done|]. intros [-> ->]. by apply H1.
Qed.

Lemma run_remove_bucket_index asset b c w :
  ∃ w', remove_bucket_index asset b c w = Ok tt w' ∧
    (∀ k, k ≠ KeyHistoryBucketIndex asset → persistent w' k = persistent w k) ∧
    temporary w' = temporary w ∧
    bucket_index w' asset = filter (λ x, x ≠ b) (bucket_index w asset).
Proof.
  unfold remove_bucket_index. rewrite run_bind, run_get_or.
  change (default [] (persistent w (KeyHistoryBucketIndex asset))) with (bucket_index w asset).
  destruct (filter (λ x, x ≠ b) (bucket_index w asset)) as [|x l] eqn:E.
  - rewrite run_remove. eexists. split; [done|]. split_and!; [|done|].
    + intros k Hk. by apply persistent_put_ne.
    + unfold bucket_index at 1. by rewrite persistent_put_eq.
  - rewrite run_set. eexists. split; [done|]. split_and!; [|done|].
    + intros k Hk. by apply persistent_put_ne.
    + unfold bucket_index at 1. by rewrite persistent_put_eq.
Qed.

(** A bucket shortened, or dropped with its index entry when nothing is left. *)
Lemma shards_ok_shrink asset b retained w w' :
  shards_ok w → is_Some (bucket_of w asset b) → bucket_ok b retained →
  (∀ a b', bucket_of w' a b' =
     if bool_decide (a = asset ∧ b' = b)
     then match retained with [] => None | _ => Some retained end else bucket_of w a b') →
  (∀ a, a ≠ asset → bucket_index w' a = bucket_index w a) →
  bucket_index w' asset =
    match retained with
    | [] => filter (λ x, x ≠ b) (bucket_index w asset)
    | _ => bucket_index w asset
    end →
  shards_ok w'.
Proof.
  intros Hok Hsome Hret Hbk Hidx Hida a. destruct (Hok a) as (Hn & Hin & Hbo).
  destruct (decide (a = asset)) as [->|Hne].
  - rewrite Hida. clear Hida. split_and!.
    + destruct retained; [by apply NoDup_filter|done].
    + intros b'. rewrite Hbk. destruct retained as [|e r].
      * rewrite list_elem_of_filter, Hin. case_bool_decide as H1.
        -- destruct H1 as [_ ->]. split; [by intros []|by intros []].
        -- split; [by intros []|]. intros Hs. split; [|done]. intros ->. by apply H1.
      * rewrite Hin. case_bool_decide as H1; [|done]. destruct H1 as [_ ->]. done.
    + intros b' bucket. rewrite Hbk. case_bool_decide as H1; [|apply Hbo].
      destruct H1 as [_ ->]. destruct retained; [done|]. by intros [= <-].
  - rewrite (Hidx a) by done. split_and!; [done| |].
    + intros b'. rewrite Hbk, bool_decide_false by (by intros []). apply Hin.
    + intros b' bucket. rewrite Hbk, bool_decide_false by (by intros []). apply Hbo.
Qed.

Lemma run_remove_shard asset ledger c w :
  shards_ok w →
  ∃ w', remove_history_shard_entry asset ledger c w = Ok tt w' ∧ shards_ok w' ∧
    temporary w' = temporary w ∧
    (∀ k, (∀ b, k ≠ KeyHistoryBucket asset b) → k ≠ KeyHistoryBucketIndex asset →
          persistent w' k = persistent w k) ∧
    ∀ a l, shard w' a l = if bool_decide (a = asset ∧ l = ledger) then None else shard w a l.
Proof.
  intros Hok. unfold remove_history_shard_entry. rewrite run_bind, run_get.
  set (b := ledger_to_bucket ledger).
  change (persistent w (KeyHistoryBucket asset b)) with (bucket_of w asset b).
  destruct (bucket_of w asset b) as [bucket|] eqn:Eb.
  2: { exists w. split_and!; try done. intros a l. case_bool_decide as H; [|done]. destruct H as [-> ->].
       unfold shard. fold b. by rewrite Eb. }
  set (retained := filter (λ e, he_ledger e ≠ ledger) bucket).
  assert (bucket_ok b retained) as Hret by (apply bucket_ok_filter; by apply (Hok asset)).
  assert (∃ w', (match retained with
    | [] => remove (KeyHistoryBucket asset b);; remove_bucket_index asset b
    | _ => set (KeyHistoryBucket asset b) retained;; extend_ttl (KeyHistoryBucket asset b)
    end) c w = Ok tt w' ∧ temporary w' = temporary w ∧
    (∀ k, k ≠ KeyHistoryBucketIndex asset → persistent w' k =
       persistent (put_persistent (KeyHistoryBucket asset b)
         (match retained with [] => None | _ => Some (retained : interp (ty_of (KeyHistoryBucket asset b))) end) w) k) ∧
    bucket_index w' asset = match retained with
      | [] => filter (λ x, x ≠ b) (bucket_index w asset) | _ => bucket_index w asset end)
    as (w' & E & Htmp & Hfr & Hidx).
  { destruct retained as [|e r] eqn:Er.
    - rewrite run_bind, run_remove.
      destruct (run_remove_bucket_index asset b c (put_persistent (KeyHistoryBucket asset b) None w))
        as (w' & E & Hfr & Htmp & Hidx).
      exists w'. split_and!; [done|done|done|]. rewrite Hidx. unfold bucket_index.
      by rewrite persistent_put_ne.
    - rewrite run_bind, run_set, (run_extend_put (KeyHistoryBucket asset b)).
      eexists. split_and!; [done|done|done|]. unfold bucket_index. by rewrite persistent_put_ne. }
  exists w'. split; [exact E|]. assert (∀ a b', bucket_of w' a b' =
    if bool_decide (a = asset ∧ b' = b)
    then match retained with [] => None | _ => Some retained end else bucket_of w a b') as Hbuckets.
  { intros a b'. unfold bucket_of at 1. rewrite Hfr by done. apply lookup_bucket_put. }
  split_and!.
  - apply (shards_ok_shrink asset b retained w); [done|by rewrite Eb|done|done| |done].
    intros a Ha. unfold bucket_index. rewrite Hfr by congruence. by rewrite persistent_put_ne.
  - done.
  - intros k Hk Hki. rewrite Hfr by done. apply persistent_put_ne. intros <-. by apply (Hk b).
  - clear Hidx. intros a l. unfold shard. rewrite Hbuckets. case_bool_decide as H1.
    + destruct H1 as [-> Hl]. rewrite Hl, Eb. cbn [mbind option_bind].
      pose proof (find_entry_filter ledger bucket l) as Hf. fold retained in Hf.
      destruct (Z.eqb_spec l ledger) as [->|Hne].
      * rewrite bool_decide_true by done. destruct retained; [done|exact Hf].
      * rewrite bool_decide_false by (by intros []). rewrite <- Hf. by destruct retained.
    + rewrite bool_decide_false; [done|]. intros [-> ->]. by apply H1.
Qed.

Lemma run_prune_loop asset m c : ∀ idx (acc : list Z) w,
  ∃ w', fold_m (λ (retained : list Z) b,
      if b <? m then remove (KeyHistoryBucket asset b);; mret retained
      else mret (retained ++ [b])) acc idx c w =
    Ok (acc ++ filter (λ b, m <= b) idx) w' ∧
    temporary w' = temporary w ∧
    (∀ k, (∀ b, k ≠ KeyHistoryBucket asset b) → persistent w' k = persistent w k) ∧
    ∀ a b, bucket_of w' a b =
      if bool_decide (a = asset ∧ b ∈ idx ∧ b < m) then None else bucket_of w a b.
Proof.
  induction idx as [|b idx IH]; intros acc w; cbn [fold_m].
  - exists w. rewrite app_nil_r. split_and!; try done. intros a b.
    rewrite bool_decide_false; [done|]. intros (_ & Hb & _). by apply not_elem_of_nil in Hb.
  - rewrite run_bind, filter_cons. destruct (Z.ltb_spec b m) as [Hlt|Hge].
    + rewrite decide_False by lia. rewrite run_bind, run_remove, run_ret.
      destruct (IH acc (put_persistent (KeyHistoryBucket asset b) None w)) as (w' & E & Ht & Hfr & Hbk).
      exists w'. split_and!; [done|done| |].
      * intros k Hk. rewrite Hfr by done. apply persistent_put_ne. intros <-. by apply (Hk b).
      * intros a b'. rewrite Hbk, lookup_bucket_put. repeat case_bool_decide; set_solver.
    + rewrite decide_True by lia. rewrite run_ret.
      destruct (IH (acc ++ [b]) w) as (w' & E & Ht & Hfr & Hbk).
      exists w'. rewrite <- app_assoc in E. split_and!; [done|done|done|].
      intros a b'. rewrite Hbk. repeat case_bool_decide; try done.
      * exfalso. set_solver.
      * destruct_and!. exfalso. set_unfold. destruct_or!; [lia|]. tauto.
Qed.

Lemma run_prune asset m c w :
  shards_ok w →
  ∃ w', prune_old_buckets asset m c w = Ok tt w' ∧ shards_ok w' ∧ temporary w' = temporary w ∧
    ∀ a l, shard w' a l =
      if bool_decide (a = asset ∧ ledger_to_bucket l < m) then None else shard w a l.
Proof.
  intros Hok. unfold prune_old_buckets. rewrite run_bind, run_get_or.
  change (default [] (persistent w (KeyHistoryBucketIndex asset))) with (bucket_index w asset).
  assert (∀ b, b ∉ bucket_index w asset → bucket_of w asset b = None) as Hnone.
  { intros b Hb. apply eq_None_not_Some. by rewrite <- (proj1 (proj2 (Hok asset))). }
  destruct (bucket_index w asset) as [|b0 rest] eqn:Ei.
  { exists w. split_and!; try done. intros a l. case_bool_decide as H; [|done]. destruct H as [-> Hl].
    unfold shard. rewrite Hnone; [done|]. apply not_elem_of_nil. }
  rewrite <- Ei in *. clear Ei b0 rest.
  destruct (run_prune_loop asset m c (bucket_index w asset) [] w) as (w1 & E & Ht & Hfr & Hbk).
  rewrite run_bind, E, app_nil_l, run_bind, run_set.
  set (retained := filter (λ b, m <= b) (bucket_index w asset)) in *.
  set (w' := put_persistent (KeyHistoryBucketIndex asset)
    (Some (retained : interp (ty_of (KeyHistoryBucketIndex asset)))) w1).
  exists w'. assert (∀ a b, bucket_of w' a b =
    if bool_decide (a = asset ∧ b < m) then None else bucket_of w a b) as Hbuckets.
  { intros a b. unfold bucket_of at 1, w'. rewrite persistent_put_ne by done.
    change (persistent w1 (KeyHistoryBucket a b)) with (bucket_of w1 a b). rewrite Hbk.
    case_bool_decide as H1; case_bool_decide as H2; try done.
    - exfalso. by destruct H1 as (? & ? & ?); apply H2.
    - destruct H2 as [-> Hlt]. apply Hnone. intros Hin. by apply H1. }
  assert (bucket_index w' asset = retained) as Hidx
    by (unfold bucket_index, w'; by rewrite persistent_put_eq).
  split_and!.
  - destruct retained; [done|]. unfold w'. by rewrite (run_extend_put (KeyHistoryBucketIndex asset)).
  - intros a. destruct (Hok a) as (Hn & Hin & Hbo). destruct (decide (a = asset)) as [->|Hne].
    + rewrite Hidx. split_and!; [by apply NoDup_filter| |].
      * intros b. subst retained. rewrite list_elem_of_filter, Hin, Hbuckets.
        case_bool_decide as H1; [split; [intros [? _]; lia|by intros []]|].
        split; [by intros []|]. intros Hs. split; [|done]. apply Z.nlt_ge. intros ?. by apply H1.
      * intros b bucket. rewrite Hbuckets. case_bool_decide; [done|]. apply Hbo.
    + assert (bucket_index w' a = bucket_index w a) as ->.
      { unfold bucket_index, w'. rewrite persistent_put_ne by congruence. by rewrite Hfr. }
      split_and!; [done| |].
      * intros b. rewrite Hbuckets, bool_decide_false by (by intros []). apply Hin.
      * intros b bucket. rewrite Hbuckets, bool_decide_false by (by intros []). apply Hbo.
  - done.
  - intros a l. unfold shard. rewrite Hbuckets. by case_bool_decide.
Qed.

(** ** Reading the history *)

(** The entry a reader gets for a ledger. *)
Definition entry_at (w : World) (asset : Address) (l : Z) : option PriceHistoryEntry :=
  match temporary w (KeyPriceHistory asset l) with
  | Some e => Some (e : PriceHistoryEntry)
  | None => shard w asset l
  end.

Definition history_index (w : World) (asset : Address) : list Z :=
  default [] (persistent w (KeyPriceHistoryLedgers asset)).

Lemma run_read_entry asset l c w : read_history_entry asset l c w = Ok (entry_at w asset l) w.
Proof. apply run_read_history_entry. Qed.

Section Reading.
Context `{BP : BuildProfile}.

(** *** Interpolation *)

(** A fraction of a difference stays between zero and the difference. *)
Lemma quot_fraction d o r :
  0 <= o <= r → 0 < r → Z.min 0 d <= Z.quot (d * o) r <= Z.max 0 d.
Proof.
  intros Ho Hr. destruct (Z.le_ge_cases 0 d) as [Hd|Hd].
  - rewrite Z.quot_div_nonneg by nia. split; [rewrite Z.min_l by lia; apply Z.div_pos; nia|].
    rewrite Z.max_r by lia. apply Z.div_le_upper_bound; nia.
  - replace (d * o) with (- ((- d) * o)) by ring. rewrite Z.quot_opp_l by lia.
    rewrite Z.quot_div_nonneg by nia. pose proof (Z.div_pos ((- d) * o) r).
    pose proof (Z.div_le_upper_bound ((- d) * o) r (- d)). nia.
Qed.

Definition entry_range (lo hi : Z) (e : PriceHistoryEntry) : Prop :=
  in_u32 (he_ledger e) ∧ lo <= he_price e <= hi ∧ in_u64 (he_timestamp e).

Lemma run_interpolate b a ledger lo hi c w :
  entry_range lo hi b → entry_range lo hi a → 0 <= lo → hi * U32_MAX <= I128_MAX →
  he_ledger b <= ledger < he_ledger a →
  ∃ e, interpolate b a ledger c w = Ok e w ∧ he_ledger e = ledger ∧ he_is_interpolated e = true ∧
    Z.min (he_price b) (he_price a) <= he_price e <= Z.max (he_price b) (he_price a) ∧
    he_timestamp b <= he_timestamp e <= Z.max (he_timestamp b) (he_timestamp a).
Proof.
  intros (Hlb & Hpb & Htb) (Hla & Hpa & Hta) Hlo Hhi Hl. unfold interpolate.
  unfold in_u32, in_u64 in *.
  pose proof (quot_fraction (he_price a - he_price b) (ledger - he_ledger b) (he_ledger a - he_ledger b)) as Hq.
  set (dt := sat_u64 (he_timestamp a - he_timestamp b)).
  assert (0 <= dt <= Z.max 0 (he_timestamp a - he_timestamp b) ∧ dt <= U64_MAX) as [Hdt Hdt2]
    by (subst dt; unfold sat_u64, clampZ; lia).
  pose proof (quot_fraction dt (ledger - he_ledger b) (he_ledger a - he_ledger b)) as Hqt.
  assert (Z.abs ((he_price a - he_price b) * (ledger - he_ledger b)) <= hi * U32_MAX) as Hmul.
  { rewrite Z.abs_mul. apply Z.mul_le_mono_nonneg; lia. }
  assert (0 <= dt * (ledger - he_ledger b) <= U64_MAX * U32_MAX) as Hmul2
    by (split; [nia|apply Z.mul_le_mono_nonneg; lia]).
  assert (hi <= I128_MAX) as Hhi2 by (unfold U32_MAX in *; lia).
  rewrite run_bind, u32_ok by (unfold in_u32; lia). cbn [lift]. rewrite run_ret, run_bind.
  rewrite u32_ok by (unfold in_u32; lia). cbn [lift]. rewrite run_ret, run_bind.
  rewrite i128_ok by (unfold in_i128, I128_MIN, I128_MAX in *; lia). cbn [lift]. rewrite run_ret, run_bind.
  rewrite i128_ok by (unfold in_i128, I128_MIN, I128_MAX in *; lia). cbn [lift]. rewrite run_ret, run_bind.
  rewrite div_i128_ok by lia. cbn [lift]. rewrite run_ret, run_bind.
  rewrite i128_ok by (unfold in_i128, I128_MIN, I128_MAX in *; lia). cbn [lift]. rewrite run_ret, run_bind.
  rewrite i128_ok by (unfold in_i128, I128_MIN, I128_MAX, U64_MAX, U32_MAX in *; lia).
  cbn [lift]. rewrite run_ret, run_bind, div_i128_ok by lia. cbn [lift]. rewrite run_ret, run_bind.
  unfold as_u64. rewrite wrap_id by (unfold U64_MAX in *; lia).
  rewrite u64_ok by (unfold in_u64; lia). cbn [lift]. rewrite run_ret.
  eexists. split; [done|]. cbn [he_ledger he_is_interpolated he_price he_timestamp]. split_and!; try done; lia.
Qed.

(** The step of the walk for the neighbours, on the entries read. *)
Definition neighbour_step (w : World) (asset : Address) (ledger : Z)
    (acc : option PriceHistoryEntry * option PriceHistoryEntry) (l : Z) :=
  match entry_at w asset l with
  | None => acc
  | Some e =>
      if l <=? ledger then (Some e, snd acc)
      else match snd acc with None => (fst acc, Some e) | Some _ => acc end
  end.

Lemma run_neighbours asset ledger idx c w :
  neighbours asset ledger idx c w =
    Ok (fold_left (neighbour_step w asset ledger) idx (None, None)) w.
Proof.
  unfold neighbours. generalize (@None PriceHistoryEntry, @None PriceHistoryEntry).
  induction idx as [|l idx IH]; intros acc; [done|]. cbn [fold_m fold_left].
  rewrite run_bind. unfold neighbour_step at 2.
  destruct (l <=? ledger).
  - rewrite run_bind, run_read_entry, run_ret, IH. by destruct (entry_at w asset l).
  - destruct acc as [b [a|]]; cbn [snd fst].
    + rewrite run_ret, IH. by destruct (entry_at w asset l).
    + rewrite run_bind, run_read_entry, run_ret, IH. by destruct (entry_at w asset l).
Qed.

(** The neighbours come from the index, one on each side. *)
Definition neighbours_ok (w : World) (asset : Address) (ledger : Z)
    (acc : option PriceHistoryEntry * option PriceHistoryEntry) : Prop :=
  (∀ e, fst acc = Some e → ∃ l, l <= ledger ∧ entry_at w asset l = Some e) ∧
  (∀ e, snd acc = Some e → ∃ l, ledger < l ∧ entry_at w asset l = Some e).

Lemma neighbour_step_ok w asset ledger acc l :
  neighbours_ok w asset ledger acc → neighbours_ok w asset ledger (neighbour_step w asset ledger acc l).
Proof.
  intros [Hb Ha]. unfold neighbour_step. destruct (entry_at w asset l) as [e|] eqn:E; [|done].
  destruct (Z.leb_spec l ledger).
  - split; [|done]. intros e' [= <-]. by exists l.
  - destruct acc as [b [a|]]; [done|]. split; [done|]. intros e' [= <-]. by exists l.
Qed.

Lemma neighbour_step_keeps w asset ledger acc l :
  (is_Some (fst acc) → is_Some (fst (neighbour_step w asset ledger acc l))) ∧
  (is_Some (snd acc) → is_Some (snd (neighbour_step w asset ledger acc l))).
Proof.
  unfold neighbour_step. destruct (entry_at w asset l); [|done].
  destruct (l <=? ledger); [by split|]. destruct acc as [b [a|]]; by split.
Qed.

Lemma neighbours_spec w asset ledger idx : ∀ acc,
  neighbours_ok w asset ledger acc →
  let r := fold_left (neighbour_step w asset ledger) idx acc in
  neighbours_ok w asset ledger r ∧
  (is_Some (fst acc) ∨ (∃ l, l ∈ idx ∧ l <= ledger ∧ is_Some (entry_at w asset l)) → is_Some (fst r)) ∧
  (is_Some (snd acc) ∨ (∃ l, l ∈ idx ∧ ledger < l ∧ is_Some (entry_at w asset l)) → is_Some (snd r)).
Proof.
  induction idx as [|l idx IH]; intros acc Hok; cbn [fold_left].
  - split_and!; [done| |]; intros [?|(l & Hl & _)]; try done; by apply not_elem_of_nil in Hl.
  - destruct (IH _ (neighbour_step_ok w asset ledger acc l Hok)) as (Hok' & Hb & Ha).
    destruct (neighbour_step_keeps w asset ledger acc l) as [Kb Ka].
    split_and!; [done| |].
    + intros [?|(l' & [->|Hl']%elem_of_cons & Hle & He)]; apply Hb; [left; auto| |right; eauto].
      left. unfold neighbour_step. destruct He as [e ->]. by rewrite (proj2 (Z.leb_le _ _) Hle).
    + intros [?|(l' & [->|Hl']%elem_of_cons & Hlt & He)]; apply Ha; [left; auto| |right; eauto].
      left. unfold neighbour_step. destruct He as [e ->]. rewrite (proj2 (Z.leb_gt _ _) Hlt).
      by destruct (snd acc) eqn:Es; simpl; rewrite ?Es.
Qed.

Lemma entry_at_indexed w asset a l : entry_at (indexed asset w) a l = entry_at w a l.
Proof.
  unfold entry_at, shard, bucket_of. rewrite indexed_frame by done.
  unfold indexed. by destruct (persistent w (KeyAssetRegistryIndex asset)).
Qed.
End Reading.

(** ** The properties of the component *)

(** C33. The shards are a finite map from ledgers to entries: on consistent
    shards every write, removal and pruning succeeds, keeps them consistent
    (entries in their own bucket, one per ledger, the index listing exactly
    the existing buckets) and changes exactly the entries it should, for
    every asset and ledger; and a read answers from the map. *)
Theorem shards_are_a_map asset entry ledger min_bucket c w :
  shards_ok w →
  (∃ w', write_history_shard asset entry c w = Ok tt w' ∧ shards_ok w' ∧
     ∀ a l, shard w' a l =
       if bool_decide (a = asset ∧ l = he_ledger entry) then Some entry else shard w a l) ∧
  (∃ w', remove_history_shard_entry asset ledger c w = Ok tt w' ∧ shards_ok w' ∧
     ∀ a l, shard w' a l = if bool_decide (a = asset ∧ l = ledger) then None else shard w a l) ∧
  (∃ w', prune_old_buckets asset min_bucket c w = Ok tt w' ∧ shards_ok w' ∧
     ∀ a l, shard w' a l =
       if bool_decide (a = asset ∧ ledger_to_bucket l < min_bucket) then None else shard w a l) ∧
  read_history_entry asset ledger c w = Ok (entry_at w asset ledger) w.
Proof.
  intros Hok. split_and!.
  - destruct (run_write_shard asset entry c w Hok) as (w' & ? & ? & _ & ?). eauto.
  - destruct (run_remove_shard asset ledger c w Hok) as (w' & ? & ? & _ & _ & ?). eauto.
  - destruct (run_prune asset min_bucket c w Hok) as (w' & ? & ? & _ & ?). eauto.
  - apply run_read_entry.
Qed.

Lemma shards_ok_empty : shards_ok empty_world.
Proof.
  intros a. split_and!; [constructor| |done]. intros b. split; [by intros ?%not_elem_of_nil|by intros []].
Qed.

Lemma shards_are_a_map_witness :
  ∃ w', write_history_shard 30%N (MkPriceHistoryEntry 5 6 1000 3 false) toy_ctx empty_world = Ok tt w' ∧
    shard w' 30%N 1000 = Some (MkPriceHistoryEntry 5 6 1000 3 false).
Proof.
  destruct (shards_are_a_map 30%N (MkPriceHistoryEntry 5 6 1000 3 false) 0 0 toy_ctx empty_world
    shards_ok_empty) as ((w' & E & _ & Hs) & _).
  exists w'. split; [exact E|]. rewrite Hs. reflexivity.
Defined.

(** Historical prices are total and never leave the range of the history:
    when interpolation is enabled and readable entries lie on both sides of
    the ledger, [get_historical_price] returns an entry for exactly that
    ledger whose price is between the bounds of the recorded prices, without
    overflow. *)
Theorem historical_price_bounded `{BuildProfile} asset ledger lo hi c w :
  registry_ok w → asset ∈ registered w →
  default true (persistent w KeyInterpolationEnabled) = true →
  (∀ l e, entry_at w asset l = Some e → he_ledger e = l ∧ entry_range lo hi e) →
  0 <= lo → hi * U32_MAX <= I128_MAX →
  (∃ l, l ∈ history_index w asset ∧ l <= ledger ∧ is_Some (entry_at w asset l)) →
  (∃ l, l ∈ history_index w asset ∧ ledger < l ∧ is_Some (entry_at w asset l)) →
  ∃ e w', get_historical_price asset ledger c w = Ok e w' ∧ he_ledger e = ledger ∧
    lo <= he_price e <= hi.
Proof.
  intros Hok Hreg Hen Hent Hlo Hhi Hbefore Hafter. unfold get_historical_price.
  rewrite run_bind, run_check_registered by done. rewrite bool_decide_true by done.
  set (w1 := indexed asset w). rewrite run_bind. unfold has_temporary.
  assert (∀ l, entry_at w1 asset l = entry_at w asset l) as Hw1 by (intros; apply entry_at_indexed).
  pose proof (Hw1 ledger) as Hex. unfold entry_at at 1 in Hex.
  destruct (temporary w1 (KeyPriceHistory asset ledger)) as [e|] eqn:Et.
  { rewrite bool_decide_true by eauto. rewrite run_bind. unfold extend_ttl_temporary. rewrite Et.
    rewrite run_bind. unfold get_temporary. rewrite Et. cbn [lift].
    destruct (Hent ledger e (eq_sym Hex)) as (Hle & _ & Hp & _). exists e, w1. done. }
  rewrite bool_decide_false by (by intros []). rewrite run_bind, run_get.
  change (persistent w1 (KeyHistoryBucket asset (ledger_to_bucket ledger)) ≫= find_entry ledger)
    with (shard w1 asset ledger).
  destruct (shard w1 asset ledger) as [e|] eqn:Es.
  { destruct (Hent ledger e (eq_sym Hex)) as (Hle & _ & Hp & _). exists e, w1. done. }
  assert (∀ k, k ≠ KeyAssetRegistryIndex asset → persistent w1 k = persistent w k) as Hfr
    by (intros; by apply indexed_frame).
  assert (get_interpolation_enabled c w1 = Ok true w1) as Hie
    by (unfold get_interpolation_enabled; rewrite run_get_bump_or, Hfr by done; exact (f_equal (λ b, Ok b w1) Hen)).
  rewrite run_bind, Hie, run_bind. cbn [negb panic_if].
  rewrite run_ret, run_bind, (run_get_or_as (KeyPriceHistoryLedgers asset) [] (history_index w asset))
    by (by rewrite Hfr).
  rewrite run_bind, run_neighbours.
  destruct (neighbours_spec w1 asset ledger (history_index w asset) (None, None)) as ((Hb & Ha) & Sb & Sa);
    [by split|].
  destruct (fold_left _ _ _) as [ob oa]. cbn [fst snd] in *.
  destruct Sb as [b ->]; [right; destruct Hbefore as (l & ? & ? & ?); exists l; by rewrite Hw1|].
  destruct Sa as [a ->]; [right; destruct Hafter as (l & ? & ? & ?); exists l; by rewrite Hw1|].
  destruct (Hb b eq_refl) as (lb & Hlb & Eb), (Ha a eq_refl) as (la & Hla & Ea).
  rewrite Hw1 in Eb, Ea. destruct (Hent _ _ Eb) as [Elb Rb], (Hent _ _ Ea) as [Ela Ra].
  destruct (run_interpolate b a ledger lo hi c w1) as (e & He & ? & _ & Hp & _); try done; [lia|].
  exists e, w1. split_and!; [done|done| |]; destruct Rb as (_ & ? & _), Ra as (_ & ? & _); lia.
Qed.

(** A registered asset with two entries in one shard. *)
Definition two_entries : list PriceHistoryEntry :=
  [MkPriceHistoryEntry 100 5000 800 3 false; MkPriceHistoryEntry 200 5500 900 3 false].

Definition history_world : World :=
  put_persistent (KeyPriceHistoryLedgers 30%N)
    (Some ([800; 900] : interp (ty_of (KeyPriceHistoryLedgers 30%N))))
    (put_persistent (KeyHistoryBucket 30%N 3)
      (Some (two_entries : interp (ty_of (KeyHistoryBucket 30%N 3))))
      (register_writes 30%N 1%N empty_world)).

Lemma history_world_ok : registry_ok history_world.
Proof.
  apply (registry_ok_reads (register_writes 30%N 1%N empty_world)).
  - intros k Hk. unfold history_world. rewrite !persistent_put_ne; [done| |]; by intros <-.
  - apply register_writes_ok; [apply registry_ok_empty|by intros ?%not_elem_of_nil].
Qed.

Lemma history_world_entries l : entry_at history_world 30%N l = find_entry l two_entries.
Proof.
  unfold entry_at, shard, bucket_of. change (temporary history_world) with (temporary empty_world).
  cbn [temporary empty_world]. change (empty_store (KeyPriceHistory 30%N l)) with (@None PriceHistoryEntry).
  unfold history_world. rewrite persistent_put_ne by done.
  destruct (decide (ledger_to_bucket l = 3)) as [->|Hb]; [by rewrite persistent_put_eq|].
  rewrite persistent_put_ne by congruence.
  change (persistent (register_writes _ _ _) (KeyHistoryBucket 30%N (ledger_to_bucket l)))
    with (@None (list PriceHistoryEntry)).
  cbn [mbind option_bind find_entry two_entries he_ledger].
  destruct (Z.eqb_spec 800 l) as [<-|]; [by destruct Hb|].
  destruct (Z.eqb_spec 900 l) as [<-|]; [by destruct Hb|done].
Qed.

Lemma historical_price_bounded_witness :
  ∃ e w', @get_historical_price OverflowChecks 30%N 850 toy_ctx history_world = Ok e w' ∧
    he_ledger e = 850 ∧ 100 <= he_price e <= 200.
Proof.
  apply (@historical_price_bounded OverflowChecks).
  - exact history_world_ok.
  - vm_compute. left.
  - reflexivity.
  - intros l e. rewrite history_world_entries. cbn [find_entry two_entries he_ledger].
    destruct (Z.eqb_spec 800 l) as [<-|]; [|destruct (Z.eqb_spec 900 l) as [<-|]; [|done]];
      intros [= <-]; split; [done|by vm_compute; split_and!|done|
      by vm_compute; split_and!].
  - lia.
  - vm_compute. congruence.
  - exists 800. rewrite history_world_entries. split_and!; [vm_compute; left|lia|by eexists].
  - exists 900. rewrite history_world_entries. split_and!; [vm_compute; right; left|lia|by eexists].
Defined.
