(* ===== verification/Frames.v ===== *)
(** * Shared rules: frames, storage typing, and the inversion of runs

    Which keys the helpers that every module calls may write, as hints, and
    [frame], which walks a handler with them; the same for storage typing.
    [step H] peels the first call off a successful run [H]; guards leave their
    condition, readers their value and writers the written world. *)
From stdpp Require Import base list strings.
From S2P Require Import Prelude Machine Types Host AuditLog Config Admin Assets.
#[local] Open Scope Z_scope.
#[local] Set Default Goal Selector "!".

(** ** Frames *)

Lemma modifies_get_admin P : modifies P get_admin.
Proof. unfold get_admin. solve_modifies. Qed.

Lemma modifies_get_flagged P bit k d : modifies P (get_flagged bit k d).
Proof.
  unfold get_flagged. apply modifies_bind; [apply modifies_flag_on|]. intros []; solve_modifies.
Qed.

Lemma modifies_check_registered (P : DataKey → Prop) asset :
  P (KeyAssetRegistryIndex asset) → modifies P (check_registered_asset asset).
Proof. intros HP. unfold check_registered_asset. by solve_modifies. Qed.

Lemma modifies_emit_in (P : DataKey → Prop) `{BuildProfile} `{Crypto} action admin data :
  (∀ k, audit_key k → P k) → modifies P (emit_admin_action action admin data).
Proof. intros HP. eapply modifies_mono; [exact HP|apply modifies_emit]. Qed.

#[export] Hint Resolve modifies_get_admin modifies_get_flagged modifies_flag_on modifies_mark
  modifies_auth_admin : modifies.

(** The claims [P k] that a concrete predicate decides by computation. *)
Ltac key_leaf := first [exact I | done | by intros [] | by let k := fresh in intros k; destruct k].

(** [frame] walks a handler; rules for the calls it makes come from the hint
    database [modifies]. *)
Ltac frame :=
  repeat first
    [ progress intros
    | match goal with
      | |- modifies ?P (_ ≫= _) => apply modifies_bind
      | |- modifies ?P (mret _) => apply modifies_ret
      | |- modifies ?P (get ?k) => exact (modifies_get P k)
      | |- modifies ?P (has ?k) => exact (modifies_has P k)
      | |- modifies ?P (get_or ?k ?d) => exact (modifies_get_or P k d)
      | |- modifies ?P (get_bump_or ?k ?d) => exact (modifies_get_bump_or P k d)
      | |- modifies ?P (get_temporary ?k) => exact (modifies_get_temporary P k)
      | |- modifies ?P (get_temporary_or ?k ?d) => exact (modifies_get_temporary_or P k d)
      | |- modifies ?P (set_temporary ?k ?v) => exact (modifies_temporary P k v)
      | |- modifies ?P (get_touch ?k) => exact (modifies_get_touch P k)
      | |- modifies ?P (put ?k ?v) => refine (modifies_put P k v _); key_leaf
      | |- modifies ?P (set ?k ?v) => refine (modifies_set P k v _); key_leaf
      | |- modifies ?P (remove ?k) => refine (modifies_remove P k _); key_leaf
      | |- modifies ?P (Flags.on ?b) => exact (modifies_flag_on P b)
      | |- modifies ?P (Flags.mark ?b) => exact (modifies_mark P b)
      | |- modifies _ (panic_with_error _) => apply modifies_fail
      | |- modifies _ panic => apply modifies_fail
      | |- modifies _ (get_unwrap _) => unfold get_unwrap
      | |- modifies _ (for_each _ _) => apply modifies_for_each
      | |- modifies _ (fold_m _ _ _) => apply modifies_fold_m
      | |- modifies _ (check_registered_asset _) => apply modifies_check_registered; key_leaf
      | |- modifies _ (emit_admin_action _ _ _) => apply modifies_emit_in; key_leaf
      | |- modifies _ (match ?x with _ => _ end) => destruct x
      | |- modifies _ _ => solve [eauto 2 with modifies nocore]
      end ].

(** ** Storage typing *)

Lemma typed_put (T : KeyInv) k v : T k v → typed T (put k v) (λ _, True).
Proof.
  intros Hv. unfold put. eapply typed_bind; [by apply typed_set|]. intros _ _.
  apply typed_silent; eauto with silent.
Qed.

Lemma typed_get_touch (T : KeyInv) k : typed T (get_touch k) (λ v, ∀ x, v = Some x → T k x).
Proof.
  intros c w ? ? Hw H. rewrite run_get_touch in H. injection H as <- <-. split; [done|].
  intros x. apply Hw.
Qed.

Lemma typed_get_admin (T : KeyInv) : typed T get_admin (λ _, True).
Proof. exact (typed_conseq T _ _ _ (typed_get_unwrap T KeyAdmin) (λ _ _, I)). Qed.

Lemma typed_check_registered (T : KeyInv) asset :
  (∀ v, T (KeyAssetRegistryIndex asset) v) → typed T (check_registered_asset asset) (λ _, True).
Proof.
  intros HT c w a w' Hw H. split; [|done]. unfold check_registered_asset in H. ok_inv.
  case_if; ok_inv; [done|]. intros k v.
  destruct (decide (KeyAssetRegistryIndex asset = k)) as [<-|Hk]; [intros _; apply HT|].
  read_store. apply Hw.
Qed.

#[export] Hint Resolve typed_get_admin typed_flag_on typed_mark typed_auth_admin : typed.

(** [type_store] types a handler under an invariant that constrains few keys. *)
Ltac type_store :=
  repeat first
    [ progress intros
    | match goal with
      | |- typed ?T (put ?k ?v) _ => refine (typed_put T k v _)
      | |- typed ?T (get_touch ?k) _ => refine (typed_get_touch T k)
      | |- typed _ (check_registered_asset _) _ => apply typed_check_registered
      | |- typed _ (emit_admin_action _ _ _) _ => apply typed_emit_admin_action
      end
    | typed_step ].

(** ** Inverting the common guards *)

Lemma check_registered_Ok asset c w u w' :
  check_registered_asset asset c w = Ok u w' →
  w' = w ∨ w' = put_persistent (KeyAssetRegistryIndex asset) (Some true) w.
Proof.
  unfold check_registered_asset. intros H. ok_inv. case_if; ok_inv; [by left|by right].
Qed.

Lemma check_registered_frame asset c w u w' k :
  check_registered_asset asset c w = Ok u w' → k ≠ KeyAssetRegistryIndex asset →
  persistent w' k = persistent w k.
Proof. intros [-> | ->]%check_registered_Ok Hk; by read_store. Qed.

Lemma check_registered_flags asset c w u w' :
  check_registered_asset asset c w = Ok u w' →
  instance_flags w' = instance_flags w ∧ temporary w' = temporary w ∧ events w' = events w.
Proof. by intros [-> | ->]%check_registered_Ok. Qed.

Lemma get_admin_Ok c w admin w' :
  get_admin c w = Ok admin w' → w' = w ∧ persistent w KeyAdmin = Some admin.
Proof. unfold get_admin, get_unwrap. intros H. by ok_inv. Qed.

Lemma require_auth_Ok a c w u w' :
  require_auth a c w = Ok u w' → w' = w ∧ authorized c a = true.
Proof. unfold require_auth. destruct (authorized c a); [|done]. by intros [= _ <-]. Qed.

(** ** Calls that change nothing *)

Definition readonly {A} (m : M A) : Prop := ∀ c w a w', m c w = Ok a w' → w' = w.

Lemma readonly_bind {A B} (m : M A) (f : A → M B) :
  readonly m → (∀ a, readonly (f a)) → readonly (m ≫= f).
Proof. intros Hm Hf c w b w' (a & w1 & H1 & H2)%bind_Ok. apply Hm in H1 as ->. by apply Hf in H2. Qed.

Lemma readonly_flag_on bit : readonly (Flags.on bit).
Proof. intros c w a w' H. rewrite run_flag_on in H. by injection H. Qed.
Lemma readonly_get_admin : readonly get_admin.
Proof. intros c w a w' H. by apply get_admin_Ok in H as [-> _]. Qed.
Lemma readonly_get_flagged bit k d : readonly (get_flagged bit k d).
Proof. intros c w a w' H. rewrite run_get_flagged in H. by injection H. Qed.
Lemma readonly_fold_m {A B} (body : B → A → M B) xs : ∀ acc,
  (∀ b x, readonly (body b x)) → readonly (fold_m body acc xs).
Proof.
  induction xs as [|x xs IH]; intros acc Hb; simpl; [by intros c w a w' [= _ ->]|].
  apply readonly_bind; [done|]. intros b. by apply IH.
Qed.

Create HintDb readonly.
#[export] Hint Resolve readonly_flag_on readonly_get_admin readonly_get_flagged : readonly.

(** [read_only] walks a reader; its loops are hints. *)
Ltac read_only :=
  repeat first
    [ progress intros
    | match goal with
      | |- readonly (_ ≫= _) => apply readonly_bind
      | |- readonly (fold_m _ _ _) => apply readonly_fold_m
      | |- readonly (match ?x with _ => _ end) => destruct x
      | |- readonly _ => solve [eauto 2 with readonly nocore]
      | |- readonly _ =>
          let H := fresh in
          intros ? ? ? ? H; first [discriminate H | by injection H | by ok_inv | by destruct (lift _ _ _)]
      end ].

(** Drops the worlds that readers pass on; the readers' rules are hints. *)
Ltac same_world :=
  repeat match goal with
  | H : ?m ?c ?w = Ok _ ?w' |- _ =>
      tryif constr_eq w w' then fail else
      let E := fresh in
      assert (w' = w) as E by
        (let Hr := fresh in assert (readonly m) as Hr by (solve [read_only]); exact (Hr _ _ _ _ H));
      subst w'
  end.

(** [deep_frame] also unfolds the calls it meets; recursive ones need a hint. *)
Ltac head_of t := match t with ?f _ => head_of f | _ => t end.
Ltac deep_frame :=
  repeat (frame; match goal with |- modifies _ ?m => let h := head_of m in progress unfold h end).

Lemma readonly_modifies {A} P (m : M A) : readonly m → modifies P m.
Proof. intros Hm c w a w' H k _. by apply Hm in H as ->. Qed.

(** ** Feature flags only grow *)

Definition flag_kept (bit : Z) (w : World) : Prop := Flags.is_on w bit = true.

Lemma flag_kept_same {A} bit (m : M A) :
  (∀ c w a w', m c w = Ok a w' → instance_flags w' = instance_flags w) → preserves (flag_kept bit) m.
Proof. intros Hm c w a w' Hw H. unfold flag_kept, Flags.is_on in *. by rewrite (Hm _ _ _ _ H). Qed.

Lemma flag_kept_mark bit b : preserves (flag_kept bit) (Flags.mark b).
Proof.
  intros c w a w' Hw H. rewrite run_mark in H. injection H as _ <-. unfold flag_kept.
  rewrite is_on_marked. apply orb_true_iff. by left.
Qed.

Lemma preserves_fold_m {A B} I (body : B → A → M B) xs : ∀ acc,
  (∀ b x, preserves I (body b x)) → preserves I (fold_m body acc xs).
Proof.
  induction xs as [|x xs IH]; intros acc Hb; [by intros c w ? ? ? [= _ <-]|].
  apply preserves_bind; [done|]. intros b. by apply IH.
Qed.

(** [deep_flags] walks a handler; a primitive leaves the flag word alone. *)
Ltac primitive_keeps :=
  let H := fresh in
  apply flag_kept_same; intros ? ? ? ? H;
  first [ discriminate H | solve [by injection H as <- <-] | solve [by injection H as <-]
        | rewrite run_get_bump_or in H; by injection H as _ <-
        | rewrite run_get_touch in H; by injection H as _ <-
        | rewrite run_put in H; by injection H as _ <- | by ok_inv ].
Ltac deep_flags :=
  repeat first
    [ progress intros
    | match goal with
      | |- preserves _ (_ ≫= _) => apply preserves_bind
      | |- preserves _ (for_each _ _) => apply preserves_for_each
      | |- preserves _ (fold_m _ _ _) => apply preserves_fold_m
      | |- preserves _ (Flags.mark _) => apply flag_kept_mark
      | |- preserves _ (match ?x with _ => _ end) => destruct x
      | |- preserves _ (mret _) => primitive_keeps
      | |- preserves _ (get _) => primitive_keeps
      | |- preserves _ (has _) => primitive_keeps
      | |- preserves _ (get_or _ _) => primitive_keeps
      | |- preserves _ (get_bump_or _ _) => primitive_keeps
      | |- preserves _ (get_touch _) => primitive_keeps
      | |- preserves _ (put _ _) => primitive_keeps
      | |- preserves _ (set _ _) => primitive_keeps
      | |- preserves _ (remove _) => primitive_keeps
      | |- preserves _ (extend_ttl _) => primitive_keeps
      | |- preserves _ (get_temporary _) => primitive_keeps
      | |- preserves _ (get_temporary_or _ _) => primitive_keeps
      | |- preserves _ (set_temporary _ _) => primitive_keeps
      | |- preserves _ (remove_temporary _) => primitive_keeps
      | |- preserves _ (publish _) => primitive_keeps
      | |- preserves _ (panic_if _ _) => primitive_keeps
      | |- preserves _ (panic_with_error _) => primitive_keeps
      | |- preserves _ panic => primitive_keeps
      | |- preserves _ (lift _) => primitive_keeps
      | |- preserves _ (require_auth _) => primitive_keeps
      | |- preserves _ ledger_sequence => primitive_keeps
      | |- preserves _ ledger_timestamp => primitive_keeps
      | |- preserves _ (Flags.on _) =>
          apply flag_kept_same; intros ? ? ? ? ?H; rewrite run_flag_on in *; by ok_inv
      | |- preserves _ _ => solve [eauto 2 with flags nocore]
      | |- preserves _ ?m => let h := head_of m in progress unfold h
      end ].
Create HintDb flags.

(** ** Inverting a successful run one call at a time *)

Lemma panic_if_Ok b e c w u w' : panic_if b e c w = Ok u w' → w' = w ∧ b = false.
Proof. destruct b; [done|]. by intros [= _ <-]. Qed.

Lemma lift_Ok {A} (o : option A) c w a w' : lift o c w = Ok a w' → w' = w ∧ o = Some a.
Proof. destruct o; [|done]. by intros [= -> ->]. Qed.

Lemma panic_unless_Ok (o : option ()) c w u w' :
  (if o then mret tt else panic : M ()) c w = Ok u w' → w' = w ∧ is_Some o.
Proof. destruct o; [|done]. by intros [= _ <-]. Qed.

Lemma run_assoc {A B C} (m : M A) (f : A → M B) (g : B → M C) c w :
  ((m ≫= f) ≫= g) c w = (m ≫= λ a, f a ≫= g) c w.
Proof. rewrite !run_bind. by destruct (m c w). Qed.

(** [step H] peels the first call off a successful run; the guards leave their
    condition and readers their value. *)
Ltac step H :=
  let a := fresh "v" in let w1 := fresh "w" in let H1 := fresh "Hs" in let E := fresh "Eg" in
  lazymatch type of H with
  | ((_ ≫= _) ≫= _) _ _ = Ok _ _ => rewrite run_assoc in H; step H
  | (require_auth _ ≫= _) _ _ = Ok _ _ =>
      apply bind_Ok in H as (a & w1 & H1 & H); apply require_auth_Ok in H1 as [-> E]
  | (get_admin ≫= _) _ _ = Ok _ _ =>
      apply bind_Ok in H as (a & w1 & H1 & H); apply get_admin_Ok in H1 as [-> E]
  | (panic_if _ _ ≫= _) _ _ = Ok _ _ =>
      apply bind_Ok in H as (a & w1 & H1 & H); apply panic_if_Ok in H1 as [-> E]
  | (lift _ ≫= _) _ _ = Ok _ _ =>
      apply bind_Ok in H as (a & w1 & H1 & H); apply lift_Ok in H1 as [-> E]
  | (get_bump_or _ _ ≫= _) _ _ = Ok _ _ => rewrite run_bind, run_get_bump_or in H; cbv beta iota in H
  | (get_touch _ ≫= _) _ _ = Ok _ _ => rewrite run_bind, run_get_touch in H; cbv beta iota in H
  | (get _ ≫= _) _ _ = Ok _ _ => rewrite run_bind, run_get in H; cbv beta iota in H
  | (get_or _ _ ≫= _) _ _ = Ok _ _ => rewrite run_bind, run_get_or in H; cbv beta iota in H
  | (has _ ≫= _) _ _ = Ok _ _ => rewrite run_bind in H; unfold has at 1 in H; cbv beta iota in H
  | (put _ _ ≫= _) _ _ = Ok _ _ => rewrite run_bind, run_put in H; cbv beta iota in H
  | (set _ _ ≫= _) _ _ = Ok _ _ => rewrite run_bind, run_set in H; cbv beta iota in H
  | (remove _ ≫= _) _ _ = Ok _ _ => rewrite run_bind, run_remove in H; cbv beta iota in H
  | (publish _ ≫= _) _ _ = Ok _ _ => rewrite run_bind, run_publish in H; cbv beta iota in H
  | (mret _ ≫= _) _ _ = Ok _ _ => rewrite run_bind, run_ret in H; cbv beta iota in H
  | (ledger_sequence ≫= _) _ _ = Ok _ _ => rewrite run_bind, run_sequence in H; cbv beta iota in H
  | (ledger_timestamp ≫= _) _ _ = Ok _ _ => rewrite run_bind, run_timestamp in H; cbv beta iota in H
  | (Flags.mark _ ≫= _) _ _ = Ok _ _ => rewrite run_bind, run_mark in H; cbv beta iota in H
  | (Flags.on _ ≫= _) _ _ = Ok _ _ => rewrite run_bind, run_flag_on in H; cbv beta iota in H
  | publish _ _ _ = Ok _ _ => rewrite run_publish in H; first [injection H as H | injection H as _ H]
  | put _ _ _ _ = Ok _ _ => rewrite run_put in H; first [injection H as H | injection H as _ H]
  | set _ _ _ _ = Ok _ _ => rewrite run_set in H; first [injection H as H | injection H as _ H]
  | remove _ _ _ = Ok _ _ => rewrite run_remove in H; first [injection H as H | injection H as _ H]
  | panic_with_error _ _ _ = Ok _ _ => discriminate H
  | panic_if _ _ _ _ = Ok _ _ => apply panic_if_Ok in H as [-> E]
  end.
Ltac steps H := repeat step H.

(** A registered asset whose index entry is there passes its check silently. *)
Lemma run_check_indexed asset c w :
  persistent w (KeyAssetRegistryIndex asset) = Some true → check_registered_asset asset c w = Ok tt w.
Proof.
  intros E. unfold check_registered_asset. rewrite run_bind, run_get_or, E. cbn [default].
  by rewrite (run_extend_ttl _ _ _ _ E).
Qed.

Lemma run_get_bump_or_as k d v c w : default d (persistent w k) = v → get_bump_or k d c w = Ok v w.
Proof. intros <-. apply run_get_bump_or. Qed.
