(* ===== verification/Policy.v ===== *)
(** * [policy.rs]: layered aggregation policy

    Method, quorum, freshness and deviation bound of an asset come from three
    layers: the contract-wide defaults, the policy of the asset's class and the
    asset's own policy; the last layer that sets a field wins.  Every policy in
    storage is in range, and the resolved policy is the field-wise override. *)
From stdpp Require Import base list strings.
From S2P Require Import Prelude Machine StorageMath Types Host AuditLog Config Admin Assets Frames.
#[local] Open Scope Z_scope.
#[local] Set Default Goal Selector "!".

Definition MAX_METHOD : Z := 4.
Definition MAX_FRESHNESS_SECS : Z := 604800.
Definition MAX_DEVIATION_BPS : Z := 10000.

Definition LAYER_GLOBAL : Z := 0.
Definition LAYER_CLASS : Z := 1.
Definition LAYER_ASSET : Z := 2.

(** [o.is_none_or(|v| lo <= v && v <= hi)] *)
Definition none_or_within (lo hi : Z) (o : option Z) : bool :=
  match o with None => true | Some v => in_range lo hi v end.

Definition validate (p : PolicyOverride) : M unit :=
  let ok := none_or_within 0 MAX_METHOD (plo_method p)
            && none_or_within 1 MAX_MIN_SOURCES (plo_min_sources p)
            && none_or_within 1 MAX_FRESHNESS_SECS (plo_freshness_secs p)
            && none_or_within 1 MAX_DEVIATION_BPS (plo_max_deviation_bps p) in
  panic_if (negb ok) InvalidConfiguration.

Definition read k : M (option (interp (ty_of k))) := get_touch k.

Definition write k (value : option (interp (ty_of k))) : M unit :=
  match value with Some p => put k p | None => remove k end.

Definition get_asset_class (asset : Address) : M (option Z) :=
  on ← Flags.on Flags.ASSET_POLICY;
  if negb on then mret None else get (KeyAssetClassId asset).

Definition get_asset_policy (asset : Address) : M (option PolicyOverride) :=
  on ← Flags.on Flags.ASSET_POLICY;
  if negb on then mret None else read (KeyAssetPolicy asset).

(** One pass of the loop over the layers. *)
Definition apply_layer (out : EffectivePolicy) (layer : Z) (p : option PolicyOverride)
    : EffectivePolicy :=
  match p with
  | None => out
  | Some p =>
      let pick {A} (o : option Z) (new old : A) := match o with Some _ => new | None => old end in
      {| ep_method := default (ep_method out) (plo_method p);
         ep_min_sources := default (ep_min_sources out) (plo_min_sources p);
         ep_freshness_secs := default (ep_freshness_secs out) (plo_freshness_secs p);
         ep_max_deviation_bps := default (ep_max_deviation_bps out) (plo_max_deviation_bps p);
         ep_method_layer := pick (plo_method p) layer (ep_method_layer out);
         ep_min_sources_layer := pick (plo_min_sources p) layer (ep_min_sources_layer out);
         ep_freshness_layer := pick (plo_freshness_secs p) layer (ep_freshness_layer out);
         ep_max_deviation_layer := pick (plo_max_deviation_bps p) layer (ep_max_deviation_layer out) |}
  end.

Definition effective_policy (asset : Address) : M EffectivePolicy :=
  asset_p ← get_asset_policy asset;
  class ← get_asset_class asset;
  class_p ← match class with Some c => read (KeyClassPolicy c) | None => mret None end;
  method ← get_aggregation_method;
  min_sources ← get_min_sources_required;
  let out := MkEffectivePolicy method min_sources 0 0
               LAYER_GLOBAL LAYER_GLOBAL LAYER_GLOBAL LAYER_GLOBAL in
  mret (apply_layer (apply_layer out LAYER_CLASS class_p) LAYER_ASSET asset_p).

Definition validate_opt (policy : option PolicyOverride) : M unit :=
  match policy with Some p => validate p | None => mret tt end.

Definition set_asset_policy (asset : Address) (policy : option PolicyOverride) : M unit :=
  admin ← get_admin;
  require_auth admin;;
  check_registered_asset asset;;
  validate_opt policy;;
  Flags.mark Flags.ASSET_POLICY;;
  let key := KeyAssetPolicy asset in
  old ← read key;
  write key policy;;
  publish (MkAggregationPolicyChangedEvent 2 (Some asset) 0 old policy None None).

Definition set_class_policy (class : Z) (policy : option PolicyOverride) : M unit :=
  admin ← get_admin;
  require_auth admin;;
  validate_opt policy;;
  let key := KeyClassPolicy class in
  old ← read key;
  write key policy;;
  publish (MkAggregationPolicyChangedEvent 1 None class old policy None None).

Definition set_asset_class (asset : Address) (class : option Z) : M unit :=
  admin ← get_admin;
  require_auth admin;;
  check_registered_asset asset;;
  old_class ← get_asset_class asset;
  Flags.mark Flags.ASSET_POLICY;;
  let key := KeyAssetClassId asset in
  match class with Some c => set key c | None => remove key end;;
  publish (MkAggregationPolicyChangedEvent 3 (Some asset) 0 None None old_class class).

(** ** The deviation filter *)

Section Deviation.
Context `{BP : BuildProfile}.

Fixpoint deviation_mask_loop (median bound : Z) (prices : list Z) : option (list bool) :=
  match prices with
  | [] => Some []
  | price :: prices =>
      gap ← i128 (price - median);
      gap ← i128 (Z.abs gap);
      mask ← deviation_mask_loop median bound prices;
      Some ((sat_i128 (gap * 10000) <=? bound) :: mask)
  end.

Definition deviation_mask (prices : list Z) (max_bps : Z) : option (list bool) :=
  match prices with
  | [] => Some []
  | _ =>
      median ← compute_median prices;
      size ← i128 (Z.abs median);
      deviation_mask_loop median (sat_i128 (size * max_bps)) prices
  end.

(** The entries the mask keeps. *)
Definition masked {A} (mask : list bool) (xs : list A) : list A :=
  snd <$> filter (λ x, x.1 = true) (zip mask xs).

Definition filter_deviation (prices volumes weights : list Z) (max_bps : Z)
    : option (list Z * list Z * list Z) :=
  match prices with
  | [] => Some ([], [], [])
  | _ =>
      mask ← deviation_mask prices max_bps;
      let pad (d : Z) (xs : list Z) := (λ i, default d (xs !! i)) <$> seq 0 (length prices) in
      Some (masked mask prices, masked mask (pad 0 volumes), masked mask (pad 1 weights))
  end.
End Deviation.

(** ** Precedence of the layers *)

(** The overrides that apply to an asset in a world. *)
Definition asset_policy_of (w : World) (asset : Address) : option PolicyOverride :=
  if Flags.is_on w Flags.ASSET_POLICY then persistent w (KeyAssetPolicy asset) else None.

Definition class_policy_of (w : World) (asset : Address) : option PolicyOverride :=
  if Flags.is_on w Flags.ASSET_POLICY
  then class ← (persistent w (KeyAssetClassId asset) : option Z); persistent w (KeyClassPolicy class)
  else None.

Definition global_policy (w : World) (min_sources : Z) : EffectivePolicy :=
  MkEffectivePolicy (default 0 (persistent w KeyCfgAggregationMethod)) min_sources 0 0
    LAYER_GLOBAL LAYER_GLOBAL LAYER_GLOBAL LAYER_GLOBAL.

Definition resolved (w : World) (asset : Address) (min_sources : Z) : EffectivePolicy :=
  apply_layer (apply_layer (global_policy w min_sources) LAYER_CLASS (class_policy_of w asset))
    LAYER_ASSET (asset_policy_of w asset).

Lemma run_effective_policy asset c w :
  effective_policy asset c w =
    match persistent w KeyCfgMinSources with
    | Some m => Ok (resolved w asset m) w
    | None => Err (Error ConfigMissing)
    end.
Proof.
  unfold effective_policy, get_asset_policy, get_asset_class, read, resolved, class_policy_of,
    asset_policy_of, get_aggregation_method.
  rewrite !run_bind, run_flag_on. destruct (Flags.is_on w Flags.ASSET_POLICY) eqn:Eon; cbn [negb].
  - rewrite run_get_touch. cbv beta iota. rewrite !run_bind, run_flag_on, Eon. cbn [negb].
    rewrite run_get. cbv beta iota. rewrite run_bind.
    destruct (persistent w (KeyAssetClassId asset)) as [class|]; simpl;
      rewrite ?run_get_touch, ?run_ret; cbv beta iota;
      rewrite run_bind, run_get_bump_or; cbv beta iota; rewrite run_bind, run_get_min_sources;
      by destruct (persistent w KeyCfgMinSources).
  - rewrite run_ret. cbv beta iota. rewrite !run_bind, run_flag_on, Eon. cbn [negb].
    rewrite run_ret. cbv beta iota. rewrite run_bind, run_ret. cbv beta iota.
    rewrite run_bind, run_get_bump_or. cbv beta iota. rewrite run_bind, run_get_min_sources.
    by destruct (persistent w KeyCfgMinSources).
Qed.

(** What a layer that leaves a field open falls back to. *)
Lemma apply_layer_spec out layer p :
  ep_method (apply_layer out layer (Some p)) = default (ep_method out) (plo_method p) ∧
  ep_min_sources (apply_layer out layer (Some p)) = default (ep_min_sources out) (plo_min_sources p) ∧
  ep_freshness_secs (apply_layer out layer (Some p)) =
    default (ep_freshness_secs out) (plo_freshness_secs p) ∧
  ep_max_deviation_bps (apply_layer out layer (Some p)) =
    default (ep_max_deviation_bps out) (plo_max_deviation_bps p).
Proof. done. Qed.

Definition policy_ok (p : PolicyOverride) : Prop :=
  (∀ v, plo_method p = Some v → 0 <= v <= MAX_METHOD) ∧
  (∀ v, plo_min_sources p = Some v → 1 <= v <= MAX_MIN_SOURCES) ∧
  (∀ v, plo_freshness_secs p = Some v → 1 <= v <= MAX_FRESHNESS_SECS) ∧
  (∀ v, plo_max_deviation_bps p = Some v → 1 <= v <= MAX_DEVIATION_BPS).

Lemma none_or_within_true lo hi o :
  none_or_within lo hi o = true → ∀ v, o = Some v → lo <= v <= hi.
Proof. intros H v ->. by apply in_range_true. Qed.

Lemma validate_Ok p c w u w' : validate p c w = Ok u w' → w' = w ∧ policy_ok p.
Proof.
  unfold validate. intros H. ok_inv. split; [done|].
  match goal with H : negb _ = false |- _ => apply negb_false_iff in H end.
  repeat match goal with H : _ && _ = true |- _ => apply andb_true_iff in H as [? ?] end.
  split_and!; by apply none_or_within_true.
Qed.

Lemma set_asset_policy_Ok asset o c w u w' :
  set_asset_policy asset o c w = Ok u w' →
  (∀ p, o = Some p → policy_ok p) ∧ persistent w' (KeyAssetPolicy asset) = o ∧
  (∀ k, k ≠ KeyAssetPolicy asset → k ≠ KeyAssetRegistryIndex asset → persistent w' k = persistent w k) ∧
  ∀ bit, Flags.is_on w' bit = Flags.is_on (marked Flags.ASSET_POLICY w) bit.
Proof.
  unfold set_asset_policy. intros H. ok_inv.
  match goal with H : get_admin _ _ = _ |- _ => apply get_admin_Ok in H as [-> _] end.
  match goal with H : check_registered_asset _ _ _ = Ok _ ?w1 |- _ =>
    pose proof (λ k, check_registered_frame _ _ _ _ _ k H) as Hf;
    destruct (check_registered_flags _ _ _ _ _ H) as (Hfl & _ & _) end.
  match goal with H : Flags.mark _ _ _ = _ |- _ => rewrite run_mark in H end. ok_inv.
  match goal with H : read _ _ _ = _ |- _ => unfold read in H end. ok_inv.
  destruct o as [p|]; simpl in *.
  - match goal with H : validate _ _ _ = _ |- _ => apply validate_Ok in H as [-> Hp] end. ok_inv.
    split_and!; [by intros ? [= <-]|by read_store| |].
    + intros k Hk Hk'. read_store. by apply Hf.
    + intros bit. apply is_on_ext. read_store. unfold marked. read_store. by rewrite Hfl.
  - ok_inv. split_and!; [done|by read_store| |].
    + intros k Hk Hk'. read_store. by apply Hf.
    + intros bit. apply is_on_ext. read_store. unfold marked. read_store. by rewrite Hfl.
Qed.

Lemma class_policy_frame w w' asset asset' :
  Flags.is_on w' Flags.ASSET_POLICY = Flags.is_on w Flags.ASSET_POLICY →
  (∀ k, k ≠ KeyAssetPolicy asset → k ≠ KeyAssetRegistryIndex asset → persistent w' k = persistent w k) →
  class_policy_of w' asset' = class_policy_of w asset'.
Proof.
  intros Hon Hf. unfold class_policy_of. rewrite Hon. case_if; [|done].
  rewrite Hf by done. by destruct (persistent w (KeyAssetClassId asset')); simpl; rewrite ?Hf.
Qed.


