(* ===== verification/PriceBounds.v ===== *)
(** * [price_bounds.rs]: publication guards and two-tier price bounds

    One word of guard bits says which optional publication paths are in use.
    A configured asset has soft bounds, to which a price is clamped, inside
    hard bounds, beyond which it is rejected.  What [apply] lets through is
    shown to lie within the soft bounds. *)
From stdpp Require Import base list strings.
From S2P Require Import Prelude Machine Types Host AuditLog Config Admin Assets.
#[local] Open Scope Z_scope.
#[local] Set Default Goal Selector "!".

Definition validate (t : BoundsTier) : M unit :=
  panic_if ((bt_soft_min t <=? 0) || (bt_soft_max t <? bt_soft_min t) || (bt_hard_min t <=? 0)
            || (bt_soft_min t <? bt_hard_min t) || (bt_hard_max t <? bt_soft_max t))
    InvalidBoundOrdering.

(** [PublicationGuards::default()] *)
Definition no_guards : PublicationGuards :=
  MkPublicationGuards false false false false false false false false.

Definition guards : M PublicationGuards :=
  on ← Flags.on Flags.PUBLICATION_GUARDS;
  if negb on then mret no_guards else get_or KeyPublicationGuards no_guards.

Definition update_guards (f : PublicationGuards → PublicationGuards) : M unit :=
  g ← guards;
  Flags.mark Flags.PUBLICATION_GUARDS;;
  put KeyPublicationGuards (f g).

Definition note_bounds_configured : M unit := update_guards (λ g,
  MkPublicationGuards (pg_any_source_excluded g) true (pg_any_deferral_configured g)
    (pg_any_corrections_enabled g) (pg_any_tier_assigned g) (pg_any_sanity_relations g)
    (pg_any_freshness_window g) (pg_scorecards_enabled g)).

Definition note_deferral_configured : M unit := update_guards (λ g,
  MkPublicationGuards (pg_any_source_excluded g) (pg_any_bounds_configured g) true
    (pg_any_corrections_enabled g) (pg_any_tier_assigned g) (pg_any_sanity_relations g)
    (pg_any_freshness_window g) (pg_scorecards_enabled g)).

Definition note_correction_scope_configured : M unit := update_guards (λ g,
  MkPublicationGuards (pg_any_source_excluded g) (pg_any_bounds_configured g)
    (pg_any_deferral_configured g) true (pg_any_tier_assigned g) (pg_any_sanity_relations g)
    (pg_any_freshness_window g) (pg_scorecards_enabled g)).

Definition note_source_excluded : M unit := update_guards (λ g,
  MkPublicationGuards true (pg_any_bounds_configured g) (pg_any_deferral_configured g)
    (pg_any_corrections_enabled g) (pg_any_tier_assigned g) (pg_any_sanity_relations g)
    (pg_any_freshness_window g) (pg_scorecards_enabled g)).

Definition note_tier_assigned : M unit := update_guards (λ g,
  MkPublicationGuards (pg_any_source_excluded g) (pg_any_bounds_configured g)
    (pg_any_deferral_configured g) (pg_any_corrections_enabled g) true (pg_any_sanity_relations g)
    (pg_any_freshness_window g) (pg_scorecards_enabled g)).

Definition note_sanity_relation : M unit := update_guards (λ g,
  MkPublicationGuards (pg_any_source_excluded g) (pg_any_bounds_configured g)
    (pg_any_deferral_configured g) (pg_any_corrections_enabled g) (pg_any_tier_assigned g) true
    (pg_any_freshness_window g) (pg_scorecards_enabled g)).

Definition note_freshness_window : M unit := update_guards (λ g,
  MkPublicationGuards (pg_any_source_excluded g) (pg_any_bounds_configured g)
    (pg_any_deferral_configured g) (pg_any_corrections_enabled g) (pg_any_tier_assigned g)
    (pg_any_sanity_relations g) true (pg_scorecards_enabled g)).

Definition set_scorecards_enabled (enabled : bool) : M unit := update_guards (λ g,
  MkPublicationGuards (pg_any_source_excluded g) (pg_any_bounds_configured g)
    (pg_any_deferral_configured g) (pg_any_corrections_enabled g) (pg_any_tier_assigned g)
    (pg_any_sanity_relations g) (pg_any_freshness_window g) enabled).

Definition set_bounds (asset : Address) (tier : BoundsTier) : M unit :=
  admin ← get_admin;
  require_auth admin;;
  check_registered_asset asset;;
  validate tier;;
  put (KeyAssetBoundsTier asset) tier;;
  note_bounds_configured.

Definition get_bounds (asset : Address) : M (option BoundsTier) :=
  get_touch (KeyAssetBoundsTier asset).

Definition clear_bounds (asset : Address) : M unit :=
  admin ← get_admin;
  require_auth admin;;
  check_registered_asset asset;;
  remove (KeyAssetBoundsTier asset).

(** ** Evaluation *)

Record BoundDecision := MkBoundDecision {
  bd_price : Z;
  bd_clamped : bool;
  bd_rejected : bool;
  bd_reason_code : Z
}.

Definition evaluate_tier (t : BoundsTier) (price : Z) : BoundDecision :=
  if price <? bt_hard_min t then
    MkBoundDecision price false true (BoundReason_as_u32 ReasonRejectedBelowHardMin)
  else if bt_hard_max t <? price then
    MkBoundDecision price false true (BoundReason_as_u32 ReasonRejectedAboveHardMax)
  else if price <? bt_soft_min t then
    MkBoundDecision (bt_soft_min t) true false (BoundReason_as_u32 ReasonClampedToSoftMin)
  else if bt_soft_max t <? price then
    MkBoundDecision (bt_soft_max t) true false (BoundReason_as_u32 ReasonClampedToSoftMax)
  else MkBoundDecision price false false (BoundReason_as_u32 ReasonInBounds).

Definition evaluate (asset : Address) (price : Z) : M BoundDecision :=
  let in_bounds := MkBoundDecision price false false (BoundReason_as_u32 ReasonInBounds) in
  g ← guards;
  if negb (pg_any_bounds_configured g) then mret in_bounds
  else
    bounds ← get_bounds asset;
    mret (match bounds with Some t => evaluate_tier t price | None => in_bounds end).

Definition write_status (asset : Address) (raw price reason : Z) (clamped : bool) : M unit :=
  ledger ← ledger_sequence;
  put (KeyAssetBoundStatus asset)
    (MkBoundStatus raw price clamped
       (negb clamped && (BoundReason_as_u32 ReasonRejectedBelowHardMin <=? reason)) reason ledger).

Definition apply (asset : Address) (raw_price : Z) : M (option Z * bool) :=
  g ← guards;
  if negb (pg_any_bounds_configured g) then mret (Some raw_price, false)
  else
    d ← evaluate asset raw_price;
    ledger ← ledger_sequence;
    if bd_rejected d then
      aggregate ← get (KeyAggregate asset);
      let last_published := match aggregate with Some a => ap_price a | None => 0 end in
      publish (MkPriceBoundRejectedEvent asset raw_price (bd_reason_code d) last_published ledger);;
      write_status asset raw_price raw_price (bd_reason_code d) false;;
      mret (None, true)
    else
      (if bd_clamped d
       then publish (MkPriceClampedEvent asset raw_price (bd_price d) (bd_reason_code d) ledger)
       else mret tt);;
      write_status asset raw_price (bd_price d) (bd_reason_code d) (bd_clamped d);;
      mret (Some (bd_price d), bd_clamped d).

Definition get_status (asset : Address) : M (option BoundStatus) :=
  get_touch (KeyAssetBoundStatus asset).
