(* ===== verification/RiskTier.v ===== *)
(** * [risk_tier.rs]: risk tiers

    A tier assigned to an asset supplies the aggregation parameters its own
    policy leaves open; enforcement makes a tier mandatory for publication. *)
From stdpp Require Import base list strings.
From S2P Require Import Prelude Machine Types Host AuditLog Config Admin Assets PriceBounds Policy.
#[local] Open Scope Z_scope.
#[local] Set Default Goal Selector "!".

Definition MAX_REASON_LEN : Z := 256.

Definition tier_from_u32 (v : Z) : option RiskTier :=
  if v =? 0 then Some Tier1BlueChip
  else if v =? 1 then Some Tier2Standard
  else if v =? 2 then Some Tier3Thin
  else if v =? 3 then Some Tier4Speculative
  else None.

(** [TIER_PARAMS[tier as usize]] *)
Definition params (tier : RiskTier) : TierParams :=
  match tier with
  | Tier1BlueChip => MkTierParams 0 5 60 100
  | Tier2Standard => MkTierParams 0 3 300 300
  | Tier3Thin => MkTierParams 2 2 1800 1000
  | Tier4Speculative => MkTierParams 2 2 900 3000
  end.

Definition get_tier (asset : Address) : M (option RiskTier) :=
  on ← Flags.on Flags.RISK_TIER;
  if negb on then mret None
  else
    raw ← get_touch (KeyAssetRiskTier asset);
    mret ((raw : option Z) ≫= tier_from_u32).

Definition require_tier (asset : Address) : M bool :=
  tier ← get_tier asset; mret (bool_decide (is_Some tier)).

Definition set_tier (asset : Address) (tier : option RiskTier) (reason : string) : M unit :=
  admin ← get_admin;
  require_auth admin;;
  check_registered_asset asset;;
  panic_if (MAX_REASON_LEN <? Z.of_nat (String.length reason)) InvalidConfiguration;;
  old_tier ← get_tier asset;
  let key := KeyAssetRiskTier asset in
  match tier with
  | Some t =>
      Flags.mark Flags.RISK_TIER;;
      put key (RiskTier_as_u32 t);;
      PriceBounds.note_tier_assigned;;
      if 0 <? tp_freshness_secs (params t) then PriceBounds.note_freshness_window else mret tt
  | None => remove key
  end;;
  ledger ← ledger_sequence;
  publish (MkAssetTierChangedEvent asset admin (RiskTier_as_u32 <$> old_tier)
             (RiskTier_as_u32 <$> tier) reason ledger).

Definition resolve (asset : Address) (over : PolicyOverride) : M (option ResolvedTier) :=
  tier ← get_tier asset;
  mret (match tier with
        | None => None
        | Some tier =>
            let base := params tier in
            let effective := MkTierParams (default (tp_method base) (plo_method over))
              (default (tp_min_sources base) (plo_min_sources over))
              (default (tp_freshness_secs base) (plo_freshness_secs over))
              (default (tp_max_deviation_bps base) (plo_max_deviation_bps over)) in
            let overridden := bool_decide (is_Some (plo_method over))
              || bool_decide (is_Some (plo_min_sources over))
              || bool_decide (is_Some (plo_freshness_secs over))
              || bool_decide (is_Some (plo_max_deviation_bps over)) in
            Some (MkResolvedTier tier base effective overridden)
        end).

Definition enforcement_enabled : M bool := g ← PriceBounds.guards; mret (pg_any_tier_assigned g).

Definition set_enforced_flag (enabled : bool) : M unit :=
  let key := KeyRiskTierEnforcement in
  if enabled then Flags.mark Flags.RISK_TIER;; put key true else remove key.

Definition set_enforcement (enabled : bool) : M unit :=
  admin ← get_admin;
  require_auth admin;;
  (if enabled then
     assets ← read_registered_assets;
     for_each assets (λ a, tier ← get_tier a;
       match tier with None => panic_with_error InvalidRiskTier | Some _ => mret tt end)
   else mret tt);;
  set_enforced_flag enabled.

Definition enforcement_flag : M bool :=
  on ← Flags.on Flags.RISK_TIER;
  if negb on then mret false else get_or KeyRiskTierEnforcement false.

Definition apply_to_policy (asset : Address) (policy : EffectivePolicy) : M EffectivePolicy :=
  tier ← get_tier asset;
  match tier with
  | None => mret policy
  | Some tier =>
      let base := params tier in
      over ← Policy.get_asset_policy asset;
      let pick (field : PolicyOverride → option Z) (set_by_asset base : Z) :=
        match over ≫= field with None => base | Some _ => set_by_asset end in
      mret
        {| ep_method := pick plo_method (ep_method policy) (tp_method base);
           ep_min_sources := pick plo_min_sources (ep_min_sources policy) (tp_min_sources base);
           ep_freshness_secs :=
             pick plo_freshness_secs (ep_freshness_secs policy) (tp_freshness_secs base);
           ep_max_deviation_bps :=
             pick plo_max_deviation_bps (ep_max_deviation_bps policy) (tp_max_deviation_bps base);
           ep_method_layer := ep_method_layer policy;
           ep_min_sources_layer := ep_min_sources_layer policy;
           ep_freshness_layer := ep_freshness_layer policy;
           ep_max_deviation_layer := ep_max_deviation_layer policy |}
  end.
