(* ===== verification/FreshnessQuorum.v ===== *)
(** * [freshness_quorum.rs]: freshness windows and the quorum of fresh sources

    The window of an asset is its own, or its tier's, or the default; only
    submissions inside it count, and every round records how many did. *)
From stdpp Require Import base list strings.
From S2P Require Import Prelude Machine Types Host AuditLog Config Admin Assets PriceBounds Policy RiskTier.
#[local] Open Scope Z_scope.
#[local] Set Default Goal Selector "!".

Definition MAX_FRESHNESS_WINDOW_SECS : Z := 604800.

Definition default_window : M Z :=
  on ← Flags.on Flags.FRESHNESS_WINDOW;
  if negb on then mret 0 else get_or KeyDefaultFreshnessWindow 0.

Definition window_for (asset : Address) : M (Z * bool) :=
  let key := KeyAssetFreshnessWindow asset in
  on ← Flags.on Flags.FRESHNESS_WINDOW;
  own ← (if on : bool then has key else mret false);
  if own : bool then
    extend_ttl key;;
    v ← get_or key 0;
    mret (v : Z, true)
  else
    let no_overrides := MkPolicyOverride None None None None in
    resolved ← RiskTier.resolve asset no_overrides;
    let secs := match resolved with Some r => tp_freshness_secs (rt_effective r) | None => 0 end in
    if 0 <? secs then mret (secs, true)
    else w ← default_window; mret (w, false).

Definition validate (secs : Z) : M unit :=
  panic_if (MAX_FRESHNESS_WINDOW_SECS <? secs) InvalidFreshnessWindow.

Definition set_default_window (secs : Z) : M unit :=
  admin ← get_admin;
  require_auth admin;;
  validate secs;;
  Flags.mark Flags.FRESHNESS_WINDOW;;
  (if secs =? 0 then remove KeyDefaultFreshnessWindow else put KeyDefaultFreshnessWindow secs);;
  PriceBounds.note_freshness_window.

Definition set_asset_window (asset : Address) (secs : Z) : M unit :=
  admin ← get_admin;
  require_auth admin;;
  check_registered_asset asset;;
  validate secs;;
  Flags.mark Flags.FRESHNESS_WINDOW;;
  (if secs =? 0 then remove (KeyAssetFreshnessWindow asset)
   else put (KeyAssetFreshnessWindow asset) secs);;
  PriceBounds.note_freshness_window.

Definition is_fresh (entry : PriceEntry) (window_secs : Z) : M bool :=
  if window_secs =? 0 then mret true
  else now ← ledger_timestamp; mret (sat_u64 (now - pe_ledger_timestamp entry) <=? window_secs).

Definition write_status (asset : Address) (status : FreshnessStatus) : M unit :=
  put (KeyAssetFreshnessStatus asset) status.

Definition record_round (asset : Address) (fresh stale quorum : Z) : M unit :=
  w ← window_for asset;
  let window := fst w in
  let overridden := snd w in
  now ← ledger_timestamp;
  let state := if (fresh =? 0) && (stale =? 0) then FreshnessAbsent
               else if quorum <=? fresh then FreshnessFresh
               else FreshnessStale in
  ledger ← ledger_sequence;
  publish (MkFreshnessFilteredEvent asset fresh stale quorum window overridden
             (bool_decide (state = FreshnessFresh)) now ledger);;
  write_status asset (MkFreshnessStatus asset fresh stale quorum window overridden state now ledger).

Definition get_status (asset : Address) : M (option FreshnessStatus) :=
  get_touch (KeyAssetFreshnessStatus asset).
