(* ===== verification/InfluenceCap.v ===== *)
(** * [influence_cap.rs]: a cap on the influence of one source

    The weights of a round are scaled down until no source holds more than
    the configured share of the total; when that is impossible every source
    weighs the same.  The cap is shown to be met by every weight vector it
    returns for three or more sources. *)
From stdpp Require Import base list strings.
From S2P Require Import Prelude Machine Types Host AuditLog Config Admin.
#[local] Open Scope Z_scope.
#[local] Set Default Goal Selector "!".

Definition BPS : Z := 10000.
Definition DEFAULT_CAP_BPS : Z := 5000.
Definition MIN_CAP_BPS : Z := 1000.

Definition get_cap_bps : M Z :=
  on ← Flags.on Flags.INFLUENCE_CAP;
  if negb on then mret DEFAULT_CAP_BPS else get_or KeyINFL_CAP DEFAULT_CAP_BPS.

Definition set_cap_bps (cap_bps : Z) : M unit :=
  admin ← get_admin;
  require_auth admin;;
  panic_if (negb (in_range MIN_CAP_BPS BPS cap_bps)) InvalidConfiguration;;
  Flags.mark Flags.INFLUENCE_CAP;;
  put KeyINFL_CAP cap_bps.

Section Cap.
Context `{BP : BuildProfile}.

(** [weights.iter().map(|w| *w as u64).sum()] *)
Fixpoint sum_weights (acc : Z) (weights : list Z) : option Z :=
  match weights with
  | [] => Some acc
  | w :: weights => acc ← u64 (acc + w); sum_weights acc weights
  end.

Fixpoint within_share (cap_bps total : Z) (weights : list Z) : option bool :=
  match weights with
  | [] => Some true
  | w :: weights =>
      lhs ← u64 (w * BPS);
      rhs ← u64 (cap_bps * total);
      if lhs <=? rhs then within_share cap_bps total weights else Some false
  end.

Definition within_cap (weights : list Z) (cap_bps : Z) : option bool :=
  total ← sum_weights 0 weights;
  within_share cap_bps total weights.

(** One weight of a capping pass, and whether it changed. *)
Definition cap_one (cap_bps total w : Z) : option (Z * bool) :=
  others ← u64 (total - w);
  scaled ← u64 (others * cap_bps);
  rest ← u32 (BPS - cap_bps);
  max ← udiv scaled rest;
  let max := as_u32 max in
  Some (if max <? w then (Z.max max 1, true) else (w, false)).

Definition cap_pass (cap_bps : Z) (weights : list Z) : option (list Z * bool) :=
  total ← sum_weights 0 weights;
  capped ← mapM (cap_one cap_bps total) weights;
  Some (fst <$> capped, existsb snd capped).

Fixpoint cap_passes (n : nat) (cap_bps : Z) (weights : list Z) : option (list Z) :=
  match n with
  | O => Some weights
  | S n =>
      '(weights', changed) ← cap_pass cap_bps weights;
      if changed : bool then cap_passes n cap_bps weights' else Some weights'
  end.

(** [weights.iter_mut().for_each(|w| *w = 1)] *)
Definition all_one (weights : list Z) : list Z := (λ _, 1) <$> weights.

Definition apply_cap (weights : list Z) (cap_bps : Z) : option (list Z) :=
  let n := length weights in
  if (n <? 3)%nat || (BPS <=? cap_bps) then Some weights
  else
    share ← u64 (Z.of_nat n * cap_bps);
    if share <? BPS then Some (all_one weights)
    else
      weights ← cap_passes (n * 4) cap_bps weights;
      ok ← within_cap weights cap_bps;
      Some (if ok : bool then weights else all_one weights).

Definition influence_bps (weights : list Z) : option (list Z) :=
  total ← sum_weights 0 weights;
  mapM (λ w, if total =? 0 then Some 0
             else scaled ← u64 (w * BPS); q ← udiv scaled total; Some (as_u32 q)) weights.
End Cap.

(** ** The cap is met *)

Definition total_of (weights : list Z) : Z := foldr Z.add 0 weights.

Definition weight_ok (w : Z) : Prop := 1 <= w <= U32_MAX.

Section Met.
Context `{BP : BuildProfile}.

Lemma total_of_bounds weights :
  Forall weight_ok weights →
  Z.of_nat (length weights) <= total_of weights <= Z.of_nat (length weights) * U32_MAX.
Proof. induction 1 as [|w ws [] _ IH]; simpl; lia. Qed.

Lemma total_of_elem weights w : Forall weight_ok weights → w ∈ weights → w <= total_of weights.
Proof.
  induction 1 as [|x ws [] Hws IH]; intros Hw; [by apply not_elem_of_nil in Hw|].
  pose proof (total_of_bounds ws Hws). simpl. apply elem_of_cons in Hw as [->|Hw]; [lia|].
  specialize (IH Hw). lia.
Qed.

Lemma sum_weights_total weights : ∀ acc,
  Forall weight_ok weights → 0 <= acc → acc + total_of weights <= U64_MAX →
  sum_weights acc weights = Some (acc + total_of weights).
Proof.
  induction weights as [|w ws IH]; intros acc Hok Hacc Hmax; simpl; [f_equal; lia|].
  inversion_clear Hok as [|? ? [] Hws]. simpl in Hmax. pose proof (total_of_bounds ws Hws).
  rewrite u64_ok by (unfold in_u64; lia). obind. rewrite IH by (done || lia). f_equal. lia.
Qed.

(** The bounds under which no sum or product of the module overflows. *)
Definition round_ok (cap_bps : Z) (weights : list Z) : Prop :=
  Forall weight_ok weights ∧ (length weights <= 128)%nat ∧ 0 <= cap_bps <= BPS.

Lemma round_total cap_bps weights :
  round_ok cap_bps weights → sum_weights 0 weights = Some (total_of weights).
Proof.
  intros (Hok & Hn & _). pose proof (total_of_bounds _ Hok).
  rewrite sum_weights_total by (done || unfold U32_MAX, U64_MAX in *; lia). done.
Qed.

Lemma within_share_iff cap_bps total weights :
  Forall weight_ok weights → 0 <= cap_bps * total <= U64_MAX →
  ∃ b, within_share cap_bps total weights = Some b ∧
    (b = true ↔ Forall (λ w, w * BPS <= cap_bps * total) weights).
Proof.
  intros Hok Ht. induction Hok as [|w ws Hw _ IH]; simpl; [by exists true|].
  rewrite (u64_ok (w * BPS)) by (unfold in_u64, weight_ok, U64_MAX, U32_MAX, BPS in *; lia). obind.
  rewrite u64_ok by exact Ht. obind. destruct (w * BPS <=? cap_bps * total) eqn:E; bool_hyps.
  - destruct IH as (b & -> & Hb). exists b. rewrite Forall_cons. split; [done|]. rewrite Hb. split; [by split|by intros []].
  - exists false. rewrite Forall_cons. split; [done|]. split; [done|]. intros []. lia.
Qed.

Lemma round_within cap_bps weights :
  round_ok cap_bps weights →
  ∃ b, within_cap weights cap_bps = Some b ∧
    (b = true ↔ Forall (λ w, w * BPS <= cap_bps * total_of weights) weights).
Proof.
  intros Hr. pose proof Hr as (Hok & Hn & Hc). unfold within_cap.
  rewrite (round_total cap_bps) by done. obind. apply within_share_iff; [done|].
  pose proof (total_of_bounds _ Hok). unfold U64_MAX, U32_MAX, BPS in *. nia.
Qed.

Lemma cap_one_ok cap_bps weights w :
  round_ok cap_bps weights → cap_bps < BPS → w ∈ weights →
  ∃ w' b, cap_one cap_bps (total_of weights) w = Some (w', b) ∧ weight_ok w'.
Proof.
  intros (Hok & Hn & Hc) Hlt Hw. pose proof (total_of_bounds _ Hok).
  pose proof (total_of_elem _ _ Hok Hw). pose proof (proj1 (Forall_forall _ _) Hok _ Hw) as [Hw1 Hw2].
  unfold cap_one. unfold U32_MAX, BPS in *.
  rewrite u64_ok by (unfold in_u64, U64_MAX; lia). obind.
  rewrite u64_ok by (unfold in_u64, U64_MAX; nia). obind.
  rewrite u32_ok by (unfold in_u32, U32_MAX; lia). obind. unfold udiv.
  rewrite (proj2 (Z.eqb_neq _ _)) by lia. obind.
  set (m := as_u32 _). assert (0 <= m < 0 + 2 ^ 32) by (apply (wrap_range 0 32); lia).
  case_if; eexists _, _; (split; [done|]); unfold weight_ok, U32_MAX; bool_hyps; lia.
Qed.

Lemma cap_pass_ok cap_bps weights :
  round_ok cap_bps weights → cap_bps < BPS →
  ∃ weights' b, cap_pass cap_bps weights = Some (weights', b) ∧ round_ok cap_bps weights' ∧
    length weights' = length weights.
Proof.
  intros Hr Hlt. unfold cap_pass. rewrite (round_total cap_bps) by done. obind.
  assert (∃ l, mapM (cap_one cap_bps (total_of weights)) weights = Some l) as [l Hl].
  { apply mapM_is_Some, Forall_forall. intros w Hw.
    destruct (cap_one_ok _ _ _ Hr Hlt Hw) as (w1 & b & E & _). exists (w1, b). exact E. }
  rewrite Hl. obind. eexists _, _. split; [done|].
  pose proof (length_mapM _ _ _ Hl) as Hlen. split; [|by rewrite length_fmap].
  destruct Hr as (Hok & Hn & Hc). split; [|by rewrite length_fmap, <- Hlen].
  apply Forall_fmap, Forall_forall. intros [w' b] Hw'.
  apply mapM_Some in Hl. destruct (list_elem_of_lookup_1 _ _ Hw') as [i Hi].
  destruct (Forall2_lookup_r _ _ _ _ _ Hl Hi) as (w & Hwi & E).
  destruct (cap_one_ok cap_bps weights w) as (w1 & b1 & E1 & Hw1); [done|done| |].
  { by eapply list_elem_of_lookup_2. }
  simpl in *. congruence.
Qed.

Lemma cap_passes_ok n : ∀ cap_bps weights,
  round_ok cap_bps weights → cap_bps < BPS →
  ∃ weights', cap_passes n cap_bps weights = Some weights' ∧ round_ok cap_bps weights' ∧
    length weights' = length weights.
Proof.
  induction n as [|n IH]; intros cap_bps weights Hr Hlt; simpl; [by exists weights|].
  destruct (cap_pass_ok _ _ Hr Hlt) as (weights1 & b & -> & Hr1 & Hl1). obind.
  destruct b; [|by exists weights1].
  destruct (IH _ _ Hr1 Hlt) as (weights2 & -> & Hr2 & Hl2). exists weights2. by rewrite Hl2.
Qed.

Lemma all_one_total weights : total_of (all_one weights) = Z.of_nat (length weights).
Proof. induction weights as [|w ws IH]; simpl; [done|]. rewrite IH. lia. Qed.

Lemma all_one_ok cap_bps weights : round_ok cap_bps weights → round_ok cap_bps (all_one weights).
Proof.
  intros (_ & Hn & Hc). split_and!; [|unfold all_one; rewrite length_fmap; lia|lia..].
  apply Forall_fmap, Forall_forall. intros w _. unfold weight_ok, U32_MAX. simpl. lia.
Qed.

Lemma all_one_share cap_bps weights :
  BPS <= Z.of_nat (length weights) * cap_bps →
  Forall (λ w, w * BPS <= cap_bps * total_of (all_one weights)) (all_one weights).
Proof. intros H. apply Forall_fmap, Forall_forall. intros w _. simpl. rewrite all_one_total. lia. Qed.

Lemma influence_bps_ok cap_bps weights :
  round_ok cap_bps weights → weights ≠ [] →
  influence_bps weights = Some ((λ w, w * BPS / total_of weights) <$> weights).
Proof.
  intros Hr Hne. pose proof Hr as (Hok & Hn & Hc). unfold influence_bps.
  rewrite (round_total cap_bps) by done. obind.
  assert (0 < total_of weights) as Ht.
  { pose proof (total_of_bounds _ Hok). destruct weights; [done|]. simpl in *. lia. }
  apply mapM_Some_2, Forall2_fmap_r, Forall_Forall2_diag, Forall_forall. intros w Hw.
  pose proof (proj1 (Forall_forall _ _) Hok _ Hw) as [Hw1 Hw2].
  pose proof (total_of_elem _ _ Hok Hw).
  rewrite (proj2 (Z.eqb_neq _ _)) by lia. unfold U32_MAX, BPS in *.
  rewrite u64_ok by (unfold in_u64, U64_MAX; lia). obind. unfold udiv.
  rewrite (proj2 (Z.eqb_neq _ _)) by lia. obind. f_equal. unfold as_u32. apply wrap_id.
  assert (0 <= w * 10000 / total_of weights) by (apply Z.div_pos; lia).
  assert (w * 10000 / total_of weights <= 10000) by (apply Z.div_le_upper_bound; lia). lia.
Qed.

(** C10. The influence cap is met.  For a round of at most 128 positive weights
    and a cap between 0 and 10000 bps, [apply_cap] never panics in either
    build, whatever its bounded number of passes reaches, and returns one
    positive weight per source.  With three sources or more and a cap they can
    meet ([n * cap >= 10000]), every returned weight is at most [cap / 10000] of
    their total, and the influence of a source that the round publishes is
    at most [cap].  A cap that [n] sources cannot meet makes their weights
    equal. *)
Theorem influence_cap_met cap_bps weights :
  round_ok cap_bps weights →
  ∃ weights', apply_cap weights cap_bps = Some weights' ∧
    round_ok cap_bps weights' ∧ length weights' = length weights ∧
    ((3 <= length weights)%nat → cap_bps < BPS →
     if BPS <=? Z.of_nat (length weights) * cap_bps then
       Forall (λ w, w * BPS <= cap_bps * total_of weights') weights' ∧
       ∃ influence, influence_bps weights' = Some influence ∧ Forall (λ i, i <= cap_bps) influence
     else weights' = all_one weights).
Proof.
  intros Hr. pose proof Hr as (Hok & Hn & Hc). unfold apply_cap.
  destruct (length weights <? 3)%nat eqn:E3; simpl.
  { exists weights. split_and!; [done..|]. apply Nat.ltb_lt in E3. lia. }
  apply Nat.ltb_ge in E3. destruct (BPS <=? cap_bps) eqn:Ecap; bool_hyps.
  { exists weights. split_and!; [done..|]. lia. }
  assert (0 <= Z.of_nat (length weights) * cap_bps <= 128 * BPS) by (unfold BPS in *; nia).
  rewrite u64_ok by (unfold in_u64, U64_MAX, BPS in *; lia). obind.
  destruct (Z.ltb_spec (Z.of_nat (length weights) * cap_bps) BPS) as [Hs|Hs].
  { exists (all_one weights). split_and!; [done|by apply all_one_ok|by apply length_fmap|].
    intros _ _. by rewrite (proj2 (Z.leb_gt _ _)) by lia. }
  rewrite (proj2 (Z.leb_le _ _)) by lia.
  destruct (cap_passes_ok (length weights * 4) _ _ Hr ltac:(lia)) as (ws & -> & Hr1 & Hl). obind.
  destruct (round_within _ _ Hr1) as (b & -> & Hb). obind.
  exists (if b : bool then ws else all_one ws).
  assert (round_ok cap_bps (if b : bool then ws else all_one ws)) as Hr'.
  { destruct b; [done|by apply all_one_ok]. }
  assert (Forall (λ w, w * BPS <= cap_bps * total_of (if b : bool then ws else all_one ws))
            (if b : bool then ws else all_one ws)) as Hshare.
  { destruct b; [by apply Hb|]. apply all_one_share. by rewrite Hl. }
  split_and!; [done|done|destruct b; [done|by rewrite <- Hl; apply length_fmap]|]. intros _ _.
  split; [done|]. eexists. split; [eapply influence_bps_ok; [done|]|].
  { destruct b; destruct ws; simpl in *; (done || lia). }
  apply Forall_fmap. eapply Forall_impl; [exact Hshare|]. intros w Hw. simpl in *.
  pose proof (total_of_bounds _ (proj1 Hr')).
  apply Z.div_le_upper_bound; [|lia]. destruct b; [|rewrite all_one_total]; lia.
Qed.
End Met.

Lemma influence_cap_met_witness :
  round_ok 5000 [1000; 10; 20] ∧
  ∃ weights', @apply_cap Wrapping [1000; 10; 20] 5000 = Some weights' ∧
    Forall (λ w, w * BPS <= 5000 * total_of weights') weights'.
Proof.
  assert (round_ok 5000 [1000; 10; 20]) as H.
  { split_and!; [|simpl; lia|unfold BPS; lia..]. repeat constructor; unfold U32_MAX; simpl; lia. }
  split; [exact H|].
  destruct (@influence_cap_met Wrapping 5000 [1000; 10; 20] H) as (ws & E & _ & _ & Hshare).
  exists ws. split; [exact E|]. apply Hshare; [simpl; lia|reflexivity].
Defined.
