(* ===== verification/FreshnessWeight.v ===== *)
(** * [freshness_weight.rs]: weights that decay with the age of a submission

    A submission weighs [W_MAX] when fresh and decays linearly to the minimum
    weight of the asset's curve; aggregation method 4 takes the weighted median
    of the capped weights. *)
From stdpp Require Import base list strings.
From S2P Require Import Prelude Machine ReferencePricing CorePricing StorageMath Types Host AuditLog Config Admin Assets Frames InfluenceCap.
#[local] Open Scope Z_scope.
#[local] Set Default Goal Selector "!".

Definition W_MAX : Z := 1000.
Definition DEFAULT_WINDOW_SECS : Z := 300.
Definition DEFAULT_MIN_WEIGHT : Z := 100.
Definition MAX_WINDOW_SECS : Z := 86400.
Definition MAX_ENTRIES : nat := 128.

(** [sort_unstable_by_key(|&(p, _)| p)]: the order of equal keys is open, see
    [CorePricing.KeySort] for what the sort promises. *)
Class UnstableSort := unstable_sort_by_key : list (Z * Z) → list (Z * Z).

Section Weights.
Context `{BP : BuildProfile} `{US : UnstableSort}.

Definition weight_for_age (age_secs : Z) (curve : FreshnessCurve) : option Z :=
  let age := Z.min age_secs (fc_window_secs curve) in
  span ← u32 (W_MAX - fc_min_weight curve);
  scaled ← u64 (span * age);
  lost ← udiv scaled (fc_window_secs curve);
  u32 (W_MAX - as_u32 lost).

Definition default_curve : FreshnessCurve := MkFreshnessCurve DEFAULT_WINDOW_SECS DEFAULT_MIN_WEIGHT.

Definition get_curve (asset : Address) : M FreshnessCurve :=
  on ← Flags.on Flags.FRESHNESS_CURVE;
  if negb on then mret default_curve
  else c ← get_touch (KeyFreshnessCurve asset); mret (default default_curve c).

Definition set_curve (asset : Address) (window_secs min_weight : Z) : M unit :=
  admin ← get_admin;
  require_auth admin;;
  panic_if ((window_secs =? 0) || (MAX_WINDOW_SECS <? window_secs) || (min_weight =? 0)
            || (W_MAX <? min_weight)) InvalidConfiguration;;
  Flags.mark Flags.FRESHNESS_CURVE;;
  put (KeyFreshnessCurve asset) (MkFreshnessCurve window_secs min_weight).

(** One weight of a pass of [cap_weights]. *)
Definition cap_weight (total w : Z) : option (Z * bool) :=
  others ← u64 (total - w);
  let others := as_u32 others in
  Some (if others <? w then (others, true) else (w, false)).

Fixpoint cap_weights_loop (n : nat) (weights : list Z) : option (list Z) :=
  match n with
  | O => Some weights
  | S n =>
      total ← InfluenceCap.sum_weights 0 weights;
      capped ← mapM (cap_weight total) weights;
      if existsb snd capped then cap_weights_loop n (fst <$> capped) else Some (fst <$> capped)
  end.

Definition cap_weights (weights : list Z) : option (list Z) :=
  let n := length weights in
  if (n <? 3)%nat then Some weights else cap_weights_loop n weights.

(** The cumulative walk; [last] is the price of the last pair passed. *)
Fixpoint median_walk (total cumulative last : Z) (pairs : list (Z * Z)) : option Z :=
  match pairs with
  | [] => Some last
  | (price, weight) :: rest =>
      cumulative ← u64 (cumulative + weight);
      twice ← u64 (cumulative * 2);
      if total <=? twice then
        match rest with
        | (next, _) :: _ => if twice =? total then midpoint price next else Some price
        | [] => Some price
        end
      else median_walk total cumulative price rest
  end.

Definition weighted_median (prices weights : list Z) : option Z :=
  let n := Nat.min (Nat.min (length prices) (length weights)) MAX_ENTRIES in
  if (n =? 0)%nat then Some 0
  else
    let pairs := take MAX_ENTRIES (zip_with (λ price weight, (price, Z.max weight 1)) prices weights) in
    total ← InfluenceCap.sum_weights 0 (snd <$> pairs);
    median_walk total 0 0 (unstable_sort_by_key pairs).

Definition entry_weight (entry : PriceEntry) (curve : FreshnessCurve) : M Z :=
  now ← ledger_timestamp;
  lift (weight_for_age (sat_u64 (now - pe_ledger_timestamp entry)) curve).

Definition aggregate (prices weights : list Z) : option Z :=
  let n := Nat.min (length prices) MAX_ENTRIES in
  weighted_median (take n prices) ((λ i, default 1 (weights !! i)) <$> seq 0 n).

Definition capped (weights : list Z) : M (list Z) :=
  cap_bps ← InfluenceCap.get_cap_bps;
  lift (InfluenceCap.apply_cap (take MAX_ENTRIES weights) cap_bps).

(** The loop over the registered sources, at most [n] prices. *)
Fixpoint gather (n : nat) (asset : Address) (curve : FreshnessCurve) (sources : list Address)
    : M (list (Z * Address * Z)) :=
  match n, sources with
  | O, _ | _, [] => mret []
  | S n', src :: sources =>
      sub ← get (KeySubmission asset src);
      match sub with
      | None => gather n asset curve sources
      | Some e =>
          weight ← entry_weight e curve;
          rest ← gather n' asset curve sources;
          mret ((pe_price e, src, weight) :: rest)
      end
  end.

Definition get_weighted_aggregate (asset : Address) : M (option WeightedAggregate) :=
  curve ← get_curve asset;
  registry ← read_oracle_sources;
  found ← gather MAX_ENTRIES asset curve (os_sources registry);
  let prices := (λ x, x.1.1) <$> found in
  let sources := (λ x, x.1.2) <$> found in
  match prices with
  | [] => mret None
  | _ =>
      weights ← capped (snd <$> found);
      raw_median ← lift (compute_median prices);
      weighted ← lift (aggregate prices weights);
      mret (Some (MkWeightedAggregate raw_median weighted sources weights))
  end.
End Weights.

(** ** Weights never panic *)

(** What [set_curve] accepts. *)
Definition curve_ok (curve : FreshnessCurve) : Prop :=
  1 <= fc_window_secs curve <= MAX_WINDOW_SECS ∧ 1 <= fc_min_weight curve <= W_MAX.

(** The storage invariant: every stored curve is one [set_curve] accepts. *)
Definition CurveInv : KeyInv := λ k,
  match k as k return interp (ty_of k) → Prop with
  | KeyFreshnessCurve _ => curve_ok
  | _ => λ _, True
  end.

Section Facts.
Context `{BP : BuildProfile}.

Lemma default_curve_ok : curve_ok default_curve.
Proof. split; split; discriminate. Qed.

(** The closed form of the weight. *)
Lemma weight_for_age_eq age curve :
  curve_ok curve → 0 <= age →
  weight_for_age age curve =
    Some (W_MAX - (W_MAX - fc_min_weight curve) * Z.min age (fc_window_secs curve)
                  / fc_window_secs curve).
Proof.
  intros [Hw Hm] Hage. unfold weight_for_age, W_MAX, MAX_WINDOW_SECS in *.
  set (win := fc_window_secs curve) in *. set (m := fc_min_weight curve) in *.
  rewrite (u32_ok (1000 - m)) by (unfold in_u32, U32_MAX; lia). obind.
  assert (0 <= Z.min age win <= win) as Ha by lia. set (a := Z.min age win) in *.
  assert (0 <= (1000 - m) * a <= 1000 * 86400) by nia.
  rewrite u64_ok by (unfold in_u64, U64_MAX; lia). obind. unfold udiv.
  rewrite (proj2 (Z.eqb_neq _ _)) by lia. obind.
  assert (0 <= (1000 - m) * a / win) by (apply Z.div_pos; lia).
  assert ((1000 - m) * a / win <= 1000) by (apply Z.div_le_upper_bound; nia).
  unfold as_u32. rewrite wrap_id by lia. apply u32_ok. unfold in_u32, U32_MAX. lia.
Qed.

Lemma weight_for_age_bounds age curve wt :
  curve_ok curve → 0 <= age → weight_for_age age curve = Some wt →
  fc_min_weight curve <= wt <= W_MAX.
Proof.
  intros Hok Hage. rewrite weight_for_age_eq by done. intros [= <-]. destruct Hok as [Hw Hm].
  unfold W_MAX, MAX_WINDOW_SECS in *. set (win := fc_window_secs curve) in *.
  set (m := fc_min_weight curve) in *.
  assert (0 <= Z.min age win <= win) as Ha by lia. set (a := Z.min age win) in *.
  assert (0 <= (1000 - m) * a / win) by (apply Z.div_pos; nia).
  assert ((1000 - m) * a / win <= 1000 - m) by (apply Z.div_le_upper_bound; nia). lia.
Qed.

Lemma weight_for_age_antitone age age' curve wt wt' :
  curve_ok curve → 0 <= age <= age' →
  weight_for_age age curve = Some wt → weight_for_age age' curve = Some wt' → wt' <= wt.
Proof.
  intros Hok Hage. rewrite !weight_for_age_eq by (done || lia). intros [= <-] [= <-].
  destruct Hok as [Hw Hm]. unfold W_MAX in *.
  apply Z.sub_le_mono_l, Z.div_le_mono; [lia|]. nia.
Qed.

Lemma get_curve_ok asset c w curve w' :
  store_ok CurveInv w → get_curve asset c w = Ok curve w' → curve_ok curve ∧ w' = w.
Proof.
  intros Hw H. unfold get_curve in H. rewrite run_bind, run_flag_on in H.
  case_if; ok_inv; [split; [apply default_curve_ok|done]|]. split; [|done].
  match goal with |- context [persistent ?w ?k] => destruct (persistent w k) as [curve|] eqn:E end;
    simpl; [exact (Hw _ _ E)|apply default_curve_ok].
Qed.

Lemma set_curve_typed asset win mw :
  0 <= win → 0 <= mw → typed CurveInv (set_curve asset win mw) (λ _, True).
Proof.
  intros Hwin Hmw. unfold set_curve. type_store; try done. simpl in *. bool_hyps.
  split; simpl; lia.
Qed.

(** C38. Freshness weights are total, bounded and antitone.  The administrator
    can store no freshness curve that the weighting cannot evaluate: [set_curve]
    keeps every stored curve in range, and over any store of such curves, for
    every asset and submission with [u64] timestamps, the weight of the
    submission is computed without a panic, changes nothing, is between 1 and
    [W_MAX], and is no larger for a submission recorded earlier. *)
Theorem freshness_weights_typed :
  (∀ asset win mw, 0 <= win → 0 <= mw → typed CurveInv (set_curve asset win mw) (λ _, True)) ∧
  ∀ c w asset e e',
    store_ok CurveInv w → in_u64 (timestamp c) →
    0 <= pe_ledger_timestamp e' <= pe_ledger_timestamp e →
    ∃ wt wt',
      (curve ← get_curve asset; entry_weight e curve) c w = Ok wt w ∧
      (curve ← get_curve asset; entry_weight e' curve) c w = Ok wt' w ∧
      1 <= wt' <= wt ∧ wt <= W_MAX.
Proof.
  split; [apply set_curve_typed|]. intros c w asset e e' Hw Hts He.
  destruct (get_curve asset c w) as [curve w'|] eqn:Hc.
  2: { unfold get_curve in Hc. rewrite run_bind, run_flag_on in Hc. case_if; [done|].
       by rewrite run_bind, run_get_touch in Hc. }
  destruct (get_curve_ok _ _ _ _ _ Hw Hc) as [Hok ->].
  rewrite !run_bind, Hc. unfold entry_weight. rewrite !run_bind, !run_timestamp.
  unfold in_u64, U64_MAX in *.
  assert (∀ t, 0 <= t → 0 <= sat_u64 (timestamp c - t)) as Hsat
    by (intros t Ht; unfold sat_u64, clampZ, U64_MAX; lia).
  pose proof (weight_for_age_eq (sat_u64 (timestamp c - pe_ledger_timestamp e)) curve Hok
    (Hsat (pe_ledger_timestamp e) ltac:(lia))) as E.
  pose proof (weight_for_age_eq (sat_u64 (timestamp c - pe_ledger_timestamp e')) curve Hok
    (Hsat (pe_ledger_timestamp e') ltac:(lia))) as E'.
  rewrite E, E'. eexists _, _. split; [done|]. split; [done|].
  pose proof (weight_for_age_bounds _ _ _ Hok (Hsat (pe_ledger_timestamp e) ltac:(lia)) E).
  pose proof (weight_for_age_bounds _ _ _ Hok (Hsat (pe_ledger_timestamp e') ltac:(lia)) E').
  assert (0 <= sat_u64 (timestamp c - pe_ledger_timestamp e)
            <= sat_u64 (timestamp c - pe_ledger_timestamp e')) as Hord.
  { unfold sat_u64, clampZ, U64_MAX in *. lia. }
  pose proof (weight_for_age_antitone _ _ _ _ _ Hok Hord E E'). destruct Hok as [_ Hm]. lia.
Qed.
End Facts.

Lemma freshness_weights_typed_witness :
  let c := MkCtx 1 1000 (λ _, true) 0%N in
  let e := MkPriceEntry 5 0 0%N 7 1 900 None in
  store_ok CurveInv empty_world ∧
  ∃ wt, (curve ← get_curve 7%N; @entry_weight Wrapping e curve) c empty_world = Ok wt empty_world
        ∧ 1 <= wt <= W_MAX.
Proof.
  intros c e. split; [apply store_ok_empty|].
  destruct (@freshness_weights_typed Wrapping) as [_ H].
  destruct (H c empty_world 7%N e e) as (wt & wt' & E & _ & H1 & H2).
  - apply store_ok_empty.
  - split; discriminate.
  - simpl. lia.
  - exists wt. split; [exact E|lia].
Defined.
