(* ===== verification/Explanation.v ===== *)
(** * [explanation.rs]: why a submission or an aggregate was flagged

    Every anomaly rule leaves an explanation in a bounded log, one per source
    and asset and one per asset.  [explain_submission] predicts, without
    writing, the rule a submission would break. *)
From stdpp Require Import base list strings.
From S2P Require Import Prelude Machine Types Host AuditLog Config Admin Assets.
#[local] Open Scope Z_scope.
#[local] Set Default Goal Selector "!".

Definition DEFAULT_RETENTION : Z := 16.
Definition MAX_RETENTION : Z := 64.

(** [AnomalyRule::name] and [AnomalyRule::is_rejecting]. *)
Definition rule_name (rule : AnomalyRule) : string :=
  match rule with
  | RulePriceOutOfBounds => "bounds"
  | RuleNonPositivePrice => "nonpos"
  | RuleFutureTimestamp => "future"
  | RuleStaleSubmission => "stale"
  | RuleChangeRateBreach => "chgrate"
  | RuleCorrelationBand => "corr"
  | RuleInsufficientSources => "quorum"
  | RuleLowConfidenceBand => "lowconf"
  end.

Definition is_rejecting (rule : AnomalyRule) : bool :=
  match rule with
  | RulePriceOutOfBounds | RuleNonPositivePrice | RuleFutureTimestamp | RuleStaleSubmission
  | RuleChangeRateBreach => true
  | _ => false
  end.

Definition get_retention : M Z :=
  on ← Flags.on Flags.ANOMALY_RETENTION;
  if negb on then mret DEFAULT_RETENTION else get_or KeyAnomalyRetention DEFAULT_RETENTION.

Definition set_retention (retention : Z) : M unit :=
  admin ← get_admin;
  require_auth admin;;
  panic_if ((retention =? 0) || (MAX_RETENTION <? retention)) InvalidConfiguration;;
  Flags.mark Flags.ANOMALY_RETENTION;;
  put KeyAnomalyRetention retention.

Definition build (rule : AnomalyRule) (subject asset : Address)
    (ledger observed reference threshold : Z) (rejected : bool) : AnomalyExplanation :=
  MkAnomalyExplanation (AnomalyRule_as_u32 rule) (rule_name rule) subject asset ledger
    observed reference threshold rejected.

(** [while log.len() > retention { log.remove(0) }] *)
Definition ring {A} (retention : Z) (log : list A) : list A :=
  drop (length log - Z.to_nat retention) log.

Definition explained_event (e : AnomalyExplanation) : AnomalyExplainedEvent :=
  MkAnomalyExplainedEvent (ax_asset e) (ax_subject e) (ax_rule_id e) (ax_rule e) (ax_observed e)
    (ax_reference e) (ax_threshold e) (ax_rejected e).

Definition record_submission (rule : AnomalyRule) (source asset : Address)
    (observed reference threshold : Z) : M AnomalyExplanation :=
  ledger ← ledger_sequence;
  let explanation := build rule source asset ledger observed reference threshold
                       (is_rejecting rule) in
  let key := KeyAnomalyLog asset source in
  retention ← get_retention;
  log ← get_or key [];
  put key (ring retention (log ++ [explanation]));;
  publish (explained_event explanation);;
  mret explanation.

Definition record_aggregate (rule : AnomalyRule) (asset : Address)
    (observed reference threshold : Z) : M AnomalyExplanation :=
  ledger ← ledger_sequence;
  let explanation := build rule asset asset ledger observed reference threshold false in
  let key := KeyAggregateAnomalyLog asset in
  retention ← get_retention;
  log ← get_or key [];
  put key (ring retention (log ++ [explanation]));;
  publish (explained_event explanation);;
  mret explanation.

Definition get_for_source (asset source : Address) : M (list AnomalyExplanation) :=
  get_or (KeyAnomalyLog asset source) [].

Definition get_for_asset (asset : Address) : M (list AnomalyExplanation) :=
  get_or (KeyAggregateAnomalyLog asset) [].

Definition latest_for_source (asset source : Address) : M (option AnomalyExplanation) :=
  log ← get_for_source asset source; mret (last log).

Definition matches_rule (explanation : AnomalyExplanation) (rule : AnomalyRule) : bool :=
  (ax_rule_id explanation =? AnomalyRule_as_u32 rule)
  && bool_decide (ax_rule explanation = rule_name rule).

Section Explain.
Context `{BP : BuildProfile}.

(** The move against the published price, in basis points. *)
Definition change_bps (price prev : Z) : option Z :=
  diff ← i128 (if prev <? price then price - prev else prev - price);
  div_i128 (sat_i128 (diff * 10000)) prev.

Definition explain_submission (source asset : Address) (price time : Z)
    : M (option AnomalyExplanation) :=
  ledger ← ledger_sequence;
  ledger_time ← ledger_timestamp;
  let reject rule observed reference threshold :=
    mret (Some (build rule source asset ledger observed reference threshold true)) in
  if price <=? 0 then reject RuleNonPositivePrice price 0 0
  else
    bounds ← get_price_bounds asset;
    if (price <? pb_min_price bounds) || (pb_max_price bounds <? price) then
      reject RulePriceOutOfBounds price (pb_min_price bounds) (pb_max_price bounds)
    else
      threshold ← get_timestamp_threshold;
      if sat_u64 (ledger_time + threshold) <? time then
        reject RuleFutureTimestamp time ledger_time (sat_u64 (ledger_time + threshold))
      else
        last ← get (KeySubmission asset source);
        match last with
        | Some prev =>
            if time <? pe_timestamp prev
            then Some <$> (mret (build RuleStaleSubmission source asset ledger time
                                   (pe_timestamp prev) (pe_timestamp prev) true))
            else mret None
        | None => mret None
        end ≫= λ stale,
        match stale with
        | Some e => mret (Some e)
        | None =>
            if pb_max_change_bps_per_ledger bounds <=? 0 then mret None
            else
              prev ← get (KeyAggregate asset);
              match prev with
              | Some prev =>
                  if ap_price prev <=? 0 then mret None
                  else
                    change ← lift (change_bps price (ap_price prev));
                    if pb_max_change_bps_per_ledger bounds <? change
                    then reject RuleChangeRateBreach price (ap_price prev)
                           (pb_max_change_bps_per_ledger bounds)
                    else mret None
              | None => mret None
              end
        end.
End Explain.

Lemma length_ring {A} n (log : list A) : 0 <= n → Z.of_nat (length (ring n log)) <= n.
Proof. intros Hn. unfold ring. rewrite length_drop. lia. Qed.
