(* ===== verification/Correlation.v ===== *)
(** * [correlation.rs]: ratio bands between pairs of assets

    A submission is checked against the published price of every asset its
    asset is paired with; a violation flags the source for that asset, which
    excludes it from aggregation until an administrator clears the flag. *)
From stdpp Require Import base list strings.
From S2P Require Import Prelude Machine Types Host AuditLog Config Admin Assets Explanation.
#[local] Open Scope Z_scope.
#[local] Set Default Goal Selector "!".

Definition RATIO_PRECISION : Z := 10000000.

Definition set_correlation_pair (base_asset quote_asset : Address) (min_ratio max_ratio : Z)
    (enabled : bool) : M unit :=
  admin ← get_admin;
  require_auth admin;;
  panic_if (max_ratio <=? min_ratio) InvalidConfiguration;;
  Flags.mark Flags.CORRELATION;;
  let key := KeyCorrelationBand base_asset quote_asset in
  known ← has key;
  put key (MkCorrelationBand min_ratio max_ratio enabled);;
  (if known : bool then mret tt
   else
     pairs ← get_or KeyCorrelationPairList [];
     put KeyCorrelationPairList (pairs ++ [MkCorrelationPair base_asset quote_asset]));;
  publish (MkCorrelationBandSetEvent base_asset quote_asset min_ratio max_ratio enabled).

Definition is_pair (base_asset quote_asset : Address) (p : CorrelationPair) : bool :=
  bool_decide (cp_base_asset p = base_asset) && bool_decide (cp_quote_asset p = quote_asset).

Definition remove_correlation_pair (base_asset quote_asset : Address) : M unit :=
  admin ← get_admin;
  require_auth admin;;
  remove (KeyCorrelationBand base_asset quote_asset);;
  pairs ← get KeyCorrelationPairList;
  match pairs with
  | Some pairs =>
      set KeyCorrelationPairList (filter (λ p, is_pair base_asset quote_asset p = false) pairs)
  | None => mret tt
  end.

Definition get_correlation_pairs : M (list CorrelationPair) :=
  on ← Flags.on Flags.CORRELATION;
  if negb on then mret [] else get_or KeyCorrelationPairList [].

Definition get_correlation_band (base_asset quote_asset : Address) : M (option CorrelationBand) :=
  get (KeyCorrelationBand base_asset quote_asset).

(** [None] where the ratio would overflow [u128]. *)
Definition ratio_of (base_price quote_price : Z) : Z :=
  let num := base_price * RATIO_PRECISION in
  if num <=? U128_MAX then num / quote_price else U128_MAX.

(** The body of the loop over the pairs: whether the pair is respected. *)
Definition check_pair (submitted_asset : Address) (submitted_price : Z) (source : Address)
    (pair : CorrelationPair) : M bool :=
  let role := if decide (cp_base_asset pair = submitted_asset) then Some (true, cp_quote_asset pair)
              else if decide (cp_quote_asset pair = submitted_asset)
                   then Some (false, cp_base_asset pair)
              else None in
  match role with
  | None => mret true
  | Some (is_base, counterpart) =>
      band ← get (KeyCorrelationBand (cp_base_asset pair) (cp_quote_asset pair));
      match band with
      | None => mret true
      | Some band =>
          if negb (cbd_enabled band) then mret true
          else
            aggregate ← get (KeyAggregate counterpart);
            match aggregate with
            | None => mret true
            | Some agg =>
                let counterpart_price := ap_price agg in
                if counterpart_price <=? 0 then mret true
                else
                  let ratio := if is_base : bool then ratio_of submitted_price counterpart_price
                               else ratio_of counterpart_price submitted_price in
                  if (ratio <? cbd_min_ratio band) || (cbd_max_ratio band <? ratio) then
                    publish (MkCorrelationViolationEvent (cp_base_asset pair) (cp_quote_asset pair)
                               source submitted_price counterpart_price ratio
                               (cbd_min_ratio band) (cbd_max_ratio band));;
                    Explanation.record_submission RuleCorrelationBand source submitted_asset
                      submitted_price counterpart_price (as_i128 ratio);;
                    put (KeyCorrelationFlagged source submitted_asset) true;;
                    publish (MkCorrelationPriceFlaggedEvent submitted_asset source submitted_price);;
                    mret false
                  else mret true
            end
      end
  end.

Definition validate_correlation (submitted_asset : Address) (submitted_price : Z)
    (source : Address) : M bool :=
  if submitted_price <=? 0 then mret false
  else
    pairs ← get_correlation_pairs;
    fold_m (λ all_valid pair,
      ok ← check_pair submitted_asset submitted_price source pair;
      mret (all_valid && ok)) true pairs.

Definition is_correlation_flagged (source asset : Address) : M bool :=
  on ← Flags.on Flags.CORRELATION;
  if negb on then mret false else has (KeyCorrelationFlagged source asset).

Definition clear_correlation_flag (source asset : Address) : M unit :=
  admin ← get_admin;
  require_auth admin;;
  remove (KeyCorrelationFlagged source asset).
