(* ===== verification/OutlierFilter.v ===== *)
(** * [outlier_filter.rs]: robust outlier pre-filtering

    Before aggregation every candidate price of a round is scored against the
    median absolute deviation or the interquartile range of the round; the
    mask never drops more than half of the candidates. *)
From stdpp Require Import base list strings.
From S2P Require Import Prelude Machine ReferencePricing Types Host AuditLog Config Admin Assets.
#[local] Open Scope Z_scope.
#[local] Set Default Goal Selector "!".

Definition DETECTOR_NONE : Z := 0.
Definition DETECTOR_MAD : Z := 1.
Definition DETECTOR_IQR : Z := 2.
Definition MIN_SOURCES_FLOOR : Z := 4.
Definition MAX_SOURCES_FLOOR : Z := 64.
Definition DEFAULT_MAD_SENSITIVITY_BPS : Z := 35000.
Definition DEFAULT_IQR_SENSITIVITY_BPS : Z := 15000.
Definition DEFAULT_MIN_SOURCES : Z := 5.
Definition MAX_SENSITIVITY_BPS : Z := 1000000.
Definition MAX_CANDIDATES : nat := 128.
Definition MAD_SCALE : Z := 14826.

Definition default_config : OutlierConfig :=
  MkOutlierConfig DETECTOR_NONE DEFAULT_MAD_SENSITIVITY_BPS DEFAULT_MIN_SOURCES.

Definition get_config (asset : Address) : M OutlierConfig :=
  on ← Flags.on Flags.OUTLIER_FILTER;
  if negb on then mret default_config
  else cfg ← get_touch (KeyOutlierConfig asset); mret (default default_config cfg).

Definition config_ok (c : OutlierConfig) : bool :=
  negb ((DETECTOR_IQR <? oc_detector c) || (MAX_SENSITIVITY_BPS <? oc_sensitivity_bps c)
        || negb (in_range MIN_SOURCES_FLOOR MAX_SOURCES_FLOOR (oc_min_sources c))).

Definition set_config (asset : Address) (config : option OutlierConfig) : M unit :=
  admin ← get_admin;
  require_auth admin;;
  check_registered_asset asset;;
  match config with
  | Some c => panic_if (negb (config_ok c)) InvalidConfiguration
  | None => mret tt
  end;;
  Flags.mark Flags.OUTLIER_FILTER;;
  let key := KeyOutlierConfig asset in
  old ← get key;
  match config with Some c => put key c | None => remove key end;;
  publish (MkOutlierConfigChangedEvent asset old config).

Definition default_sensitivity (detector : Z) : Z :=
  if detector =? DETECTOR_IQR then DEFAULT_IQR_SENSITIVITY_BPS else DEFAULT_MAD_SENSITIVITY_BPS.

Definition filtering_active (cfg : OutlierConfig) (n : Z) : bool :=
  negb (oc_detector cfg =? DETECTOR_NONE) && (Z.max (oc_min_sources cfg) MIN_SOURCES_FLOOR <=? n).

(** ** Scoring *)

Section Scores.
Context `{BP : BuildProfile}.

Definition median_of (sorted : list Z) : option Z :=
  let n := length sorted in
  if (n =? 0)%nat then Some 0
  else if (n mod 2 =? 1)%nat then sorted !! (n / 2)%nat
  else
    a ← sorted !! (n / 2 - 1)%nat;
    b ← sorted !! (n / 2)%nat;
    midpoint a b.

(** [(x - med).abs()] *)
Definition deviation (med x : Z) : option Z := d ← i128 (x - med); i128 (Z.abs d).

Definition median_and_mad (sorted : list Z) : option (Z * Z) :=
  med ← median_of sorted;
  devs ← mapM (deviation med) sorted;
  mad ← median_of (sortZ devs);
  Some (med, mad).

Definition mad_score (sorted : list Z) (x : Z) : option (Z * Z * Z) :=
  '(med, mad) ← median_and_mad sorted;
  product ← i128 (mad * MAD_SCALE);
  scaled ← div_i128 product 10000;
  if scaled <=? 0 then Some (0, med, 0)
  else
    d ← i128 (x - med);
    num ← u128 (Z.abs d * 10000);
    Some (Z.min (num / scaled) U32_MAX, med, scaled).

Definition iqr_score (sorted : list Z) (x sensitivity_bps : Z) : option (Z * Z * Z) :=
  let n := length sorted in
  q1 ← sorted !! ((n - 1) / 4)%nat;
  q3 ← sorted !! ((3 * (n - 1) + 3) / 4)%nat;
  iqr ← i128 (q3 - q1);
  center ← i128 (q1 + Z.quot iqr 2);
  if iqr <=? 0 then Some (0, center, 0)
  else
    product ← i128 (iqr * sensitivity_bps);
    fence ← div_i128 product 10000;
    upper ← i128 (q3 + fence);
    if upper <? x then
      dist ← i128 (x - upper);
      num ← u128 (dist * 10000);
      Some (Z.min (num / iqr) U32_MAX, center, iqr)
    else
      lower ← i128 (q1 - fence);
      if x <? lower then
        dist ← i128 (lower - x);
        num ← u128 (dist * 10000);
        Some (Z.min (num / iqr) U32_MAX, center, iqr)
      else Some (0, center, iqr).

Definition score_of (sorted : list Z) (x : Z) (cfg : OutlierConfig)
    : option (bool * Z * Z * Z) :=
  '(score, center, scale) ←
    (if oc_detector cfg =? DETECTOR_IQR then iqr_score sorted x (oc_sensitivity_bps cfg)
     else mad_score sorted x);
  if 0 <? scale then Some (oc_sensitivity_bps cfg <=? score, score, center, scale)
  else
    denom ← i128 (Z.abs center);
    if denom =? 0 then Some (negb (x =? center), 0, center, 0)
    else
      dev ← i128 (x - center);
      num ← u128 (Z.abs dev * 10000);
      let rel_bps := num / denom in
      Some (oc_sensitivity_bps cfg <=? rel_bps, Z.min rel_bps U32_MAX, center, 0).

Record Scored := MkScored { sc_index : nat; sc_score : Z; sc_center : Z; sc_scale : Z }.

(** The candidates scored as outliers, in submission order from index [i]. *)
Fixpoint score_round (cfg : OutlierConfig) (sorted : list Z) (i : nat) (prices : list Z)
    : option (list Scored) :=
  match prices with
  | [] => Some []
  | x :: prices =>
      '(excluded, score, center, scale) ← score_of sorted x cfg;
      rest ← score_round cfg sorted (S i) prices;
      Some (if excluded : bool then MkScored i score center scale :: rest else rest)
  end.

(** The keep-mask: all [true], then [false] at every scored index. *)
Definition mask_of (n : nat) (scored : list Scored) : list bool :=
  foldl (λ keep s, <[sc_index s := false]> keep) (replicate n true) scored.

Definition store_exclusions (asset : Address) (exclusions : list OutlierExclusion) : M unit :=
  on ← Flags.on Flags.OUTLIER_FILTER;
  let key := KeyOutlierExclusions asset in
  match exclusions with
  | [] => if negb on then mret tt else remove key
  | _ => Flags.mark Flags.OUTLIER_FILTER;; put key exclusions
  end.

(** One pass of the loop that publishes the exclusions. *)
Definition exclude (asset : Address) (cfg : OutlierConfig) (prices : list Z)
    (sources : list Address) (retained : Z) (exclusions : list OutlierExclusion) (s : Scored)
    : M (list OutlierExclusion) :=
  price ← lift (prices !! sc_index s);
  source ← lift (sources !! sc_index s);
  publish (MkOutlierExcludedEvent asset
             (if 0 <? sc_scale s then oc_detector cfg else DETECTOR_NONE)
             source price (sc_score s) (oc_sensitivity_bps cfg) (sc_center s) (sc_scale s)
             retained);;
  mret (exclusions ++ [MkOutlierExclusion source price (sc_score s) (sc_center s) (sc_scale s)]).

Definition filter_round (asset : Address) (prices : list Z) (sources : list Address)
    : M (list bool) :=
  let n := length prices in
  cfg ← get_config asset;
  if negb (filtering_active cfg (Z.of_nat n)) then
    store_exclusions asset [];; mret (replicate n true)
  else
    scored ← lift (score_round cfg (sortZ (take MAX_CANDIDATES prices)) 0 prices);
    if (n / 2 <? length scored)%nat then
      store_exclusions asset [];; mret (replicate n true)
    else
      exclusions ← fold_m (exclude asset cfg prices sources (Z.of_nat (n - length scored)))
                     [] scored;
      store_exclusions asset exclusions;;
      mret (mask_of n scored).

Definition get_exclusions (asset : Address) : M (list OutlierExclusion) :=
  on ← Flags.on Flags.OUTLIER_FILTER;
  if negb on then mret []
  else
    v ← get_or (KeyOutlierExclusions asset) [];
    match v with [] => mret tt | _ => extend_ttl (KeyOutlierExclusions asset) end;;
    mret v.
End Scores.
