(* ===== verification/Deferral.v ===== *)
(** * [deferral.rs]: deferred publication for illiquid assets

    An asset with a deferral policy publishes only when enough sources have
    submitted inside the window; until then it is deferred, and stale once the
    deferral bound has passed. *)
From stdpp Require Import base list strings.
From S2P Require Import Prelude Machine Types Host AuditLog Config Admin Assets Frames PriceBounds.
#[local] Open Scope Z_scope.
#[local] Set Default Goal Selector "!".

Definition MAX_QUORUM : Z := 64.
Definition MAX_WINDOW_SECS : Z := 86400.
Definition MAX_DEFER_SECS : Z := 604800.

Definition validate (p : DeferralPolicy) : M unit :=
  panic_if ((dp_quorum p =? 0) || (MAX_QUORUM <? dp_quorum p) || (dp_window_secs p =? 0)
            || (MAX_WINDOW_SECS <? dp_window_secs p) || (dp_max_defer_secs p <? dp_window_secs p)
            || (MAX_DEFER_SECS <? dp_max_defer_secs p)) InvalidDeferralPolicy.

Definition set_policy (asset : Address) (policy : DeferralPolicy) : M unit :=
  admin ← get_admin;
  require_auth admin;;
  check_registered_asset asset;;
  validate policy;;
  Flags.mark Flags.ASSET_DEFERRAL;;
  put (KeyAssetDeferral asset) policy;;
  PriceBounds.note_deferral_configured.

Definition get_policy (asset : Address) : M (option DeferralPolicy) :=
  on ← Flags.on Flags.ASSET_DEFERRAL;
  if negb on then mret None else get_touch (KeyAssetDeferral asset).

Definition clear_policy (asset : Address) : M unit :=
  admin ← get_admin;
  require_auth admin;;
  check_registered_asset asset;;
  remove (KeyAssetDeferral asset).

Definition has_published (asset : Address) : M bool := has (KeyAggregate asset).

(** The loop over the registered sources. *)
Fixpoint count_recent (asset : Address) (now window_secs : Z) (sources : list Address) : M Z :=
  match sources with
  | [] => mret 0
  | s :: sources =>
      entry ← get (KeySubmission asset s);
      n ← count_recent asset now window_secs sources;
      mret (match entry with
            | Some e => if sat_u64 (now - pe_ledger_timestamp e) <=? window_secs then n + 1 else n
            | None => n
            end)
  end.

Definition count_window_submissions (asset : Address) (policy : DeferralPolicy) : M Z :=
  now ← ledger_timestamp;
  registry ← read_oracle_sources;
  count_recent asset now (dp_window_secs policy) (os_sources registry).

Definition read_status (asset : Address) : M (option PublicationStatus) :=
  get_touch (KeyAssetPublicationState asset).

Definition write_status (asset : Address) (status : PublicationStatus) : M unit :=
  put (KeyAssetPublicationState asset) status.

Definition initial_state (asset : Address) : M PublicationState :=
  status ← read_status asset;
  published ← (match status with Some _ => mret true | None => has_published asset end);
  mret (if published : bool then PublicationPublished else PublicationAbsent).

(** The state a round finds: the recorded one, or the initial one. *)
Definition state_before (asset : Address) : M PublicationState :=
  previous ← read_status asset;
  match previous with Some p => mret (ps_state p) | None => initial_state asset end.

(** The transition of the state machine. *)
Definition next_state (now : Z) (previous : PublicationState) (prev_deferred : Z)
    (policy : DeferralPolicy) (received : Z) : PublicationState * Z :=
  let deferral_bound_hit :=
    bool_decide (previous = PublicationDeferred) && negb (prev_deferred =? 0)
    && (dp_max_defer_secs policy <=? sat_u64 (now - prev_deferred)) in
  if dp_quorum policy <=? received then (PublicationPublished, 0)
  else if deferral_bound_hit || bool_decide (previous = PublicationStale) then
    (PublicationStale, if prev_deferred =? 0 then now else prev_deferred)
  else if bool_decide (previous = PublicationDeferred) then (PublicationDeferred, prev_deferred)
  else (PublicationDeferred, now).

Definition resolve (asset : Address) (policy : DeferralPolicy) (received : Z)
    : M PublicationStatus :=
  now ← ledger_timestamp;
  previous ← read_status asset;
  previous_state ← (match previous with Some p => mret (ps_state p) | None => initial_state asset end);
  let prev_deferred := match previous with Some p => ps_deferred_since p | None => 0 end in
  let '(state, deferred_since) := next_state now previous_state prev_deferred policy received in
  ledger ← ledger_sequence;
  mret (MkPublicationStatus state received (sat_u32 (dp_quorum policy - received))
          (dp_quorum policy) (dp_window_secs policy) deferred_since (dp_max_defer_secs policy)
          ledger).

Definition get_status (asset : Address) : M (option PublicationStatus) :=
  policy ← get_policy asset;
  match policy with
  | None => mret None
  | Some policy =>
      received ← count_window_submissions asset policy;
      status ← resolve asset policy received;
      mret (Some status)
  end.

(** Publishes the transition, if the state changed, and stores the status. *)
Definition transition (asset : Address) (previous_state : PublicationState)
    (status : PublicationStatus) : M unit :=
  (if bool_decide (previous_state = ps_state status) then mret tt
   else publish (MkPublicationStateChangedEvent asset (ps_state status) previous_state
                   (ps_received status) (ps_missing status) (ps_quorum status) (ps_ledger status)));;
  write_status asset status.

Definition should_publish (asset : Address) (guards : PublicationGuards) : M bool :=
  if negb (pg_any_deferral_configured guards) then mret true
  else
    policy ← get_policy asset;
    match policy with
    | None => mret true
    | Some policy =>
        received ← count_window_submissions asset policy;
        status ← resolve asset policy received;
        previous_state ← state_before asset;
        transition asset previous_state status;;
        mret (bool_decide (ps_state status = PublicationPublished))
    end.

Definition note_state (asset : Address) : M (option PublicationStatus) :=
  policy ← get_policy asset;
  match policy with
  | None => mret None
  | Some policy =>
      previous_state ← state_before asset;
      received ← count_window_submissions asset policy;
      status ← resolve asset policy received;
      transition asset previous_state status;;
      mret (Some status)
  end.

Definition mark_published (asset : Address) : M unit :=
  policy ← get_policy asset;
  match policy with
  | None => mret tt
  | Some policy =>
      status ← resolve asset policy (dp_quorum policy);
      write_status asset
        (MkPublicationStatus PublicationPublished (dp_quorum policy) 0 (ps_quorum status)
           (ps_window_secs status) 0 (ps_max_defer_secs status) (ps_ledger status))
  end.

(** ** Bounded deferral *)

Lemma readonly_count_recent asset now window sources :
  readonly (count_recent asset now window sources).
Proof. induction sources as [|s sources IH]; simpl; read_only; done. Qed.
#[local] Hint Resolve readonly_count_recent : readonly.

Lemma readonly_count asset policy : readonly (count_window_submissions asset policy).
Proof. unfold count_window_submissions, read_oracle_sources. read_only. Qed.
Lemma readonly_get_policy asset : readonly (get_policy asset).
Proof. unfold get_policy. read_only. Qed.
Lemma readonly_read_status asset : readonly (read_status asset).
Proof. unfold read_status. read_only. Qed.
#[local] Hint Resolve readonly_count readonly_get_policy readonly_read_status : readonly.
Lemma readonly_initial_state asset : readonly (initial_state asset).
Proof. unfold initial_state, has_published. read_only. Qed.
#[local] Hint Resolve readonly_initial_state : readonly.

(** What a world records of an asset's publication. *)
Definition recorded (w : World) (asset : Address) : PublicationState * Z :=
  match persistent w (KeyAssetPublicationState asset) with
  | Some p => (ps_state p, ps_deferred_since p)
  | None => (if persistent w (KeyAggregate asset) then PublicationPublished else PublicationAbsent, 0)
  end.

Lemma run_initial_state asset c w :
  persistent w (KeyAssetPublicationState asset) = None →
  initial_state asset c w = Ok (recorded w asset).1 w.
Proof.
  intros E. unfold initial_state, read_status, has_published, recorded.
  rewrite run_bind, run_get_touch, E. cbv beta iota. rewrite run_bind. unfold has.
  by destruct (persistent w (KeyAggregate asset)).
Qed.

Lemma run_state_before asset c w : state_before asset c w = Ok (recorded w asset).1 w.
Proof.
  unfold state_before, read_status. rewrite run_bind, run_get_touch. cbv beta iota.
  destruct (persistent w (KeyAssetPublicationState asset)) as [p|] eqn:E; [|by apply run_initial_state].
  unfold recorded. by rewrite E.
Qed.

Lemma run_resolve asset policy received c w :
  let next := next_state (timestamp c) (recorded w asset).1 (recorded w asset).2 policy received in
  resolve asset policy received c w =
    Ok (MkPublicationStatus next.1 received (sat_u32 (dp_quorum policy - received))
          (dp_quorum policy) (dp_window_secs policy) next.2 (dp_max_defer_secs policy) (sequence c)) w.
Proof.
  intros next. unfold resolve, read_status. rewrite run_bind, run_timestamp. cbv beta iota.
  rewrite run_bind, run_get_touch. cbv beta iota. rewrite run_bind. subst next. unfold recorded.
  destruct (persistent w (KeyAssetPublicationState asset)) as [p|] eqn:E; simpl.
  - by destruct (next_state _ _ _ _ _).
  - rewrite run_initial_state by done. unfold recorded. rewrite E. simpl. by destruct (next_state _ _ _ _ _).
Qed.

Lemma run_transition asset previous status c w u w' :
  transition asset previous status c w = Ok u w' →
  persistent w' (KeyAssetPublicationState asset) = Some status ∧
  ∀ k, k ≠ KeyAssetPublicationState asset → persistent w' k = persistent w k.
Proof.
  unfold transition, write_status. intros H. ok_inv.
  case_if; ok_inv; (split; [by read_store|intros k Hk; by read_store]).
Qed.

(** [should_publish] is one step of [next_state]. *)
Lemma should_publish_step asset g policy c w b w' :
  should_publish asset g c w = Ok b w' → pg_any_deferral_configured g = true →
  get_policy asset c w = Ok (Some policy) w →
  ∃ received, count_window_submissions asset policy c w = Ok received w ∧
    recorded w' asset = next_state (timestamp c) (recorded w asset).1 (recorded w asset).2 policy received ∧
    b = (dp_quorum policy <=? received).
Proof.
  intros H Hg Hp. unfold should_publish in H. rewrite Hg in H. cbn [negb] in H.
  rewrite run_bind, Hp in H. apply bind_Ok in H as (received & w1 & Hc & H).
  pose proof (readonly_count _ _ _ _ _ _ Hc) as ->. exists received. split; [done|].
  rewrite run_bind, run_resolve in H. cbv beta iota in H.
  rewrite run_bind, run_state_before in H. cbv beta iota in H.
  apply bind_Ok in H as ([] & w1 & Ht & H). apply run_transition in Ht as [Ht _]. ok_inv.
  unfold recorded at 1. rewrite Ht. cbn [ps_state ps_deferred_since].
  split; [by destruct (next_state _ _ _ _ _)|]. unfold next_state.
  destruct (dp_quorum policy <=? received); [done|]. by repeat case_if.
Qed.

(** Rounds of an asset over time.  Between two rounds anything may happen that
    keeps the asset's policy, its publication record and whether it has an
    aggregate; a round at time [now] finds [received] fresh submissions. *)
Inductive rounds (asset : Address) (policy : DeferralPolicy) :
    World → list (Z * Z * bool) → World → Prop :=
  | rounds_nil w : rounds asset policy w [] w
  | rounds_next w w1 w2 w3 c g received b rest :
      recorded w1 asset = recorded w asset →
      get_policy asset c w1 = Ok (Some policy) w1 → pg_any_deferral_configured g = true →
      count_window_submissions asset policy c w1 = Ok received w1 →
      should_publish asset g c w1 = Ok b w2 →
      rounds asset policy w2 rest w3 →
      rounds asset policy w ((timestamp c, received, b) :: rest) w3.

(** One more round below the quorum of an asset deferred since [since]. *)
Lemma short_round since now state policy received :
  1 <= since <= now → now <= U64_MAX → received < dp_quorum policy →
  state = PublicationDeferred ∨ state = PublicationStale →
  next_state now state since policy received =
    (if bool_decide (state = PublicationStale) || (dp_max_defer_secs policy <=? now - since)
     then PublicationStale else PublicationDeferred, since).
Proof.
  intros Hs Hmax Hr Hstate. unfold next_state.
  rewrite (proj2 (Z.leb_gt _ _)) by lia. rewrite (proj2 (Z.eqb_neq since 0)) by lia.
  rewrite sat_u64_id by (unfold in_u64; lia).
  by destruct Hstate as [-> | ->]; simpl; destruct (dp_max_defer_secs policy <=? now - since).
Qed.

Lemma short_rounds asset policy since w rs w' :
  rounds asset policy w rs w' → 1 <= since →
  (recorded w asset).2 = since →
  (recorded w asset).1 = PublicationDeferred ∨ (recorded w asset).1 = PublicationStale →
  Forall (λ r, since <= r.1.1 <= U64_MAX ∧ r.1.2 < dp_quorum policy) rs →
  Forall (λ r, r.2 = false) rs ∧
  recorded w' asset =
    (if bool_decide ((recorded w asset).1 = PublicationStale) ||
        existsb (λ r, dp_max_defer_secs policy <=? r.1.1 - since) rs
     then PublicationStale else PublicationDeferred, since).
Proof.
  intros H Hs. induction H as [w|w w1 w2 w3 c g received b rest Hw Hp Hg Hc Hsp _ IH];
    intros H2 H1 Hall.
  { split; [done|]. simpl. rewrite orb_false_r. destruct (recorded w asset) as [st d]. simpl in *.
    subst d. by destruct H1 as [-> | ->]. }
  inversion_clear Hall as [|? ? [Ht Hr] Hrest]. simpl in Ht, Hr.
  destruct (should_publish_step _ _ _ _ _ _ _ Hsp Hg Hp) as (r' & Hc' & Hnext & ->).
  assert (r' = received) as -> by congruence. rewrite Hw in Hnext.
  rewrite H2, short_round in Hnext by (done || lia). rewrite Hnext in IH. simpl in IH.
  destruct IH as [Hf IH]; [done|case_if; auto|done|].
  split; [constructor; [|done]; simpl; lia|]. rewrite IH. f_equal. simpl.
  destruct (bool_decide (_ = PublicationStale)) eqn:E; simpl; [done|].
  by destruct (dp_max_defer_secs policy <=? timestamp c - since).
Qed.


