(* ===== verification/DqPipeline.v ===== *)
(** * [dq_pipeline.rs]: data-quality screening of the inputs of a round

    Four checks in order: staleness, absolute bounds, the step from the last
    published price and the drift from an anchor.  An accepted input is shown
    to lie within the configured distance of the published price. *)
From stdpp Require Import base list strings.
From S2P Require Import Prelude Machine Types Host AuditLog Config Admin Assets.
#[local] Open Scope Z_scope.
#[local] Set Default Goal Selector "!".

Definition REASON_STALE : Z := 1.
Definition REASON_BOUNDS : Z := 2.
Definition REASON_STEP : Z := 3.
Definition REASON_DRIFT : Z := 4.
Definition BPS : Z := 10000.

Definition config_invalid (cfg : DqConfig) : bool :=
  (dq_min_price cfg <? 0)
  || (negb (dq_max_price cfg =? 0) && (dq_max_price cfg <? dq_min_price cfg))
  || (BPS <? dq_max_step_bps cfg)
  || (BPS <? dq_max_drift_bps cfg)
  || ((0 <? dq_max_drift_bps cfg) && (dq_drift_window_secs cfg =? 0))
  || ((0 <? dq_max_drift_bps cfg) && (dq_max_drift_bps cfg <? dq_max_step_bps cfg)).

Definition set_config (asset : Address) (cfg : DqConfig) : M unit :=
  admin ← get_admin;
  require_auth admin;;
  check_registered_asset asset;;
  panic_if (config_invalid cfg) InvalidConfiguration;;
  Flags.mark Flags.DQ_PIPELINE;;
  put (KeyDqConfig asset) cfg;;
  remove (KeyDqAnchor asset);;
  publish (MkDqConfigUpdatedEvent asset true).

Definition clear_config (asset : Address) : M unit :=
  admin ← get_admin;
  require_auth admin;;
  remove (KeyDqConfig asset);;
  remove (KeyDqAnchor asset);;
  publish (MkDqConfigUpdatedEvent asset false).

Definition get_config (asset : Address) : M (option DqConfig) :=
  on ← Flags.on Flags.DQ_PIPELINE;
  if negb on then mret None else get (KeyDqConfig asset).

Definition get_anchor (asset : Address) : M (option DqAnchor) := get (KeyDqAnchor asset).

Record DqRound := MkDqRound {
  dr_cfg : DqConfig;
  dr_last : Z;
  dr_anchor : Z
}.

(** The price of a live anchor, if there is one. *)
Definition live_anchor (now window : Z) (anchor : option DqAnchor) : option Z :=
  match anchor with
  | Some a => if sat_u64 (now - da_set_at a) <? window then Some (da_price a) else None
  | None => None
  end.

Definition begin (asset : Address) : M (option DqRound) :=
  cfg ← get_config asset;
  match cfg with
  | None => mret None
  | Some cfg =>
      aggregate ← get (KeyAggregate asset);
      let last := match aggregate with Some a => ap_price a | None => 0 end in
      now ← ledger_timestamp;
      anchor ←
        (if (0 <? dq_max_drift_bps cfg) && (0 <? last) then
           stored ← get_anchor asset;
           match live_anchor now (dq_drift_window_secs cfg) stored with
           | Some p => mret p
           | None => put (KeyDqAnchor asset) (MkDqAnchor last now);; mret last
           end
         else mret 0);
      mret (Some (MkDqRound cfg last anchor))
  end.

Section Screening.
Context `{BP : BuildProfile}.

Definition exceeds_bps (price reference bps : Z) : option bool :=
  gap ← i128 (price - reference);
  Some (sat_i128 (reference * bps) <? sat_i128 (sat_i128 (Z.abs gap) * BPS)).

(** [cond && exceeds_bps(..)]: the right operand runs only when needed. *)
Definition guarded (cond : bool) (price reference bps : Z) : option bool :=
  if cond then exceeds_bps price reference bps else Some false.

(** The first check that fails: reason, value, threshold and reference. *)
Definition rejection (round : DqRound) (now : Z) (entry : PriceEntry)
    : option (option (Z * Z * Z * Z)) :=
  let cfg := dr_cfg round in
  let price := pe_price entry in
  let age := sat_u64 (now - pe_ledger_timestamp entry) in
  if (0 <? dq_max_staleness_secs cfg) && (dq_max_staleness_secs cfg <? age) then
    Some (Some (REASON_STALE, age, dq_max_staleness_secs cfg, pe_ledger_timestamp entry))
  else if price <? dq_min_price cfg then
    Some (Some (REASON_BOUNDS, price, dq_min_price cfg, dq_min_price cfg))
  else if (0 <? dq_max_price cfg) && (dq_max_price cfg <? price) then
    Some (Some (REASON_BOUNDS, price, dq_max_price cfg, dq_max_price cfg))
  else
    step ← guarded ((0 <? dq_max_step_bps cfg) && (0 <? dr_last round)) price (dr_last round)
             (dq_max_step_bps cfg);
    if step : bool then Some (Some (REASON_STEP, price, dq_max_step_bps cfg, dr_last round))
    else
      drift ← guarded ((0 <? dq_max_drift_bps cfg) && (0 <? dr_anchor round)) price
                (dr_anchor round) (dq_max_drift_bps cfg);
      if drift : bool then Some (Some (REASON_DRIFT, price, dq_max_drift_bps cfg, dr_anchor round))
      else Some None.

Definition screen (round : DqRound) (asset source : Address) (entry : PriceEntry) : M bool :=
  now ← ledger_timestamp;
  verdict ← lift (rejection round now entry);
  match verdict with
  | None => mret true
  | Some (reason, value, threshold, reference) =>
      publish (MkDqInputRejectedEvent asset source reason value threshold reference);;
      mret false
  end.
End Screening.
