(* ===== verification/SourceLifecycle.v ===== *)
(** * [source_lifecycle.rs]: identity, probation and tombstones of sources

    The part of the module the aggregation and registration paths call; the
    onboarding and offboarding sequences, which call back into the source
    registry, are in [Offboarding.v]. *)
From stdpp Require Import base list strings.
From S2P Require Import Prelude Machine Types Host AuditLog Config Admin Assets.
#[local] Open Scope Z_scope.
#[local] Set Default Goal Selector "!".

Definition PROBATION_MAX_COUNTED : Z := 1.
Definition DEFAULT_PROBATION_SECS : Z := 604800.
Definition DEFAULT_SLASH_DEVIATION_BPS : Z := 2000.

Definition get_config : M LifecycleConfig :=
  get_or KeyLcConfig (MkLifecycleConfig DEFAULT_PROBATION_SECS DEFAULT_SLASH_DEVIATION_BPS).

Definition set_config (cfg : LifecycleConfig) : M unit :=
  admin ← get_admin;
  require_auth admin;;
  panic_if (lc_slash_deviation_bps cfg =? 0) InvalidConfiguration;;
  set KeyLcConfig cfg.

Definition get_record (source : Address) : M (option SourceLifecycle) := get (KeyLcRecord source).

Definition is_revoked (source : Address) : M bool := has (KeyLcRevokedAddress source).

Definition check_not_revoked (source : Address) : M unit :=
  revoked ← is_revoked source; panic_if revoked IdentityRevoked.

Definition on_key_rotated (old new : Address) : M unit :=
  record ← get_record old;
  match record with
  | None => mret tt
  | Some record =>
      remove (KeyLcRecord old);;
      set (KeyLcRecord new) record;;
      set (KeyLcIdentityOwner (sl_identity record)) new
  end.

Definition any_probation : M bool :=
  on ← Flags.on Flags.SOURCE_LIFECYCLE;
  if negb on then mret false else has KeyLcAnyProbation.

Definition on_probation (source : Address) : M bool :=
  any ← any_probation;
  if negb any then mret false
  else
    record ← get_record source;
    mret (match record with Some r => negb (sl_graduated r) | None => false end).
