(* ===== verification/SourceComparison.v ===== *)
(** * [source_comparison.rs]: comparing the sources of an asset

    When enabled, every published round is kept in a window of sixteen; the
    report measures deviation, direction, influence and pairwise similarity
    of the sources over the window. *)
From stdpp Require Import base list strings.
From S2P Require Import Prelude Machine ReferencePricing CorePricing StorageMath Types Host AuditLog Config Admin Assets.
#[local] Open Scope Z_scope.
#[local] Set Default Goal Selector "!".

Definition WINDOW_ROUNDS : nat := 16.
Definition MIN_ROUNDS : Z := 4.
Definition COLLUSION_SIMILARITY_BPS : Z := 8000.
Definition PERSISTENCE_BPS : Z := 7000.
Definition EXCLUSION_COUNTED_BPS : Z := 2000.
Definition BPS : Z := 10000.

Definition set_enabled (asset : Address) (enabled : bool) : M unit :=
  admin ← get_admin;
  require_auth admin;;
  check_registered_asset asset;;
  (if enabled then
     Flags.mark Flags.SOURCE_COMPARISON;;
     set (KeyCmpEnabled asset) true
   else
     remove (KeyCmpEnabled asset);;
     remove (KeyCmpRounds asset));;
  publish (MkSourceComparisonToggledEvent asset enabled).

Definition is_enabled (asset : Address) : M bool :=
  on ← Flags.on Flags.SOURCE_COMPARISON;
  if negb on then mret false else has (KeyCmpEnabled asset).

Definition get_rounds (asset : Address) : M (list ComparisonRound) := get_or (KeyCmpRounds asset) [].

Definition record (asset : Address) (aggregate : Z) (admitted : list Address)
    (admitted_prices : list Z) (counted : list Address) : M unit :=
  let flags := (λ s, bool_decide (s ∈ counted)) <$> admitted in
  rounds ← get_rounds asset;
  let rounds := rounds ++ [MkComparisonRound aggregate admitted admitted_prices flags] in
  put (KeyCmpRounds asset) (drop (length rounds - WINDOW_ROUNDS) rounds).

(** ** Analysis of a window *)

Section Analysis.
Context `{BP : BuildProfile}.

Definition deviation_bps (price aggregate : Z) : option Z :=
  if aggregate <=? 0 then Some 0
  else
    gap ← i128 (price - aggregate);
    div_i128 (sat_i128 (gap * BPS)) aggregate.

(** Newton's iteration; the distance to the root halves in every pass, so
    129 passes are enough for [u128]. *)
Fixpoint isqrt_loop (fuel : nat) (n x y : Z) : option Z :=
  match fuel with
  | O => None
  | S fuel =>
      if y <? x then
        q ← udiv n y;
        s ← u128 (y + q);
        isqrt_loop fuel n y (s / 2)
      else Some x
  end.

Definition isqrt (n : Z) : option Z :=
  if n <? 2 then Some n else isqrt_loop 129 n n ((n + 1) / 2).

Fixpoint first_index_of (source : Address) (sources : list Address) : option nat :=
  match sources with
  | [] => None
  | s :: sources => if decide (s = source) then Some O else S <$> first_index_of source sources
  end.

(** [Some None] when the source was not admitted in the round. *)
Definition deviation_in (r : ComparisonRound) (source : Address) : option (option Z) :=
  match first_index_of source (cmr_sources r) with
  | None => Some None
  | Some idx => price ← cmr_prices r !! idx; d ← deviation_bps price (cmr_aggregate r); Some (Some d)
  end.

Record Tally := MkTally {
  t_admitted : Z; t_counted : Z; t_pos : Z; t_neg : Z; t_dev_sum : Z; t_infl_sum : Z
}.

(** The prices of the counted sources [i >= 0], with and without index [idx]. *)
Fixpoint counted_prices (idx i : nat) (counted : list bool) (prices : list Z) : list Z * list Z :=
  match counted, prices with
  | c :: counted, p :: prices =>
      let '(w, wo) := counted_prices idx (S i) counted prices in
      if c : bool then (p :: w, if (i =? idx)%nat then wo else p :: wo) else (w, wo)
  | _, _ => ([], [])
  end.

(** How far the round's median moves when the source is left out. *)
Definition influence_in (r : ComparisonRound) (idx : nat) : option Z :=
  let '(w, wo) := counted_prices idx 0 (cmr_counted r) (cmr_prices r) in
  match wo with
  | [] => Some 0
  | _ =>
      m ← compute_median w;
      m' ← compute_median wo;
      shift ← i128 (m - m');
      size ← i128 (Z.abs shift);
      moved ← i128 (cmr_aggregate r + size);
      deviation_bps moved (cmr_aggregate r)
  end.

Definition tally_round (source : Address) (t : Tally) (r : ComparisonRound) : option Tally :=
  match first_index_of source (cmr_sources r) with
  | None => Some t
  | Some idx =>
      price ← cmr_prices r !! idx;
      d ← deviation_bps price (cmr_aggregate r);
      dev_sum ← i128 (t_dev_sum t + d);
      counted ← cmr_counted r !! idx;
      let pos := if 0 <? d then t_pos t + 1 else t_pos t in
      let neg := if d <? 0 then t_neg t + 1 else t_neg t in
      if counted : bool then
        infl ← influence_in r idx;
        infl_sum ← i128 (t_infl_sum t + infl);
        Some (MkTally (t_admitted t + 1) (t_counted t + 1) pos neg dev_sum infl_sum)
      else Some (MkTally (t_admitted t + 1) (t_counted t) pos neg dev_sum (t_infl_sum t))
  end.

Fixpoint tally (source : Address) (t : Tally) (rounds : list ComparisonRound) : option Tally :=
  match rounds with
  | [] => Some t
  | r :: rounds => t ← tally_round source t r; tally source t rounds
  end.

Definition stats_of (rounds : list ComparisonRound) (source : Address)
    : option SourceComparisonStats :=
  t ← tally source (MkTally 0 0 0 0 0 0) rounds;
  let excluded := (MIN_ROUNDS <=? t_admitted t)
                  && (t_counted t * BPS <? t_admitted t * EXCLUSION_COUNTED_BPS) in
  let over (n d : Z) := if 0 <? d then Z.quot n d else 0 in
  Some (MkSourceComparisonStats source (t_admitted t) (t_counted t)
          (over (t_dev_sum t) (t_admitted t))
          (as_u32 (over (Z.max (t_pos t) (t_neg t) * BPS) (t_admitted t)))
          (over (t_infl_sum t) (t_counted t)) excluded).

Record Similarity := MkSimilarity { s_dot : Z; s_na : Z; s_nb : Z; s_shared : Z }.

Definition similarity_step (a b : Address) (s : Similarity) (r : ComparisonRound)
    : option Similarity :=
  da ← deviation_in r a;
  match da with
  | None => Some s
  | Some da =>
      db ← deviation_in r b;
      match db with
      | None => Some s
      | Some db =>
          ab ← i128 (da * db); dot ← i128 (s_dot s + ab);
          aa ← i128 (da * da); na ← i128 (s_na s + aa);
          bb ← i128 (db * db); nb ← i128 (s_nb s + bb);
          Some (MkSimilarity dot na nb (s_shared s + 1))
      end
  end.

Fixpoint similarity (a b : Address) (s : Similarity) (rounds : list ComparisonRound)
    : option Similarity :=
  match rounds with
  | [] => Some s
  | r :: rounds => s ← similarity_step a b s r; similarity a b s rounds
  end.

Definition persistent_source (s : SourceComparisonStats) : bool :=
  PERSISTENCE_BPS <=? cms_direction_persistence_bps s.

(** The pair is flagged, or not. *)
Definition collusion_of (rounds : list ComparisonRound) (a b : SourceComparisonStats)
    : option (option CollusionPair) :=
  s ← similarity (cms_source a) (cms_source b) (MkSimilarity 0 0 0 0) rounds;
  if (s_shared s <? MIN_ROUNDS) || (s_na s =? 0) || (s_nb s =? 0) then Some None
  else
    product ← u128 (as_u128 (s_na s) * as_u128 (s_nb s));
    root ← isqrt product;
    let norm := as_i128 root in
    similarity_bps ← (if 0 <? norm then scaled ← i128 (s_dot s * BPS); div_i128 scaled norm
                      else Some 0);
    Some (if (COLLUSION_SIMILARITY_BPS <=? similarity_bps) && persistent_source a
             && persistent_source b
          then Some (MkCollusionPair (cms_source a) (cms_source b) similarity_bps (s_shared s))
          else None).

Definition cons_some {A} (o : option A) (l : list A) : list A :=
  match o with Some a => a :: l | None => l end.

Fixpoint pairs_with (rounds : list ComparisonRound) (a : SourceComparisonStats)
    (others : list SourceComparisonStats) : option (list CollusionPair) :=
  match others with
  | [] => Some []
  | b :: others =>
      c ← collusion_of rounds a b;
      rest ← pairs_with rounds a others;
      Some (cons_some c rest)
  end.

Fixpoint all_pairs (rounds : list ComparisonRound) (stats : list SourceComparisonStats)
    : option (list CollusionPair) :=
  match stats with
  | [] => Some []
  | a :: stats =>
      c ← pairs_with rounds a stats;
      rest ← all_pairs rounds stats;
      Some (c ++ rest)
  end.

(** The sources of the window, in order of first appearance. *)
Definition window_sources (rounds : list ComparisonRound) : list Address :=
  foldl (λ seen s, if bool_decide (s ∈ seen) then seen else seen ++ [s]) []
    (concat (cmr_sources <$> rounds)).

Definition analyze (rounds : list ComparisonRound) : option ComparisonReport :=
  stats ← mapM (stats_of rounds) (window_sources rounds);
  collusion ← all_pairs rounds stats;
  Some (MkComparisonReport (Z.of_nat (length rounds)) stats collusion).

Definition report (asset : Address) : M ComparisonReport :=
  rounds ← get_rounds asset; lift (analyze rounds).

(** ** Newton's iteration converges *)

Lemma newton_half n x s :
  0 <= s → s * s <= n < (s + 1) * (s + 1) → s < x → 0 <= (x + n / x) / 2 - s <= (x - s) / 2.
Proof.
  intros Hs [Hlo Hhi] Hx.
  assert (n / x <= s).
  { assert (n / x < s + 1); [|lia]. apply Z.div_lt_upper_bound; nia. }
  assert (2 * s <= x + n / x).
  { assert (2 * s - x <= n / x); [|lia]. apply Z.div_le_lower_bound; nia. }
  split.
  - assert (s <= (x + n / x) / 2); [|lia]. apply Z.div_le_lower_bound; lia.
  - replace ((x - s) / 2) with ((x + s) / 2 - s).
    + assert ((x + n / x) / 2 <= (x + s) / 2); [|lia]. apply Z.div_le_mono; lia.
    + replace (x + s) with (x - s + s * 2) by lia. rewrite Z.div_add by lia. lia.
Qed.

Lemma isqrt_loop_total fuel : ∀ n x s,
  1 <= s → s * s <= n < (s + 1) * (s + 1) → n <= U128_MAX → s <= x →
  x <= U128_MAX → x - s < 2 ^ Z.of_nat fuel →
  isqrt_loop (S fuel) n x ((x + n / x) / 2) = Some s.
Proof.
  unfold U128_MAX. induction fuel as [|fuel IH]; intros n x s Hs Hn Hmax Hx Hxm Hd.
  - assert (x = s) as -> by (change (2 ^ Z.of_nat 0) with 1 in Hd; lia). cbn [isqrt_loop].
    assert (s <= n / s) by (apply Z.div_le_lower_bound; nia).
    destruct (_ <? s) eqn:E; [|done]. bool_hyps.
    assert (s <= (s + n / s) / 2) by (apply Z.div_le_lower_bound; lia). lia.
  - destruct (Z.eq_dec x s) as [->|Hne].
    + cbn [isqrt_loop]. assert (s <= n / s) by (apply Z.div_le_lower_bound; nia).
      destruct (_ <? s) eqn:E; [|done]. bool_hyps.
      assert (s <= (s + n / s) / 2) by (apply Z.div_le_lower_bound; lia). lia.
    + destruct (newton_half n x s) as [H1 H2]; [lia..|].
      set (y := (x + n / x) / 2) in *. rewrite Nat2Z.inj_succ, Z.pow_succ_r in Hd by lia.
      assert (y - s < 2 ^ Z.of_nat fuel) by (pose proof (Z.div_lt_upper_bound (x - s) 2 (2 ^ Z.of_nat fuel)); lia).
      assert (y < x) by (pose proof (Z.div_lt (x - s) 2); lia).
      cbn [isqrt_loop]. rewrite (proj2 (Z.ltb_lt y x)) by done.
      unfold udiv. destruct (y =? 0) eqn:E; bool_hyps; [lia|]. obind.
      assert (0 <= n / y) by (apply Z.div_pos; lia).
      assert (n / y < s + 3) by (apply Z.div_lt_upper_bound; nia).
      assert (s < 2 ^ 64) by nia.
      assert (n / x < s + 1) by (apply Z.div_lt_upper_bound; nia).
      assert (2 * y <= x + n / x) by (subst y; pose proof (Z.mul_div_le (x + n / x) 2); lia).
      rewrite u128_ok by (unfold in_u128, U128_MAX; lia). obind. apply IH; lia.
Qed.

(** [isqrt] terminates on every [u128] and returns the floor square root. *)
Lemma isqrt_floor n :
  in_u128 n → ∃ s, isqrt n = Some s ∧ 0 <= s ∧ s * s <= n < (s + 1) * (s + 1).
Proof.
  unfold in_u128, U128_MAX, isqrt. intros Hn. destruct (n <? 2) eqn:E; bool_hyps.
  { exists n. split; [done|]. nia. }
  pose proof (Z.sqrt_spec n ltac:(lia)) as Hs. pose proof (Z.sqrt_nonneg n).
  cbv zeta in Hs. set (s := Z.sqrt n) in *. clearbody s.
  assert (s ≠ 0) by (intros ->; lia).
  exists s. split; [|lia].
  replace ((n + 1) / 2) with ((n + n / n) / 2) by (rewrite Z.div_same by lia; done).
  apply isqrt_loop_total; unfold U128_MAX; try lia. nia.
Qed.
End Analysis.
