(* ===== verification/SourceGuards.v ===== *)
(** * [sources.rs], [storage.rs]: what submission and aggregation ask of a source

    Activity, bond, asset restriction, demerits and the bookkeeping of the
    last submission.  The registry itself is in [Sources.v]. *)
From stdpp Require Import base list strings.
From S2P Require Import Prelude Machine Types Host AuditLog Config Admin Assets Frames.
#[local] Open Scope Z_scope.
#[local] Set Default Goal Selector "!".

(** ** Bonds *)

Definition set_source_bond (amount : Z) : M unit :=
  admin ← get_admin;
  require_auth admin;;
  Flags.mark Flags.SOURCE_BOND;;
  set KeySourceBondAmount amount;;
  publish (MkSourceBondConfigChangedEvent admin amount).

Definition get_source_bond : M Z :=
  on ← Flags.on Flags.SOURCE_BOND;
  if negb on then mret 0 else get_or KeySourceBondAmount 0.

Definition get_source_deposited_bond (source : Address) : M Z := get_or (KeySourceBond source) 0.

Definition forfeit_source_bond_internal `{BuildProfile} (source : Address) : M unit :=
  deposited ← get_source_deposited_bond source;
  if 0 <? deposited then
    balance ← get_or KeyTreasuryBalance 0;
    total ← lift (i128 (balance + deposited));
    set KeyTreasuryBalance total;;
    set (KeySourceBond source) 0;;
    publish (MkSourceBondForfeitedEvent source deposited)
  else mret tt.

(** ** Membership *)

Definition check_source (addr : Address) : M unit :=
  active ← get_or (KeySrcActive addr) false;
  panic_if (negb active) NotAuthorized;;
  required_bond ← get_source_bond;
  (if 0 <? required_bond then
     deposited ← get_source_deposited_bond addr;
     panic_if (deposited <? required_bond) InsufficientBond
   else mret tt);;
  extend_ttl (KeySrcActive addr).

Definition check_source_asset (source asset : Address) : M unit :=
  on ← Flags.on Flags.SOURCE_ASSETS;
  if negb on then mret tt
  else
    assets ← get_touch (KeySourceAssets source);
    match assets with
    | Some assets => panic_if (bool_decide (asset ∉ (assets : list Address))) NotAuthorized
    | None => mret tt
    end.

(** ** Demerits *)

Definition get_demerit_config : M DemeritConfig := get_or KeyDemeritConfig (MkDemeritConfig 2 5 10 100).

Definition set_demerit_config (config : DemeritConfig) : M unit :=
  admin ← get_admin;
  require_auth admin;;
  panic_if ((dmc_probation_threshold config <? dmc_warning_threshold config)
            || (dmc_disqualified_threshold config <? dmc_probation_threshold config))
    InvalidDemeritThreshold;;
  set KeyDemeritConfig config;;
  publish (MkDemeritConfigChangedEvent admin (dmc_warning_threshold config)
             (dmc_probation_threshold config) (dmc_disqualified_threshold config)
             (dmc_cooldown_ledgers config)).

Definition no_demerits : SourceDemeritState := MkSourceDemeritState 0 StatusActive 0.

Definition get_source_demerits (source : Address) : M SourceDemeritState :=
  on ← Flags.on Flags.SOURCE_DEMERITS;
  if negb on then mret no_demerits
  else
    let key := KeySourceDemerits source in
    state ← get_or key no_demerits;
    if bool_decide (sd_status state = StatusDisqualified) then
      config ← get_demerit_config;
      current_ledger ← ledger_sequence;
      if sat_u32 (sd_status_updated_ledger state + dmc_cooldown_ledgers config) <=? current_ledger
      then
        let state := MkSourceDemeritState 0 StatusActive current_ledger in
        put key state;;
        mret state
      else mret state
    else mret state.

Definition is_source_suspended (source : Address) : M bool :=
  state ← get_source_demerits source;
  mret (bool_decide (sd_status state = StatusDisqualified)).

Definition reset_source_demerits (source : Address) : M unit :=
  admin ← get_admin;
  require_auth admin;;
  known ← has (KeySrcActive source);
  panic_if (negb known) SourceNotFound;;
  Flags.mark Flags.SOURCE_DEMERITS;;
  current_ledger ← ledger_sequence;
  put (KeySourceDemerits source) (MkSourceDemeritState 0 StatusActive current_ledger);;
  publish (MkSourceDemeritsResetEvent source admin).

(** ** Last submission of a source *)

Definition record_price_submitted (source : Address) (ledger : Z) : M unit :=
  set (KeySrcLastPriceLedger source) ledger;;
  inactive ← is_source_inactive source;
  if inactive : bool then set (KeySrcPriceSubmitAfterReactivation source) true else mret tt.

Definition get_last_price_ledger (source : Address) : M Z := get_or (KeySrcLastPriceLedger source) 0.

Definition get_source_last_heartbeat (source : Address) : M Z := get_or (KeySrcHeartbeat source) 0.

Lemma readonly_check_source a : readonly (check_source a).
Proof. unfold check_source, get_source_bond, get_source_deposited_bond. read_only. Qed.
