(* ===== verification/Blackout.v ===== *)
(** * [blackout.rs]: windows in which an asset publishes nothing

    A window is opened by the administrator with notice or by a quorum of
    sources; it lasts at most six hours and the next one may start six hours
    after its end at the earliest. *)
From stdpp Require Import base list strings.
From S2P Require Import Prelude Machine Types Host AuditLog Config Admin Assets Frames SourceLifecycle SourceGuards.
#[local] Open Scope Z_scope.
#[local] Set Default Goal Selector "!".

Definition MAX_BLACKOUT_SECS : Z := 21600.
Definition MIN_NOTICE_SECS : Z := 3600.
Definition COOLDOWN_SECS : Z := 21600.
Definition SIGNAL_WINDOW_SECS : Z := 300.
Definition VOLATILITY_BLACKOUT_SECS : Z := 1800.
Definition DEFAULT_VOLATILITY_QUORUM : Z := 3.
Definition ORIGIN_SCHEDULED : Z := 1.
Definition ORIGIN_VOLATILITY : Z := 2.

Definition get_window (asset : Address) : M (option BlackoutWindow) :=
  on ← Flags.on Flags.BLACKOUT;
  if negb on then mret None else get (KeyBlackoutWindow asset).

Definition get_volatility_quorum : M Z := get_or KeyBlackoutQuorum DEFAULT_VOLATILITY_QUORUM.

Definition get_maintenance_windows : M (list MaintenanceWindow) := get_or KeyBlackoutMaintenance [].

Definition overlaps (a_start a_end b_start b_end : Z) : bool :=
  (a_start <? b_end) && (b_start <? a_end).

(** ** The maintenance calendar *)

(** [offline.saturating_add(1)] for every element that satisfies [p]. *)
Definition count_sat {A} (p : A → bool) (n : Z) (xs : list A) : Z :=
  foldl (λ n x, if p x then sat_u32 (n + 1) else n) n xs.

Definition count_windows (assets : list Address) : M Z :=
  fold_m (λ offline asset,
    w ← get_window asset;
    mret (match w with Some _ => sat_u32 (offline + 1) | None => offline end)) 0 assets.

Definition check_maintenance_quorum (assets : list Address) (start end_ : Z) : M unit :=
  quorum ← get_volatility_quorum;
  offline ← count_windows assets;
  existing ← get_maintenance_windows;
  let offline :=
    foldl (λ n e,
      if overlaps start end_ (mw_start e) (mw_end e)
      then count_sat (λ asset, bool_decide (asset ∈ mw_assets e)) n assets
      else n) offline existing in
  panic_if (quorum <=? offline) InvalidConfiguration.

Definition schedule_maintenance (start end_ : Z) (assets : list Address) : M unit :=
  admin ← get_admin;
  require_auth admin;;
  panic_if ((end_ <=? start) || bool_decide (assets = [])) InvalidConfiguration;;
  for_each assets check_registered_asset;;
  check_maintenance_quorum assets start end_;;
  windows ← get_maintenance_windows;
  put KeyBlackoutMaintenance (windows ++ [MkMaintenanceWindow start end_ assets]);;
  publish (MkMaintenanceScheduledEvent start end_ assets).

Definition set_volatility_quorum (quorum : Z) : M unit :=
  admin ← get_admin;
  require_auth admin;;
  panic_if (quorum <? 2) InvalidConfiguration;;
  set KeyBlackoutQuorum quorum.

(** ** Windows *)

Definition store_window (asset : Address) (w : BlackoutWindow) : M unit :=
  Flags.mark Flags.BLACKOUT;; put (KeyBlackoutWindow asset) w.

Definition close (asset : Address) (w : BlackoutWindow) (cancelled : bool) : M unit :=
  remove (KeyBlackoutWindow asset);;
  now ← ledger_timestamp;
  let end_ := if cancelled then Z.min now (bw_end w) else bw_end w in
  set (KeyBlackoutLastEnd asset) end_;;
  publish (MkBlackoutExitedEvent asset (bw_start w) end_ cancelled).

Definition check_can_open (asset : Address) (start : Z) : M unit :=
  now ← ledger_timestamp;
  w ← get_window asset;
  match w with
  | Some w => panic_if (now <? bw_end w) InvalidConfiguration;; close asset w false
  | None => mret tt
  end;;
  last_end ← get (KeyBlackoutLastEnd asset);
  match last_end with
  | Some last_end => panic_if (start <? sat_u64 (last_end + COOLDOWN_SECS)) InvalidConfiguration
  | None => mret tt
  end.

Definition open (asset : Address) (w : BlackoutWindow) : M unit :=
  store_window asset w;;
  publish (MkBlackoutScheduledEvent asset (bw_start w) (bw_end w) (bw_origin w)).

Section Windows.
Context `{BP : BuildProfile}.

Definition schedule (asset : Address) (start end_ : Z) : M unit :=
  admin ← get_admin;
  require_auth admin;;
  check_registered_asset asset;;
  now ← ledger_timestamp;
  panic_if ((start <? sat_u64 (now + MIN_NOTICE_SECS)) || (end_ <=? start)
            || (MAX_BLACKOUT_SECS <? end_ - start)) InvalidConfiguration;;
  check_can_open asset start;;
  open asset (MkBlackoutWindow start end_ ORIGIN_SCHEDULED).

Definition extend (asset : Address) (new_end : Z) : M unit :=
  admin ← get_admin;
  require_auth admin;;
  w ← get_window asset;
  match w with
  | None => panic_with_error InvalidConfiguration
  | Some w =>
      now ← ledger_timestamp;
      panic_if ((bw_end w <=? now) || (new_end <=? bw_end w)
                || (MAX_BLACKOUT_SECS <? new_end - bw_start w)) InvalidConfiguration;;
      store_window asset (MkBlackoutWindow (bw_start w) new_end (bw_origin w));;
      publish (MkBlackoutExtendedEvent asset (bw_start w) (bw_end w) new_end)
  end.

Definition cancel (asset : Address) : M unit :=
  admin ← get_admin;
  require_auth admin;;
  w ← get_window asset;
  match w with
  | None => panic_with_error InvalidConfiguration
  | Some w => close asset w true
  end.

(** The signals still inside the signal window. *)
Definition live_signals (now : Z) (stored : option VolatilitySignals) : VolatilitySignals :=
  match stored with
  | Some s => if sat_u64 (now - vs_since s) <? SIGNAL_WINDOW_SECS then s
              else MkVolatilitySignals now []
  | None => MkVolatilitySignals now []
  end.

Definition signal_volatility (source asset : Address) : M bool :=
  require_auth source;;
  check_source source;;
  check_registered_asset asset;;
  probation ← SourceLifecycle.on_probation source;
  panic_if probation NotAuthorized;;
  now ← ledger_timestamp;
  let key := KeyBlackoutSignals asset in
  stored ← get key;
  let s := live_signals now stored in
  let s := if bool_decide (source ∈ vs_sources s) then s
           else MkVolatilitySignals (vs_since s) (vs_sources s ++ [source]) in
  quorum ← get_volatility_quorum;
  let count := Z.of_nat (length (vs_sources s)) in
  publish (MkVolatilitySignalEvent asset source count quorum);;
  if count <? quorum then
    set key s;;
    mret false
  else
    remove key;;
    check_can_open asset now;;
    end_ ← lift (u64 (now + VOLATILITY_BLACKOUT_SECS));
    open asset (MkBlackoutWindow now end_ ORIGIN_VOLATILITY);;
    mret true.

Definition suppresses (asset : Address) : M bool :=
  w ← get_window asset;
  match w with
  | None => mret false
  | Some w =>
      now ← ledger_timestamp;
      if now <? bw_start w then mret false
      else if bw_end w <=? now then close asset w false;; mret false
      else publish (MkBlackoutWithheldEvent asset now (bw_end w));; mret true
  end.
End Windows.

(** ** The griefing bound *)

(** Calls that concern the windows of one asset, and what they answer: [true]
    only when a publication was suppressed. *)
Inductive BlackoutCall :=
  | Schedule (start end_ : Z)
  | Extend (new_end : Z)
  | Cancel
  | Signal (source : Address)
  | Suppresses.

Section Griefing.
Context `{BP : BuildProfile} (asset : Address).

Definition blackout_call (call : BlackoutCall) : M bool :=
  match call with
  | Schedule start end_ => schedule asset start end_;; mret false
  | Extend new_end => extend asset new_end;; mret false
  | Cancel => cancel asset;; mret false
  | Signal source => signal_volatility source asset;; mret false
  | Suppresses => suppresses asset
  end.

Definition call_ok (call : BlackoutCall) : Prop :=
  match call with
  | Schedule start end_ => in_u64 start ∧ in_u64 end_
  | Extend new_end => in_u64 new_end
  | _ => True
  end.

Definition window_of (w : World) : option BlackoutWindow := persistent w (KeyBlackoutWindow asset).
Definition last_end_of (w : World) : option Z := persistent w (KeyBlackoutLastEnd asset).

(** A world reached at time [now], with the times of the suppressed
    publications so far: calls on the asset at non-decreasing times, and any
    other calls in between. *)
Inductive blackout_reach : World → Z → list Z → Prop :=
  | reach_start w now : window_of w = None → last_end_of w = None → 0 <= now → blackout_reach w now []
  | reach_call w now suppressed call c b w' :
      blackout_reach w now suppressed → now <= timestamp c →
      timestamp c + VOLATILITY_BLACKOUT_SECS <= U64_MAX → call_ok call →
      blackout_call call c w = Ok b w' →
      blackout_reach w' (timestamp c) (if b : bool then timestamp c :: suppressed else suppressed)
  | reach_other w now suppressed w' :
      blackout_reach w now suppressed → window_of w' = window_of w → last_end_of w' = last_end_of w →
      (Flags.is_on w Flags.BLACKOUT = true → Flags.is_on w' Flags.BLACKOUT = true) →
      blackout_reach w' now suppressed.

(** The invariant: the window is short, starts a cooldown after everything
    suppressed before it, and everything suppressed lies in the past. *)
Definition window_ok (suppressed : list Z) (last : option Z) (win : BlackoutWindow) : Prop :=
  bw_start win < bw_end win <= U64_MAX ∧ bw_end win - bw_start win <= MAX_BLACKOUT_SECS ∧
  ∀ t, t ∈ suppressed → t < bw_end win ∧ (bw_start win <= t ∨ t + COOLDOWN_SECS <= bw_start win).

Definition blackout_inv (w : World) (now : Z) (suppressed : list Z) : Prop :=
  0 <= now ∧ (∀ t, t ∈ suppressed → 0 <= t <= now) ∧
  match window_of w with
  | Some win => Flags.is_on w Flags.BLACKOUT = true ∧ window_ok suppressed (last_end_of w) win
  | None => ∀ t, t ∈ suppressed → ∃ l, last_end_of w = Some l ∧ t <= l
  end.

(** The parts of the world the invariant reads. *)
Definition same_blackout (w w' : World) : Prop :=
  window_of w' = window_of w ∧ last_end_of w' = last_end_of w ∧
  Flags.is_on w' Flags.BLACKOUT = Flags.is_on w Flags.BLACKOUT.

Lemma same_blackout_inv w w' now suppressed :
  same_blackout w w' → blackout_inv w now suppressed → blackout_inv w' now suppressed.
Proof. intros (Hw & Hl & Hf). unfold blackout_inv. by rewrite Hw, Hl, Hf. Qed.

Lemma same_registered a c w u w' : check_registered_asset a c w = Ok u w' → same_blackout w w'.
Proof. intros [-> | ->]%check_registered_Ok; done. Qed.

Lemma later w now now' suppressed :
  now <= now' → blackout_inv w now suppressed → blackout_inv w now' suppressed.
Proof.
  intros Hle (Hn & Ht & Hw). split; [lia|]. split; [|done]. intros t Hin. specialize (Ht t Hin). lia.
Qed.

Lemma get_window_Ok c w r w' :
  get_window asset c w = Ok r w' →
  w' = w ∧ ((Flags.is_on w Flags.BLACKOUT = true ∧ r = window_of w) ∨
            (Flags.is_on w Flags.BLACKOUT = false ∧ r = None)).
Proof.
  unfold get_window. rewrite run_bind, run_flag_on.
  destruct (Flags.is_on w Flags.BLACKOUT); simpl; intros [= <- <-]; auto.
Qed.

Lemma close_spec win cancelled c w u w' :
  close asset win cancelled c w = Ok u w' →
  window_of w' = None ∧
  last_end_of w' = Some (if cancelled then Z.min (timestamp c) (bw_end win) else bw_end win).
Proof.
  unfold close. intros H. ok_inv. unfold window_of, last_end_of. split; by read_store.
Qed.

Lemma close_inv win cancelled c w now suppressed u w' :
  blackout_inv w now suppressed → now <= timestamp c → window_of w = Some win →
  close asset win cancelled c w = Ok u w' → blackout_inv w' (timestamp c) suppressed.
Proof.
  intros (Hn & Ht & Hw) Hnow Hwin H. rewrite Hwin in Hw. destruct Hw as (_ & _ & _ & Hs).
  apply close_spec in H as [E1 E2]. unfold blackout_inv. rewrite E1, E2.
  split; [lia|]. split; [intros t Hin; specialize (Ht t Hin); lia|].
  intros t Hin. eexists. split; [done|]. specialize (Ht t Hin). destruct (Hs t Hin) as [? _].
  destruct cancelled; lia.
Qed.

(** What a successful [check_can_open] leaves: no window, and a start that is
    a cooldown after everything suppressed. *)
Lemma check_can_open_inv start c w now suppressed u w' :
  blackout_inv w now suppressed → now <= timestamp c → 0 <= start < U64_MAX →
  check_can_open asset start c w = Ok u w' →
  ∀ t, t ∈ suppressed → t + COOLDOWN_SECS <= start.
Proof.
  intros Hinv Hnow Hstart H t Hin. unfold check_can_open in H.
  rewrite run_bind, run_timestamp in H. cbv beta iota in H.
  apply bind_Ok in H as (r & w1 & Hg & H). apply get_window_Ok in Hg as [-> Hg].
  apply bind_Ok in H as ([] & w1 & Hc & H).
  assert (blackout_inv w1 (timestamp c) suppressed ∧ window_of w1 = None) as [Hinv1 Hnone].
  { destruct r as [win|].
    - destruct Hg as [[_ Hwin]|[_ [=]]]. symmetry in Hwin. ok_inv. split; [exact (close_inv _ _ _ _ _ _ _ _ Hinv Hnow Hwin Hc)|].
      by match goal with H : close _ _ _ _ _ = _ |- _ => apply close_spec in H as [? _] end.
    - injection Hc as <-. split; [exact (later _ _ _ _ Hnow Hinv)|]. destruct Hg as [[_ Hwin]|[Hoff _]]; [done|].
      destruct Hinv as (_ & _ & Hw). destruct (window_of _); [|done]. destruct Hw. congruence. }
  destruct Hinv1 as (_ & Ht & Hl). rewrite Hnone in Hl. destruct (Hl t Hin) as (l & El & Htl).
  rewrite run_bind, run_get in H. cbv beta iota in H.
  unfold last_end_of in El. rewrite El in H. ok_inv. bool_hyps. specialize (Ht t Hin).
  unfold sat_u64, clampZ, U64_MAX, COOLDOWN_SECS in *. lia.
Qed.

Lemma store_window_spec win c w u w' :
  store_window asset win c w = Ok u w' →
  window_of w' = Some win ∧ Flags.is_on w' Flags.BLACKOUT = true.
Proof.
  unfold store_window. intros H. ok_inv. rewrite run_mark in *. ok_inv. unfold window_of.
  rewrite is_on_put_persistent, is_on_marked. split; [by read_store|].
  apply orb_true_iff. by right.
Qed.

Lemma open_spec win c w u w' :
  open asset win c w = Ok u w' → window_of w' = Some win ∧ Flags.is_on w' Flags.BLACKOUT = true.
Proof.
  unfold open. intros H. ok_inv.
  match goal with H : store_window _ _ _ _ = _ |- _ => by apply store_window_spec in H end.
Qed.

Lemma open_window start end_ origin c w w1 now suppressed u u' w' :
  blackout_inv w now suppressed → now <= timestamp c →
  0 <= start < end_ → end_ <= U64_MAX → end_ - start <= MAX_BLACKOUT_SECS →
  check_can_open asset start c w = Ok u w1 →
  open asset (MkBlackoutWindow start end_ origin) c w1 = Ok u' w' →
  blackout_inv w' (timestamp c) suppressed.
Proof.
  intros Hinv Hnow Hstart Hend Hlen Hcan Hopen.
  assert (0 <= start < U64_MAX) as Hs by lia.
  pose proof (check_can_open_inv _ _ _ _ _ _ _ Hinv Hnow Hs Hcan) as Hgap.
  apply open_spec in Hopen as [Ew Ef]. unfold blackout_inv. rewrite Ew.
  destruct Hinv as (Hn & Ht & _). split; [lia|].
  split; [intros t Hin; specialize (Ht t Hin); lia|]. split; [done|]. unfold window_ok. simpl.
  split; [lia|]. split; [lia|]. intros t Hin. specialize (Hgap t Hin). unfold COOLDOWN_SECS in *. lia.
Qed.

Lemma readonly_on_probation a : readonly (SourceLifecycle.on_probation a).
Proof.
  unfold SourceLifecycle.on_probation, SourceLifecycle.any_probation, SourceLifecycle.get_record.
  read_only.
Qed.

(** Extending a window keeps the invariant: the end only moves out. *)
Lemma extend_inv new_end c w now suppressed u w' :
  blackout_inv w now suppressed → now <= timestamp c → in_u64 new_end →
  extend asset new_end c w = Ok u w' → blackout_inv w' (timestamp c) suppressed.
Proof.
  intros Hinv Hnow [_ Hmax] H. unfold extend in H.
  apply bind_Ok in H as (admin & w1 & Hg & H). apply get_admin_Ok in Hg as [-> _].
  apply bind_Ok in H as ([] & w1 & Ha & H).
  apply require_auth_Ok in Ha as [-> _].
  apply bind_Ok in H as (r & w1 & Hg & H). apply get_window_Ok in Hg as [-> Hg].
  destruct Hinv as (Hn & Hts & Hwin).
  destruct Hg as [[Hon ->]|[_ ->]]; [|done]. destruct (window_of w) as [win|]; [|done].
  destruct Hwin as (_ & Hse & Hlen & Hs).
  rewrite run_bind, run_timestamp in H. cbv beta iota in H.
  rewrite run_bind, run_panic_if in H. case_if; [done|]. bool_hyps.
  apply bind_Ok in H as ([] & w1 & Hst & [= _ <-]).
  apply store_window_spec in Hst as [Ew Ef]. unfold blackout_inv.
  change (window_of (add_event _ w1)) with (window_of w1). rewrite Ew.
  change (Flags.is_on (add_event _ w1)) with (Flags.is_on w1).
  split; [lia|]. split; [intros t Hin; specialize (Hts t Hin); lia|]. split; [done|].
  unfold window_ok. simpl. split; [lia|]. split; [lia|]. intros t Hin. specialize (Hs t Hin). lia.
Qed.

Lemma signal_inv source c w now suppressed b w' :
  blackout_inv w now suppressed → now <= timestamp c →
  timestamp c + VOLATILITY_BLACKOUT_SECS <= U64_MAX →
  signal_volatility source asset c w = Ok b w' → blackout_inv w' (timestamp c) suppressed.
Proof.
  intros Hinv Hnow Hmax H. unfold signal_volatility in H.
  apply bind_Ok in H as ([] & w1 & Ha & H). apply require_auth_Ok in Ha as [-> _].
  apply bind_Ok in H as ([] & w1 & Ha1 & H). apply readonly_check_source in Ha1 as ->.
  apply bind_Ok in H as ([] & w1 & Ha1 & H). apply same_registered in Ha1 as Hs.
  apply (same_blackout_inv _ _ _ _ Hs) in Hinv.
  apply bind_Ok in H as (prob & w2 & Ha2 & H). apply readonly_on_probation in Ha2 as ->.
  rewrite run_bind, run_panic_if in H. destruct prob; [done|].
  rewrite run_bind, run_timestamp in H. cbv beta iota zeta in H.
  rewrite run_bind, run_get in H. cbv beta iota in H.
  rewrite run_bind in H. unfold get_volatility_quorum in H. rewrite run_get_or in H.
  cbv beta iota in H. rewrite run_bind, run_publish in H. cbv beta iota in H.
  assert (∀ w, same_blackout w1 w → blackout_inv w now suppressed) as Hsame
    by (intros w2 Hs2; by eapply same_blackout_inv).
  case_if; [ok_inv; by apply (later _ _ _ _ Hnow), Hsame|].
  rewrite run_bind, run_remove in H. cbv beta iota in H.
  apply bind_Ok in H as ([] & w2 & Hcan & H). apply bind_Ok in H as (end_ & w3 & He & H).
  rewrite u64_ok in He by (unfold in_u64; destruct Hinv; unfold VOLATILITY_BLACKOUT_SECS in *; lia).
  simpl in He. injection He as <- <-. apply bind_Ok in H as ([] & w3 & Hopen & [= _ <-]).
  destruct (Hsame w1) as (Hn & _); [done|].
  eapply (open_window (timestamp c)); [|exact Hnow| | | |exact Hcan|exact Hopen];
    unfold VOLATILITY_BLACKOUT_SECS, MAX_BLACKOUT_SECS in *; [by apply Hsame|lia..].
Qed.

(** Every call keeps the invariant; a suppression is inside the window. *)
Lemma suppresses_inv c w now suppressed b w' :
  blackout_inv w now suppressed → now <= timestamp c → suppresses asset c w = Ok b w' →
  blackout_inv w' (timestamp c) (if b then timestamp c :: suppressed else suppressed) ∧
  (b = true → ∃ win, window_of w = Some win ∧ bw_start win <= timestamp c < bw_end win).
Proof.
  intros Hinv Hnow H. unfold suppresses in H.
  apply bind_Ok in H as (r & w1 & Hg & H). apply get_window_Ok in Hg as [-> Hg].
  destruct r as [win|]; [|ok_inv; split; [exact (later _ _ _ _ Hnow Hinv)|done]].
  destruct Hg as [[Hon Hwin]|[_ [=]]]. symmetry in Hwin.
  rewrite run_bind, run_timestamp in H. cbv beta iota in H.
  destruct (timestamp c <? bw_start win) eqn:E1;
    [ok_inv; split; [exact (later _ _ _ _ Hnow Hinv)|done]|].
  destruct (bw_end win <=? timestamp c) eqn:E2; bool_hyps.
  { apply bind_Ok in H as ([] & w1 & Hc & [= <- <-]). split; [by eapply close_inv|done]. }
  ok_inv. split; [|by intros _; exists win]. apply (later _ _ _ _ Hnow) in Hinv.
  destruct Hinv as (Hn & Hts & Hw). unfold blackout_inv.
  change (window_of (add_event ?e ?w)) with (window_of w) in *.
  unfold window_of in *. cbn [persistent add_event] in *. rewrite Hwin in *.
  destruct Hw as (_ & Hse & Hlen & Hs). split; [done|].
  split; [intros t [->|Hin]%elem_of_cons; [lia|auto]|]. split; [done|]. split; [done|]. split; [done|].
  intros t [->|Hin]%elem_of_cons; [lia|auto].
Qed.

Lemma blackout_call_inv call c w now suppressed b w' :
  blackout_inv w now suppressed → now <= timestamp c →
  timestamp c + VOLATILITY_BLACKOUT_SECS <= U64_MAX → call_ok call →
  blackout_call call c w = Ok b w' →
  blackout_inv w' (timestamp c) (if b then timestamp c :: suppressed else suppressed).
Proof.
  intros Hinv Hnow Hmax Hok H.
  destruct call as [start end_|new_end| |source|]; simpl in H, Hok.
  - apply bind_Ok in H as ([] & w1 & H & [= <- <-]). unfold schedule in H.
    apply bind_Ok in H as (admin & w2 & Hg & H). apply get_admin_Ok in Hg as [-> _].
    apply bind_Ok in H as ([] & w2 & Ha & H). apply require_auth_Ok in Ha as [-> _].
    apply bind_Ok in H as ([] & w2 & Hr & H). apply same_registered in Hr as Hs.
    rewrite run_bind, run_timestamp in H. cbv beta iota in H.
    rewrite run_bind, run_panic_if in H. case_if; [done|]. bool_hyps.
    apply bind_Ok in H as ([] & w3 & Hcan & H). destruct Hok as [[Hs1 _] [_ He2]].
    eapply open_window; [by eapply same_blackout_inv|exact Hnow| | | |exact Hcan|exact H]; lia.
  - apply bind_Ok in H as ([] & w1 & H & [= <- <-]). by eapply extend_inv.
  - apply bind_Ok in H as ([] & w1 & H & [= <- <-]). unfold cancel in H.
    apply bind_Ok in H as (admin & w2 & Hg & H). apply get_admin_Ok in Hg as [-> _].
    apply bind_Ok in H as ([] & w2 & Ha & H). apply require_auth_Ok in Ha as [-> _].
    apply bind_Ok in H as (r & w2 & Hg & H). apply get_window_Ok in Hg as [-> Hg].
    destruct r as [win|]; [|done]. destruct Hg as [[_ Hw]|[_ [=]]]. symmetry in Hw.
    by eapply close_inv.
  - apply bind_Ok in H as (b1 & w1 & H & [= <- <-]). by eapply signal_inv.
  - by apply (suppresses_inv _ _ _ _ _ _ Hinv Hnow H).
Qed.

Lemma blackout_reach_inv w now suppressed :
  blackout_reach w now suppressed → blackout_inv w now suppressed.
Proof.
  induction 1 as [w now Hw Hl Hn|w now sup call c b w' _ IH Hnow Hmax Hok H|w now sup w' _ IH Hw Hl Hf].
  - unfold blackout_inv. rewrite Hw. split; [done|]. split; by intros t Hin%not_elem_of_nil.
  - by eapply blackout_call_inv.
  - unfold blackout_inv in *. rewrite Hw, Hl. destruct IH as (? & ? & IH). split; [done|]. split; [done|].
    destruct (window_of w); [|done]. destruct IH. auto.
Qed.

(** C36. Blackouts cannot silence an asset for long.  Whatever the
    administrator and the sources do, in any order and at any non-decreasing
    times, a publication suppressed at time [t] belongs to a blackout that
    started at some [s] at most six hours before, and every publication
    suppressed earlier either belongs to the same blackout or happened at least
    the six hours of the cooldown before [s]. *)
Theorem blackout_griefing_bound w now suppressed c w' :
  blackout_reach w now suppressed → now <= timestamp c → suppresses asset c w = Ok true w' →
  ∃ s, s <= timestamp c < s + MAX_BLACKOUT_SECS ∧
    ∀ t, t ∈ suppressed → s <= t ∨ t + COOLDOWN_SECS <= s.
Proof.
  intros Hr Hnow H. apply blackout_reach_inv in Hr as Hinv.
  destruct (suppresses_inv _ _ _ _ _ _ Hinv Hnow H) as [_ Hw].
  destruct (Hw eq_refl) as (win & Ew & Hin). destruct Hinv as (_ & _ & Hok). rewrite Ew in Hok.
  destruct Hok as (_ & Hse & Hlen & Hs). exists (bw_start win). split; [lia|].
  intros t Ht. by destruct (Hs t Ht).
Qed.
End Griefing.

Lemma blackout_griefing_bound_witness :
  let c0 := MkCtx 1 1000 (λ _, true) 0%N in
  let c1 := MkCtx 2 5000 (λ _, true) 0%N in
  let w := put_persistent KeyAdmin (Some 9%N)
             (put_persistent (KeyAssetRegistryIndex 7%N) (Some true) empty_world) in
  let w0 := invoke (schedule 7%N 4600 8000) c0 w in
  let w1 := invoke (@suppresses 7%N) c1 w0 in
  @blackout_reach Wrapping 7%N w0 1000 [] ∧ suppresses 7%N c1 w0 = Ok true w1 ∧
  ∃ s, s <= 5000 < s + MAX_BLACKOUT_SECS.
Proof.
  intros c0 c1 w w0 w1.
  assert (@blackout_reach Wrapping 7%N w0 1000 []) as Hr.
  { apply (reach_call (BP := Wrapping) 7%N w 0 [] (Schedule 4600 8000) c0 false w0).
    - apply reach_start; [reflexivity|reflexivity|lia].
    - vm_compute. discriminate.
    - vm_compute. discriminate.
    - split; split; vm_compute; discriminate.
    - vm_compute. reflexivity. }
  split; [exact Hr|]. assert (suppresses 7%N c1 w0 = Ok true w1) as H by reflexivity.
  split; [exact H|].
  destruct (blackout_griefing_bound (BP := Wrapping) 7%N w0 1000 [] c1 w1 Hr) as (s & Hs & _).
  - vm_compute. discriminate.
  - exact H.
  - exists s. exact Hs.
Defined.
