(* ===== verification/SanityLattice.v ===== *)
(** * [sanity_lattice.rs]: declared relations between the prices of assets

    A candidate is compared with the published prices of the assets it is
    pegged to, triangulated with or kept close to; a violated relation flags
    the candidate, rejects it or quarantines the asset. *)
From stdpp Require Import base list strings.
From S2P Require Import Prelude Machine Types Host AuditLog Config Admin Assets PriceBounds.
#[local] Open Scope Z_scope.
#[local] Set Default Goal Selector "!".

Definition MAX_TOLERANCE_BPS : Z := 10000.
Definition MAX_EXPANSIONS : nat := 64.
Definition MAX_RELATIONS_PER_ASSET : Z := 16.

Definition is_kind (k : SanityRelationKind) (r : SanityRelation) : bool :=
  bool_decide (sr_kind r = k).

Definition validate (asset : Address) (r : SanityRelation) : M unit :=
  panic_if ((sr_tolerance_bps r =? 0) || (MAX_TOLERANCE_BPS <? sr_tolerance_bps r))
    InvalidSanityTolerance;;
  match sr_kind r with
  | KindTriangle =>
      match sr_peer2 r with
      | None => panic_with_error InvalidSanityRelation
      | Some p2 =>
          panic_if (bool_decide (p2 = asset) || bool_decide (sr_peer r = asset)
                    || bool_decide (sr_peer r = p2)) InvalidSanityRelation
      end
  | _ => panic_if (bool_decide (sr_peer r = asset)) InvalidSanityRelation
  end;;
  panic_if (is_kind KindPeg r && ((sr_ratio_den r =? 0) || (sr_ratio_num r <=? 0)))
    InvalidSanityRatio;;
  check_registered_asset (sr_peer r);;
  match sr_peer2 r with Some p2 => check_registered_asset p2 | None => mret tt end.

Definition get_relations (asset : Address) : M (list SanityRelation) :=
  v ← get_touch (KeyAssetSanityRelations asset); mret (default [] v).

(** [existing.peer == peer && existing.kind == kind] *)
Definition same_pair (peer : Address) (kind : SanityRelationKind) (r : SanityRelation) : bool :=
  bool_decide (sr_peer r = peer) && is_kind kind r.

Section Declaration.
Context `{BP : BuildProfile} `{CR : Crypto}.

Definition add_relation (asset : Address) (relation : SanityRelation) : M unit :=
  admin ← auth_admin;
  check_registered_asset asset;;
  validate asset relation;;
  list ← get_relations asset;
  panic_if (MAX_RELATIONS_PER_ASSET <=? Z.of_nat (length list)) InvalidConfiguration;;
  panic_if (existsb (same_pair (sr_peer relation) (sr_kind relation)) list) InvalidSanityRelation;;
  put (KeyAssetSanityRelations asset) (list ++ [relation]);;
  PriceBounds.note_sanity_relation;;
  emit_admin_action "san_rel" admin [].

Definition remove_relation (asset peer : Address) (kind : SanityRelationKind) : M unit :=
  admin ← get_admin;
  require_auth admin;;
  list ← get_relations asset;
  put (KeyAssetSanityRelations asset) (filter (λ r, same_pair peer kind r = false) list).

Definition declare_depeg (asset : Address) (until_ledger : Z) (reason : string) : M unit :=
  admin ← auth_admin;
  check_registered_asset asset;;
  put (KeyAssetSanitySuspended asset) until_ledger;;
  ledger ← ledger_sequence;
  publish (MkDepegDeclaredEvent asset until_ledger reason ledger);;
  emit_admin_action "depeg" admin [].
End Declaration.

Definition clear_depeg (asset : Address) : M unit :=
  admin ← get_admin;
  require_auth admin;;
  remove (KeyAssetSanitySuspended asset).

Definition is_suspended (asset : Address) : M bool :=
  until ← get (KeyAssetSanitySuspended asset);
  match until with
  | Some until => ledger ← ledger_sequence; mret (ledger <=? until)
  | None => mret false
  end.

(** ** Reachability, breadth first *)

Definition peers (r : SanityRelation) : list Address :=
  sr_peer r :: match sr_peer2 r with Some p => [p] | None => [] end.

(** [(seen, out, frontier)] after looking at one peer. *)
Definition visit (acc : list Address * list Address * list Address) (peer : Address)
    : list Address * list Address * list Address :=
  let '(seen, out, frontier) := acc in
  if bool_decide (peer ∈ seen) then acc else (seen ++ [peer], out ++ [peer], frontier ++ [peer]).

Fixpoint expand (n : nat) (seen out frontier : list Address) : M (list Address) :=
  match n, frontier with
  | O, _ | _, [] => mret out
  | S n, current :: _ =>
      relations ← get_relations current;
      let '(seen, out, frontier) := foldl visit (seen, out, frontier) (relations ≫= peers) in
      expand n seen out (drop 1 frontier)
  end.

Definition reachable (asset : Address) : M (list Address) := expand MAX_EXPANSIONS [asset] [] [asset].

(** ** The check *)

Definition stored_price (asset : Address) : M (option Z) :=
  a ← get (KeyAggregate asset);
  mret (match a with Some a => if 0 <? ap_price a then Some (ap_price a) else None | None => None end).

Definition read_status (asset : Address) : M (option SanityStatus) := get_touch (KeyAssetSanityStatus asset).
Definition get_status (asset : Address) : M (option SanityStatus) := read_status asset.

Definition clear_quarantine (asset : Address) : M unit :=
  admin ← get_admin;
  require_auth admin;;
  check_registered_asset asset;;
  remove (KeyAssetSanityStatus asset).

Record Verdict := MkVerdict { v_blocked : bool; v_flagged : bool; v_status : SanityStatus }.

Section Check.
Context `{BP : BuildProfile}.

Definition deviation_bps (price expected : Z) : option Z :=
  if expected =? 0 then Some U32_MAX
  else
    gap ← i128 (price - expected);
    diff ← i128 (Z.abs gap);
    size ← i128 (Z.abs expected);
    scaled ← div_i128 (sat_i128 (diff * 10000)) size;
    Some (if U32_MAX <? scaled then U32_MAX else as_u32 scaled).

(** The value a relation expects; [None] skips the relation. *)
Definition expected_of (r : SanityRelation) (reference : Z) : M (option Z) :=
  match sr_kind r with
  | KindPeg => mret (Some (default 0 (div_i128 (sat_i128 (reference * sr_ratio_num r)) (sr_ratio_den r))))
  | KindTriangle => match sr_peer2 r with Some p => stored_price p | None => mret None end
  | KindSpread => mret (Some reference)
  end.

Definition magnitude_of (r : SanityRelation) (price reference expected : Z) : option Z :=
  match sr_kind r with
  | KindSpread =>
      size ← i128 (Z.abs price);
      gap ← i128 (price - reference);
      diff ← i128 (Z.abs gap);
      q ← div_i128 (sat_i128 (diff * 10000)) (Z.max size 1);
      Some (as_u32 q)
  | _ => deviation_bps price expected
  end.

Definition with_checked (s : SanityStatus) (checked : Z) : SanityStatus :=
  MkSanityStatus (ss_asset s) (ss_violated s) (ss_suspended s) checked (ss_conflicting_asset s)
    (ss_magnitude_bps s) (ss_tolerance_bps s) (ss_action s) (ss_quarantined s) (ss_ledger s).

Definition violation (s : SanityStatus) (r : SanityRelation) (magnitude : Z) : SanityStatus :=
  MkSanityStatus (ss_asset s) true (ss_suspended s) (ss_checked s) (Some (sr_peer r)) magnitude
    (sr_tolerance_bps r) (sr_action r)
    (ss_quarantined s || bool_decide (sr_action r = SanityQuarantine)) (ss_ledger s).

(** One relation. *)
Definition check_relation (asset : Address) (price ledger : Z) (v : Verdict) (r : SanityRelation)
    : M Verdict :=
  reference ← stored_price (sr_peer r);
  match reference with
  | None => mret v
  | Some reference =>
      expected ← expected_of r reference;
      match expected with
      | None => mret v
      | Some expected =>
          if expected <=? 0 then mret v
          else
            checked ← lift (u32 (ss_checked (v_status v) + 1));
            let status := with_checked (v_status v) checked in
            magnitude ← lift (magnitude_of r price reference expected);
            if magnitude <=? sr_tolerance_bps r then
              mret (MkVerdict (v_blocked v) (v_flagged v) status)
            else
              publish (MkSanityRelationViolatedEvent asset (sr_peer r)
                         (SanityRelationKind_as_u32 (sr_kind r)) price reference magnitude
                         (sr_tolerance_bps r) (SanityAction_as_u32 (sr_action r)) ledger);;
              let status := violation status r magnitude in
              mret (match sr_action r with
                    | SanityFlag => MkVerdict (v_blocked v) true status
                    | _ => MkVerdict true (v_flagged v) status
                    end)
      end
  end.

Definition check (asset : Address) (price : Z) : M Verdict :=
  suspended ← is_suspended asset;
  relations ← get_relations asset;
  ledger ← ledger_sequence;
  stored ← read_status asset;
  let quarantined := match stored with Some p => ss_quarantined p | None => false end in
  let status := MkSanityStatus asset false suspended 0 None 0 0 SanityFlag quarantined ledger in
  if suspended || bool_decide (relations = []) then mret (MkVerdict quarantined false status)
  else
    v ← fold_m (check_relation asset price ledger) (MkVerdict false false status) relations;
    (if ss_violated (v_status v) then put (KeyAssetSanityStatus asset) (v_status v) else mret tt);;
    mret (MkVerdict (v_blocked v || ss_quarantined (v_status v)) (v_flagged v) (v_status v)).
End Check.
