(* ===== verification/Scorecards.v ===== *)
(** * [scorecards.rs]: accuracy of a source against the other sources

    Every published round scores each contributor against the median of the
    others; the samples are kept in a bounded window, winsorized and stored
    with an offset so that the sign survives. *)
From stdpp Require Import base list strings.
From S2P Require Import Prelude Machine ReferencePricing Types Host AuditLog Config Admin Assets PriceBounds SanityLattice.
#[local] Open Scope Z_scope.
#[local] Set Default Goal Selector "!".

Definition MIN_REFERENCE_SOURCES : nat := 2.
Definition SCORE_FLOOR_BPS : Z := 2000.
Definition MAX_SHORT_WINDOW : Z := 64.
Definition MAX_LONG_WINDOW : Z := 512.
Definition DEFAULT_CONFIG : ScorecardConfig := MkScorecardConfig 10 50 5 100 5000.

Definition config : M ScorecardConfig := get_or KeyCfgScorecard DEFAULT_CONFIG.

Definition set_config (cfg : ScorecardConfig) : M unit :=
  admin ← get_admin;
  require_auth admin;;
  panic_if ((scc_short_window cfg =? 0)
            || (MAX_SHORT_WINDOW <? scc_short_window cfg)
            || (scc_long_window cfg <? scc_short_window cfg)
            || (MAX_LONG_WINDOW <? scc_long_window cfg)
            || (scc_long_window cfg <? scc_cold_start_samples cfg)
            || (scc_hit_tolerance_bps cfg =? 0)
            || (SanityLattice.MAX_TOLERANCE_BPS <? scc_hit_tolerance_bps cfg)
            || (scc_outlier_cap_bps cfg =? 0)
            || (U32_MAX <? scc_outlier_cap_bps cfg)) InvalidScorecardConfig;;
  put KeyCfgScorecard cfg.

Definition enable : M unit :=
  admin ← get_admin; require_auth admin;; PriceBounds.set_scorecards_enabled true.
Definition disable : M unit :=
  admin ← get_admin; require_auth admin;; PriceBounds.set_scorecards_enabled false.
Definition enabled : M bool := g ← PriceBounds.guards; mret (pg_scorecards_enabled g).

Definition samples (source : Address) : M (list Z) :=
  v ← get_touch (KeySourceScorecard source); mret (default [] v).

(** The offset encoding of a sample. *)
Definition encode_sample (err : Z) : Z :=
  let shifted := err + 2 ^ 31 in
  if shifted <? 0 then 0 else if U32_MAX <? shifted then U32_MAX else as_u32 shifted.

Definition decode_sample (stored : Z) : Z := stored - 2 ^ 31.

Section Scorecards.
Context `{BP : BuildProfile}.

Definition error_bps (price reference : Z) : option Z :=
  if reference =? 0 then Some 0
  else
    gap ← i128 (price - reference);
    size ← i128 (Z.abs reference);
    div_i128 (sat_i128 (gap * 10000)) size.

(** [u64::try_from(x).unwrap_or(u64::MAX)] *)
Definition u64_or_max (x : Z) : Z := if in_range 0 U64_MAX x then x else U64_MAX.

(** The accumulation over the samples of a window. *)
Fixpoint window_sums (hit_tol : Z) (s : list Z) (abs_sum signed_sum hits : Z)
    : option (Z * Z * Z) :=
  match s with
  | [] => Some (abs_sum, signed_sum, hits)
  | v :: s =>
      let err := decode_sample v in
      abs_sum ← u64 (abs_sum + u64_or_max (Z.abs err));
      signed_sum ← i128 (signed_sum + err);
      window_sums hit_tol s abs_sum signed_sum (if Z.abs err <=? hit_tol then hits + 1 else hits)
  end.

(** [as i32] *)
Definition as_i32 (z : Z) : Z := wrap (- 2 ^ 31) 32 z.

Definition window_over (s : list Z) (n hit_tol : Z) : option ScorecardWindow :=
  match drop (length s - Z.to_nat n) s with
  | [] => Some (MkScorecardWindow 0 0 0 0)
  | slice =>
      '(abs_sum, signed_sum, hits) ← window_sums hit_tol slice 0 0 0;
      let n64 := Z.of_nat (length slice) in
      Some (MkScorecardWindow n64 (as_u32 (abs_sum / n64)) (as_i32 (Z.quot signed_sum n64))
              (as_u32 (hits * 10000 / n64)))
  end.

Definition max_error (all : list Z) : Z :=
  foldl (λ m v, Z.max m (as_u32 (Z.abs (decode_sample v)))) 0 all.

Definition to_slice (v : list Z) : list Z := take (Z.to_nat MAX_LONG_WINDOW) v.

Definition summarize (source : Address) (all : list Z) (cfg : ScorecardConfig)
    : option SourceScorecard :=
  short ← window_over all (scc_short_window cfg) (scc_hit_tolerance_bps cfg);
  long ← window_over all (scc_long_window cfg) (scc_hit_tolerance_bps cfg);
  Some (MkSourceScorecard source short long (scw_samples long <? scc_cold_start_samples cfg)
          (scw_samples short) (max_error all)).

Definition record (source : Address) (reference price : Z) : M SourceScorecard :=
  cfg ← config;
  raw ← lift (error_bps price reference);
  let cap := scc_outlier_cap_bps cfg in
  let stored := encode_sample (clampZ (- cap) cap raw) in
  all ← samples source;
  let all := all ++ [stored] in
  let all := drop (length all - Z.to_nat (scc_long_window cfg)) all in
  put (KeySourceScorecard source) all;;
  card ← lift (summarize source (to_slice all) cfg);
  ledger ← ledger_sequence;
  publish (MkSourceScorecardUpdatedEvent source (scw_samples (sc_short card))
             (scw_mean_abs_error_bps (sc_short card)) (scw_mean_abs_error_bps (sc_long card))
             (scw_hit_rate_bps (sc_long card)) (scw_bias_bps (sc_long card)) (sc_cold_start card)
             all ledger);;
  mret card.

Definition get_scorecard (source : Address) : M SourceScorecard :=
  cfg ← config;
  all ← samples source;
  lift (summarize source (to_slice all) cfg).

Definition accuracy_score (source : Address) : M Z :=
  card ← get_scorecard source;
  if sc_cold_start card || (scw_samples (sc_long card) =? 0) then mret 0
  else
    twice ← lift (u64 (scw_mean_abs_error_bps (sc_long card) * 2));
    mret (clampZ SCORE_FLOOR_BPS 10000 (sat_u64 (10000 - twice))).

Definition leave_one_out_median (prices : list Z) (skip : nat) : option (option Z) :=
  let rest := take (Z.to_nat MAX_LONG_WINDOW) (delete skip prices) in
  let n := length rest in
  if (n <? MIN_REFERENCE_SOURCES)%nat then Some None
  else
    let sorted := sortZ rest in
    if (n mod 2 =? 1)%nat then m ← sorted !! (n / 2)%nat; Some (Some m)
    else
      a ← sorted !! (n / 2 - 1)%nat;
      b ← sorted !! (n / 2)%nat;
      m ← midpoint a b;
      Some (Some m).

(** Index [i] of a round. *)
Definition record_one (sources : list Address) (buf : list Z) (i : nat) : M unit :=
  reference ← lift (leave_one_out_median buf i);
  match reference with
  | Some reference =>
      if 0 <? reference then
        source ← lift (sources !! i);
        price ← lift (buf !! i);
        record source reference price;;
        mret tt
      else mret tt
  | None => mret tt
  end.

Definition record_round (sources : list Address) (prices : list Z) : M unit :=
  let buf := take (Nat.min (Nat.min (length sources) (length prices)) (Z.to_nat MAX_LONG_WINDOW))
               prices in
  for_each (seq 0 (length buf)) (record_one sources buf).
End Scorecards.
