(* ===== verification/ConstantTime.v ===== *)
(** * [constant_time.rs]: comparison without early exit

    The scans fold every byte into an accumulator; they are shown to decide
    equality, whatever the lengths. *)
From stdpp Require Import base list.
From Stdlib Require Import ZArith Lia.
From S2P Require Import Prelude Machine Types.
#[local] Open Scope Z_scope.
#[local] Set Default Goal Selector "!".

Definition byte_at (buf : Bytes) (i : nat) : Z :=
  if (i <? length buf)%nat then default 0 ((buf : list Z) !! i) else 0.

(** [diff |= byte_at(a, i) ^ byte_at(b, i)] for the indices of a scan. *)
Definition scan (a b : Bytes) (indices : list nat) (diff : Z) : Z :=
  foldl (λ diff i, Z.lor diff (Z.lxor (byte_at a i) (byte_at b i))) diff indices.

Definition bytes_eq (a b : Bytes) : bool :=
  let diff := if Z.lxor (Z.of_nat (length a)) (Z.of_nat (length b)) =? 0 then 0 else 1 in
  scan a b (seq 0 (Nat.max (length a) (length b))) diff =? 0.

Definition digest_eq (a b : Bytes) : bool := scan a b (seq 0 32) 0 =? 0.
Definition sig_eq (a b : Bytes) : bool := scan a b (seq 0 64) 0 =? 0.

Definition bytes_eq_counted (a b : Bytes) : bool * Z :=
  let n := Nat.max (length a) (length b) in
  let diff := as_u32 (Z.lxor (Z.of_nat (length a)) (Z.of_nat (length b))) in
  (scan a b (seq 0 n) diff =? 0, as_u32 (Z.of_nat n)).

(** ** Correctness *)

Lemma scan_zero a b indices : ∀ diff,
  scan a b indices diff = 0 ↔ diff = 0 ∧ ∀ i, i ∈ indices → byte_at a i = byte_at b i.
Proof.
  induction indices as [|i indices IH]; intros diff; simpl.
  - split; [|tauto]. intros ->. split; [done|]. intros i Hi. by apply not_elem_of_nil in Hi.
  - rewrite IH, Z.lor_eq_0_iff, Z.lxor_eq_0_iff. split.
    + intros [[-> Hi] H]. split; [done|]. intros j [->|Hj]%elem_of_cons; auto.
    + intros [-> H]. split; [split; [done|]|]; intros; apply H; by constructor.
Qed.

Lemma byte_at_lookup a i : (i < length a)%nat → a !! i = Some (byte_at a i).
Proof.
  intros Hi. unfold byte_at. rewrite (proj2 (Nat.ltb_lt _ _) Hi).
  destruct (lookup_lt_is_Some_2 a i Hi) as [x E]. by rewrite E.
Qed.

Lemma bytes_at_eq a b n :
  length a = n → length b = n → (∀ i, i ∈ seq 0 n → byte_at a i = byte_at b i) → a = b.
Proof.
  intros Ha Hb H. apply list_eq. intros i. destruct (decide (i < n)%nat) as [Hi|Hi].
  - rewrite !byte_at_lookup by lia. f_equal. apply H, elem_of_seq. lia.
  - by rewrite !lookup_ge_None_2 by lia.
Qed.

Lemma scan_decides a b n diff :
  length a = n → length b = n → (scan a b (seq 0 n) diff =? 0) = (diff =? 0) && bool_decide (a = b).
Proof.
  intros Ha Hb. apply eq_bool_prop_intro. rewrite andb_True, bool_decide_spec, !Is_true_true, !Z.eqb_eq.
  rewrite scan_zero. split.
  - intros [-> H]. split; [done|]. by eapply bytes_at_eq.
  - by intros [-> ->].
Qed.

Lemma digest_eq_spec a b : length a = 32%nat → length b = 32%nat → digest_eq a b = bool_decide (a = b).
Proof. intros. unfold digest_eq. by rewrite scan_decides. Qed.

Lemma sig_eq_spec a b : length a = 64%nat → length b = 64%nat → sig_eq a b = bool_decide (a = b).
Proof. intros. unfold sig_eq. by rewrite scan_decides. Qed.

Lemma bytes_eq_spec a b : bytes_eq a b = bool_decide (a = b).
Proof.
  unfold bytes_eq. destruct (decide (length a = length b)) as [E|E].
  - rewrite E, Z.lxor_nilpotent, Nat.max_id. by rewrite scan_decides.
  - destruct (Z.lxor _ _ =? 0) eqn:X; bool_hyps; [apply Z.lxor_eq in X; lia|].
    rewrite bool_decide_eq_false_2 by (intros ->; done).
    apply Z.eqb_neq. intros [H _]%scan_zero. done.
Qed.

(** Constant-time comparison decides equality: [bytes_eq] on all byte
    strings, and the counted scan on all byte strings shorter than 2^32, in
    which case it looks at every byte of the longer one. *)
Theorem constant_time_eq_spec a b :
  Z.of_nat (Nat.max (length a) (length b)) < 2 ^ 32 →
  bytes_eq a b = bool_decide (a = b) ∧
  bytes_eq_counted a b = (bool_decide (a = b), Z.of_nat (Nat.max (length a) (length b))).
Proof.
  intros Hn. split; [apply bytes_eq_spec|]. unfold bytes_eq_counted, as_u32.
  rewrite (wrap_id 0 32 (Z.of_nat _)) by lia. f_equal.
  destruct (decide (length a = length b)) as [E|E].
  - rewrite E, Z.lxor_nilpotent, Nat.max_id. by rewrite scan_decides.
  - assert (0 <= Z.lxor (Z.of_nat (length a)) (Z.of_nat (length b)) < 2 ^ 32).
    { split; [apply Z.lxor_nonneg; lia|].
      assert (Z.lxor (Z.of_nat (length a)) (Z.of_nat (length b)) ≠ 0) by (rewrite Z.lxor_eq_0_iff; lia).
      apply Z.log2_lt_pow2; [pose proof (proj2 (Z.lxor_nonneg (Z.of_nat (length a)) (Z.of_nat (length b)))); lia|].
      pose proof (Z.log2_lxor (Z.of_nat (length a)) (Z.of_nat (length b)) ltac:(lia) ltac:(lia)).
      pose proof (Z.log2_le_mono (Z.of_nat (length a)) (2 ^ 32 - 1) ltac:(lia)).
      pose proof (Z.log2_le_mono (Z.of_nat (length b)) (2 ^ 32 - 1) ltac:(lia)).
      change (Z.log2 (2 ^ 32 - 1)) with 31 in *. lia. }
    rewrite wrap_id by lia. rewrite bool_decide_eq_false_2 by (intros ->; done).
    apply Z.eqb_neq. intros [H0 _]%scan_zero. apply Z.lxor_eq in H0. lia.
Qed.

Lemma constant_time_eq_spec_witness :
  Z.of_nat (Nat.max (length [1; 2]) (length [1; 2; 0])) < 2 ^ 32 ∧
  bytes_eq_counted [1; 2] [1; 2; 0] = (false, 3).
Proof.
  split; [simpl; lia|].
  destruct (constant_time_eq_spec [1; 2] [1; 2; 0] ltac:(simpl; lia)) as [_ ->]. reflexivity.
Defined.
