(* ===== verification/ConfidenceBand.v ===== *)
(** * [confidence_band.rs]: the interquartile band around an aggregate *)
From stdpp Require Import base list strings.
From S2P Require Import Prelude Machine CorePricing StorageMath Types Host AuditLog Config Admin.
#[local] Open Scope Z_scope.
#[local] Set Default Goal Selector "!".

Definition MIN_BAND_SOURCES : Z := 4.
Definition MAX_ENTRIES : nat := 128.

Definition quartiles (prices : list Z) : option (Z * Z) :=
  let n := Nat.min (length prices) MAX_ENTRIES in
  if (n =? 0)%nat then Some (0, 0)
  else
    let s := sortZ (take n prices) in
    lo ← s !! ((n - 1) / 4)%nat;
    hi ← s !! ((3 * (n - 1) + 3) / 4)%nat;
    Some (lo, hi).

Definition is_low_confidence (n min_sources_required : Z) : bool :=
  n <? Z.max min_sources_required MIN_BAND_SOURCES.

Section Band.
Context `{BP : BuildProfile}.

Definition band_for (prices : list Z) (decimals : Z) : M (option ConfidenceBand) :=
  let n := Nat.min (length prices) MAX_ENTRIES in
  if (n =? 0)%nat then mret None
  else
    '(lower, upper) ← lift (quartiles (take n prices));
    min_required ← get_min_sources_required;
    median ← lift (compute_median prices);
    mret (Some (MkConfidenceBand lower upper median (Z.of_nat n) decimals
                  (is_low_confidence (Z.of_nat n) min_required))).

(** The loop over the registered sources, at most [n] prices. *)
Fixpoint stored_prices (n : nat) (asset : Address) (sources : list Address) : M (list Z) :=
  match n, sources with
  | O, _ | _, [] => mret []
  | S n', src :: sources =>
      sub ← get (KeySubmission asset src);
      match sub with
      | None => stored_prices n asset sources
      | Some e => rest ← stored_prices n' asset sources; mret (pe_price e :: rest)
      end
  end.

Definition get_confidence_band (asset : Address) : M (option ConfidenceBand) :=
  registry ← read_oracle_sources;
  prices ← stored_prices MAX_ENTRIES asset (os_sources registry);
  decimals ← get_decimals;
  band_for prices decimals.
End Band.

Lemma quartiles_total prices : ∃ q, quartiles prices = Some q.
Proof.
  unfold quartiles. set (n := Nat.min (length prices) MAX_ENTRIES).
  destruct (n =? 0)%nat eqn:E; [by eexists|]. bool_hyps.
  assert (length (sortZ (take n prices)) = n) by (rewrite length_sortZ, length_take; lia).
  destruct (lookup_lt_is_Some_2 (sortZ (take n prices)) ((n - 1) / 4)) as [lo Hlo].
  { pose proof (Nat.Div0.div_le_upper_bound (n - 1) 4 (n - 1)). lia. }
  destruct (lookup_lt_is_Some_2 (sortZ (take n prices)) ((3 * (n - 1) + 3) / 4)) as [hi Hhi].
  { pose proof (Nat.Div0.div_lt_upper_bound (3 * (n - 1) + 3) 4 n). lia. }
  cbv zeta. rewrite Hlo. obind. rewrite Hhi. obind. by eexists.
Qed.
