(* ===== verification/GasMetering.v ===== *)
(** * [gas_metering.rs]: the record of the last metered call

    Outside of tests both meters read zero. *)
From stdpp Require Import base list strings.
From S2P Require Import Prelude Machine Types Host.
#[local] Open Scope Z_scope.
#[local] Set Default Goal Selector "!".

Definition cpu_usage : M Z := mret 0.
Definition mem_usage : M Z := mret 0.

Definition write_last_gas (method : string) (cpu mem : Z) : M unit :=
  ledger ← ledger_sequence;
  timestamp ← ledger_timestamp;
  set KeyLastGasRecord (MkGasRecord method cpu mem ledger timestamp).

Definition read_last_gas : M (option GasRecord) := get KeyLastGasRecord.
