(* ===== verification/Disagreement.v ===== *)
(** * [disagreement.rs]: how far the contributors of a round disagree

    The median of the pairwise distances of a round, compared with the median
    of the last sixteen rounds. *)
From stdpp Require Import base list strings.
From S2P Require Import Prelude Machine ReferencePricing Types Host AuditLog Config Admin.
#[local] Open Scope Z_scope.
#[local] Set Default Goal Selector "!".

Definition BASELINE_WINDOW : nat := 16.
Definition MAX_PRICES : nat := 64.
Definition LOW_SAMPLE_SOURCES : Z := 3.

(** The distance of a pair in basis points of the median. *)
Definition pair_bps (med a b : Z) : Z :=
  let diff := Z.abs (b - a) in
  let dev := if diff * 10000 <=? U128_MAX then diff * 10000 / med
             else diff / Z.max (med / 10000) 1 in
  Z.min dev U32_MAX.

Fixpoint pairwise (med : Z) (sorted : list Z) : list Z :=
  match sorted with
  | [] => []
  | a :: sorted => (pair_bps med a <$> sorted) ++ pairwise med sorted
  end.

Section Compute.
Context `{BP : BuildProfile}.

Definition compute (prices : list Z) : option (Z * Z) :=
  let n := Nat.min (length prices) MAX_PRICES in
  if (n <? 2)%nat then Some (0, 0)
  else
    let sorted := sortZ (take n prices) in
    med ← (if (n mod 2 =? 1)%nat then sorted !! (n / 2)%nat
           else a ← sorted !! (n / 2 - 1)%nat; b ← sorted !! (n / 2)%nat; midpoint a b);
    if med <=? 0 then Some (0, 0)
    else
      let devs := pairwise med sorted in
      mid ← sortZ devs !! (length devs / 2)%nat;
      Some (mid, foldl Z.max 0 devs).

Definition median_u32 (values : list Z) : option Z :=
  match values with
  | [] => Some 0
  | _ => let n := Nat.min (length values) BASELINE_WINDOW in sortZ (take n values) !! (n / 2)%nat
  end.

Definition read_record (asset : Address) : M (option DisagreementRecord) :=
  get_touch (KeyDisagreementIndex asset).

Definition last_aggregate_ledger (asset : Address) : M Z :=
  r ← read_record asset;
  mret (match r with Some r => dr_last_aggregate_ledger r | None => 0 end).

Definition baseline_of (hist : list Z) : option Z :=
  match hist with [] => Some 0 | _ => median_u32 (take BASELINE_WINDOW hist) end.

Definition record (asset : Address) (ledger : Z) (prices : list Z) : M DisagreementIndex :=
  '(index_bps, max_bps) ← lift (compute (take MAX_PRICES prices));
  prev_record ← read_record asset;
  let hist := match prev_record with Some r => dr_history r | None => [] end in
  baseline_bps ← lift (baseline_of hist);
  let above := (0 <? baseline_bps) && (sat_u32 (baseline_bps * 2) <? index_bps) in
  let num_sources := Z.of_nat (length prices) in
  let low_sample := num_sources <? LOW_SAMPLE_SOURCES in
  let idx := MkDisagreementIndex asset ledger index_bps max_bps baseline_bps above num_sources
               low_sample in
  let hist := (if (BASELINE_WINDOW <=? length hist)%nat then drop 1 hist else hist) ++ [index_bps] in
  put (KeyDisagreementIndex asset) (MkDisagreementRecord idx hist ledger);;
  publish (MkDisagreementIndexEvent asset index_bps max_bps baseline_bps above num_sources low_sample);;
  mret idx.

Definition get_index (asset : Address) : M (option DisagreementIndex) :=
  r ← read_record asset; mret (dr_index <$> r).

Definition get_history (asset : Address) : M (list Z) :=
  r ← read_record asset; mret (match r with Some r => dr_history r | None => [] end).
End Compute.
