(* ===== verification/Latency.v ===== *)
(** * [latency.rs]: how long a submission waits before it is counted *)
From stdpp Require Import base list strings.
From S2P Require Import Prelude Machine Types Host AuditLog Config Admin Disagreement.
#[local] Open Scope Z_scope.
#[local] Set Default Goal Selector "!".

Definition MAX_SAMPLES : nat := 16.
Definition SECONDS_PER_LEDGER : Z := 5.

Definition last_aggregate_ledger (asset : Address) : M Z := Disagreement.last_aggregate_ledger asset.

Definition push_sample (source asset : Address) (sample : LatencySample) : M unit :=
  let k := KeyLatencySamples source asset in
  window ← get_or k [];
  if bool_decide (last window = Some sample) then mret tt
  else
    let window := if (MAX_SAMPLES <=? length window)%nat then drop 1 window else window in
    put k (window ++ [sample]).

Definition get_samples (source asset : Address) : M (list LatencySample) :=
  let k := KeyLatencySamples source asset in
  v ← get_or k [];
  match v with [] => mret tt | _ => extend_ttl k end;;
  mret v.

Definition record_counted (source asset : Address)
    (submission_ledger inclusion_ledger deferral_ledgers : Z) : M unit :=
  let latency := sat_u32 (inclusion_ledger - submission_ledger) in
  push_sample source asset
    (MkLatencySample submission_ledger inclusion_ledger latency deferral_ledgers true);;
  publish (MkSubmissionLatencyEvent asset source submission_ledger inclusion_ledger latency
             deferral_ledgers).

Definition record_never_counted (source asset : Address) (submission_ledger : Z) : M unit :=
  push_sample source asset (MkLatencySample submission_ledger 0 0 0 false);;
  publish (MkSubmissionNeverCountedEvent asset source submission_ledger).

Section Report.
Context `{BP : BuildProfile}.

Definition percentile (sorted : list Z) (p : Z) : option Z :=
  match sorted with
  | [] => Some 0
  | _ =>
      let n := length sorted in
      scaled ← u64 (Z.of_nat n * p);
      let rank := (scaled + 99) / 100 in
      sorted !! Nat.min (Z.to_nat (Z.max rank 1) - 1) (n - 1)
  end.

Definition get_report (source asset : Address) : M LatencyReport :=
  window ← get_samples source asset;
  let counted := take MAX_SAMPLES (filter (λ s, ls_counted s = true) window) in
  let never := Z.of_nat (length (filter (λ s, ls_counted s = false) window)) in
  let sorted := sortZ (ls_latency_ledgers <$> counted) in
  let n := length counted in
  p50 ← lift (percentile sorted 50);
  p90 ← lift (percentile sorted 90);
  let deferral_sum := foldl Z.add 0 (ls_deferral_ledgers <$> counted) in
  mret (MkLatencyReport asset source (Z.of_nat (length window)) never (Z.of_nat MAX_SAMPLES)
          p50 p90 (default 0 (last sorted))
          (if (n =? 0)%nat then 0 else as_u32 (deferral_sum / Z.of_nat n)) SECONDS_PER_LEDGER
          window).
End Report.
