(* ===== verification/Provenance.v ===== *)
(** * [provenance.rs]: what an aggregate was computed from

    Every publication leaves a record that commits to its contributors and to
    the hash of the record before it.  A stored record always verifies; the
    link check follows [head_before], which returns the oldest record. *)
From stdpp Require Import base list strings.
From S2P Require Import Prelude Machine Types Host AuditLog Config Admin ConstantTime.
#[local] Open Scope Z_scope.
#[local] Set Default Goal Selector "!".

(** [to_xdr] of the host's scalar values. *)
Class Xdr := {
  u32_to_xdr : Z → Bytes;
  u64_to_xdr : Z → Bytes;
  i128_to_xdr : Z → Bytes
}.

(** [b"SUPRO1"] *)
Definition DOMAIN : Bytes := [83; 85; 80; 82; 79; 49].

Definition env_zero_hash : Bytes := replicate 32 0.

Section Provenance.
Context `{CR : Crypto} `{XD : Xdr}.

Definition head (asset : Address) : M (option ProvenanceHead) := get_touch (KeyProvenanceHead asset).

(** The bytes of contributor [i]. *)
Definition contributor_bytes (deferrals : list Z) (i : nat) (c : ProvenanceEntry) : Bytes :=
  address_to_xdr (pve_source c) ++ i128_to_xdr (pve_price c) ++ u32_to_xdr (pve_weight_bps c)
  ++ u32_to_xdr (pve_submission_ledger c) ++ u32_to_xdr (default 0 (deferrals !! i)).

Definition commitment (previous_hash : Bytes) (ledger price timestamp reference num_sources
    method : Z) (contributors : list ProvenanceEntry) (deferrals : list Z) : Bytes :=
  sha256 (DOMAIN ++ previous_hash ++ u32_to_xdr ledger ++ i128_to_xdr price
          ++ u64_to_xdr timestamp ++ i128_to_xdr reference ++ u32_to_xdr num_sources
          ++ u32_to_xdr method ++ concat (imap (contributor_bytes deferrals) contributors)).

Definition get_record (asset : Address) (ledger : Z) : M (option ProvenanceRecord) :=
  get_touch (KeyProvenance asset ledger).

(** The loop of [head_before] over the history index. *)
Fixpoint head_before_loop (asset : Address) (ledger : Z) (history : list Z) : M (Bytes * bool) :=
  match history with
  | [] => mret (env_zero_hash, false)
  | l :: history =>
      if ledger <=? l then mret (env_zero_hash, false)
      else
        prev ← get_record asset l;
        match prev with
        | Some prev => mret (pv_hash prev, true)
        | None => head_before_loop asset ledger history
        end
  end.

Definition head_before (asset : Address) (ledger : Z) : M (Bytes * bool) :=
  history ← get_or (KeyPriceHistoryLedgers asset) [];
  head_before_loop asset ledger history.

Definition record (asset : Address) (ledger price timestamp reference method : Z)
    (contributors : list ProvenanceEntry) (deferrals : list Z) : M unit :=
  let num_sources := Z.of_nat (length contributors) in
  h ← head asset;
  let head_ledger := match h with Some h => pvh_ledger h | None => 0 end in
  previous_hash ←
    (if head_ledger <? ledger then
       h ← head asset;
       mret (match h with Some h => pvh_hash h | None => env_zero_hash end)
     else r ← head_before asset ledger; mret (fst r));
  let hash := commitment previous_hash ledger price timestamp reference num_sources method
                contributors deferrals in
  put (KeyProvenance asset ledger)
    (MkProvenanceRecord hash asset ledger price timestamp reference num_sources method
       contributors deferrals previous_hash hash);;
  put (KeyProvenanceHead asset) (MkProvenanceHead hash ledger);;
  publish (MkProvenanceRecordedEvent asset ledger price hash num_sources).

Definition verify_record (record : ProvenanceRecord) : bool :=
  let expected := commitment (pv_previous_hash record) (pv_ledger record) (pv_price record)
                    (pv_timestamp record) (pv_reference record) (pv_num_sources record)
                    (pv_method record) (pv_contributors record) (pv_deferral_ledgers record) in
  digest_eq expected (pv_hash record) && digest_eq (pv_id record) (pv_hash record).

Definition verify_link (asset : Address) (ledger : Z) : M bool :=
  r ← get_record asset ledger;
  match r with
  | None => mret false
  | Some r =>
      if negb (verify_record r) then mret false
      else
        '(expected, found) ← head_before asset ledger;
        mret (if found : bool then bool_decide (pv_previous_hash r = expected) else true)
  end.

Definition newest_record_ledger_before (asset : Address) (ledger : Z) : M Z :=
  history ← get_or (KeyPriceHistoryLedgers asset) [];
  mret (foldl (λ newest l, if (l <? ledger) && (newest <? l) then l else newest) 0 history).

Definition prune (asset : Address) (ledger : Z) : M unit :=
  remove (KeyProvenance asset ledger);;
  h ← head asset;
  if bool_decide ((pvh_ledger <$> h) = Some ledger) then
    '(prev, has_prev) ← head_before asset ledger;
    if has_prev : bool then
      newest ← newest_record_ledger_before asset ledger;
      put (KeyProvenanceHead asset) (MkProvenanceHead prev newest)
    else remove (KeyProvenanceHead asset)
  else mret tt.
End Provenance.
