(* ===== verification/Rbac.v ===== *)
(** * [rbac.rs]: delegated roles

    The administrator holds every role; others hold what was delegated to
    them.  The only caller of [has_role] in the contract is
    [Corrections.correct_price], which asks it about the administrator. *)
From stdpp Require Import base list strings.
From S2P Require Import Prelude Machine Types Host AuditLog Config Admin.
#[local] Open Scope Z_scope.
#[local] Set Default Goal Selector "!".

Definition all_roles : list Role :=
  [RoleSourceManager; RoleAssetManager; RolePriceUpdater; RoleConfigManager; RoleUpgradeManager].

Definition has_role (caller : Address) (role : Role) : M bool :=
  admin ← get_admin;
  if decide (caller = admin) then mret true
  else
    role_mask ← get_or (KeyDelegatedRole caller (Role_as_u32 role)) 0;
    mret (negb (role_mask =? 0)).

Definition check_role (caller : Address) (role : Role) : M unit :=
  ok ← has_role caller role; panic_if (negb ok) NotAuthorized.

Section Rbac.
Context `{BP : BuildProfile} `{CR : Crypto}.

Definition delegate_role (delegatee : Address) (role : Role) : M unit :=
  admin ← get_admin;
  require_auth admin;;
  let role_discriminant := Role_as_u32 role in
  set (KeyDelegatedRole delegatee role_discriminant) 1;;
  holders ← get_or (KeyRoleHolders role_discriminant) [];
  (if bool_decide (delegatee ∈ (holders : list Address)) then mret tt
   else set (KeyRoleHolders role_discriminant) (holders ++ [delegatee]));;
  publish (MkRoleDelegatedEvent admin delegatee role_discriminant);;
  emit_admin_action "delrole" admin [].

Definition revoke_role (delegatee : Address) (role : Role) : M unit :=
  admin ← get_admin;
  require_auth admin;;
  let role_discriminant := Role_as_u32 role in
  remove (KeyDelegatedRole delegatee role_discriminant);;
  holders ← get_or (KeyRoleHolders role_discriminant) [];
  set (KeyRoleHolders role_discriminant)
    (filter (λ holder, holder ≠ delegatee) (holders : list Address));;
  publish (MkRoleRevokedEvent admin delegatee role_discriminant);;
  emit_admin_action "revrole" admin [].
End Rbac.

Definition get_role_holders (role : Role) : M (list Address) :=
  get_or (KeyRoleHolders (Role_as_u32 role)) [].

(** The loop over the discriminants; the two queries differ in what they
    collect. *)
Definition get_roles_for_holder (holder : Address) : M (list Role) :=
  admin ← get_admin;
  if decide (holder = admin) then mret all_roles
  else
    fold_m (λ roles role,
      granted ← get (KeyDelegatedRole holder (Role_as_u32 role));
      mret (match granted with Some _ => roles ++ [role] | None => roles end)) [] all_roles.

Definition get_address_roles (holder : Address) : M (list Z) :=
  admin ← get_admin;
  if decide (holder = admin) then mret (Role_as_u32 <$> all_roles)
  else
    fold_m (λ roles role_discriminant,
      granted ← get (KeyDelegatedRole holder role_discriminant);
      mret (match granted with Some _ => roles ++ [role_discriminant] | None => roles end))
      [] [0; 1; 2; 3; 4].
