(* ===== verification/StorageTier.v ===== *)
(** * [storage_tier.rs]: where the price history of an asset lives

    Upgrading to the persistent tier is immediate; a downgrade needs a request
    by the administrator, an approval by another address and a delay. *)
From stdpp Require Import base list strings.
From S2P Require Import Prelude Machine Types Host AuditLog Config Admin Assets History.
#[local] Open Scope Z_scope.
#[local] Set Default Goal Selector "!".

Definition TEMPORARY_RETENTION_LEDGERS : Z := 10000.
Definition PERSISTENT_RETENTION_LEDGERS : Z := 6312000.
Definition TIER_DOWNGRADE_REQUIRED_APPROVALS : Z := 1.
Definition TIER_DOWNGRADE_DELAY_LEDGERS : Z := 10.
Definition ACTION_APPLIED : Z := 0.
Definition ACTION_PROPOSED : Z := 1.
Definition ACTION_APPROVED : Z := 2.
Definition ACTION_EXECUTED : Z := 3.

Definition retention_ledgers (tier : HistoryStorageTier) : Z :=
  match tier with
  | TierTemporary => TEMPORARY_RETENTION_LEDGERS
  | TierPersistent => PERSISTENT_RETENTION_LEDGERS
  end.

Definition get_asset_storage_tier (asset : Address) : M HistoryStorageTier :=
  on ← Flags.on Flags.STORAGE_TIER;
  if negb on then mret TierTemporary
  else tier ← get_touch (KeyAssetStorageTier asset); mret (default TierTemporary tier).

Definition read_last_change_ledger (asset : Address) : M Z := get_or (KeyAssetStorageTierMigrated asset) 0.

Definition get_storage_tier_info (asset : Address) : M StorageTierInfo :=
  tier ← get_asset_storage_tier asset;
  ledgers ← get_or (KeyPriceHistoryLedgers asset) [];
  changed ← read_last_change_ledger asset;
  mret (MkStorageTierInfo tier (retention_ledgers tier) (bool_decide (tier = TierPersistent))
          (Z.of_nat (length (ledgers : list Z))) changed).

Definition write_tier (asset : Address) (tier : HistoryStorageTier) : M unit :=
  Flags.mark Flags.STORAGE_TIER;; put (KeyAssetStorageTier asset) tier.

Definition write_last_change_ledger (asset : Address) (ledger : Z) : M unit :=
  put (KeyAssetStorageTierMigrated asset) ledger.

Definition emit_changed (asset : Address) (old new : HistoryStorageTier) (action : Z)
    (actor : Address) : M unit :=
  ledger ← ledger_sequence;
  publish (MkStorageTierChangedEvent asset (HistoryStorageTier_as_u32 old)
             (HistoryStorageTier_as_u32 new) action actor ledger).

Definition apply_tier_change (asset : Address) (new : HistoryStorageTier) : M unit :=
  write_tier asset new;;
  ledger ← ledger_sequence;
  write_last_change_ledger asset ledger.

Definition read_request (asset : Address) : M (option StorageTierDowngradeRequest) :=
  get_touch (KeyAssetStorageTierDowngrade asset).
Definition write_request (asset : Address) (req : StorageTierDowngradeRequest) : M unit :=
  put (KeyAssetStorageTierDowngrade asset) req.
Definition remove_request (asset : Address) : M unit := remove (KeyAssetStorageTierDowngrade asset).

(** The request, if it is approved and its delay has passed. *)
Definition matured_request (asset : Address) : M StorageTierDowngradeRequest :=
  req ← read_request asset;
  match req with
  | None => panic_with_error StorageTierDowngradeNotReady
  | Some req =>
      now ← ledger_sequence;
      panic_if ((stq_ready_at_ledger req =? 0) || (now <? stq_ready_at_ledger req))
        StorageTierDowngradeNotReady;;
      mret req
  end.

Definition set_asset_storage_tier (asset : Address) (tier : HistoryStorageTier) : M unit :=
  admin ← auth_admin;
  check_registered_asset asset;;
  current ← get_asset_storage_tier asset;
  if decide (current = tier) then emit_changed asset current tier ACTION_APPLIED admin
  else if HistoryStorageTier_as_u32 tier <? HistoryStorageTier_as_u32 current then
    matured_request asset;;
    apply_tier_change asset tier;;
    remove_request asset;;
    emit_changed asset current tier ACTION_EXECUTED admin
  else
    apply_tier_change asset tier;;
    emit_changed asset current tier ACTION_APPLIED admin.

Definition propose_storage_tier_downgrade (asset : Address) : M Z :=
  admin ← auth_admin;
  check_registered_asset asset;;
  current ← get_asset_storage_tier asset;
  pending ← (if decide (current = TierPersistent) then read_request asset else mret None);
  panic_if (bool_decide (current ≠ TierPersistent) || bool_decide (is_Some pending))
    StorageTierDowngradeNotReady;;
  write_request asset (MkStorageTierDowngradeRequest admin [] 0 current);;
  emit_changed asset current TierTemporary ACTION_PROPOSED admin;;
  now ← ledger_sequence;
  mret (sat_u32 (now + TIER_DOWNGRADE_DELAY_LEDGERS)).

Definition approve_storage_tier_downgrade (asset approver : Address) : M unit :=
  require_auth approver;;
  check_registered_asset asset;;
  req ← read_request asset;
  match req with
  | None => panic_with_error StorageTierDowngradeNotReady
  | Some req =>
      panic_if (bool_decide (approver = stq_proposed_by req)) NotAuthorized;;
      panic_if (bool_decide (approver ∈ stq_approvals req)) InvalidConfiguration;;
      let approvals := stq_approvals req ++ [approver] in
      now ← ledger_sequence;
      let ready_at :=
        if TIER_DOWNGRADE_REQUIRED_APPROVALS <=? Z.of_nat (length approvals)
        then sat_u32 (now + TIER_DOWNGRADE_DELAY_LEDGERS) else stq_ready_at_ledger req in
      write_request asset
        (MkStorageTierDowngradeRequest (stq_proposed_by req) approvals ready_at (stq_from_tier req));;
      if 0 <? ready_at then emit_changed asset TierPersistent TierTemporary ACTION_APPROVED approver
      else mret tt
  end.

Definition execute_storage_tier_downgrade (asset : Address) : M unit :=
  admin ← auth_admin;
  check_registered_asset asset;;
  req ← matured_request asset;
  apply_tier_change asset TierTemporary;;
  remove_request asset;;
  emit_changed asset (stq_from_tier req) TierTemporary ACTION_EXECUTED admin.

(** ** Reading and writing through the tier *)

Definition write_entry_to_tier (asset : Address) (entry : PriceHistoryEntry)
    (tier : HistoryStorageTier) : M unit :=
  match tier with
  | TierTemporary =>
      let key := KeyPriceHistory asset (he_ledger entry) in
      set_temporary key entry;; extend_ttl_temporary key
  | TierPersistent => History.write_history_shard asset entry
  end.

Definition write_history_entry (asset : Address) (entry : PriceHistoryEntry) : M unit :=
  tier ← get_asset_storage_tier asset; write_entry_to_tier asset entry tier.

Definition read_entry_cross_tier (asset : Address) (ledger : Z) : M (option PriceHistoryEntry) :=
  entry ← get_temporary (KeyPriceHistory asset ledger);
  match entry with
  | Some entry => mret (Some (entry : PriceHistoryEntry))
  | None =>
      bucket ← get (KeyHistoryBucket asset (History.ledger_to_bucket ledger));
      mret (match bucket with Some bucket => History.find_entry ledger bucket | None => None end)
  end.

Definition migrate_history_to_tier (asset : Address) (to_tier : HistoryStorageTier) : M Z :=
  admin ← auth_admin;
  check_registered_asset asset;;
  from_tier ← get_asset_storage_tier asset;
  if decide (from_tier = to_tier) then mret 0
  else
    ledgers ← get_or (KeyPriceHistoryLedgers asset) [];
    migrated ← fold_m (λ migrated ledger,
      entry ← read_entry_cross_tier asset ledger;
      match entry with
      | Some entry => write_entry_to_tier asset entry to_tier;; mret (sat_u32 (migrated + 1))
      | None => mret migrated
      end) 0 (ledgers : list Z);
    now ← ledger_sequence;
    write_last_change_ledger asset now;;
    publish (MkStorageTierMigratedEvent asset (HistoryStorageTier_as_u32 from_tier)
               (HistoryStorageTier_as_u32 to_tier) migrated admin now);;
    mret migrated.

Definition read_history_entry (asset : Address) (ledger : Z) : M (option PriceHistoryEntry) :=
  tier ← get_asset_storage_tier asset;
  match tier with
  | TierTemporary =>
      let key := KeyPriceHistory asset ledger in
      entry ← get_temporary key;
      match entry with Some _ => extend_ttl_temporary key | None => mret tt end;;
      mret (entry : option PriceHistoryEntry)
  | TierPersistent =>
      let bucket_key := KeyHistoryBucket asset (History.ledger_to_bucket ledger) in
      bucket ← get bucket_key;
      match bucket with
      | None => mret None
      | Some bucket =>
          let entry := History.find_entry ledger bucket in
          match entry with Some _ => extend_ttl bucket_key | None => mret tt end;;
          mret entry
      end
  end.

Definition remove_bucket_entry (asset : Address) (ledger : Z) : M unit :=
  let bucket_key := KeyHistoryBucket asset (History.ledger_to_bucket ledger) in
  bucket ← get bucket_key;
  match bucket with
  | None => mret tt
  | Some bucket =>
      let retained := filter (λ entry, he_ledger entry ≠ ledger) (bucket : list PriceHistoryEntry) in
      if (length retained =? length (bucket : list PriceHistoryEntry))%nat then mret tt
      else
        match retained with
        | [] => remove bucket_key
        | _ => put bucket_key retained
        end
  end.

Definition remove_history_entry (asset : Address) (ledger : Z) : M unit :=
  tier ← get_asset_storage_tier asset;
  match tier with
  | TierTemporary => remove_temporary (KeyPriceHistory asset ledger)
  | TierPersistent => remove_bucket_entry asset ledger
  end.
