(* ===== verification/ContributionQuality.v ===== *)
(** * [contribution_quality.rs]: the running quality score of a contributor

    Accuracy, timeliness and consistency of every submission are blended into
    a score of at most one hundred and averaged over the scoring window. *)
From stdpp Require Import base list strings.
From S2P Require Import Prelude Machine Types Host AuditLog Config Admin.
#[local] Open Scope Z_scope.
#[local] Set Default Goal Selector "!".

Definition DEFAULT_SCORING_WINDOW : Z := 10.
Definition MIN_SCORING_WINDOW : Z := 2.
Definition MAX_SCORING_WINDOW : Z := 200.
Definition WEIGHT_ACCURACY : Z := 50.
Definition WEIGHT_TIMELINESS : Z := 30.
Definition WEIGHT_CONSISTENCY : Z := 20.
Definition MAX_ACCURACY_DEVIATION_BPS : Z := 5000.

Definition get_contribution_quality (source asset : Address) : M (option ContribQualityRecord) :=
  get (KeyContribScore source asset).

Definition set_scoring_window (window : Z) : M unit :=
  admin ← get_admin;
  require_auth admin;;
  panic_if (negb (in_range MIN_SCORING_WINDOW MAX_SCORING_WINDOW window)) InvalidConfiguration;;
  Flags.mark Flags.CONTRIB_SCORING_WINDOW;;
  put KeyContribScoringWindow window.

Definition get_scoring_window : M Z :=
  on ← Flags.on Flags.CONTRIB_SCORING_WINDOW;
  if negb on then mret DEFAULT_SCORING_WINDOW
  else get_or KeyContribScoringWindow DEFAULT_SCORING_WINDOW.

Section Scores.
Context `{BP : BuildProfile}.

Definition compute_deviation_bps (value reference : Z) : option Z :=
  if reference =? 0 then Some 0
  else
    diff ← i128 (if reference <? value then value - reference else reference - value);
    div_i128 (sat_i128 (diff * 10000)) reference.

Definition compute_accuracy_score (source_price aggregate_price : Z) : option Z :=
  if aggregate_price =? 0 then Some 50
  else
    deviation ← compute_deviation_bps source_price aggregate_price;
    if MAX_ACCURACY_DEVIATION_BPS <=? deviation then Some 0
    else
      left ← i128 (MAX_ACCURACY_DEVIATION_BPS - deviation);
      scaled ← i128 (100 * left);
      score ← div_i128 scaled MAX_ACCURACY_DEVIATION_BPS;
      Some (as_u32 (clampZ 0 100 score)).

Definition compute_timeliness_score (submission_ledger aggregate_ledger : Z) : Z :=
  if aggregate_ledger <=? submission_ledger then 100
  else
    let gap := aggregate_ledger - submission_ledger in
    if 10 <=? gap then 0 else 100 - gap * 10.

Definition compute_consistency_score (current_accuracy : Z) (prior_avg_accuracy : option Z) : Z :=
  match prior_avg_accuracy with
  | None => 80
  | Some prior => 100 - Z.min (sat_u32 (Z.abs (current_accuracy - prior) * 2)) 100
  end.

Definition composite (accuracy timeliness consistency : Z) : option Z :=
  a ← u32 (accuracy * WEIGHT_ACCURACY);
  t ← u32 (timeliness * WEIGHT_TIMELINESS);
  at_ ← u32 (a + t);
  c ← u32 (consistency * WEIGHT_CONSISTENCY);
  s ← u32 (at_ + c);
  Some (s / 100).

(** The new average and the number of rounds it covers. *)
Definition moving_average (window round_score : Z) (existing : option ContribQualityRecord)
    : option (Z * Z) :=
  match existing with
  | None => Some (round_score, 1)
  | Some rec =>
      let rounds := Z.min (sat_u32 (cq_rounds_counted rec + 1)) window in
      weighted ← u32 (cq_composite_score_avg rec * sat_u32 (rounds - 1));
      total ← u32 (weighted + round_score);
      avg ← udiv total rounds;
      Some (avg, rounds)
  end.

Definition update_contribution_quality (source asset : Address)
    (source_price aggregate_price submission_ledger aggregate_ledger : Z) : M unit :=
  window ← get_scoring_window;
  accuracy ← lift (compute_accuracy_score source_price aggregate_price);
  let timeliness := compute_timeliness_score submission_ledger aggregate_ledger in
  let key := KeyContribScore source asset in
  existing ← get key;
  let scored := match existing with
                | Some r => submission_ledger <=? cq_last_updated_ledger r
                | None => false
                end in
  if scored : bool then mret tt
  else
    let consistency := compute_consistency_score accuracy (cq_avg_accuracy_score <$> existing) in
    round_score ← lift (composite accuracy timeliness consistency);
    '(new_avg, rounds_counted) ← lift (moving_average window round_score existing);
    put key (MkContribQualityRecord source asset new_avg round_score accuracy timeliness
               consistency rounds_counted aggregate_ledger);;
    publish (ContribQualityEvent source asset round_score new_avg rounds_counted).
End Scores.
