(* ===== verification/PriceCallback.v ===== *)
(** * [price_callback.rs]: consumers called on every publication

    At most ten consumers per asset.  A callback is a call of another
    contract, a parameter here; its failure only leaves an event. *)
From stdpp Require Import base list strings.
From S2P Require Import Prelude Machine Types Host AuditLog Config Admin Assets.
#[local] Open Scope Z_scope.
#[local] Set Default Goal Selector "!".

Definition MAX_CALLBACKS_PER_ASSET : Z := 10.

(** [env.try_invoke_contract]: whether the call returned a value.  Another
    contract cannot write this contract's entries, and the host refuses to
    re-enter a contract, so the call leaves this world as it is. *)
Class Callbacks := callback_succeeds :
  Address → string → Address → Z → Z → Z → Ctx → World → bool.

(** The first registration of [consumer], with its index. *)
Fixpoint find_consumer (consumer : Address) (i : nat) (registrations : list CallbackRegistration)
    : option nat :=
  match registrations with
  | [] => None
  | reg :: rest =>
      if decide (cr_consumer reg = consumer) then Some i else find_consumer consumer (S i) rest
  end.

Definition register_price_callback (consumer asset callback_contract : Address) (method : string)
    : M unit :=
  require_auth consumer;;
  check_registered_asset asset;;
  Flags.mark Flags.PRICE_CALLBACK;;
  let list_key := KeyPriceCallbackList asset in
  registrations ← get_or list_key [];
  let registrations := registrations : list CallbackRegistration in
  let new_reg := MkCallbackRegistration consumer callback_contract method true in
  updated ← match find_consumer consumer 0 registrations with
            | Some idx => mret (<[idx := new_reg]> registrations)
            | None =>
                panic_if (MAX_CALLBACKS_PER_ASSET <=? Z.of_nat (length registrations))
                  TooManyCallbacks;;
                mret (registrations ++ [new_reg])
            end;
  put list_key updated;;
  publish (CallbackRegisteredEvent asset consumer).

Definition unregister_price_callback (consumer asset : Address) : M unit :=
  require_auth consumer;;
  check_registered_asset asset;;
  let list_key := KeyPriceCallbackList asset in
  registrations ← get_or list_key [];
  let registrations := registrations : list CallbackRegistration in
  match find_consumer consumer 0 registrations with
  | Some idx => put list_key (delete idx registrations)
  | None => panic_with_error CallbackNotFound
  end;;
  publish (CallbackUnregisteredEvent asset consumer).

Definition get_price_callbacks (asset : Address) : M (list CallbackRegistration) :=
  get_or (KeyPriceCallbackList asset) [].

Section Invocation.
Context `{CB : Callbacks}.

Definition try_invoke_callback (contract : Address) (method : string) (asset : Address)
    (price timestamp num_sources : Z) : M bool :=
  λ c w, Ok (callback_succeeds contract method asset price timestamp num_sources c w) w.

Definition invoke_one (asset : Address) (price timestamp num_sources : Z)
    (reg : CallbackRegistration) : M unit :=
  if negb (cr_active reg) then mret tt
  else
    ok ← try_invoke_callback (cr_callback_contract reg) (cr_method reg) asset price timestamp
           num_sources;
    if ok : bool then mret tt
    else publish (CallbackFailedEvent asset (cr_consumer reg) price timestamp).

Definition invoke_price_callbacks (asset : Address) (price timestamp num_sources : Z) : M unit :=
  on ← Flags.on Flags.PRICE_CALLBACK;
  if negb on then mret tt
  else
    registrations ← get_or (KeyPriceCallbackList asset) [];
    for_each registrations (invoke_one asset price timestamp num_sources).
End Invocation.
