(* ===== verification/Corrections.v ===== *)
(** * [corrections.rs]: correcting a published price

    Every asset keeps the chain of its revisions, the first publication
    first; a correction replaces the aggregate within a window after the
    publication, a bounded number of times. *)
From stdpp Require Import base list strings.
From S2P Require Import Prelude Machine Types Host AuditLog Config Admin Assets Frames PriceBounds Rbac.
#[local] Open Scope Z_scope.
#[local] Set Default Goal Selector "!".

Definition MAX_CORRECTION_WINDOW_LEDGERS : Z := 17280.
Definition MAX_CORRECTIONS_PER_ASSET : Z := 32.
Definition MAX_REASON_LEN : Z := 256.

Definition default_scope : CorrectionScope :=
  MkCorrectionScope None MAX_CORRECTION_WINDOW_LEDGERS MAX_CORRECTIONS_PER_ASSET.

Definition get_correction_scope : M CorrectionScope := get_or KeyCfgCorrectionScope default_scope.

Definition set_correction_scope (scope : CorrectionScope) : M unit :=
  admin ← get_admin;
  require_auth admin;;
  panic_if ((csc_window_ledgers scope =? 0) || (csc_max_corrections scope =? 0))
    InvalidConfiguration;;
  let bounded := MkCorrectionScope (csc_assets scope)
                   (Z.min (csc_window_ledgers scope) MAX_CORRECTION_WINDOW_LEDGERS)
                   (Z.min (csc_max_corrections scope) MAX_CORRECTIONS_PER_ASSET) in
  for_each (default [] (csc_assets bounded)) check_registered_asset;;
  put KeyCfgCorrectionScope bounded;;
  PriceBounds.note_correction_scope_configured.

Definition get_revisions (asset : Address) : M (list PriceRevision) :=
  let key := KeyPriceRevisions asset in
  v ← get_or key [];
  match v with [] => mret tt | _ => extend_ttl key end;;
  mret v.

Definition get_revision (asset : Address) (index : Z) : M (option PriceRevision) :=
  chain ← get_revisions asset; mret (chain !! Z.to_nat index).

Definition get_original_price (asset : Address) : M (option Z) := get_touch (KeyPriceOriginal asset).

Definition correction_count (asset : Address) : M Z := get_or (KeyPriceCorrectionCount asset) 0.

Definition append_revision (asset : Address) (revision : PriceRevision) : M unit :=
  let key := KeyPriceRevisions asset in
  chain ← get_or key [];
  put key (chain ++ [revision]).

Definition record_original (asset : Address) (aggregate : AggregatePrice) : M unit :=
  chain ← get (KeyPriceRevisions asset);
  match chain with
  | Some _ => mret tt
  | None =>
      put (KeyPriceOriginal asset) (ap_price aggregate);;
      ledger ← ledger_sequence;
      self ← contract_address;
      append_revision asset
        (MkPriceRevision 0 (ap_price aggregate) (ap_timestamp aggregate) ledger self "original" false)
  end.

Definition history_ledger (asset : Address) : M Z :=
  list ← get_or (KeyPriceHistoryLedgers asset) [];
  mret (default 0 (last list)).

Section Correct.
Context `{BP : BuildProfile} `{CR : Crypto}.

(** The last [n] bytes of a two's-complement integer, most significant first. *)
Definition to_be_bytes (n : nat) (x : Z) : Bytes := rev (to_le_bytes n (x mod 2 ^ (8 * Z.of_nat n))).

Definition correct_price (asset : Address) (new_price : Z) (reason : string) : M Z :=
  admin ← get_admin;
  ok ← Rbac.has_role admin RolePriceUpdater;
  panic_if (negb ok) NotAuthorized;;
  require_auth admin;;
  check_registered_asset asset;;
  panic_if (new_price <=? 0) InvalidPrice;;
  let len := Z.of_nat (String.length reason) in
  panic_if ((len =? 0) || (MAX_REASON_LEN <? len)) InvalidCorrectionReason;;
  bounds ← PriceBounds.get_bounds asset;
  match bounds with
  | Some tier => panic_if ((new_price <? bt_hard_min tier) || (bt_hard_max tier <? new_price))
                   AggregateRejectedByBounds
  | None => mret tt
  end;;
  scope ← get_correction_scope;
  match csc_assets scope with
  | Some assets => panic_if (bool_decide (asset ∉ assets)) NotAuthorized
  | None => mret tt
  end;;
  count ← correction_count asset;
  panic_if (csc_max_corrections scope <=? count) CorrectionLimitReached;;
  aggregate ← get (KeyAggregate asset);
  match aggregate with
  | None => panic_with_error NoData
  | Some previous =>
      ledger ← ledger_sequence;
      published_ledger ← history_ledger asset;
      panic_if (csc_window_ledgers scope <? sat_u32 (ledger - published_ledger))
        CorrectionWindowExpired;;
      chain ← get_revisions asset;
      match chain with [] => record_original asset previous | _ => mret tt end;;
      chain ← get_revisions asset;
      let index := Z.of_nat (length chain) in
      now ← ledger_timestamp;
      put (KeyAggregate asset)
        (MkAggregatePrice new_price now (ap_num_sources previous) (ap_decimals previous) true
           (sat_u32 (ap_version previous + 1)));;
      count ← correction_count asset;
      put (KeyPriceCorrectionCount asset) (sat_u32 (count + 1));;
      append_revision asset (MkPriceRevision index new_price now ledger admin reason true);;
      publish (MkPriceCorrectedEvent asset admin reason (ap_price previous) new_price index ledger
                 (sat_u32 (published_ledger + 1) <? ledger));;
      emit_admin_action "corr_px" admin (to_be_bytes 16 new_price);;
      mret index
  end.
End Correct.

(** ** The revision chain *)

Definition chain_of (w : World) (asset : Address) : list PriceRevision :=
  default [] (persistent w (KeyPriceRevisions asset)).

Definition count_of (w : World) (asset : Address) : Z :=
  default 0 (persistent w (KeyPriceCorrectionCount asset)).

(** Revision [i] is numbered [i]; only revision 0 is the original, whose price
    is kept apart as well; there are never more corrections than the limit. *)
Definition chain_ok (w : World) (asset : Address) : Prop :=
  (∀ i r, chain_of w asset !! i = Some r → prv_index r = Z.of_nat i ∧ prv_corrected r = (0 <? i)%nat) ∧
  (persistent w (KeyPriceRevisions asset) = None ∨ chain_of w asset ≠ []) ∧
  (∀ r, chain_of w asset !! 0%nat = Some r → persistent w (KeyPriceOriginal asset) = Some (prv_price r)) ∧
  Z.of_nat (length (chain_of w asset)) <= 1 + count_of w asset ∧
  0 <= count_of w asset <= MAX_CORRECTIONS_PER_ASSET ∧
  ∀ s, persistent w KeyCfgCorrectionScope = Some s → csc_max_corrections s <= MAX_CORRECTIONS_PER_ASSET.

(** The keys of the chain. *)
Definition chain_key (k : DataKey) : Prop :=
  match k with
  | KeyPriceRevisions _ | KeyPriceOriginal _ | KeyPriceCorrectionCount _ | KeyCfgCorrectionScope
  | KeyAggregate _ => True
  | _ => False
  end.

Lemma chain_ok_frame w w' asset :
  (∀ k, chain_key k → persistent w' k = persistent w k) → chain_ok w asset → chain_ok w' asset.
Proof. intros H. unfold chain_ok, chain_of, count_of. by rewrite !H. Qed.

Lemma run_append_revision asset r c w :
  append_revision asset r c w =
    Ok tt (put_persistent (KeyPriceRevisions asset) (Some (chain_of w asset ++ [r])) w).
Proof. unfold append_revision. by rewrite run_bind, run_get_or, run_put. Qed.

Lemma run_get_revisions asset c w : get_revisions asset c w = Ok (chain_of w asset) w.
Proof.
  unfold get_revisions, chain_of. rewrite run_bind, run_get_or. cbv beta iota. rewrite run_bind.
  unfold extend_ttl. destruct (persistent w (KeyPriceRevisions asset)) as [[|r l]|] eqn:E; simpl; by rewrite ?E.
Qed.

(** The original of a first publication starts a chain. *)
Lemma record_original_spec asset a c w u w' :
  record_original asset a c w = Ok u w' → chain_ok w asset →
  chain_ok w' asset ∧ chain_of w' asset ≠ [] ∧ chain_of w asset `prefix_of` chain_of w' asset ∧
  (chain_of w asset ≠ [] → chain_of w' asset = chain_of w asset) ∧
  count_of w' asset = count_of w asset ∧
  ∀ k, k ≠ KeyPriceRevisions asset → k ≠ KeyPriceOriginal asset → persistent w' k = persistent w k.
Proof.
  unfold record_original. intros H Hok. rewrite run_bind, run_get in H. cbv beta iota in H.
  pose proof Hok as (Hidx & Hne & Horig & Hlen & Hcnt & Hscope).
  destruct (persistent w (KeyPriceRevisions asset)) as [l|] eqn:E.
  { injection H as _ <-. destruct Hne as [|Hne]; [done|]. by split_and!. }
  rewrite run_bind, run_put in H. cbv beta iota in H. rewrite run_bind, run_sequence in H.
  cbv beta iota in H. rewrite run_bind in H. cbn [contract_address] in H.
  rewrite run_append_revision in H. injection H as _ <-.
  assert (chain_of w asset = []) as E0 by (unfold chain_of; by rewrite E).
  match goal with |- context [chain_ok ?w' asset] => assert (chain_of w' asset =
    [MkPriceRevision 0 (ap_price a) (ap_timestamp a) (sequence c) (current_contract c) "original" false]) as E1 end.
  { unfold chain_of. read_store. by rewrite E. }
  unfold chain_ok. rewrite E1, E0. split_and!; try done; unfold count_of in *; try (read_store; lia).
  - intros [|i] r; [by intros [= <-]|done].
  - by right.
  - intros r [= <-]. by read_store.
  - read_store. simpl. lia.
  - apply prefix_nil.
  - intros k Hk1 Hk2. by read_store.
Qed.

Section Chain.
Context `{BP : BuildProfile} `{CR : Crypto}.

Lemma readonly_has_role caller role : readonly (Rbac.has_role caller role).
Proof. unfold Rbac.has_role. read_only. Qed.
Lemma readonly_get_bounds asset : readonly (PriceBounds.get_bounds asset).
Proof. intros c w r w'. unfold PriceBounds.get_bounds. rewrite run_get_touch. by intros [= _ ->]. Qed.

(** Corrections only ever append.  A successful [correct_price] was
    authorised by the administrator, stays within the hard bounds and below the
    correction limit, and extends the revision chain of the asset by exactly one
    numbered entry, after recording the original publication if the chain was
    empty: no revision is changed or dropped, the original price stays on
    record, the aggregate is the new price marked as an override under the next
    version, and at most 32 corrections are ever possible. *)
Theorem correction_appends asset price reason c w index w' :
  correct_price asset price reason c w = Ok index w' → chain_ok w asset →
  chain_ok w' asset ∧
  ∃ base previous admin rev,
    persistent w KeyAdmin = Some admin ∧ authorized c admin = true ∧
    persistent w (KeyAggregate asset) = Some previous ∧
    chain_of w asset `prefix_of` base ∧ (chain_of w asset ≠ [] → base = chain_of w asset) ∧
    chain_of w' asset = base ++ [rev] ∧ index = Z.of_nat (length base) ∧ (1 <= length base)%nat ∧
    prv_price rev = price ∧ prv_reason rev = reason ∧ prv_actor rev = admin ∧
    persistent w' (KeyAggregate asset) =
      Some (MkAggregatePrice price (timestamp c) (ap_num_sources previous) (ap_decimals previous) true
              (sat_u32 (ap_version previous + 1))) ∧
    count_of w' asset = count_of w asset + 1 ∧
    ∀ t, persistent w (KeyAssetBoundsTier asset) = Some t → bt_hard_min t <= price <= bt_hard_max t.
Proof.
  intros H Hok. unfold correct_price in H.
  apply bind_Ok in H as (admin & w1 & Hg & H). apply get_admin_Ok in Hg as [-> Hadmin].
  apply bind_Ok in H as (ok & w1 & Hr & H). apply readonly_has_role in Hr as ->.
  rewrite run_bind, run_panic_if in H. destruct ok; [|done]. cbn [negb] in H.
  apply bind_Ok in H as ([] & w1 & Ha & H). apply require_auth_Ok in Ha as [-> Hauth].
  apply bind_Ok in H as ([] & w1 & Hreg & H).
  assert (∀ k, k ≠ KeyAssetRegistryIndex asset → persistent w1 k = persistent w k) as Hf
    by (intros k; by apply (check_registered_frame _ _ _ _ _ _ Hreg)).
  assert (chain_ok w1 asset) as Hok1 by (apply (chain_ok_frame w); [|done]; intros k Hk; apply Hf; by intros ->).
  assert (chain_of w1 asset = chain_of w asset) as Ec by (unfold chain_of; by rewrite Hf).
  assert (count_of w1 asset = count_of w asset) as En by (unfold count_of; by rewrite Hf).
  rewrite run_bind, run_panic_if in H. destruct (price <=? 0); [done|].
  rewrite run_bind, run_panic_if in H. destruct (_ || _); [done|].
  apply bind_Ok in H as (bounds & w2 & Hb & H). unfold PriceBounds.get_bounds in Hb.
  rewrite run_get_touch, Hf in Hb by done. injection Hb as <- <-.
  apply bind_Ok in H as (u1 & w2 & Hbt & H).
  assert (w2 = w1 ∧ ∀ t, persistent w (KeyAssetBoundsTier asset) = Some t →
            bt_hard_min t <= price <= bt_hard_max t) as [-> Hbounds].
  { destruct (persistent w (KeyAssetBoundsTier asset)) as [t|]; [|by injection Hbt as _ <-].
    rewrite run_panic_if in Hbt. case_if; [done|]. injection Hbt as _ <-. bool_hyps.
    split; [done|]. intros t' [= <-]. lia. }
  apply bind_Ok in H as (scope & w2 & Hsc & H). unfold get_correction_scope in Hsc.
  rewrite run_get_or in Hsc. injection Hsc as <- <-.
  apply bind_Ok in H as (u2 & w2 & Hsc & H).
  assert (w2 = w1) as -> by (destruct (csc_assets _); [rewrite run_panic_if in Hsc; case_if; [done|]|];
    by injection Hsc as _ <-).
  rewrite run_bind in H. unfold correction_count in H. rewrite run_get_or in H. cbv beta iota in H.
  fold (count_of w1 asset) in H. rewrite run_bind, run_panic_if in H. case_if; [done|]. bool_hyps.
  rewrite run_bind, run_get, Hf in H by done. cbv beta iota in H.
  destruct (persistent w (KeyAggregate asset)) as [previous|] eqn:Eagg; [|done].
  rewrite run_bind, run_sequence in H. cbv beta iota in H. rewrite run_bind in H.
  unfold history_ledger in H. rewrite run_bind, run_get_or in H. cbv beta iota in H.
  rewrite run_ret in H. cbv beta iota in H. rewrite run_bind, run_panic_if in H. case_if; [done|].
  rewrite run_bind, run_get_revisions in H. cbv beta iota in H.
  apply bind_Ok in H as (u3 & w2 & Ho & H).
  assert (chain_ok w2 asset ∧ chain_of w2 asset ≠ [] ∧ chain_of w asset `prefix_of` chain_of w2 asset ∧
          (chain_of w asset ≠ [] → chain_of w2 asset = chain_of w asset) ∧
          count_of w2 asset = count_of w asset ∧
          persistent w2 KeyCfgCorrectionScope = persistent w1 KeyCfgCorrectionScope)
    as (Hok2 & Hne2 & Hpre & Hsame & Hcnt2 & Hsc2).
  { rewrite <- Ec, <- En. destruct (chain_of w1 asset) as [|r l] eqn:E1.
    - destruct (record_original_spec _ _ _ _ _ _ Ho Hok1) as (? & ? & ? & ? & ? & Hk).
      rewrite E1 in *. split_and!; try done. by rewrite Hk.
    - injection Ho as _ <-. rewrite E1. split_and!; done. }
  rewrite run_bind, run_get_revisions in H. cbv beta iota in H.
  rewrite run_bind, run_timestamp in H. cbv beta iota in H.
  rewrite run_bind, run_put in H. cbv beta iota in H.
  rewrite run_bind, run_get_or in H. cbv beta iota in H. rewrite run_bind, run_put in H.
  cbv beta iota in H. rewrite run_bind, run_append_revision in H. cbv beta iota in H.
  rewrite run_bind, run_publish in H. cbv beta iota in H.
  apply bind_Ok in H as (u4 & w3 & He & H). injection H as <- ->.
  match type of He with emit_admin_action _ _ _ _ ?w4 = _ =>
    assert (∀ k, ¬ audit_key k → persistent w' k = persistent w4 k) as Hf3
      by (intros k; exact (modifies_emit _ _ _ _ _ _ _ He k)) end.
  set (rev := MkPriceRevision _ _ _ _ _ _ _) in *.
  assert (chain_of w' asset = chain_of w2 asset ++ [rev]) as Echain.
  { unfold chain_of at 1. rewrite Hf3 by tauto. read_store. done. }
  pose proof Hok as (_ & _ & _ & _ & Hcnt & Hscope).
  pose proof Hok2 as (Hidx2 & _ & Horig2 & Hlen2 & _ & _).
  assert (count_of w asset < MAX_CORRECTIONS_PER_ASSET) as Hlt.
  { rewrite <- En. eapply Z.lt_le_trans; [exact Heqb|]. rewrite Hf by done.
    destruct (persistent w KeyCfgCorrectionScope) as [sc|] eqn:Esc; [by apply Hscope|done]. }
  assert (count_of w' asset = count_of w asset + 1) as Ecnt.
  { unfold count_of at 1. rewrite Hf3 by tauto. read_store.
    change (sat_u32 (count_of w2 asset + 1) = count_of w asset + 1). rewrite Hcnt2. apply sat_u32_id.
    unfold in_u32, U32_MAX, MAX_CORRECTIONS_PER_ASSET in *. lia. }
  split.
  - unfold chain_ok. rewrite Echain, Ecnt. split_and!.
    + intros i r Hi. apply lookup_app_Some in Hi as [Hi|[Hle Hi]]; [by apply Hidx2|].
      apply list_lookup_singleton_Some in Hi as [Hi <-]. simpl.
      destruct (chain_of w2 asset) as [|r0 l]; [done|]. simpl in *. split; [lia|].
      symmetry. apply Nat.ltb_lt. lia.
    + right. by destruct (chain_of w2 asset).
    + intros r Hr. rewrite Hf3 by tauto. read_store. apply Horig2.
      destruct (chain_of w2 asset) as [|r0 l]; [done|exact Hr].
    + rewrite length_app. simpl. lia.
    + lia.
    + lia.
    + intros sc Hs. rewrite Hf3 in Hs by tauto. revert Hs. read_store. rewrite Hsc2, Hf by done. apply Hscope.
  - exists (chain_of w2 asset), previous, admin, rev. split_and!; try done.
    + destruct (chain_of w2 asset); [done|simpl; lia].
    + rewrite Hf3 by tauto. by read_store.
Qed.
End Chain.

Lemma correction_appends_witness :
  let w := put_persistent KeyAdmin (Some 9%N)
             (put_persistent (KeyAssetRegistryIndex 7%N) (Some true)
               (put_persistent (KeyAggregate 7%N) (Some (MkAggregatePrice 100 5 3 7 false 4)) empty_world)) in
  let fix_ := @correct_price Wrapping toy_crypto 7%N 120 "feed glitch" in
  let w' := match fix_ toy_ctx w with Ok _ w' => w' | Err _ => w end in
  fix_ toy_ctx w = Ok 1 w' ∧ chain_ok w 7%N ∧ chain_ok w' 7%N.
Proof.
  intros w fix_ w'. assert (fix_ toy_ctx w = Ok 1 w') as H by (vm_compute; reflexivity).
  assert (chain_ok w 7%N) as Hok.
  { split_and!; try (by intros); try (vm_compute; discriminate). by left. }
  split; [exact H|]. split; [exact Hok|].
  exact (proj1 (@correction_appends Wrapping toy_crypto 7%N 120 "feed glitch" toy_ctx w 1 w' H Hok)).
Defined.
