(* ===== verification/Aggregation.v ===== *)
(** * [prices.rs], [recompute.rs]: from the stored submissions to a price

    One round of aggregation of an asset: which sources take part, which of
    their submissions count, how they are combined, the guards that clamp,
    withhold or reject the result, and everything a publication records. *)
From stdpp Require Import base list strings.
From S2P Require Import Prelude Machine CorePricing StorageMath Types Host AuditLog Config Admin Assets.
From S2P Require Import History Policy PriceBounds RiskTier FreshnessQuorum InfluenceCap FreshnessWeight.
From S2P Require Import Explanation Correlation OutlierFilter Deferral DqPipeline SourceLifecycle.
From S2P Require Import SourceComparison SourceGuards Blackout SanityLattice Scorecards ConfidenceBand.
From S2P Require Import GasMetering Disagreement Latency Provenance StorageTier ContributionQuality.
From S2P Require Import PriceCallback Corrections.
#[local] Open Scope Z_scope.
#[local] Set Default Goal Selector "!".

(** ** Parameters *)

Definition read_bft_fault_tolerance : M Z :=
  on ← Flags.on Flags.BFT;
  if negb on then mret 0 else get_or KeyCfgBftFaultTolerance 0.

Definition read_bft_aggregation_method : M Z :=
  on ← Flags.on Flags.BFT;
  if negb on then mret (BftAggregationMethod_as_u32 BftMedian)
  else get_or KeyCfgBftAggregationMethod (BftAggregationMethod_as_u32 BftMedian).

Definition set_bft_parameters (fault_tolerance method : Z) : M unit :=
  admin ← get_admin;
  require_auth admin;;
  panic_if (BftAggregationMethod_as_u32 BftTrimmedMean <? method) InvalidConfiguration;;
  Flags.mark Flags.BFT;;
  set KeyCfgBftFaultTolerance fault_tolerance;;
  set KeyCfgBftAggregationMethod method.

Definition get_bft_fault_tolerance : M Z := read_bft_fault_tolerance.
Definition get_bft_aggregation_method : M Z := read_bft_aggregation_method.

(** The asset's own submission interval, or the contract-wide one. *)
Definition min_interval_for (asset : Address) : M Z :=
  let key := KeyAssetMinSubmissionInterval asset in
  on ← Flags.on Flags.ASSET_MIN_SUBMISSION_INTERVAL;
  own ← (if on : bool then has key else mret false);
  if own : bool then extend_ttl key;; get_or key 0 else get_min_submission_interval.

Definition is_excluded (source : Address) : M bool :=
  inactive ← is_source_inactive source;
  if inactive : bool then mret true else SourceGuards.is_source_suspended source.

Definition note_excluded_source : M unit := PriceBounds.note_source_excluded.

(** ** Selection of the sources *)

(** The mixing step of the selection. *)
Definition lcg (seed i : Z) : Z := as_u32 (seed * 1664525 + i + 1013904223).

(** Keeps [needed] of the sources from index [i] on. *)
Fixpoint select_loop (seed i needed : Z) (sources : list Address) : list Address :=
  match sources with
  | [] => []
  | src :: rest =>
      let remaining := Z.of_nat (length sources) in
      if (remaining <=? needed) || (lcg seed i mod remaining <? needed) then
        src :: (if needed - 1 <=? 0 then [] else select_loop seed (i + 1) (needed - 1) rest)
      else select_loop seed (i + 1) needed rest
  end.

Definition select_sources (seed max_agg : Z) (sources : list Address) : list Address :=
  if (0 <? max_agg) && (max_agg <? Z.of_nat (length sources))
  then select_loop seed 0 max_agg sources else sources.

(** [u32::from_le_bytes] *)
Definition from_le_bytes (b : Bytes) : Z := foldr (λ x acc, x + 256 * acc) 0 b.

Section Seeds.
Context `{CR : Crypto}.

(** The seed of an aggregation; the counting and candidate paths take the
    ledger sequence itself. *)
Definition hashed_seed (sequence : Z) : Z := from_le_bytes (take 4 (sha256 (to_le_bytes 4 sequence))).
End Seeds.

Definition selected_by_sequence : M (list Address) :=
  registry ← read_oracle_sources;
  max_agg ← get_max_aggregation_sources;
  seed ← ledger_sequence;
  mret (select_sources seed max_agg (os_sources registry)).

Definition selected_by_hash `{Crypto} : M (list Address) :=
  registry ← read_oracle_sources;
  max_agg ← get_max_aggregation_sources;
  sequence ← ledger_sequence;
  mret (select_sources (hashed_seed sequence) max_agg (os_sources registry)).

(** ** Combining prices *)

Section Combine.
Context `{BP : BuildProfile}.

(** The interquartile filter of the fault-tolerant path, on sorted prices. *)
Definition bft_accepted (sorted : list Z) : option (list Z) :=
  let n := length sorted in
  if (n <? 4)%nat then Some []
  else
    q1 ← sorted !! (n / 4)%nat;
    q3 ← sorted !! (n * 3 / 4 - 1)%nat;
    let iqr := sat_i128 (q3 - q1) in
    let margin := Z.quot (sat_i128 (iqr * 3)) 2 in
    let lower_bound := sat_i128 (q1 - margin) in
    let upper_bound := sat_i128 (q3 + margin) in
    Some (filter (λ v, in_range lower_bound upper_bound v = true) sorted).

(** Drops [fault_tolerance] values from both ends, if any would be left. *)
Definition bft_trim (fault_tolerance : Z) (consensus : list Z) : list Z :=
  let len := Z.of_nat (length consensus) in
  let trim_count := Z.min fault_tolerance (len / 2) in
  if (0 <? trim_count) && (sat_u32 (trim_count * 2) <? len) then
    let trimmed := take (Z.to_nat (len - trim_count) - Z.to_nat trim_count)
                     (drop (Z.to_nat trim_count) consensus) in
    match trimmed with [] => consensus | _ => trimmed end
  else consensus.

Definition aggregate_bft_prices (prices : list Z) (fault_tolerance method : Z) : option Z :=
  match prices with
  | [] => Some 0
  | [p] => Some p
  | _ =>
      sorted ← sort_prices prices;
      accepted ← bft_accepted sorted;
      let consensus := match accepted with [] => sorted | _ => accepted end in
      let consensus := bft_trim fault_tolerance consensus in
      if method =? 1 then compute_mean consensus
      else if method =? 2 then compute_trimmed_mean consensus 10
      else compute_median consensus
  end.

Definition aggregate_by_method (method : Z) (prices volumes : list Z) : option Z :=
  if method =? 1 then compute_mean prices
  else if method =? 2 then compute_trimmed_mean prices 10
  else if method =? 3 then compute_vwap prices volumes
  else compute_median prices.

Definition aggregate_prices (asset : Address) (prices volumes : list Z) : M Z :=
  bft_fault_tolerance ← read_bft_fault_tolerance;
  if 0 <? bft_fault_tolerance then
    method ← read_bft_aggregation_method;
    lift (aggregate_bft_prices prices bft_fault_tolerance method)
  else
    policy ← Policy.effective_policy asset;
    lift (aggregate_by_method (ep_method policy) prices volumes).
End Combine.

(** ** Candidates and quorum *)

Section Counting.
Context `{BP : BuildProfile}.

(** The loop of [build_candidate_aggregate]: prices, volumes and the latest
    timestamp, with the new price in place of the source's stored one. *)
Fixpoint candidate_loop (asset source : Address) (price timestamp : Z) (selected : list Address)
    (acc : list Z * list Z * Z) : M (list Z * list Z * Z) :=
  match selected with
  | [] => mret acc
  | src :: selected =>
      let '(prices, volumes, latest) := acc in
      if decide (src = source) then
        candidate_loop asset source price timestamp selected
          (prices ++ [price], volumes ++ [0], Z.max latest timestamp)
      else
        entry ← get (KeySubmission asset src);
        candidate_loop asset source price timestamp selected
          match entry with
          | Some e => (prices ++ [pe_price e], volumes ++ [default 0 (pe_volume e)],
                       Z.max latest (pe_timestamp e))
          | None => acc
          end
  end.

Definition build_candidate_aggregate (asset source : Address) (price timestamp decimals : Z)
    : M (option AggregatePrice) :=
  policy ← Policy.effective_policy asset;
  selected ← selected_by_sequence;
  '(prices, volumes, latest) ← candidate_loop asset source price timestamp selected ([], [], 0);
  let contributing := Z.of_nat (length prices) in
  if (ep_min_sources policy <=? contributing) && negb (bool_decide (prices = [])) then
    aggregated_price ← aggregate_prices asset prices volumes;
    mret (Some (MkAggregatePrice aggregated_price latest contributing decimals false 0))
  else mret None.

(** Whether the submission interval lets the source's last submission count:
    [None] when it never submitted. *)
Definition within_interval (min_interval current_ledger : Z) (last : option Z) : bool :=
  (min_interval <=? 0)
  || match last with Some last => sat_u32 (current_ledger - last) <=? min_interval | None => false end.

Fixpoint count_loop (asset : Address) (min_interval current_ledger : Z) (selected : list Address)
    : M Z :=
  match selected with
  | [] => mret 0
  | src :: selected =>
      last ← get (KeyLastSubmissionLedger src asset);
      if negb (within_interval min_interval current_ledger last) then
        count_loop asset min_interval current_ledger selected
      else
        flagged ← Correlation.is_correlation_flagged src asset;
        if flagged : bool then count_loop asset min_interval current_ledger selected
        else
          submitted ← has (KeySubmission asset src);
          n ← count_loop asset min_interval current_ledger selected;
          mret (if submitted : bool then n + 1 else n)
  end.

Definition count_contributing_sources (asset : Address) (current_ledger : Z) : M Z :=
  min_interval ← min_interval_for asset;
  selected ← selected_by_sequence;
  count_loop asset min_interval current_ledger selected.

Definition maybe_aggregate_after_submission (asset : Address) (current_ledger : Z) : M bool :=
  policy ← Policy.effective_policy asset;
  contributing ← count_contributing_sources asset current_ledger;
  let min_required := ep_min_sources policy in
  if min_required <=? contributing then mret true
  else
    Explanation.record_aggregate RuleInsufficientSources asset contributing min_required min_required;;
    publish (MkSourcesInsufficientEvent asset contributing min_required);;
    mret false.
End Counting.

(** ** One round *)

(** What a round reads once. *)
Record RoundContext := MkRoundContext {
  rc_policy : EffectivePolicy;
  rc_guards : PublicationGuards;
  rc_curve : FreshnessCurve;
  rc_min_interval : Z;
  rc_dq_round : option DqRound;
  rc_probation_guard : bool;
  rc_comparison : bool;
  rc_fresh_window : Z;
  rc_recompute : bool
}.

(** One admitted submission; the parallel vectors [valid_prices],
    [valid_volumes], [valid_weights], [valid_sources], [valid_sub_ledgers]. *)
Record Contribution := MkContribution {
  co_price : Z;
  co_volume : Z;
  co_weight : Z;
  co_source : Address;
  co_sub_ledger : Z
}.

(** What the loop accumulates. *)
Record Gathered := MkGathered {
  ga_valid : list Contribution;
  ga_latest_timestamp : Z;
  ga_stale_sources : Z;
  ga_probation_counted : Z;
  ga_admitted : list (Address * Z);
  ga_scored : list (Address * Z * Z)
}.

Definition nothing_gathered : Gathered := MkGathered [] 0 0 0 [] [].

Definition add_scored (x : Address * Z * Z) (g : Gathered) : Gathered :=
  MkGathered (ga_valid g) (ga_latest_timestamp g) (ga_stale_sources g) (ga_probation_counted g)
    (ga_admitted g) (ga_scored g ++ [x]).
Definition add_admitted (x : Address * Z) (g : Gathered) : Gathered :=
  MkGathered (ga_valid g) (ga_latest_timestamp g) (ga_stale_sources g) (ga_probation_counted g)
    (ga_admitted g ++ [x]) (ga_scored g).
Definition add_stale (g : Gathered) : Gathered :=
  MkGathered (ga_valid g) (ga_latest_timestamp g) (ga_stale_sources g + 1) (ga_probation_counted g)
    (ga_admitted g) (ga_scored g).
Definition add_probation (g : Gathered) : Gathered :=
  MkGathered (ga_valid g) (ga_latest_timestamp g) (ga_stale_sources g) (ga_probation_counted g + 1)
    (ga_admitted g) (ga_scored g).
Definition add_valid (x : Contribution) (timestamp : Z) (g : Gathered) : Gathered :=
  MkGathered (ga_valid g ++ [x]) (Z.max (ga_latest_timestamp g) timestamp) (ga_stale_sources g)
    (ga_probation_counted g) (ga_admitted g) (ga_scored g).

Section Gathering.
Context `{BP : BuildProfile}.

(** The submission interval: [false] excludes the source, and flags it once. *)
Definition check_interval (rc : RoundContext) (asset src : Address) (current_ledger : Z) : M bool :=
  if rc_min_interval rc <=? 0 then mret true
  else
    last ← get (KeyLastSubmissionLedger src asset);
    match last with
    | None => mret false
    | Some last =>
        if rc_min_interval rc <? sat_u32 (current_ledger - last) then
          let nc_key := KeySourceNonCompliant src asset in
          flagged ← has nc_key;
          (if flagged : bool then mret tt
           else
             set nc_key true;;
             publish (MkSourceNonCompliantEvent src asset last (rc_min_interval rc)));;
          mret false
        else mret true
    end.

(** The checks of a stored submission, in order; [add_valid] when all pass. *)
Definition admit_entry (rc : RoundContext) (asset src : Address) (e : PriceEntry) (g : Gathered)
    : M Gathered :=
  let g := if rc_recompute rc then g else add_scored (src, pe_price e, pe_last_updated e) g in
  flagged ← Correlation.is_correlation_flagged src asset;
  if flagged : bool then mret g
  else
    let g := if rc_comparison rc then add_admitted (src, pe_price e) g else g in
    extend_ttl (KeySubmission asset src);;
    now ← ledger_timestamp;
    let freshness_secs := ep_freshness_secs (rc_policy rc) in
    if (0 <? freshness_secs) && (freshness_secs <? sat_u64 (now - pe_ledger_timestamp e)) then mret g
    else
      fresh ← FreshnessQuorum.is_fresh e (rc_fresh_window rc);
      if negb fresh then mret (add_stale g)
      else
        screened ← match rc_dq_round rc with
                   | Some round => DqPipeline.screen round asset src e
                   | None => mret true
                   end;
        if negb screened then mret g
        else
          probation ← (if rc_probation_guard rc then SourceLifecycle.on_probation src
                       else mret false);
          if probation && (SourceLifecycle.PROBATION_MAX_COUNTED <=? ga_probation_counted g)
          then mret g
          else
            let g := if probation : bool then add_probation g else g in
            weight ← FreshnessWeight.entry_weight e (rc_curve rc);
            mret (add_valid (MkContribution (pe_price e) (default 0 (pe_volume e)) weight src
                               (pe_last_updated e)) (pe_timestamp e) g).

(** The body of the loop over the selected sources. *)
Definition gather_one (rc : RoundContext) (asset : Address) (g : Gathered) (src : Address)
    : M Gathered :=
  excluded ← (if pg_any_source_excluded (rc_guards rc) then is_excluded src else mret false);
  if excluded : bool then mret g
  else
    current_ledger ← ledger_sequence;
    ok ← check_interval rc asset src current_ledger;
    if negb ok then mret g
    else
      sub ← get (KeySubmission asset src);
      match sub with Some e => admit_entry rc asset src e g | None => mret g end.

(** The two pre-filters, as one mask. *)
Definition keep_mask (outlier_mask deviation_mask : list bool) : list bool :=
  match deviation_mask with [] => outlier_mask | _ => zip_with andb outlier_mask deviation_mask end.

(** Prices, volumes and weights after the pre-filters.  The sources and
    submission ledgers are not filtered. *)
Definition prefilter (rc : RoundContext) (asset : Address) (valid : list Contribution)
    : M (list Z * list Z * list Z) :=
  let prices := co_price <$> valid in
  let volumes := co_volume <$> valid in
  let weights := co_weight <$> valid in
  let max_bps := ep_max_deviation_bps (rc_policy rc) in
  outlier_mask ← OutlierFilter.filter_round asset prices (co_source <$> valid);
  deviation_mask ← (if 0 <? max_bps then lift (Policy.deviation_mask prices max_bps) else mret []);
  exclusions ← (if 0 <? max_bps then mret [] else OutlierFilter.get_exclusions asset);
  if (0 <? max_bps) || negb (bool_decide (length exclusions = 0%nat)) then
    let mask := keep_mask outlier_mask deviation_mask in
    mret (Policy.masked mask prices, Policy.masked mask volumes, Policy.masked mask weights)
  else mret (prices, volumes, weights).
End Gathering.

(** ** Publication *)

Section Publication.
Context `{BP : BuildProfile} `{CR : Crypto} `{US : UnstableSort} `{XD : Xdr} `{CB : Callbacks}.

Definition combine (rc : RoundContext) (asset : Address) (prices volumes weights : list Z) : M Z :=
  fault_tolerance ← read_bft_fault_tolerance;
  if (ep_method (rc_policy rc) =? 4) && (fault_tolerance =? 0) then
    capped ← FreshnessWeight.capped weights;
    weighted ← lift (FreshnessWeight.aggregate prices capped);
    raw_median ← lift (compute_median prices);
    publish (MkWeightedAggregationEvent asset raw_median weighted capped);;
    cap_bps ← InfluenceCap.get_cap_bps;
    influence ← lift (InfluenceCap.influence_bps capped);
    publish (MkInfluenceCapAppliedEvent asset cap_bps influence);;
    mret weighted
  else aggregate_prices asset prices volumes.

(** Bounds and relations: [None] withholds the publication; the flag says
    that the price was clamped. *)
Definition guard_price (rc : RoundContext) (asset : Address) (raw_median : Z)
    : M (option (Z * bool)) :=
  '(published, degraded) ←
    (if pg_any_bounds_configured (rc_guards rc) then PriceBounds.apply asset raw_median
     else mret (Some raw_median, false));
  match published with
  | None => mret None
  | Some median_price =>
      if pg_any_sanity_relations (rc_guards rc) then
        verdict ← SanityLattice.check asset median_price;
        mret (if v_blocked verdict then None else Some (median_price, degraded))
      else mret (Some (median_price, degraded))
  end.

Definition publish_band (rc : RoundContext) (asset : Address) (centre decimals : Z)
    (prices : list Z) : M unit :=
  band ← ConfidenceBand.band_for prices decimals;
  match band with
  | None => mret tt
  | Some band =>
      publish (MkConfidenceBandEvent asset centre band);;
      if cb_low_confidence band then
        width ← lift (i128 (cb_upper band - cb_lower band));
        Explanation.record_aggregate RuleLowConfidenceBand asset width 0
          (ep_min_sources (rc_policy rc));;
        mret tt
      else mret tt
  end.

(** The aggregate that replaces [prev]. *)
Definition next_aggregate (recompute : bool) (prev : AggregatePrice)
    (price latest_timestamp num_sources decimals : Z) : AggregatePrice :=
  MkAggregatePrice price
    (if recompute then Z.max latest_timestamp (ap_timestamp prev) else latest_timestamp)
    num_sources decimals false
    (if price =? ap_price prev
     then ap_version prev else sat_u32 (ap_version prev + 1)).

(** The provenance entry and latency sample of contributor [i]. *)
Definition record_contributor (rc : RoundContext) (asset : Address) (valid : list Contribution)
    (prices influence : list Z) (current_ledger deferral : Z)
    (acc : list ProvenanceEntry) (i : nat) : M (list ProvenanceEntry) :=
  c ← lift (valid !! i);
  (if rc_recompute rc then mret tt
   else Latency.record_counted (co_source c) asset (co_sub_ledger c) current_ledger deferral);;
  price ← lift (prices !! i);
  mret (acc ++ [MkProvenanceEntry (co_source c) price (default 0 (influence !! i)) (co_sub_ledger c)]).

(** Provenance, latency and disagreement of the published round. *)
Definition record_quality (rc : RoundContext) (asset : Address) (valid : list Contribution)
    (prices weights : list Z) (price timestamp current_ledger : Z) : M unit :=
  round_weights ← FreshnessWeight.capped weights;
  influence ← lift (InfluenceCap.influence_bps round_weights);
  last ← Latency.last_aggregate_ledger asset;
  let deferral := sat_u32 (current_ledger - last) in
  let n := length prices in
  contributors ← fold_m (record_contributor rc asset valid prices influence current_ledger deferral)
                   [] (seq 0 n);
  reference ← lift (compute_median prices);
  Provenance.record asset current_ledger price timestamp reference (ep_method (rc_policy rc))
    contributors (replicate n deferral);;
  Disagreement.record asset current_ledger prices;;
  mret tt.

(** A pruning loop: drops the oldest ledgers above [cap] while the event
    budget lasts. *)
Fixpoint prune_loop (pruned : Z → Z → Event) (asset : Address) (cap max_events : Z)
    (ledger_list : list Z) (event_count : Z) : M (list Z * Z) :=
  match ledger_list with
  | [] => mret ([], event_count)
  | oldest :: rest =>
      if Z.of_nat (length ledger_list) <=? cap then mret (ledger_list, event_count)
      else if max_events <=? event_count then
        publish (MkEventLimitWarningEvent asset event_count max_events);;
        mret (ledger_list, event_count)
      else
        remove_temporary (KeyPriceHistory asset oldest);;
        History.remove_history_shard_entry asset oldest;;
        Provenance.prune asset oldest;;
        publish (pruned oldest (Z.of_nat (length rest)));;
        prune_loop pruned asset cap max_events rest (event_count + 1)
  end.

(** History, pruning and compaction metadata; returns the events used. *)
Definition record_history (asset : Address) (entry : PriceHistoryEntry) (current_ledger max_events : Z)
    : M Z :=
  skip_history ← History.should_skip_on_write asset (he_price entry);
  StorageTier.write_history_entry asset entry;;
  let ledgers_key := KeyPriceHistoryLedgers asset in
  ledger_list ← get_or ledgers_key [];
  ledger_list ←
    (if skip_history : bool then
       StorageTier.remove_history_entry asset current_ledger;; mret ledger_list
     else
       History.write_history_shard asset entry;;
       mret (if bool_decide (last (ledger_list : list Z) = Some current_ledger) then ledger_list
             else ledger_list ++ [current_ledger]));
  max_history ← get_max_history_length;
  '(ledger_list, event_count) ←
    prune_loop (λ l n, MkHistoryPrunedEvent asset l n) asset max_history max_events ledger_list 0;
  max_per_asset ← get_max_history_per_asset;
  '(ledger_list, event_count) ←
    prune_loop (λ l n, MkHistoryPerAssetPrunedEvent asset l n) asset max_per_asset max_events
      ledger_list event_count;
  set ledgers_key ledger_list;;
  (if skip_history : bool then
     threshold ← History.get_compaction_threshold_bps;
     let n := Z.of_nat (length ledger_list) in
     set (KeyCompactionMeta asset) (MkCompactionMetadata (sat_u32 (n + 1)) n current_ledger threshold)
   else mret tt);;
  mret event_count.

(** Everything after the guards have let [median_price] through. *)
Definition publish_price (rc : RoundContext) (asset : Address) (g : Gathered)
    (prices weights : list Z) (raw_median median_price : Z) (degraded : bool)
    (current_ledger decimals max_events : Z) : M unit :=
  let sources := co_source <$> ga_valid g in
  let num_sources := Z.of_nat (length prices) in
  scorecards ← Scorecards.enabled;
  (if scorecards : bool then Scorecards.record_round sources prices else mret tt);;
  publish_band rc asset (if degraded then raw_median else median_price) decimals prices;;
  prev ← get_or (KeyAggregate asset) (MkAggregatePrice 0 0 0 decimals false 0);
  let aggregate := next_aggregate (rc_recompute rc) prev median_price (ga_latest_timestamp g)
                     num_sources decimals in
  put (KeyAggregate asset) aggregate;;
  (if rc_comparison rc
   then SourceComparison.record asset median_price (fst <$> ga_admitted g) (snd <$> ga_admitted g)
          sources
   else mret tt);;
  cpu ← GasMetering.cpu_usage;
  mem ← GasMetering.mem_usage;
  GasMetering.write_last_gas "aggregate" (sat_u64 (cpu - cpu)) (sat_u64 (mem - mem));;
  record_quality rc asset (ga_valid g) prices weights median_price (ap_timestamp aggregate)
    current_ledger;;
  event_count ← record_history asset
    (MkPriceHistoryEntry median_price (ap_timestamp aggregate) current_ledger num_sources false)
    current_ledger max_events;
  (if event_count <? max_events
   then publish (MkPriceAggregatedEvent asset median_price num_sources (ap_timestamp aggregate))
   else publish (MkEventLimitWarningEvent asset event_count max_events));;
  for_each (ga_scored g) (λ '(src, price, last_updated),
    ContributionQuality.update_contribution_quality src asset price median_price last_updated
      current_ledger);;
  PriceCallback.invoke_price_callbacks asset median_price (ap_timestamp aggregate) num_sources;;
  Deferral.mark_published asset;;
  Corrections.record_original asset aggregate.

Definition report_shortage (asset : Address) (count min_required max_events : Z) : M unit :=
  if 0 <? max_events then publish (MkSourcesInsufficientEvent asset count min_required)
  else publish (MkEventLimitWarningEvent asset 0 max_events).

(** The second half of a round: filters, quorum, publication. *)
Definition conclude (rc : RoundContext) (asset : Address) (g : Gathered)
    (current_ledger decimals max_events : Z) : M unit :=
  let min_required := ep_min_sources (rc_policy rc) in
  '(prices, volumes, weights) ← prefilter rc asset (ga_valid g);
  blackout ← Blackout.suppresses asset;
  publishable ← (if blackout : bool then mret false
                 else Deferral.should_publish asset (rc_guards rc));
  let contributing := Z.of_nat (length prices) in
  if publishable && (min_required <=? contributing) && negb (contributing =? 0) then
    raw_median ← combine rc asset prices volumes weights;
    guarded ← guard_price rc asset raw_median;
    match guarded with
    | None => mret tt
    | Some (median_price, degraded) =>
        publish_price rc asset g prices weights raw_median median_price degraded current_ledger
          decimals max_events
    end
  else report_shortage asset contributing min_required max_events.

Definition aggregate_asset_mode (asset : Address) (current_ledger decimals : Z) (recompute : bool)
    : M unit :=
  max_events ← get_max_events_per_call;
  policy ← Policy.effective_policy asset;
  policy ← RiskTier.apply_to_policy asset policy;
  enforced ← RiskTier.enforcement_flag;
  tiered ← (if enforced : bool then RiskTier.require_tier asset else mret true);
  if negb tiered then publish (MkSourcesInsufficientEvent asset 0 (ep_min_sources policy))
  else
    selected ← selected_by_hash;
    curve ← FreshnessWeight.get_curve asset;
    min_interval ← min_interval_for asset;
    guards ← PriceBounds.guards;
    dq_round ← DqPipeline.begin asset;
    probation_guard ← SourceLifecycle.any_probation;
    comparison ← SourceComparison.is_enabled asset;
    '(fresh_window, _) ← FreshnessQuorum.window_for asset;
    let rc := MkRoundContext policy guards curve min_interval dq_round probation_guard comparison
                fresh_window recompute in
    g ← fold_m (gather_one rc asset) nothing_gathered selected;
    (if pg_any_freshness_window guards
     then FreshnessQuorum.record_round asset (Z.of_nat (length (ga_valid g))) (ga_stale_sources g)
            (ep_min_sources policy)
     else mret tt);;
    conclude rc asset g current_ledger decimals max_events.

Definition aggregate_asset (asset : Address) (current_ledger decimals : Z) : M unit :=
  aggregate_asset_mode asset current_ledger decimals false.

Definition do_aggregate (asset : Address) : M unit :=
  decimals ← get_decimals;
  current_ledger ← ledger_sequence;
  aggregate_asset asset current_ledger decimals.

(** ** Recomputation after a change of the source set *)

Definition MAX_RECOMPUTE_ASSETS : nat := 64.
Definition INLINE_RECOMPUTE_ASSETS : Z := 2.

Definition recompute_asset (asset : Address) : M (Z * Z) :=
  current_ledger ← ledger_sequence;
  decimals ← get_decimals;
  aggregate_asset_mode asset current_ledger decimals true;;
  aggregate ← get (KeyAggregate asset);
  mret (match aggregate with Some a => (ap_price a, ap_num_sources a) | None => (0, 0) end).

(** The scan of the registry for assets the source has submitted to. *)
Fixpoint submitted_assets (source : Address) (out assets : list Address) : M (list Address) :=
  match assets with
  | [] => mret out
  | a :: assets =>
      if (MAX_RECOMPUTE_ASSETS <=? length out)%nat then mret out
      else if bool_decide (a ∈ out) then submitted_assets source out assets
      else
        submitted ← has (KeySubmission a source);
        submitted_assets source (if submitted : bool then out ++ [a] else out) assets
  end.

Definition affected_assets (source : Address) : M (list Address) :=
  claimed ← get_or (KeySourceAssets source) [];
  let out := foldl (λ out a, if bool_decide (a ∈ out) then out else out ++ [a]) []
               (claimed : list Address) in
  registered ← read_registered_assets;
  submitted_assets source out registered.

Definition stamp : M unit := ledger ← ledger_sequence; put KeyLastForcedRecompute ledger.

Definition recompute_one (asset : Address) (reason : RecomputeReason) (ledger : Z) : M bool :=
  previous ← get (KeyAggregate asset);
  match previous with
  | None => mret false
  | Some previous =>
      '(price, num_sources) ← recompute_asset asset;
      publish (MkAggregateRecomputedEvent asset reason price num_sources (ap_num_sources previous)
                 ledger);;
      mret true
  end.

Fixpoint recompute_loop (reason : RecomputeReason) (ledger done : Z) (deferred assets : list Address)
    : M (list Address) :=
  match assets with
  | [] => mret deferred
  | asset :: assets =>
      if INLINE_RECOMPUTE_ASSETS <=? done then
        published ← has (KeyAggregate asset);
        recompute_loop reason ledger done (if published : bool then deferred ++ [asset] else deferred)
          assets
      else
        ran ← recompute_one asset reason ledger;
        recompute_loop reason ledger (if ran : bool then done + 1 else done) deferred assets
  end.

Definition recompute_bounded (assets : list Address) (reason : RecomputeReason) : M unit :=
  ledger ← ledger_sequence;
  stamp;;
  deferred ← recompute_loop reason ledger 0 [] assets;
  match deferred with
  | [] => mret tt
  | _ => publish (MkRecomputeDeferredEvent reason deferred ledger)
  end.

Definition recompute_source_change (source : Address) (reason : RecomputeReason) : M unit :=
  assets ← affected_assets source; recompute_bounded assets reason.
Definition recompute_assets (assets : list Address) (reason : RecomputeReason) : M unit :=
  recompute_bounded assets reason.
Definition recompute_all (reason : RecomputeReason) : M unit :=
  assets ← read_registered_assets; recompute_bounded assets reason.
End Publication.
