(* ===== verification/Resilience.v ===== *)
(** * Byzantine resilience of the aggregation

    What the fault-tolerant combination of [prices.rs] promises: with more than
    four times as many submissions as faulty sources, no choice of the faulty
    prices moves the result outside the range of the honest ones, whichever
    method combines what is left; the bound is sharp for the mean. *)
From Stdlib Require Import Sorted.
From stdpp Require Import base list strings sorting.
From S2P Require Import Prelude Machine ReferencePricing CorePricing StorageMath Types Host Policy Aggregation.
#[local] Open Scope Z_scope.
#[local] Set Default Goal Selector "!".

(** ** Ranks in sorted lists *)

Lemma filter_id {A} (P : A → Prop) `{∀ x, Decision (P x)} (l : list A) :
  (∀ x, x ∈ l → P x) → filter P l = l.
Proof.
  induction l as [|x l IH]; intros H'; [done|].
  rewrite filter_cons_True by (apply H'; left). f_equal. apply IH. intros y Hy. apply H'. by right.
Qed.

(** How many values lie outside [[lo, hi]]. *)
Definition outside (lo hi : Z) (prices : list Z) : nat :=
  length (filter (λ x, ¬ (lo <= x <= hi)) prices).

Section Ranks.
Implicit Types (s : list Z) (lo hi x : Z).

Lemma outside_perm lo hi s s' : s ≡ₚ s' → outside lo hi s = outside lo hi s'.
Proof. intros H. unfold outside. by rewrite H. Qed.

Lemma outside_app lo hi s s' : outside lo hi (s ++ s') = (outside lo hi s + outside lo hi s')%nat.
Proof. unfold outside. by rewrite filter_app, length_app. Qed.

Lemma outside_all lo hi s : (∀ x, x ∈ s → ¬ (lo <= x <= hi)) → outside lo hi s = length s.
Proof. intros H. unfold outside. f_equal. by apply filter_id. Qed.

Lemma outside_filter lo hi (P : Z → Prop) `{∀ x, Decision (P x)} s :
  (outside lo hi (filter P s) <= outside lo hi s)%nat.
Proof.
  induction s as [|x s IH]; [done|]. unfold outside in *. rewrite !filter_cons.
  repeat (case_decide || rewrite filter_cons); simpl; lia.
Qed.

(** With at most [f] values outside the range, the [f] lowest and the [f]
    highest positions shield the rest. *)
Lemma shielded s lo hi f i x :
  StronglySorted Z.le s → (outside lo hi s <= f)%nat → s !! i = Some x →
  (f <= i)%nat → (i + f < length s)%nat → lo <= x <= hi.
Proof.
  intros Hs Hf Hi Hfi Hif. destruct (decide (lo <= x <= hi)) as [|Hx]; [done|exfalso].
  destruct (Z_lt_le_dec x lo) as [Hlt|Hge].
  - rewrite <- (take_drop (S i) s), outside_app, outside_all, length_take in Hf; [lia|].
    intros y (j & Hj & Hy)%elem_of_take_lookup.
    assert (y <= x) by (eapply sorted_lookup; [done| |done|done]; lia). lia.
  - rewrite <- (take_drop i s), outside_app, (outside_all lo hi (drop i s)), length_drop in Hf; [lia|].
    intros y (j & Hj & Hy)%elem_of_drop_lookup.
    assert (x <= y) by (eapply sorted_lookup; [done| |done|done]; lia). lia.
Qed.

Lemma filter_sorted (P : Z → Prop) `{∀ x, Decision (P x)} s :
  StronglySorted Z.le s → StronglySorted Z.le (filter P s).
Proof.
  induction 1 as [|x s Hs IH Hx]; [constructor|]. rewrite filter_cons. case_decide; [|done].
  constructor; [done|]. apply Forall_forall. intros y [_ Hy]%list_elem_of_filter.
  by eapply Forall_forall in Hx.
Qed.
End Ranks.

(** ** The filter and the trim *)

Section Bft.
Context `{BP : BuildProfile}.

(** The middle half always passes the interquartile filter. *)
Lemma bft_accepted_middle s :
  StronglySorted Z.le s → in_hull I128_MIN I128_MAX s → (4 <= length s)%nat →
  ∃ accepted below above middle,
    bft_accepted s = Some accepted ∧ accepted = below ++ middle ++ above ∧
    middle = take (length s * 3 / 4 - length s / 4) (drop (length s / 4) s) ∧
    ∃ P : Z → bool, accepted = filter (λ v, P v = true) s.
Proof.
  intros Hs Hh Hn. unfold bft_accepted.
  rewrite (proj2 (Nat.ltb_ge _ _)) by lia. set (n := length s) in *.
  assert (n / 4 < n)%nat by (apply Nat.div_lt; lia).
  assert (n / 4 <= n * 3 / 4 - 1)%nat as Hq.
  { pose proof (Nat.div_mod n 4 ltac:(lia)). pose proof (Nat.mod_upper_bound n 4 ltac:(lia)).
    pose proof (Nat.div_mod (n * 3) 4 ltac:(lia)). pose proof (Nat.mod_upper_bound (n * 3) 4 ltac:(lia)).
    lia. }
  assert (n * 3 / 4 < n)%nat by (apply Nat.Div0.div_lt_upper_bound; lia).
  destruct (lookup_lt_is_Some_2 s (n / 4)) as [q1 Hq1]; [lia|].
  destruct (lookup_lt_is_Some_2 s (n * 3 / 4 - 1)) as [q3 Hq3]; [lia|].
  rewrite Hq1, Hq3. obind.
  set (margin := Z.quot _ 2). set (lb := sat_i128 (q1 - margin)). set (ub := sat_i128 (q3 + margin)).
  assert (q1 <= q3) by exact (sorted_lookup _ _ _ _ _ Hs Hq Hq1 Hq3).
  assert (0 <= margin).
  { apply quot_nonneg; [|lia]. unfold sat_i128, clampZ, I128_MIN, I128_MAX. lia. }
  pose proof (Hh q1 (list_elem_of_lookup_2 _ _ _ Hq1)).
  pose proof (Hh q3 (list_elem_of_lookup_2 _ _ _ Hq3)).
  assert (lb <= q1) by (unfold lb, sat_i128, clampZ; lia).
  assert (q3 <= ub) by (unfold ub, sat_i128, clampZ; lia).
  eexists _, _, _, (take (n * 3 / 4 - n / 4) (drop (n / 4) s)). split; [done|].
  split; [|split; [done|by eexists (λ v, in_range lb ub v)]].
  rewrite <- (take_drop (n / 4) s) at 1. rewrite filter_app. f_equal.
  rewrite <- (take_drop (n * 3 / 4 - n / 4) (drop (n / 4) s)) at 1. rewrite filter_app. f_equal.
  apply filter_id. intros y (i & Hi & Hy)%elem_of_take_lookup.
  rewrite lookup_drop in Hy. apply in_range_true. split.
  - assert (q1 <= y) by (eapply sorted_lookup; [done| |done|done]; lia). lia.
  - assert (y <= q3) by (eapply sorted_lookup; [done| |done|done]; lia). lia.
Qed.

Lemma bft_trim_even (f : nat) s :
  (1 <= f)%nat → length s = (2 * f)%nat → Z.of_nat (length s) <= U32_MAX →
  bft_trim (Z.of_nat f) s = s.
Proof.
  intros Hf Hl Hmax. unfold bft_trim. rewrite Hl in *.
  replace (Z.of_nat (2 * f) / 2) with (Z.of_nat f) by (rewrite Nat2Z.inj_mul, Z.mul_comm, Z.div_mul; lia).
  rewrite Z.min_id, sat_u32_id by (unfold in_u32; lia).
  rewrite (proj2 (Z.ltb_ge (Z.of_nat f * 2) _)) by lia. by rewrite andb_false_r.
Qed.

Lemma bft_trim_odd (f : nat) s :
  (1 <= f)%nat → (2 * f < length s)%nat → Z.of_nat (length s) <= U32_MAX →
  bft_trim (Z.of_nat f) s = take (length s - f - f) (drop f s).
Proof.
  intros Hf Hl Hmax. unfold bft_trim.
  assert (Z.of_nat f <= Z.of_nat (length s) / 2) by (apply Z.div_le_lower_bound; lia).
  rewrite Z.min_l, sat_u32_id by (unfold in_u32; lia).
  rewrite !(proj2 (Z.ltb_lt _ _)) by lia. cbn [andb].
  rewrite Nat2Z.id. replace (Z.to_nat _) with (length s - f)%nat by lia.
  set (t := take _ _). assert (length t = length s - f - f)%nat as Ht.
  { unfold t. rewrite length_take, length_drop. lia. }
  destruct t; simpl in *; [lia|done].
Qed.

(** What the filter and the trim leave lies in the range of the honest prices. *)
Lemma bft_consensus lo hi (f : nat) s :
  StronglySorted Z.le s → in_hull I128_MIN I128_MAX s →
  (1 <= f)%nat → (4 * f + 1 <= length s)%nat → Z.of_nat (length s) <= U32_MAX →
  (outside lo hi s <= f)%nat →
  ∃ accepted, bft_accepted s = Some accepted ∧ accepted ≠ [] ∧
    bft_trim (Z.of_nat f) accepted ≠ [] ∧ in_hull lo hi (bft_trim (Z.of_nat f) accepted) ∧
    (length (bft_trim (Z.of_nat f) accepted) <= length s)%nat.
Proof.
  intros Hs Hh Hf Hn Hmax Ho.
  destruct (bft_accepted_middle s Hs Hh ltac:(lia)) as (acc & bel & abv & mid & E & Eacc & Emid & P & EP).
  set (n := length s) in *.
  assert (length acc <= n)%nat as Hle by (rewrite EP; apply length_filter).
  assert (n / 4 + n / 4 * 2 <= n * 3 / 4)%nat as Hq.
  { pose proof (Nat.div_mod n 4 ltac:(lia)). pose proof (Nat.mod_upper_bound n 4 ltac:(lia)).
    pose proof (Nat.div_mod (n * 3) 4 ltac:(lia)). pose proof (Nat.mod_upper_bound (n * 3) 4 ltac:(lia)).
    lia. }
  assert (n * 3 / 4 <= n)%nat as Hq' by (apply Nat.Div0.div_le_upper_bound; lia).
  assert (f <= n / 4)%nat as Hfq by (apply Nat.div_le_lower_bound; lia).
  assert (length mid = n * 3 / 4 - n / 4)%nat as Hmid.
  { rewrite Emid, length_take, length_drop. fold n. lia. }
  assert (length acc = length bel + length mid + length abv)%nat as Hacc.
  { rewrite Eacc, !length_app. lia. }
  exists acc. split; [done|]. split; [intros ->; simpl in *; lia|].
  destruct (decide (length acc <= 2 * f)%nat) as [Hsmall|Hbig].
  - assert (bel = [] ∧ abv = []) as [-> ->].
    { split; apply nil_length_inv; lia. }
    rewrite bft_trim_even by (simpl in *; lia). simpl in *. rewrite app_nil_r in *. subst acc.
    split; [intros E0; rewrite E0 in *; simpl in *; lia|]. split; [|lia].
    intros x Hx. rewrite Emid in Hx. apply elem_of_take_lookup in Hx as (i & Hi & Hx).
    rewrite lookup_drop in Hx. eapply (shielded s); [done|done|exact Hx|lia|].
    fold n. pose proof (Nat.div_mod (n * 3) 4 ltac:(lia)). lia.
  - rewrite bft_trim_odd by lia.
    set (t := take _ _). assert (length t = length acc - f - f)%nat as Ht.
    { unfold t. rewrite length_take, length_drop. lia. }
    split; [intros E0; rewrite E0 in *; simpl in *; lia|]. split; [|lia].
    intros x (i & Hi & Hx)%elem_of_take_lookup. rewrite lookup_drop in Hx.
    eapply (shielded acc); [|etrans; [|exact Ho]|exact Hx|lia|lia].
    + rewrite EP. by apply filter_sorted.
    + rewrite EP. apply outside_filter.
Qed.

(** C9. The fault-tolerant aggregation resists faulty sources.  With [f]
    tolerated faults, at least [4 * f + 1] submissions of which at most [f]
    lie outside the range [[lo, hi]] of the honest ones, whatever their values
    and order, each of the three methods returns a price in [[lo, hi]]: the
    interquartile filter and the trim together leave only shielded values. *)
Theorem bft_resilient lo hi (f : nat) method prices :
  (1 <= f)%nat → (4 * f + 1 <= length prices)%nat → Z.of_nat (length prices) <= U32_MAX →
  in_hull I128_MIN I128_MAX prices → 0 <= lo → hi <= I128_MAX →
  (outside lo hi prices <= f)%nat →
  ∃ v, aggregate_bft_prices prices (Z.of_nat f) method = Some v ∧ lo <= v <= hi.
Proof.
  intros Hf Hn Hmax Hh Hlo Hhi Ho. pose proof (sortZ_perm prices) as Hp.
  destruct (bft_consensus lo hi f (sortZ prices)) as (acc & E & Hacc & Ht & Hin & Hlen).
  { apply sortZ_sorted. }
  { by eapply in_hull_perm. }
  { done. }
  { by rewrite length_sortZ. }
  { by rewrite length_sortZ. }
  { by rewrite (outside_perm _ _ _ _ Hp). }
  rewrite length_sortZ in Hlen. unfold U32_MAX in *.
  unfold aggregate_bft_prices. destruct prices as [|p1 [|p2 prices]]; [simpl in Hn; lia..|].
  rewrite sort_prices_sortZ. obind. rewrite E. obind.
  destruct acc as [|a acc]; [done|]. set (c := bft_trim _ _) in *.
  case_if; [apply compute_mean_hull; (done || lia)|].
  case_if; [apply compute_trimmed_mean_hull; (done || lia)|].
  rewrite compute_median_ref. apply ref_median_hull; [done| |done].
  apply spread_ok_nonneg. intros x Hx. specialize (Hin x Hx). lia.
Qed.

(** With fewer submissions the promise fails: seven submissions and two
    tolerated faults, and the two faulty prices pull the mean below every
    honest one. *)
Example bft_needs_four_f :
  outside 100 1000 [1; 90; 100; 100; 100; 1000; 1000] = 2%nat ∧
  aggregate_bft_prices [1; 90; 100; 100; 100; 1000; 1000] 2 1 = Some 97.
Proof. by vm_compute. Qed.
End Bft.

Lemma bft_resilient_witness :
  (outside 100 110 [100; 105; 110; 104; 999999]%Z ≤ 1)%nat ∧
  ∃ v, @aggregate_bft_prices OverflowChecks [100; 105; 110; 104; 999999] 1 1 = Some v ∧
    100 <= v <= 110.
Proof.
  split; [by vm_compute|].
  apply (@bft_resilient OverflowChecks 100 110 1 1 [100; 105; 110; 104; 999999]).
  - lia.
  - simpl; lia.
  - vm_compute; discriminate.
  - intros x Hx. repeat (apply elem_of_cons in Hx as [->|Hx]; [by vm_compute|]).
    by apply not_elem_of_nil in Hx.
  - lia.
  - vm_compute; discriminate.
  - by vm_compute; lia.
Defined.
