(* ===== verification/RoundFrames.v ===== *)
(** * What a round of aggregation leaves alone

    The entries that [aggregate_asset_mode] never writes: its own inputs and
    what submissions, sources and administrators own. *)
From stdpp Require Import base list strings sorting.
From S2P Require Import Prelude Machine CorePricing StorageMath Types Host AuditLog Config Admin Assets.
From S2P Require Import Frames History Policy PriceBounds RiskTier FreshnessQuorum InfluenceCap FreshnessWeight.
From S2P Require Import Explanation Correlation OutlierFilter Deferral DqPipeline SourceLifecycle.
From S2P Require Import SourceComparison SourceGuards Blackout SanityLattice Scorecards ConfidenceBand.
From S2P Require Import GasMetering Disagreement Latency Provenance StorageTier ContributionQuality.
From S2P Require Import PriceCallback Corrections Aggregation.
#[local] Open Scope Z_scope.
#[local] Set Default Goal Selector "!".

(** ** What a round reads is not what it writes *)

(** The inputs a publication is judged by. *)
Definition round_input (k : DataKey) : Prop :=
  match k with
  | KeyAggregate _ | KeyPublicationGuards | KeyAssetBoundsTier _ | KeyBlackoutWindow _ => True
  | _ => False
  end.

(** What submissions, sources and administrators own. *)
Definition owned (k : DataKey) : Prop :=
  match k with
  | KeySubmission _ _ | KeySourceNonce _ | KeySourceBond _ | KeyTreasuryBalance | KeyLastSubmissionLedger _ _
  | KeySrcRegistry | KeySrcActive _ | KeySource _ | KeySourcePendingRemoval _ | KeySrcInactive _
  | KeySrcMissedHeartbeats _ | KeySrcHeartbeat _
  | KeyAssetRegistry | KeyAssetRegistered _ | KeySourceAssets _ | KeySourceVerification _
  | KeyAdmin | KeySourceGovConfig | KeySourceProposal _ | KeySourceProposalCount | KeyPriceOverride _
  | KeyFrozenPrice _ | KeySourceEnrollment _ | KeyLcRecord _ | KeyLcRevokedAddress _ | KeyLcIdentityOwner _
  | KeyLcRevokedIdentity _ | KeyCfgCommitWindow | KeyCfgRevealWindow | KeyStakeTokenContract => True
  | _ => False
  end.

Definition round_keeps (k : DataKey) : Prop := round_input k ∨ owned k.
Definition not_input (k : DataKey) : Prop := ¬ round_keeps k.
Definition not_aggregate (k : DataKey) : Prop := match k with KeyAggregate _ => False | _ => True end.

Create HintDb commits.

(** ** Commitments

    They live in the temporary storage, where a round only writes history. *)
Definition commit_kept (asset source : Address) (round : Z) (v : option PriceCommit) (w : World) : Prop :=
  temporary w (KeyPriceCommit asset source round) = v.

Lemma commit_kept_same {A} asset source round v (m : M A) :
  (∀ c w a w', m c w = Ok a w' →
     temporary w' (KeyPriceCommit asset source round) = temporary w (KeyPriceCommit asset source round)) →
  preserves (commit_kept asset source round v) m.
Proof. intros Hm c w a w' Hw H. unfold commit_kept in *. by rewrite (Hm _ _ _ _ H). Qed.

Ltac leaves_commit :=
  let H := fresh in
  apply commit_kept_same; intros ? ? ? ? H;
  first [ discriminate H | solve [by injection H as <- <-] | solve [by injection H as <-]
        | solve [injection H as <- <-; by apply temporary_put_ne] | solve [injection H as _ <-; by apply temporary_put_ne]
        | rewrite run_get_bump_or in H; by injection H as _ <-
        | rewrite run_get_touch in H; by injection H as _ <-
        | rewrite run_put in H; by injection H as _ <-
        | rewrite run_mark in H; by injection H as _ <-
        | rewrite run_flag_on in H; by injection H as _ <- | by ok_inv ].
Ltac deep_commit :=
  repeat first
    [ progress intros
    | match goal with
      | |- preserves _ (_ ≫= _) => apply preserves_bind
      | |- preserves _ (for_each _ _) => apply preserves_for_each
      | |- preserves _ (fold_m _ _ _) => apply preserves_fold_m
      | |- preserves _ (match ?x with _ => _ end) => destruct x
      | |- preserves _ _ => solve [eauto 2 with commits nocore]
      | |- preserves _ _ => leaves_commit
      | |- preserves _ ?m => let h := head_of m in progress unfold h
      end ].

Section Frame.
Context `{BP : BuildProfile} `{CR : Crypto} `{US : UnstableSort} `{XD : Xdr} `{CB : Callbacks}.

Lemma modifies_count_recent P asset now window sources :
  modifies P (Deferral.count_recent asset now window sources).
Proof. induction sources as [|s sources IH]; simpl; frame; done. Qed.
#[local] Hint Resolve modifies_count_recent : modifies.

Lemma gather_frame rc asset g src : modifies not_input (gather_one rc asset g src).
Proof. deep_frame. Qed.
Lemma prefilter_frame rc asset valid : modifies not_input (prefilter rc asset valid).
Proof. deep_frame. Qed.
Lemma should_publish_frame asset g : modifies not_input (Deferral.should_publish asset g).
Proof. deep_frame. Qed.
Lemma combine_frame rc asset p v wt : modifies not_input (combine rc asset p v wt).
Proof. deep_frame. Qed.
Lemma apply_frame asset p : modifies not_input (PriceBounds.apply asset p).
Proof. deep_frame. Qed.
Lemma check_frame asset p : modifies not_input (SanityLattice.check asset p).
Proof. deep_frame. Qed.
Lemma scorecards_frame s p : modifies not_input (Scorecards.record_round s p).
Proof. deep_frame. Qed.
Lemma band_frame rc asset ce d p : modifies not_input (publish_band rc asset ce d p).
Proof. deep_frame. Qed.
Lemma comparison_frame a b d e f : modifies not_input (SourceComparison.record a b d e f).
Proof. deep_frame. Qed.
Lemma modifies_head_before P asset ledger history :
  modifies P (Provenance.head_before_loop asset ledger history).
Proof. induction history as [|l history IH]; simpl; deep_frame; done. Qed.
#[local] Hint Resolve modifies_head_before : modifies.
Lemma quality_frame rc asset v p wt pr ts l : modifies not_input (record_quality rc asset v p wt pr ts l).
Proof. deep_frame. Qed.
Lemma prune_frame pruned asset cap m l n : modifies not_input (prune_loop pruned asset cap m l n).
Proof.
  revert n. induction l as [|x l IH]; intros n; simpl; frame; try apply IH. all: deep_frame.
Qed.
#[local] Hint Resolve prune_frame : modifies.
Lemma history_frame asset e l m : modifies not_input (record_history asset e l m).
Proof. deep_frame. Qed.
Lemma contribution_frame a b c d e f : modifies not_input (ContributionQuality.update_contribution_quality a b c d e f).
Proof. deep_frame. Qed.
Lemma modifies_callback P ct m a p t n : modifies P (PriceCallback.try_invoke_callback ct m a p t n).
Proof. by intros c w ? ? [= <- <-]. Qed.
#[local] Hint Resolve modifies_callback : modifies.
Lemma callbacks_frame a b c d : modifies not_input (PriceCallback.invoke_price_callbacks a b c d).
Proof. deep_frame. Qed.
Lemma mark_published_frame a : modifies not_input (Deferral.mark_published a).
Proof. deep_frame. Qed.
Lemma modifies_contract P : modifies P contract_address.
Proof. by intros c w ? ? [= <- <-]. Qed.
#[local] Hint Resolve modifies_contract : modifies.
Lemma original_frame a b : modifies not_input (Corrections.record_original a b).
Proof. deep_frame. Qed.
Definition not_owned (k : DataKey) : Prop := ¬ owned k.
Lemma suppresses_owned a : modifies not_owned (Blackout.suppresses a).
Proof. deep_frame. Qed.
Lemma suppresses_frame a : modifies not_aggregate (Blackout.suppresses a).
Proof. deep_frame. Qed.

#[local] Hint Resolve gather_frame prefilter_frame should_publish_frame combine_frame apply_frame
  check_frame scorecards_frame band_frame comparison_frame quality_frame history_frame
  contribution_frame callbacks_frame mark_published_frame original_frame : modifies.


Lemma modifies_not_input {A} (m : M A) : modifies not_input m → modifies not_owned m.
Proof. apply modifies_mono. unfold not_input, not_owned, round_keeps. tauto. Qed.

Ltac owned_frame :=
  repeat (frame; try (apply modifies_not_input; solve [eauto 2 with modifies nocore | deep_frame])).

Lemma publish_price_frame rc asset g prices weights raw price degraded ledger decimals me :
  modifies not_owned (publish_price rc asset g prices weights raw price degraded ledger decimals me).
Proof. unfold publish_price. owned_frame. Qed.

Lemma conclude_frame rc asset g ledger decimals me :
  modifies not_owned (conclude rc asset g ledger decimals me).
Proof.
  unfold conclude, guard_price. owned_frame; try apply suppresses_owned; try apply publish_price_frame.
  all: deep_frame.
Qed.

(** A whole round writes none of the entries it does not own. *)
Lemma round_frame asset ledger decimals recompute :
  modifies not_owned (aggregate_asset_mode asset ledger decimals recompute).
Proof. unfold aggregate_asset_mode. owned_frame. all: try apply conclude_frame. Qed.

Section Commits.
Context (ca cs : Address) (cr : Z) (cv : option PriceCommit).
#[local] Notation keeps m := (preserves (commit_kept ca cs cr cv) m).

Lemma commit_count_recent asset now window sources : keeps (Deferral.count_recent asset now window sources).
Proof. induction sources as [|s sources IH]; simpl; deep_commit; done. Qed.
Lemma commit_head_before asset ledger history : keeps (Provenance.head_before_loop asset ledger history).
Proof. induction history as [|l history IH]; simpl; deep_commit; done. Qed.
#[local] Hint Resolve commit_count_recent commit_head_before : commits.
Lemma commit_prune pruned asset cap m l n : keeps (prune_loop pruned asset cap m l n).
Proof. revert n. induction l as [|x l IH]; intros n; simpl; deep_commit; try apply IH. Qed.
Lemma commit_callback ct m a p t n : keeps (PriceCallback.try_invoke_callback ct m a p t n).
Proof. by intros c w ? ? Hw [= <- <-]. Qed.
#[local] Hint Resolve commit_prune commit_callback : commits.

Lemma round_commit asset ledger decimals recompute : keeps (aggregate_asset_mode asset ledger decimals recompute).
Proof. deep_commit. Qed.
End Commits.
End Frame.

#[export] Hint Resolve modifies_count_recent modifies_head_before prune_frame modifies_callback
  modifies_contract gather_frame prefilter_frame should_publish_frame combine_frame apply_frame
  check_frame scorecards_frame band_frame comparison_frame quality_frame history_frame
  contribution_frame callbacks_frame mark_published_frame original_frame : modifies.
