(* ===== verification/RoundSafety.v ===== *)
(** * What a round of aggregation can publish *)
From stdpp Require Import base list strings sorting.
From S2P Require Import Prelude Machine CorePricing StorageMath Types Host AuditLog Config Admin Assets.
From S2P Require Import Frames History Policy PriceBounds RiskTier FreshnessQuorum InfluenceCap FreshnessWeight.
From S2P Require Import Explanation Correlation OutlierFilter Deferral DqPipeline SourceLifecycle.
From S2P Require Import SourceComparison SourceGuards Blackout SanityLattice Scorecards ConfidenceBand.
From S2P Require Import GasMetering Disagreement Latency Provenance StorageTier ContributionQuality.
From S2P Require Import PriceCallback Corrections Aggregation RoundFrames.
#[local] Open Scope Z_scope.
#[local] Set Default Goal Selector "!".

Section Frame.
Context `{BP : BuildProfile} `{CR : Crypto} `{US : UnstableSort} `{XD : Xdr} `{CB : Callbacks}.

(** The flag that enables the guards stays on. *)
Lemma flags_count_recent bit asset now window sources :
  preserves (flag_kept bit) (Deferral.count_recent asset now window sources).
Proof. induction sources as [|s sources IH]; simpl; deep_flags; done. Qed.
#[local] Hint Resolve flags_count_recent : flags.
Lemma gather_flags bit rc asset g src : preserves (flag_kept bit) (gather_one rc asset g src).
Proof. deep_flags. Qed.
Lemma prefilter_flags bit rc asset valid : preserves (flag_kept bit) (prefilter rc asset valid).
Proof. deep_flags. Qed.
Lemma should_publish_flags bit asset g : preserves (flag_kept bit) (Deferral.should_publish asset g).
Proof. deep_flags. Qed.
Lemma combine_flags bit rc asset p v wt : preserves (flag_kept bit) (combine rc asset p v wt).
Proof. deep_flags. Qed.
Lemma suppresses_flags bit a : preserves (flag_kept bit) (Blackout.suppresses a).
Proof. deep_flags. Qed.
(** ** The guards *)

Definition guards_of (w : World) : PublicationGuards :=
  if Flags.is_on w Flags.PUBLICATION_GUARDS
  then default PriceBounds.no_guards (persistent w KeyPublicationGuards) else PriceBounds.no_guards.

Lemma run_guards c w : PriceBounds.guards c w = Ok (guards_of w) w.
Proof.
  unfold PriceBounds.guards, guards_of. rewrite run_bind, run_flag_on.
  by destruct (Flags.is_on w Flags.PUBLICATION_GUARDS).
Qed.

(** The prices that the bounds of a world let through. *)
Definition bounds_allow (w : World) (asset : Address) (price : Z) : Prop :=
  pg_any_bounds_configured (guards_of w) = true →
  ∀ t, persistent w (KeyAssetBoundsTier asset) = Some t → bt_soft_min t <= bt_soft_max t →
  bt_soft_min t <= price <= bt_soft_max t.

Lemma evaluate_tier_within t price :
  bt_soft_min t <= bt_soft_max t → bd_rejected (PriceBounds.evaluate_tier t price) = false →
  bt_soft_min t <= bd_price (PriceBounds.evaluate_tier t price) <= bt_soft_max t.
Proof.
  unfold PriceBounds.evaluate_tier. intros Hle.
  repeat (case_if; bool_hyps; [try done; simpl; lia|]). simpl. lia.
Qed.

Lemma apply_within asset raw c w p b w' :
  PriceBounds.apply asset raw c w = Ok (Some p, b) w' → bounds_allow w asset p.
Proof.
  unfold PriceBounds.apply, PriceBounds.evaluate. intros H Hg t Ht Hle.
  rewrite run_bind, run_guards in H. cbv beta iota in H. rewrite Hg in H. cbn [negb] in H.
  rewrite !run_bind, run_guards in H. cbv beta iota in H. rewrite Hg in H. cbn [negb] in H.
  unfold PriceBounds.get_bounds in H. rewrite run_bind, run_get_touch, Ht in H. cbv beta iota in H.
  rewrite run_ret in H. cbv beta iota in H. rewrite run_bind, run_sequence in H. cbv beta iota in H.
  pose proof (evaluate_tier_within t raw Hle) as Hd. set (d := PriceBounds.evaluate_tier t raw) in *.
  destruct (bd_rejected d).
  - rewrite run_bind, run_get in H. cbv beta iota zeta in H.
    apply bind_Ok in H as (? & ? & _ & H). apply bind_Ok in H as (? & ? & _ & H). by ok_inv.
  - apply bind_Ok in H as (? & ? & _ & H). apply bind_Ok in H as (? & ? & _ & H).
    injection H as <- _ _. auto.
Qed.

(** ** Publication *)

(** A call that writes no round input, run. *)
Lemma run_frame {A} (m : M A) c w a w' k :
  m c w = Ok a w' → modifies not_input m → round_input k → persistent w' k = persistent w k.
Proof. intros H Hm Hk. apply (Hm _ _ _ _ H). unfold not_input, round_keeps. tauto. Qed.

Lemma publish_price_sound rc asset g prices weights raw price degraded ledger decimals me c w u w' :
  publish_price rc asset g prices weights raw price degraded ledger decimals me c w = Ok u w' →
  persistent w' (KeyAggregate asset) =
    Some (next_aggregate (rc_recompute rc)
            (default (MkAggregatePrice 0 0 0 decimals false 0) (persistent w (KeyAggregate asset)))
            price (ga_latest_timestamp g) (Z.of_nat (length prices)) decimals) ∧
  ∀ a, a ≠ asset → persistent w' (KeyAggregate a) = persistent w (KeyAggregate a).
Proof.
  unfold publish_price. intros H. cbv zeta in H.
  apply bind_Ok in H as (sc & w1 & H1 & H). apply bind_Ok in H as (u2 & w2 & H2 & H).
  apply bind_Ok in H as (u3 & w3 & H3 & H).
  assert (∀ a, persistent w3 (KeyAggregate a) = persistent w (KeyAggregate a)) as Hpre.
  { intros a. unfold Scorecards.enabled in H1. rewrite run_bind, run_guards in H1.
    injection H1 as <- <-. etrans; [eapply (run_frame _ _ _ _ _ _ H3)|eapply (run_frame _ _ _ _ _ _ H2)];
      try done; frame. }
  rewrite run_bind, run_get_or in H. cbv beta iota in H. rewrite Hpre in H.
  rewrite run_bind, run_put in H. cbv beta iota in H.
  set (agg := next_aggregate _ _ _ _ _ _) in *.
  match type of H with ?m c ?w4 = Ok _ _ => assert (modifies not_input m) as Hm by (frame; deep_frame) end.
  split; [|intros a Ha]; (etrans; [eapply (run_frame _ _ _ _ _ _ H Hm); done|]); read_store; [done|].
  apply Hpre.
Qed.
(** ** The round *)

(** What [w'] still has of the inputs of [w]. *)
Definition publication_input (k : DataKey) : Prop :=
  match k with KeyAggregate _ | KeyPublicationGuards | KeyAssetBoundsTier _ => True | _ => False end.

Definition base (K : DataKey → Prop) (w w' : World) : Prop :=
  (∀ k, K k → persistent w' k = persistent w k) ∧ ∀ bit, flag_kept bit w → flag_kept bit w'.

Lemma base_refl K w : base K w w.
Proof. done. Qed.

Lemma base_trans K w w1 w2 : base K w w1 → base K w1 w2 → base K w w2.
Proof. intros [H1 F1] [H2 F2]. split; [intros k Hk; by rewrite H2, H1|auto]. Qed.

Lemma base_weaken w w' : base round_input w w' → base publication_input w w'.
Proof. intros [H F]. split; [|done]. intros k Hk. apply H. by destruct k. Qed.

Lemma run_base {A} (m : M A) c w a w' :
  m c w = Ok a w' → modifies not_input m → (∀ bit, preserves (flag_kept bit) m) → base round_input w w'.
Proof.
  intros H Hm Hf. split; [intros k Hk; by eapply run_frame|]. intros bit Hb. by eapply Hf.
Qed.

Lemma suppresses_base asset c w b w' :
  Blackout.suppresses asset c w = Ok b w' → base publication_input w w'.
Proof.
  intros H. split; [|intros bit Hb; by eapply suppresses_flags]. intros k Hk.
  assert (modifies (λ k, ¬ publication_input k) (Blackout.suppresses asset)) as Hm by deep_frame.
  apply (Hm _ _ _ _ H). tauto.
Qed.

Lemma guards_kept w w' :
  base publication_input w w' → pg_any_bounds_configured (guards_of w) = true →
  guards_of w' = guards_of w.
Proof.
  intros [Hk Hf] Hg. unfold guards_of in *.
  destruct (Flags.is_on w Flags.PUBLICATION_GUARDS) eqn:E; [|done].
  apply Hf in E. unfold flag_kept in E. by rewrite E, Hk.
Qed.

Lemma bounds_allow_base w w' asset price :
  base publication_input w w' → bounds_allow w' asset price → bounds_allow w asset price.
Proof.
  intros Hbase Hb Hg t Ht. apply Hb; [by rewrite (guards_kept w)|]. by rewrite (proj1 Hbase).
Qed.

(** What a new aggregate of [asset] owes to the world of the round. *)
Record sound_publication (w w' : World) (now : Z) (asset : Address) (policy : EffectivePolicy)
    (decimals : Z) (recompute : bool) (prev agg : AggregatePrice) : Prop := {
  sp_stored : persistent w' (KeyAggregate asset) = Some agg;
  sp_prev : prev = default (MkAggregatePrice 0 0 0 decimals false 0) (persistent w (KeyAggregate asset));
  sp_quorum : 1 <= ap_num_sources agg ∧ ep_min_sources policy <= ap_num_sources agg;
  sp_form : ap_decimals agg = decimals ∧ ap_is_override agg = false;
  sp_version : ap_version agg =
    if ap_price agg =? ap_price prev then ap_version prev else sat_u32 (ap_version prev + 1);
  sp_time : recompute = true → ap_timestamp prev <= ap_timestamp agg;
  sp_bounds : bounds_allow w asset (ap_price agg);
  sp_open : Flags.is_on w Flags.BLACKOUT = true → ∀ win,
    persistent w (KeyBlackoutWindow asset) = Some win → now < bw_start win ∨ bw_end win <= now
}.

Lemma suppresses_false asset c w w' win :
  Blackout.suppresses asset c w = Ok false w' → Flags.is_on w Flags.BLACKOUT = true →
  persistent w (KeyBlackoutWindow asset) = Some win →
  timestamp c < bw_start win ∨ bw_end win <= timestamp c.
Proof.
  unfold Blackout.suppresses, Blackout.get_window. intros H Hon Hw.
  rewrite !run_bind, run_flag_on, Hon in H. cbn [negb] in H. rewrite run_get, Hw in H.
  cbv beta iota in H. rewrite run_bind, run_timestamp in H. cbv beta iota in H.
  destruct (timestamp c <? bw_start win) eqn:E1; bool_hyps; [by left|].
  destruct (bw_end win <=? timestamp c) eqn:E2; bool_hyps; [by right|]. discriminate H.
Qed.

Lemma guard_price_sound rc asset raw c w price degraded w' w0 :
  guard_price rc asset raw c w = Ok (Some (price, degraded)) w' →
  base publication_input w0 w →
  (pg_any_bounds_configured (guards_of w0) = true → pg_any_bounds_configured (rc_guards rc) = true) →
  bounds_allow w0 asset price ∧ ∀ a, persistent w' (KeyAggregate a) = persistent w (KeyAggregate a).
Proof.
  unfold guard_price. intros H Hb Hg. split.
  - apply bind_Ok in H as ([published d] & w1 & H1 & H).
    destruct (pg_any_bounds_configured (guards_of w0)) eqn:Eg; [|intros Hc; congruence].
    rewrite Hg in H1 by done.
    destruct published as [p|]; [|by ok_inv]. apply apply_within in H1.
    apply (bounds_allow_base w0 w); [done|].
    replace price with p; [done|]. case_if; [|by injection H].
    apply bind_Ok in H as (v & w2 & _ & H). injection H as H _. by destruct (v_blocked v); simplify_eq.
  - intros a. eapply (run_frame (guard_price rc asset raw)); [exact H| |done]. unfold guard_price.
    frame.
Qed.

Lemma conclude_sound rc asset g ledger decimals me c w0 w u w' :
  conclude rc asset g ledger decimals me c w = Ok u w' → base round_input w0 w →
  (pg_any_bounds_configured (guards_of w0) = true → pg_any_bounds_configured (rc_guards rc) = true) →
  (∀ a, a ≠ asset → persistent w' (KeyAggregate a) = persistent w0 (KeyAggregate a)) ∧
  (persistent w' (KeyAggregate asset) = persistent w0 (KeyAggregate asset) ∨
   ∃ prev agg, sound_publication w0 w' (timestamp c) asset (rc_policy rc) decimals (rc_recompute rc) prev agg).
Proof.
  intros H Hb Hg. unfold conclude in H. cbv zeta in H.
  apply bind_Ok in H as ([[prices volumes] weights] & w1 & H1 & H).
  assert (base round_input w0 w1) as Hb1.
  { eapply base_trans; [done|]. eapply run_base; [exact H1|apply prefilter_frame|].
    intros bit. apply prefilter_flags. }
  apply bind_Ok in H as (blackout & w2 & H2 & H). apply suppresses_base in H2 as Hb2.
  apply base_weaken in Hb1 as Hb1'. pose proof (base_trans _ _ _ _ Hb1' Hb2) as Hb2'.
  apply bind_Ok in H as (publishable & w3 & H3 & H).
  assert (base publication_input w0 w3) as Hb3.
  { eapply base_trans; [exact Hb2'|]. apply base_weaken. destruct blackout; [injection H3 as _ <-; done|].
    eapply run_base; [exact H3|apply should_publish_frame|]. intros bit. apply should_publish_flags. }
  assert (∀ a, persistent w3 (KeyAggregate a) = persistent w0 (KeyAggregate a)) as Ha3
    by (intros a; by apply Hb3).
  destruct (publishable && _ && _) eqn:Eq.
  2: { unfold report_shortage in H. assert (persistent w' = persistent w3) as -> by (case_if; by ok_inv).
       split; [intros a _; apply Ha3|left; apply Ha3]. }
  apply andb_true_iff in Eq as [Eq Ene]. apply andb_true_iff in Eq as [Epub Eq]. bool_hyps.
  apply bind_Ok in H as (raw & w4 & H4 & H). apply bind_Ok in H as (guarded & w5 & H5 & H).
  assert (base publication_input w0 w4) as Hb4.
  { eapply base_trans; [exact Hb3|]. apply base_weaken. eapply run_base; [exact H4|apply combine_frame|].
    intros bit. apply combine_flags. }
  assert (∀ a, persistent w5 (KeyAggregate a) = persistent w0 (KeyAggregate a)) as Ha5.
  { intros a. destruct Hb4 as [Hk4 _]. rewrite <- Hk4 by done.
    eapply (run_frame _ _ _ _ _ _ H5); [|done]. unfold guard_price. frame. }
  destruct guarded as [[price degraded]|].
  2: { injection H as _ <-. split; [intros a _; apply Ha5|left; apply Ha5]. }
  destruct (guard_price_sound _ _ _ _ _ _ _ _ w0 H5 Hb4 Hg) as [Hbounds _].
  apply publish_price_sound in H as [Hp Ho]. rewrite Ha5 in Hp.
  split; [intros a Ha; rewrite Ho by done; apply Ha5|]. right. eexists _, _.
  split; [exact Hp|done|simpl; lia|done|done| |exact Hbounds|].
  - intros E. simpl. rewrite E. lia.
  - intros Hon win Hwin. destruct blackout; [injection H3 as <- _; done|].
    apply (suppresses_false asset c w1 w2); [done| |]; destruct Hb1 as [Hk1 Hf1]; [by apply Hf1|].
    by rewrite Hk1.
Qed.
Lemma fold_base rc asset sources : ∀ g c w g' w',
  fold_m (gather_one rc asset) g sources c w = Ok g' w' → base round_input w w'.
Proof.
  intros g c w g' w' H. eapply run_base; [exact H| |].
  - apply modifies_fold_m. intros g0 src. apply gather_frame.
  - intros bit. apply preserves_fold_m. intros g0 src. apply gather_flags.
Qed.

(** A call that changes none of the inputs, by its text. *)
Ltac base_step H :=
  match type of H with ?m ?c ?w = Ok _ ?w' =>
    let Hb := fresh "Hbase" in
    assert (base round_input w w') as Hb by (eapply run_base; [exact H|deep_frame|intros bit; deep_flags])
  end.

(** C1. What a round of aggregation can publish.  Whatever the stored
    submissions, configuration and filters are, a successful round of an
    asset leaves the aggregate of every other asset alone, and either leaves the
    asset's own aggregate alone too or replaces it by one that counts at least
    the quorum of the policy in force and at least one submission, is not marked
    as an override, carries the configured decimals, advances the version
    exactly when the price changed, never moves the timestamp back in a forced
    recomputation, lies within the asset's configured soft bounds, and is
    published outside every blackout window. *)
Theorem round_publishes_soundly asset ledger decimals recompute c w u w' :
  aggregate_asset_mode asset ledger decimals recompute c w = Ok u w' →
  ∃ policy,
    (policy ← Policy.effective_policy asset; RiskTier.apply_to_policy asset policy) c w = Ok policy w ∧
    (∀ a, a ≠ asset → persistent w' (KeyAggregate a) = persistent w (KeyAggregate a)) ∧
    (persistent w' (KeyAggregate asset) = persistent w (KeyAggregate asset) ∨
     ∃ prev agg, sound_publication w w' (timestamp c) asset policy decimals recompute prev agg).
Proof.
  intros H. unfold aggregate_asset_mode in H.
  apply bind_Ok in H as (me & w1 & H1 & H).
  assert (w1 = w) as ->.
  { unfold get_max_events_per_call in H1. rewrite run_get_flagged in H1. by injection H1. }
  apply bind_Ok in H as (policy0 & w1 & Hp0 & H).
  assert (w1 = w) as ->.
  { rewrite Policy.run_effective_policy in Hp0. by destruct (persistent w KeyCfgMinSources); simplify_eq. }
  apply bind_Ok in H as (policy & w1 & Hp & H).
  assert (readonly (RiskTier.apply_to_policy asset policy0)) as Hr.
  { unfold RiskTier.apply_to_policy, RiskTier.get_tier, Policy.get_asset_policy, Policy.read. read_only. }
  pose proof (Hr _ _ _ _ Hp) as ->.
  exists policy. split; [by rewrite run_bind, Hp0|].
  apply bind_Ok in H as (enforced & w1 & H2 & H). base_step H2.
  apply bind_Ok in H as (tiered & w2 & H3 & H).
  assert (base round_input w1 w2) as Hbase2 by (destruct enforced; [base_step H3; done|by injection H3 as _ <-]).
  assert (base round_input w w2) as Hb2 by (by eapply base_trans).
  destruct tiered; cbn [negb] in H.
  2: { ok_inv. split; [intros a _|left]; by apply Hb2. }
  apply bind_Ok in H as (selected & w3 & H4 & H). base_step H4.
  apply bind_Ok in H as (curve & w4 & H5 & H). base_step H5.
  apply bind_Ok in H as (min_interval & w5 & H6 & H). base_step H6.
  rewrite run_bind, run_guards in H. cbv beta iota in H.
  assert (base round_input w w5) as Hb5 by (repeat (eapply base_trans; [|eassumption]); apply base_refl).
  apply bind_Ok in H as (dq_round & w6 & H7 & H). base_step H7.
  apply bind_Ok in H as (probation & w7 & H8 & H). base_step H8.
  apply bind_Ok in H as (comparison & w8 & H9 & H). base_step H9.
  apply bind_Ok in H as ([window own] & w9 & H10 & H). base_step H10.
  cbv zeta in H. apply bind_Ok in H as (g & w10 & H11 & H). apply fold_base in H11 as Hb11.
  apply bind_Ok in H as (u2 & w11 & H12 & H).
  assert (base round_input w10 w11) as Hbase12 by (case_if; [base_step H12; done|by injection H12 as _ <-]).
  assert (base round_input w w11) as Hb by (repeat (eapply base_trans; [|eassumption]); apply base_refl).
  apply (conclude_sound _ _ _ _ _ _ _ w) in H; [exact H|exact Hb|]. simpl. intros Hg.
  rewrite (guards_kept w w5); [done|by apply base_weaken|done].
Qed.
End Frame.

(** A round of two sources, run. *)
Section Example_round.

Definition toy_xdr : Xdr := {|
  u32_to_xdr n := to_le_bytes 4 n; u64_to_xdr n := to_le_bytes 8 n; i128_to_xdr n := to_le_bytes 16 n |}.
Definition toy_sort : UnstableSort := merge_sort pair_le.
Definition toy_callbacks : Callbacks := λ _ _ _ _ _ _ _ _, true.

Definition toy_entry (source : Address) (price : Z) : PriceEntry :=
  MkPriceEntry price 900 source 7 1 900 None.

Definition toy_round_world : World :=
  put_persistent KeyCfgMinSources (Some 2)
    (put_persistent KeySrcRegistry (Some (MkOracleSources [1%N; 2%N] ∅ ∅))
      (put_persistent (KeySubmission 7%N 1%N) (Some (toy_entry 1%N 100))
        (put_persistent (KeySubmission 7%N 2%N) (Some (toy_entry 2%N 104)) empty_world))).

End Example_round.

#[local] Notation toy_round :=
  (@aggregate_asset_mode Wrapping toy_crypto toy_sort toy_xdr toy_callbacks 7%N 1 7 false).

Lemma round_publishes_soundly_witness :
  let c := MkCtx 1 1000 (λ _, true) 0%N in
  toy_round c toy_round_world = Ok tt (invoke toy_round c toy_round_world) ∧
  persistent (invoke toy_round c toy_round_world) (KeyAggregate 7%N) =
    Some (MkAggregatePrice 102 900 2 7 false 1) ∧
  ∃ policy, ep_min_sources policy = 2 ∧ ∃ prev agg,
    sound_publication toy_round_world (invoke toy_round c toy_round_world) 1000 7%N policy 7 false prev agg.
Proof.
  intros c. assert (toy_round c toy_round_world = Ok tt (invoke toy_round c toy_round_world)) as H.
  { apply run_succeeds. vm_compute. reflexivity. }
  assert (persistent (invoke toy_round c toy_round_world) (KeyAggregate 7%N) =
    Some (MkAggregatePrice 102 900 2 7 false 1)) as Hagg by (vm_compute; reflexivity).
  split; [exact H|]. split; [exact Hagg|].
  destruct (@round_publishes_soundly Wrapping toy_crypto toy_sort toy_xdr toy_callbacks
              7%N 1 7 false c toy_round_world tt _ H) as (policy & Hp & _ & Hs).
  exists policy. split.
  { assert (match (policy ← Policy.effective_policy 7%N; RiskTier.apply_to_policy 7%N policy) c toy_round_world
            with Ok p _ => ep_min_sources p | Err _ => 0 end = 2) as E by (vm_compute; reflexivity).
    rewrite Hp in E. exact E. }
  destruct Hs as [Hs|Hs]; [|exact Hs]. exfalso. rewrite Hagg in Hs. discriminate Hs.
Defined.
