(* ===== verification/ConsensusRounds.v ===== *)
(** * [consensus_rounds.rs]: multi-round price confirmation

    Sources vote in numbered rounds; a round that reaches its quorum is tallied
    once, and a price is confirmed when the latest consecutive tallied rounds
    agree.  The loop of [finalize_confirmation] runs at most [required_rounds]
    times, which is its fuel. *)
From stdpp Require Import base list strings.
From S2P Require Import Prelude Machine Types ReferencePricing StorageMath Host AuditLog Config Admin Assets Frames SourceGuards Resilience.
#[local] Open Scope Z_scope.
#[local] Set Default Goal Selector "!".

Definition EVENT_KIND_QUORUM : Z := 0.
Definition EVENT_KIND_CONFIRMED : Z := 1.
Definition EVENT_KIND_ABANDONED : Z := 2.
Definition MAX_QUORUM : Z := 64.
Definition MAX_AGREEMENT_BPS : Z := 10000.
Definition MAX_REQUIRED_ROUNDS : Z := 16.
Definition DEFAULT_ROUND_LEDGERS : Z := 5.
Definition DEFAULT_AGREEMENT_BPS : Z := 500.

Definition disabled : RoundConfig :=
  MkRoundConfig 1 1 DEFAULT_ROUND_LEDGERS DEFAULT_AGREEMENT_BPS.

Section Rounds.
Context `{BP : BuildProfile} `{CR : Crypto}.

(** ** Configuration *)

Definition set_round_config (asset : Address) (config : RoundConfig) : M unit :=
  admin ← get_admin;
  require_auth admin;;
  check_registered_asset asset;;
  panic_if ((rcf_required_rounds config =? 0) || (MAX_REQUIRED_ROUNDS <? rcf_required_rounds config))
    InvalidConfiguration;;
  panic_if ((rcf_quorum config =? 0) || (MAX_QUORUM <? rcf_quorum config)) InvalidConfiguration;;
  panic_if (rcf_round_ledgers config =? 0) InvalidConfiguration;;
  panic_if (MAX_AGREEMENT_BPS <? rcf_agreement_bps config) InvalidConfiguration;;
  put (KeyConsensusRoundConfig asset) config.

Definition get_round_config (asset : Address) : M RoundConfig :=
  get_bump_or (KeyConsensusRoundConfig asset) disabled.

(** ** Rounds *)

Definition current_round (asset : Address) : M Z := get_bump_or (KeyConsensusRoundCounter asset) 0.

Definition round_start (asset : Address) (round : Z) : M Z :=
  ledger ← ledger_sequence; get_or (KeyConsensusRoundStart asset round) ledger.

Definition start_round (asset : Address) : M Z :=
  check_registered_asset asset;;
  current ← current_round asset;
  next ← lift (u32 (current + 1));
  put (KeyConsensusRoundCounter asset) next;;
  ledger ← ledger_sequence;
  put (KeyConsensusRoundStart asset next) ledger;;
  mret next.

Fixpoint collect_votes (asset : Address) (round : Z) (sources : list Address) : M (list RoundVote) :=
  match sources with
  | [] => mret []
  | s :: sources =>
      vote ← get (KeyConsensusRoundVote asset round s);
      rest ← collect_votes asset round sources;
      mret (match vote with Some v => v :: rest | None => rest end)
  end.

Definition round_votes (asset : Address) (round : Z) : M (list RoundVote) :=
  sources ← get_or (KeyConsensusRoundVoteIndex asset round) [];
  collect_votes asset round sources.

Definition count_votes (asset : Address) (round : Z) : M Z :=
  votes ← round_votes asset round; mret (Z.of_nat (length votes)).

Definition get_round_status (asset : Address) : M RoundStatus :=
  config ← get_round_config asset;
  round ← current_round asset;
  started ← round_start asset round;
  votes ← count_votes asset round;
  now ← ledger_sequence;
  let deadline := sat_u32 (started + rcf_round_ledgers config) in
  mret (MkRoundStatus round started deadline votes (rcf_quorum config)
          ((votes <? rcf_quorum config) && (deadline <? now))).

Definition observation_id (asset : Address) (round : Z) (source : Address) (price timestamp : Z) : Bytes :=
  sha256 (address_to_xdr asset ++ to_le_bytes 4 round ++ address_to_xdr source
          ++ to_le_bytes 16 price ++ to_le_bytes 8 timestamp).

(** The median, the number of votes and the newest timestamp of the first
    [quorum] votes, once there are that many. *)
Definition try_tally (asset : Address) (round : Z) (config : RoundConfig) : M (option RoundTally) :=
  votes ← round_votes asset round;
  if Z.of_nat (length votes) <? rcf_quorum config then mret None
  else
    let counted := take (Z.to_nat (rcf_quorum config)) votes in
    let newest := foldl (λ t v, if t <? rv_timestamp v then rv_timestamp v else t) 0 counted in
    median ← lift (compute_median (map rv_price counted));
    ledger ← ledger_sequence;
    mret (Some (MkRoundTally median (rcf_quorum config) ledger newest counted)).

Definition bind_evidence (asset : Address) (round : Z) (votes : list RoundVote) : M unit :=
  for_each votes (λ v, put (KeyConsensusRoundEvidenceOwner asset (rv_observation_id v)) round).

Definition tally_round (asset : Address) (round : Z) (config : RoundConfig) : M unit :=
  existing ← get (KeyConsensusRoundTally asset round);
  match existing with
  | Some _ => mret tt
  | None =>
      tally ← try_tally asset round config;
      match tally with
      | None => mret tt
      | Some t =>
          put (KeyConsensusRoundTally asset round) t;;
          bind_evidence asset round (rtl_sources t);;
          publish (MkConsensusRoundEvent asset round EVENT_KIND_QUORUM (rtl_median t) (rtl_votes t))
      end
  end.

Definition submit_round_vote (source asset : Address) (round price timestamp : Z) : M unit :=
  require_auth source;;
  check_source source;;
  check_registered_asset asset;;
  config ← get_round_config asset;
  expected ← current_round asset;
  panic_if (negb (round =? expected)) RoundNotFound;;
  started ← round_start asset round;
  ledger ← ledger_sequence;
  panic_if (sat_u32 (started + rcf_round_ledgers config) <? ledger) RoundExpired;;
  panic_if (price <=? 0) InvalidPrice;;
  now ← ledger_timestamp;
  threshold ← get_timestamp_threshold;
  panic_if (sat_u64 (now + threshold) <? timestamp) InvalidTimestamp;;
  barred ← has (KeyConsensusRoundEquivocation asset round source);
  panic_if barred RoundEquivocation;;
  let id := observation_id asset round source price timestamp in
  let vote := MkRoundVote source price timestamp ledger id in
  existing ← get (KeyConsensusRoundVote asset round source);
  match existing with
  | Some existing =>
      if (rv_price existing =? price) && (rv_timestamp existing =? timestamp) then mret tt
      else panic_with_error RoundEquivocation
  | None =>
      owner ← get (KeyConsensusRoundEvidenceOwner asset id);
      match owner with
      | Some owner => panic_if (negb (owner =? round)) RoundEvidenceReplay
      | None => mret tt
      end;;
      put (KeyConsensusRoundVote asset round source) vote;;
      index ← get_or (KeyConsensusRoundVoteIndex asset round) [];
      put (KeyConsensusRoundVoteIndex asset round) (index ++ [source]);;
      tally_round asset round config
  end.

(** ** Confirmation *)

Definition bps_between (a b : Z) : option Z :=
  if a =? b then Some 0
  else if (a =? 0) || (b =? 0) then Some MAX_AGREEMENT_BPS
  else
    let '(lo, hi) := if a <? b then (a, b) else (b, a) in
    diff ← i128 (hi - lo);
    product ← u128 (as_u128 diff * 10000);
    scaled ← udiv product (as_u128 lo);
    Some (if MAX_AGREEMENT_BPS <? scaled then MAX_AGREEMENT_BPS else as_u32 scaled).

(** The loop of [finalize_confirmation]: the latest [n] rounds with a tally,
    newest first, until one has none. *)
Fixpoint collect_run (n : nat) (asset : Address) (r : Z) : M (list (Z * RoundTally)) :=
  match n with
  | O => mret []
  | S n =>
      if r =? 0 then mret []
      else
        tally ← get (KeyConsensusRoundTally asset r);
        match tally with
        | None => mret []
        | Some t => rest ← collect_run n asset (Z.max 0 (r - 1)); mret ((r, t) :: rest)
        end
  end.

(** The largest spread of adjacent medians; a failure beyond [agreement_bps]. *)
Fixpoint check_agreement (agreement_bps worst : Z) (medians : list Z) : M Z :=
  match medians with
  | a :: (b :: _) as rest =>
      spread ← lift (bps_between a b);
      panic_if (agreement_bps <? spread) NoData;;
      check_agreement agreement_bps (if worst <? spread then spread else worst) rest
  | _ => mret worst
  end.

Definition finalize_confirmation (asset : Address) : M ConfirmedPrice :=
  check_registered_asset asset;;
  config ← get_round_config asset;
  current ← current_round asset;
  run ← collect_run (Z.to_nat (rcf_required_rounds config)) asset current;
  let rounds := map fst run in
  let medians := map (λ r, rtl_median r.2) run in
  let newest := foldl (λ t r, if t <? rtl_timestamp r.2 then rtl_timestamp r.2 else t) 0 run in
  panic_if (Z.of_nat (length rounds) <? rcf_required_rounds config) NoData;;
  worst ← check_agreement (rcf_agreement_bps config) 0 medians;
  price ← lift (compute_median medians);
  decimals ← get_decimals;
  ledger ← ledger_sequence;
  let confirmed := MkConfirmedPrice price decimals rounds worst ledger newest in
  put (KeyConsensusConfirmedPrice asset) confirmed;;
  put (KeyConsensusConfirmedRounds asset) rounds;;
  publish (MkConsensusRoundEvent asset current EVENT_KIND_CONFIRMED price (rcf_required_rounds config));;
  mret confirmed.

(** ** Penalties and abandoned rounds *)

Definition report_equivocation (source asset : Address) (round : Z) : M unit :=
  check_registered_asset asset;;
  vote ← get (KeyConsensusRoundVote asset round source);
  match vote with
  | None => panic_with_error RoundNotFound
  | Some vote =>
      barred ← has (KeyConsensusRoundEquivocation asset round source);
      if barred : bool then mret tt
      else
        count ← get_or (KeyConsensusEquivocationCount asset source) 0;
        lifetime ← lift (u32 (count + 1));
        put (KeyConsensusEquivocationCount asset source) lifetime;;
        put (KeyConsensusRoundEquivocation asset round source) true;;
        publish (MkRoundEquivocationEvent asset source round (rv_price vote) 0 lifetime)
  end.

Definition get_equivocation_count (source asset : Address) : M Z :=
  get_bump_or (KeyConsensusEquivocationCount asset source) 0.

Definition is_barred_from_round (source asset : Address) (round : Z) : M bool :=
  get_bump_or (KeyConsensusRoundEquivocation asset round source) false.

Definition get_confirmed_price (asset : Address) : M (option ConfirmedPrice) :=
  get_touch (KeyConsensusConfirmedPrice asset).

Definition abandon_stalled_round (asset : Address) : M Z :=
  check_registered_asset asset;;
  config ← get_round_config asset;
  round ← current_round asset;
  started ← round_start asset round;
  ledger ← ledger_sequence;
  panic_if (ledger <=? sat_u32 (started + rcf_round_ledgers config)) RoundExpired;;
  next ← start_round asset;
  count ← get_or (KeyConsensusRoundAbandoned asset) 0;
  count ← lift (u32 (count + 1));
  put (KeyConsensusRoundAbandoned asset) count;;
  publish (MkConsensusRoundEvent asset round EVENT_KIND_ABANDONED 0 0);;
  mret next.

Definition get_round_tally (asset : Address) (round : Z) : M (option RoundTally) :=
  get_touch (KeyConsensusRoundTally asset round).

(** ** What the store holds of a round *)

Definition vote_at (w : World) (asset : Address) (round : Z) (s : Address) : option RoundVote :=
  persistent w (KeyConsensusRoundVote asset round s).
Definition index_at (w : World) (asset : Address) (round : Z) : list Address :=
  default [] (persistent w (KeyConsensusRoundVoteIndex asset round)).
Definition tally_at (w : World) (asset : Address) (round : Z) : option RoundTally :=
  persistent w (KeyConsensusRoundTally asset round).
Definition counter_of (w : World) (asset : Address) : Z :=
  default 0 (persistent w (KeyConsensusRoundCounter asset)).
Definition config_of (w : World) (asset : Address) : RoundConfig :=
  default disabled (persistent w (KeyConsensusRoundConfig asset)).

Definition config_ok (config : RoundConfig) : Prop :=
  1 <= rcf_required_rounds config <= MAX_REQUIRED_ROUNDS ∧ 1 <= rcf_quorum config <= MAX_QUORUM ∧
  1 <= rcf_round_ledgers config ∧ 0 <= rcf_agreement_bps config <= MAX_AGREEMENT_BPS.

(** A tally counts distinct stored votes and carries their median. *)
Definition tally_ok (w : World) (asset : Address) (round : Z) (t : RoundTally) : Prop :=
  rtl_sources t ≠ [] ∧ rtl_votes t = Z.of_nat (length (rtl_sources t)) ∧
  NoDup (map rv_source (rtl_sources t)) ∧
  (∀ v, v ∈ rtl_sources t → vote_at w asset round (rv_source v) = Some v) ∧
  compute_median (map rv_price (rtl_sources t)) = Some (rtl_median t).

Definition vote_ok (s : Address) (v : RoundVote) : Prop := rv_source v = s ∧ 0 < rv_price v <= I128_MAX.

Record round_ok (w : World) (asset : Address) (round : Z) : Prop := {
  ro_nodup : NoDup (index_at w asset round);
  ro_index : ∀ s, s ∈ index_at w asset round ↔ is_Some (vote_at w asset round s);
  ro_votes : ∀ s v, vote_at w asset round s = Some v → vote_ok s v;
  ro_tally : ∀ t, tally_at w asset round = Some t → tally_ok w asset round t;
  ro_known : is_Some (tally_at w asset round) → 0 <= round <= counter_of w asset
}.

Definition rounds_inv (w : World) : Prop := ∀ asset,
  config_ok (config_of w asset) ∧ 0 <= counter_of w asset ∧ ∀ round, round_ok w asset round.

Inductive RoundCall :=
  | CallSetConfig (asset : Address) (config : RoundConfig)
  | CallStart (asset : Address)
  | CallVote (source asset : Address) (round price timestamp : Z)
  | CallFinalize (asset : Address)
  | CallReport (source asset : Address) (round : Z)
  | CallAbandon (asset : Address).

Definition run_round_call (call : RoundCall) : M unit :=
  match call with
  | CallSetConfig asset config => set_round_config asset config
  | CallStart asset => start_round asset;; mret tt
  | CallVote source asset round price timestamp => submit_round_vote source asset round price timestamp
  | CallFinalize asset => finalize_confirmation asset;; mret tt
  | CallReport source asset round => report_equivocation source asset round
  | CallAbandon asset => abandon_stalled_round asset;; mret tt
  end.

(** The widths of the arguments. *)
Definition round_call_ok (call : RoundCall) : Prop :=
  match call with
  | CallSetConfig _ config =>
      0 <= rcf_required_rounds config ∧ 0 <= rcf_quorum config ∧ 0 <= rcf_round_ledgers config ∧
      0 <= rcf_agreement_bps config
  | CallVote _ _ _ price _ => price <= I128_MAX
  | _ => True
  end.

Definition round_key (k : DataKey) : Prop :=
  match k with
  | KeyConsensusRoundConfig _ | KeyConsensusRoundCounter _ | KeyConsensusRoundStart _ _
  | KeyConsensusRoundVote _ _ _ | KeyConsensusRoundVoteIndex _ _ | KeyConsensusRoundTally _ _
  | KeyConsensusRoundEvidenceOwner _ _ | KeyConsensusRoundEquivocation _ _ _
  | KeyConsensusEquivocationCount _ _ | KeyConsensusConfirmedPrice _ | KeyConsensusConfirmedRounds _
  | KeyConsensusRoundAbandoned _ => True
  | _ => False
  end.

(** Every history of the component, interleaved with any other calls of the
    contract, which leave its keys alone; with the number of its calls. *)
Inductive rounds_reach : World → nat → Prop :=
  | rr_start w : (∀ k, round_key k → persistent w k = None) → rounds_reach w 0
  | rr_call w n c call : rounds_reach w n → round_call_ok call →
      rounds_reach (invoke (run_round_call call) c w) (S n)
  | rr_other w w' n : rounds_reach w n → (∀ k, round_key k → persistent w' k = persistent w k) →
      rounds_reach w' n.
End Rounds.

(** ** The invariant *)

(** The keys that hold the ballots. *)
Definition ballot_key (k : DataKey) : Prop :=
  match k with
  | KeyConsensusRoundVote _ _ _ | KeyConsensusRoundVoteIndex _ _ | KeyConsensusRoundTally _ _ => True
  | _ => False
  end.
Definition not_ballot (k : DataKey) : Prop := ¬ ballot_key k.

Section Invariant.
Context `{BP : BuildProfile} `{CR : Crypto}.

Lemma run_collect_votes asset round ss c w :
  collect_votes asset round ss c w = Ok (omap (vote_at w asset round) ss) w.
Proof.
  induction ss as [|s ss IH]; [done|]. cbn [collect_votes].
  rewrite run_bind, run_get. cbv beta iota. rewrite run_bind, IH. cbv beta iota. rewrite run_ret.
  change (persistent w (KeyConsensusRoundVote asset round s)) with (vote_at w asset round s).
  cbn [omap list_omap]. by destruct (vote_at w asset round s).
Qed.

Lemma run_round_votes asset round c w :
  round_votes asset round c w = Ok (omap (vote_at w asset round) (index_at w asset round)) w.
Proof. unfold round_votes. rewrite run_bind, run_get_or. apply run_collect_votes. Qed.

Lemma modifies_round_votes P asset round : modifies P (round_votes asset round).
Proof.
  apply readonly_modifies. intros c w a w' H. rewrite run_round_votes in H. by injection H as _ ->.
Qed.
Hint Resolve modifies_round_votes : modifies.

(** The votes of an indexed round, in the order of the index. *)
Lemma indexed_votes w asset round l :
  (∀ s, s ∈ l → ∃ v, vote_at w asset round s = Some v ∧ rv_source v = s) →
  map rv_source (omap (vote_at w asset round) l) = l.
Proof.
  induction l as [|s l IH]; intros Hl; [done|]. simpl.
  destruct (Hl s) as (v & Hv & Hs); [left|]. rewrite Hv. simpl. rewrite Hs. f_equal.
  apply IH. intros s' Hs'. apply Hl. by right.
Qed.

Lemma round_ok_local w w' asset round :
  (∀ s, vote_at w' asset round s = vote_at w asset round s) →
  index_at w' asset round = index_at w asset round → tally_at w' asset round = tally_at w asset round →
  counter_of w asset <= counter_of w' asset → round_ok w asset round → round_ok w' asset round.
Proof.
  intros Ev Ei Et Hc [H1 H2 H3 H4 H5]. split.
  - by rewrite Ei.
  - intros s. by rewrite Ei, Ev.
  - intros s v. rewrite Ev. apply H3.
  - intros t. rewrite Et. intros (A & B & C & D & E)%H4. repeat split; try done.
    intros v Hv. rewrite Ev. by apply D.
  - rewrite Et. intros Ht%H5. lia.
Qed.

Lemma round_ok_frame w w' asset round :
  (∀ k, ballot_key k → persistent w' k = persistent w k) → counter_of w asset <= counter_of w' asset →
  round_ok w asset round → round_ok w' asset round.
Proof.
  intros Hk. apply round_ok_local.
  - intros s. exact (Hk (KeyConsensusRoundVote asset round s) I).
  - unfold index_at. by rewrite (Hk (KeyConsensusRoundVoteIndex asset round) I).
  - exact (Hk (KeyConsensusRoundTally asset round) I).
Qed.

Lemma rounds_inv_frame w w' :
  (∀ k, ballot_key k → persistent w' k = persistent w k) →
  (∀ asset, counter_of w asset <= counter_of w' asset) →
  (∀ asset, config_ok (config_of w' asset)) → rounds_inv w → rounds_inv w'.
Proof.
  intros Hk Hc Hcfg Hw asset. destruct (Hw asset) as (_ & Hc0 & Hr). split; [apply Hcfg|].
  split; [specialize (Hc asset); lia|]. intros round. eapply round_ok_frame; eauto.
Qed.

Lemma modifies_check_source P a : modifies P (check_source a).
Proof. apply readonly_modifies. unfold check_source, get_source_bond, get_source_deposited_bond. read_only. Qed.

Lemma ballots_set_config asset config : modifies not_ballot (set_round_config asset config).
Proof. deep_frame. Qed.
Lemma ballots_start asset : modifies not_ballot (start_round asset).
Proof. deep_frame. Qed.
Lemma ballots_report s asset round : modifies not_ballot (report_equivocation s asset round).
Proof. deep_frame. Qed.
Lemma ballots_abandon asset : modifies not_ballot (abandon_stalled_round asset).
Proof. deep_frame. Qed.

Lemma readonly_collect_run n : ∀ asset r, readonly (collect_run n asset r).
Proof. induction n as [|n IH]; intros asset r; cbn [collect_run]; read_only. Qed.
Lemma readonly_check_agreement agreement_bps medians : ∀ worst,
  readonly (check_agreement agreement_bps worst medians).
Proof.
  induction medians as [|a [|b medians] IH]; intros worst; cbn [check_agreement]; try solve [read_only].
  apply readonly_bind; [by intros c w ? ? H; destruct (bps_between a b); inversion H|]. intros spread.
  apply readonly_bind; [intros c w ? ? H; by ok_inv|]. intros _. apply IH.
Qed.
Lemma modifies_collect_run P n asset r : modifies P (collect_run n asset r).
Proof. apply readonly_modifies, readonly_collect_run. Qed.
Lemma modifies_check_agreement P agreement_bps medians worst :
  modifies P (check_agreement agreement_bps worst medians).
Proof. apply readonly_modifies, readonly_check_agreement. Qed.
Hint Resolve modifies_collect_run modifies_check_agreement modifies_check_source : modifies.

Lemma ballots_finalize asset : modifies not_ballot (finalize_confirmation asset).
Proof. deep_frame. Qed.
(** The round counter and the configuration change in their own calls only. *)
Definition not_control (k : DataKey) : Prop :=
  match k with KeyConsensusRoundConfig _ | KeyConsensusRoundCounter _ => False | _ => True end.

Lemma control_vote s asset round price t : modifies not_control (submit_round_vote s asset round price t).
Proof. deep_frame. Qed.
Lemma control_report s asset round : modifies not_control (report_equivocation s asset round).
Proof. deep_frame. Qed.
Lemma control_finalize asset : modifies not_control (finalize_confirmation asset).
Proof. deep_frame. Qed.

Lemma control_same {A} (m : M A) c w a w' :
  modifies not_control m → m c w = Ok a w' →
  (∀ asset, counter_of w' asset = counter_of w asset) ∧ ∀ asset, config_of w' asset = config_of w asset.
Proof.
  intros Hm H. split; intros asset; unfold counter_of, config_of.
  - by rewrite (Hm _ _ _ _ H (KeyConsensusRoundCounter asset) (λ f, f)).
  - by rewrite (Hm _ _ _ _ H (KeyConsensusRoundConfig asset) (λ f, f)).
Qed.

Lemma set_round_config_Ok asset config c w u w' :
  set_round_config asset config c w = Ok u w' →
  (1 <= rcf_required_rounds config <= MAX_REQUIRED_ROUNDS ∨ rcf_required_rounds config < 0) ∧
  (1 <= rcf_quorum config <= MAX_QUORUM ∨ rcf_quorum config < 0) ∧ rcf_round_ledgers config ≠ 0 ∧
  rcf_agreement_bps config <= MAX_AGREEMENT_BPS ∧
  (∀ a, counter_of w' a = counter_of w a) ∧ config_of w' asset = config ∧
  ∀ a, a ≠ asset → config_of w' a = config_of w a.
Proof.
  unfold set_round_config. intros H. ok_inv. same_world.
  match goal with H : check_registered_asset _ _ _ = _ |- _ => rename H into Hc end.
  split; [bool_hyps; lia|]. split; [bool_hyps; lia|]. split; [bool_hyps; lia|]. split; [bool_hyps; lia|].
  unfold counter_of, config_of. split; [|split]; [intros x| |intros x Hx]; read_store.
  - by rewrite (check_registered_frame _ _ _ _ _ _ Hc).
  - done.
  - by rewrite (check_registered_frame _ _ _ _ _ _ Hc).
Qed.

Lemma start_round_Ok asset c w next w' :
  start_round asset c w = Ok next w' → 0 <= counter_of w asset < U32_MAX →
  next = counter_of w asset + 1 ∧ counter_of w' asset = next ∧
  (∀ a, a ≠ asset → counter_of w' a = counter_of w a) ∧ ∀ a, config_of w' a = config_of w a.
Proof.
  unfold start_round, current_round. intros H Hb. ok_inv.
  match goal with H : check_registered_asset _ _ _ = _ |- _ => rename H into Hc end.
  rewrite (check_registered_frame _ _ _ _ _ (KeyConsensusRoundCounter asset) Hc) in * by done.
  change (default 0 (persistent w (KeyConsensusRoundCounter asset))) with (counter_of w asset) in *.
  match goal with H : u32 _ = Some _ |- _ => rewrite u32_ok in H by (unfold in_u32; lia); injection H as <- end.
  ok_inv. split; [done|].
  split; [unfold counter_of at 1; by read_store|].
  split; [intros x Hx; unfold counter_of|intros x; unfold config_of]; read_store.
  - by rewrite (check_registered_frame _ _ _ _ _ _ Hc).
  - by rewrite (check_registered_frame _ _ _ _ _ _ Hc).
Qed.
(** A round that is tallied is tallied from its distinct stored votes. *)
Lemma try_tally_ok asset round config c w o w' :
  try_tally asset round config c w = Ok o w' → 1 <= rcf_quorum config →
  NoDup (index_at w asset round) →
  (∀ s, s ∈ index_at w asset round → ∃ v, vote_at w asset round s = Some v ∧ rv_source v = s) →
  w' = w ∧ ∀ t, o = Some t → tally_ok w asset round t.
Proof.
  unfold try_tally. intros H Hq Hnd Hidx. rewrite run_bind, run_round_votes in H. cbv beta iota in H.
  pose proof (indexed_votes _ _ _ _ Hidx) as Hmap.
  set (votes := omap (vote_at w asset round) (index_at w asset round)) in *.
  case_if; ok_inv; (split; [done|]); intros t Ht; [done|]. injection Ht as <-.
  set (counted := take (Z.to_nat (rcf_quorum config)) votes) in *. bool_hyps.
  assert (length counted = Z.to_nat (rcf_quorum config)) as Hl by (unfold counted; rewrite length_take; lia).
  unfold tally_ok. cbn [rtl_sources rtl_votes rtl_median]. split; [by intros E; rewrite E in Hl; simpl in Hl; lia|].
  split; [lia|]. split.
  { unfold counted. rewrite <- firstn_map, Hmap. eapply sublist_NoDup; [exact Hnd|apply sublist_take]. }
  split; [|done]. intros v (i & Hv%list_elem_of_lookup_2 & _)%elem_of_take.
  apply list_elem_of_omap in Hv as (s & Hs & Hv).
  destruct (Hidx s Hs) as (v' & Hv' & <-). rewrite Hv' in Hv. by injection Hv as ->.
Qed.

Lemma modifies_bind_evidence asset round votes : modifies not_ballot (bind_evidence asset round votes).
Proof. deep_frame. Qed.

Lemma tally_round_Ok asset round config c w u w' :
  tally_round asset round config c w = Ok u w' → 1 <= rcf_quorum config →
  NoDup (index_at w asset round) →
  (∀ s, s ∈ index_at w asset round → ∃ v, vote_at w asset round s = Some v ∧ rv_source v = s) →
  (∀ k, ballot_key k → k ≠ KeyConsensusRoundTally asset round → persistent w' k = persistent w k) ∧
  (tally_at w' asset round = tally_at w asset round ∨
   tally_at w asset round = None ∧
   ∃ t, tally_at w' asset round = Some t ∧ tally_ok w asset round t).
Proof.
  unfold tally_round. intros H Hq Hnd Hidx. rewrite run_bind, run_get in H. cbv beta iota in H.
  change (persistent w (KeyConsensusRoundTally asset round)) with (tally_at w asset round) in H.
  destruct (tally_at w asset round) eqn:Et; [ok_inv; split; [done|by left]|].
  apply bind_Ok in H as (o & w1 & H1 & H).
  destruct (try_tally_ok _ _ _ _ _ _ _ H1 Hq Hnd Hidx) as [-> Ho].
  destruct o as [t|]; [|ok_inv; split; [done|by left]]. specialize (Ho t eq_refl). ok_inv.
  match goal with H : bind_evidence _ _ _ _ _ = Ok _ _ |- _ =>
    pose proof (modifies_bind_evidence _ _ _ _ _ _ _ H) as Hf end.
  split.
  - intros k Hk Hne. cbn [persistent add_event]. rewrite (Hf k) by (intros Hk'; by apply Hk').
    by rewrite persistent_put_ne.
  - right. split; [done|]. exists t. split; [|done]. unfold tally_at. cbn [persistent add_event].
    rewrite (Hf (KeyConsensusRoundTally asset round)) by (intros Hk'; by apply Hk'). by read_store.
Qed.
Definition ballots_same (w w' : World) : Prop := ∀ k, ballot_key k → persistent w' k = persistent w k.

(** A successful vote changes nothing, or adds one vote to the current round
    and tallies it at most once. *)
Definition vote_added (w w' : World) (asset : Address) (round : Z) (s : Address) : Prop :=
  vote_at w asset round s = None ∧ round = counter_of w asset ∧
  (∃ v, vote_ok s v ∧ vote_at w' asset round s = Some v) ∧
  index_at w' asset round = index_at w asset round ++ [s] ∧
  (tally_at w' asset round = tally_at w asset round ∨
   tally_at w asset round = None ∧ ∃ t, tally_at w' asset round = Some t ∧ tally_ok w' asset round t) ∧
  ∀ k, ballot_key k → k ≠ KeyConsensusRoundVote asset round s → k ≠ KeyConsensusRoundVoteIndex asset round →
    k ≠ KeyConsensusRoundTally asset round → persistent w' k = persistent w k.

(** The last part of a vote, once every guard has passed. *)
Lemma cast_vote asset round s v config c w u w' :
  (put (KeyConsensusRoundVote asset round s) v;;
   index ← get_or (KeyConsensusRoundVoteIndex asset round) [];
   put (KeyConsensusRoundVoteIndex asset round) (index ++ [s]);;
   tally_round asset round config) c w = Ok u w' →
  vote_at w asset round s = None → round = counter_of w asset → vote_ok s v →
  1 <= rcf_quorum config → round_ok w asset round → vote_added w w' asset round s.
Proof.
  intros H Hs Hround Hv Hq Hok. rewrite !run_bind, run_put in H. cbv beta iota in H.
  rewrite run_bind, run_get_or in H. cbv beta iota in H. rewrite run_bind, run_put in H. cbv beta iota in H.
  rewrite persistent_put_ne in H by done. fold (index_at w asset round) in H.
  set (w2 := put_persistent (KeyConsensusRoundVoteIndex asset round) _ _) in H.
  assert (index_at w2 asset round = index_at w asset round ++ [s]) as Ei by (unfold index_at at 1, w2; by read_store).
  assert (vote_at w2 asset round s = Some v) as Es by (unfold vote_at, w2; by read_store).
  assert (∀ x, x ≠ s → vote_at w2 asset round x = vote_at w asset round x) as Ex
    by (intros x Hx; unfold vote_at, w2; by read_store).
  assert (tally_at w2 asset round = tally_at w asset round) as Et by (unfold tally_at, w2; by read_store).
  destruct (tally_round_Ok asset round config c w2 u w' H Hq) as [Hf Ht].
  { rewrite Ei. apply NoDup_app. split; [apply Hok|]. split; [|apply NoDup_singleton].
    intros x Hx%(ro_index _ _ _ Hok) ->%list_elem_of_singleton. rewrite Hs in Hx. by destruct Hx. }
  { rewrite Ei. intros x [Hx| ->%list_elem_of_singleton]%elem_of_app; [|exists v; split; [done|apply Hv]].
    apply (ro_index _ _ _ Hok) in Hx as [vx Hvx]. exists vx. rewrite Ex by (intros ->; congruence).
    split; [done|]. by apply (ro_votes _ _ _ Hok). }
  unfold vote_added. do 2 (split; [done|]).
  split; [exists v; split; [done|]; unfold vote_at; rewrite Hf by done; exact Es|].
  split; [unfold index_at at 1; rewrite Hf by done; exact Ei|].
  split.
  - destruct Ht as [Ht|(Ht & t & Ht1 & Ht2)]; [left; congruence|right]. split; [congruence|].
    exists t. split; [done|]. destruct Ht2 as (A & B & C & D & E). repeat split; try done.
    intros x Hx%D. unfold vote_at. by rewrite Hf.
  - intros k Hk Hk1 Hk2 Hk3. rewrite (Hf k Hk Hk3). unfold w2. by rewrite !persistent_put_ne.
Qed.

Lemma submit_round_vote_Ok s asset round price t c w u w' :
  submit_round_vote s asset round price t c w = Ok u w' → rounds_inv w → price <= I128_MAX →
  authorized c s = true ∧ (ballots_same w w' ∨ vote_added w w' asset round s).
Proof.
  unfold submit_round_vote. intros H Hinv Hp.
  apply bind_Ok in H as ([] & w1 & H1 & H). apply require_auth_Ok in H1 as [-> Hauth]. split; [done|].
  apply bind_Ok in H as ([] & w1 & H1 & H). apply readonly_check_source in H1 as ->.
  apply bind_Ok in H as ([] & w1 & Hreg & H).
  assert (ballots_same w w1) as Hb
    by (intros k Hk; apply (check_registered_frame _ _ _ _ _ k Hreg); by intros ->).
  assert (rounds_inv w1 ∧ counter_of w1 asset = counter_of w asset) as [Hinv1 Hcnt].
  { assert (∀ a, counter_of w1 a = counter_of w a ∧ config_of w1 a = config_of w a) as Hcc.
    { intros a. unfold counter_of, config_of.
      by rewrite !(check_registered_frame _ _ _ _ _ _ Hreg) by done. }
    split; [|apply Hcc]. apply (rounds_inv_frame w); [done| | |done].
    - intros a. destruct (Hcc a). lia.
    - intros a. destruct (Hcc a) as [_ ->]. apply Hinv. }
  unfold get_round_config, current_round, round_start in H.
  rewrite run_bind, run_get_bump_or in H. cbv beta iota in H. fold (config_of w1 asset) in H.
  rewrite run_bind, run_get_bump_or in H. cbv beta iota in H. fold (counter_of w1 asset) in H.
  do 7 step H.
  apply bind_Ok in H as (threshold & w2 & H2 & H). apply (readonly_get_flagged Flags.TIMESTAMP_THRESHOLD KeyCfgTimestampThreshold) in H2 as ->.
  steps H. bool_hyps. subst round.
  assert (ballots_same w w' ∨ vote_added w1 w' asset (counter_of w1 asset) s) as [Hd|Hd]; [|by left|].
  - destruct (persistent w1 (KeyConsensusRoundVote asset _ s)) as [existing|] eqn:Hex.
    + destruct (_ && _) in H; [|steps H]. injection H as H. left. by subst w'.
    + right. step H. apply bind_Ok in H as (? & w3 & H3 & H).
      assert (w3 = w1) as ->.
      { destruct (persistent w1 (KeyConsensusRoundEvidenceOwner _ _)); [|by injection H3].
        by apply panic_if_Ok in H3 as [-> _]. }
      refine (cast_vote _ _ _ _ _ _ _ _ _ H Hex eq_refl _ _ _); [|apply Hinv1|apply Hinv1].
      split; [done|]. simpl. lia.
  - right. destruct Hd as (A & B & C & D & E & F). unfold vote_added.
    unfold vote_at, index_at, tally_at in *.
    rewrite (Hb (KeyConsensusRoundVote asset _ s) I) in A.
    rewrite (Hb (KeyConsensusRoundVoteIndex asset _) I) in D.
    rewrite (Hb (KeyConsensusRoundTally asset _) I) in E.
    repeat (split; [done || congruence|]). intros k Hk Hk1 Hk2 Hk3. rewrite <- (Hb k Hk). by apply F.
Qed.
Lemma vote_added_round_ok w w' asset s :
  vote_added w w' asset (counter_of w asset) s → counter_of w' asset = counter_of w asset →
  0 <= counter_of w asset → round_ok w asset (counter_of w asset) →
  round_ok w' asset (counter_of w asset).
Proof.
  intros (Hs & _ & (v & Hv & Hsv) & Ei & Ht & Hf) Hc Hc0 [H1 H2 H3 H4 H5].
  set (round := counter_of w asset) in *.
  assert (∀ x, x ≠ s → vote_at w' asset round x = vote_at w asset round x) as Ex.
  { intros x Hx. apply (Hf (KeyConsensusRoundVote asset round x)); [done| |done..]. by intros [=]. }
  split.
  - rewrite Ei. apply NoDup_app. split; [done|]. split; [|apply NoDup_singleton].
    intros x Hx%H2 ->%list_elem_of_singleton. rewrite Hs in Hx. by destruct Hx.
  - intros x. rewrite Ei, elem_of_app, list_elem_of_singleton.
    destruct (decide (x = s)) as [->|Hx]; [rewrite Hsv; naive_solver|]. rewrite Ex, H2 by done. naive_solver.
  - intros x vx. destruct (decide (x = s)) as [->|Hx]; [rewrite Hsv; by intros [= <-]|].
    rewrite Ex by done. apply H3.
  - intros t Htt. destruct Ht as [Ht|(Hn & t' & Ht' & Hok)]; [|congruence].
    rewrite Ht in Htt. destruct (H4 t Htt) as (A & B & C & D & E). repeat split; try done.
    intros x Hx%D. rewrite Ex; [done|]. intros Hxs. rewrite Hxs in Hx. congruence.
  - intros _. unfold round. lia.
Qed.

Lemma rounds_inv_vote s asset round price t c w u w' :
  submit_round_vote s asset round price t c w = Ok u w' → rounds_inv w → price <= I128_MAX →
  rounds_inv w'.
Proof.
  intros H Hinv Hp. destruct (control_same _ _ _ _ _ (control_vote _ _ _ _ _) H) as [Hc Hcfg].
  destruct (submit_round_vote_Ok _ _ _ _ _ _ _ _ _ H Hinv Hp) as [_ [Hb|Hv]].
  { apply (rounds_inv_frame w); [exact Hb| | |done].
    - intros a. rewrite Hc. lia.
    - intros a. rewrite Hcfg. apply Hinv. }
  intros a. rewrite Hcfg, Hc. destruct (Hinv a) as (Hok & H0 & Hr). split; [done|]. split; [done|].
  intros r. pose proof Hv as (Hs & -> & _ & _ & _ & Hf).
  destruct (decide (a = asset ∧ r = counter_of w asset)) as [[-> ->]|Hne].
  { apply (vote_added_round_ok w w' asset s); auto. }
  apply (round_ok_local w); [| | |rewrite Hc; lia|apply Hr].
  - intros x. apply (Hf (KeyConsensusRoundVote a r x)); [done|..]; intros [=]; naive_solver.
  - unfold index_at. rewrite (Hf (KeyConsensusRoundVoteIndex a r)); [done..| |done]; intros [=]; naive_solver.
  - apply (Hf (KeyConsensusRoundTally a r)); [done..|]; intros [=]; naive_solver.
Qed.

Lemma counter_invoke {A} (m : M A) c w a :
  modifies not_control m → counter_of (invoke m c w) a = counter_of w a.
Proof.
  intros Hm. unfold invoke. destruct (m c w) as [x w'|] eqn:E; [|done].
  by destruct (control_same _ _ _ _ _ Hm E).
Qed.

Lemma rounds_inv_control {A} (m : M A) c w x w' :
  m c w = Ok x w' → modifies not_ballot m → modifies not_control m → rounds_inv w → rounds_inv w'.
Proof.
  intros H Hb Hm Hinv. destruct (control_same _ _ _ _ _ Hm H) as [Hc Hcfg].
  apply (rounds_inv_frame w); [|intros a; rewrite Hc; lia|intros a; rewrite Hcfg; apply Hinv|done].
  intros k Hk. apply (Hb _ _ _ _ H). intros Hk'. by apply Hk'.
Qed.
Lemma start_round_inv asset c w next w' :
  start_round asset c w = Ok next w' → rounds_inv w → counter_of w asset < U32_MAX →
  rounds_inv w' ∧ ∀ a, counter_of w' a <= counter_of w a + 1.
Proof.
  intros H Hinv Hb. destruct (Hinv asset) as (_ & H0 & _).
  destruct (start_round_Ok _ _ _ _ _ H (conj H0 Hb)) as (-> & Hc & Hne & Hcfg).
  assert (∀ a, counter_of w a <= counter_of w' a <= counter_of w a + 1) as Hle.
  { intros a. destruct (decide (a = asset)) as [->|Ha]; [lia|]. rewrite Hne by done. lia. }
  split; [|intros a; apply Hle]. apply (rounds_inv_frame w); [|intros a; apply Hle| |done].
  - intros k Hk. apply (ballots_start _ _ _ _ _ H). intros Hk'. by apply Hk'.
  - intros a. rewrite Hcfg. apply Hinv.
Qed.

Lemma abandon_inv asset c w next w' :
  abandon_stalled_round asset c w = Ok next w' → rounds_inv w → counter_of w asset < U32_MAX →
  rounds_inv w' ∧ ∀ a, counter_of w' a <= counter_of w a + 1.
Proof.
  intros H Hinv Hb. pose proof (ballots_abandon _ _ _ _ _ H) as Hbal. revert H.
  unfold abandon_stalled_round, get_round_config, current_round, round_start. intros H.
  apply bind_Ok in H as ([] & w1 & Hreg & H). do 5 step H. step H.
  apply bind_Ok in H as (n & w2 & Hst & H).
  assert (∀ a, counter_of w1 a = counter_of w a ∧ config_of w1 a = config_of w a) as Hcc.
  { intros a. unfold counter_of, config_of. by rewrite !(check_registered_frame _ _ _ _ _ _ Hreg) by done. }
  assert (counter_of w2 asset = counter_of w asset + 1 ∧ (∀ a, a ≠ asset → counter_of w2 a = counter_of w a) ∧
          ∀ a, config_of w2 a = config_of w a) as (C1 & C2 & C3).
  { destruct (start_round_Ok _ _ _ _ _ Hst) as (-> & C1 & C2 & C3).
    - destruct (Hcc asset) as [-> _]. destruct (Hinv asset) as (_ & H0 & _). lia.
    - destruct (Hcc asset) as [E _]. split; [lia|]. split; intros a; [intros Ha|].
      + rewrite C2 by done. apply Hcc.
      + rewrite C3. apply Hcc. }
  do 4 step H.
  assert (∀ a, counter_of w' a = counter_of w2 a ∧ config_of w' a = config_of w2 a) as Hcc'.
  { intros a. injection H as <- <-. unfold counter_of, config_of. by read_store. }
  assert (∀ a, counter_of w a <= counter_of w' a <= counter_of w a + 1) as Hle.
  { intros a. destruct (Hcc' a) as [-> _]. destruct (decide (a = asset)) as [->|Ha]; [lia|].
    rewrite C2 by done. lia. }
  split; [|intros a; apply Hle]. apply (rounds_inv_frame w); [|intros a; apply Hle| |done].
  - intros k Hk. apply Hbal. intros Hk'. by apply Hk'.
  - intros a. destruct (Hcc' a) as [_ ->]. rewrite C3. apply Hinv.
Qed.

Lemma set_config_inv asset config c w u w' :
  set_round_config asset config c w = Ok u w' → rounds_inv w → round_call_ok (CallSetConfig asset config) →
  rounds_inv w' ∧ ∀ a, counter_of w' a = counter_of w a.
Proof.
  intros H Hinv Hok. destruct (set_round_config_Ok _ _ _ _ _ _ H) as (A & B & C & D & Hc & Hcfg & Hne).
  split; [|done]. simpl in Hok. apply (rounds_inv_frame w); [|intros a; rewrite Hc; lia| |done].
  - intros k Hk. apply (ballots_set_config _ _ _ _ _ _ H). intros Hk'. by apply Hk'.
  - intros a. destruct (decide (a = asset)) as [->|Ha]; [|rewrite Hne by done; apply Hinv].
    rewrite Hcfg. unfold config_ok. lia.
Qed.

Lemma rounds_step call c w u w' (n : nat) :
  run_round_call call c w = Ok u w' → rounds_inv w → (∀ a, counter_of w a <= Z.of_nat n) →
  Z.of_nat n < U32_MAX → round_call_ok call →
  rounds_inv w' ∧ ∀ a, counter_of w' a <= Z.of_nat (S n).
Proof.
  intros H Hinv Hn Hlt Hok.
  destruct call as [asset config|asset|s asset round price t|asset|s asset round|asset]; simpl in H.
  - destruct (set_config_inv _ _ _ _ _ _ H Hinv Hok) as [Hi Hc]. split; [done|].
    intros a. rewrite Hc. specialize (Hn a). lia.
  - apply bind_Ok in H as (next & w1 & H & He). injection He as <- <-.
    destruct (start_round_inv _ _ _ _ _ H Hinv) as [Hi Hc]; [specialize (Hn asset); lia|]. split; [done|].
    intros a. specialize (Hn a). specialize (Hc a). lia.
  - destruct (control_same _ _ _ _ _ (control_vote _ _ _ _ _) H) as [Hc _].
    split; [by eapply rounds_inv_vote|]. intros a. rewrite Hc. specialize (Hn a). lia.
  - apply bind_Ok in H as (v & w1 & H & He). injection He as <- <-.
    destruct (control_same _ _ _ _ _ (control_finalize _) H) as [Hc _].
    split; [eapply rounds_inv_control; eauto using ballots_finalize, control_finalize|].
    intros a. rewrite Hc. specialize (Hn a). lia.
  - destruct (control_same _ _ _ _ _ (control_report _ _ _) H) as [Hc _].
    split; [eapply rounds_inv_control; eauto using ballots_report, control_report|].
    intros a. rewrite Hc. specialize (Hn a). lia.
  - apply bind_Ok in H as (next & w1 & H & He). injection He as <- <-.
    destruct (abandon_inv _ _ _ _ _ H Hinv) as [Hi Hc]; [specialize (Hn asset); lia|]. split; [done|].
    intros a. specialize (Hn a). specialize (Hc a). lia.
Qed.

Lemma rounds_inv_empty w : (∀ k, round_key k → persistent w k = None) → rounds_inv w.
Proof.
  intros Hk asset. unfold config_of, counter_of.
  rewrite (Hk (KeyConsensusRoundConfig asset) I), (Hk (KeyConsensusRoundCounter asset) I). simpl.
  split; [unfold config_ok; cbn; unfold MAX_REQUIRED_ROUNDS, MAX_QUORUM, DEFAULT_ROUND_LEDGERS,
            DEFAULT_AGREEMENT_BPS, MAX_AGREEMENT_BPS; lia|]. split; [done|]. intros round.
  assert (∀ s, vote_at w asset round s = None) as Ev
    by (intros s; exact (Hk (KeyConsensusRoundVote asset round s) I)).
  assert (tally_at w asset round = None) as Et by exact (Hk (KeyConsensusRoundTally asset round) I).
  assert (index_at w asset round = []) as Ei
    by (unfold index_at; by rewrite (Hk (KeyConsensusRoundVoteIndex asset round) I)).
  split.
  - rewrite Ei. constructor.
  - intros s. rewrite Ei, Ev. split; [by intros ?%elem_of_nil|]. by intros [].
  - intros s v. by rewrite Ev.
  - intros t. by rewrite Et.
  - rewrite Et. by intros [].
Qed.

Lemma rounds_reach_inv w n :
  rounds_reach w n → Z.of_nat n <= U32_MAX → rounds_inv w ∧ ∀ a, counter_of w a <= Z.of_nat n.
Proof.
  induction 1 as [w Hk|w n c call _ IH Hok|w w' n _ IH Hk]; intros Hn.
  - split; [by apply rounds_inv_empty|]. intros a. unfold counter_of.
    by rewrite (Hk (KeyConsensusRoundCounter a) I).
  - destruct IH as [Hinv Hc]; [lia|]. unfold invoke.
    destruct (run_round_call call c w) as [u w'|e] eqn:E; [|split; [done|]; intros a; specialize (Hc a); lia].
    eapply rounds_step; eauto; lia.
  - destruct IH as [Hinv Hc]; [done|].
    assert (∀ a, counter_of w' a = counter_of w a ∧ config_of w' a = config_of w a) as Hcc.
    { intros a. unfold counter_of, config_of.
      by rewrite (Hk (KeyConsensusRoundCounter a) I), (Hk (KeyConsensusRoundConfig a) I). }
    split; [|intros a; destruct (Hcc a) as [-> _]; apply Hc].
    apply (rounds_inv_frame w); [|intros a; destruct (Hcc a) as [-> _]; lia| |done].
    + intros k Hb. apply Hk. by destruct k.
    + intros a. destruct (Hcc a) as [_ ->]. apply Hinv.
Qed.
End Invariant.

(** ** What a confirmation rests on *)

Lemma list_filter_none {A} (P : A → Prop) `{∀ x, Decision (P x)} (l : list A) :
  (∀ x, x ∈ l → ¬ P x) → filter P l = [].
Proof.
  induction l as [|x l IH]; intros Hl; [done|]. rewrite filter_cons_False by (apply Hl; left).
  apply IH. intros y Hy. apply Hl. by right.
Qed.

(** A strict minority of values outside a range cannot move the median out. *)
Lemma minority_median `{BP : BuildProfile} lo hi prices :
  in_hull 0 I128_MAX prices → (2 * outside lo hi prices < length prices)%nat →
  ∀ m, compute_median prices = Some m → lo <= m <= hi.
Proof.
  intros Hh Hout m Hm.
  assert (prices ≠ []) as Hne by (intros ->; simpl in Hout; lia).
  destruct (ref_median_central prices Hne (spread_ok_nonneg _ Hh)) as (m' & a & b & Hm' & Hab & Ha & Hb).
  rewrite compute_median_ref, Hm' in Hm. injection Hm as ->.
  set (n := length prices) in *. set (f := outside lo hi prices) in *.
  pose proof (Nat.div_mod_eq n 2). pose proof (Nat.mod_upper_bound n 2 ltac:(lia)).
  pose proof (Nat.div_mod_eq (n - 1) 2). pose proof (Nat.mod_upper_bound (n - 1) 2 ltac:(lia)).
  assert (outside lo hi (sortZ prices) <= f)%nat as Ho
    by (unfold f; rewrite (outside_perm lo hi _ prices (sortZ_perm prices)); lia).
  assert (lo <= a <= hi).
  { apply (shielded (sortZ prices) lo hi f ((n - 1) / 2)); [apply sortZ_sorted|exact Ho|exact Ha|lia|].
    rewrite length_sortZ. fold n. lia. }
  assert (lo <= b <= hi).
  { apply (shielded (sortZ prices) lo hi f (n / 2)); [apply sortZ_sorted|exact Ho|exact Hb|lia|].
    rewrite length_sortZ. fold n. lia. }
  lia.
Qed.

Lemma bps_between_agree `{BP : BuildProfile} limit a b s :
  bps_between a b = Some s → s <= limit → limit < MAX_AGREEMENT_BPS → 0 < a → 0 < b →
  Z.max a b * 10000 <= I128_MAX →
  Z.abs (a - b) * 10000 < (limit + 1) * Z.min a b.
Proof.
  unfold bps_between, MAX_AGREEMENT_BPS. intros Hs Hl Hlim Ha Hb Hmax.
  destruct (a =? b) eqn:E; bool_hyps; [subst; rewrite Z.sub_diag; injection Hs as <-; lia|].
  rewrite (proj2 (Z.eqb_neq a 0)), (proj2 (Z.eqb_neq b 0)) in Hs by lia. cbn [orb] in Hs.
  assert (∀ lo hi, lo = Z.min a b → hi = Z.max a b →
    (diff ← i128 (hi - lo); product ← u128 (as_u128 diff * 10000); scaled ← udiv product (as_u128 lo);
     Some (if 10000 <? scaled then 10000 else as_u32 scaled)) = Some s → (hi - lo) * 10000 < (limit + 1) * lo) as Hgo.
  { intros lo hi -> -> Hr. unfold I128_MAX in Hmax.
    rewrite i128_ok in Hr by (unfold in_i128, I128_MIN, I128_MAX; lia). cbn [mbind option_bind] in Hr.
    unfold as_u128 in Hr. rewrite !wrap_id in Hr by lia.
    rewrite u128_ok in Hr by (unfold in_u128, U128_MAX; lia). cbn [mbind option_bind] in Hr.
    unfold udiv in Hr. rewrite (proj2 (Z.eqb_neq _ 0)) in Hr by lia. cbn [mbind option_bind] in Hr.
    destruct (10000 <? _) eqn:Ed; bool_hyps; [injection Hr as <-; lia|]. injection Hr as Hr.
    unfold as_u32 in Hr. rewrite wrap_id in Hr
      by (split; [apply Z.div_pos; lia|change (2 ^ 32) with 4294967296; lia]).
    subst s. pose proof (Z.mul_succ_div_gt ((Z.max a b - Z.min a b) * 10000) (Z.min a b)). nia. }
  destruct (a <? b) eqn:Elt; bool_hyps.
  - specialize (Hgo a b ltac:(lia) ltac:(lia) Hs). lia.
  - specialize (Hgo b a ltac:(lia) ltac:(lia) Hs). lia.
Qed.

Section Confirmation.
Context `{BP : BuildProfile} `{CR : Crypto}.

Lemma collect_run_Ok n : ∀ asset r c w run w',
  collect_run n asset r c w = Ok run w' → 0 <= r →
  w' = w ∧ ∀ i q, run !! i = Some q → q.1 = r - Z.of_nat i ∧ tally_at w asset q.1 = Some q.2.
Proof.
  induction n as [|n IH]; intros asset r c w run w' H Hr; cbn [collect_run] in H; [ok_inv; done|].
  destruct (r =? 0) eqn:E; bool_hyps; [ok_inv; done|]. step H.
  destruct (persistent w (KeyConsensusRoundTally asset r)) as [t|] eqn:Et; [|ok_inv; done].
  apply bind_Ok in H as (rest & w1 & H1 & H). destruct (IH _ _ _ _ _ _ H1) as [-> Hrest]; [lia|].
  ok_inv. split; [done|]. intros [|i] q Hq; simpl in Hq.
  - injection Hq as <-. simpl. split; [lia|done].
  - destruct (Hrest i q Hq) as [E1 E2]. split; [lia|done].
Qed.

Lemma check_agreement_Ok agreement_bps medians : ∀ worst c w v w',
  check_agreement agreement_bps worst medians c w = Ok v w' →
  w' = w ∧ ∀ i a b, medians !! i = Some a → medians !! S i = Some b →
    ∃ s, bps_between a b = Some s ∧ s <= agreement_bps.
Proof.
  induction medians as [|a [|b medians] IH]; intros worst c w v w' H; cbn [check_agreement] in H.
  - ok_inv. split; [done|]. by intros [].
  - ok_inv. split; [done|]. intros [|i] x y Hx Hy; simpl in Hx, Hy; [done|by destruct i].
  - step H. step H. apply IH in H as [-> H]. split; [done|]. bool_hyps.
    intros [|i] x y Hx Hy; simpl in Hx; [|by apply (H i)]. injection Hx as ->. injection Hy as ->. eauto.
Qed.

(** What a confirmation is made of. *)
Lemma finalize_Ok asset c w cp w' :
  finalize_confirmation asset c w = Ok cp w' → 0 <= counter_of w asset →
  ∃ run : list (Z * RoundTally),
    rcf_required_rounds (config_of w asset) <= Z.of_nat (length run) ∧ cfp_rounds cp = map fst run ∧
    (∀ i q, run !! i = Some q → q.1 = counter_of w asset - Z.of_nat i ∧ tally_at w asset q.1 = Some q.2) ∧
    (∀ i a b, run !! i = Some a → run !! S i = Some b →
       ∃ s, bps_between (rtl_median a.2) (rtl_median b.2) = Some s ∧
            s <= rcf_agreement_bps (config_of w asset)) ∧
    compute_median (map (λ q, rtl_median q.2) run) = Some (cfp_price cp).
Proof.
  unfold finalize_confirmation, get_round_config, current_round, get_decimals. intros H H0.
  apply bind_Ok in H as ([] & w1 & Hreg & H).
  assert (∀ k, (∀ a, k ≠ KeyAssetRegistryIndex a) → persistent w1 k = persistent w k) as Hk.
  { intros k Hne. by apply (check_registered_frame _ _ _ _ _ _ Hreg). }
  do 2 step H. rewrite (Hk (KeyConsensusRoundConfig asset)), (Hk (KeyConsensusRoundCounter asset)) in H by done.
  fold (config_of w asset) (counter_of w asset) in H.
  apply bind_Ok in H as (run & w2 & Hrun & H). apply collect_run_Ok in Hrun as [-> Hrun]; [|done].
  step H. apply bind_Ok in H as (worst & w2 & Hag & H). apply check_agreement_Ok in Hag as [-> Hag].
  do 6 step H. rewrite run_ret in H. injection H as <- <-. rewrite length_map in *. bool_hyps.
  exists run. cbn [cfp_rounds cfp_price]. split; [done|]. split; [done|]. split.
  { intros i q Hq. destruct (Hrun i q Hq) as [E1 E2]. split; [done|]. rewrite <- E2.
    symmetry. by apply (Hk (KeyConsensusRoundTally asset _)). }
  split; [|done]. intros i a b Ha Hb. apply (Hag i).
  - by rewrite list_lookup_fmap, Ha.
  - by rewrite list_lookup_fmap, Hb.
Qed.

Lemma tally_prices w asset round t :
  round_ok w asset round → tally_ok w asset round t →
  ∀ p, p ∈ map rv_price (rtl_sources t) → 1 <= p <= I128_MAX.
Proof.
  intros Hr (_ & _ & _ & Hv & _) p (v & -> & Hin)%list_elem_of_fmap.
  destruct (ro_votes _ _ _ Hr _ _ (Hv v Hin)) as [_ Hp]. lia.
Qed.

Lemma tally_median_positive w asset round t :
  round_ok w asset round → tally_ok w asset round t → 1 <= rtl_median t <= I128_MAX.
Proof.
  intros Hr Ht. pose proof (tally_prices _ _ _ _ Hr Ht) as Hp. destruct Ht as (Hne & _ & _ & _ & Hm).
  apply (minority_median 1 I128_MAX (map rv_price (rtl_sources t))); [|
    |done].
  - intros p Hin%Hp. lia.
  - assert (outside 1 I128_MAX (map rv_price (rtl_sources t)) = 0)%nat as ->.
    { unfold outside. rewrite list_filter_none; [done|]. intros p Hin%Hp. lia. }
    rewrite length_map. destruct (rtl_sources t); [done|simpl; lia].
Qed.
End Confirmation.

(** ** A run of the component *)

Definition toy_rounds_ctx : Ctx := MkCtx 5 1000 (λ _, true) 0%N.
Definition toy_rounds_world : World :=
  put_persistent (KeyAssetRegistryIndex 7%N) (Some true)
    (put_persistent (KeySrcActive 1%N) (Some true) empty_world).
Definition toy_call (call : RoundCall) (w : World) : World :=
  invoke (@run_round_call Wrapping toy_crypto call) toy_rounds_ctx w.
Definition toy_voted_world : World :=
  toy_call (CallVote 1%N 7%N 1 100 900) (toy_call (CallStart 7%N) toy_rounds_world).

Lemma toy_voted_reach : @rounds_reach Wrapping toy_crypto toy_voted_world 2.
Proof.
  apply rr_call; [apply rr_call; [apply rr_start|exact I]|].
  - intros k Hk. by destruct k.
  - cbn. unfold I128_MAX. lia.
Qed.

(** ** The properties *)

(** C30. What a confirmation proves.  After any history of the component, a
    successful [finalize_confirmation] rests on the last [required_rounds]
    rounds without a gap.  Each was tallied from at least one and at most
    [quorum] stored votes of distinct sources and holds their median; adjacent
    medians differ by at most the agreement bound; and the confirmed price lies
    in every interval that contains a strict majority of the counted votes of
    each of these rounds, however far the other votes are. *)
Theorem confirmation_sound `{BP : BuildProfile} `{CR : Crypto} w n asset c cp w' :
  rounds_reach w n → Z.of_nat n <= U32_MAX → finalize_confirmation asset c w = Ok cp w' →
  ∃ run : list (Z * RoundTally),
    run ≠ [] ∧ rcf_required_rounds (config_of w asset) <= Z.of_nat (length run) ∧
    cfp_rounds cp = map fst run ∧
    (∀ i q, run !! i = Some q →
       q.1 = counter_of w asset - Z.of_nat i ∧ tally_at w asset q.1 = Some q.2 ∧ tally_ok w asset q.1 q.2) ∧
    (∀ i a b, run !! i = Some a → run !! S i = Some b →
       rcf_agreement_bps (config_of w asset) < MAX_AGREEMENT_BPS →
       Z.max (rtl_median a.2) (rtl_median b.2) * 10000 <= I128_MAX →
       Z.abs (rtl_median a.2 - rtl_median b.2) * 10000 <
         (rcf_agreement_bps (config_of w asset) + 1) * Z.min (rtl_median a.2) (rtl_median b.2)) ∧
    ∀ lo hi,
      (∀ q, q ∈ run → (2 * outside lo hi (map rv_price (rtl_sources q.2)) < length (rtl_sources q.2))%nat) →
      lo <= cfp_price cp <= hi.
Proof.
  intros Hw Hn Hfin. destruct (rounds_reach_inv w n Hw Hn) as [Hinv _].
  destruct (Hinv asset) as (Hcfg & H0 & Hr).
  destruct (finalize_Ok _ _ _ _ _ Hfin H0) as (run & Hlen & Hrounds & Hrun & Hag & Hm).
  assert (∀ q, q ∈ run → tally_ok w asset q.1 q.2) as Htally.
  { intros q (i & Hi)%list_elem_of_lookup. destruct (Hrun i q Hi) as [_ Ht]. by apply (ro_tally _ _ _ (Hr q.1)). }
  assert (∀ q, q ∈ run → 1 <= rtl_median q.2 <= I128_MAX) as Hpos.
  { intros q Hq. by apply (tally_median_positive w asset q.1), Htally. }
  assert (in_hull 0 I128_MAX (map (λ q, rtl_median q.2) run)) as Hhull.
  { intros m (q & -> & Hq%Hpos)%list_elem_of_fmap. lia. }
  exists run. split; [intros ->; destruct Hcfg as [Hc _]; simpl in Hlen; lia|].
  split; [done|]. split; [done|]. split; [|split].
  - intros i q Hq. destruct (Hrun i q Hq) as [E1 E2]. split; [done|]. split; [done|].
    apply Htally. by eapply list_elem_of_lookup_2.
  - intros i a b Ha Hb Hlim Hmax. destruct (Hag i a b Ha Hb) as (s & Hs & Hle).
    apply list_elem_of_lookup_2, Hpos in Ha, Hb. eapply bps_between_agree; eauto; lia.
  - intros lo hi Hmaj. apply (minority_median lo hi (map (λ q, rtl_median q.2) run)); [done| |done].
    assert (outside lo hi (map (λ q, rtl_median q.2) run) = 0)%nat as ->.
    { unfold outside. rewrite list_filter_none; [done|]. intros m (q & -> & Hq)%list_elem_of_fmap Hnot.
      apply Hnot. pose proof (Htally q Hq) as Ht.
      apply (minority_median lo hi (map rv_price (rtl_sources q.2))); [| |apply Ht].
      - intros p Hp. pose proof (tally_prices _ _ _ _ (Hr q.1) Ht p Hp). lia.
      - rewrite length_map. by apply Hmaj. }
    rewrite length_map. destruct run; [|simpl; lia].
    destruct Hcfg as [Hc _]. simpl in Hlen. lia.
Qed.

Lemma confirmation_sound_witness :
  ∃ cp w', @finalize_confirmation Wrapping 7%N toy_rounds_ctx toy_voted_world = Ok cp w' ∧
    cfp_rounds cp = [1] ∧ 100 <= cfp_price cp <= 100.
Proof.
  destruct (@finalize_confirmation Wrapping 7%N toy_rounds_ctx toy_voted_world) as [cp w'|e] eqn:E.
  2: { exfalso. assert (match @finalize_confirmation Wrapping 7%N toy_rounds_ctx toy_voted_world
         with Ok _ _ => true | Err _ => false end = true) as Ok_run by (vm_compute; reflexivity).
       rewrite E in Ok_run. discriminate Ok_run. }
  exists cp, w'. split; [reflexivity|].
  destruct (@confirmation_sound Wrapping toy_crypto _ 2 7%N toy_rounds_ctx cp w' toy_voted_reach
              ltac:(unfold U32_MAX; lia) E) as (run & Hne & Hlen & Hr & Hrun & _ & Hmaj).
  assert (∀ q, q ∈ run → q.1 = 1 ∧ map rv_price (rtl_sources q.2) = [100]) as Hq.
  { intros q (i & Hi)%list_elem_of_lookup. destruct (Hrun i q Hi) as (E1 & E2 & _).
    change (counter_of toy_voted_world 7%N) with 1 in E1.
    assert (q.1 = 1) as E3.
    { destruct i as [|i]; [lia|].
      assert (0 <= q.1) by (destruct (@rounds_reach_inv Wrapping toy_crypto _ _ toy_voted_reach
        ltac:(unfold U32_MAX; lia)) as [Hi' _]; apply (ro_known _ _ _ (proj2 (proj2 (Hi' 7%N)) q.1)); by eexists).
      assert (q.1 = 0) as E0 by lia. rewrite E0 in E2. vm_compute in E2. discriminate E2. }
    split; [exact E3|]. rewrite E3 in E2.
    assert (option_map (λ t, map rv_price (rtl_sources t)) (tally_at toy_voted_world 7%N 1) = Some [100])
      as E4 by (vm_compute; reflexivity).
    rewrite E2 in E4. injection E4 as E4. exact E4. }
  split.
  - rewrite Hr.
    assert (match @finalize_confirmation Wrapping 7%N toy_rounds_ctx toy_voted_world
      with Ok cp _ => cfp_rounds cp | Err _ => [] end = [1]) as Ok_run by (vm_compute; reflexivity).
    rewrite E in Ok_run. rewrite <- Hr. exact Ok_run.
  - apply Hmaj. intros q [_ Hp]%Hq. rewrite Hp.
    assert (length (rtl_sources q.2) = 1%nat) as -> by (rewrite <- (length_map rv_price), Hp; reflexivity).
    vm_compute. lia.
Defined.

(** A vote and a tally are final.  Whatever is called later, by whomever,
    the vote a source cast in a round and the tally of a round stay what they
    are. *)
Theorem ballots_write_once `{BP : BuildProfile} `{CR : Crypto} w n c call :
  rounds_reach w n → Z.of_nat n <= U32_MAX → round_call_ok call →
  let w' := invoke (run_round_call call) c w in
  (∀ asset round s v, vote_at w asset round s = Some v → vote_at w' asset round s = Some v) ∧
  (∀ asset round t, tally_at w asset round = Some t → tally_at w' asset round = Some t).
Proof.
  intros Hw Hn Hok w'. destruct (rounds_reach_inv w n Hw Hn) as [Hinv _].
  assert (ballots_same w w' ∨ ∃ asset s, vote_added w w' asset (counter_of w asset) s) as Hcase.
  { unfold w', invoke. destruct (run_round_call call c w) as [u w1|] eqn:E; [|by left].
    assert (∀ m : M (), m c w = Ok u w1 → modifies not_ballot m → ballots_same w w1) as Hm.
    { intros m Hrun Hb k Hk. apply (Hb _ _ _ _ Hrun). intros Hk'. by apply Hk'. }
    destruct call as [asset config|asset|s asset round price t|asset|s asset round|asset]; simpl in E.
    3: { destruct (submit_round_vote_Ok _ _ _ _ _ _ _ _ _ E Hinv Hok) as [_ [Hb|Hv]]; [by left|right].
         exists asset, s. pose proof Hv as (_ & <- & _). exact Hv. }
    all: left; refine (Hm _ E _);
      eauto using modifies_bind, modifies_ret, ballots_set_config, ballots_start, ballots_finalize,
        ballots_report, ballots_abandon. }
  destruct Hcase as [Hs|(asset & s & Hs & _ & _ & _ & Ht & Hf)].
  { split; [intros a r x v <-|intros a r t <-].
    - exact (Hs (KeyConsensusRoundVote a r x) I).
    - exact (Hs (KeyConsensusRoundTally a r) I). }
  split.
  - intros a r x v Hv. unfold vote_at. rewrite (Hf (KeyConsensusRoundVote a r x)); [done..| | |]; intros [=].
    subst. congruence.
  - intros a r t Hv. destruct (decide (a = asset ∧ r = counter_of w asset)) as [[-> ->]|Hne].
    + destruct Ht as [Ht|(Ht & _)]; congruence.
    + unfold tally_at. rewrite (Hf (KeyConsensusRoundTally a r)); [done..|]. intros [=]. naive_solver.
Qed.

Lemma ballots_write_once_witness :
  let w' := toy_call (CallVote 1%N 7%N 1 200 950) toy_voted_world in
  is_Some (vote_at toy_voted_world 7%N 1 1%N) ∧
  ∀ v, vote_at toy_voted_world 7%N 1 1%N = Some v → vote_at w' 7%N 1 1%N = Some v.
Proof.
  intros w'. split; [eexists; vm_compute; reflexivity|]. intros v.
  apply (@ballots_write_once Wrapping toy_crypto toy_voted_world 2 toy_rounds_ctx
           (CallVote 1%N 7%N 1 200 950) toy_voted_reach); [unfold U32_MAX; lia|cbn; unfold I128_MAX; lia].
Defined.

(** A report of equivocation needs no equivocation.  Anyone, without any
    authorisation, can have a source that has cast a single vote barred from the
    round it voted in and its lifetime count of equivocations raised: the report
    succeeds in every context, keeps the vote, and from then on every call of
    the source for that round, a retry of its own vote included, fails. *)
Theorem report_needs_no_evidence `{BP : BuildProfile} `{CR : Crypto} source asset round c w vote :
  persistent w (KeyAssetRegistryIndex asset) = Some true → vote_at w asset round source = Some vote →
  persistent w (KeyConsensusRoundEquivocation asset round source) = None →
  0 <= default 0 (persistent w (KeyConsensusEquivocationCount asset source)) < U32_MAX →
  ∃ w', report_equivocation source asset round c w = Ok tt w' ∧ vote_at w' asset round source = Some vote ∧
    persistent w' (KeyConsensusEquivocationCount asset source) =
      Some (default 0 (persistent w (KeyConsensusEquivocationCount asset source)) + 1) ∧
    ∀ c' price t u w2, submit_round_vote source asset round price t c' w' ≠ Ok u w2.
Proof.
  intros Hreg Hv Hbar Hcount. unfold report_equivocation.
  rewrite run_bind, run_check_indexed by done. rewrite run_bind, run_get. unfold vote_at in Hv. rewrite Hv.
  rewrite run_bind. unfold has. rewrite Hbar, bool_decide_false by (by intros []).
  assert (in_u32 (default 0 (persistent w (KeyConsensusEquivocationCount asset source)) + 1)) as Hin
    by (unfold in_u32; lia).
  rewrite run_bind, run_get_or, run_bind, u32_ok by exact Hin. cbn [lift].
  rewrite run_ret, run_bind, run_put, run_bind, run_put, run_publish.
  eexists. split; [reflexivity|]. split; [unfold vote_at; by read_store|]. split; [by read_store|].
  intros c' price t u w2 Hsub. unfold submit_round_vote, get_round_config, current_round, round_start in Hsub.
  step Hsub. apply bind_Ok in Hsub as ([] & w1 & Hs & Hsub). apply readonly_check_source in Hs as ->.
  apply bind_Ok in Hsub as ([] & w1 & Hs & Hsub). do 9 step Hsub.
  apply bind_Ok in Hsub as (threshold & w3 & H3 & Hsub).
  apply (readonly_get_flagged Flags.TIMESTAMP_THRESHOLD KeyCfgTimestampThreshold) in H3 as ->.
  do 3 step Hsub. match goal with E : bool_decide (is_Some _) = false |- _ => revert E end.
  rewrite (check_registered_frame _ _ _ _ _ _ Hs) by done. read_store. by rewrite bool_decide_true by done.
Qed.

Lemma report_needs_no_evidence_witness :
  let nobody := MkCtx 6 1001 (λ _, false) 0%N in
  ∃ vote w', vote_at toy_voted_world 7%N 1 1%N = Some vote ∧
    report_equivocation 1%N 7%N 1 (BP := Wrapping) nobody toy_voted_world = Ok tt w' ∧
    persistent w' (KeyConsensusEquivocationCount 7%N 1%N) = Some 1.
Proof.
  intros nobody. eexists.
  destruct (@report_needs_no_evidence Wrapping toy_crypto 1%N 7%N 1 nobody toy_voted_world _
    ltac:(vm_compute; reflexivity) ltac:(vm_compute; reflexivity) ltac:(vm_compute; reflexivity)
    ltac:(vm_compute; split; [discriminate|reflexivity])) as (w' & H1 & H2 & H3 & _).
  exists w'. split; [vm_compute; reflexivity|]. split; [exact H1|exact H3].
Defined.

(** A running round can be cut short by anyone.  In every reachable state of
    a registered asset, [start_round] succeeds without any authorisation, whatever
    the votes of the current round, and from then on no confirmation is possible
    until the new round reaches its own quorum: there is no waiting for the
    deadline that [abandon_stalled_round] enforces. *)
Theorem start_round_blocks `{BP : BuildProfile} `{CR : Crypto} w n asset c :
  rounds_reach w n → Z.of_nat n < U32_MAX → persistent w (KeyAssetRegistryIndex asset) = Some true →
  ∃ w', start_round asset c w = Ok (counter_of w asset + 1) w' ∧
    ∀ c', finalize_confirmation asset c' w' = Err (Error NoData).
Proof.
  intros Hw Hn Hreg. destruct (rounds_reach_inv w n Hw) as [Hinv Hc]; [lia|].
  destruct (Hinv asset) as (Hcfg & H0 & Hr). specialize (Hc asset).
  assert (∃ w', start_round asset c w = Ok (counter_of w asset + 1) w') as [w' Hst].
  { unfold start_round, current_round. rewrite run_bind, run_check_indexed by done.
    assert (in_u32 (counter_of w asset + 1)) as Hin by (unfold in_u32; lia).
    rewrite run_bind, run_get_bump_or. fold (counter_of w asset).
    rewrite run_bind, u32_ok by exact Hin. cbn [lift].
    rewrite run_ret, run_bind, run_put, run_bind, run_sequence, run_bind, run_put, run_ret. eauto. }
  exists w'. split; [done|]. intros c'.
  destruct (start_round_Ok _ _ _ _ _ Hst) as (_ & Hcnt & _ & Hcfg'); [lia|].
  assert (tally_at w' asset (counter_of w asset + 1) = None) as Ht.
  { destruct (tally_at w' asset (counter_of w asset + 1)) as [t|] eqn:Et; [exfalso|done].
    unfold tally_at in Et. rewrite (ballots_start _ _ _ _ _ Hst) in Et by (by intros []).
    destruct (ro_known _ _ _ (Hr (counter_of w asset + 1))); [by exists t|lia]. }
  assert (persistent w' (KeyAssetRegistryIndex asset) = Some true) as Hreg'.
  { unfold start_round, current_round in Hst. rewrite run_bind, run_check_indexed in Hst by done.
    cbv beta iota in Hst. do 5 step Hst. rewrite run_ret in Hst. injection Hst as _ <-. by read_store. }
  unfold finalize_confirmation, get_round_config, current_round.
  rewrite run_bind, run_check_indexed by done. cbv beta iota.
  rewrite run_bind, (run_get_bump_or_as (KeyConsensusRoundConfig asset) _ (config_of w asset)) by exact (Hcfg' asset). cbv beta iota.
  rewrite run_bind, (run_get_bump_or_as (KeyConsensusRoundCounter asset) _ (counter_of w asset + 1)) by exact Hcnt. cbv beta iota.
  destruct (Z.to_nat (rcf_required_rounds (config_of w asset))) as [|m] eqn:Em; [destruct Hcfg; lia|].
  cbn [collect_run]. rewrite (proj2 (Z.eqb_neq (counter_of w asset + 1) 0)) by lia.
  rewrite run_bind, run_bind, run_get. cbv beta iota.
  unfold tally_at in Ht. rewrite Ht.
  rewrite run_ret. cbv beta iota. rewrite run_bind, run_panic_if. cbn [map length].
  by rewrite (proj2 (Z.ltb_lt (Z.of_nat 0) (rcf_required_rounds (config_of w asset)))) by (destruct Hcfg; lia).
Qed.

Lemma start_round_blocks_witness :
  let nobody := MkCtx 6 1001 (λ _, false) 0%N in
  ∃ w', @start_round Wrapping 7%N nobody toy_voted_world = Ok 2 w' ∧
    ∀ c', @finalize_confirmation Wrapping 7%N c' w' = Err (Error NoData).
Proof.
  intros nobody.
  exact (@start_round_blocks Wrapping toy_crypto toy_voted_world 2 7%N nobody toy_voted_reach
    ltac:(unfold U32_MAX; lia) ltac:(vm_compute; reflexivity)).
Defined.

(** The same market observation, price and timestamp included, satisfies the
    quorum of two rounds: the identity that the replay check compares contains
    the round. *)
Example same_observation_twice :
  let w := toy_call (CallVote 1%N 7%N 2 100 900) (toy_call (CallStart 7%N) toy_voted_world) in
  option_map rtl_median (tally_at w 7%N 1) = Some 100 ∧ option_map rtl_median (tally_at w 7%N 2) = Some 100.
Proof. by vm_compute. Qed.
