(* ===== verification/Breaker.v ===== *)
(** * [breaker.rs]: the circuit breaker with a deadband

    Policies, trips, the settle streak and automatic re-arming on top of the
    trip flag of [Assets.v]. *)
From stdpp Require Import base list strings.
From S2P Require Import Prelude Machine Types Host AuditLog Config Admin Assets Frames.
#[local] Open Scope Z_scope.
#[local] Set Default Goal Selector "!".

Definition default_policy : BreakerPolicy := MkBreakerPolicy 2000 1000 10 1000 true.

Definition get_breaker_policy (asset : Address) : M BreakerPolicy :=
  get_bump_or (KeyBreakerPolicy asset) default_policy.

Definition validate_policy (policy : BreakerPolicy) : M unit :=
  panic_if (bp_trip_bps policy <=? bp_clear_bps policy) InvalidBreakerDeadband;;
  panic_if (bp_settle_ledgers policy =? 0) InvalidBreakerPolicy;;
  panic_if (bp_max_open_ledgers policy =? 0) InvalidBreakerPolicy.

Definition set_breaker_policy (asset : Address) (policy : BreakerPolicy) : M unit :=
  admin ← get_admin;
  require_auth admin;;
  validate_policy policy;;
  put (KeyBreakerPolicy asset) policy.

Definition settle_streak_start (asset : Address) : M Z := get_or (KeyBreakerSettleStreak asset) 0.
Definition armed_ledger (asset : Address) : M Z := get_or (KeyBreakerArmedLedger asset) 0.
Definition escalations (asset : Address) : M Z := get_or (KeyBreakerEscalations asset) 0.
Definition source_recovery_ledger (asset : Address) : M Z := get_or (KeyBreakerSourceRecovery asset) 0.

Definition has_source_recovery (asset : Address) : M bool :=
  recovered ← source_recovery_ledger asset;
  armed ← armed_ledger asset;
  mret (armed <? recovered).

Definition record_source_recovery (asset : Address) : M unit :=
  now ← ledger_sequence; put (KeyBreakerSourceRecovery asset) now.

Definition get_breaker_status (asset : Address) : M BreakerStatus :=
  policy ← get_breaker_policy asset;
  is_open ← is_circuit_breaker_tripped asset;
  now ← ledger_sequence;
  armed ← armed_ledger asset;
  let open_ledgers := if is_open : bool then sat_u32 (now - armed) else 0 in
  start ← settle_streak_start asset;
  mret (MkBreakerStatus is_open policy 0
          (if is_open : bool then sat_u32 (now - start) else 0)
          open_ledgers (is_open && (bp_max_open_ledgers policy <? open_ledgers))).

Definition record_trip (asset : Address) (deviation_bps : Z) : M unit :=
  policy ← get_breaker_policy asset;
  now ← ledger_sequence;
  set (KeyBreakerArmedLedger asset) now;;
  set (KeyBreakerSettleStreak asset) now;;
  set (KeyBreakerSourceRecovery asset) 0;;
  publish (MkBreakerTrippedEvent asset deviation_bps (bp_trip_bps policy) (bp_clear_bps policy) now).

(** The update of the settle streak by one observation. *)
Definition track_streak (asset : Address) (calm : bool) (now : Z) : M unit :=
  if calm then
    start ← settle_streak_start asset;
    if start =? 0 then set (KeyBreakerSettleStreak asset) now else mret tt
  else set (KeyBreakerSettleStreak asset) now.

Definition evaluate_rearm (asset : Address) (deviation_bps : Z) : M bool :=
  tripped ← is_circuit_breaker_tripped asset;
  if negb tripped then mret false
  else
    policy ← get_breaker_policy asset;
    now ← ledger_sequence;
    track_streak asset (deviation_bps <? bp_clear_bps policy) now;;
    start ← settle_streak_start asset;
    let streak := sat_u32 (now - start) in
    let price_stable := (deviation_bps <? bp_clear_bps policy) && (bp_settle_ledgers policy <=? streak) in
    source_recovered ← has_source_recovery asset;
    armed ← armed_ledger asset;
    let open_ledgers := sat_u32 (now - armed) in
    let escalated := bp_max_open_ledgers policy <? open_ledgers in
    let can_rearm := bp_auto_rearm policy && negb escalated && price_stable && source_recovered in
    publish (MkBreakerRearmAttemptEvent asset deviation_bps streak (bp_settle_ledgers policy)
               source_recovered can_rearm now);;
    count ← escalations asset;
    (if escalated && (count =? 0) then
       set (KeyBreakerEscalations asset) 1;;
       publish (MkBreakerEscalatedEvent asset open_ledgers (bp_max_open_ledgers policy) now)
     else mret tt);;
    if can_rearm then
      rearm_circuit_breaker asset;;
      set (KeyBreakerSettleStreak asset) 0;;
      set (KeyBreakerSourceRecovery asset) 0;;
      publish (MkBreakerRearmedEvent asset deviation_bps streak now);;
      mret true
    else mret false.

Definition clear_breaker (asset : Address) : M unit :=
  admin ← get_admin;
  require_auth admin;;
  rearm_circuit_breaker asset;;
  set (KeyBreakerSettleStreak asset) 0;;
  set (KeyBreakerSourceRecovery asset) 0.

(** ** When the breaker re-arms *)

(** The module's own entries. *)
Definition breaker_key (asset : Address) (k : DataKey) : Prop :=
  k = KeyBreakerPolicy asset ∨ k = KeyBreakerArmedLedger asset ∨ k = KeyBreakerSettleStreak asset ∨
  k = KeyBreakerSourceRecovery asset.

Section Rearm.
Context (asset : Address).

Definition policy_of (w : World) : BreakerPolicy := default default_policy (persistent w (KeyBreakerPolicy asset)).
Definition armed_of (w : World) : Z := default 0 (persistent w (KeyBreakerArmedLedger asset)).
Definition streak_of (w : World) : Z := default 0 (persistent w (KeyBreakerSettleStreak asset)).
Definition recovery_of (w : World) : Z := default 0 (persistent w (KeyBreakerSourceRecovery asset)).

(** The conditions of an automatic re-arm, on the stored state and the ledger. *)
Definition rearms (deviation now : Z) (w : World) : bool :=
  breaker_tripped asset w && bp_auto_rearm (policy_of w) && (deviation <? bp_clear_bps (policy_of w)) &&
  negb (streak_of w =? 0) && (bp_settle_ledgers (policy_of w) <=? now - streak_of w) &&
  (armed_of w <? recovery_of w) && (now - armed_of w <=? bp_max_open_ledgers (policy_of w)).

Definition policy_range (policy : BreakerPolicy) : Prop :=
  1 <= bp_settle_ledgers policy <= U32_MAX ∧ 1 <= bp_max_open_ledgers policy <= U32_MAX.

Lemma run_policy c w : get_breaker_policy asset c w = Ok (policy_of w) w.
Proof. exact (run_get_bump_or (KeyBreakerPolicy asset) default_policy c w). Qed.

(** The breaker without its streak bookkeeping. *)
Lemma run_track_streak calm now c w :
  ∃ w', track_streak asset calm now c w = Ok tt w' ∧
    streak_of w' = (if calm && negb (streak_of w =? 0) then streak_of w else now) ∧
    ∀ k, k ≠ KeyBreakerSettleStreak asset → persistent w' k = persistent w k.
Proof.
  unfold track_streak. destruct calm; cbn [andb].
  - unfold settle_streak_start. rewrite run_bind, run_get_or. fold (streak_of w).
    change (default 0 (persistent w (KeyBreakerSettleStreak asset))) with (streak_of w).
    destruct (streak_of w =? 0); cbn [negb]; [|eauto].
    eexists. split; [apply run_set|]. split; [unfold streak_of; by rewrite persistent_put_eq|].
    intros k Hk. by apply persistent_put_ne.
  - eexists. split; [apply run_set|]. split; [unfold streak_of; by rewrite persistent_put_eq|].
    intros k Hk. by apply persistent_put_ne.
Qed.

Lemma run_rearm_flag c w :
  ∃ w', rearm_circuit_breaker asset c w = Ok tt w' ∧ breaker_tripped asset w' = false ∧
    ∀ k, breaker_key asset k → persistent w' k = persistent w k.
Proof.
  unfold rearm_circuit_breaker, set_circuit_breaker, set_asset_paused.
  rewrite run_assoc, run_bind, run_set, run_bind, run_extend_put, run_bind. unfold has. cbv beta iota.
  rewrite persistent_put_ne by done. case_bool_decide.
  - rewrite run_bind, run_remove. cbv beta iota. rewrite run_set. eexists. split; [done|].
    unfold breaker_tripped. split; [by read_store|]. intros k [->|[->|[->| ->]]]; by read_store.
  - eexists. split; [done|]. unfold breaker_tripped. split; [by read_store|].
    intros k [->|[->|[->| ->]]]; by read_store.
Qed.

Lemma sat_u32_reaches x b : 1 <= b <= U32_MAX → x <= U32_MAX → (b <=? sat_u32 x) = (b <=? x).
Proof.
  intros Hb Hx. unfold sat_u32, clampZ. destruct (Z.leb_spec b x); [apply Z.leb_le|apply Z.leb_gt]; lia.
Qed.

Lemma sat_u32_exceeds x b : 1 <= b <= U32_MAX → x <= U32_MAX → (b <? sat_u32 x) = negb (x <=? b).
Proof.
  intros Hb Hx. unfold sat_u32, clampZ.
  destruct (Z.leb_spec x b); cbn [negb]; [apply Z.ltb_ge|apply Z.ltb_lt]; lia.
Qed.

Lemma run_evaluate deviation c w :
  policy_range (policy_of w) → 0 <= sequence c <= U32_MAX → 0 <= streak_of w → 0 <= armed_of w →
  ∃ w', evaluate_rearm asset deviation c w = Ok (rearms deviation (sequence c) w) w' ∧
    breaker_tripped asset w' = breaker_tripped asset w && negb (rearms deviation (sequence c) w) ∧
    policy_of w' = policy_of w ∧ armed_of w' = armed_of w ∧
    (streak_of w' = 0 ∨ streak_of w' = streak_of w ∨ streak_of w' = sequence c).
Proof.
  intros [Hsettle Hopen] Hnow Hs Ha. unfold evaluate_rearm, rearms.
  rewrite run_bind, run_is_tripped. destruct (breaker_tripped asset w) eqn:Et; cbn [negb andb]; [|eauto 10].
  rewrite run_bind, run_policy, run_bind, run_sequence, run_bind.
  set (calm := deviation <? bp_clear_bps (policy_of w)).
  destruct (run_track_streak calm (sequence c) c w) as (w1 & -> & Hs1 & Hk1).
  unfold settle_streak_start, has_source_recovery, source_recovery_ledger, armed_ledger, escalations.
  rewrite run_bind, run_get_or. change (default 0 (persistent w1 (KeyBreakerSettleStreak asset))) with (streak_of w1).
  cbv beta iota zeta. rewrite Hs1, run_assoc, run_bind, run_get_or, run_assoc, run_bind, run_get_or, run_bind, run_ret.
  rewrite run_bind, run_get_or, !Hk1 by done.
  change (default 0 (persistent w (KeyBreakerArmedLedger asset))) with (armed_of w).
  change (default 0 (persistent w (KeyBreakerSourceRecovery asset))) with (recovery_of w).
  set (streak := sat_u32 _). set (verdict := bp_auto_rearm _ && calm && _ && _ && _ && _).
  match goal with |- context [if ?b then rearm_circuit_breaker asset ≫= _ else _] =>
    assert (b = verdict) as -> end.
  { unfold verdict, streak. rewrite sat_u32_exceeds by lia. rewrite negb_involutive.
    destruct calm; cbn [andb negb]; [|by rewrite !andb_false_r].
    destruct (streak_of w =? 0) eqn:E0; cbn [andb negb].
    - rewrite sat_u32_reaches by lia. rewrite (proj2 (Z.leb_gt _ (sequence c - sequence c))) by lia.
      by rewrite !andb_false_r.
    - bool_hyps. rewrite sat_u32_reaches by lia. rewrite andb_true_r. destruct (bp_auto_rearm _); [|done].
      cbn [andb]. destruct (_ <=? bp_max_open_ledgers _); cbn [andb]; [by rewrite andb_true_r|by rewrite !andb_false_r]. }
  rewrite run_bind, run_publish, run_bind, run_get_or, run_bind.
  set (w2 := add_event _ w1). set (note := if _ && (_ =? 0) then _ else _).
  assert (∃ w3, note c w2 = Ok tt w3 ∧ ∀ k, k ≠ KeyBreakerEscalations asset → persistent w3 k = persistent w1 k)
    as (w3 & Hn & Hk3).
  { unfold note. destruct ((_ <? streak) && _); [|exists w2; split; [reflexivity|intros; reflexivity]]. eexists. split; [rewrite run_bind, run_set; cbv beta iota; apply run_publish|].
    intros k Hk. exact (persistent_put_ne _ _ _ _ (not_eq_sym Hk)). }
  rewrite Hn. clear Hn note. destruct verdict; cbn [negb].
  - rewrite run_bind. destruct (run_rearm_flag c w3) as (w4 & -> & Ht & Hk4). eexists. split; [reflexivity|].
    unfold breaker_tripped, policy_of, armed_of, streak_of in *. cbn [persistent add_event]. read_store.
    rewrite (Hk4 (KeyBreakerPolicy asset)), (Hk4 (KeyBreakerArmedLedger asset)) by (unfold breaker_key; auto).
    rewrite !Hk3, !Hk1 by done. auto.
  - eexists. split; [done|]. unfold breaker_tripped, policy_of, armed_of. rewrite !Hk3, !Hk1 by done.
    split; [exact Et|]. do 2 (split; [done|]).
    assert (streak_of w3 = streak_of w1) as -> by (unfold streak_of; by rewrite Hk3).
    rewrite Hs1. destruct (calm && _); auto.
Qed.
End Rearm.

(** ** Histories *)

Inductive BreakerCall :=
  | CallSetPolicy (policy : BreakerPolicy)
  | CallSourceRecovery
  | CallRecordTrip (deviation_bps : Z)
  | CallEvaluate (deviation_bps : Z)
  | CallClear.

Definition run_breaker_call (asset : Address) (call : BreakerCall) : M unit :=
  match call with
  | CallSetPolicy policy => set_breaker_policy asset policy
  | CallSourceRecovery => record_source_recovery asset
  | CallRecordTrip deviation_bps => record_trip asset deviation_bps
  | CallEvaluate deviation_bps => rearmed ← evaluate_rearm asset deviation_bps; mret tt
  | CallClear => clear_breaker asset
  end.

(** The widths of the arguments. *)
Definition breaker_call_ok (call : BreakerCall) : Prop :=
  match call with
  | CallSetPolicy policy => 0 <= bp_settle_ledgers policy <= U32_MAX ∧ 0 <= bp_max_open_ledgers policy <= U32_MAX
  | _ => True
  end.

(** Every history of one asset's breaker by the calls of [allowed],
    interleaved with the rest of the contract, which trips the flag but does
    not write the module's own entries. *)
Inductive breaker_reach (allowed : BreakerCall → Prop) (asset : Address) : World → Z → Prop :=
  | brk_start w now : (∀ k, breaker_key asset k → persistent w k = None) → 0 <= now → breaker_reach allowed asset w now
  | brk_call w now c call :
      breaker_reach allowed asset w now → now <= sequence c <= U32_MAX → allowed call → breaker_call_ok call →
      breaker_reach allowed asset (invoke (run_breaker_call asset call) c w) (sequence c)
  | brk_other w w' now :
      breaker_reach allowed asset w now → (∀ k, breaker_key asset k → persistent w' k = persistent w k) →
      breaker_reach allowed asset w' now.

Definition breaker_inv (asset : Address) (w : World) : Prop :=
  policy_range (policy_of asset w) ∧ 0 <= streak_of asset w ∧ 0 <= armed_of asset w.

Lemma breaker_inv_frame asset w w' :
  (∀ k, breaker_key asset k → persistent w' k = persistent w k) → breaker_inv asset w → breaker_inv asset w'.
Proof.
  intros Hk. unfold breaker_inv, policy_of, streak_of, armed_of.
  by rewrite (Hk (KeyBreakerPolicy asset)), (Hk (KeyBreakerSettleStreak asset)), (Hk (KeyBreakerArmedLedger asset))
    by (unfold breaker_key; auto).
Qed.

Lemma breaker_call_inv asset call c w u w' :
  run_breaker_call asset call c w = Ok u w' → 0 <= sequence c <= U32_MAX → breaker_call_ok call →
  breaker_inv asset w → breaker_inv asset w'.
Proof.
  intros H Hnow Hok (H1 & H2 & H3). unfold breaker_inv.
  destruct call as [policy| |dev|dev|]; cbn [run_breaker_call breaker_call_ok] in *.
  - unfold set_breaker_policy, validate_policy in H. steps H. bool_hyps. subst w'.
    unfold policy_of, streak_of, armed_of. read_store. split; [unfold policy_range; simpl; lia|done].
  - unfold record_source_recovery in H. steps H. subst w'. unfold policy_of, streak_of, armed_of. by read_store.
  - unfold record_trip in H. rewrite run_bind, run_policy in H. steps H. subst w'.
    unfold policy_of, streak_of, armed_of. cbn [persistent add_event]. read_store. simpl.
    split; [done|]. lia.
  - destruct (run_evaluate asset dev c w) as (w1 & E & _ & Ep & Ea & Es); try lia; try done.
    rewrite run_bind, E in H. injection H as _ <-. rewrite Ep, Ea. split; [done|]. lia.
  - unfold clear_breaker in H. do 2 step H. rewrite run_bind in H.
    destruct (run_rearm_flag asset c w) as (w1 & E & _ & Hk). rewrite E in H. steps H. subst w'.
    unfold policy_of, streak_of, armed_of in *. read_store. rewrite !Hk by (unfold breaker_key; auto). done.
Qed.

Lemma breaker_reach_inv allowed asset w now : breaker_reach allowed asset w now → breaker_inv asset w ∧ 0 <= now.
Proof.
  induction 1 as [w now Hk H0|w now c call _ [IH H0] Hnow _ Hok|w w' now _ [IH H0] Hk].
  - split; [|done]. unfold breaker_inv, policy_of, streak_of, armed_of.
    rewrite !Hk by (unfold breaker_key; auto). split; [by vm_compute|]. simpl. lia.
  - split; [|lia]. unfold invoke. destruct (run_breaker_call asset call c w) as [u w'|e] eqn:E; [|done].
    by eapply breaker_call_inv; [exact E|lia|..].
  - split; [|done]. by eapply breaker_inv_frame.
Qed.

(** Only [record_trip] writes the ledger of the last trip. *)
Lemma breaker_call_armed asset call c w :
  (∀ dev, call ≠ CallRecordTrip dev) →
  armed_of asset (invoke (run_breaker_call asset call) c w) = armed_of asset w.
Proof.
  intros Hcall. unfold invoke. destruct (run_breaker_call asset call c w) as [u w'|e] eqn:E; [|done].
  unfold armed_of. f_equal. revert E. enough (modifies (λ k, k ≠ KeyBreakerArmedLedger asset) (run_breaker_call asset call)) as Hm.
  { intros E. exact (Hm _ _ _ _ E (KeyBreakerArmedLedger asset) (λ H, H eq_refl)). }
  destruct call; cbn [run_breaker_call]; [| |by edestruct Hcall| |].
  all: deep_frame.
Qed.

(** The breaker re-arms exactly when the module says.  In every reachable
    state an evaluation succeeds and answers [rearms]: the breaker is tripped,
    re-arming is enabled, the reported deviation is below the clear threshold
    and has been for the settle period, the feed recovered after the trip, and
    the trip is not older than the escalation bound; the flag is cleared in that
    case and kept in every other. *)
Theorem rearm_exactly allowed asset deviation w now c :
  breaker_reach allowed asset w now → now <= sequence c <= U32_MAX →
  ∃ w', evaluate_rearm asset deviation c w = Ok (rearms asset deviation (sequence c) w) w' ∧
    breaker_tripped asset w' = breaker_tripped asset w && negb (rearms asset deviation (sequence c) w).
Proof.
  intros [(H1 & H2 & H3) H0]%breaker_reach_inv Hnow.
  destruct (run_evaluate asset deviation c w) as (w' & E & Et & _); try lia; try done. eauto.
Qed.

(** The trips of the price path are never re-armed automatically.  Nothing
    outside the tests calls [record_trip]; without it the ledger of the trip
    stays 0, so from the escalation bound on (1000 ledgers by default) every
    evaluation counts the trip as escalated and answers [false], whatever the
    policy, the deviation and the evidence. *)
Theorem untracked_trip_never_rearms asset deviation w now c :
  breaker_reach (λ call, ∀ dev, call ≠ CallRecordTrip dev) asset w now → now <= sequence c <= U32_MAX →
  bp_max_open_ledgers (policy_of asset w) < sequence c →
  ∃ w', evaluate_rearm asset deviation c w = Ok false w' ∧ breaker_tripped asset w' = breaker_tripped asset w.
Proof.
  intros Hreach Hnow Hbound. destruct (breaker_reach_inv _ _ _ _ Hreach) as ((H1 & H2 & H3) & H0).
  assert (armed_of asset w = 0) as Ha.
  { clear -Hreach. induction Hreach as [w now Hk H0|w now c call _ IH _ Hcall _|w w' now _ IH Hk].
    - unfold armed_of. by rewrite (Hk (KeyBreakerArmedLedger asset)) by (unfold breaker_key; auto).
    - by rewrite breaker_call_armed.
    - rewrite <- IH. unfold armed_of. by rewrite (Hk (KeyBreakerArmedLedger asset)) by (unfold breaker_key; auto). }
  destruct (run_evaluate asset deviation c w) as (w' & E & Et & _); try lia; try done.
  assert (rearms asset deviation (sequence c) w = false) as Hr.
  { unfold rearms. rewrite Ha, (proj2 (Z.leb_gt (sequence c - 0) _)) by lia. apply andb_false_r. }
  rewrite Hr in E, Et. rewrite andb_true_r in Et. eauto.
Qed.

Definition toy_breaker (call : BreakerCall) (ledger : Z) (w : World) : World :=
  invoke (run_breaker_call 7%N call) (MkCtx ledger 0 (λ _, true) 0%N) w.
Definition toy_tripped : World := put_persistent (KeyAssetCircuitBreakerTripped 7%N) (Some true) empty_world.

Lemma rearm_exactly_witness :
  rearms 7%N 0 115 (toy_breaker CallSourceRecovery 105 (toy_breaker (CallRecordTrip 2500) 100 toy_tripped)) = true ∧
  ∃ w', evaluate_rearm 7%N 0 (MkCtx 115 0 (λ _, true) 0%N)
          (toy_breaker CallSourceRecovery 105 (toy_breaker (CallRecordTrip 2500) 100 toy_tripped)) = Ok true w' ∧
        breaker_tripped 7%N w' = false.
Proof.
  split; [vm_compute; reflexivity|].
  destruct (rearm_exactly (λ _, True) 7%N 0
    (toy_breaker CallSourceRecovery 105 (toy_breaker (CallRecordTrip 2500) 100 toy_tripped)) 105
    (MkCtx 115 0 (λ _, true) 0%N)) as (w' & E & Et).
  - apply (brk_call _ _ _ 100 (MkCtx 105 0 (λ _, true) 0%N) CallSourceRecovery); [|by vm_compute|done|done].
    apply (brk_call _ _ _ 0 (MkCtx 100 0 (λ _, true) 0%N) (CallRecordTrip 2500)); [|by vm_compute|done|done].
    apply brk_start; [|lia]. by intros k [->|[->|[->| ->]]].
  - by vm_compute.
  - exists w'. split; [exact E|exact Et].
Defined.

Lemma untracked_trip_never_rearms_witness :
  breaker_tripped 7%N (toy_breaker CallSourceRecovery 1100 toy_tripped) = true ∧
  ∃ w', evaluate_rearm 7%N 0 (MkCtx 1200 0 (λ _, true) 0%N) (toy_breaker CallSourceRecovery 1100 toy_tripped) =
          Ok false w' ∧ breaker_tripped 7%N w' = true.
Proof.
  split; [vm_compute; reflexivity|].
  apply (untracked_trip_never_rearms 7%N 0 (toy_breaker CallSourceRecovery 1100 toy_tripped) 1100
    (MkCtx 1200 0 (λ _, true) 0%N)).
  - apply (brk_call _ _ _ 0 (MkCtx 1100 0 (λ _, true) 0%N) CallSourceRecovery); [|by vm_compute|done|done].
    apply brk_start; [|lia]. by intros k [->|[->|[->| ->]]].
  - by vm_compute.
  - by vm_compute.
Defined.
