(* ===== verification/Recovery.v ===== *)
(** * [recovery.rs]: social recovery of the administrator key

    Guardians approve a replacement administrator; the candidate is installed
    after a cancellation window that the administrator may use. *)
From stdpp Require Import base list strings relations.
From S2P Require Import Prelude Machine Types Host AuditLog Config Admin Assets Frames.
#[local] Open Scope Z_scope.
#[local] Set Default Goal Selector "!".

Definition DEFAULT_RECOVERY_DELAY : Z := 17280.
Definition MAX_RECOVERY_DELAY : Z := 172800.

Section Recovery.
Context `{BP : BuildProfile} `{CR : Crypto}.

Definition check_recovery_config_unlocked : M unit :=
  pending ← has KeyPendingRecovery;
  panic_if pending RecoveryAlreadyPending;;
  veto ← get KeyRecoveryVeto;
  match veto with
  | Some (_, until) =>
      ledger ← ledger_sequence; panic_if (ledger <? until) RecoveryAlreadyPending
  | None => mret tt
  end.

Definition read_guardians : M (list Address) := get_bump_or KeyRecoveryGuardians [].
Definition read_threshold : M Z := get_or KeyRecoveryThreshold 0.

Definition set_guardians (guardians : list Address) (threshold : Z) : M unit :=
  admin ← get_admin;
  require_auth admin;;
  check_recovery_config_unlocked;;
  panic_if ((threshold =? 0) || (Z.of_nat (length guardians) <? threshold)) InvalidGuardianConfig;;
  put KeyRecoveryGuardians guardians;;
  set KeyRecoveryThreshold threshold;;
  publish (MkGuardiansSetEvent admin (Z.of_nat (length guardians)) threshold);;
  emit_admin_action "set_grd" admin [].

Definition get_guardians : M (list Address) := read_guardians.
Definition get_recovery_threshold : M Z := read_threshold.

Definition set_recovery_delay (delay_ledgers : Z) : M unit :=
  admin ← get_admin;
  require_auth admin;;
  check_recovery_config_unlocked;;
  panic_if ((delay_ledgers =? 0) || (MAX_RECOVERY_DELAY <? delay_ledgers)) InvalidConfiguration;;
  set KeyRecoveryDelay delay_ledgers.

Definition get_recovery_delay : M Z := get_bump_or KeyRecoveryDelay DEFAULT_RECOVERY_DELAY.

Definition approve_recovery (guardian new_admin : Address) : M unit :=
  require_auth guardian;;
  guardians ← read_guardians;
  panic_if (bool_decide (guardian ∉ guardians)) NotGuardian;;
  existing ← get KeyPendingRecovery;
  ledger ← ledger_sequence;
  let recovery := default (MkGuardianRecovery new_admin [] ledger 0) existing in
  panic_if (bool_decide (grc_new_admin recovery ≠ new_admin)) RecoveryAlreadyPending;;
  panic_if (bool_decide (guardian ∈ grc_approvals recovery)) RecoveryAlreadyApproved;;
  let approvals := grc_approvals recovery ++ [guardian] in
  threshold ← read_threshold;
  ready_ledger ←
    (if (grc_ready_ledger recovery =? 0) && (threshold <=? Z.of_nat (length approvals)) then
       delay ← get_recovery_delay;
       execute_after ← lift (u32 (ledger + delay));
       publish (MkRecoveryReadyEvent new_admin ledger execute_after);;
       mret ledger
     else mret (grc_ready_ledger recovery));
  put KeyPendingRecovery
    (MkGuardianRecovery (grc_new_admin recovery) approvals (grc_initiated_ledger recovery) ready_ledger);;
  publish (MkRecoveryApprovedEvent guardian new_admin (Z.of_nat (length approvals)) threshold).

Definition cancel_recovery : M unit :=
  admin ← get_admin;
  require_auth admin;;
  pending ← get KeyPendingRecovery;
  match pending with
  | None => panic_with_error RecoveryNotPending
  | Some recovery =>
      (if negb (grc_ready_ledger recovery =? 0) then
         veto ← get KeyRecoveryVeto;
         match veto with
         | Some (vetoed, _) =>
             panic_if (bool_decide (vetoed = grc_new_admin recovery)) NotAuthorized
         | None => mret tt
         end;;
         ledger ← ledger_sequence;
         delay ← get_recovery_delay;
         put KeyRecoveryVeto (grc_new_admin recovery, sat_u32 (ledger + delay))
       else mret tt);;
      remove KeyPendingRecovery;;
      publish (MkRecoveryCancelledEvent admin (grc_new_admin recovery))
  end.

Definition execute_recovery : M unit :=
  pending ← get KeyPendingRecovery;
  match pending with
  | None => panic_with_error RecoveryNotPending
  | Some recovery =>
      panic_if (grc_ready_ledger recovery =? 0) RecoveryDelayNotElapsed;;
      delay ← get_recovery_delay;
      ledger ← ledger_sequence;
      panic_if (ledger <? sat_u32 (grc_ready_ledger recovery + delay)) RecoveryDelayNotElapsed;;
      old_admin ← get_admin;
      set KeyAdmin (grc_new_admin recovery);;
      remove KeyPendingRecovery;;
      remove KeyRecoveryVeto;;
      publish (MkRecoveryExecutedEvent old_admin (grc_new_admin recovery))
  end.

Definition get_pending_recovery : M (option GuardianRecovery) := get KeyPendingRecovery.

(** ** Histories *)

Inductive RecoveryCall :=
  | CallSetGuardians (guardians : list Address) (threshold : Z)
  | CallSetDelay (delay_ledgers : Z)
  | CallApprove (guardian new_admin : Address)
  | CallCancel
  | CallExecute.

Definition run_recovery_call (call : RecoveryCall) : M unit :=
  match call with
  | CallSetGuardians guardians threshold => set_guardians guardians threshold
  | CallSetDelay delay_ledgers => set_recovery_delay delay_ledgers
  | CallApprove guardian new_admin => approve_recovery guardian new_admin
  | CallCancel => cancel_recovery
  | CallExecute => execute_recovery
  end.

Definition recovery_call_ok (call : RecoveryCall) : Prop :=
  match call with
  | CallSetGuardians _ threshold => 0 <= threshold
  | CallSetDelay delay_ledgers => 0 <= delay_ledgers
  | _ => True
  end.

(** An approval its guardian has authorised: who, for whom, when. *)
Definition authorised_approval (call : RecoveryCall) (c : Ctx) : list (Address * Address * Z) :=
  match call with
  | CallApprove g n => if authorized c g then [(g, n, sequence c)] else []
  | _ => []
  end.

Definition recovery_key (k : DataKey) : Prop :=
  match k with
  | KeyPendingRecovery | KeyRecoveryDelay | KeyRecoveryGuardians | KeyRecoveryThreshold
  | KeyRecoveryVeto => True
  | _ => False
  end.

(** Every history of the component at non-decreasing ledgers, interleaved with
    calls of the rest of the contract, with the authorised approvals. *)
Inductive recovery_reach : World → Z → list (Address * Address * Z) → Prop :=
  | rec_start w now : (∀ k, recovery_key k → persistent w k = None) → 0 <= now → recovery_reach w now []
  | rec_call w now log c call :
      recovery_reach w now log → now <= sequence c → recovery_call_ok call →
      recovery_reach (invoke (run_recovery_call call) c w) (sequence c)
        (log ++ authorised_approval call c)
  | rec_other w w' now log :
      recovery_reach w now log → (∀ k, recovery_key k → persistent w' k = persistent w k) →
      recovery_reach w' now log.

Definition guardians_of (w : World) : list Address := default [] (persistent w KeyRecoveryGuardians).
Definition threshold_of (w : World) : Z := default 0 (persistent w KeyRecoveryThreshold).
Definition delay_of (w : World) : Z := default DEFAULT_RECOVERY_DELAY (persistent w KeyRecoveryDelay).

(** The pending recovery carries distinct approvals of current guardians, each
    authorised for its candidate; once ready, a quorum of them dates from
    before the delay started. *)
Definition pending_ok (w : World) (now : Z) (log : list (Address * Address * Z)) (r : GuardianRecovery)
    : Prop :=
  NoDup (grc_approvals r) ∧ grc_approvals r ≠ [] ∧
  (∀ g, g ∈ grc_approvals r → g ∈ guardians_of w ∧ ∃ l, (g, grc_new_admin r, l) ∈ log ∧ 0 <= l <= now) ∧
  (grc_ready_ledger r ≠ 0 →
     threshold_of w <= Z.of_nat (length (grc_approvals r)) ∧ 0 <= grc_ready_ledger r <= now ∧
     ∀ g, g ∈ take (Z.to_nat (threshold_of w)) (grc_approvals r) →
       ∃ l, (g, grc_new_admin r, l) ∈ log ∧ 0 <= l <= grc_ready_ledger r).

Definition recovery_inv (w : World) (now : Z) (log : list (Address * Address * Z)) : Prop :=
  0 <= now ∧ 0 <= delay_of w ∧
  (guardians_of w ≠ [] → 1 <= threshold_of w <= Z.of_nat (length (guardians_of w))) ∧
  ∀ r, persistent w KeyPendingRecovery = Some r → pending_ok w now log r.
End Recovery.

Section Invariant.
Context `{BP : BuildProfile} `{CR : Crypto}.

Lemma recovery_inv_frame w w' now log :
  (∀ k, recovery_key k → persistent w' k = persistent w k) → recovery_inv w now log →
  recovery_inv w' now log.
Proof.
  intros Hk (H0 & H1 & H2 & H3).
  assert (guardians_of w' = guardians_of w) as Eg by (unfold guardians_of; by rewrite (Hk KeyRecoveryGuardians I)).
  assert (threshold_of w' = threshold_of w) as Et by (unfold threshold_of; by rewrite (Hk KeyRecoveryThreshold I)).
  assert (delay_of w' = delay_of w) as Ed by (unfold delay_of; by rewrite (Hk KeyRecoveryDelay I)).
  unfold recovery_inv. rewrite Eg, Et, Ed, (Hk KeyPendingRecovery I). do 3 (split; [done|]).
  intros r Hr%H3. unfold pending_ok in *. by rewrite Eg, Et.
Qed.

Lemma recovery_inv_later w now now' log log' :
  now <= now' → log ⊆ log' → recovery_inv w now log → recovery_inv w now' log'.
Proof.
  intros Hn Hl (H0 & H1 & H2 & H3). split; [lia|]. do 2 (split; [done|]).
  intros r (A & B & C & D)%H3. split; [done|]. split; [done|]. split.
  - intros g (Hg & l & Hin & Hle)%C. split; [done|]. exists l. split; [by apply Hl|lia].
  - intros (E & F & G)%D. split; [done|]. split; [lia|]. intros g (l & Hin & Hle)%G.
    exists l. split; [by apply Hl|lia].
Qed.
Lemma check_unlocked_Ok c w u w' :
  check_recovery_config_unlocked c w = Ok u w' → w' = w ∧ persistent w KeyPendingRecovery = None.
Proof.
  unfold check_recovery_config_unlocked. intros H. do 3 step H.
  assert (persistent w KeyPendingRecovery = None) as Hp.
  { destruct (persistent w KeyPendingRecovery); [|done]. by rewrite bool_decide_true in Eg by done. }
  destruct (persistent w KeyRecoveryVeto) as [[vetoed until]|]; [|by injection H as _ <-].
  step H. by step H.
Qed.

Lemma set_guardians_inv gs t c w u w' now log :
  set_guardians gs t c w = Ok u w' → 0 <= t → recovery_inv w now log → recovery_inv w' now log.
Proof.
  unfold set_guardians. intros H Ht (H0 & H1 & H2 & H3). do 2 step H.
  apply bind_Ok in H as ([] & w1 & Hc & H). apply check_unlocked_Ok in Hc as [-> Hp]. do 4 step H.
  assert (∀ k, recovery_key k → persistent w' k = persistent (put_persistent KeyRecoveryThreshold (Some (t : interp (ty_of KeyRecoveryThreshold)))
    (put_persistent KeyRecoveryGuardians (Some (gs : interp (ty_of KeyRecoveryGuardians))) w)) k) as Hk.
  { intros k Hk. rewrite (modifies_emit _ _ _ _ _ _ _ H k); [done|]. by destruct k; intros []. }
  bool_hyps. unfold recovery_inv, guardians_of, threshold_of, delay_of.
  rewrite (Hk KeyRecoveryGuardians I), (Hk KeyRecoveryThreshold I), (Hk KeyRecoveryDelay I), (Hk KeyPendingRecovery I).
  read_store. split; [done|]. split; [done|]. split; [simpl; lia|]. by rewrite Hp.
Qed.

Lemma set_delay_inv d c w u w' now log :
  set_recovery_delay d c w = Ok u w' → 0 <= d → recovery_inv w now log → recovery_inv w' now log.
Proof.
  unfold set_recovery_delay. intros H Hd (H0 & H1 & H2 & H3). do 2 step H.
  apply bind_Ok in H as ([] & w1 & Hc & H). apply check_unlocked_Ok in Hc as [-> Hp]. do 2 step H.
  subst w'. unfold recovery_inv, guardians_of, threshold_of, delay_of. read_store. by rewrite Hp.
Qed.

(** The recovery an approval adds to. *)
Definition approved_recovery (w : World) (ledger : Z) (n : Address) : GuardianRecovery :=
  default (MkGuardianRecovery n [] ledger 0) (persistent w KeyPendingRecovery).

Lemma approve_recovery_Ok g n c w u w' :
  approve_recovery g n c w = Ok u w' →
  let r := approved_recovery w (sequence c) n in
  let approvals := grc_approvals r ++ [g] in
  authorized c g = true ∧ g ∈ guardians_of w ∧ grc_new_admin r = n ∧ g ∉ grc_approvals r ∧
  persistent w' KeyPendingRecovery =
    Some (MkGuardianRecovery n approvals (grc_initiated_ledger r)
            (if (grc_ready_ledger r =? 0) && (threshold_of w <=? Z.of_nat (length approvals))
             then sequence c else grc_ready_ledger r)) ∧
  ∀ k, k ≠ KeyPendingRecovery → persistent w' k = persistent w k.
Proof.
  intros H r approvals. unfold approve_recovery, read_guardians, read_threshold, get_recovery_delay in H.
  step H. step H. step H. step H. step H. fold (approved_recovery w (sequence c) n) in H.
  change (approved_recovery w (sequence c) n) with r in H. step H. step H. step H.
  fold approvals in H.
  apply bind_Ok in H as (ready & w1 & H1 & H).
  assert ((∀ k, persistent w1 k = persistent w k) ∧ ready =
    (if (grc_ready_ledger r =? 0) && (threshold_of w <=? Z.of_nat (length approvals))
     then sequence c else grc_ready_ledger r)) as [Hw1 Hready].
  { match type of H1 with (if ?b then _ else _) _ _ = _ =>
      change b with ((grc_ready_ledger r =? 0) && (threshold_of w <=? Z.of_nat (length approvals))) in H1 end.
    destruct (_ && _); [|by injection H1 as <- <-].
    do 3 step H1. by injection H1 as <- <-. }
  step H. step H. apply bool_decide_eq_false_1 in Eg0, Eg1, Eg2. apply dec_stable in Eg0, Eg1.
  subst w'. split; [done|]. split; [exact Eg0|]. split; [done|]. split; [done|].
  cbn [persistent add_event]. split; [read_store; congruence|].
  intros k Hk. rewrite persistent_put_ne by congruence. apply Hw1.
Qed.

Lemma approve_inv g n c w u w' now log :
  approve_recovery g n c w = Ok u w' → now <= sequence c → recovery_inv w now log →
  recovery_inv w' (sequence c) (log ++ authorised_approval (CallApprove g n) c).
Proof.
  intros H Hnow Hinv. destruct (approve_recovery_Ok _ _ _ _ _ _ H) as (Hauth & Hg & Hn & Hnew & Hp & Hk).
  unfold authorised_approval. rewrite Hauth.
  apply (recovery_inv_later w now (sequence c) _ (log ++ [(g, n, sequence c)])) in Hinv as (H0 & H1 & H2 & H3);
    [|done|intros x Hx; apply elem_of_app; by left].
  assert (guardians_of w' = guardians_of w) as Eg by (unfold guardians_of; by rewrite Hk).
  assert (threshold_of w' = threshold_of w) as Et by (unfold threshold_of; by rewrite Hk).
  assert (delay_of w' = delay_of w) as Ed by (unfold delay_of; by rewrite Hk).
  unfold recovery_inv. rewrite Eg, Et, Ed.
  do 3 (split; [done|]). intros r' Hr'. rewrite Hp in Hr'. injection Hr' as <-.
  set (r := approved_recovery w (sequence c) n) in *.
  assert (∀ x, x ∈ grc_approvals r → x ∈ guardians_of w ∧
      ∃ l, (x, n, l) ∈ log ++ [(g, n, sequence c)] ∧ 0 <= l <= sequence c) as Hold.
  { intros x Hx. unfold r, approved_recovery in *. destruct (persistent w KeyPendingRecovery) as [r0|] eqn:E;
      simpl in Hx; [|by apply elem_of_nil in Hx].
    destruct (H3 r0 eq_refl) as (_ & _ & C & _). simpl in Hn. rewrite Hn in C. by apply C. }
  assert (∀ x, x ∈ grc_approvals r ++ [g] → x ∈ guardians_of w ∧
      ∃ l, (x, n, l) ∈ log ++ [(g, n, sequence c)] ∧ 0 <= l <= sequence c) as Hall.
  { intros x [Hx| ->%list_elem_of_singleton]%elem_of_app; [by apply Hold|]. split; [done|].
    exists (sequence c). split; [apply elem_of_app; right; apply list_elem_of_singleton; done|lia]. }
  unfold pending_ok. rewrite Eg, Et. cbn [grc_approvals grc_new_admin grc_ready_ledger].
  split.
  { apply NoDup_app. split; [|split; [|apply NoDup_singleton]].
    - unfold r, approved_recovery. destruct (persistent w KeyPendingRecovery) as [r0|] eqn:E; [|constructor].
      by destruct (H3 r0 eq_refl).
    - intros x Hx ->%list_elem_of_singleton. done. }
  split; [by destruct (grc_approvals r)|]. split; [exact Hall|].
  destruct ((grc_ready_ledger r =? 0) && _) eqn:Eready; bool_hyps.
  - intros Hne. split; [lia|]. split; [lia|]. intros x (i & Hi%list_elem_of_lookup_2 & _)%elem_of_take. by apply Hall.
  - intros Hne. unfold r, approved_recovery in *.
    destruct (persistent w KeyPendingRecovery) as [r0|] eqn:E; [|done]. cbn [default] in *.
    destruct (H3 r0 eq_refl) as (_ & _ & _ & D). destruct (D Hne) as (D1 & D2 & D3).
    rewrite length_app. simpl. split; [lia|]. split; [lia|]. intros x Hx. simpl in Hn. rewrite Hn in D3. apply D3.
    rewrite take_app_le in Hx by lia. done.
Qed.
Lemma cancel_recovery_Ok c w u w' :
  cancel_recovery c w = Ok u w' →
  (∃ admin r, persistent w KeyAdmin = Some admin ∧ authorized c admin = true ∧
    persistent w KeyPendingRecovery = Some r ∧
    (grc_ready_ledger r ≠ 0 → ∀ until, persistent w KeyRecoveryVeto ≠ Some (grc_new_admin r, until))) ∧
  persistent w' KeyPendingRecovery = None ∧
  ∀ k, k ≠ KeyPendingRecovery → k ≠ KeyRecoveryVeto → persistent w' k = persistent w k.
Proof.
  unfold cancel_recovery, get_recovery_delay. intros H. step H. step H. step H.
  destruct (persistent w KeyPendingRecovery) as [r|] eqn:Hp; [|by step H].
  apply bind_Ok in H as (? & w1 & H1 & H).
  assert ((grc_ready_ledger r ≠ 0 → ∀ until, persistent w KeyRecoveryVeto ≠ Some (grc_new_admin r, until)) ∧
    ∀ k, k ≠ KeyRecoveryVeto → persistent w1 k = persistent w k) as [Hveto Hk].
  { destruct (grc_ready_ledger r =? 0) eqn:E; cbn [negb] in H1; bool_hyps; [by injection H1 as _ <-|].
    step H1. apply bind_Ok in H1 as (? & w2 & H2 & H1).
    assert (w2 = w ∧ ∀ until, persistent w KeyRecoveryVeto ≠ Some (grc_new_admin r, until)) as [-> Hv].
    { destruct (persistent w KeyRecoveryVeto) as [[vetoed until]|]; [|by injection H2].
      apply panic_if_Ok in H2 as [-> E2]. apply bool_decide_eq_false_1 in E2. split; [done|].
      intros until' [= -> ->]. by apply E2. }
    do 3 step H1. subst w1. split; [done|]. intros k Hne. by apply persistent_put_ne. }
  do 2 step H. subst w'. split; [eauto 10|]. cbn [persistent add_event].
  split; [by apply persistent_put_eq|]. intros k Hk1 Hk2. rewrite persistent_put_ne by congruence. by apply Hk.
Qed.

Lemma execute_recovery_Ok c w u w' :
  execute_recovery c w = Ok u w' →
  ∃ r, persistent w KeyPendingRecovery = Some r ∧ grc_ready_ledger r ≠ 0 ∧
    sat_u32 (grc_ready_ledger r + delay_of w) <= sequence c ∧
    persistent w' KeyAdmin = Some (grc_new_admin r) ∧
    persistent w' KeyPendingRecovery = None ∧ persistent w' KeyRecoveryVeto = None ∧
    ∀ k, k ≠ KeyPendingRecovery → k ≠ KeyRecoveryVeto → k ≠ KeyAdmin → persistent w' k = persistent w k.
Proof.
  unfold execute_recovery, get_recovery_delay. intros H. step H.
  destruct (persistent w KeyPendingRecovery) as [r|] eqn:Hp; [|by step H].
  step H. step H. step H. step H. step H. step H. step H. step H. step H. subst w'. bool_hyps.
  exists r. split; [done|]. split; [done|]. split; [done|]. cbn [persistent add_event].
  split; [by read_store|]. split; [by read_store|]. split; [by read_store|].
  intros k H1 H2 H3. by rewrite !persistent_put_ne by congruence.
Qed.

Lemma recovery_closed w w' now log :
  recovery_inv w now log → persistent w' KeyPendingRecovery = None →
  (∀ k, k ≠ KeyPendingRecovery → k ≠ KeyRecoveryVeto → k ≠ KeyAdmin → persistent w' k = persistent w k) →
  recovery_inv w' now log.
Proof.
  intros (H0 & H1 & H2 & H3) Hp Hk. unfold recovery_inv, guardians_of, threshold_of, delay_of.
  rewrite !Hk by done. do 3 (split; [done|]). by rewrite Hp.
Qed.

Lemma recovery_call_inv call c w now log :
  recovery_inv w now log → now <= sequence c → recovery_call_ok call →
  recovery_inv (invoke (run_recovery_call call) c w) (sequence c) (log ++ authorised_approval call c).
Proof.
  intros IH Hnow Hok. assert (∀ l, recovery_inv w (sequence c) (log ++ l)) as Hlater.
  { intros l. eapply recovery_inv_later; [done| |done]. intros x Hx. apply elem_of_app. by left. }
  unfold invoke. destruct (run_recovery_call call c w) as [u w'|e] eqn:E; [|apply Hlater].
  destruct call as [gs t|d|g n| |]; simpl in E.
  - by eapply set_guardians_inv.
  - by eapply set_delay_inv.
  - by eapply approve_inv.
  - destruct (cancel_recovery_Ok _ _ _ _ E) as (_ & Hp & Hk). eapply recovery_closed; [apply Hlater|done|auto].
  - destruct (execute_recovery_Ok _ _ _ _ E) as (r & _ & _ & _ & _ & Hp & _ & Hk).
    eapply recovery_closed; [apply Hlater|done|auto].
Qed.

Lemma recovery_inv_start w now : (∀ k, recovery_key k → persistent w k = None) → 0 <= now → recovery_inv w now [].
Proof.
  intros Hk H0. unfold recovery_inv, guardians_of, threshold_of, delay_of.
  rewrite (Hk KeyRecoveryGuardians I), (Hk KeyRecoveryThreshold I), (Hk KeyRecoveryDelay I), (Hk KeyPendingRecovery I).
  simpl. unfold DEFAULT_RECOVERY_DELAY. split; [done|]. split; [lia|]. done.
Qed.

Lemma recovery_reach_inv w now log : recovery_reach w now log → recovery_inv w now log.
Proof.
  induction 1 as [w now Hk H0|w now log c call _ IH Hnow Hok|w w' now log _ IH Hk].
  - by apply recovery_inv_start.
  - by apply recovery_call_inv with now.
  - by eapply recovery_inv_frame.
Qed.
End Invariant.

(** ** The properties *)

(** Who stands behind an executed recovery. *)
Lemma recovery_quorum `{BP : BuildProfile} `{CR : Crypto} w now log c u w' :
  recovery_inv w now log → now <= sequence c < U32_MAX → execute_recovery c w = Ok u w' →
  ∃ n gs, persistent w' KeyAdmin = Some n ∧ persistent w' KeyPendingRecovery = None ∧
    NoDup gs ∧ gs ≠ [] ∧ Z.of_nat (length gs) = threshold_of w ∧
    ∀ g, g ∈ gs → g ∈ guardians_of w ∧ ∃ l, (g, n, l) ∈ log ∧ l + delay_of w <= sequence c.
Proof.
  intros Hreach Hnow Hex. destruct Hreach as (H0 & Hd & Ht & Hp).
  destruct (execute_recovery_Ok _ _ _ _ Hex) as (r & Hr & Hready & Hseq & Hadm & Hnone & _ & _).
  destruct (Hp r Hr) as (Hnd & Hne & Hall & Hq). destruct (Hq Hready) as (Hlen & Hle & Hquorum).
  assert (1 <= threshold_of w) as Hth.
  { apply Ht. destruct (grc_approvals r) as [|g gs] eqn:E; [done|].
    destruct (Hall g) as [Hg _]; [left|]. intros Hnil. rewrite Hnil in Hg. by apply elem_of_nil in Hg. }
  exists (grc_new_admin r), (take (Z.to_nat (threshold_of w)) (grc_approvals r)).
  assert (length (take (Z.to_nat (threshold_of w)) (grc_approvals r)) = Z.to_nat (threshold_of w)) as Hl
    by (rewrite length_take; lia).
  split; [done|]. split; [done|]. split; [eapply sublist_NoDup; [exact Hnd|apply sublist_take]|].
  split; [intros E; rewrite E in Hl; simpl in Hl; lia|]. split; [lia|]. intros g Hg. split.
  - apply elem_of_take in Hg as (i & Hi%list_elem_of_lookup_2 & _). by apply Hall.
  - destruct (Hquorum g Hg) as (l & Hin & Hl'). exists l. split; [done|].
    unfold sat_u32, clampZ in Hseq. lia.
Qed.

(** A recovery is executed only with a quorum and after the delay.  Along
    any history, when [execute_recovery] installs a new administrator there are
    as many distinct current guardians as the threshold in force, at least one,
    who each authorised exactly this candidate, all at least the whole
    cancellation delay in force before the execution; nothing is pending
    afterwards. *)
Theorem recovery_needs_quorum `{BP : BuildProfile} `{CR : Crypto} w now log c u w' :
  recovery_reach w now log → now <= sequence c < U32_MAX → execute_recovery c w = Ok u w' →
  ∃ n gs, persistent w' KeyAdmin = Some n ∧ persistent w' KeyPendingRecovery = None ∧
    NoDup gs ∧ gs ≠ [] ∧ Z.of_nat (length gs) = threshold_of w ∧
    ∀ g, g ∈ gs → g ∈ guardians_of w ∧ ∃ l, (g, n, l) ∈ log ∧ l + delay_of w <= sequence c.
Proof. intros Hr%recovery_reach_inv. by apply recovery_quorum. Qed.

Definition toy_guardian_world : World := put_persistent KeyAdmin (Some 1%N) empty_world.
Definition toy_recovery (call : RecoveryCall) (ledger : Z) (w : World) : World :=
  invoke (@run_recovery_call Wrapping toy_crypto call) (MkCtx ledger 0 (λ _, true) 0%N) w.
Definition toy_ready_world : World :=
  toy_recovery (CallApprove 3%N 9%N) 30
    (toy_recovery (CallApprove 2%N 9%N) 20
       (toy_recovery (CallSetDelay 5) 10
          (toy_recovery (CallSetGuardians [2%N; 3%N; 4%N] 2) 10 toy_guardian_world))).

Lemma toy_ready_reach :
  @recovery_reach Wrapping toy_crypto toy_ready_world 30 [(2%N, 9%N, 20); (3%N, 9%N, 30)].
Proof.
  assert (∀ call (now ledger : Z) log w, @recovery_reach Wrapping toy_crypto w now log → now <= ledger →
    recovery_call_ok call →
    @recovery_reach Wrapping toy_crypto (toy_recovery call ledger w) ledger
      (log ++ authorised_approval call (MkCtx ledger 0 (λ _, true) 0%N))) as Hcall.
  { intros call now ledger log w Hw Hl Hok. by apply (rec_call w now log (MkCtx ledger 0 (λ _, true) 0%N)). }
  apply (Hcall (CallApprove 3%N 9%N) 20 30 [(2%N, 9%N, 20)]); [|lia|exact I].
  apply (Hcall (CallApprove 2%N 9%N) 10 20 []); [|lia|exact I].
  apply (Hcall (CallSetDelay 5) 10 10 []); [|lia|cbn; lia].
  apply (Hcall (CallSetGuardians _ _) 0 10 []); [|lia|cbn; lia].
  apply rec_start; [|lia]. intros k Hk. by destruct k.
Qed.

Lemma recovery_needs_quorum_witness :
  let w' := toy_recovery CallExecute 35 toy_ready_world in
  execute_recovery (MkCtx 35 0 (λ _, true) 0%N) toy_ready_world = Ok tt w' ∧
  persistent w' KeyAdmin = Some 9%N ∧
  ∃ n (gs : list Address), persistent w' KeyAdmin = Some n ∧ NoDup gs ∧ Z.of_nat (length gs) = 2.
Proof.
  intros w'. assert (execute_recovery (MkCtx 35 0 (λ _, true) 0%N) toy_ready_world = Ok tt w') as H.
  { apply run_succeeds. vm_compute. reflexivity. }
  split; [exact H|]. split; [vm_compute; reflexivity|].
  destruct (@recovery_needs_quorum Wrapping toy_crypto _ _ _ (MkCtx 35 0 (λ _, true) 0%N) tt w' toy_ready_reach
    ltac:(cbn; unfold U32_MAX; lia) H) as (n & gs & Hn & _ & Hnd & _ & Hl & _).
  exists n, gs. split; [exact Hn|]. split; [exact Hnd|]. rewrite Hl. vm_compute. reflexivity.
Defined.

(** Anything the contract may do to a recovery short of executing it. *)
Inductive recovery_step `{BP : BuildProfile} `{CR : Crypto} : World → World → Prop :=
  | step_call c call w : call ≠ CallExecute → recovery_step w (invoke (run_recovery_call call) c w)
  | step_other w w' : (∀ k, recovery_key k → persistent w' k = persistent w k) → recovery_step w w'.

(** A ready recovery of candidate [n] that became ready at [ready], vetoed
    once before, under delay [d]. *)
Definition immune (n : Address) (ready d : Z) (w : World) : Prop :=
  (∃ r, persistent w KeyPendingRecovery = Some r ∧ grc_new_admin r = n ∧ grc_ready_ledger r = ready) ∧
  (∃ until, persistent w KeyRecoveryVeto = Some (n, until)) ∧ delay_of w = d.

Lemma recovery_step_immune `{BP : BuildProfile} `{CR : Crypto} n ready d w w' :
  ready ≠ 0 → recovery_step w w' → immune n ready d w → immune n ready d w'.
Proof.
  intros Hready [c call w0 Hc|w0 w2 Hk] ((r & Hr & Hn & Er) & (until & Hv) & Hd).
  2:{ unfold immune, delay_of in *. rewrite (Hk KeyPendingRecovery I), (Hk KeyRecoveryVeto I), (Hk KeyRecoveryDelay I).
      eauto 10. }
  unfold invoke. destruct (run_recovery_call call c w0) as [u w3|e] eqn:E; [|by unfold immune; eauto 10].
  destruct call as [gs t|delay|g m| |]; simpl in E; [| | | |done].
  - unfold set_guardians in E. do 2 step E. apply bind_Ok in E as ([] & w1 & [_ Hp]%check_unlocked_Ok & E).
    by rewrite Hr in Hp.
  - unfold set_recovery_delay in E. do 2 step E. apply bind_Ok in E as ([] & w1 & [_ Hp]%check_unlocked_Ok & E).
    by rewrite Hr in Hp.
  - destruct (approve_recovery_Ok _ _ _ _ _ _ E) as (_ & _ & Hm & _ & Hp & Hk).
    unfold approved_recovery in Hm, Hp. rewrite Hr in Hm, Hp. cbn [default id] in Hm, Hp.
    unfold immune, delay_of in *. rewrite Hp, !Hk by done. split; [|eauto]. eexists. split; [done|].
    cbn [grc_new_admin grc_ready_ledger]. split; [congruence|].
    by rewrite (proj2 (Z.eqb_neq (grc_ready_ledger r) 0)) by congruence.
  - destruct (cancel_recovery_Ok _ _ _ _ E) as ((a & r' & _ & _ & Hr' & Hnv) & _).
    rewrite Hr in Hr'. injection Hr' as <-. destruct (Hnv ltac:(congruence) until). by rewrite Hv, Hn.
Qed.

(** C31. The administrator's veto works once per candidate.  Once a recovery of a
    vetoed candidate has regained its quorum, nothing short of executing it -
    no call of the administrator, of a guardian or of the rest of the contract -
    can withdraw it, change its candidate, move its deadline or change its
    delay, and from its deadline on anyone's [execute_recovery] succeeds and
    installs the candidate. *)
Theorem vetoed_recovery_survives `{BP : BuildProfile} `{CR : Crypto} n ready d w w' c admin :
  immune n ready d w → ready ≠ 0 → rtc recovery_step w w' → persistent w' KeyAdmin = Some admin →
  sat_u32 (ready + d) <= sequence c →
  ∃ w'', execute_recovery c w' = Ok tt w'' ∧ persistent w'' KeyAdmin = Some n ∧
    persistent w'' KeyPendingRecovery = None.
Proof.
  intros Him Hready Hsteps Hadmin Hdue.
  assert (immune n ready d w') as ((r & Hr & Hn & Er) & (until & Hv) & Hd).
  { induction Hsteps as [|w1 w2 w3 Hs _ IH]; [done|]. apply IH; [|done]. by eapply recovery_step_immune. }
  assert (∃ w'', execute_recovery c w' = Ok tt w'') as [w'' Hex].
  { eexists. unfold execute_recovery, get_recovery_delay. rewrite run_bind, run_get, Hr, run_bind, Er.
    rewrite run_panic_if, (proj2 (Z.eqb_neq ready 0) Hready). cbn beta iota.
    rewrite run_bind, (run_get_bump_or_as KeyRecoveryDelay DEFAULT_RECOVERY_DELAY d) by exact Hd.
    rewrite run_bind, run_sequence, run_bind, run_panic_if, (proj2 (Z.ltb_ge _ _) Hdue). cbn beta iota.
    rewrite run_bind. unfold get_admin, get_unwrap. rewrite run_bind, run_get, Hadmin. reflexivity. }
  exists w''. destruct (execute_recovery_Ok _ _ _ _ Hex) as (r' & Hr' & _ & _ & Ha & Hp & _).
  rewrite Hr in Hr'. injection Hr' as <-. by rewrite Ha, Hn.
Qed.

Definition toy_vetoed_world : World :=
  toy_recovery (CallApprove 4%N 9%N) 42
    (toy_recovery (CallApprove 3%N 9%N) 41 (toy_recovery CallCancel 32 toy_ready_world)).

Lemma vetoed_recovery_survives_witness :
  immune 9%N 42 5 toy_vetoed_world ∧
  ∃ w'', @execute_recovery (MkCtx 47 0 (λ _, true) 0%N) (toy_recovery CallCancel 44 toy_vetoed_world) = Ok tt w'' ∧
    persistent w'' KeyAdmin = Some 9%N.
Proof.
  assert (immune 9%N 42 5 toy_vetoed_world) as Him.
  { split; [eexists; split; [vm_compute; reflexivity|split; reflexivity]|].
    split; [eexists; vm_compute; reflexivity|vm_compute; reflexivity]. }
  split; [exact Him|].
  destruct (@vetoed_recovery_survives Wrapping toy_crypto 9%N 42 5 toy_vetoed_world
    (toy_recovery CallCancel 44 toy_vetoed_world) (MkCtx 47 0 (λ _, true) 0%N) 1%N Him) as (w'' & H1 & H2 & _).
  - lia.
  - apply rtc_once. by apply (step_call (MkCtx 44 0 (λ _, true) 0%N) CallCancel).
  - vm_compute. reflexivity.
  - vm_compute. discriminate.
  - eauto.
Defined.
