(* ===== verification/DeadMan.v ===== *)
(** * [dead_man.rs]: the liveness watchdog

    Operators send heartbeats; a missing heartbeat first warns and then puts
    the contract into the degraded state, which guardians or the
    administrator end. *)
From stdpp Require Import base list strings relations.
From S2P Require Import Prelude Machine Types Host AuditLog Config Admin Frames Recovery.
#[local] Open Scope Z_scope.
#[local] Set Default Goal Selector "!".

Definition DEFAULT_TRIGGER_AFTER : Z := 604800.
Definition DEFAULT_WARN_AFTER : Z := 86400.

Definition read_config : M DeadManConfig := get_or KeyDeadManConfig (MkDeadManConfig 0 0 []).
Definition write_config (config : DeadManConfig) : M unit := put KeyDeadManConfig config.

Definition is_enabled : M bool := config ← read_config; mret (0 <? dm_trigger_after config).
Definition get_config : M DeadManConfig := read_config.

Definition is_degraded : M bool := get_or KeyDeadManDegraded false.
Definition get_state : M DeadManState :=
  degraded ← is_degraded;
  mret (if degraded : bool then DeadManDegraded else DeadManOperational).
Definition last_heartbeat : M Z := get_or KeyDeadManLastHeartbeat 0.
Definition warning_emitted : M bool := get_or KeyDeadManWarned false.

Definition configure (trigger_after warn_after : Z) (operators : list Address) : M unit :=
  admin ← get_admin;
  require_auth admin;;
  (if 0 <? trigger_after then
     panic_if (trigger_after <=? warn_after) InvalidConfiguration;;
     panic_if (bool_decide (operators = [])) InvalidConfiguration
   else mret tt);;
  write_config (MkDeadManConfig trigger_after warn_after operators).

Definition heartbeat (operator : Address) : M unit :=
  config ← read_config;
  panic_if (dm_trigger_after config =? 0) DeadManDisabled;;
  require_auth operator;;
  panic_if (bool_decide (operator ∉ dm_operators config)) NotAuthorized;;
  now ← ledger_timestamp;
  put KeyDeadManLastHeartbeat now.

Definition enter_degraded (elapsed last : Z) : M unit :=
  set KeyDeadManDegraded true;;
  now ← ledger_timestamp;
  set KeyDeadManTriggeredAt now;;
  extend_ttl KeyDeadManDegraded;;
  Flags.mark Flags.PAUSE;;
  set KeyCfgPauseFlag true;;
  config ← read_config;
  publish (MkDeadManTriggeredEvent elapsed (dm_trigger_after config) last).

Definition evaluate : M DeadManState :=
  enabled ← is_enabled;
  if negb enabled then mret DeadManOperational
  else
    degraded ← is_degraded;
    if degraded : bool then mret DeadManDegraded
    else
      config ← read_config;
      now ← ledger_timestamp;
      last ← last_heartbeat;
      let elapsed := sat_u64 (now - last) in
      warned ← warning_emitted;
      (if (0 <? dm_warn_after config) && (dm_warn_after config <=? elapsed) && negb warned then
         set KeyDeadManWarned true;;
         publish (MkDeadManWarningEvent elapsed (dm_trigger_after config) last)
       else mret tt);;
      if dm_trigger_after config <=? elapsed then
        enter_degraded elapsed last;; mret DeadManDegraded
      else mret DeadManOperational.

Definition recover (guardian : Address) : M unit :=
  require_auth guardian;;
  degraded ← is_degraded;
  panic_if (negb degraded) NotDegraded;;
  admin ← get_admin;
  guardians ← get_guardians;
  panic_if (bool_decide (guardian ≠ admin) && bool_decide (guardian ∉ guardians)) NotAuthorized;;
  remove KeyDeadManDegraded;;
  remove KeyDeadManTriggeredAt;;
  remove KeyDeadManWarned;;
  set KeyCfgPauseFlag false;;
  publish (MkDeadManRecoveredEvent guardian).

Definition check_not_degraded : M unit :=
  degraded ← is_degraded; panic_if degraded OracleDegraded.

(** ** Histories *)

Inductive DeadManCall :=
  | CallConfigure (trigger_after warn_after : Z) (operators : list Address)
  | CallHeartbeat (operator : Address)
  | CallEvaluate
  | CallRecover (guardian : Address).

Definition run_dead_man_call (call : DeadManCall) : M unit :=
  match call with
  | CallConfigure trigger_after warn_after operators => configure trigger_after warn_after operators
  | CallHeartbeat operator => heartbeat operator
  | CallEvaluate => state ← evaluate; mret tt
  | CallRecover guardian => recover guardian
  end.

(** The heartbeats a call records: when, by which operator. *)
Definition accepted_heartbeat (call : DeadManCall) (c : Ctx) (w : World) : list (Z * Address) :=
  match call with
  | CallHeartbeat operator => if succeeds (heartbeat operator) c w then [(timestamp c, operator)] else []
  | _ => []
  end.

Definition dead_man_key (k : DataKey) : Prop :=
  match k with
  | KeyDeadManConfig | KeyDeadManLastHeartbeat | KeyDeadManWarned | KeyDeadManDegraded
  | KeyDeadManTriggeredAt => True
  | _ => False
  end.

(** Every history of the watchdog at non-decreasing times, interleaved with
    the rest of the contract, with the accepted heartbeats. *)
Inductive dead_man_reach : World → Z → list (Z * Address) → Prop :=
  | dm_start w now : (∀ k, dead_man_key k → persistent w k = None) → 0 <= now → dead_man_reach w now []
  | dm_call w now beats c call :
      dead_man_reach w now beats → now <= timestamp c →
      dead_man_reach (invoke (run_dead_man_call call) c w) (timestamp c) (beats ++ accepted_heartbeat call c w)
  | dm_other w w' now beats :
      dead_man_reach w now beats → (∀ k, dead_man_key k → persistent w' k = persistent w k) →
      dead_man_reach w' now beats.

Definition config_of (w : World) : DeadManConfig := default (MkDeadManConfig 0 0 []) (persistent w KeyDeadManConfig).
Definition last_of (w : World) : Z := default 0 (persistent w KeyDeadManLastHeartbeat).
Definition degraded_of (w : World) : bool := default false (persistent w KeyDeadManDegraded).
Definition warned_of (w : World) : bool := default false (persistent w KeyDeadManWarned).

(** No accepted heartbeat is newer than the recorded one. *)
Definition beats_inv (w : World) (now : Z) (beats : list (Z * Address)) : Prop :=
  0 <= last_of w <= now ∧ ∀ t o, (t, o) ∈ beats → t <= last_of w.

Lemma run_heartbeat operator c w u w' :
  heartbeat operator c w = Ok u w' →
  0 ≠ dm_trigger_after (config_of w) ∧ authorized c operator = true ∧
  operator ∈ dm_operators (config_of w) ∧
  w' = put_persistent KeyDeadManLastHeartbeat (Some (timestamp c)) w.
Proof.
  unfold heartbeat, read_config. intros H. steps H. subst w'. bool_hyps.
  apply bool_decide_eq_false_1, dec_stable in Eg1. done.
Qed.

(** Only an operator's heartbeat writes the time of the last one. *)
Lemma dead_man_call_last call c w :
  (∀ o, call ≠ CallHeartbeat o) → last_of (invoke (run_dead_man_call call) c w) = last_of w.
Proof.
  intros Hcall. unfold invoke. destruct (run_dead_man_call call c w) as [u w'|e] eqn:E; [|done].
  unfold last_of. f_equal. revert E.
  enough (modifies (λ k, k ≠ KeyDeadManLastHeartbeat) (run_dead_man_call call)) as Hm.
  { intros E. exact (Hm _ _ _ _ E KeyDeadManLastHeartbeat (λ H, H eq_refl)). }
  destruct call; cbn [run_dead_man_call]; [|by edestruct Hcall| |].
  all: deep_frame.
Qed.

Lemma dead_man_reach_inv w now beats : dead_man_reach w now beats → beats_inv w now beats.
Proof.
  induction 1 as [w now Hk H0|w now beats c call _ [IH1 IH2] Hnow|w w' now beats _ [IH1 IH2] Hk].
  - unfold beats_inv, last_of. rewrite (Hk KeyDeadManLastHeartbeat I). split; [simpl; lia|].
    intros t o Hin. by apply elem_of_nil in Hin.
  - assert ((∃ o, call = CallHeartbeat o) ∨ ∀ o, call ≠ CallHeartbeat o) as [[o ->]|Hne]
      by (destruct call; eauto; by right).
    + cbn [run_dead_man_call accepted_heartbeat]. unfold invoke, succeeds.
      destruct (heartbeat o c w) as [u w'|e] eqn:E; rewrite ?app_nil_r; [|split; [lia|done]].
      destruct (run_heartbeat _ _ _ _ _ E) as (_ & _ & _ & ->). unfold beats_inv, last_of in *. read_store. simpl.
      split; [lia|]. intros t o' [Hin| [= -> ->]%list_elem_of_singleton]%elem_of_app; [apply IH2 in Hin|]; lia.
    + assert (accepted_heartbeat call c w = []) as -> by (destruct call; try done; by edestruct Hne).
      rewrite app_nil_r. split; rewrite dead_man_call_last by done; [lia|done].
  - unfold beats_inv, last_of in *. by rewrite (Hk KeyDeadManLastHeartbeat I).
Qed.

(** What one evaluation decides and does. *)
Definition silence (w : World) (now : Z) : Z := sat_u64 (now - last_of w).
Definition armed (w : World) : bool := (0 <? dm_trigger_after (config_of w)) && negb (degraded_of w).
Definition trips (w : World) (now : Z) : bool := armed w && (dm_trigger_after (config_of w) <=? silence w now).
Definition warns (w : World) (now : Z) : bool :=
  armed w && (0 <? dm_warn_after (config_of w)) && (dm_warn_after (config_of w) <=? silence w now) &&
  negb (warned_of w).

Definition warning (w : World) (now : Z) : Event :=
  MkDeadManWarningEvent (silence w now) (dm_trigger_after (config_of w)) (last_of w).
Definition triggered (w : World) (now : Z) : Event :=
  MkDeadManTriggeredEvent (silence w now) (dm_trigger_after (config_of w)) (last_of w).

Lemma run_enter_degraded elapsed last c w :
  ∃ w', enter_degraded elapsed last c w = Ok tt w' ∧ degraded_of w' = true ∧ warned_of w' = warned_of w ∧
    config_of w' = config_of w ∧ paused w' = true ∧
    events w' = events w ++ [of_DeadManTriggeredEvent
                               (MkDeadManTriggeredEvent elapsed (dm_trigger_after (config_of w)) last)].
Proof.
  eexists. split.
  { unfold enter_degraded, read_config.
    rewrite run_bind, run_set, run_bind, run_timestamp, run_bind, run_set, run_bind. cbv beta iota.
    rewrite (run_extend_ttl KeyDeadManDegraded true) by by read_store.
    rewrite run_bind, run_mark, run_bind, run_set, run_bind, run_get_or, run_publish. reflexivity. }
  unfold degraded_of, warned_of, config_of, paused. cbn [persistent add_event].
  assert (∀ k v w, Flags.is_on (add_event k (put_persistent KeyCfgPauseFlag v w)) Flags.PAUSE = Flags.is_on w Flags.PAUSE)
    as -> by done.
  rewrite is_on_marked, orb_true_r. repeat split; by read_store.
Qed.

Lemma evaluate_spec c w :
  let now := timestamp c in
  ∃ w', evaluate c w = Ok (if (0 <? dm_trigger_after (config_of w)) && (degraded_of w || trips w now)
                           then DeadManDegraded else DeadManOperational) w' ∧
    degraded_of w' = degraded_of w || trips w now ∧
    warned_of w' = warned_of w || warns w now ∧
    config_of w' = config_of w ∧
    (trips w now = true → paused w' = true) ∧
    events w' = events w ++
      (if warns w now then [warning w now] else []) ++
      (if trips w now then [triggered w now] else []).
Proof.
  intros now. unfold evaluate, is_enabled, read_config, is_degraded, last_heartbeat, warning_emitted, warns, trips, armed.
  rewrite run_assoc, run_bind, run_get_or, run_bind, run_ret.
  change (default _ (persistent w KeyDeadManConfig)) with (config_of w). cbv beta iota.
  destruct (0 <? dm_trigger_after (config_of w)); cbn [negb andb].
  2:{ eexists. split; [done|]. rewrite !orb_false_r, !app_nil_r. done. }
  rewrite run_bind, run_get_or. change (default _ (persistent w KeyDeadManDegraded)) with (degraded_of w). cbv beta iota.
  destruct (degraded_of w) eqn:Ed; cbn [negb andb].
  1:{ eexists. split; [done|]. rewrite !orb_false_r, !app_nil_r. done. }
  rewrite run_bind, run_get_or, run_bind, run_timestamp, run_bind, run_get_or, run_bind, run_get_or, run_bind.
  change (default _ (persistent w KeyDeadManConfig)) with (config_of w).
  change (default _ (persistent w KeyDeadManLastHeartbeat)) with (last_of w).
  change (default _ (persistent w KeyDeadManWarned)) with (warned_of w). cbv beta iota.
  fold now. change (sat_u64 (now - last_of w)) with (silence w now).
  set (warn := (0 <? _) && _ && _).
  set (w1 := if warn then add_event (MkDeadManWarningEvent (silence w now) (dm_trigger_after (config_of w)) (last_of w))
     (put_persistent KeyDeadManWarned (Some (true : interp (ty_of KeyDeadManWarned))) w) else w).
  match goal with |- context [match ?m c w with _ => _ end] => assert (m c w = Ok tt w1) as -> by (unfold w1; by destruct warn) end.
  assert (degraded_of w1 = false ∧ warned_of w1 = warned_of w || warn ∧ config_of w1 = config_of w ∧
    events w1 = events w ++ (if warn then [warning w now] else [])) as (Hd & Hw & Hc & He).
  { unfold w1, degraded_of, warned_of, config_of in *. destruct warn; rewrite ?orb_true_r, ?orb_false_r, ?app_nil_r;
      cbn [persistent add_event]; repeat split; by read_store. }
  destruct (dm_trigger_after (config_of w) <=? silence w now).
  - rewrite run_bind. destruct (run_enter_degraded (silence w now) (last_of w) c w1) as (w2 & -> & E1 & E2 & E3 & E4 & E5).
    exists w2. split; [done|]. split; [done|]. split; [congruence|]. split; [congruence|]. split; [done|].
    rewrite E5, He, <- app_assoc, Hc. done.
  - exists w1. split; [done|]. split; [done|]. split; [congruence|]. split; [congruence|]. split; [done|].
    by rewrite app_nil_r.
Qed.

(** The watchdog trips exactly on silence.  In every reachable state an
    evaluation succeeds; it enters the degraded state exactly when the switch is
    enabled and [trigger_after] seconds passed since the last heartbeat, then
    every heartbeat an operator ever sent is at least that old, the contract is
    paused and the trigger event is published; otherwise the degraded state is
    as before. *)
Theorem trips_on_silence w now beats c :
  dead_man_reach w now beats → now <= timestamp c <= U64_MAX →
  ∃ state w', evaluate c w = Ok state w' ∧
    degraded_of w' = degraded_of w || trips w (timestamp c) ∧
    (trips w (timestamp c) = true ↔ degraded_of w = false ∧
       0 < dm_trigger_after (config_of w) <= timestamp c - last_of w) ∧
    (trips w (timestamp c) = true →
       (∀ t o, (t, o) ∈ beats → t + dm_trigger_after (config_of w) <= timestamp c) ∧
       paused w' = true ∧ triggered w (timestamp c) ∈ events w').
Proof.
  intros [Hlast Hbeats]%dead_man_reach_inv Hnow.
  destruct (evaluate_spec c w) as (w' & E & Ed & _ & _ & Ep & Ee).
  assert (trips w (timestamp c) = true ↔ degraded_of w = false ∧
       0 < dm_trigger_after (config_of w) <= timestamp c - last_of w) as Htrips.
  { unfold trips, armed, silence, sat_u64, clampZ. rewrite !andb_true_iff, negb_true_iff, Z.ltb_lt, Z.leb_le.
    split; [intros [[H1 H2] H3]|intros [H1 H2]]; (split; [done|lia] || (split; [split; [lia|done]|lia])). }
  do 2 eexists. split; [exact E|]. split; [done|]. split; [done|]. intros Ht. split; [|split; [by apply Ep|]].
  - apply Htrips in Ht as [_ Ht]. intros t o Hin%Hbeats. lia.
  - rewrite Ee, Ht, !elem_of_app, list_elem_of_singleton. by right; right.
Qed.

(** Anything but [recover]. *)
Inductive dead_man_step : World → World → Prop :=
  | dms_call c call w : (∀ g, call ≠ CallRecover g) → dead_man_step w (invoke (run_dead_man_call call) c w)
  | dms_other w w' : (∀ k, dead_man_key k → persistent w' k = persistent w k) → dead_man_step w w'.

Lemma dead_man_step_warned w w' : dead_man_step w w' → warned_of w = true → warned_of w' = true.
Proof.
  intros [c call w0 Hcall|w0 w1 Hk] Hw; [|unfold warned_of in *; by rewrite (Hk KeyDeadManWarned I)].
  unfold invoke. destruct (run_dead_man_call call c w0) as [u w1|e] eqn:E; [|done].
  destruct call as [t wa ops|o| |g]; cbn [run_dead_man_call] in E; [| | |by edestruct Hcall].
  - assert (modifies (λ k, k = KeyDeadManConfig) (configure t wa ops)) as Hm by deep_frame.
    unfold warned_of in *. by rewrite (Hm _ _ _ _ E KeyDeadManWarned ltac:(done)).
  - apply run_heartbeat in E as (_ & _ & _ & ->). unfold warned_of in *. by read_store.
  - destruct (evaluate_spec c w0) as (w2 & E2 & _ & Ew & _). rewrite run_bind, E2 in E. injection E as _ <-.
    by rewrite Ew, Hw.
Qed.

(** Only the first lapse is announced.  The flag that says the warning was
    published is cleared by a recovery, never by a heartbeat: once warned, after
    any calls but [recover] - heartbeats included - the next lapse goes straight
    to the trip, which publishes the trigger event and nothing before it. *)
Theorem later_lapse_unwarned w w' c :
  warned_of w = true → rtc dead_man_step w w' → trips w' (timestamp c) = true →
  ∃ w'', evaluate c w' = Ok DeadManDegraded w'' ∧ events w'' = events w' ++ [triggered w' (timestamp c)].
Proof.
  intros Hw Hsteps Ht.
  assert (warned_of w' = true) as Hw'.
  { induction Hsteps as [|w1 w2 w3 Hs _ IH]; [done|]. apply IH; [|done]. by eapply dead_man_step_warned. }
  destruct (evaluate_spec c w') as (w'' & E & _ & _ & _ & _ & Ee). exists w''.
  assert (warns w' (timestamp c) = false) as Hwarns by (unfold warns; rewrite Hw'; apply andb_false_r).
  rewrite Hwarns, Ht in Ee. rewrite Ht, orb_true_r, andb_true_r in E.
  assert (0 <? dm_trigger_after (config_of w') = true) as Hen.
  { unfold trips, armed in Ht. by apply andb_true_iff in Ht as [[Ht _]%andb_true_iff _]. }
  by rewrite Hen in E.
Qed.

Definition toy_watch (call : DeadManCall) (time : Z) (w : World) : World :=
  invoke (run_dead_man_call call) (MkCtx 1 time (λ _, true) 0%N) w.
Definition toy_watched : World :=
  toy_watch (CallHeartbeat 5%N) 1000 (toy_watch (CallConfigure 100 40 [5%N]) 1000
    (put_persistent KeyAdmin (Some 1%N) empty_world)).

Lemma trips_on_silence_witness :
  trips toy_watched 1100 = true ∧
  ∃ state w', evaluate (MkCtx 1 1100 (λ _, true) 0%N) toy_watched = Ok state w' ∧ paused w' = true.
Proof.
  split; [vm_compute; reflexivity|].
  edestruct (trips_on_silence toy_watched 1000) with (c := MkCtx 1 1100 (λ _, true) 0%N)
    as (s & w' & E & _ & _ & Ht).
  - eapply (dm_call _ 1000 _ (MkCtx 1 1000 (λ _, true) 0%N) (CallHeartbeat 5%N)); [|by vm_compute].
    eapply (dm_call _ 0 [] (MkCtx 1 1000 (λ _, true) 0%N) (CallConfigure 100 40 [5%N])); [|by vm_compute].
    apply dm_start; [|lia]. by intros [].
  - by vm_compute.
  - exists s, w'. split; [exact E|]. apply Ht. by vm_compute.
Defined.

Definition toy_warned : World := toy_watch CallEvaluate 1050 toy_watched.

Lemma later_lapse_unwarned_witness :
  warned_of toy_warned = true ∧
  ∃ w'', evaluate (MkCtx 1 5000 (λ _, true) 0%N) (toy_watch (CallHeartbeat 5%N) 1060 toy_warned) =
           Ok DeadManDegraded w'' ∧
         length (events w'') = S (length (events toy_warned)).
Proof.
  split; [vm_compute; reflexivity|].
  destruct (later_lapse_unwarned toy_warned (toy_watch (CallHeartbeat 5%N) 1060 toy_warned)
    (MkCtx 1 5000 (λ _, true) 0%N)) as (w'' & E & Ee).
  - vm_compute. reflexivity.
  - apply rtc_once. by apply (dms_call (MkCtx 1 1060 (λ _, true) 0%N) (CallHeartbeat 5%N)).
  - vm_compute. reflexivity.
  - exists w''. split; [exact E|]. rewrite Ee. vm_compute. reflexivity.
Defined.
