(* ===== verification/InputValidation.v ===== *)
(** * [input_validation.rs]: the canonical form of untrusted text

    The tables of length caps and the validators that entry points run on
    their string, byte and list arguments.  Strings are sequences of bytes. *)
From stdpp Require Import base list strings.
From Stdlib Require Import Ascii.
From S2P Require Import Prelude Machine Types Host.
#[local] Open Scope string_scope.
#[local] Open Scope list_scope.
#[local] Open Scope Z_scope.
#[local] Set Default Goal Selector "!".

Definition STRING_PARAMS : list (string * string * Z * bool) := [
  ("initialize", "description", 256, true);
  ("set_description", "new_description", 256, true);
  ("emergency_pause", "reason", 256, false);
  ("freeze_price", "reason", 256, false);
  ("override_price", "reason", 256, false);
  ("correct_price", "reason", 256, false);
  ("add_source", "name", 64, false);
  ("add_source_with_assets", "name", 64, false);
  ("propose_source", "name", 64, false);
  ("enroll_source", "name", 64, false);
  ("onboard_source", "name", 64, false);
  ("submit_source_evidence", "identity_evidence", 256, true);
  ("submit_source_evidence", "endpoint_ownership_evidence", 256, true);
  ("submit_source_evidence", "operational_contact", 256, true);
  ("submit_source_evidence", "reliability_evidence", 256, true);
  ("declare_depeg", "reason", 256, false);
  ("set_asset_risk_tier", "reason", 256, false);
  ("set_notification_preference", "channel", 256, false);
  ("set_notification_preference", "target", 256, false);
  ("set_source_verification", "verification_method", 64, false);
  ("set_source_diversity", "infra", 64, false);
  ("set_source_diversity", "upstream", 64, false);
  ("set_source_diversity", "owner", 64, false);
  ("create_operation", "op_id", 64, false);
  ("create_operation", "depends_on", 64, false);
  ("execute_dependent_operation", "op_id", 64, false);
  ("cancel_dependent_operation", "op_id", 64, false);
  ("get_operation_dependencies", "op_id", 64, false);
  ("get_operation_status", "op_id", 64, false);
  ("allow_governor_op", "operation", 64, false);
  ("disallow_governor_op", "operation", 64, false);
  ("is_governor_op_allowed", "operation", 64, false);
  ("set_lz_chain_name", "chain", 32, false);
  ("register_foreign_asset_mapping", "chain", 32, false);
  ("update_foreign_asset_mapping", "chain", 32, false);
  ("remove_foreign_asset_mapping", "chain", 32, false);
  ("get_foreign_asset_mapping", "chain", 32, false);
  ("submit_cross_chain_price", "chain_id", 32, false);
  ("set_axelar_trusted_source", "source_chain", 32, false);
  ("remove_axelar_trusted_source", "source_chain", 32, false);
  ("execute_axelar_message", "source_chain", 32, false);
  ("set_axelar_trusted_source", "source_address", 128, false);
  ("remove_axelar_trusted_source", "source_address", 128, false);
  ("execute_axelar_message", "source_address", 128, false);
  ("did_register", "document", 4096, false);
  ("add_relayer", "name", 64, false)
].

Definition BYTES_PARAMS : list (string * string * Z) := [
  ("challenge_price", "proof_data", 1024);
  ("challenge_relayed_submission", "proof_data", 1024);
  ("propose_operation", "data", 4096);
  ("propose_operation_with_priority", "data", 4096);
  ("ms_propose_operation", "data", 4096);
  ("reveal_price", "salt", 64);
  ("reveal_prices_batch", "reveals", 64);
  ("vdf_verify_proof", "proof", 1024);
  ("vdf_sample_sources", "proof", 1024);
  ("execute_axelar_message", "payload", 4096);
  ("lz_receive", "message", 4096);
  ("submit_price_merkle", "data", 4096)
].

Definition MAX_BASKET_CONSTITUENTS : Z := 32.

Definition LIST_PARAMS : list (string * string * Z) := [
  ("zk_submit_price", "public_signals", 64);
  ("relay_verify_validator_set", "validators", 128);
  ("relay_verify_validator_set", "signatures", 128);
  ("relay_verify_event_proof", "proof", 128);
  ("submit_price_merkle", "proofs", 64);
  ("simulate_aggregation", "hypothetical_prices", 128);
  ("dead_man_configure", "operators", 32);
  ("rebalance_basket", "weights", MAX_BASKET_CONSTITUENTS);
  ("add_source_with_assets", "assets", 128);
  ("set_source_governance", "approvers", 32);
  ("ms_set_governors", "governors", 32);
  ("recovery_set_guardians", "guardians", 32);
  ("remove_sources", "sources", 128);
  ("propose_batch", "operations", 32);
  ("simulate_batch", "operations", 32);
  ("sc_submit_batch", "batch", 32);
  ("sc_dispute_channel", "last_known_batch", 32);
  ("submit_prices", "asset_prices", 64);
  ("submit_prices_relayed", "submissions", 64);
  ("get_storage_batch", "requests", 64)
].

Definition MAX_DEPENDENCY_COUNT : Z := 32.
Definition SCRATCH : nat := 8192.

Definition cap_for (endpoint parameter : string) : option Z :=
  row ← List.find (λ '(e, p, _, _), String.eqb e endpoint && String.eqb p parameter) STRING_PARAMS;
  let '(_, _, cap, _) := (row : string * string * Z * bool) in Some cap.

Definition allows_empty (endpoint parameter : string) : bool :=
  match List.find (λ '(e, p, _, _), String.eqb e endpoint && String.eqb p parameter) STRING_PARAMS with
  | Some (_, _, _, empty) => empty
  | None => false
  end.

Definition bytes_cap_for (endpoint parameter : string) : option Z :=
  row ← List.find (λ '(e, p, _), String.eqb e endpoint && String.eqb p parameter) BYTES_PARAMS;
  let '(_, _, cap) := (row : string * string * Z) in Some cap.

Definition list_cap_for (endpoint parameter : string) : option Z :=
  row ← List.find (λ '(e, p, _), String.eqb e endpoint && String.eqb p parameter) LIST_PARAMS;
  let '(_, _, cap) := (row : string * string * Z) in Some cap.

Definition is_canonical_ascii (bytes : list ascii) : bool :=
  forallb (λ b, (32 <=? Z.of_nat (nat_of_ascii b)) && (Z.of_nat (nat_of_ascii b) <=? 126)) bytes.

(** A leading or trailing [b" "]. *)
Definition starts_with_space (bytes : list ascii) : bool :=
  match bytes with b :: _ => Ascii.eqb b " " | [] => false end.
Definition ends_with_space (bytes : list ascii) : bool := starts_with_space (rev bytes).

Definition is_canonical_text (bytes : list ascii) : bool :=
  is_canonical_ascii bytes && negb (starts_with_space bytes) && negb (ends_with_space bytes).

Definition to_bytes (value : string) : list ascii := take SCRATCH (String.list_ascii_of_string value).

Definition validate_list_len (endpoint parameter : string) (len : Z) : M unit :=
  match list_cap_for endpoint parameter with
  | None => panic_with_error InvalidTextContent
  | Some cap => panic_if (cap <? len) PayloadTooLarge
  end.

Definition validate_string (endpoint parameter value : string) : M unit :=
  match cap_for endpoint parameter with
  | None => panic_with_error InvalidTextContent
  | Some cap =>
      let len := Z.of_nat (String.length value) in
      panic_if (cap <? len) TextTooLong;;
      panic_if (negb (is_canonical_text (to_bytes value))) InvalidTextContent;;
      panic_if ((len =? 0) && negb (allows_empty endpoint parameter)) InvalidTextContent
  end.

Definition validate_bytes (endpoint parameter : string) (value : Bytes) : M unit :=
  match bytes_cap_for endpoint parameter with
  | None => panic_with_error InvalidTextContent
  | Some cap => panic_if (cap <? Z.of_nat (length value)) PayloadTooLarge
  end.

Definition validate_string_vec (endpoint parameter : string) (values : list string) : M unit :=
  panic_if (MAX_DEPENDENCY_COUNT <? Z.of_nat (length values)) TextTooLong;;
  for_each values (validate_string endpoint parameter).

(** ** What passes *)

(** Canonical text: printable, without padding. *)
Definition canonical (value : string) : Prop :=
  (∀ b, b ∈ String.list_ascii_of_string value → 32 <= Z.of_nat (nat_of_ascii b) <= 126) ∧
  (∀ l, String.list_ascii_of_string value ≠ " "%char :: l) ∧ (∀ l, String.list_ascii_of_string value ≠ l ++ [" "%char]).

(** No cap exceeds the buffer, so every byte of an accepted value is examined. *)
Lemma caps_fit endpoint parameter cap : cap_for endpoint parameter = Some cap → cap <= Z.of_nat SCRATCH.
Proof.
  unfold cap_for. destruct (List.find _ STRING_PARAMS) as [[[[e p] k] b]|] eqn:E; [|done].
  intros [= <-]. apply find_some in E as [E _].
  assert (Forall (λ r : string * string * Z * bool, let '(_, _, k, _) := r in k <= Z.of_nat SCRATCH) STRING_PARAMS) as H.
  { repeat constructor; by vm_compute. }
  rewrite List.Forall_forall in H. by apply (H _ E).
Qed.

Lemma length_list_ascii value : length (String.list_ascii_of_string value) = String.length value.
Proof. induction value; simpl; congruence. Qed.

Lemma canonical_text_iff value :
  (String.length value <= SCRATCH)%nat → is_canonical_text (to_bytes value) = true ↔ canonical value.
Proof.
  intros Hlen. unfold to_bytes, canonical, is_canonical_text, ends_with_space.
  rewrite take_ge by (by rewrite length_list_ascii). set (l := String.list_ascii_of_string value).
  rewrite !andb_true_iff, !negb_true_iff. unfold is_canonical_ascii. rewrite forallb_forall.
  assert (∀ b, Ascii.eqb b " " = false ↔ b ≠ " "%char) as Hsp by (intros b; by rewrite Ascii.eqb_neq).
  split.
  - intros [[H1 H2] H3]. split; [|split].
    + intros b Hb. specialize (H1 b ltac:(by apply list_elem_of_In)). bool_hyps. lia.
    + intros l' ->. done.
    + intros l' ->. rewrite rev_app_distr in H3. done.
  - intros (H1 & H2 & H3). split; [split|].
    + intros b Hb. specialize (H1 b ltac:(by apply list_elem_of_In)). apply andb_true_iff. rewrite !Z.leb_le. lia.
    + destruct l as [|b l']; [done|]. simpl. apply Hsp. intros ->. by apply (H2 l').
    + destruct (rev l) as [|b l'] eqn:E; [done|]. simpl. apply Hsp. intros ->. apply (H3 (rev l')).
      rewrite <- (rev_involutive l), E. done.
Qed.

(** A classified text parameter is accepted exactly when it is within its cap,
    canonical, and not empty unless the table allows it; an unclassified one is
    always refused.  Validation changes nothing. *)
Theorem validate_string_exact endpoint parameter value c w :
  (cap_for endpoint parameter = None → validate_string endpoint parameter value c w = Err (Error InvalidTextContent)) ∧
  ∀ cap, cap_for endpoint parameter = Some cap →
    (validate_string endpoint parameter value c w = Ok tt w ↔
       Z.of_nat (String.length value) <= cap ∧ canonical value ∧
       (value = "" → allows_empty endpoint parameter = true)).
Proof.
  unfold validate_string. split; [by intros ->|]. intros cap Hcap. rewrite Hcap.
  pose proof (caps_fit _ _ _ Hcap) as Hfit. rewrite run_bind, run_panic_if.
  destruct (Z.ltb_spec cap (Z.of_nat (String.length value))) as [Hlt|Hle]; [split; [done|lia]|].
  rewrite run_bind, run_panic_if.
  assert (String.length value <= SCRATCH)%nat as Hs by lia. rewrite <- (canonical_text_iff value Hs).
  assert ((Z.of_nat (String.length value) =? 0) = true ↔ value = "") as Hempty.
  { rewrite Z.eqb_eq. destruct value; [done|]. cbn [String.length]. split; [lia|done]. }
  destruct (is_canonical_text (to_bytes value)); cbn [negb]; [|split; [done|by intros (_ & ? & _)]].
  rewrite run_panic_if.
  destruct (_ =? 0); cbn [andb]; [|split; [|done]; intros _; split; [done|]; split; [done|]; intros H%Hempty; done].
  destruct (allows_empty endpoint parameter); cbn [negb]; [by split|].
  split; [done|]. intros (_ & _ & H). by discriminate H; apply Hempty.
Qed.
