(* ===== verification/Sources.v ===== *)
(** * [sources.rs], [source_lifecycle.rs]: the registry of sources

    Registration, removal and key rotation, heartbeats and health, pruning,
    demerits, governed admission, bonds, enrollment, geography and reputation, and the
    life of a source from onboarding to offboarding.
    The guards a submission meets are in [SourceGuards.v]. *)
From stdpp Require Import base list gmap strings.
From S2P Require Import Prelude Machine Types Host AuditLog Config Admin Assets Frames SourceLifecycle SourceGuards.
From S2P Require Import InputValidation FreshnessWeight Provenance PriceCallback Aggregation.
#[local] Open Scope Z_scope.
#[local] Set Default Goal Selector "!".

(** The token contract that holds the bonds: whether it accepts a transfer in
    a context and a state.  What an accepted transfer does there is recorded as
    a [TokenTransfer]. *)
Class Token := { token_accepts : Ctx → World → Address → Address → Address → Z → bool }.

Definition try_transfer `{Token} (token from to : Address) (amount : Z) : M bool := λ c w,
  if token_accepts c w token from to amount
  then Ok true (add_event (TokenTransfer token from to amount) w) else Ok false w.

Definition transfer `{Token} (token from to : Address) (amount : Z) : M unit :=
  accepted ← try_transfer token from to amount; if accepted : bool then mret tt else panic.

(** [reputation::get_stake_token_contract] *)
Definition get_stake_token_contract : M (option Address) := get KeyStakeTokenContract.

Definition MAX_SOURCE_NAME_LENGTH : Z := 64.
Definition SOURCE_ROTATION_COOLDOWN : Z := 100.
Definition DEFAULT_REMOVAL_COOLDOWN : Z := 100.
Definition DEFAULT_DECAY_FACTOR : Z := 10.
Definition INITIAL_REPUTATION : Z := 50.
Definition DEFAULT_MAX_INACTIVE_LEDGERS : Z := 64.
Definition DEFAULT_HEARTBEAT_WINDOW : Z := 10.
Definition MISS_THRESHOLD : Z := 3.

Definition check_source_inactive (source : Address) : M bool := Config.is_source_inactive source.

(** ** The registry value *)

Definition without (source : Address) (sources : list Address) : list Address :=
  filter (λ s, s ≠ source) sources.

(** The first entry of the list that is [source], replaced. *)
Fixpoint replace_first (source new_address : Address) (sources : list Address) : list Address :=
  match sources with
  | [] => []
  | s :: sources =>
      if bool_decide (s = source) then new_address :: sources
      else s :: replace_first source new_address sources
  end.

Definition rotate_registry (source new_address : Address) (r : OracleSources) : OracleSources :=
  let metadata :=
    match os_metadata r !! source with
    | Some name => <[new_address := name]> (delete source (os_metadata r))
    | None => os_metadata r
    end in
  let verification :=
    match os_verification r !! source with
    | Some v => <[new_address := v]> (delete source (os_verification r))
    | None => os_verification r
    end in
  MkOracleSources (replace_first source new_address (os_sources r)) metadata verification.

Section Registry.
Context `{BP : BuildProfile} `{CR : Crypto}.

Definition register_source_internal (source : Address) (name : string) : M unit :=
  SourceLifecycle.check_not_revoked source;;
  panic_if (bool_decide (name = "")) SourceNameEmpty;;
  panic_if (MAX_SOURCE_NAME_LENGTH <? Z.of_nat (String.length name)) SourceNameTooLong;;
  exists_ ← has (KeySrcActive source);
  panic_if exists_ SourceAlreadyExists;;
  oracle_sources ← read_oracle_sources;
  max_sources ← get_max_sources;
  panic_if ((0 <? max_sources) && (max_sources <=? Z.of_nat (length (os_sources oracle_sources))))
    MaxSourcesReached;;
  set (KeySrcActive source) true;;
  set KeySrcRegistry
    (MkOracleSources (os_sources oracle_sources ++ [source])
       (<[source := name]> (os_metadata oracle_sources)) (os_verification oracle_sources));;
  admin ← get_admin;
  publish (MkSourceAddedEvent source admin name).

Definition get_source_governance : M (option SourceGovernance) := get KeySourceGovConfig.

Definition add_source (source : Address) (name : string) : M unit :=
  admin ← get_admin;
  require_auth admin;;
  gov ← get_source_governance;
  (match gov with
   | Some gov => panic_if (0 <? sg_threshold gov) NotAuthorized
   | None => mret tt
   end);;
  register_source_internal source name;;
  emit_admin_action "add_src" admin [].

Definition add_source_with_assets (source : Address) (name : string) (assets : list Address) : M unit :=
  admin ← get_admin;
  require_auth admin;;
  for_each assets check_registered_asset;;
  register_source_internal source name;;
  Flags.mark Flags.SOURCE_ASSETS;;
  set (KeySourceAssets source) assets;;
  for_each assets (λ asset, publish (MkSourceAssetAddedEvent source asset));;
  emit_admin_action "add_srca" admin [].

Definition is_source (source : Address) : M bool :=
  exists_ ← get_or (KeySrcActive source) false;
  (if exists_ : bool then extend_ttl (KeySrcActive source) else mret tt);;
  mret exists_.

Definition get_oracle_sources : M OracleSources := read_oracle_sources.

Definition get_source_assets (source : Address) : M (list Address) :=
  registered ← is_source source;
  panic_if (negb registered) SourceNotFound;;
  get_bump_or (KeySourceAssets source) [].

Definition add_source_asset (source asset : Address) : M unit :=
  admin ← get_admin;
  require_auth admin;;
  registered ← is_source source;
  panic_if (negb registered) SourceNotFound;;
  check_registered_asset asset;;
  assets ← get_or (KeySourceAssets source) [];
  (if bool_decide (asset ∈ (assets : list Address)) then mret tt
   else
     Flags.mark Flags.SOURCE_ASSETS;;
     set (KeySourceAssets source) ((assets : list Address) ++ [asset]);;
     publish (MkSourceAssetAddedEvent source asset));;
  emit_admin_action "add_sass" admin [].

Definition set_source_verification (source : Address) (verified : bool) (verification_method : string)
    (verifier : Address) : M unit :=
  admin ← get_admin;
  require_auth admin;;
  validate_string "set_source_verification" "verification_method" verification_method;;
  registered ← is_source source;
  panic_if (negb registered) SourceNotFound;;
  let verification := MkSourceVerification verified verification_method verifier in
  set (KeySourceVerification source) verification;;
  oracle_sources ← read_oracle_sources;
  set KeySrcRegistry
    (MkOracleSources (os_sources oracle_sources) (os_metadata oracle_sources)
       (<[source := verification]> (os_verification oracle_sources)));;
  publish (MkSourceVerificationSetEvent source verified verification_method verifier);;
  emit_admin_action "set_ver" admin [].

Definition get_source_verification (source : Address) : M (option SourceVerification) :=
  get_touch (KeySourceVerification source).

(** *** Key rotation *)

Definition move_submission (source new_address asset : Address) : M unit :=
  entry ← get (KeySubmission asset source);
  match entry with
  | None => mret tt
  | Some e =>
      remove (KeySubmission asset source);;
      set (KeySubmission asset new_address)
        (MkPriceEntry (pe_price e) (pe_timestamp e) new_address (pe_decimals e) (pe_last_updated e)
           (pe_ledger_timestamp e) (pe_volume e))
  end.

Definition rotate_source_key (source new_address : Address) : M unit :=
  require_auth source;;
  require_auth new_address;;
  registered ← is_source source;
  panic_if (negb registered) SourceNotFound;;
  taken ← is_source new_address;
  panic_if taken SourceAlreadyExists;;
  SourceLifecycle.check_not_revoked new_address;;
  SourceLifecycle.on_key_rotated source new_address;;
  current_ledger ← ledger_sequence;
  last_rotation ← get_or (KeySourceRotationLedger source) 0;
  panic_if ((0 <? last_rotation) && (sat_u32 (current_ledger - last_rotation) <? SOURCE_ROTATION_COOLDOWN))
    CooldownNotElapsed;;
  remove (KeySrcActive source);;
  set (KeySrcActive new_address) true;;
  oracle_sources ← read_oracle_sources;
  (match os_verification oracle_sources !! source with
   | Some verification =>
       remove (KeySourceVerification source);; set (KeySourceVerification new_address) verification
   | None => mret tt
   end);;
  set KeySrcRegistry (rotate_registry source new_address oracle_sources);;
  assets ← get (KeySourceAssets source);
  (match assets with
   | Some assets => remove (KeySourceAssets source);; set (KeySourceAssets new_address) assets
   | None => mret tt
   end);;
  registered_assets ← read_registered_assets;
  for_each registered_assets (move_submission source new_address);;
  set (KeySourceRotationLedger new_address) current_ledger;;
  publish (MkSourceKeyRotatedEvent source new_address current_ledger).
End Registry.

(** ** Heartbeats and health *)

Definition set_max_inactive_ledgers (ledgers : Z) : M unit :=
  admin ← get_admin;
  require_auth admin;;
  panic_if (ledgers =? 0) InvalidConfiguration;;
  set KeyCfgMaxInactiveLedgers ledgers;;
  publish (MkInactiveLedgersChangedEvent ledgers).
Definition get_max_inactive_ledgers : M Z := get_or KeyCfgMaxInactiveLedgers DEFAULT_MAX_INACTIVE_LEDGERS.

Definition set_heartbeat_window (window : Z) : M unit :=
  admin ← get_admin;
  require_auth admin;;
  panic_if (window =? 0) InvalidConfiguration;;
  set KeyCfgHeartbeatWindow window;;
  publish (MkHeartbeatWindowChangedEvent window).
Definition get_heartbeat_window : M Z := get_or KeyCfgHeartbeatWindow DEFAULT_HEARTBEAT_WINDOW.

Definition compute_adaptive_interval (base_interval missed window : Z) : Z :=
  let window := if window =? 0 then 1 else window in
  let numerator := sat_u64 (window + missed) in
  let multiplier := Z.min (numerator / window) 3 in
  let multiplier := if multiplier =? 0 then 1 else multiplier in
  sat_u64 (base_interval * multiplier).

Definition get_missed_heartbeats (source : Address) : M Z := get_or (KeySrcMissedHeartbeats source) 0.

Definition increment_missed_heartbeats (source : Address) : M Z :=
  missed ← get_missed_heartbeats source;
  let count := sat_u32 (missed + 1) in
  set (KeySrcMissedHeartbeats source) count;;
  mret count.

Definition reset_missed_heartbeats (source : Address) : M unit := remove (KeySrcMissedHeartbeats source).

Definition get_source_health (source : Address) : M SourceHealthStatus :=
  registered ← has (KeySrcActive source);
  if negb registered then mret HealthAutoRemoved
  else
    inactive ← check_source_inactive source;
    if inactive : bool then mret HealthInactive
    else
      missed ← get_missed_heartbeats source;
      mret (if MISS_THRESHOLD <=? missed then HealthInactive
            else if 0 <? missed then HealthDegraded else HealthHealthy).

Definition submit_heartbeat (source : Address) : M unit :=
  require_auth source;;
  registered ← is_source source;
  panic_if (negb registered) SourceNotFound;;
  now ← ledger_timestamp;
  current_ledger ← ledger_sequence;
  old_health ← get_source_health source;
  let old_status := SourceHealthStatus_as_u32 old_health in
  set (KeySrcHeartbeat source) now;;
  was_inactive ← check_source_inactive source;
  (if was_inactive : bool then
     has_price ← get_or (KeySrcPriceSubmitAfterReactivation source) false;
     if has_price : bool then
       mark_source_active source;;
       reset_missed_heartbeats source;;
       remove (KeySrcPriceSubmitAfterReactivation source);;
       remove (KeySrcInactiveSinceLedger source);;
       publish (MkSourceHealthChangedEvent source old_status 0 0);;
       publish (MkSourceActiveAgainEvent source now)
     else mret tt
   else
     reset_missed_heartbeats source;;
     new_health ← get_source_health source;
     let new_status := SourceHealthStatus_as_u32 new_health in
     if negb (old_status =? new_status)
     then publish (MkSourceHealthChangedEvent source old_status new_status 0) else mret tt);;
  set (KeySrcLastPriceLedger source) current_ledger;;
  publish (MkSourceHeartbeatEvent source now).

Section Heartbeats.
Context `{BP : BuildProfile} `{CR : Crypto} `{US : UnstableSort} `{XD : Xdr} `{CB : Callbacks}.

(** The first ledger of an inactivity is kept. *)
Definition note_inactive_since (source : Address) : M unit :=
  current_ledger ← ledger_sequence;
  known ← has (KeySrcInactiveSinceLedger source);
  if known : bool then mret tt else set (KeySrcInactiveSinceLedger source) current_ledger.

Definition is_source_inactive (source : Address) : M bool :=
  is_marked ← check_source_inactive source;
  if is_marked : bool then mret true
  else
    last_heartbeat ← get (KeySrcHeartbeat source);
    base_interval ← get_heartbeat_interval;
    current_time ← ledger_timestamp;
    window ← get_heartbeat_window;
    match last_heartbeat with
    | Some hb_time =>
        missed ← get_missed_heartbeats source;
        if sat_u64 (hb_time + compute_adaptive_interval base_interval missed window) <? current_time then
          new_missed ← increment_missed_heartbeats source;
          if MISS_THRESHOLD <=? new_missed then
            mark_source_inactive source;;
            note_excluded_source;;
            forfeit_source_bond_internal source;;
            note_inactive_since source;;
            publish (MkSourceHealthChangedEvent source (if new_missed =? MISS_THRESHOLD then 1 else 2) 2
                       new_missed);;
            publish (MkSourceInactiveEvent source hb_time);;
            recompute_source_change source RecomputeSuspended;;
            mret true
          else
            publish (MkSourceHealthChangedEvent source (if 1 <? new_missed then 1 else 0) 1 new_missed);;
            mret false
        else mret false
    | None =>
        if base_interval <? current_time then
          new_missed ← increment_missed_heartbeats source;
          if MISS_THRESHOLD <=? new_missed then
            mark_source_inactive source;;
            note_excluded_source;;
            note_inactive_since source;;
            publish (MkSourceInactiveEvent source 0);;
            mret true
          else mret false
        else mret false
    end.

Fixpoint count_inactive (sources : list Address) (count : Z) : M Z :=
  match sources with
  | [] => mret count
  | source :: sources =>
      inactive ← is_source_inactive source;
      next ← (if inactive : bool then lift (u32 (count + 1)) else mret count);
      count_inactive sources next
  end.

Definition get_inactive_sources : M Z :=
  oracle_sources ← read_oracle_sources; count_inactive (os_sources oracle_sources) 0.

(** ** Demerits *)

(** The step of the disqualification ladder that [demerits] reaches. *)
Definition ladder (config : DemeritConfig) (demerits : Z) : option DisqualificationStatus :=
  if dmc_disqualified_threshold config <=? demerits then Some StatusDisqualified
  else if dmc_probation_threshold config <=? demerits then Some StatusProbation
  else if dmc_warning_threshold config <=? demerits then Some StatusWarning
  else None.

Definition record_invalid_submission (source : Address) : M unit :=
  Flags.mark Flags.SOURCE_DEMERITS;;
  old ← get_source_demerits source;
  let demerits := sat_u32 (sd_demerits old + 1) in
  config ← get_demerit_config;
  current_ledger ← ledger_sequence;
  let state :=
    match ladder config demerits with
    | Some status => MkSourceDemeritState demerits status current_ledger
    | None => MkSourceDemeritState demerits (sd_status old) (sd_status_updated_ledger old)
    end in
  put (KeySourceDemerits source) state;;
  publish (MkInvalidSubmissionEvent source demerits);;
  if bool_decide (sd_status state = sd_status old) then mret tt
  else
    match sd_status state with
    | StatusWarning => publish (MkSourceWarningEvent source demerits)
    | StatusProbation => publish (MkSourceProbationEvent source demerits)
    | StatusDisqualified =>
        note_excluded_source;;
        publish (MkSourceDisqualifiedEvent source demerits current_ledger);;
        recompute_source_change source RecomputeDisqualified
    | _ => mret tt
    end.

(** ** Removal *)

Definition remove_source_inner `{TK : Token} (source : Address) : M unit :=
  admin ← get_admin;
  require_auth admin;;
  registered ← has (KeySrcActive source);
  panic_if (negb registered) SourceNotFound;;
  is_inactive ← is_source_inactive source;
  deposited ← get_source_deposited_bond source;
  (if 0 <? deposited then
     (if negb is_inactive then
        token_addr ← get_stake_token_contract;
        match token_addr with
        | Some token_addr =>
            me ← contract_address;
            try_transfer token_addr me source deposited;;
            publish (MkSourceBondReturnedEvent source deposited)
        | None => mret tt
        end
      else forfeit_source_bond_internal source);;
     remove (KeySourceBond source)
   else mret tt);;
  remove (KeySrcActive source);;
  remove (KeySignedSubmitPubKey source);;
  oracle_sources ← read_oracle_sources;
  set KeySrcRegistry
    (MkOracleSources (without source (os_sources oracle_sources))
       (delete source (os_metadata oracle_sources)) (delete source (os_verification oracle_sources)));;
  remove (KeySourceAssets source);;
  remove (KeySourceVerification source);;
  publish (MkSourceRemovedEvent source admin).

Definition remove_source `{TK : Token} (source : Address) : M unit :=
  admin ← get_admin;
  require_auth admin;;
  enrolled ← has (KeySourceEnrollment source);
  (if enrolled : bool then remove (KeySourceEnrollment source) else mret tt);;
  registered ← has (KeySrcActive source);
  if (enrolled : bool) && negb registered then emit_admin_action "rem_src" admin []
  else
    remove_source_inner source;;
    recompute_source_change source RecomputeRemoved;;
    emit_admin_action "rem_src" admin [].

Definition remove_sources `{TK : Token} (sources : list Address) : M unit :=
  admin ← get_admin;
  require_auth admin;;
  panic_if (bool_decide (sources = [])) InvalidConfiguration;;
  for_each sources remove_source_inner;;
  recompute_all RecomputeRemoved.

Definition remove_source_asset (source asset : Address) : M unit :=
  admin ← get_admin;
  require_auth admin;;
  registered ← is_source source;
  panic_if (negb registered) SourceNotFound;;
  assets ← get_or (KeySourceAssets source) [];
  set (KeySourceAssets source) (without asset assets);;
  (if bool_decide (asset ∈ (assets : list Address)) then
     publish (MkSourceAssetRemovedEvent source asset);;
     remove (KeySubmission asset source);;
     recompute_assets [asset] RecomputeAssetClaimRemoved
   else mret tt);;
  emit_admin_action "rem_sass" admin [].
End Heartbeats.

(** ** Phased removal *)

Definition set_removal_cooldown (ledgers : Z) : M unit :=
  admin ← get_admin;
  require_auth admin;;
  set KeyRemovalCooldown ledgers;;
  publish (MkRemovalCooldownChangedEvent ledgers).
Definition get_removal_cooldown : M Z := get_or KeyRemovalCooldown DEFAULT_REMOVAL_COOLDOWN.

Definition mark_source_for_removal `{BP : BuildProfile} (source : Address) : M unit :=
  admin ← get_admin;
  require_auth admin;;
  known ← has (KeySource source);
  panic_if (negb known) SourceNotFound;;
  cooldown ← get_removal_cooldown;
  current_ledger ← ledger_sequence;
  eligible_at ← lift (u32 (current_ledger + cooldown));
  set (KeySourcePendingRemoval source) eligible_at;;
  publish (MkSourceMarkedForRemovalEvent source admin eligible_at).

Definition cancel_source_removal (source : Address) : M unit :=
  admin ← get_admin;
  require_auth admin;;
  pending ← has (KeySourcePendingRemoval source);
  panic_if (negb pending) SourceNotPendingRemoval;;
  remove (KeySourcePendingRemoval source);;
  publish (MkSourceRemovalCancelledEvent source admin).

Definition finalize_source_removal (source : Address) : M unit :=
  admin ← get_admin;
  require_auth admin;;
  eligible_at ← get (KeySourcePendingRemoval source);
  match eligible_at with
  | None => panic_with_error SourceNotPendingRemoval
  | Some eligible_at =>
      ledger ← ledger_sequence;
      panic_if (ledger <? eligible_at) CooldownNotElapsed;;
      remove (KeySourcePendingRemoval source);;
      remove (KeySource source);;
      oracle_sources ← read_oracle_sources;
      set KeySrcRegistry
        (MkOracleSources (without source (os_sources oracle_sources))
           (delete source (os_metadata oracle_sources)) (os_verification oracle_sources));;
      publish (MkSourceRemovedEvent source admin)
  end.

Definition is_source_pending_removal (source : Address) : M bool := has (KeySourcePendingRemoval source).

(** ** Reputation *)

Definition set_reputation_decay_factor (factor : Z) : M unit :=
  admin ← get_admin;
  require_auth admin;;
  set KeyReputationDecayFactor factor;;
  publish (MkReputationDecayChangedEvent factor).
Definition get_reputation_decay_factor : M Z := get_or KeyReputationDecayFactor DEFAULT_DECAY_FACTOR.
Definition get_source_reputation (source : Address) : M Z := get_or (KeySourceReputation source) INITIAL_REPUTATION.

Definition updated_reputation `{BP : BuildProfile} (old_score decay source_price median_price : Z) : option Z :=
  diff ← i128 (source_price - median_price);
  magnitude ← i128 (Z.abs diff);
  scaled ← i128 (magnitude * 10000);
  deviation_bps ← div_i128 scaled median_price;
  accuracy ← (if 5000 <=? deviation_bps then Some 0
              else product ← i128 (deviation_bps * 100); i128 (100 - Z.quot product 5000));
  keep ← i128 (100 - decay);
  kept ← i128 (old_score * keep);
  gained ← i128 (accuracy * decay);
  total ← i128 (kept + gained);
  Some (Z.max 0 (Z.min 100 (Z.quot total 100))).

Definition update_source_reputation `{BP : BuildProfile} (source : Address) (source_price median_price : Z)
    : M unit :=
  if median_price =? 0 then mret tt
  else
    old_score ← get_source_reputation source;
    decay ← get_reputation_decay_factor;
    new_score ← lift (updated_reputation old_score decay source_price median_price);
    set (KeySourceReputation source) new_score;;
    publish (MkSourceReputationUpdatedEvent source old_score new_score).

(** ** Pruning of inactive sources *)

Fixpoint prune_candidates (max_inactive current_ledger : Z) (sources : list Address) : M (list Address) :=
  match sources with
  | [] => mret []
  | src :: sources =>
      inactive ← check_source_inactive src;
      since ← (if inactive : bool then get (KeySrcInactiveSinceLedger src) else mret None);
      rest ← prune_candidates max_inactive current_ledger sources;
      mret (match since with
            | Some inactive_since =>
                if max_inactive <=? sat_u32 (current_ledger - inactive_since) then src :: rest else rest
            | None => rest
            end)
  end.

Fixpoint active_sources (sources : list Address) : M Z :=
  match sources with
  | [] => mret 0
  | s :: sources =>
      inactive ← check_source_inactive s;
      rest ← active_sources sources;
      mret (if inactive : bool then rest else rest + 1)
  end.

Definition _remove_source_internal (source : Address) : M unit :=
  remove (KeySrcActive source);;
  oracle_sources ← read_oracle_sources;
  set KeySrcRegistry
    (MkOracleSources (without source (os_sources oracle_sources))
       (delete source (os_metadata oracle_sources)) (os_verification oracle_sources));;
  remove (KeySrcInactive source);;
  remove (KeySrcMissedHeartbeats source);;
  remove (KeySrcInactiveSinceLedger source);;
  remove (KeySrcLastPriceLedger source);;
  remove (KeySrcPriceSubmitAfterReactivation source).

Definition prune_one `{BP : BuildProfile} (current_ledger : Z) (src : Address) : M unit :=
  missed ← get_missed_heartbeats src;
  inactive_since ← get_or (KeySrcInactiveSinceLedger src) 0;
  publish (MkSourceHealthChangedEvent src 2 3 missed);;
  _remove_source_internal src;;
  publish (MkSourceAutoRemovedEvent src inactive_since current_ledger missed).

Fixpoint prune_loop `{BP : BuildProfile} (min_required current_ledger removed_count : Z)
    (candidates : list Address) : M Z :=
  match candidates with
  | [] => mret removed_count
  | src :: candidates =>
      current_sources ← read_oracle_sources;
      active_count ← active_sources (os_sources current_sources);
      if active_count <? min_required then mret removed_count
      else
        prune_one current_ledger src;;
        removed_count ← lift (u32 (removed_count + 1));
        prune_loop min_required current_ledger removed_count candidates
  end.

Definition check_and_prune_inactive_sources `{BP : BuildProfile} : M Z :=
  max_inactive ← get_max_inactive_ledgers;
  current_ledger ← ledger_sequence;
  min_required ← get_min_sources_required;
  oracle_sources ← read_oracle_sources;
  candidates ← prune_candidates max_inactive current_ledger (os_sources oracle_sources);
  prune_loop min_required current_ledger 0 candidates.

(** ** Governed admission *)

Definition set_source_governance (approvers : list Address) (threshold : Z) : M unit :=
  admin ← get_admin;
  require_auth admin;;
  panic_if (Z.of_nat (length approvers) <? threshold) InvalidGovernanceConfig;;
  panic_if ((threshold =? 0) && negb (bool_decide (approvers = []))) InvalidGovernanceConfig;;
  set KeySourceGovConfig (MkSourceGovernance approvers threshold);;
  publish (MkSourceGovConfigChangedEvent admin threshold (Z.of_nat (length approvers))).

(** The governance in force, for a member of it. *)
Definition governance_of_approver (member : Address) : M SourceGovernance :=
  gov ← get_source_governance;
  match gov with
  | None => panic_with_error NotAuthorized
  | Some gov =>
      panic_if (sg_threshold gov =? 0) NotAuthorized;;
      panic_if (bool_decide (member ∉ sg_approvers gov)) NotAuthorized;;
      mret gov
  end.

Definition propose_source (proposer source : Address) (name : string) : M Z :=
  require_auth proposer;;
  validate_string "propose_source" "name" name;;
  governance_of_approver proposer;;
  count ← get_or KeySourceProposalCount 0;
  let proposal_id := sat_u32 (count + 1) in
  set KeySourceProposalCount proposal_id;;
  put (KeySourceProposal proposal_id) (MkSourceProposal proposal_id source name [] false);;
  publish (MkSourceProposalCreatedEvent proposal_id proposer source name);;
  mret proposal_id.

Definition approve_source `{BP : BuildProfile} `{CR : Crypto} (approver : Address) (proposal_id : Z) : M unit :=
  require_auth approver;;
  gov ← governance_of_approver approver;
  proposal ← get (KeySourceProposal proposal_id);
  match proposal with
  | None => panic_with_error ProposalNotFound
  | Some p =>
      panic_if (sp_executed p) ProposalAlreadyExecuted;;
      panic_if (bool_decide (approver ∈ sp_approvals p)) AlreadyApproved;;
      let approvals := sp_approvals p ++ [approver] in
      publish (MkSourceProposalApprovedEvent proposal_id approver);;
      let reached := sg_threshold gov <=? Z.of_nat (length approvals) in
      (if reached then
         register_source_internal (sp_source p) (sp_name p);;
         publish (MkSourceProposalExecutedEvent proposal_id (sp_source p))
       else mret tt);;
      put (KeySourceProposal proposal_id)
        (MkSourceProposal (sp_id p) (sp_source p) (sp_name p) approvals (sp_executed p || reached))
  end.

Definition get_source_proposal (proposal_id : Z) : M SourceProposal :=
  proposal ← get (KeySourceProposal proposal_id);
  match proposal with Some p => mret p | None => panic_with_error ProposalNotFound end.

(** ** Geography and diversity *)

Definition get_source_geo (source : Address) : M (option SourceGeoMetadata) := get (KeySourceGeo source).

Definition set_source_geo (source : Address) (metadata : SourceGeoMetadata) : M unit :=
  admin ← get_admin;
  require_auth admin;;
  registered ← has (KeySrcActive source);
  panic_if (negb registered) SourceNotFound;;
  put (KeySourceGeo source) metadata;;
  publish (MkSourceGeoUpdatedEvent source (sgm_region metadata) (sgm_provider metadata)
             (sgm_jurisdiction metadata));;
  publish (MkSourceDiversityUpdatedEvent source (sgm_infra metadata) (sgm_upstream metadata)
             (sgm_owner metadata)).

(** The squares are summed over the keys of the map. *)
Definition calculate_hhi (counts : gmap string Z) (total : Z) : option Z :=
  if total =? 0 then Some 0
  else
    let sum_squares := foldr (λ kv acc, sat_u64 (acc + kv.2 * kv.2)) 0 (map_to_list counts) in
    hhi ← udiv (sat_u64 (sum_squares * 10000)) (total * total);
    Some (as_u32 hhi).

Definition count_in `{BP : BuildProfile} (key : string) (counts : gmap string Z) : option (gmap string Z) :=
  n ← u32 (default 0 (counts !! key) + 1); Some (<[key := n]> counts).

Fixpoint count_geo `{BP : BuildProfile} (sources : list Address) (regions providers jurisdictions : gmap string Z)
    : M (gmap string Z * gmap string Z * gmap string Z) :=
  match sources with
  | [] => mret (regions, providers, jurisdictions)
  | source :: sources =>
      geo ← get_source_geo source;
      let '(region, provider, jurisdiction) :=
        match geo with
        | Some g => (sgm_region g, sgm_provider g, sgm_jurisdiction g)
        | None => ("unknown", "unknown", "unknown")
        end in
      regions ← lift (count_in region regions);
      providers ← lift (count_in provider providers);
      jurisdictions ← lift (count_in jurisdiction jurisdictions);
      count_geo sources regions providers jurisdictions
  end.

Definition get_decentralization_report `{BP : BuildProfile} : M DecentralizationReport :=
  oracle_sources ← read_oracle_sources;
  let total := Z.of_nat (length (os_sources oracle_sources)) in
  if total =? 0 then mret (MkDecentralizationReport 0 0 0 0)
  else
    '(regions, providers, jurisdictions) ← count_geo (os_sources oracle_sources) ∅ ∅ ∅;
    region_hhi ← lift (calculate_hhi regions total);
    provider_hhi ← lift (calculate_hhi providers total);
    jurisdiction_hhi ← lift (calculate_hhi jurisdictions total);
    pair_sum ← lift (u32 (region_hhi + provider_hhi));
    sum ← lift (u32 (pair_sum + jurisdiction_hhi));
    mret (MkDecentralizationReport region_hhi provider_hhi jurisdiction_hhi (sat_u32 (10000 - sum / 3))).

(** ** Bonds *)

Definition deposit_source_bond `{BP : BuildProfile} `{TK : Token} (source : Address) : M unit :=
  require_auth source;;
  registered ← has (KeySrcActive source);
  panic_if (negb registered) SourceNotFound;;
  required ← get_source_bond;
  if required <=? 0 then mret tt
  else
    current_deposited ← get_source_deposited_bond source;
    if required <=? current_deposited then mret tt
    else
      deposit_amount ← lift (i128 (required - current_deposited));
      token_contract ← get_stake_token_contract;
      match token_contract with
      | None => panic_with_error StakeTokenNotConfigured
      | Some token_contract =>
          me ← contract_address;
          transfer token_contract source me deposit_amount;;
          put (KeySourceBond source) required;;
          inactive ← check_source_inactive source;
          (if inactive : bool then mark_source_active source else mret tt);;
          publish (MkSourceBondDepositedEvent source deposit_amount)
      end.

(** ** Enrollment with evidence *)

Definition evidence_complete (e : SourceEnrollment) : bool :=
  bool_decide (se_identity_evidence e ≠ "") && bool_decide (se_endpoint_ownership_evidence e ≠ "") &&
  bool_decide (se_operational_contact e ≠ "") && bool_decide (se_reliability_evidence e ≠ "").

Definition enroll_source (source : Address) (name : string) : M unit :=
  admin ← get_admin;
  require_auth admin;;
  panic_if (bool_decide (name = "")) SourceNameEmpty;;
  panic_if (MAX_SOURCE_NAME_LENGTH <? Z.of_nat (String.length name)) SourceNameTooLong;;
  enrolled ← has (KeySourceEnrollment source);
  registered ← has (KeySrcActive source);
  panic_if (enrolled || registered) SourceAlreadyExists;;
  put (KeySourceEnrollment source) (MkSourceEnrollment name "" "" "" "");;
  publish (MkSourceEnrollmentStartedEvent source admin).

Definition submit_source_evidence (source : Address)
    (identity_evidence endpoint_ownership_evidence operational_contact reliability_evidence : string)
    : M unit :=
  require_auth source;;
  enrollment ← get (KeySourceEnrollment source);
  match enrollment with
  | None => panic_with_error SourceNotFound
  | Some e =>
      let enrollment := MkSourceEnrollment (se_name e) identity_evidence endpoint_ownership_evidence
                          operational_contact reliability_evidence in
      panic_if (negb (evidence_complete enrollment)) SourceEvidenceMissing;;
      put (KeySourceEnrollment source) enrollment;;
      publish (MkSourceEvidenceSubmittedEvent source)
  end.

Definition activate_source `{BP : BuildProfile} `{CR : Crypto} (source : Address) : M unit :=
  admin ← get_admin;
  require_auth admin;;
  enrollment ← get (KeySourceEnrollment source);
  match enrollment with
  | None => panic_with_error SourceNotFound
  | Some e =>
      panic_if (negb (evidence_complete e)) SourceEvidenceMissing;;
      register_source_internal source (se_name e);;
      emit_admin_action "act_src" admin []
  end.

Definition get_source_enrollment (source : Address) : M (option SourceEnrollment) :=
  get_touch (KeySourceEnrollment source).

(** ** Onboarding, graduation and offboarding *)

Definition onboard `{BP : BuildProfile} `{CR : Crypto} (source : Address) (name : string) (identity : Bytes)
    : M unit :=
  admin ← get_admin;
  require_auth admin;;
  revoked ← has (KeyLcRevokedIdentity identity);
  panic_if revoked IdentityRevoked;;
  owned ← has (KeyLcIdentityOwner identity);
  panic_if owned SourceAlreadyExists;;
  add_source source name;;
  now ← ledger_timestamp;
  config ← SourceLifecycle.get_config;
  let probation_until := sat_u64 (now + lc_probation_secs config) in
  put (KeyLcRecord source) (MkSourceLifecycle identity now probation_until false);;
  set (KeyLcIdentityOwner identity) source;;
  Flags.mark Flags.SOURCE_LIFECYCLE;;
  set KeyLcAnyProbation true;;
  publish (MkSourceOnboardedEvent source identity probation_until).

Definition checklist (source : Address) : M OnboardingChecklist :=
  record ← SourceLifecycle.get_record source;
  bond_amount ← get_source_deposited_bond source;
  required ← get_source_bond;
  revoked ← SourceLifecycle.is_revoked source;
  now ← ledger_timestamp;
  mret (MkOnboardingChecklist
          (bool_decide (is_Some record) && negb revoked)
          ((0 <? bond_amount) && (required <=? bond_amount)) bond_amount
          (match record with Some r => sl_probation_until r <=? now | None => false end)
          (match record with Some r => sl_graduated r | None => false end)).

Definition graduate (source : Address) : M unit :=
  record ← SourceLifecycle.get_record source;
  match record with
  | None => panic_with_error SourceNotFound
  | Some r =>
      l ← checklist source;
      panic_if (sl_graduated r || negb (ob_identity_verified l) || negb (ob_bond_posted l) ||
                negb (ob_probation_complete l)) InvalidConfiguration;;
      set (KeyLcRecord source) (MkSourceLifecycle (sl_identity r) (sl_onboarded_at r) (sl_probation_until r) true);;
      publish (MkSourceGraduatedEvent source (ob_bond_amount l))
  end.

Definition deviation_bps `{BP : BuildProfile} (price reference : Z) : option Z :=
  diff ← i128 (price - reference);
  div_i128 (sat_i128 (sat_i128 (Z.abs diff) * 10000)) reference.

Section Offboard.
Context `{BP : BuildProfile} `{CR : Crypto} `{US : UnstableSort} `{XD : Xdr} `{CB : Callbacks} `{TK : Token}.

(** The evidence of a slash, re-derived from the stored values. *)
Definition slash_on_evidence (source asset : Address) : M unit :=
  entry ← get (KeySubmission asset source);
  match entry with
  | None => panic_with_error NoData
  | Some entry =>
      aggregate ← get (KeyAggregate asset);
      match aggregate with
      | None => panic_with_error NoData
      | Some aggregate =>
          config ← SourceLifecycle.get_config;
          let threshold := lc_slash_deviation_bps config in
          panic_if (ap_price aggregate <=? 0) NoData;;
          dev ← lift (deviation_bps (pe_price entry) (ap_price aggregate));
          panic_if (dev <=? threshold) InvalidConfiguration;;
          bond ← get_source_deposited_bond source;
          forfeit_source_bond_internal source;;
          publish (MkEvidenceSlashedEvent source asset (pe_price entry) (ap_price aggregate) dev threshold bond)
      end
  end.

Definition revoke_asset (source asset : Address) : M unit :=
  remove (KeySubmission asset source);;
  remove (KeySubmissionLedger asset source);;
  remove (KeyLastSubmissionLedger source asset);;
  remove (KeySourceNonCompliant source asset).

Definition offboard (source : Address) (evidence_asset : option Address) : M unit :=
  admin ← get_admin;
  require_auth admin;;
  registered ← is_source source;
  panic_if (negb registered) SourceNotFound;;
  (match evidence_asset with
   | Some asset => slash_on_evidence source asset
   | None => mret tt
   end);;
  assets ← read_registered_assets;
  for_each assets (revoke_asset source);;
  set (KeySourceReputation source) 0;;
  record ← SourceLifecycle.get_record source;
  remove (KeyLcRecord source);;
  set (KeyLcRevokedAddress source) true;;
  (match record with
   | Some r =>
       remove (KeyLcIdentityOwner (sl_identity r));; set (KeyLcRevokedIdentity (sl_identity r)) true
   | None => mret tt
   end);;
  remove_source_inner source;;
  recompute_all RecomputeRemoved;;
  publish (MkSourceOffboardedEvent source (sl_identity <$> record) (bool_decide (is_Some evidence_asset))
             (Z.of_nat (length assets))).
End Offboard.
