(* ===== verification/SourceSafety.v ===== *)
(** * What the source registry keeps

    The registry list, the activity entries and the names agree in every state
    the contract can reach; revoked addresses stay out.  Then what this leaves
    open: removal in phases cannot start, and the heartbeat of a source can be
    exhausted by queries. *)
From stdpp Require Import base list gmap strings relations.
From S2P Require Import Prelude Machine Types Host AuditLog Config Admin Assets Frames SourceLifecycle.
From S2P Require Import SourceGuards InputValidation FreshnessWeight Provenance PriceCallback Aggregation RoundFrames.
From S2P Require Import RoundSafety Sources.
#[local] Open Scope Z_scope.
#[local] Set Default Goal Selector "!".

Definition reg (w : World) : OracleSources :=
  default (MkOracleSources [] ∅ ∅) (persistent w KeySrcRegistry).
Definition sources_of (w : World) : list Address := os_sources (reg w).

Definition source_key (k : DataKey) : Prop :=
  match k with
  | KeySrcRegistry | KeySrcActive _ | KeySource _ | KeySourcePendingRemoval _ | KeyLcRevokedAddress _ => True
  | _ => False
  end.
Definition not_source (k : DataKey) : Prop := ¬ source_key k.

Definition name_ok (name : string) : Prop := name ≠ "" ∧ Z.of_nat (String.length name) <= MAX_SOURCE_NAME_LENGTH.

Record sources_inv (w : World) : Prop := {
  ri_nodup : NoDup (sources_of w);
  ri_active s : s ∈ sources_of w ↔ persistent w (KeySrcActive s) = Some true;
  ri_true s v : persistent w (KeySrcActive s) = Some v → v = true;
  ri_named s : s ∈ sources_of w ↔ ∃ name, os_metadata (reg w) !! s = Some name;
  ri_names s name : os_metadata (reg w) !! s = Some name → name_ok name;
  ri_phased s : persistent w (KeySource s) = None ∧ persistent w (KeySourcePendingRemoval s) = None;
  ri_revoked s : persistent w (KeyLcRevokedAddress s) ≠ None → s ∉ sources_of w
}.

Lemma sources_inv_frame : reads_only source_key sources_inv.
Proof.
  intros w w' Hk [H1 H2 H3 H4 H5 H6 H7].
  assert (reg w' = reg w) as Er by (unfold reg; by rewrite (Hk KeySrcRegistry I)).
  split; unfold sources_of in *; rewrite ?Er; try done.
  - intros s. rewrite H2. by rewrite (Hk (KeySrcActive s) I).
  - intros s v. rewrite (Hk (KeySrcActive s) I). by apply H3.
  - intros s. rewrite (Hk (KeySource s) I), (Hk (KeySourcePendingRemoval s) I). by apply H6.
  - intros s. rewrite (Hk (KeyLcRevokedAddress s) I). by apply H7.
Qed.

Lemma source_frame {A} (m : M A) : modifies not_source m → preserves sources_inv m.
Proof. apply preserves_frame, sources_inv_frame. Qed.

Lemma run_source_frame {A} (m : M A) c w a w' k :
  m c w = Ok a w' → modifies not_source m → source_key k → persistent w' k = persistent w k.
Proof. intros H Hm Hk. apply (Hm _ _ _ _ H). unfold not_source. tauto. Qed.

Section Frames.
Context `{BP : BuildProfile} `{CR : Crypto} `{US : UnstableSort} `{XD : Xdr} `{CB : Callbacks} `{TK : Token}.

Lemma modifies_round asset ledger decimals recompute :
  modifies not_source (aggregate_asset_mode asset ledger decimals recompute).
Proof.
  eapply modifies_mono; [|apply round_frame]. unfold not_owned, not_source. intros k H1 H2. apply H1.
  by destruct k.
Qed.
#[local] Hint Resolve modifies_round : modifies.

Lemma modifies_submitted source assets : ∀ out, modifies not_source (submitted_assets source out assets).
Proof. induction assets as [|a assets IH]; intros out; simpl; deep_frame; apply IH. Qed.
#[local] Hint Resolve modifies_submitted : modifies.
Lemma modifies_recompute_loop reason ledger assets : ∀ n deferred,
  modifies not_source (recompute_loop reason ledger n deferred assets).
Proof. induction assets as [|a assets IH]; intros n deferred; simpl; deep_frame; apply IH. Qed.
#[local] Hint Resolve modifies_recompute_loop : modifies.

Lemma modifies_try_transfer P token from to amount : modifies P (try_transfer token from to amount).
Proof.
  intros c w a w' H k _. unfold try_transfer in H. by destruct (token_accepts _ _ _ _ _ _); injection H as <- <-.
Qed.
#[local] Hint Resolve modifies_try_transfer : modifies.

Lemma inactive_frame source : modifies not_source (Sources.is_source_inactive source).
Proof. deep_frame. Qed.
Lemma recompute_change_frame source reason : modifies not_source (recompute_source_change source reason).
Proof. deep_frame. Qed.
Lemma recompute_all_frame reason : modifies not_source (recompute_all reason).
Proof. deep_frame. Qed.
Lemma recompute_assets_frame assets reason : modifies not_source (recompute_assets assets reason).
Proof. deep_frame. Qed.
Lemma invalid_frame source : modifies not_source (record_invalid_submission source).
Proof. deep_frame. Qed.
Lemma heartbeat_frame source : modifies not_source (submit_heartbeat source).
Proof. deep_frame. Qed.
Lemma deposit_frame source : modifies not_source (deposit_source_bond source).
Proof. deep_frame. Qed.
Lemma remove_asset_frame source asset : modifies not_source (remove_source_asset source asset).
Proof. deep_frame. Qed.
End Frames.

(** ** The calls that change the registry *)

Section Effects.
Context `{BP : BuildProfile} `{CR : Crypto}.

Lemma register_Ok source name c w u w' :
  register_source_internal source name c w = Ok u w' →
  persistent w (KeyLcRevokedAddress source) = None ∧ name_ok name ∧ persistent w (KeySrcActive source) = None ∧
  reg w' = MkOracleSources (sources_of w ++ [source]) (<[source := name]> (os_metadata (reg w)))
             (os_verification (reg w)) ∧
  persistent w' (KeySrcActive source) = Some true ∧
  ∀ k, k ≠ KeySrcRegistry → k ≠ KeySrcActive source → persistent w' k = persistent w k.
Proof.
  unfold register_source_internal, SourceLifecycle.check_not_revoked, SourceLifecycle.is_revoked,
    read_oracle_sources, get_max_sources.
  intros H. steps H. subst w'. bool_hyps.
  assert (∀ k, bool_decide (is_Some (persistent w k)) = false → persistent w k = None) as Hnone.
  { intros k Hk. apply bool_decide_eq_false_1 in Hk. by apply eq_None_not_Some. }
  split; [by apply Hnone|]. split; [unfold name_ok; by apply bool_decide_eq_false_1 in Eg0|].
  split; [by apply Hnone|]. unfold reg at 1. cbn [persistent add_event]. read_store.
  split; [done|]. split; [done|]. intros k H1 H2. by rewrite !persistent_put_ne by congruence.
Qed.

Lemma register_inv source name : preserves sources_inv (register_source_internal source name).
Proof.
  intros c w u w' [N1 N2 N3 N4 N5 N6 N7] H.
  destruct (register_Ok _ _ _ _ _ _ H) as (Hrev & Hname & Hact & Hreg & Htrue & Hk).
  assert (source ∉ sources_of w) as Hnew by (rewrite N2, Hact; done).
  assert (∀ s, s ∈ sources_of w' ↔ s = source ∨ s ∈ sources_of w) as Hin.
  { intros s. unfold sources_of at 1. rewrite Hreg. cbn [os_sources].
    rewrite elem_of_app, list_elem_of_singleton. tauto. }
  split.
  - unfold sources_of at 1. rewrite Hreg. cbn [os_sources]. apply NoDup_app.
    split; [done|]. split; [|apply NoDup_singleton]. by intros s Hs ->%list_elem_of_singleton.
  - intros s. rewrite Hin. destruct (decide (s = source)) as [->|Hne]; [rewrite Htrue; tauto|].
    rewrite Hk, <- N2 by congruence. tauto.
  - intros s v. destruct (decide (s = source)) as [->|Hne]; [rewrite Htrue; by intros [= <-]|].
    rewrite Hk by congruence. apply N3.
  - intros s. rewrite Hin, Hreg. cbn [os_metadata]. destruct (decide (s = source)) as [->|Hne].
    + rewrite lookup_insert_eq. split; [eauto|auto].
    + rewrite lookup_insert_ne by done. rewrite <- N4. tauto.
  - intros s n. rewrite Hreg. cbn [os_metadata]. destruct (decide (s = source)) as [->|Hne].
    + rewrite lookup_insert_eq. by intros [= <-].
    + rewrite lookup_insert_ne by done. apply N5.
  - intros s. rewrite !Hk by done. apply N6.
  - intros s. rewrite Hk by done. rewrite Hin. intros Hs [->|Hs']; [done|]. by eapply N7.
Qed.

(** [w'] is [w] without one source. *)
Definition removed (source : Address) (w w' : World) : Prop :=
  sources_of w' = without source (sources_of w) ∧
  os_metadata (reg w') = delete source (os_metadata (reg w)) ∧
  persistent w' (KeySrcActive source) = None ∧
  ∀ k, source_key k → k ≠ KeySrcRegistry → k ≠ KeySrcActive source → k ≠ KeyLcRevokedAddress source →
    persistent w' k = persistent w k.

Lemma elem_of_without s source l : s ∈ without source l ↔ s ≠ source ∧ s ∈ l.
Proof. unfold without. by rewrite list_elem_of_filter. Qed.

Lemma removed_inv source w w' : removed source w w' → sources_inv w → sources_inv w'.
Proof.
  intros (Hs & Hm & Ha & Hk) [N1 N2 N3 N4 N5 N6 N7]. split.
  - rewrite Hs. by apply NoDup_filter.
  - intros s. rewrite Hs, elem_of_without. destruct (decide (s = source)) as [->|Hne]; [rewrite Ha; naive_solver|].
    rewrite N2, Hk by (try exact I; congruence). naive_solver.
  - intros s v. destruct (decide (s = source)) as [->|Hne]; [by rewrite Ha|].
    rewrite Hk by (try exact I; congruence). apply N3.
  - intros s. rewrite Hs, elem_of_without, Hm. destruct (decide (s = source)) as [->|Hne].
    + rewrite lookup_delete_eq. naive_solver.
    + rewrite lookup_delete_ne by done. rewrite <- N4. naive_solver.
  - intros s n. rewrite Hm. intros [_ H]%lookup_delete_Some. by eapply N5.
  - intros s. rewrite !Hk by (exact I || done). apply N6.
  - intros s Hrev. rewrite Hs, elem_of_without. intros [Hne Hin]. rewrite Hk in Hrev by (try exact I; congruence).
    by eapply N7.
Qed.
End Effects.

Section Removal.
Context `{BP : BuildProfile} `{CR : Crypto} `{US : UnstableSort} `{XD : Xdr} `{CB : Callbacks} `{TK : Token}.

Lemma remove_inner_Ok source c w u w' :
  remove_source_inner source c w = Ok u w' → persistent w (KeySrcActive source) ≠ None ∧ removed source w w' ∧
    persistent w' (KeyLcRevokedAddress source) = persistent w (KeyLcRevokedAddress source).
Proof.
  unfold remove_source_inner. intros H. do 4 step H.
  apply bind_Ok in H as (inactive & w1 & H1 & H). apply bind_Ok in H as (deposited & w2 & H2 & H).
  apply bind_Ok in H as (u3 & w3 & H3 & H).
  assert (∀ k, source_key k → persistent w3 k = persistent w k) as Hk.
  { intros k Hk. rewrite (run_source_frame _ _ _ _ _ _ H3), (run_source_frame _ _ _ _ _ _ H2),
      (run_source_frame _ _ _ _ _ _ H1); try done; [apply inactive_frame|deep_frame|deep_frame].
    all: apply modifies_try_transfer. }
  assert (reg w3 = reg w) as Hreg by (unfold reg; by rewrite (Hk KeySrcRegistry I)).
  unfold read_oracle_sources in H. do 2 step H.
  rewrite run_bind, (run_get_bump_or_as KeySrcRegistry _ (reg w)) in H by (rewrite <- Hreg; unfold reg; by read_store).
  steps H. subst w'. split; [intros E; by rewrite E in Eg1|].
  split; [|cbn [persistent add_event]; read_store; by rewrite (Hk (KeyLcRevokedAddress source) I)].
  unfold removed, sources_of, reg at 1 3. cbn [persistent add_event]. read_store.
  split; [done|]. split; [done|]. split; [done|]. intros k Hk1 Hk2 Hk3 Hk4.
  rewrite !persistent_put_ne; [by apply Hk|..]; by intros <-.
Qed.
End Removal.

(** ** Rotation *)

Lemma elem_of_replace_first source new_address s l :
  NoDup l → source ∈ l → s ∈ replace_first source new_address l ↔ s = new_address ∨ (s ≠ source ∧ s ∈ l).
Proof.
  induction l as [|x l IH]; intros Hnd Hin; [by apply elem_of_nil in Hin|].
  apply NoDup_cons in Hnd as [Hx Hnd]. simpl. case_bool_decide as Ex.
  - subst x. rewrite !elem_of_cons. split; [|naive_solver]. intros [->|Hs]; [by left|].
    right. split; [by intros ->|by right].
  - apply elem_of_cons in Hin as [<-|Hin]; [done|]. rewrite !elem_of_cons, IH by done.
    split; [|naive_solver]. intros [->|[->|[H1 H2]]]; [right; split; [congruence|by left]|by left|by right; auto].
Qed.

Lemma NoDup_replace_first source new_address l :
  NoDup l → new_address ∉ l → NoDup (replace_first source new_address l).
Proof.
  induction l as [|x l IH]; intros Hnd Hin; [constructor|]. apply NoDup_cons in Hnd as [Hx Hnd].
  apply not_elem_of_cons in Hin as [Hne Hin]. simpl. case_bool_decide as Ex; [by constructor|].
  constructor; [|by apply IH]. intros Hx'.
  destruct (decide (source ∈ l)) as [Hs|Hs].
  - apply elem_of_replace_first in Hx' as [->|[_ ?]]; done.
  - assert (∀ l', source ∉ l' → replace_first source new_address l' = l') as E.
    { clear. induction l' as [|y l' IH]; [done|]. intros [H1 H2]%not_elem_of_cons. simpl.
      rewrite bool_decide_false by congruence. f_equal. by apply IH. }
    by rewrite E in Hx'.
Qed.

Definition rotated (source new_address : Address) (w w' : World) : Prop :=
  reg w' = rotate_registry source new_address (reg w) ∧
  persistent w (KeySrcActive source) = Some true ∧ persistent w (KeySrcActive new_address) ≠ Some true ∧
  persistent w' (KeySrcActive source) = None ∧ persistent w' (KeySrcActive new_address) = Some true ∧
  persistent w (KeyLcRevokedAddress new_address) = None ∧
  ∀ k, source_key k → k ≠ KeySrcRegistry → k ≠ KeySrcActive source → k ≠ KeySrcActive new_address →
    persistent w' k = persistent w k.

Lemma rotated_inv source new_address w w' : rotated source new_address w w' → sources_inv w → sources_inv w'.
Proof.
  intros (Hreg & Hs & Hn & Hs' & Hn' & Hrev & Hk) [N1 N2 N3 N4 N5 N6 N7].
  apply N2 in Hs as Hin. rewrite <- N2 in Hn. assert (source ≠ new_address) as Hne by (intros ->; by apply Hn).
  destruct (proj1 (N4 source) Hin) as [name Hname].
  assert (sources_of w' = replace_first source new_address (sources_of w)) as Es by (unfold sources_of; by rewrite Hreg).
  assert (os_metadata (reg w') = <[new_address := name]> (delete source (os_metadata (reg w)))) as Em.
  { rewrite Hreg. unfold rotate_registry. cbn [os_metadata]. by rewrite Hname. }
  assert (∀ s, s ∈ sources_of w' ↔ s = new_address ∨ (s ≠ source ∧ s ∈ sources_of w)) as Hmem
    by (intros s; rewrite Es; by apply elem_of_replace_first).
  assert (∀ s, persistent w' (KeySrcActive s) =
    if decide (s = source) then None else if decide (s = new_address) then Some true else persistent w (KeySrcActive s)) as Ha.
  { intros s. destruct (decide (s = source)) as [->|H1]; [done|]. destruct (decide (s = new_address)) as [->|H2]; [done|].
    apply Hk; [exact I|done|congruence|congruence]. }
  split.
  - rewrite Es. by apply NoDup_replace_first.
  - intros s. rewrite Hmem, Ha. case_decide as D1; [subst s; split; [intros [?|[? _]]; done|intros E; cbn in E; discriminate E]|].
    case_decide as D2; [split; auto|]. rewrite <- N2. tauto.
  - intros s v. rewrite Ha. case_decide as D1; [done|]. case_decide as D2; [by intros [= <-]|]. apply N3.
  - intros s. rewrite Hmem, Em. destruct (decide (s = new_address)) as [->|D1].
    + rewrite lookup_insert_eq. naive_solver.
    + rewrite lookup_insert_ne by done. destruct (decide (s = source)) as [->|D2].
      * rewrite lookup_delete_eq. naive_solver.
      * rewrite lookup_delete_ne by done. rewrite <- N4. naive_solver.
  - intros s n. rewrite Em. destruct (decide (s = new_address)) as [->|D1].
    + rewrite lookup_insert_eq. intros [= <-]. by eapply N5.
    + rewrite lookup_insert_ne by done. intros [_ H]%lookup_delete_Some. by eapply N5.
  - intros s. rewrite !Hk by (exact I || done). apply N6.
  - intros s. rewrite Hk by (exact I || done). intros Hrs. rewrite Hmem. intros [->|[_ Hi]]; [done|]. by eapply N7.
Qed.

Lemma run_is_source s c w :
  is_source s c w = Ok (default false (persistent w (KeySrcActive s))) w.
Proof.
  unfold is_source. rewrite run_bind, run_get_or. destruct (persistent w (KeySrcActive s)) as [[|]|] eqn:E; simpl; try done.
  by rewrite run_bind, (run_extend_ttl _ _ _ _ E).
Qed.

Lemma modifies_moves source new_address assets : modifies not_source (for_each assets (move_submission source new_address)).
Proof. deep_frame. Qed.

Lemma rotate_Ok source new_address c w u w' :
  rotate_source_key source new_address c w = Ok u w' → sources_inv w → rotated source new_address w w'.
Proof.
  unfold rotate_source_key, SourceLifecycle.check_not_revoked, SourceLifecycle.is_revoked. intros H Hinv.
  do 2 step H. rewrite run_bind, run_is_source in H. step H. rewrite run_bind, run_is_source in H. do 3 step H.
  apply bind_Ok in H as ([] & w1 & H1 & H).
  assert (∀ k, source_key k → persistent w1 k = persistent w k) as Hk1
    by (intros k Hk; apply (run_source_frame _ _ _ _ _ _ H1); [deep_frame|done]).
  do 5 step H. assert (reg w1 = reg w) as Hreg by (unfold reg; by rewrite (Hk1 KeySrcRegistry I)).
  unfold read_oracle_sources in H.
  rewrite run_bind, (run_get_bump_or_as KeySrcRegistry _ (reg w)) in H by (rewrite <- Hreg; unfold reg; by read_store).
  set (w2 := put_persistent (KeySrcActive new_address) _ _) in *.
  apply bind_Ok in H as ([] & w3 & H3 & H). step H. apply bind_Ok in H as (assets & w4 & H4 & H).
  apply bind_Ok in H as ([] & w5 & H5 & H). apply bind_Ok in H as (l & w6 & H6 & H).
  apply bind_Ok in H as ([] & w7 & H7 & H). steps H. subst w'.
  assert (∀ k, source_key k → persistent w7 k =
    persistent (put_persistent KeySrcRegistry (Some (rotate_registry source new_address (reg w) : interp (ty_of KeySrcRegistry))) w2) k) as Hk.
  { intros k Hk. rewrite (run_source_frame _ _ _ _ _ _ H7), (run_source_frame _ _ _ _ _ _ H6),
      (run_source_frame _ _ _ _ _ _ H5), (run_source_frame _ _ _ _ _ _ H4); try done; try deep_frame.
    destruct (decide (k = KeySrcRegistry)) as [->|Hne]; [by read_store|].
    rewrite !persistent_put_ne by congruence. apply (run_source_frame _ _ _ _ _ _ H3); [deep_frame|done]. }
  bool_hyps. split.
  { unfold reg at 1. cbn [persistent add_event]. read_store. rewrite (Hk KeySrcRegistry I). by read_store. }
  assert (persistent w (KeySrcActive source) = Some true) as Hs
    by (destruct (persistent w (KeySrcActive source)) as [[|]|]; done).
  assert (persistent w (KeySrcActive new_address) ≠ Some true) as Hn
    by (intros E; by rewrite E in Eg2).
  assert (source ≠ new_address) as Hne by (intros ->; by apply Hn).
  assert (∀ k, source_key k → persistent (add_event (MkSourceKeyRotatedEvent source new_address (sequence c))
    (put_persistent (KeySourceRotationLedger new_address) (Some (sequence c : interp (ty_of (KeySourceRotationLedger new_address)))) w7)) k =
    persistent w7 k) as Hf by (intros k Hk'; cbn [persistent add_event]; apply persistent_put_ne; by intros <-).
  split; [done|]. split; [done|]. split.
  { rewrite Hf, Hk by exact I. unfold w2. 
    rewrite persistent_put_ne by done. rewrite persistent_put_ne by (intros [= E]; auto). by rewrite persistent_put_eq. }
  split; [rewrite Hf, Hk by exact I; unfold w2; by read_store|]. split.
  { apply bool_decide_eq_false_1 in Eg3. by apply eq_None_not_Some. }
  intros k Hk2 H1' H2' H3'. rewrite Hf, Hk by done. unfold w2.
  rewrite !persistent_put_ne by auto. by apply Hk1.
Qed.

(** ** Every call *)

Inductive SourceCall :=
  | CallAddSource (source : Address) (name : string)
  | CallAddSourceWithAssets (source : Address) (name : string) (assets : list Address)
  | CallRemoveSource (source : Address)
  | CallRemoveSources (sources : list Address)
  | CallAddSourceAsset (source asset : Address)
  | CallRemoveSourceAsset (source asset : Address)
  | CallSetVerification (source : Address) (verified : bool) (verification_method : string) (verifier : Address)
  | CallRotateKey (source new_address : Address)
  | CallSubmitHeartbeat (source : Address)
  | CallIsInactive (source : Address)
  | CallCountInactive
  | CallRecordInvalid (source : Address)
  | CallMarkForRemoval (source : Address)
  | CallCancelRemoval (source : Address)
  | CallFinalizeRemoval (source : Address)
  | CallPrune
  | CallSetGovernance (approvers : list Address) (threshold : Z)
  | CallProposeSource (proposer source : Address) (name : string)
  | CallApproveSource (approver : Address) (proposal_id : Z)
  | CallSetGeo (source : Address) (metadata : SourceGeoMetadata)
  | CallDepositBond (source : Address)
  | CallEnroll (source : Address) (name : string)
  | CallSubmitEvidence (source : Address) (identity endpoint contact reliability : string)
  | CallActivate (source : Address)
  | CallOnboard (source : Address) (name : string) (identity : Bytes)
  | CallGraduate (source : Address)
  | CallOffboard (source : Address) (evidence_asset : option Address).

Section Calls.
Context `{BP : BuildProfile} `{CR : Crypto} `{US : UnstableSort} `{XD : Xdr} `{CB : Callbacks} `{TK : Token}.

Definition run_source_call (call : SourceCall) : M unit :=
  match call with
  | CallAddSource source name => add_source source name
  | CallAddSourceWithAssets source name assets => add_source_with_assets source name assets
  | CallRemoveSource source => remove_source source
  | CallRemoveSources sources => remove_sources sources
  | CallAddSourceAsset source asset => add_source_asset source asset
  | CallRemoveSourceAsset source asset => remove_source_asset source asset
  | CallSetVerification source verified verification_method verifier =>
      set_source_verification source verified verification_method verifier
  | CallRotateKey source new_address => rotate_source_key source new_address
  | CallSubmitHeartbeat source => submit_heartbeat source
  | CallIsInactive source => Sources.is_source_inactive source;; mret tt
  | CallCountInactive => get_inactive_sources;; mret tt
  | CallRecordInvalid source => record_invalid_submission source
  | CallMarkForRemoval source => mark_source_for_removal source
  | CallCancelRemoval source => cancel_source_removal source
  | CallFinalizeRemoval source => finalize_source_removal source
  | CallPrune => check_and_prune_inactive_sources;; mret tt
  | CallSetGovernance approvers threshold => set_source_governance approvers threshold
  | CallProposeSource proposer source name => propose_source proposer source name;; mret tt
  | CallApproveSource approver proposal_id => approve_source approver proposal_id
  | CallSetGeo source metadata => set_source_geo source metadata
  | CallDepositBond source => deposit_source_bond source
  | CallEnroll source name => enroll_source source name
  | CallSubmitEvidence source identity endpoint contact reliability =>
      submit_source_evidence source identity endpoint contact reliability
  | CallActivate source => activate_source source
  | CallOnboard source name identity => onboard source name identity
  | CallGraduate source => graduate source
  | CallOffboard source evidence_asset => offboard source evidence_asset
  end.

(** The histories of the contract under calls of the source components, by any
    callers, interleaved with the rest of the contract. *)
Inductive source_reach : World → Prop :=
  | src_start w : (∀ k, source_key k → persistent w k = None) → source_reach w
  | src_call w c call : source_reach w → source_reach (invoke (run_source_call call) c w)
  | src_other w w' : source_reach w → (∀ k, source_key k → persistent w' k = persistent w k) → source_reach w'.

Lemma remove_inner_inv source : preserves sources_inv (remove_source_inner source).
Proof. intros c w u w' Hw H. apply remove_inner_Ok in H as (_ & H & _). by eapply removed_inv. Qed.

Lemma internal_removal_Ok source c w u w' : _remove_source_internal source c w = Ok u w' → removed source w w'.
Proof.
  unfold _remove_source_internal, read_oracle_sources. intros H. step H.
  rewrite run_bind, (run_get_bump_or_as KeySrcRegistry _ (reg w)) in H by (unfold reg; by read_store).
  steps H. subst w'. unfold removed, sources_of, reg at 1 3. read_store.
  split; [done|]. split; [done|]. split; [done|]. intros k Hk1 Hk2 Hk3 Hk4.
  rewrite !persistent_put_ne; try done; by intros <-.
Qed.

Lemma internal_removal_inv source : preserves sources_inv (_remove_source_internal source).
Proof. intros c w u w' Hw H%internal_removal_Ok. by eapply removed_inv. Qed.

Lemma rotate_inv source new_address : preserves sources_inv (rotate_source_key source new_address).
Proof. intros c w u w' Hw H. eapply rotated_inv; [by eapply rotate_Ok|done]. Qed.

(** An update of the registry that keeps its list and its names. *)
Lemma reregister_inv (f : OracleSources → OracleSources) (rest : M unit) :
  (∀ r, os_sources (f r) = os_sources r ∧ os_metadata (f r) = os_metadata r) → preserves sources_inv rest →
  preserves sources_inv (r ← read_oracle_sources; set KeySrcRegistry (f r);; rest).
Proof.
  intros Hf Hrest c w u w' Hw H. unfold read_oracle_sources in H.
  rewrite run_bind, (run_get_bump_or_as KeySrcRegistry _ (reg w)) in H by done. step H.
  eapply Hrest; [|exact H]. destruct Hw as [N1 N2 N3 N4 N5 N6 N7]. destruct (Hf (reg w)) as [Es Em].
  set (w1 := put_persistent KeySrcRegistry _ w).
  assert (sources_of w1 = sources_of w ∧ os_metadata (reg w1) = os_metadata (reg w)) as [Es1 Em1].
  { unfold sources_of, reg, w1. by read_store. }
  split; rewrite ?Es1, ?Em1; try done; intros s; rewrite ?Es1, ?Em1; unfold w1; by read_store.
Qed.

Ltac source_step := apply preserves_bind; [first [apply register_inv | apply source_frame; solve [deep_frame]]|intros].

Lemma verification_inv source verified verification_method verifier :
  preserves sources_inv (set_source_verification source verified verification_method verifier).
Proof.
  unfold set_source_verification. do 6 source_step.
  apply (reregister_inv (λ r, MkOracleSources (os_sources r) (os_metadata r) (<[source := _]> (os_verification r)))); [done|].
  apply source_frame. deep_frame.
Qed.

Lemma add_source_inv source name : preserves sources_inv (add_source source name).
Proof. unfold add_source. repeat source_step. apply source_frame. deep_frame. Qed.

Lemma finalize_inv source : preserves sources_inv (finalize_source_removal source).
Proof.
  unfold finalize_source_removal. intros c w u w' Hw H. do 3 step H.
  by rewrite (proj2 (ri_phased _ Hw source)) in H.
Qed.

Lemma mark_inv source : preserves sources_inv (mark_source_for_removal source).
Proof.
  unfold mark_source_for_removal. intros c w u w' Hw H. do 4 step H.
  by rewrite (proj1 (ri_phased _ Hw source)) in Eg1.
Qed.

Lemma prune_one_inv ledger src : preserves sources_inv (prune_one ledger src).
Proof.
  unfold prune_one. do 3 source_step. apply preserves_bind; [apply internal_removal_inv|].
  intros _. apply source_frame. deep_frame.
Qed.

Lemma modifies_candidates max_inactive ledger l : modifies not_source (prune_candidates max_inactive ledger l).
Proof. induction l as [|x l IH]; simpl; deep_frame; apply IH. Qed.
Lemma modifies_active l : modifies not_source (active_sources l).
Proof. induction l as [|x l IH]; simpl; deep_frame; apply IH. Qed.
#[local] Hint Resolve modifies_candidates modifies_active : modifies.

Lemma prune_loop_inv min_required ledger l : ∀ n, preserves sources_inv (Sources.prune_loop min_required ledger n l).
Proof.
  induction l as [|x l IH]; intros n; simpl; [apply source_frame; deep_frame|]. do 2 source_step. case_match.
  - apply source_frame. deep_frame.
  - apply preserves_bind; [apply prune_one_inv|intros _]. source_step. apply IH.
Qed.

Lemma onboard_inv source name identity : preserves sources_inv (onboard source name identity).
Proof.
  unfold onboard. do 6 source_step. apply preserves_bind; [apply add_source_inv|intros _].
  repeat source_step. apply source_frame. deep_frame.
Qed.

Lemma modifies_count_inactive l : ∀ n, modifies not_source (count_inactive l n).
Proof.
  induction l as [|x l IH]; intros n; cbn [count_inactive]; [apply modifies_ret|].
  apply modifies_bind; [apply inactive_frame|intros b]. apply modifies_bind; [destruct b; deep_frame|intros z; apply IH].
Qed.

Lemma modifies_revocations source assets : modifies not_source (for_each assets (revoke_asset source)).
Proof. deep_frame. Qed.
Lemma modifies_slash source asset : modifies not_source (slash_on_evidence source asset).
Proof. deep_frame. Qed.

Lemma offboard_inv source evidence_asset : preserves sources_inv (offboard source evidence_asset).
Proof.
  unfold offboard. do 9 (apply preserves_bind; [apply source_frame; first [apply modifies_revocations |
    destruct evidence_asset; [apply modifies_slash|deep_frame] | deep_frame]|intros ?]).
  intros c w u w' Hw H. do 2 step H. apply bind_Ok in H as ([] & w1 & H1 & H).
  apply bind_Ok in H as ([] & w2 & H2 & H).
  assert (sources_inv w2) as Hw2.
  { apply remove_inner_Ok in H2 as (_ & (Es & Em & Ea & Hk) & _). apply (removed_inv source w); [|done].
    assert (∀ k, source_key k → k ≠ KeyLcRevokedAddress source → persistent w1 k = persistent w k) as Hk1.
    { intros k Hk1 Hne. rewrite (run_source_frame _ _ _ _ _ _ H1); [|deep_frame|done].
      rewrite !persistent_put_ne; try done; by intros <-. }
    assert (reg w1 = reg w) as Er by (unfold reg; by rewrite (Hk1 KeySrcRegistry I)).
    unfold removed. unfold sources_of in *. rewrite <- Er. split; [done|]. split; [done|]. split; [done|].
    intros k Hk2 Hn1 Hn2 Hn3. rewrite Hk by done. by apply Hk1. }
  assert (preserves sources_inv (recompute_all RecomputeRemoved)) as Hr by apply source_frame, recompute_all_frame.
  apply bind_Ok in H as ([] & w3 & H3 & H). eapply (Hr _ _ _ _ Hw2) in H3. step H. subst w'.
  by apply (sources_inv_frame w3).
Qed.

Lemma source_call_inv call : preserves sources_inv (run_source_call call).
Proof.
  destruct call; cbn [run_source_call].
  - apply add_source_inv.
  - unfold add_source_with_assets. repeat source_step. apply source_frame. deep_frame.
  - unfold remove_source. do 5 source_step. case_match; [apply source_frame; deep_frame|].
    apply preserves_bind; [apply remove_inner_inv|intros _].
    apply preserves_bind; [apply source_frame, recompute_change_frame|intros _]. apply source_frame. deep_frame.
  - unfold remove_sources. do 3 source_step. apply preserves_bind; [|intros _; apply source_frame, recompute_all_frame].
    apply preserves_for_each. apply remove_inner_inv.
  - apply source_frame. deep_frame.
  - apply source_frame, remove_asset_frame.
  - apply verification_inv.
  - apply rotate_inv.
  - apply source_frame, heartbeat_frame.
  - apply preserves_bind; [apply source_frame, inactive_frame|intros _]. by apply source_frame, modifies_ret.
  - unfold get_inactive_sources. repeat source_step. apply preserves_bind; [|intros _; by apply source_frame, modifies_ret].
    source_step. apply source_frame, modifies_count_inactive.
  - apply source_frame, invalid_frame.
  - apply mark_inv.
  - intros c w u w' Hw H. unfold cancel_source_removal in H. do 3 step H.
    step H. by rewrite (proj2 (ri_phased _ Hw source)) in Eg1.
  - apply finalize_inv.
  - unfold check_and_prune_inactive_sources. repeat source_step. apply preserves_bind; [|intros _; apply source_frame, modifies_ret].
    repeat source_step. apply prune_loop_inv.
  - apply source_frame. deep_frame.
  - apply source_frame. deep_frame.
  - unfold approve_source. do 3 source_step. case_match; [|apply source_frame; deep_frame].
    do 3 source_step. apply preserves_bind; [|intros _; apply source_frame; deep_frame].
    case_match; [|apply source_frame; deep_frame]. source_step. apply source_frame. deep_frame.
  - apply source_frame. deep_frame.
  - apply source_frame, deposit_frame.
  - apply source_frame. deep_frame.
  - apply source_frame. deep_frame.
  - unfold activate_source. do 3 source_step. case_match; [|apply source_frame; deep_frame].
    do 2 source_step. apply source_frame. deep_frame.
  - apply onboard_inv.
  - apply source_frame. deep_frame.
  - apply offboard_inv.
Qed.

Lemma sources_inv_empty w :
  reg w = MkOracleSources [] ∅ ∅ → (∀ k, source_key k → k ≠ KeySrcRegistry → persistent w k = None) → sources_inv w.
Proof.
  intros E H. split; unfold sources_of; rewrite ?E; cbn.
  - constructor.
  - intros s. rewrite (H (KeySrcActive s) I) by done. split; [by intros ?%elem_of_nil|done].
  - intros s v. by rewrite (H (KeySrcActive s) I).
  - intros s. rewrite elem_of_nil. split; [done|intros [n Hn]]. by rewrite lookup_empty in Hn.
  - intros s name. by rewrite lookup_empty.
  - intros s. split; [by apply (H (KeySource s) I)|by apply (H (KeySourcePendingRemoval s) I)].
  - intros s _. apply not_elem_of_nil.
Qed.

Lemma sources_inv_start w : (∀ k, source_key k → persistent w k = None) → sources_inv w.
Proof. intros H. apply sources_inv_empty; [|by auto]. unfold reg. by rewrite (H KeySrcRegistry I). Qed.

Lemma source_reach_inv w : source_reach w → sources_inv w.
Proof.
  induction 1 as [w H|w c call _ IH|w w' _ IH H].
  - by apply sources_inv_start.
  - unfold invoke. destruct (run_source_call call c w) as [[] w'|?] eqn:E; [|done]. by eapply source_call_inv.
  - by eapply sources_inv_frame.
Qed.

(** In every state the contract can reach, by any calls of the source
    components in any order and from anyone, the registry lists no source
    twice; an address is listed exactly when its activity entry holds, and
    exactly when it carries a name; every name is non-empty and within the
    length limit; an address revoked at offboarding is not listed; and no
    source is ever pending a phased removal, since marking one reads an entry
    that nothing writes. *)
Theorem source_registry_consistent w (Hr : source_reach w) :
  NoDup (sources_of w) ∧
  (∀ s, s ∈ sources_of w ↔ persistent w (KeySrcActive s) = Some true) ∧
  (∀ s, s ∈ sources_of w ↔ ∃ name, os_metadata (reg w) !! s = Some name) ∧
  (∀ s name, os_metadata (reg w) !! s = Some name →
     name ≠ "" ∧ Z.of_nat (String.length name) <= MAX_SOURCE_NAME_LENGTH) ∧
  (∀ s, persistent w (KeyLcRevokedAddress s) ≠ None → s ∉ sources_of w) ∧
  (∀ s, persistent w (KeySourcePendingRemoval s) = None).
Proof.
  destruct (source_reach_inv w Hr) as [H1 H2 _ H4 H5 H6 H7].
  split_and!; [done|done|done|done|done|]. intros s. apply H6.
Qed.
End Calls.

(** An oracle with an administrator and one source, added by the administrator. *)
Section Toy_registry.

Definition toy_token : Token := {| token_accepts _ _ _ _ _ _ := true |}.
Definition toy_registry_start : World := put_persistent KeyAdmin (Some 9%N) empty_world.
Definition toy_registry_world : World :=
  invoke (@run_source_call Wrapping toy_crypto toy_sort toy_xdr toy_callbacks toy_token (CallAddSource 1%N "reuters"))
    (MkCtx 1 1000 (λ _, true) 0%N) toy_registry_start.

End Toy_registry.

Lemma source_registry_consistent_witness :
  1%N ∈ sources_of toy_registry_world ∧ NoDup (sources_of toy_registry_world).
Proof.
  split; [apply (bool_decide_eq_true_1 (1%N ∈ sources_of toy_registry_world)); vm_compute; reflexivity|].
  apply (@source_registry_consistent Wrapping toy_crypto toy_sort toy_xdr toy_callbacks toy_token).
  apply src_call, src_start. intros k Hk. destruct k; try destruct Hk; reflexivity.
Defined.
