(* ===== verification/Triggers.v ===== *)
(** * [triggers.rs]: what makes an aggregation start by itself

    Three triggers per asset: an interval that a keeper pokes, a number of
    submissions, and a submission far from the aggregate. *)
From stdpp Require Import base list strings.
From S2P Require Import Prelude Machine Types Host AuditLog Config Admin Assets Frames FreshnessWeight.
From S2P Require Import Provenance PriceCallback Aggregation.
#[local] Open Scope Z_scope.
#[local] Set Default Goal Selector "!".

Definition TRIGGER_TYPE_TIME : Z := 0.
Definition TRIGGER_TYPE_THRESHOLD : Z := 1.
Definition TRIGGER_TYPE_DEVIATION : Z := 2.

Definition set_time_trigger (asset : Address) (interval_seconds : Z) : M unit :=
  admin ← get_admin;
  require_auth admin;;
  check_registered_asset asset;;
  put (KeyTriggerTimeInterval asset) interval_seconds;;
  publish (MkTriggerConfigChangedEvent asset TRIGGER_TYPE_TIME interval_seconds).

Definition get_time_trigger (asset : Address) : M Z := get_bump_or (KeyTriggerTimeInterval asset) 0.

Definition set_submission_threshold_trigger (asset : Address) (threshold : Z) : M unit :=
  admin ← get_admin;
  require_auth admin;;
  check_registered_asset asset;;
  Flags.mark Flags.TRIGGERS;;
  put (KeyTriggerSubmissionThreshold asset) threshold;;
  publish (MkTriggerConfigChangedEvent asset TRIGGER_TYPE_THRESHOLD threshold).

Definition get_submission_threshold_trigger (asset : Address) : M Z :=
  get_flagged Flags.TRIGGERS (KeyTriggerSubmissionThreshold asset) 0.

Definition set_deviation_trigger (asset : Address) (deviation_bps : Z) : M unit :=
  admin ← get_admin;
  require_auth admin;;
  check_registered_asset asset;;
  panic_if (100000 <? deviation_bps) InvalidConfiguration;;
  Flags.mark Flags.TRIGGERS;;
  put (KeyTriggerDeviationBps asset) deviation_bps;;
  publish (MkTriggerConfigChangedEvent asset TRIGGER_TYPE_DEVIATION deviation_bps).

Definition get_deviation_trigger (asset : Address) : M Z :=
  get_flagged Flags.TRIGGERS (KeyTriggerDeviationBps asset) 0.

Definition read_submission_count (asset : Address) : M Z := get_or (KeyTriggerSubmissionCount asset) 0.
Definition write_submission_count (asset : Address) (count : Z) : M unit :=
  put (KeyTriggerSubmissionCount asset) count.
Definition read_last_agg_time (asset : Address) : M Z := get_or (KeyTriggerLastAggTime asset) 0.
Definition write_last_agg_time (asset : Address) (now : Z) : M unit := put (KeyTriggerLastAggTime asset) now.

(** The distance of two prices in basis points of [reference], a positive
    price. *)
Definition deviation_from `{BuildProfile} (price reference : Z) : M Z :=
  diff ← lift (if reference <? price then i128 (price - reference) else i128 (reference - price));
  lift (div_i128 (sat_i128 (diff * 10000)) reference).

Definition deviates `{BuildProfile} (asset : Address) (price deviation_bps : Z) : M bool :=
  if 0 <? deviation_bps then
    agg ← get (KeyAggregate asset);
    match agg with
    | Some agg =>
        if 0 <? ap_price agg then
          change_bps ← deviation_from price (ap_price agg);
          mret (deviation_bps <=? change_bps)
        else mret false
    | None => mret false
    end
  else mret false.

(** The submission is counted, unless it fires the trigger. *)
Definition count_submission (asset : Address) (threshold : Z) : M bool :=
  count ← read_submission_count asset;
  let count := sat_u32 (count + 1) in
  if threshold <=? count then mret true else write_submission_count asset count;; mret false.

Section Firing.
Context `{BP : BuildProfile} `{CR : Crypto} `{US : UnstableSort} `{XD : Xdr} `{CB : Callbacks}.

Definition record_submission_for_triggers (asset : Address) (price : Z) : M unit :=
  threshold ← get_submission_threshold_trigger asset;
  deviation_bps ← get_deviation_trigger asset;
  if (threshold =? 0) && (deviation_bps =? 0) then mret tt
  else
    deviated ← deviates asset price deviation_bps;
    fired ← (if negb deviated && (0 <? threshold) then count_submission asset threshold else mret deviated);
    if fired : bool then
      write_submission_count asset 0;;
      now ← ledger_timestamp;
      write_last_agg_time asset now;;
      do_aggregate asset;;
      publish (MkAutoTriggerFiredEvent asset
        (if deviated : bool then TRIGGER_TYPE_DEVIATION else TRIGGER_TYPE_THRESHOLD))
    else mret tt.

Definition poke_time_trigger (asset : Address) : M bool :=
  check_registered_asset asset;;
  interval ← get_time_trigger asset;
  if interval =? 0 then mret false
  else
    now ← ledger_timestamp;
    last ← read_last_agg_time asset;
    if sat_u64 (now - last) <? interval then mret false
    else
      write_last_agg_time asset now;;
      write_submission_count asset 0;;
      do_aggregate asset;;
      publish (MkAutoTriggerFiredEvent asset TRIGGER_TYPE_TIME);;
      mret true.
End Firing.
