(* ===== verification/Submission.v ===== *)
(** * [prices.rs]: submitting prices

    The entry points by which a source stores its price of an asset: singly
    with a nonce, with a volume, in a batch, for another module, and as the
    leaves of a Merkle tree. *)
From stdpp Require Import base list strings.
From S2P Require Import Prelude Machine StorageMath Types Host AuditLog Config Admin Assets Frames FreshnessWeight.
From S2P Require Import Correlation SourceGuards Latency Provenance PriceCallback Policy Aggregation Sources.
From S2P Require Import Triggers.
#[local] Open Scope Z_scope.
#[local] Set Default Goal Selector "!".

(** ** Guards *)

Definition read_commit_reveal_enabled : M bool :=
  on ← Flags.on Flags.COMMIT_REVEAL;
  if negb on then mret false else get_or KeyCommitRevealEnabled false.

Definition enforce_commit_reveal_for_bft : M unit :=
  fault_tolerance ← read_bft_fault_tolerance;
  panic_if (0 <? fault_tolerance) CommitRevealRequired;;
  enabled ← read_commit_reveal_enabled;
  panic_if enabled CommitRevealRequired.

Definition check_deviation_circuit_breaker (asset : Address) : M bool := is_circuit_breaker_tripped asset.

(** The breaker trips, then the call panics. *)
Definition trip_and_panic `{BuildProfile} (asset : Address) (prev candidate change_bps max_change_bps : Z)
    : M unit :=
  trip_circuit_breaker asset prev candidate change_bps max_change_bps;;
  panic_with_error CircuitBreakerTripped.

Definition validate_price_submission `{BuildProfile} (asset source : Address) (price timestamp decimals : Z)
    : M unit :=
  bounds ← get_price_bounds asset;
  panic_if ((price <? pb_min_price bounds) || (pb_max_price bounds <? price)) PriceOutOfBounds;;
  paused ← is_asset_paused asset;
  (if paused : bool then panic_with_error AssetPaused
   else tripped ← is_circuit_breaker_tripped asset; panic_if tripped AssetPaused);;
  if 0 <? pb_max_change_bps_per_ledger bounds then
    prev ← get_or (KeyAggregate asset) (MkAggregatePrice 0 0 0 decimals false 0);
    if 0 <? ap_price prev then
      candidate ← build_candidate_aggregate asset source price timestamp decimals;
      match candidate with
      | Some candidate =>
          change_bps ← deviation_from (ap_price candidate) (ap_price prev);
          if pb_max_change_bps_per_ledger bounds <? change_bps then
            trip_and_panic asset (ap_price prev) (ap_price candidate) change_bps
              (pb_max_change_bps_per_ledger bounds)
          else mret tt
      | None => mret tt
      end
    else mret tt
  else mret tt.

Definition record_successful_submission (source : Address) : M unit :=
  ledger ← ledger_sequence;
  record_price_submitted source ledger;;
  total ← get_or KeyTotalSubmissionCount 0;
  put KeyTotalSubmissionCount (sat_u32 (total + 1));;
  count ← get_or (KeySourceSubmissionCount source) 0;
  put (KeySourceSubmissionCount source) (sat_u32 (count + 1)).

(** The submission is written and announced. *)
Definition store_submission (asset source : Address) (price timestamp decimals ledger ledger_time : Z)
    (volume : option Z) : M unit :=
  set (KeySubmission asset source) (MkPriceEntry price timestamp source decimals ledger ledger_time volume).

Definition announce_submission (asset source : Address) (price timestamp : Z) : M unit :=
  publish (MkPriceSubmittedEvent asset source price timestamp).

(** ** Single submissions *)

Section Submitting.
Context `{BP : BuildProfile} `{CR : Crypto} `{US : UnstableSort} `{XD : Xdr} `{CB : Callbacks}.

(** A rejected submission is recorded against its source before the panic. *)
Definition reject (source : Address) (e : ErrorCode) : M unit :=
  record_invalid_submission source;; panic_with_error e.

Definition check_not_future (source : Address) (timestamp ledger_time : Z) : M unit :=
  threshold ← get_timestamp_threshold;
  if sat_u64 (ledger_time + threshold) <? timestamp then reject source InvalidTimestamp else mret tt.

(** The checks before a submission is looked at: who submits, and whether the
    asset takes submissions. *)
Definition check_submitter (source asset : Address) : M unit :=
  check_not_paused;;
  require_auth source;;
  check_source source;;
  check_registered_asset asset;;
  disabled ← is_asset_disabled asset;
  panic_if disabled AssetDisabled;;
  check_not_frozen asset;;
  check_source_asset source asset;;
  enforce_commit_reveal_for_bft;;
  suspended ← is_source_suspended source;
  panic_if suspended SourceSuspended.

Definition accept_nonce (source : Address) (nonce : Z) : M unit :=
  last_nonce ← get_or (KeySourceNonce source) 0;
  panic_if (nonce <=? last_nonce) InvalidNonce;;
  put (KeySourceNonce source) nonce.

(** A submission older than the stored one is refused; one that no aggregate
    counted is recorded when it is replaced. *)
Definition check_replaced (asset source : Address) (timestamp : Z) : M unit :=
  prev ← get (KeySubmission asset source);
  match prev with
  | Some prev =>
      panic_if (timestamp <? pe_timestamp prev) InvalidTimestamp;;
      last ← Latency.last_aggregate_ledger asset;
      if last <? pe_last_updated prev then Latency.record_never_counted source asset (pe_last_updated prev)
      else mret tt
  | None => mret tt
  end.

Definition aggregate_if_quorum (asset : Address) (current_ledger decimals : Z) : M unit :=
  enough ← maybe_aggregate_after_submission asset current_ledger;
  if enough : bool then aggregate_asset asset current_ledger decimals else mret tt.

Definition submit_price (source asset : Address) (price timestamp nonce : Z) : M unit :=
  check_submitter source asset;;
  accept_nonce source nonce;;
  (if price <=? 0 then reject source InvalidPrice else mret tt);;
  ledger_time ← ledger_timestamp;
  decimals ← get_decimals;
  validate_price_submission asset source price timestamp decimals;;
  check_not_future source timestamp ledger_time;;
  check_replaced asset source timestamp;;
  tripped ← check_deviation_circuit_breaker asset;
  if tripped : bool then mret tt
  else
    decimals ← get_decimals;
    current_ledger ← ledger_sequence;
    store_submission asset source price timestamp decimals current_ledger ledger_time None;;
    record_successful_submission source;;
    announce_submission asset source price timestamp;;
    Correlation.validate_correlation asset price source;;
    record_submission_for_triggers asset price;;
    aggregate_if_quorum asset current_ledger decimals.

Definition submit_price_auto (source asset : Address) (price timestamp : Z) : M unit :=
  last_nonce ← get_or (KeySourceNonce source) 0;
  submit_price source asset price timestamp (sat_u64 (last_nonce + 1)).

Definition submit_price_with_volume (source asset : Address) (price timestamp : Z) (volume : option Z)
    : M unit :=
  check_submitter source asset;;
  (if (price <=? 0) || (default 1 volume <? 0) then reject source InvalidPrice else mret tt);;
  ledger_time ← ledger_timestamp;
  decimals ← get_decimals;
  validate_price_submission asset source price timestamp decimals;;
  check_not_future source timestamp ledger_time;;
  tripped ← check_deviation_circuit_breaker asset;
  if tripped : bool then mret tt
  else
    current_ledger ← ledger_sequence;
    store_submission asset source price timestamp decimals current_ledger ledger_time volume;;
    record_successful_submission source;;
    announce_submission asset source price timestamp;;
    Correlation.validate_correlation asset price source;;
    record_submission_for_triggers asset price;;
    aggregate_asset asset current_ledger decimals.

(** For the modules that check authorisation and pause themselves. *)
Definition submit_price_internal (source asset : Address) (price timestamp : Z) : M unit :=
  check_source source;;
  check_registered_asset asset;;
  check_source_asset source asset;;
  enforce_commit_reveal_for_bft;;
  panic_if (price <=? 0) InvalidPrice;;
  tripped ← check_deviation_circuit_breaker asset;
  if tripped : bool then mret tt
  else
    decimals ← get_decimals;
    current_ledger ← ledger_sequence;
    ledger_time ← ledger_timestamp;
    store_submission asset source price timestamp decimals current_ledger ledger_time None;;
    record_successful_submission source;;
    announce_submission asset source price timestamp;;
    aggregate_if_quorum asset current_ledger decimals.

(** ** Batches *)

Definition validate_batch_entry (source : Address) (decimals ledger_time : Z)
    (entry : Address * Z * Z) : M unit :=
  let '(asset, price, timestamp) := entry in
  check_registered_asset asset;;
  check_not_frozen asset;;
  check_source_asset source asset;;
  (if price <=? 0 then reject source InvalidPrice else mret tt);;
  validate_price_submission asset source price timestamp decimals;;
  check_not_future source timestamp ledger_time.

Definition store_batch_entry (source asset : Address) (price timestamp decimals current_ledger ledger_time : Z)
    : M unit :=
  store_submission asset source price timestamp decimals current_ledger ledger_time None;;
  record_successful_submission source;;
  set (KeyLastSubmissionLedger source asset) current_ledger;;
  flagged ← has (KeySourceNonCompliant source asset);
  (if flagged : bool then remove (KeySourceNonCompliant source asset) else mret tt);;
  announce_submission asset source price timestamp.

(** The entries are stored in order; a tripped breaker ends the call, which
    keeps what it stored: [false]. *)
Fixpoint store_batch (source : Address) (decimals current_ledger ledger_time : Z)
    (asset_prices : list (Address * Z * Z)) : M bool :=
  match asset_prices with
  | [] => mret true
  | (asset, price, timestamp) :: asset_prices =>
      tripped ← check_deviation_circuit_breaker asset;
      if tripped : bool then mret false
      else
        store_batch_entry source asset price timestamp decimals current_ledger ledger_time;;
        store_batch source decimals current_ledger ledger_time asset_prices
  end.

Definition submit_prices (source : Address) (asset_prices : list (Address * Z * Z)) : M unit :=
  check_not_paused;;
  require_auth source;;
  check_source source;;
  enforce_commit_reveal_for_bft;;
  suspended ← is_source_suspended source;
  panic_if suspended SourceSuspended;;
  decimals ← get_decimals;
  ledger_time ← ledger_timestamp;
  current_ledger ← ledger_sequence;
  for_each asset_prices (validate_batch_entry source decimals ledger_time);;
  stored ← store_batch source decimals current_ledger ledger_time asset_prices;
  if stored : bool then
    for_each asset_prices (λ '(asset, _, _), aggregate_if_quorum asset current_ledger decimals)
  else mret tt.

(** ** Merkle batches *)

(** [x >> i] of a [u32] by a [u32]. *)
Definition shr_u32 (x i : Z) : option Z :=
  if i <? 32 then Some (Z.shiftr x i)
  else match build_profile with OverflowChecks => None | Wrapping => Some (Z.shiftr x (i mod 32)) end.

Definition hash_leaf (leaf : MerkleLeaf) : Bytes :=
  sha256 (to_le_bytes 16 (as_u128 (ml_price leaf)) ++ to_le_bytes 8 (ml_timestamp leaf)).

Definition hash_pair (left right : Bytes) : Bytes := sha256 (left ++ right).

Fixpoint climb (left_bitmap i : Z) (current : Bytes) (siblings : list Bytes) : option Bytes :=
  match siblings with
  | [] => Some current
  | sibling :: siblings =>
      bits ← shr_u32 left_bitmap i;
      climb left_bitmap (i + 1)
        (if Z.land bits 1 =? 1 then hash_pair sibling current else hash_pair current sibling) siblings
  end.

Definition verify_proof (root : Bytes) (proof : MerkleProof) : option bool :=
  top ← climb (mp_left_bitmap proof) 0 (hash_leaf (mp_leaf proof)) (mp_siblings proof);
  Some (bool_decide (top = root)).

Definition verify_leaf (root : Bytes) (ledger_time threshold : Z) (proof : MerkleProof) : M unit :=
  valid ← lift (verify_proof root proof);
  panic_if (negb valid) InvalidConfiguration;;
  let leaf := mp_leaf proof in
  check_registered_asset (ml_asset leaf);;
  check_source_asset (ml_source leaf) (ml_asset leaf);;
  panic_if (ml_price leaf <=? 0) InvalidPrice;;
  panic_if (sat_u64 (ledger_time + threshold) <? ml_timestamp leaf) InvalidTimestamp.

Definition store_leaf (decimals current_ledger ledger_time : Z) (proof : MerkleProof) : M unit :=
  let leaf := mp_leaf proof in
  store_submission (ml_asset leaf) (ml_source leaf) (ml_price leaf) (ml_timestamp leaf) decimals
    current_ledger ledger_time None;;
  announce_submission (ml_asset leaf) (ml_source leaf) (ml_price leaf) (ml_timestamp leaf).

Definition submit_price_merkle (source : Address) (root : Bytes) (proofs : list MerkleProof) : M unit :=
  check_not_paused;;
  require_auth source;;
  check_source source;;
  suspended ← is_source_suspended source;
  panic_if suspended NotAuthorized;;
  decimals ← get_decimals;
  ledger_time ← ledger_timestamp;
  threshold ← get_timestamp_threshold;
  current_ledger ← ledger_sequence;
  for_each proofs (verify_leaf root ledger_time threshold);;
  for_each proofs (store_leaf decimals current_ledger ledger_time);;
  for_each proofs (λ proof, aggregate_asset (ml_asset (mp_leaf proof)) current_ledger decimals).
End Submitting.

(** ** Simulation *)

Definition simulate_aggregation `{BuildProfile} (asset : Address) (hypothetical_prices : list (Address * Z))
    : M (option Z) :=
  check_registered_asset asset;;
  min_required ← get_min_sources_required;
  let prices := filter (λ price, 0 < price) hypothetical_prices.*2 in
  if Z.of_nat (length prices) <? min_required then mret None
  else
    method ← get_aggregation_method;
    price ← lift (if method =? 1 then compute_mean prices
                  else if method =? 2 then compute_trimmed_mean prices 10
                  else compute_median prices);
    mret (Some price).
