(* ===== verification/SubmissionSafety.v ===== *)
(** * What a submission needs and what it leaves *)
From stdpp Require Import base list strings sorting.
From S2P Require Import Prelude Machine StorageMath Types Host AuditLog Config Admin Assets Frames FreshnessWeight.
From S2P Require Import Correlation SourceGuards Latency Provenance PriceCallback Policy Aggregation RoundFrames RoundSafety Sources.
From S2P Require Import Triggers Submission.
#[local] Open Scope Z_scope.
#[local] Set Default Goal Selector "!".

(** ** Calls that keep the flag word and write few entries *)

Definition flags_are (f : option Z) (w : World) : Prop := instance_flags w = f.

Lemma flags_are_same {A} f (m : M A) :
  (∀ c w a w', m c w = Ok a w' → instance_flags w' = instance_flags w) → preserves (flags_are f) m.
Proof. intros Hm c w a w' Hw H. unfold flags_are in *. by rewrite (Hm _ _ _ _ H). Qed.

Ltac leaves_flags :=
  let H := fresh in
  apply flags_are_same; intros ? ? ? ? H;
  first [ discriminate H | solve [by injection H as <- <-] | solve [by injection H as <-]
        | rewrite run_get_bump_or in H; by injection H as _ <-
        | rewrite run_get_touch in H; by injection H as _ <-
        | rewrite run_put in H; by injection H as _ <-
        | rewrite run_flag_on in H; by injection H as _ <- | by ok_inv ].
Ltac deep_still :=
  repeat first
    [ progress intros
    | match goal with
      | |- preserves _ (_ ≫= _) => apply preserves_bind
      | |- preserves _ (for_each _ _) => apply preserves_for_each
      | |- preserves _ (fold_m _ _ _) => apply preserves_fold_m
      | |- preserves _ (match ?x with _ => _ end) => destruct x
      | |- preserves _ _ => solve [eauto 2 with still nocore]
      | |- preserves _ _ => leaves_flags
      | |- preserves _ ?m => let h := head_of m in progress unfold h
      end ].
Create HintDb still.

(** The entries that the checks of a submission may write: the index of the
    asset registry, expired demerits and the latency samples. *)
Definition intake (k : DataKey) : Prop :=
  match k with
  | KeyAssetRegistryIndex _ | KeySourceDemerits _ | KeyLatencySamples _ _ => True
  | _ => False
  end.

Definition agree (w w' : World) : Prop :=
  (∀ k, ¬ intake k → persistent w' k = persistent w k) ∧ instance_flags w' = instance_flags w.

Definition quiet {A} (m : M A) : Prop := modifies intake m ∧ ∀ f, preserves (flags_are f) m.

Lemma quiet_run {A} (m : M A) c w a w' : quiet m → m c w = Ok a w' → agree w w'.
Proof. intros [Hm Hf] H. split; [by apply (Hm _ _ _ _ H)|]. by apply (Hf _ c w a w'). Qed.

Lemma agree_refl w : agree w w.
Proof. done. Qed.
Lemma agree_trans w1 w2 w3 : agree w1 w2 → agree w2 w3 → agree w1 w3.
Proof. intros [H1 F1] [H2 F2]. split; [|congruence]. intros k Hk. by rewrite H2, H1. Qed.

Lemma agree_key w w' k : agree w w' → ¬ intake k → persistent w' k = persistent w k.
Proof. intros [H _]. apply H. Qed.
Lemma agree_on w w' bit : agree w w' → Flags.is_on w' bit = Flags.is_on w bit.
Proof. intros [_ H]. unfold Flags.is_on. by rewrite H. Qed.
Lemma agree_owned w w' k : agree w w' → owned k → persistent w' k = persistent w k.
Proof. intros H Hk. apply (agree_key _ _ _ H). destruct k; first [by destruct Hk|by intros []]. Qed.

Ltac quiet := split; [deep_frame|intros; deep_still].

(** [settle E] reads the entries and flags of a later world in the first one. *)
Ltac settle E := rewrite ?(agree_on _ _ _ E), ?(agree_key _ _ _ E) by (by intros []).

Section Guards.
Context `{BP : BuildProfile} `{CR : Crypto} `{US : UnstableSort} `{XD : Xdr} `{CB : Callbacks}.

Definition required_bond (w : World) : Z :=
  if Flags.is_on w Flags.SOURCE_BOND then default 0 (persistent w KeySourceBondAmount) else 0.
Definition bond_of (w : World) (source : Address) : Z := default 0 (persistent w (KeySourceBond source)).
Definition known_asset (w : World) (asset : Address) : bool :=
  default false (persistent w (KeyAssetRegistryIndex asset)) || default false (persistent w (KeyAssetRegistered asset)).
Definition demerits_of (w : World) (source : Address) : SourceDemeritState :=
  default no_demerits (persistent w (KeySourceDemerits source)).
Definition bounds_of (w : World) (asset : Address) : PriceBounds :=
  default default_bounds (persistent w (KeyAssetPriceBounds asset)).
Definition tolerance_of (w : World) : Z :=
  if Flags.is_on w Flags.BFT then default 0 (persistent w KeyCfgBftFaultTolerance) else 0.
Definition commits_required (w : World) : bool :=
  (0 <? tolerance_of w) ||
  (if Flags.is_on w Flags.COMMIT_REVEAL then default false (persistent w KeyCommitRevealEnabled) else false).
Definition latest_time (c : Ctx) (w : World) : Z :=
  sat_u64 (timestamp c + flagged w Flags.TIMESTAMP_THRESHOLD KeyCfgTimestampThreshold DEFAULT_TIMESTAMP_THRESHOLD).

(** Who may submit which asset. *)
Record submitter_ok (c : Ctx) (w : World) (source asset : Address) : Prop := {
  so_running : paused w = false;
  so_signed : authorized c source = true;
  so_active : persistent w (KeySrcActive source) = Some true;
  so_bonded : 0 < required_bond w → required_bond w <= bond_of w source;
  so_known : known_asset w asset = true;
  so_enabled : Flags.is_on w Flags.ASSET_DISABLED = true → persistent w (KeyAssetDisabled asset) ≠ Some true;
  so_unfrozen : Flags.is_on w Flags.FREEZE = true → persistent w (KeyFrozenPrice asset) = None;
  so_assigned assets : Flags.is_on w Flags.SOURCE_ASSETS = true →
    persistent w (KeySourceAssets source) = Some assets → asset ∈ (assets : list Address);
  so_open : commits_required w = false;
  so_unsuspended : Flags.is_on w Flags.SOURCE_DEMERITS = true →
    sd_status (demerits_of w source) = StatusDisqualified →
    ∃ config, get_demerit_config c w = Ok config w ∧
      sat_u32 (sd_status_updated_ledger (demerits_of w source) + dmc_cooldown_ledgers config) <= sequence c
}.

Lemma agree_after_set w k v : intake k → agree w (put_persistent k v w).
Proof.
  intros Hk. split; [|done]. intros k' Hk'. apply persistent_put_ne. by intros ->.
Qed.

Lemma quiet_registered asset : quiet (check_registered_asset asset).
Proof. quiet. Qed.
Lemma quiet_suspended source : quiet (is_source_suspended source).
Proof. quiet. Qed.

Lemma check_source_Ok source c w u w' :
  check_source source c w = Ok u w' →
  w' = w ∧ persistent w (KeySrcActive source) = Some true ∧
  (0 < required_bond w → required_bond w <= bond_of w source).
Proof.
  intros H. split; [by eapply readonly_check_source|]. unfold check_source, get_source_bond in H.
  step H. step H. assert (persistent w (KeySrcActive source) = Some true) as Ha.
  { destruct (persistent w (KeySrcActive source)) as [[]|]; done. }
  split; [done|]. unfold required_bond, bond_of. step H.
  destruct (Flags.is_on w Flags.SOURCE_BOND); cbn [negb] in H; [|lia].
  step H. intros Hr. case_match eqn:E; [|cbn in *; lia]. unfold get_source_deposited_bond in H. do 2 step H.
  cbn in *. lia.
Qed.

Lemma check_registered_known asset c w u w' :
  check_registered_asset asset c w = Ok u w' → agree w w' ∧ known_asset w asset = true.
Proof.
  intros H. split; [by eapply quiet_run; [apply quiet_registered|]|].
  unfold check_registered_asset in H. unfold known_asset. step H.
  destruct (persistent w (KeyAssetRegistryIndex asset)) as [[]|]; [done|..]; cbn in *; do 2 step H; bool_hyps; done.
Qed.

Lemma suspended_Ok source c w w' :
  is_source_suspended source c w = Ok false w' →
  agree w w' ∧ (Flags.is_on w Flags.SOURCE_DEMERITS = true →
    sd_status (demerits_of w source) = StatusDisqualified →
    ∃ config, get_demerit_config c w = Ok config w ∧
      sat_u32 (sd_status_updated_ledger (demerits_of w source) + dmc_cooldown_ledgers config) <= sequence c).
Proof.
  intros H. split; [by eapply quiet_run; [apply quiet_suspended|]|]. intros Hon Hst.
  unfold is_source_suspended, get_source_demerits in H. step H. rewrite Hon in H. cbn [negb] in H.
  step H. fold (demerits_of w source) in H. rewrite bool_decide_eq_true_2 in H by done.
  rewrite run_assoc, run_bind in H. unfold get_demerit_config at 1 in H. rewrite run_get_or in H. step H.
  eexists. split; [reflexivity|]. unfold demerits_of in *. destruct (_ <=? _) eqn:E in H; [by apply Z.leb_le|].
  rewrite run_bind, run_ret in H. injection H as H. by rewrite bool_decide_eq_true_2 in H.
Qed.

Lemma enforce_Ok c w u w' : enforce_commit_reveal_for_bft c w = Ok u w' → w' = w ∧ commits_required w = false.
Proof.
  unfold enforce_commit_reveal_for_bft, read_bft_fault_tolerance, read_commit_reveal_enabled, commits_required, tolerance_of.
  intros H. step H. destruct (Flags.is_on w Flags.BFT); cbn [negb] in H.
  all: do 3 step H; destruct (Flags.is_on w Flags.COMMIT_REVEAL); cbn [negb] in H; steps H.
  all: subst; by repeat split; apply orb_false_iff.
Qed.

Lemma enabled_Ok asset c w (disabled : bool) w' :
  is_asset_disabled asset c w = Ok disabled w' → disabled = false →
  w' = w ∧ (Flags.is_on w Flags.ASSET_DISABLED = true → persistent w (KeyAssetDisabled asset) ≠ Some true).
Proof.
  rewrite run_is_asset_disabled. intros [= <- <-] Hd. split; [done|]. intros Hon E. by rewrite Hon, E in Hd.
Qed.

Lemma not_frozen_Ok asset c w u w' :
  check_not_frozen asset c w = Ok u w' →
  w' = w ∧ (Flags.is_on w Flags.FREEZE = true → persistent w (KeyFrozenPrice asset) = None).
Proof.
  unfold check_not_frozen. intros H. step H. destruct (Flags.is_on w Flags.FREEZE); cbn [negb] in H.
  - do 2 step H. split; [done|]. intros _. apply bool_decide_eq_false_1 in Eg. by apply eq_None_not_Some.
  - by injection H as _ <-.
Qed.

Lemma source_asset_Ok source asset c w u w' :
  check_source_asset source asset c w = Ok u w' →
  w' = w ∧ ∀ assets, Flags.is_on w Flags.SOURCE_ASSETS = true →
    persistent w (KeySourceAssets source) = Some assets → asset ∈ (assets : list Address).
Proof.
  unfold check_source_asset. intros H. step H. destruct (Flags.is_on w Flags.SOURCE_ASSETS); cbn [negb] in H.
  - step H. destruct (persistent w (KeySourceAssets source)) as [assets|] eqn:E.
    + step H. split; [done|]. intros ? _ [= <-]. apply bool_decide_eq_false_1 in Eg.
      destruct (decide (asset ∈ (assets : list Address))); done.
    + by injection H as _ <-.
  - by injection H as _ <-.
Qed.

Lemma submitter_Ok source asset c w u w' :
  check_submitter source asset c w = Ok u w' → agree w w' ∧ submitter_ok c w source asset.
Proof.
  unfold check_submitter, check_not_paused. intros H. rewrite run_assoc, run_bind, run_is_paused in H. do 2 step H.
  apply bind_Ok in H as (? & w1 & (-> & Ha & Hb)%check_source_Ok & H).
  apply bind_Ok in H as (? & w2 & H2 & H). destruct (check_registered_known _ _ _ _ _ H2) as [A2 Hk].
  apply bind_Ok in H as (disabled & w3 & H3 & H). step H. destruct (enabled_Ok _ _ _ _ _ H3 Eg1) as [-> Hd].
  apply bind_Ok in H as (? & w4 & [-> Hf]%not_frozen_Ok & H).
  apply bind_Ok in H as (? & w5 & [-> Hs]%source_asset_Ok & H).
  apply bind_Ok in H as (? & w6 & [-> Ho]%enforce_Ok & H).
  apply bind_Ok in H as (suspended & w7 & H7 & H). step H. subst suspended. apply suspended_Ok in H7 as [A7 Hq].
  split; [by eapply agree_trans|]. unfold demerits_of, get_demerit_config, commits_required, tolerance_of in *.
  rewrite !(agree_on _ _ _ A2), !(check_registered_frame _ _ _ _ _ _ H2) in * by done.
  split; try done. intros Hon Hst. destruct (Hq Hon Hst) as (config & Hc & Hle). exists config.
  split; [|done]. rewrite run_get_or in *. injection Hc as <-. by rewrite (check_registered_frame _ _ _ _ _ _ H2).
Qed.

(** What a price must satisfy. *)
Record price_ok (w : World) (asset : Address) (price : Z) : Prop := {
  po_low : pb_min_price (bounds_of w asset) <= price;
  po_high : price <= pb_max_price (bounds_of w asset);
  po_unpaused : asset_paused asset w = false;
  po_closed : breaker_tripped asset w = false
}.

Lemma modifies_candidate P asset source price timestamp selected : ∀ acc,
  modifies P (candidate_loop asset source price timestamp selected acc).
Proof. induction selected as [|s l IH]; intros [[? ?] ?]; simpl; frame; apply IH. Qed.
Lemma still_candidate f asset source price timestamp selected : ∀ acc,
  preserves (flags_are f) (candidate_loop asset source price timestamp selected acc).
Proof. induction selected as [|s l IH]; intros [[? ?] ?]; simpl; deep_still; apply IH. Qed.
#[local] Hint Resolve modifies_candidate : modifies.
#[local] Hint Resolve still_candidate : still.

Lemma modifies_trip (P : DataKey → Prop) asset p q x y : modifies P (trip_and_panic asset p q x y).
Proof. intros c w a w' H. unfold trip_and_panic in H. by apply bind_Ok in H as (? & ? & _ & H). Qed.
Lemma still_trip f asset p q x y : preserves (flags_are f) (trip_and_panic asset p q x y).
Proof. intros c w a w' _ H. unfold trip_and_panic in H. by apply bind_Ok in H as (? & ? & _ & H). Qed.
#[local] Hint Resolve modifies_trip : modifies.
#[local] Hint Resolve still_trip : still.

Lemma quiet_validate asset source price timestamp decimals :
  quiet (validate_price_submission asset source price timestamp decimals).
Proof. quiet. Qed.

Lemma validated_Ok asset source price timestamp decimals c w u w' :
  validate_price_submission asset source price timestamp decimals c w = Ok u w' →
  agree w w' ∧ price_ok w asset price.
Proof.
  intros H. split; [by eapply quiet_run; [apply quiet_validate|]|].
  unfold validate_price_submission, get_price_bounds in H. rewrite run_assoc in H.
  apply bind_Ok in H as (? & w1 & H1 & H). destruct (check_registered_known _ _ _ _ _ H1) as [A1 _].
  do 2 step H. rewrite run_bind, run_is_asset_paused in H. destruct (asset_paused asset w1) eqn:Hp; [done|].
  rewrite run_assoc, run_bind, run_is_tripped in H. step H. apply orb_false_iff in Eg as [Elo Ehi].
  split; unfold bounds_of, asset_paused, breaker_tripped in *.
  - rewrite <- (agree_key _ _ (KeyAssetPriceBounds asset) A1) by (by intros []). cbn in *. lia.
  - rewrite <- (agree_key _ _ (KeyAssetPriceBounds asset) A1) by (by intros []). cbn in *. lia.
  - by rewrite <- (agree_key _ _ (KeyAssetPauseFlag asset) A1) by (by intros []).
  - by rewrite <- (agree_key _ _ (KeyAssetCircuitBreakerTripped asset) A1) by (by intros []).
Qed.

Lemma reject_fails source e c w u w' : reject source e c w ≠ Ok u w'.
Proof. unfold reject. intros H. by apply bind_Ok in H as (? & ? & _ & H). Qed.

Lemma not_future_Ok source ts now c w u w' :
  check_not_future source ts now c w = Ok u w' → now = timestamp c →
  w' = w ∧ ts <= latest_time c w.
Proof.
  unfold check_not_future, get_timestamp_threshold, latest_time. rewrite run_bind, run_get_flagged.
  intros H ->. case_match eqn:E; [by apply reject_fails in H|]. injection H as <-. split; [done|lia].
Qed.

Lemma quiet_replaced asset source ts : quiet (check_replaced asset source ts).
Proof. quiet. Qed.

Lemma replaced_Ok asset source ts c w u w' :
  check_replaced asset source ts c w = Ok u w' →
  agree w w' ∧ ∀ prev, persistent w (KeySubmission asset source) = Some prev → pe_timestamp prev <= ts.
Proof.
  intros H. split; [by eapply quiet_run; [apply quiet_replaced|]|]. intros prev E.
  unfold check_replaced in H. step H. rewrite E in H. step H. by apply Z.ltb_ge in Eg.
Qed.

Lemma accept_nonce_Ok source nonce c w u w' :
  accept_nonce source nonce c w = Ok u w' →
  default 0 (persistent w (KeySourceNonce source)) < nonce ∧
  w' = put_persistent (KeySourceNonce source) (Some nonce) w.
Proof. unfold accept_nonce. intros H. do 3 step H. split; [by apply Z.leb_gt in Eg|done]. Qed.

(** After the submission is stored, only entries that submissions do not own
    are written. *)
Lemma successful_frame source : modifies not_owned (record_successful_submission source).
Proof. deep_frame. Qed.
Lemma correlation_frame asset price source : modifies not_owned (Correlation.validate_correlation asset price source).
Proof. deep_frame. Qed.
Lemma aggregate_asset_frame asset ledger decimals : modifies not_owned (aggregate_asset asset ledger decimals).
Proof. apply round_frame. Qed.
#[local] Hint Resolve successful_frame correlation_frame aggregate_asset_frame : modifies.
Lemma triggers_frame asset price : modifies not_owned (record_submission_for_triggers asset price).
Proof. deep_frame. Qed.
Lemma modifies_count P asset min_interval ledger l : modifies P (count_loop asset min_interval ledger l).
Proof. induction l as [|s l IH]; simpl; deep_frame; apply IH. Qed.
#[local] Hint Resolve triggers_frame modifies_count : modifies.
Lemma if_quorum_frame asset ledger decimals : modifies not_owned (aggregate_if_quorum asset ledger decimals).
Proof. deep_frame. Qed.
#[local] Hint Resolve if_quorum_frame : modifies.

Lemma modifies_seq {A} (m : M A) (rest : M unit) : modifies not_owned m → modifies not_owned rest →
  modifies not_owned (m;; rest).
Proof. intros H1 H2. apply modifies_bind; [done|by intros]. Qed.

Lemma stored_Ok asset source price ts decimals ledger now volume (rest : M unit) c w u w' :
  (store_submission asset source price ts decimals ledger now volume;; rest) c w = Ok u w' →
  modifies not_owned rest →
  persistent w' (KeySubmission asset source) = Some (MkPriceEntry price ts source decimals ledger now volume) ∧
  ∀ k, owned k → k ≠ KeySubmission asset source → persistent w' k = persistent w k.
Proof.
  unfold store_submission. intros H Hr. step H.
  assert (∀ k, owned k → persistent w' k = persistent (put_persistent (KeySubmission asset source)
    (Some (MkPriceEntry price ts source decimals ledger now volume)) w) k) as Hk.
  { intros k Hk. apply (Hr _ _ _ _ H). unfold not_owned. tauto. }
  split; [rewrite Hk by done; by read_store|]. intros k Hk1 Hk2. rewrite Hk by done. by apply persistent_put_ne.
Qed.

Definition entry_of (source : Address) (price ts : Z) (volume : option Z) (c : Ctx) (w : World) : PriceEntry :=
  MkPriceEntry price ts source (default DEFAULT_DECIMALS (persistent w KeyCfgDecimals)) (sequence c) (timestamp c) volume.

Lemma submit_price_Ok source asset price ts nonce c w u w' :
  submit_price source asset price ts nonce c w = Ok u w' →
  submitter_ok c w source asset ∧ price_ok w asset price ∧
  0 < price ∧ ts <= latest_time c w ∧
  (∀ prev, persistent w (KeySubmission asset source) = Some prev → pe_timestamp prev <= ts) ∧
  default 0 (persistent w (KeySourceNonce source)) < nonce ∧
  persistent w' (KeySourceNonce source) = Some nonce ∧
  persistent w' (KeySubmission asset source) = Some (entry_of source price ts None c w) ∧
  ∀ k, owned k → k ≠ KeySourceNonce source → k ≠ KeySubmission asset source → persistent w' k = persistent w k.
Proof.
  intros H. unfold submit_price in H. apply bind_Ok in H as (? & w1 & [A1 Hs]%submitter_Ok & H).
  apply bind_Ok in H as (? & w2 & [Hn ->]%accept_nonce_Ok & H).
  apply bind_Ok in H as (? & w3 & H3 & H). destruct (price <=? 0) eqn:Hp; [by apply reject_fails in H3|].
  injection H3 as _ <-. set (w2 := put_persistent _ _ w1) in *. step H. apply bind_Ok in H as (dec & w4 & H4 & H).
  unfold get_decimals in H4. rewrite run_get_bump_or in H4. injection H4 as Hdec <-.
  apply bind_Ok in H as (? & w5 & [A5 Hv]%validated_Ok & H).
  apply bind_Ok in H as (? & w6 & [-> Ht]%not_future_Ok & H); [|done].
  apply bind_Ok in H as (? & w7 & [A7 Hr]%replaced_Ok & H).
  unfold check_deviation_circuit_breaker in H. rewrite run_bind, run_is_tripped in H.
  assert (∀ k, ¬ intake k → k ≠ KeySourceNonce source → persistent w5 k = persistent w k) as Hk5.
  { intros k Hk Hne. rewrite (agree_key _ _ _ A5 Hk). unfold w2. rewrite persistent_put_ne by done.
    by apply (agree_key _ _ _ A1). }
  assert (∀ bit, Flags.is_on w5 bit = Flags.is_on w bit) as Hf5.
  { intros bit. by rewrite (agree_on _ _ bit A5), <- (agree_on _ _ bit A1). }
  assert (A2 : agree w2 w7) by (by eapply agree_trans).
  assert (persistent w1 (KeySourceNonce source) = persistent w (KeySourceNonce source)) as En by (by apply (agree_owned _ _ _ A1)).
  assert (price_ok w asset price) as Hv'.
  { destruct Hv as [V1 V2 V3 V4]. unfold bounds_of, asset_paused, breaker_tripped, w2 in *.
    rewrite ?persistent_put_ne, ?(agree_key _ _ _ A1) in * by (done || by intros []). by split. }
  assert (breaker_tripped asset w7 = false) as Hbt.
  { unfold breaker_tripped. rewrite (agree_key _ _ _ A7), Hk5 by (done || by intros []). apply Hv'. }
  rewrite Hbt in H. apply bind_Ok in H as (dec2 & w8 & H8 & H). unfold get_decimals in H8. rewrite run_get_bump_or in H8.
  injection H8 as Hd2 <-. step H. apply stored_Ok in H as [Hst Hk]; [|frame].
  assert (∀ k, owned k → k ≠ KeySourceNonce source → persistent w7 k = persistent w k) as Hk7.
  { intros k Hk1 Hk2. rewrite (agree_owned _ _ _ A7 Hk1). apply Hk5; [|done]. intros Hi. by destruct k. }
  split_and!; try done.
  - by apply Z.leb_gt.
  - unfold latest_time, flagged in *. by rewrite Hf5, Hk5 in Ht by (done || by intros []).
  - intros prev E. apply (Hr prev). by rewrite Hk5 by (done || by intros []).
  - by rewrite <- En.
  - rewrite Hk by done. rewrite (agree_owned _ _ _ A2) by done. apply persistent_put_eq.
  - rewrite Hst. unfold entry_of. do 2 f_equal. rewrite <- Hd2. by rewrite (agree_key _ _ _ A7), Hk5 by (done || by intros []).
  - intros k Hk1 Hk2 Hk3. rewrite Hk by done. by apply Hk7.
Qed.

End Guards.

(** ** Every way to submit *)

Inductive SubmitCall :=
  | CallSubmitPrice (source asset : Address) (price ts nonce : Z)
  | CallSubmitAuto (source asset : Address) (price ts : Z)
  | CallSubmitWithVolume (source asset : Address) (price ts : Z) (volume : option Z)
  | CallSubmitInternal (source asset : Address) (price ts : Z)
  | CallSubmitPrices (source : Address) (asset_prices : list (Address * Z * Z))
  | CallSubmitMerkle (source : Address) (root : Bytes) (proofs : list MerkleProof).

Section Penalties.
Context `{BP : BuildProfile} `{CR : Crypto} `{US : UnstableSort} `{XD : Xdr} `{CB : Callbacks}.

Definition run_submit_call (call : SubmitCall) : M unit :=
  match call with
  | CallSubmitPrice source asset price ts nonce => submit_price source asset price ts nonce
  | CallSubmitAuto source asset price ts => submit_price_auto source asset price ts
  | CallSubmitWithVolume source asset price ts volume => submit_price_with_volume source asset price ts volume
  | CallSubmitInternal source asset price ts => submit_price_internal source asset price ts
  | CallSubmitPrices source asset_prices => submit_prices source asset_prices
  | CallSubmitMerkle source root proofs => submit_price_merkle source root proofs
  end.

(** The record of a penalty: a tripped breaker, the pause that comes with it,
    its log, and demerits. *)
Definition breaker_record (k : DataKey) : Prop :=
  match k with
  | KeyAssetCircuitBreakerTripped _ | KeyAssetPauseFlag _ | KeyBRK_PAUS _ | KeyAssetCircuitBreakerLogCount _
  | KeyAssetCircuitBreakerLog _ _ => True
  | _ => False
  end.
Definition not_breaker (k : DataKey) : Prop := ¬ breaker_record k.
Definition not_demerits (k : DataKey) : Prop := match k with KeySourceDemerits _ => False | _ => True end.

(** Demerits are as in [w0], or were forgiven. *)
Definition no_harsher (w0 w : World) : Prop :=
  ∀ s, persistent w (KeySourceDemerits s) = persistent w0 (KeySourceDemerits s) ∨
    ∃ ledger, persistent w (KeySourceDemerits s) = Some (MkSourceDemeritState 0 StatusActive ledger).

Lemma no_harsher_frame w0 : reads_only (λ k, ¬ not_demerits k) (no_harsher w0).
Proof. intros w w' Hk Hw s. rewrite (Hk (KeySourceDemerits s)) by auto. apply Hw. Qed.

Lemma forgive_frame {A} w0 (m : M A) : modifies not_demerits m → preserves (no_harsher w0) m.
Proof.
  intros Hm c w a w' Hw H s. rewrite (Hm _ _ _ _ H (KeySourceDemerits s)) by auto. apply Hw.
Qed.

Lemma forgive_get w0 source : preserves (no_harsher w0) (get_source_demerits source).
Proof.
  unfold get_source_demerits. intros c w a w' Hw H. step H. case_match; [by injection H as _ <-|].
  step H. case_match; [|by injection H as _ <-]. unfold get_demerit_config in H. do 2 step H.
  case_match; [|by injection H as _ <-]. step H. injection H as _ <-. intros s.
  destruct (decide (s = source)) as [->|Hne]; [right; eexists; by read_store|].
  rewrite persistent_put_ne by congruence. apply Hw.
Qed.

Lemma forgive_reject w0 source e : preserves (no_harsher w0) (reject source e).
Proof. intros c w u w' _ H. by apply reject_fails in H. Qed.
Lemma forgive_trip w0 asset p q x y : preserves (no_harsher w0) (trip_and_panic asset p q x y).
Proof. intros c w u w' _ H. unfold trip_and_panic in H. by apply bind_Ok in H as (? & ? & _ & H). Qed.
End Penalties.

Create HintDb forgive.
#[export] Hint Resolve forgive_get forgive_reject forgive_trip : forgive.

Ltac deep_forgive :=
  repeat first
    [ progress intros
    | match goal with
      | |- preserves _ (_ ≫= _) => apply preserves_bind
      | |- preserves _ (for_each _ _) => apply preserves_for_each
      | |- preserves _ (fold_m _ _ _) => apply preserves_fold_m
      | |- preserves _ (match ?x with _ => _ end) => destruct x
      | |- preserves _ _ => solve [eauto 2 with forgive nocore]
      | |- preserves _ _ => solve [apply forgive_frame; frame]
      | |- preserves _ ?m => let h := head_of m in progress unfold h
      end ].

Section Penalties_roll_back.
Context `{BP : BuildProfile} `{CR : Crypto} `{US : UnstableSort} `{XD : Xdr} `{CB : Callbacks}.
#[local] Notation forgives m := (∀ w0, preserves (no_harsher w0) m).

Lemma forgive_prune w0 pruned asset cap m l n : preserves (no_harsher w0) (Aggregation.prune_loop pruned asset cap m l n).
Proof. revert n. induction l as [|x l IH]; intros n; simpl; deep_forgive; apply IH. Qed.
#[local] Hint Resolve forgive_prune : forgive.

Lemma forgive_round w0 asset ledger decimals recompute :
  preserves (no_harsher w0) (aggregate_asset_mode asset ledger decimals recompute).
Proof. deep_forgive. Qed.
#[local] Hint Resolve forgive_round : forgive.
Lemma forgive_candidate w0 asset source price ts selected : ∀ acc,
  preserves (no_harsher w0) (candidate_loop asset source price ts selected acc).
Proof. induction selected as [|s l IH]; intros [[? ?] ?]; simpl; deep_forgive; apply IH. Qed.
Lemma forgive_count w0 asset min_interval ledger l : preserves (no_harsher w0) (count_loop asset min_interval ledger l).
Proof. induction l as [|s l IH]; simpl; deep_forgive; apply IH. Qed.
#[local] Hint Resolve forgive_candidate forgive_count : forgive.
Lemma forgive_store w0 source decimals ledger now l : preserves (no_harsher w0) (store_batch source decimals ledger now l).
Proof. induction l as [|[[a p] t] l IH]; simpl; deep_forgive; apply IH. Qed.
#[local] Hint Resolve forgive_store : forgive.

Lemma forgive_submit w0 call : preserves (no_harsher w0) (run_submit_call call).
Proof. destruct call; cbn [run_submit_call]; deep_forgive. Qed.

Lemma calm_prune pruned asset cap m l n : modifies not_breaker (Aggregation.prune_loop pruned asset cap m l n).
Proof. revert n. induction l as [|x l IH]; intros n; simpl; deep_frame; apply IH. Qed.
#[local] Hint Resolve calm_prune modifies_candidate modifies_count : modifies.
Lemma calm_round asset ledger decimals recompute :
  modifies not_breaker (aggregate_asset_mode asset ledger decimals recompute).
Proof. deep_frame. Qed.
Lemma calm_trip asset p q x y : modifies not_breaker (trip_and_panic asset p q x y).
Proof. apply modifies_trip. Qed.
Lemma calm_reject source e : modifies not_breaker (reject source e).
Proof. intros c w u w' H. by apply reject_fails in H. Qed.
#[local] Hint Resolve calm_round calm_trip calm_reject : modifies.
Lemma calm_store source decimals ledger now l : modifies not_breaker (store_batch source decimals ledger now l).
Proof. induction l as [|[[a p] t] l IH]; simpl; deep_frame; apply IH. Qed.
#[local] Hint Resolve calm_store : modifies.
Lemma calm_submit call : modifies not_breaker (run_submit_call call).
Proof. destruct call; cbn [run_submit_call]; deep_frame. Qed.

(** C20. No submission ever leaves a penalty behind.  An invalid price or time
    is recorded as a demerit, and a jump of the aggregate trips the breaker of
    the asset, but both are followed by a panic, which the host rolls back:
    whatever entry point is called, with whatever arguments, by whomever and
    in whatever state, the breakers, the pauses and the breaker log of every
    asset are the same after the call, and every source has the demerits it
    had, or none, when its disqualification expired. *)
Theorem penalties_roll_back call c w (w' := invoke (run_submit_call call) c w) :
  (∀ asset, breaker_tripped asset w' = breaker_tripped asset w ∧ asset_paused asset w' = asset_paused asset w ∧
     persistent w' (KeyAssetCircuitBreakerLogCount asset) = persistent w (KeyAssetCircuitBreakerLogCount asset)) ∧
  ∀ s, persistent w' (KeySourceDemerits s) = persistent w (KeySourceDemerits s) ∨
    ∃ ledger, persistent w' (KeySourceDemerits s) = Some (MkSourceDemeritState 0 StatusActive ledger).
Proof.
  subst w'. unfold invoke. destruct (run_submit_call call c w) as [u w'|f] eqn:E; [|by auto].
  assert (∀ k, breaker_record k → persistent w' k = persistent w k) as Hk.
  { intros k Hk. apply (calm_submit _ _ _ _ _ E). unfold not_breaker. tauto. }
  split; [|apply (forgive_submit w call _ _ _ _ (λ s, or_introl eq_refl) E)].
  intros asset. unfold breaker_tripped, asset_paused. by rewrite !Hk.
Qed.
End Penalties_roll_back.

(** ** Replay *)

Section Replay.
Context `{BP : BuildProfile} `{CR : Crypto} `{US : UnstableSort} `{XD : Xdr} `{CB : Callbacks}.

Definition nonce_of (w : World) (source : Address) : Z := default 0 (persistent w (KeySourceNonce source)).

(** The histories of the contract, with the nonces that [submit_price] and
    [submit_price_auto] accepted, in order. *)
Inductive nonce_reach : World → list (Address * Z) → Prop :=
  | nr_start w : (∀ s, persistent w (KeySourceNonce s) = None) → nonce_reach w []
  | nr_price w l c source asset price ts nonce u w' :
      nonce_reach w l → submit_price source asset price ts nonce c w = Ok u w' → nonce_reach w' (l ++ [(source, nonce)])
  | nr_auto w l c source asset price ts u w' :
      nonce_reach w l → submit_price_auto source asset price ts c w = Ok u w' →
      nonce_reach w' (l ++ [(source, sat_u64 (nonce_of w source + 1))])
  | nr_call w l c call : nonce_reach w l →
      match call with CallSubmitPrice _ _ _ _ _ | CallSubmitAuto _ _ _ _ => False | _ => True end →
      nonce_reach (invoke (run_submit_call call) c w) l
  | nr_other w w' l : nonce_reach w l →
      (∀ s, persistent w' (KeySourceNonce s) = persistent w (KeySourceNonce s)) → nonce_reach w' l.

Definition nonces (source : Address) (l : list (Address * Z)) : list Z := (filter (λ p, p.1 = source) l).*2.

Definition not_nonce (k : DataKey) : Prop := match k with KeySourceNonce _ => False | _ => True end.
Lemma nonce_round asset ledger decimals recompute : modifies not_nonce (aggregate_asset_mode asset ledger decimals recompute).
Proof. eapply modifies_mono; [|apply round_frame]. intros k Hk. destruct k; try exact I. by destruct Hk. Qed.
Lemma nonce_reject source e : modifies not_nonce (reject source e).
Proof. intros c w u w' H. by apply reject_fails in H. Qed.
#[local] Hint Resolve nonce_round nonce_reject modifies_candidate modifies_count modifies_trip : modifies.
Lemma nonce_store source decimals ledger now l : modifies not_nonce (store_batch source decimals ledger now l).
Proof. induction l as [|[[a p] t] l IH]; simpl; deep_frame; apply IH. Qed.
#[local] Hint Resolve nonce_store : modifies.

Lemma nonce_call call :
  match call with CallSubmitPrice _ _ _ _ _ | CallSubmitAuto _ _ _ _ => False | _ => True end →
  modifies not_nonce (run_submit_call call).
Proof. intros Hc. destruct call; try destruct Hc; cbn [run_submit_call]; deep_frame. Qed.

Definition nonces_inv (w : World) (l : list (Address * Z)) : Prop :=
  ∀ s, StronglySorted Z.lt (nonces s l) ∧ Forall (λ n, n <= nonce_of w s) (nonces s l).

Lemma nonces_snoc s source n l :
  nonces s (l ++ [(source, n)]) = nonces s l ++ (if decide (source = s) then [n] else []).
Proof. unfold nonces. rewrite filter_app, fmap_app. f_equal. cbn. by destruct (decide (source = s)). Qed.

Lemma increasing_snoc l n : StronglySorted Z.lt l → Forall (λ m, m < n) l → StronglySorted Z.lt (l ++ [n]).
Proof.
  induction l as [|x l IH]; intros Hs Hl; [repeat constructor|]. inversion Hs. inversion Hl. subst. cbn.
  constructor; [by apply IH|]. apply Forall_app. split; [done|]. by repeat constructor.
Qed.

Lemma nonces_accept w w' l source nonce :
  nonces_inv w l → nonce_of w source < nonce → nonce_of w' source = nonce →
  (∀ s, s ≠ source → nonce_of w' s = nonce_of w s) → nonces_inv w' (l ++ [(source, nonce)]).
Proof.
  intros Hw Hn Hn' Hk s. destruct (Hw s) as [Hs Hl]. rewrite nonces_snoc.
  destruct (decide (source = s)) as [<-|Hne]; [|by rewrite app_nil_r, Hk by congruence].
  rewrite Hn'. split.
  - apply increasing_snoc; [done|]. eapply Forall_impl; [exact Hl|]. cbn. lia.
  - apply Forall_app. split; [|by repeat constructor]. eapply Forall_impl; [exact Hl|]. cbn. lia.
Qed.

Lemma submit_price_nonce source asset price ts nonce c w u w' :
  submit_price source asset price ts nonce c w = Ok u w' →
  nonce_of w source < nonce ∧ nonce_of w' source = nonce ∧ ∀ s, s ≠ source → nonce_of w' s = nonce_of w s.
Proof.
  intros (_ & _ & _ & _ & _ & Hn & Hn' & _ & Hk)%submit_price_Ok. unfold nonce_of. rewrite Hn'.
  split; [done|]. split; [done|]. intros s Hs. rewrite Hk; [done|done| |done]. by intros [= ->].
Qed.

Lemma nonce_reach_inv w l : nonce_reach w l → nonces_inv w l.
Proof.
  induction 1 as [w H|w l c source asset price ts nonce u w' _ IH H|w l c source asset price ts u w' _ IH H
    |w l c call _ IH Hc|w w' l _ IH H].
  - intros s. split; constructor.
  - apply submit_price_nonce in H as (H1 & H2 & H3). by eapply nonces_accept.
  - unfold submit_price_auto in H. step H. apply submit_price_nonce in H as (H1 & H2 & H3). by eapply nonces_accept.
  - unfold invoke. destruct (run_submit_call call c w) as [u w'|] eqn:E; [|done]. intros s. unfold nonce_of.
    rewrite (nonce_call call Hc _ _ _ _ E) by by intros []. apply IH.
  - intros s. unfold nonce_of. rewrite H. apply IH.
Qed.

Lemma accepted_bound w l s n : nonce_reach w l → (s, n) ∈ l → n <= nonce_of w s.
Proof.
  intros Hr Hin. destruct (nonce_reach_inv _ _ Hr s) as [_ Hl]. rewrite Forall_forall in Hl. apply Hl.
  unfold nonces. apply list_elem_of_fmap. exists (s, n). split; [done|]. by apply list_elem_of_filter.
Qed.

Lemma stale_nonce_fails source asset price ts nonce c w :
  nonce <= nonce_of w source → ∃ f, submit_price source asset price ts nonce c w = Err f.
Proof.
  intros Hn. destruct (submit_price source asset price ts nonce c w) as [u w'|f] eqn:E; [|by eexists].
  apply submit_price_nonce in E as [E _]. lia.
Qed.

(** C18. No nonce is spent twice.  In every history the nonces that a source
    got accepted increase strictly, and a submission with a nonce up to one
    that was accepted fails, forever.  In particular a source that once uses
    the largest nonce can never again submit, neither with a nonce nor
    through [submit_price_auto], which saturates at the same value. *)
Theorem nonces_spent_once w l (Hr : nonce_reach w l) :
  (∀ s, StronglySorted Z.lt (nonces s l)) ∧
  (∀ s n, (s, n) ∈ l → ∀ asset price ts n' c, n' <= n → ∃ f, submit_price s asset price ts n' c w = Err f) ∧
  (∀ s, (s, U64_MAX) ∈ l → ∀ asset price ts c, ∃ f, submit_price_auto s asset price ts c w = Err f).
Proof.
  split; [intros s; apply (nonce_reach_inv _ _ Hr)|]. split.
  - intros s n Hin asset price ts n' c Hle. apply stale_nonce_fails. pose proof (accepted_bound _ _ _ _ Hr Hin). lia.
  - intros s Hin asset price ts c. pose proof (accepted_bound _ _ _ _ Hr Hin) as Hb.
    unfold submit_price_auto. rewrite run_bind, run_get_or. apply stale_nonce_fails.
    change (default 0 (persistent w (KeySourceNonce s))) with (nonce_of w s). unfold sat_u64, clampZ, U64_MAX in *. lia.
Qed.
End Replay.

(** ** Batches *)

Section Batches.
Context `{BP : BuildProfile} `{CR : Crypto} `{US : UnstableSort} `{XD : Xdr} `{CB : Callbacks}.

Lemma price_ok_agree w w' asset price : agree w w' → price_ok w' asset price → price_ok w asset price.
Proof.
  intros A [V1 V2 V3 V4]. unfold bounds_of, asset_paused, breaker_tripped in *.
  rewrite !(agree_key _ _ _ A) in * by by intros []. by split.
Qed.
Lemma latest_time_agree c w w' : agree w w' → latest_time c w' = latest_time c w.
Proof. intros A. unfold latest_time, flagged. by rewrite (agree_on _ _ _ A), (agree_key _ _ _ A) by by intros []. Qed.

Definition batch_entry_ok (c : Ctx) (w : World) (entry : Address * Z * Z) : Prop :=
  let '(asset, price, ts) := entry in price_ok w asset price ∧ 0 < price ∧ ts <= latest_time c w.

Lemma validate_entry_Ok source decimals entry c w u w' :
  validate_batch_entry source decimals (timestamp c) entry c w = Ok u w' → agree w w' ∧ batch_entry_ok c w entry.
Proof.
  destruct entry as [[asset price] ts]. cbn [validate_batch_entry batch_entry_ok]. intros H.
  apply bind_Ok in H as (? & w1 & [A1 _]%check_registered_known & H).
  apply bind_Ok in H as (? & w2 & [-> _]%not_frozen_Ok & H).
  apply bind_Ok in H as (? & w3 & [-> _]%source_asset_Ok & H).
  apply bind_Ok in H as (? & w4 & H4 & H). destruct (price <=? 0) eqn:Hp; [by apply reject_fails in H4|].
  injection H4 as _ <-. apply bind_Ok in H as (? & w5 & [A5 Hv]%validated_Ok & H).
  apply not_future_Ok in H as [-> Ht]; [|done].
  split; [by eapply agree_trans|]. split; [by eapply price_ok_agree|]. split; [by apply Z.leb_gt|].
  rewrite <- (latest_time_agree c w w5); [done|by eapply agree_trans].
Qed.

Lemma validate_batch_Ok source decimals l c : ∀ w u w',
  for_each l (validate_batch_entry source decimals (timestamp c)) c w = Ok u w' →
  agree w w' ∧ Forall (batch_entry_ok c w) l.
Proof.
  induction l as [|x l IH]; intros w u w' H; [injection H as _ <-; by split|].
  cbn [for_each] in H. apply bind_Ok in H as (? & w1 & [A1 Hx]%validate_entry_Ok & H).
  apply IH in H as [A2 Hl]. split; [by eapply agree_trans|]. constructor; [done|].
  eapply Forall_impl; [exact Hl|]. intros [[a p] t] (V & P & T). split; [by eapply price_ok_agree|].
  split; [done|]. by rewrite <- (latest_time_agree c w w1).
Qed.

(** The entry of an asset that counts is the last one of the batch. *)
Fixpoint last_for (asset : Address) (l : list (Address * Z * Z)) : option (Z * Z) :=
  match l with
  | [] => None
  | (a, price, ts) :: l =>
      match last_for asset l with
      | Some e => Some e
      | None => if decide (a = asset) then Some (price, ts) else None
      end
  end.

Lemma store_entry_frame asset source decimals c w price ts u w' :
  store_batch_entry source asset price ts decimals (sequence c) (timestamp c) c w = Ok u w' →
  persistent w' (KeySubmission asset source) =
    Some (MkPriceEntry price ts source decimals (sequence c) (timestamp c) None) ∧
  persistent w' (KeyLastSubmissionLedger source asset) = Some (sequence c) ∧
  ∀ k, owned k → k ≠ KeySubmission asset source → k ≠ KeyLastSubmissionLedger source asset →
    persistent w' k = persistent w k.
Proof.
  unfold store_batch_entry, store_submission, announce_submission. intros H. step H.
  apply bind_Ok in H as (? & w1 & H1 & H). step H. step H.
  assert (∀ k, owned k → persistent w1 k = persistent (put_persistent (KeySubmission asset source)
    (Some (MkPriceEntry price ts source decimals (sequence c) (timestamp c) None)) w) k) as Hk1.
  { intros k Hk. apply (successful_frame source _ _ _ _ H1). unfold not_owned. tauto. }
  assert (∀ k, owned k → persistent w' k = persistent (put_persistent (KeyLastSubmissionLedger source asset) (Some (sequence c)) w1) k) as Hk2.
  { intros k Hk. case_bool_decide; do 2 step H; subst w'; cbn [persistent add_event]; [|done].
    by destruct k; try destruct Hk; rewrite persistent_put_ne. }
  split; [|split].
  - rewrite Hk2, persistent_put_ne, Hk1 by done. by read_store.
  - rewrite Hk2 by done. by read_store.
  - intros k Hk Hn1 Hn2. rewrite Hk2, persistent_put_ne, Hk1 by done. by apply persistent_put_ne.
Qed.

Definition batch_key (source : Address) (l : list (Address * Z * Z)) (k : DataKey) : Prop :=
  ∃ asset, last_for asset l ≠ None ∧ (k = KeySubmission asset source ∨ k = KeyLastSubmissionLedger source asset).

(** What a batch leaves: the last entry of each of its assets. *)
Definition batch_stored (source : Address) (decimals : Z) (c : Ctx) (l : list (Address * Z * Z)) (w w' : World) : Prop :=
  (∀ asset price ts, last_for asset l = Some (price, ts) →
     persistent w' (KeySubmission asset source) = Some (MkPriceEntry price ts source decimals (sequence c) (timestamp c) None) ∧
     persistent w' (KeyLastSubmissionLedger source asset) = Some (sequence c)) ∧
  ∀ k, owned k → ¬ batch_key source l k → persistent w' k = persistent w k.

Lemma calm_entry asset source decimals price ts ledger now :
  modifies not_breaker (store_batch_entry source asset price ts decimals ledger now).
Proof. deep_frame. Qed.

Lemma last_for_cons_ne asset a p t l : a ≠ asset → last_for asset ((a, p, t) :: l) = last_for asset l.
Proof. intros H. cbn. destruct (last_for asset l); [done|]. by rewrite decide_False. Qed.

Lemma store_batch_Ok source decimals c l : ∀ w b w',
  Forall (λ e, breaker_tripped e.1.1 w = false) l →
  store_batch source decimals (sequence c) (timestamp c) l c w = Ok b w' →
  b = true ∧ batch_stored source decimals c l w w'.
Proof.
  induction l as [|[[a p] t] l IH]; intros w b w' Hcalm H; cbn [store_batch] in H.
  { injection H as <- <-. by repeat split. }
  apply Forall_cons in Hcalm as [Ha Hcalm]. unfold check_deviation_circuit_breaker in H.
  rewrite run_bind, run_is_tripped in H. cbn [fst] in Ha. rewrite Ha in H.
  apply bind_Ok in H as (? & w1 & H1 & H).
  assert (∀ x, breaker_tripped x w1 = breaker_tripped x w) as Hb.
  { intros y. unfold breaker_tripped. rewrite (calm_entry _ _ _ _ _ _ _ _ _ _ _ H1); [done|]. unfold not_breaker. cbn. tauto. }
  apply IH in H as [-> [Hl Hk]]; [|eapply Forall_impl; [exact Hcalm|]; cbn; intros ? <-; apply Hb].
  apply store_entry_frame in H1 as (S1 & S2 & S3). split; [done|]. split.
  - intros asset price ts E. destruct (last_for asset l) as [[p' t']|] eqn:El.
    + apply Hl. cbn in E. rewrite El in E. by injection E as <- <-.
    + cbn in E. rewrite El in E. case_decide as Ea; [|done]. injection E as <- <-. subst a.
      assert (∀ k, (k = KeySubmission asset source ∨ k = KeyLastSubmissionLedger source asset) → ¬ batch_key source l k) as Hn.
      { intros k Hkk (y & Hy & Hky). assert (y = asset) as -> by (destruct Hkk as [-> | ->], Hky as [[=]|[=]]; done). done. }
      rewrite !Hk by (done || apply Hn; auto). done.
  - intros k Ho Hn. rewrite Hk; [apply S3; [done|..]|done|].
    + intros ->. apply Hn. exists a. split; [|by left]. cbn. destruct (last_for a l); [done|]. by rewrite decide_True.
    + intros ->. apply Hn. exists a. split; [|by right]. cbn. destruct (last_for a l); [done|]. by rewrite decide_True.
    + intros (y & Hy & Hky). apply Hn. exists y. split; [|done]. cbn. by destruct (last_for y l).
Qed.

(** C19. A batch is accepted as a whole or not at all.  When [submit_prices]
    succeeds, every entry of the batch was within the bounds of its asset,
    positive and not past the allowed future, on an asset neither paused nor
    tripped, and for every asset of the batch its last entry is the stored
    submission of the source, dated with the current ledger; nothing else that
    submissions, sources and administrators own changes, and an asset outside
    the batch keeps its submissions.  When any entry fails a check nothing
    changes at all. *)
Theorem batch_all_or_nothing source l c w (w' := invoke (submit_prices source l) c w) :
  (∃ f, submit_prices source l c w = Err f ∧ w' = w) ∨
  (paused w = false ∧ authorized c source = true ∧ commits_required w = false ∧
   Forall (batch_entry_ok c w) l ∧
   batch_stored source (default DEFAULT_DECIMALS (persistent w KeyCfgDecimals)) c l w w').
Proof.
  subst w'. unfold invoke. destruct (submit_prices source l c w) as [u w'|f] eqn:H; [right|left; by exists f].
  unfold submit_prices, check_not_paused in H. rewrite run_assoc, run_bind, run_is_paused in H. do 2 step H.
  apply bind_Ok in H as (? & w1 & (-> & _)%check_source_Ok & H).
  apply bind_Ok in H as (? & w2 & [-> Ho]%enforce_Ok & H).
  apply bind_Ok in H as (suspended & w3 & H3 & H). step H. subst suspended. apply suspended_Ok in H3 as [A3 _].
  apply bind_Ok in H as (dec & w4 & H4 & H). unfold get_decimals in H4. rewrite run_get_bump_or in H4.
  injection H4 as Hd <-. step H. step H. apply bind_Ok in H as (? & w5 & [A5 Hv]%validate_batch_Ok & H).
  apply bind_Ok in H as (stored & w6 & H6 & H).
  apply store_batch_Ok in H6 as [-> [Hl Hk]].
  2:{ eapply Forall_impl; [exact Hv|]. intros [[a p] t] [[_ _ _ Hb] _]. cbn. unfold breaker_tripped in *.
      by rewrite (agree_key _ _ _ A5) by by intros []. }
  assert (agree w w5) as A by (by eapply agree_trans).
  assert (∀ k, owned k → persistent w' k = persistent w6 k) as Hk6.
  { intros k Ho'. assert (modifies not_owned (for_each l (λ '(asset, _, _), aggregate_if_quorum asset (sequence c) dec))) as Hm
      by (apply modifies_for_each; intros [[? ?] ?]; apply if_quorum_frame).
    apply (Hm _ _ _ _ H). unfold not_owned. tauto. }
  assert (default DEFAULT_DECIMALS (persistent w KeyCfgDecimals) = dec) as ->.
  { rewrite <- Hd. by rewrite (agree_key _ _ _ A3) by by intros []. }
  split; [done|]. split; [done|]. split; [done|]. split; [|split].
  - eapply Forall_impl; [exact Hv|]. intros [[a p] t] (V & P & T). split; [exact (price_ok_agree _ _ _ _ A3 V)|].
    split; [done|]. by rewrite <- (latest_time_agree c w w3).
  - intros asset price ts E. rewrite !Hk6 by done. by apply Hl.
  - intros k Ho1 Hn. rewrite Hk6, Hk by done. by apply (agree_owned _ _ _ A).
Qed.
End Batches.

(** ** Merkle batches *)

Section Merkle.
Context `{BP : BuildProfile} `{CR : Crypto} `{US : UnstableSort} `{XD : Xdr} `{CB : Callbacks}.

Lemma verify_leaf_Ok root now threshold proof c w u w' :
  verify_leaf root now threshold proof c w = Ok u w' → agree w w'.
Proof. apply quiet_run. quiet. Qed.

End Merkle.

(** Two sources, one of which submits. *)
Section Toy_submissions.

Definition toy_submit_ctx : Ctx := MkCtx 5 1000 (λ a, bool_decide (a = 1%N)) 0%N.
Definition toy_submit_world : World :=
  put_persistent (KeyAssetRegistryIndex 7%N) (Some true)
    (put_persistent (KeySrcActive 1%N) (Some true)
      (put_persistent (KeySrcActive 2%N) (Some true) toy_round_world)).
Definition toy_leaf : MerkleLeaf := MkMerkleLeaf 2%N 7%N 5000 990.

End Toy_submissions.

#[local] Notation toy_price := (@submit_price Wrapping toy_crypto toy_sort toy_xdr toy_callbacks 1%N 7%N 106 950 3).
#[local] Notation toy_merkle := (@submit_price_merkle Wrapping toy_crypto toy_sort toy_xdr toy_callbacks 1%N
  (@hash_leaf toy_crypto toy_leaf) [MkMerkleProof toy_leaf [] 0]).


Lemma nonces_spent_once_witness :
  let w' := invoke toy_price toy_submit_ctx toy_submit_world in
  ∃ f, @submit_price Wrapping toy_crypto toy_sort toy_xdr toy_callbacks 1%N 7%N 107 960 2 toy_submit_ctx w' = Err f.
Proof.
  assert (toy_price toy_submit_ctx toy_submit_world = Ok tt (invoke toy_price toy_submit_ctx toy_submit_world)) as H
    by (apply run_succeeds; vm_compute; reflexivity).
  assert (@nonce_reach Wrapping toy_crypto toy_sort toy_xdr toy_callbacks
    (invoke toy_price toy_submit_ctx toy_submit_world) [(1%N, 3)]) as Hr.
  { apply (nr_price toy_submit_world [] _ _ _ _ _ _ tt) in H; [exact H|]. apply nr_start. intros s. reflexivity. }
  intros w'. apply (proj1 (proj2 (@nonces_spent_once Wrapping toy_crypto toy_sort toy_xdr toy_callbacks _ _ Hr))
    1%N 3 (list_elem_of_here _ _) 7%N 107 960 2 toy_submit_ctx). lia.
Defined.

