(* ===== verification/CommitReveal.v ===== *)
(** * [prices.rs]: committing to a price before revealing it

    A source commits to the hash of its price in the commit window of a round
    and opens it in the reveal window; a commitment that was not opened costs
    a part of the bond. *)
From stdpp Require Import base list strings.
From S2P Require Import Prelude Machine Types Host AuditLog Config Admin Assets Frames FreshnessWeight.
From S2P Require Import SourceGuards Provenance PriceCallback Aggregation InputValidation Submission.
#[local] Open Scope Z_scope.
#[local] Set Default Goal Selector "!".

Definition DEFAULT_COMMIT_WINDOW : Z := 20.
Definition DEFAULT_REVEAL_WINDOW : Z := 20.
Definition MAX_BATCH_REVEALS : Z := 100.

(** ** Windows *)

Definition set_commit_window (ledgers : Z) : M unit :=
  admin ← get_admin;
  require_auth admin;;
  panic_if (ledgers =? 0) InvalidConfiguration;;
  set KeyCfgCommitWindow ledgers;;
  publish (MkCommitWindowChangedEvent ledgers).

Definition get_commit_window : M Z := get_or KeyCfgCommitWindow DEFAULT_COMMIT_WINDOW.

Definition set_reveal_window (ledgers : Z) : M unit :=
  admin ← get_admin;
  require_auth admin;;
  panic_if (ledgers =? 0) InvalidConfiguration;;
  set KeyCfgRevealWindow ledgers;;
  publish (MkRevealWindowChangedEvent ledgers).

Definition get_reveal_window : M Z := get_or KeyCfgRevealWindow DEFAULT_REVEAL_WINDOW.

Definition current_round_ledger : M Z :=
  current ← ledger_sequence;
  window ← get_commit_window;
  mret (if window =? 0 then current else current / window * window).

Definition set_commit_reveal_enabled (enabled : bool) : M unit :=
  admin ← get_admin;
  require_auth admin;;
  Flags.mark Flags.COMMIT_REVEAL;;
  set KeyCommitRevealEnabled enabled.

Definition get_commit_reveal_enabled : M bool :=
  on ← Flags.on Flags.COMMIT_REVEAL;
  if negb on then mret false else get_or KeyCommitRevealEnabled false.

Definition set_commit_reveal_slash_amount (amount : Z) : M unit :=
  admin ← get_admin;
  require_auth admin;;
  set KeyCommitRevealSlashAmount amount.

Definition get_commit_reveal_slash_amount : M Z := get_or KeyCommitRevealSlashAmount 0.
Definition read_commit_reveal_slash_amount : M Z := get_or KeyCommitRevealSlashAmount 0.

(** ** Committing *)

Section Commit.
Context `{BP : BuildProfile}.

Definition commit_price (source asset : Address) (hash : Bytes) : M unit :=
  check_not_paused;;
  require_auth source;;
  check_source source;;
  check_registered_asset asset;;
  current_ledger ← ledger_sequence;
  round_ledger ← current_round_ledger;
  commit_window ← get_commit_window;
  commit_end ← lift (u32 (round_ledger + commit_window));
  panic_if (commit_end <=? current_ledger) RevealWindowClosed;;
  let commit_key := KeyPriceCommit asset source round_ledger in
  committed ← has_temporary commit_key;
  panic_if committed AlreadyCommitted;;
  reveal_window ← get_reveal_window;
  reveal_end ← lift (u32 (commit_end + reveal_window));
  ttl ← lift (u32 (sat_u32 (reveal_end - current_ledger) + reveal_window));
  ttl ← lift (u32 (ttl + 2));
  set_temporary commit_key (MkPriceCommit hash round_ledger source asset false);;
  extend_ttl_temporary commit_key;;
  publish (MkPriceCommittedEvent asset source round_ledger current_ledger hash).
End Commit.

(** ** Revealing *)

Section Reveal.
Context `{BP : BuildProfile} `{CR : Crypto} `{US : UnstableSort} `{XD : Xdr} `{CB : Callbacks}.

(** The bytes a commitment hashes: price, salt, round and committer. *)
Definition commit_preimage (source : Address) (price : Z) (salt : Bytes) (round_ledger : Z) : Bytes :=
  to_le_bytes 16 (as_u128 price) ++ salt ++ to_le_bytes 4 round_ledger ++ address_to_xdr source.

Definition _compute_commit_hash (source : Address) (price : Z) (salt : Bytes) (round_ledger : Z) : Bytes :=
  sha256 (commit_preimage source price salt round_ledger).

(** The first half of [_do_reveal]: the commitment is opened, once and in its
    window. *)
Definition open_commit (source asset : Address) (price : Z) (salt : Bytes) (round_ledger : Z) : M unit :=
  current_ledger ← ledger_sequence;
  commit_window ← get_commit_window;
  reveal_window ← get_reveal_window;
  reveal_start ← lift (u32 (round_ledger + commit_window));
  reveal_end ← lift (u32 (reveal_start + reveal_window));
  panic_if (current_ledger <? reveal_start) RevealWindowClosed;;
  panic_if (reveal_end <=? current_ledger) CommitExpired;;
  let commit_key := KeyPriceCommit asset source round_ledger in
  commit ← get_temporary commit_key;
  match commit with
  | None => panic_with_error CommitNotFound
  | Some commit =>
      panic_if (pc_revealed commit) AlreadyCommitted;;
      panic_if (bool_decide (_compute_commit_hash source price salt round_ledger ≠ pc_hash commit))
        CommitHashMismatch;;
      set_temporary commit_key
        (MkPriceCommit (pc_hash commit) (pc_committed_ledger commit) (pc_source commit) (pc_asset commit) true)
  end.

(** The second half: the opened price becomes the submission. *)
Definition store_reveal (source asset : Address) (price round_ledger : Z) : M unit :=
  decimals ← get_decimals;
  ledger_time ← ledger_timestamp;
  threshold ← get_timestamp_threshold;
  panic_if (sat_u64 (ledger_time + threshold) <? ledger_time) InvalidTimestamp;;
  panic_if (price <=? 0) InvalidPrice;;
  min_price ← get_min_price asset;
  panic_if (price <? min_price) PriceBelowMinimum;;
  current_ledger ← ledger_sequence;
  store_submission asset source price ledger_time decimals current_ledger ledger_time None;;
  set (KeyLastSubmissionLedger source asset) current_ledger;;
  record_price_submitted source current_ledger;;
  flagged ← has (KeySourceNonCompliant source asset);
  (if flagged : bool then remove (KeySourceNonCompliant source asset) else mret tt);;
  announce_submission asset source price ledger_time;;
  publish (MkPriceRevealedEvent asset source price round_ledger current_ledger);;
  aggregate_if_quorum asset current_ledger decimals.

Definition _do_reveal (source asset : Address) (price : Z) (salt : Bytes) (round_ledger : Z) : M unit :=
  open_commit source asset price salt round_ledger;;
  store_reveal source asset price round_ledger.

Definition reveal_price (source asset : Address) (price : Z) (salt : Bytes) (round_ledger : Z) : M unit :=
  check_not_paused;;
  require_auth source;;
  check_source source;;
  check_registered_asset asset;;
  _do_reveal source asset price salt round_ledger.

Definition reveal_one (source : Address) (reveal : Address * Z * Bytes * Z) : M unit :=
  let '(asset, price, salt, round_ledger) := reveal in
  check_registered_asset asset;;
  check_source_asset source asset;;
  validate_bytes "reveal_price" "salt" salt;;
  _do_reveal source asset price salt round_ledger.

Definition reveal_prices_batch (source : Address) (reveals : list (Address * Z * Bytes * Z)) : M unit :=
  check_not_paused;;
  require_auth source;;
  check_source source;;
  panic_if (MAX_BATCH_REVEALS <? Z.of_nat (length reveals)) InvalidConfiguration;;
  for_each reveals (reveal_one source).
End Reveal.

(** ** Withheld commitments *)

Definition slash_expired_commits `{BuildProfile} (asset source : Address) (round_ledger : Z) : M unit :=
  current_ledger ← ledger_sequence;
  commit_window ← get_commit_window;
  reveal_window ← get_reveal_window;
  commit_end ← lift (u32 (round_ledger + commit_window));
  reveal_end ← lift (u32 (commit_end + reveal_window));
  panic_if (current_ledger <? reveal_end) CommitExpired;;
  let commit_key := KeyPriceCommit asset source round_ledger in
  commit ← get_temporary commit_key;
  match commit with
  | None => panic_with_error CommitNotFound
  | Some commit =>
      panic_if (pc_revealed commit) CommitExpired;;
      slash_amount ← read_commit_reveal_slash_amount;
      panic_if (slash_amount <=? 0) SlashFailed;;
      current_bond ← get_or (KeySourceBond source) 0;
      let actual_slash := Z.min current_bond slash_amount in
      panic_if (actual_slash <=? 0) SlashFailed;;
      let remaining := sat_i128 (current_bond - actual_slash) in
      put (KeySourceBond source) remaining;;
      treasury ← get_or KeyTreasuryBalance 0;
      put KeyTreasuryBalance (sat_i128 (treasury + actual_slash));;
      remove_temporary commit_key;;
      publish (MkSourceSlashedEvent source actual_slash remaining 0);;
      publish (MkCommitWithheldEvent asset source round_ledger actual_slash)
  end.
