(* ===== verification/CommitSafety.v ===== *)
(** * What committing to a price promises

    A commitment is opened at most once, in its window, by its committer and
    to the price and salt it was made from; or it is slashed, afterwards and
    once, for what the bond covers. *)
From stdpp Require Import base list strings.
From S2P Require Import Prelude Machine Types Host AuditLog Config Admin Assets Frames FreshnessWeight.
From S2P Require Import SourceGuards Latency Provenance PriceCallback Aggregation RoundFrames RoundSafety InputValidation.
From S2P Require Import Sources Triggers Submission SubmissionSafety.
From S2P Require Import CommitReveal.
#[local] Open Scope Z_scope.
#[local] Set Default Goal Selector "!".

Definition commit_window (w : World) : Z := default DEFAULT_COMMIT_WINDOW (persistent w KeyCfgCommitWindow).
Definition reveal_window (w : World) : Z := default DEFAULT_REVEAL_WINDOW (persistent w KeyCfgRevealWindow).
Definition commit_at (w : World) (asset source : Address) (round : Z) : option PriceCommit :=
  temporary w (KeyPriceCommit asset source round).
Definition opened (commit : PriceCommit) : PriceCommit :=
  MkPriceCommit (pc_hash commit) (pc_committed_ledger commit) (pc_source commit) (pc_asset commit) true.

Section Effects.
Context `{BP : BuildProfile} `{CR : Crypto} `{US : UnstableSort} `{XD : Xdr} `{CB : Callbacks}.

(** The reveal window of a round, as far as it can be computed. *)
Definition reveal_bounds (w : World) (round : Z) : option (Z * Z) :=
  start ← u32 (round + commit_window w);
  end_ ← u32 (start + reveal_window w);
  Some (start, end_).

Lemma open_Ok source asset price salt round c w u w' :
  open_commit source asset price salt round c w = Ok u w' →
  ∃ commit start end_, commit_at w asset source round = Some commit ∧
    reveal_bounds w round = Some (start, end_) ∧ start <= sequence c < end_ ∧
    pc_revealed commit = false ∧ pc_hash commit = _compute_commit_hash source price salt round ∧
    w' = put_temporary (KeyPriceCommit asset source round) (Some (opened commit)) w.
Proof.
  unfold open_commit, get_commit_window, get_reveal_window. intros H. do 7 step H.
  rewrite run_bind in H. unfold get_temporary at 1 in H. cbv beta iota in H.
  destruct (temporary w (KeyPriceCommit asset source round)) as [commit|] eqn:E; [|done].
  do 2 step H. injection H as _ <-. apply bool_decide_eq_false_1 in Eg4.
  assert (u32 (round + commit_window w) = Some v) as E1 by exact Eg.
  assert (u32 (v + reveal_window w) = Some v0) as E2 by exact Eg0.
  exists commit. eexists _, _. split; [exact E|]. split; [by unfold reveal_bounds; rewrite E1; cbn; rewrite E2|]. split; [lia|]. split; [done|]. split; [|done].
  by destruct (decide (_compute_commit_hash source price salt round = pc_hash commit)).
Qed.

(** *** The entries of the temporary store *)

Lemma commit_kept_put asset source round v a s r v' w :
  (a, s, r) ≠ (asset, source, round) → commit_at w asset source round = v →
  commit_at (put_temporary (KeyPriceCommit a s r) v' w) asset source round = v.
Proof.
  intros Hne <-. assert (KeyPriceCommit a s r ≠ KeyPriceCommit asset source round) as Hk by by intros [= -> -> ->].
  exact (temporary_put_ne _ _ v' w Hk).
Qed.
Lemma commit_put asset source round v w :
  commit_at (put_temporary (KeyPriceCommit asset source round) v w) asset source round = v.
Proof. exact (temporary_put_eq (KeyPriceCommit asset source round) v w). Qed.

Lemma keeps_count ca cs cr cv asset min_interval ledger l :
  preserves (commit_kept ca cs cr cv) (count_loop asset min_interval ledger l).
Proof. induction l as [|s l IH]; simpl; deep_commit; apply IH. Qed.
#[local] Hint Resolve round_commit keeps_count : commits.

Lemma keeps_store ca cs cr cv source asset price round :
  preserves (commit_kept ca cs cr cv) (store_reveal source asset price round).
Proof. deep_commit. Qed.

Lemma store_reveal_commits source asset price round c w u w' a s r :
  store_reveal source asset price round c w = Ok u w' → commit_at w' a s r = commit_at w a s r.
Proof. intros H. by apply (keeps_store a s r (commit_at w a s r) source asset price round c w u w'). Qed.

Lemma keeps_guards ca cs cr cv source asset :
  preserves (commit_kept ca cs cr cv) (check_source source) ∧
  preserves (commit_kept ca cs cr cv) (check_registered_asset asset).
Proof. split; deep_commit. Qed.

Lemma min_price_frame asset : quiet (get_min_price asset).
Proof. quiet. Qed.

Definition stored_key (source asset : Address) (k : DataKey) : Prop :=
  k = KeySubmission asset source ∨ k = KeyLastSubmissionLedger source asset.

Lemma store_reveal_Ok source asset price round c w u w' :
  store_reveal source asset price round c w = Ok u w' →
  0 < price ∧
  persistent w' (KeySubmission asset source) = Some (entry_of source price (timestamp c) None c w) ∧
  persistent w' (KeyLastSubmissionLedger source asset) = Some (sequence c) ∧
  ∀ k, owned k → ¬ stored_key source asset k → persistent w' k = persistent w k.
Proof.
  unfold store_reveal, get_decimals, get_timestamp_threshold. intros H. step H. step H.
  rewrite run_bind, run_get_flagged in H. do 2 step H.
  apply bind_Ok in H as (min_price & w1 & H1 & H). apply quiet_run in H1 as A1; [|apply min_price_frame].
  step H. step H. unfold store_submission in H. step H. step H.
  set (entry := MkPriceEntry _ _ _ _ _ _ _) in H. set (w2 := put_persistent (KeyLastSubmissionLedger _ _) _ _) in H.
  assert (∀ k, owned k → persistent w' k = persistent w2 k) as Hk.
  { intros k Hk. assert (modifies not_owned (record_price_submitted source (sequence c);;
      (flagged ← has (KeySourceNonCompliant source asset);
       (if flagged : bool then remove (KeySourceNonCompliant source asset) else mret tt);;
       announce_submission asset source price (timestamp c);;
       publish (MkPriceRevealedEvent asset source price round (sequence c));;
       aggregate_if_quorum asset (sequence c) (default DEFAULT_DECIMALS (persistent w KeyCfgDecimals))))) as Hm.
    { unfold record_price_submitted, announce_submission, is_source_inactive, Config.is_source_inactive. frame; try apply if_quorum_frame. }
    apply (Hm _ _ _ _ H). unfold not_owned. tauto. }
  split; [by apply Z.leb_gt in Eg0|]. split; [|split].
  - rewrite Hk by done. unfold w2. rewrite persistent_put_ne by done. by read_store.
  - rewrite Hk by done. unfold w2. by read_store.
  - intros k Ho Hn. unfold stored_key in Hn. rewrite Hk by done. unfold w2. rewrite !persistent_put_ne.
    + by apply (agree_owned _ _ _ A1).
    + intros <-. tauto.
    + intros <-. tauto.
Qed.

Lemma registered_temporary asset c w u w' :
  check_registered_asset asset c w = Ok u w' → temporary w' = temporary w.
Proof. by intros [-> | ->]%check_registered_Ok. Qed.

Lemma reveal_bounds_agree w w' round : agree w w' → reveal_bounds w' round = reveal_bounds w round.
Proof.
  intros A. unfold reveal_bounds, commit_window, reveal_window. by rewrite !(agree_key _ _ _ A) by by intros [].
Qed.

(** C22. A successful [reveal_price] opens a commitment of its source: the
    source authorised the call and is registered, an unopened commitment of
    the source for this asset and round is there, its hash is the hash of
    exactly the revealed price, salt and round and of the source, and the
    ledger lies in the reveal window of the round.  Afterwards the commitment
    is marked as opened, every other one is untouched, and the submission of
    the source is the revealed price, dated with the current time; no other
    submission, nonce, bond or registry entry changes. *)
Theorem reveal_as_committed source asset price salt round c w u w'
    (H : reveal_price source asset price salt round c w = Ok u w') :
  paused w = false ∧ authorized c source = true ∧ persistent w (KeySrcActive source) = Some true ∧
  known_asset w asset = true ∧ 0 < price ∧
  (∃ commit start end_, commit_at w asset source round = Some commit ∧ pc_revealed commit = false ∧
     pc_hash commit = sha256 (to_le_bytes 16 (as_u128 price) ++ salt ++ to_le_bytes 4 round ++ address_to_xdr source) ∧
     reveal_bounds w round = Some (start, end_) ∧ start <= sequence c < end_ ∧
     commit_at w' asset source round = Some (opened commit)) ∧
  (∀ a s r, (a, s, r) ≠ (asset, source, round) → commit_at w' a s r = commit_at w a s r) ∧
  persistent w' (KeySubmission asset source) = Some (entry_of source price (timestamp c) None c w) ∧
  ∀ k, owned k → ¬ stored_key source asset k → persistent w' k = persistent w k.
Proof.
  unfold reveal_price, check_not_paused in H. rewrite run_assoc, run_bind, run_is_paused in H. do 2 step H.
  apply bind_Ok in H as (? & w1 & (-> & Ha & _)%check_source_Ok & H).
  apply bind_Ok in H as (? & w2 & H2 & H). destruct (check_registered_known _ _ _ _ _ H2) as [A2 Hkn].
  apply registered_temporary in H2 as T2. unfold _do_reveal in H.
  apply bind_Ok in H as (? & w3 & (commit & start & end_ & Hc & Hb & Hw & Hr & Hh & ->)%open_Ok & H).
  assert (∀ a s r, commit_at w' a s r = commit_at (put_temporary (KeyPriceCommit asset source round) (Some (opened commit)) w2) a s r)
    as Hc' by (intros a s r; by eapply store_reveal_commits).
  apply store_reveal_Ok in H as (Hp & Hs & _ & Hk). cbn [persistent put_temporary] in Hs, Hk.
  do 5 (split; [done|]). split; [|split; [|split]].
  - exists commit, start, end_. unfold commit_at in Hc. rewrite T2 in Hc. split; [exact Hc|]. split; [done|]. split; [exact Hh|].
    rewrite (reveal_bounds_agree _ _ _ A2) in Hb. split; [done|]. split; [done|]. by rewrite Hc', commit_put.
  - intros a s r Hne. rewrite Hc'. apply commit_kept_put; [congruence|]. unfold commit_at. by rewrite T2.
  - rewrite Hs. unfold entry_of. change (persistent (put_temporary _ _ w2)) with (persistent w2). by rewrite (agree_key _ _ _ A2) by by intros [].
  - intros k Ho Hn. rewrite Hk by done. by apply (agree_owned _ _ _ A2).
Qed.

(** ** Binding *)

Lemma commit_preimage_inj s s' price price' salt salt' round round' :
  (∀ a a' p p', p ++ address_to_xdr a = p' ++ address_to_xdr a' → a = a') →
  in_i128 price → in_i128 price' → in_u32 round → in_u32 round' →
  commit_preimage s price salt round = commit_preimage s' price' salt' round' →
  s = s' ∧ price = price' ∧ salt = salt' ∧ round = round'.
Proof.
  intros Hx Hp Hp' Hr Hr'. unfold commit_preimage. rewrite !app_assoc. intros E.
  pose proof (Hx _ _ _ _ E) as <-. apply app_inv_tail in E.
  apply app_inj_2 in E as [E Er]; [|by rewrite !length_to_le_bytes].
  apply app_inj_1 in E as [Ep ->]; [|by rewrite !length_to_le_bytes].
  apply to_le_bytes_inj in Er as ->; [|unfold in_u32, U32_MAX in *; lia..].
  split; [done|]. split; [|done]. apply to_le_bytes_inj in Ep; [|apply (wrap_range 0 128); lia..].
  unfold as_u128, wrap, in_i128, I128_MIN, I128_MAX in *.
  assert (price mod 2 ^ 128 = price' mod 2 ^ 128) as Em by (rewrite !Z.sub_0_r in Ep; lia).
  destruct (Z_lt_dec price 0), (Z_lt_dec price' 0);
    rewrite ?(Z.mod_small price), ?(Z.mod_small price') in Em by lia; Z.div_mod_to_equations; lia.
Qed.

(** C23. A commitment binds its committer, price, salt and round.  If the XDR of
    an address is recognisable at the end of a byte string, then two openings
    of commitments with the same hash, by whichever sources, for whichever
    assets and at whatever times, are by the same source, of the same round
    and to the same price and salt, or else they exhibit a collision of
    SHA-256: a copied commitment cannot be opened by the one who copied it. *)
Theorem commitment_binds asset asset' s s' price price' salt salt' round round' c c' w w' u u' v v' commit commit'
    (Hx : ∀ a a' p p', p ++ address_to_xdr a = p' ++ address_to_xdr a' → a = a')
    (Hp : in_i128 price ∧ in_i128 price') (Hr : in_u32 round ∧ in_u32 round')
    (H : open_commit s asset price salt round c w = Ok u v)
    (H' : open_commit s' asset' price' salt' round' c' w' = Ok u' v')
    (Hc : commit_at w asset s round = Some commit) (Hc' : commit_at w' asset' s' round' = Some commit')
    (He : pc_hash commit = pc_hash commit') :
  (s = s' ∧ price = price' ∧ salt = salt' ∧ round = round') ∨ ∃ a b, a ≠ b ∧ sha256 a = sha256 b.
Proof.
  apply open_Ok in H as (k & st & en & E & _ & _ & _ & Hh & _). rewrite Hc in E. injection E as <-.
  apply open_Ok in H' as (k' & st' & en' & E & _ & _ & _ & Hh' & _). rewrite Hc' in E. injection E as <-.
  rewrite Hh, Hh' in He. unfold _compute_commit_hash in He.
  destruct (decide (commit_preimage s price salt round = commit_preimage s' price' salt' round')) as [Ep|Hne].
  - left. destruct Hp, Hr. by apply commit_preimage_inj.
  - right. by eexists _, _.
Qed.

(** ** Slashing *)

Lemma slash_Ok asset source round c w u w' :
  slash_expired_commits asset source round c w = Ok u w' →
  ∃ commit start end_ amount, commit_at w asset source round = Some commit ∧ pc_revealed commit = false ∧
    reveal_bounds w round = Some (start, end_) ∧ end_ <= sequence c ∧
    amount = Z.min (bond_of w source) (default 0 (persistent w KeyCommitRevealSlashAmount)) ∧ 0 < amount ∧
    persistent w' (KeySourceBond source) = Some (sat_i128 (bond_of w source - amount)) ∧
    persistent w' KeyTreasuryBalance = Some (sat_i128 (default 0 (persistent w KeyTreasuryBalance) + amount)) ∧
    (∀ k, k ≠ KeySourceBond source → k ≠ KeyTreasuryBalance → persistent w' k = persistent w k) ∧
    (∀ a s r, commit_at w' a s r = if decide ((a, s, r) = (asset, source, round)) then None else commit_at w a s r).
Proof.
  unfold slash_expired_commits, get_commit_window, get_reveal_window, read_commit_reveal_slash_amount.
  intros H. do 6 step H. rewrite run_bind in H. unfold get_temporary at 1 in H. cbv beta iota in H.
  destruct (temporary w (KeyPriceCommit asset source round)) as [commit|] eqn:E; [|done].
  do 2 step H. step H. step H. step H. step H. rewrite run_bind in H. unfold get_or at 1 in H. cbv beta iota in H.
  step H. rewrite run_bind in H. unfold remove_temporary at 1 in H. cbv beta iota in H. step H. step H. subst w'.
  assert (u32 (round + commit_window w) = Some v) as E1 by exact Eg.
  assert (u32 (v + reveal_window w) = Some v0) as E2 by exact Eg0.
  exists commit, v, v0. eexists. split; [exact E|]. split; [done|].
  split; [by unfold reveal_bounds; rewrite E1; cbn; rewrite E2|]. split; [by apply Z.ltb_ge in Eg1|].
  split; [reflexivity|]. split; [by apply Z.leb_gt in Eg4|].
  cbn [persistent add_event]. change (persistent (put_temporary _ _ ?x)) with (persistent x).
  split; [by read_store|]. split; [by read_store|]. split.
  - intros k H1 H2. by rewrite !persistent_put_ne.
  - intros a s r. case_decide as Hd; [injection Hd as -> -> ->; exact (commit_put asset source round None _)|].
    by apply commit_kept_put; [congruence|].
Qed.

Definition treasury_of (w : World) : Z := default 0 (persistent w KeyTreasuryBalance).

(** C26. Slashing a withheld commitment moves money and creates none.  It
    succeeds only after the reveal window of a commitment that is still there
    and was not opened, and takes the configured amount or the whole bond,
    whichever is less, and something: bond and treasury together keep their
    sum, as long as it fits 128 bits, no other bond changes, and the
    commitment is gone, so that it can be slashed once and opened no more. *)
Theorem slash_conserves asset source round c w u w'
    (H : slash_expired_commits asset source round c w = Ok u w')
    (Hb : in_i128 (bond_of w source)) (Ht : 0 <= treasury_of w) (Hs : treasury_of w + bond_of w source <= I128_MAX) :
  (∃ commit start end_, commit_at w asset source round = Some commit ∧ pc_revealed commit = false ∧
     reveal_bounds w round = Some (start, end_) ∧ end_ <= sequence c) ∧
  bond_of w' source + treasury_of w' = bond_of w source + treasury_of w ∧
  0 <= bond_of w' source < bond_of w source ∧
  bond_of w source - bond_of w' source <= default 0 (persistent w KeyCommitRevealSlashAmount) ∧
  (∀ s, s ≠ source → bond_of w' s = bond_of w s) ∧
  (∀ price salt c', ∃ f, open_commit source asset price salt round c' w' = Err f) ∧
  (∀ c', ∃ f, slash_expired_commits asset source round c' w' = Err f).
Proof.
  apply slash_Ok in H as (commit & start & end_ & amount & Hc & Hr & Hw & He & Ha & Hpos & B & T & K & C).
  pose proof (Z.le_min_l (bond_of w source) (default 0 (persistent w KeyCommitRevealSlashAmount))) as M1.
  pose proof (Z.le_min_r (bond_of w source) (default 0 (persistent w KeyCommitRevealSlashAmount))) as M2.
  rewrite <- Ha in M1, M2. clear Ha.
  assert (bond_of w' source = bond_of w source - amount) as Eb.
  { transitivity (sat_i128 (bond_of w source - amount)); [unfold bond_of at 1; by rewrite B|].
    apply sat_i128_id. unfold in_i128, I128_MIN, I128_MAX in *. lia. }
  assert (treasury_of w' = treasury_of w + amount) as Et.
  { transitivity (sat_i128 (treasury_of w + amount)); [unfold treasury_of at 1; by rewrite T|].
    apply sat_i128_id. unfold in_i128, I128_MIN, I128_MAX in *. lia. }
  assert (commit_at w' asset source round = None) as Hn by (by rewrite C, decide_True).
  split; [by exists commit, start, end_|]. do 2 (split; [lia|]). split; [cbn in *; lia|]. split; [|split].
  - intros s Hs'. unfold bond_of. by rewrite K by congruence.
  - intros price salt c'. destruct (open_commit source asset price salt round c' w') as [u' w2|f] eqn:E; [|by exists f].
    apply open_Ok in E as (cm & ? & ? & E & _). by rewrite Hn in E.
  - intros c'. destruct (slash_expired_commits asset source round c' w') as [u' w2|f] eqn:E; [|by exists f].
    apply slash_Ok in E as (cm & ? & ? & ? & E & _). by rewrite Hn in E.
Qed.

(** ** Committing, and the life of a commitment *)

Definition round_of (c : Ctx) (w : World) : Z :=
  if commit_window w =? 0 then sequence c else sequence c / commit_window w * commit_window w.

Lemma commit_Ok source asset hash c w u w' :
  commit_price source asset hash c w = Ok u w' →
  commit_at w asset source (round_of c w) = None ∧
  ∀ a s r, commit_at w' a s r =
    if decide ((a, s, r) = (asset, source, round_of c w))
    then Some (MkPriceCommit hash (round_of c w) source asset false) else commit_at w a s r.
Proof.
  unfold commit_price, check_not_paused. intros H. rewrite run_assoc, run_bind, run_is_paused in H. do 2 step H.
  apply bind_Ok in H as (? & w1 & (-> & _)%check_source_Ok & H).
  apply bind_Ok in H as (? & w2 & H2 & H). apply registered_temporary in H2 as T2.
  destruct (check_registered_known _ _ _ _ _ H2) as [A2 _]. step H.
  unfold current_round_ledger, get_commit_window, get_reveal_window in H. rewrite !run_assoc in H. do 2 step H.
  rewrite run_bind, run_ret in H. cbv beta iota in H. set (round := if _ =? 0 then _ else _) in H.
  assert (round = round_of c w) as ->.
  { unfold round, round_of, commit_window. by rewrite <- (agree_key _ _ KeyCfgCommitWindow A2) by by intros []. }
  do 3 step H. rewrite run_bind in H. unfold has_temporary at 1 in H. cbv beta iota in H. step H. do 4 step H.
  rewrite run_bind in H. unfold set_temporary at 1 in H. cbv beta iota in H.
  apply bind_Ok in H as (? & w3 & H3 & H). unfold extend_ttl_temporary in H3. rewrite temporary_put_eq in H3.
  injection H3 as _ <-. step H. subst w'. split.
  - unfold commit_at. rewrite <- T2. apply bool_decide_eq_false_1 in Eg3. by apply eq_None_not_Some.
  - intros a s r. case_decide as Hd; [injection Hd as -> -> ->; exact (commit_put asset source (round_of c w) _ _)|].
    etransitivity; [exact (commit_kept_put a s r _ _ _ _ _ _ (not_eq_sym Hd) eq_refl)|]. unfold commit_at. by rewrite T2.
Qed.

(** What happened to the commitments, in order. *)
Inductive Settlement :=
  | Committed (asset source : Address) (round : Z)
  | Revealed (asset source : Address) (round : Z)
  | Withheld (asset source : Address) (round : Z).
#[export] Instance Settlement_eq_dec : EqDecision Settlement.
Proof. solve_decision. Defined.

(** The histories of the commitments: committing, opening (alone or as an
    element of a batch), slashing, and everything else, in which the host may
    also drop expired entries of the temporary store. *)
Inductive commit_reach : World → list Settlement → Prop :=
  | cr_start w : (∀ a s r, commit_at w a s r = None) → commit_reach w []
  | cr_commit w l c source asset hash u w' : commit_reach w l →
      commit_price source asset hash c w = Ok u w' → commit_reach w' (Committed asset source (round_of c w) :: l)
  | cr_reveal w l c source asset price salt round u w' : commit_reach w l →
      _do_reveal source asset price salt round c w = Ok u w' → commit_reach w' (Revealed asset source round :: l)
  | cr_slash w l c source asset round u w' : commit_reach w l →
      slash_expired_commits asset source round c w = Ok u w' → commit_reach w' (Withheld asset source round :: l)
  | cr_other w w' l : commit_reach w l →
      (∀ a s r, commit_at w' a s r = commit_at w a s r ∨ commit_at w' a s r = None) → commit_reach w' l.

Definition times (e : Settlement) (l : list Settlement) : nat := length (filter (λ x, x = e) l).
Definition pending (w : World) (a s : Address) (r : Z) : nat :=
  match commit_at w a s r with Some commit => if pc_revealed commit then 0 else 1 | None => 0 end.

Lemma times_cons e x l : times e (x :: l) = ((if decide (x = e) then 1 else 0) + times e l)%nat.
Proof. unfold times. rewrite filter_cons. by case_decide. Qed.

Definition settled_inv (w : World) (l : list Settlement) : Prop :=
  ∀ a s r, (times (Revealed a s r) l + times (Withheld a s r) l + pending w a s r <= times (Committed a s r) l)%nat.

Lemma commit_reach_inv w l : commit_reach w l → settled_inv w l.
Proof.
  induction 1 as [w H|w l c source asset hash u w' _ IH H|w l c source asset price salt round u w' _ IH H
    |w l c source asset round u w' _ IH H|w w' l _ IH H]; intros a s r.
  - unfold pending. by rewrite H.
  - apply commit_Ok in H as [Hn Hc]. specialize (IH a s r). unfold pending in *. rewrite Hc, !times_cons.
    destruct (decide ((a, s, r) = (asset, source, round_of c w))) as [[= -> -> ->]|Hne].
    + rewrite Hn in IH. cbn [pc_revealed]. rewrite decide_False, decide_False, decide_True by done. lia.
    + rewrite !decide_False by (done || by intros [= -> -> ->]). lia.
  - unfold _do_reveal in H. apply bind_Ok in H as (? & w1 & (cm & st & en & Hc & _ & _ & Hr & _ & ->)%open_Ok & H).
    specialize (IH a s r). unfold pending in *. rewrite (store_reveal_commits _ _ _ _ _ _ _ _ a s r H), !times_cons.
    destruct (decide ((asset, source, round) = (a, s, r))) as [[= -> -> ->]|Hne].
    + rewrite Hc, Hr in IH. rewrite commit_put. cbn [pc_revealed opened]. rewrite decide_True, decide_False, decide_False by done. lia.
    + rewrite (commit_kept_put a s r (commit_at w a s r)) by done.
      rewrite !decide_False by (done || by intros [= -> -> ->]). lia.
  - apply slash_Ok in H as (cm & st & en & am & Hc & Hr & _ & _ & _ & _ & _ & _ & _ & C).
    specialize (IH a s r). unfold pending in *. rewrite C, !times_cons.
    destruct (decide ((a, s, r) = (asset, source, round))) as [[= -> -> ->]|Hne].
    + rewrite Hc, Hr in IH. rewrite decide_False, decide_True, decide_False by done. lia.
    + rewrite !decide_False by (done || by intros [= -> -> ->]). lia.
  - specialize (IH a s r). unfold pending in *. destruct (H a s r) as [-> | ->]; [done|]. lia.
Qed.

(** C24. A commitment is settled at most once.  In every history the openings
    and the slashings of an asset, source and round together number at most
    the commitments made for them, and fewer while a commitment is pending:
    one that was opened is neither opened again nor slashed, and one that was
    slashed is neither opened nor slashed again. *)
Theorem settled_once w l (Hr : commit_reach w l) asset source round :
  (times (Revealed asset source round) l + times (Withheld asset source round) l <= times (Committed asset source round) l)%nat ∧
  (∀ commit, commit_at w asset source round = Some commit → pc_revealed commit = false →
     times (Revealed asset source round) l + times (Withheld asset source round) l < times (Committed asset source round) l)%nat.
Proof.
  pose proof (commit_reach_inv w l Hr asset source round) as H. unfold pending in H. split; [lia|].
  intros commit Hc Hp. rewrite Hc, Hp in H. lia.
Qed.

(** C25. Committing and opening are inverse.  A commitment that [commit_price]
    accepted to the hash of a price, a salt and the round it was made in can
    be opened with that price and salt by its source, in any later state in
    which the commitment is still in the store, at any ledger of its reveal
    window; the commitment is then marked, and any other price or salt is
    refused unless it has the same hash. *)
Theorem committed_price_opens source asset price salt c w u w' c2 w2 start end_
    (H : commit_price source asset (_compute_commit_hash source price salt (round_of c w)) c w = Ok u w')
    (Hk : commit_at w2 asset source (round_of c w) = commit_at w' asset source (round_of c w))
    (Hb : reveal_bounds w2 (round_of c w) = Some (start, end_)) (Hw : start <= sequence c2 < end_) :
  (∃ w3, open_commit source asset price salt (round_of c w) c2 w2 = Ok tt w3 ∧
     pending w3 asset source (round_of c w) = 0%nat ∧ persistent w3 = persistent w2) ∧
  ∀ price' salt', sha256 (commit_preimage source price' salt' (round_of c w)) ≠
      sha256 (commit_preimage source price salt (round_of c w)) →
    open_commit source asset price' salt' (round_of c w) c2 w2 = Err (Error CommitHashMismatch).
Proof.
  apply commit_Ok in H as [_ Hc]. rewrite Hc, decide_True in Hk by done. set (r := round_of c w) in *.
  assert (∀ price' salt', open_commit source asset price' salt' r c2 w2 =
    if bool_decide (_compute_commit_hash source price' salt' r ≠ _compute_commit_hash source price salt r)
    then Err (Error CommitHashMismatch)
    else Ok tt (put_temporary (KeyPriceCommit asset source r)
      (Some (MkPriceCommit (_compute_commit_hash source price salt r) r source asset true)) w2)) as Hrun.
  { intros price' salt'. unfold open_commit, get_commit_window, get_reveal_window.
    unfold reveal_bounds in Hb. destruct (u32 (r + commit_window w2)) as [rs|] eqn:E1; [cbn in Hb|done].
    destruct (u32 (rs + reveal_window w2)) as [re|] eqn:E2; [cbn in Hb|done]. injection Hb as -> ->.
    rewrite run_bind, run_sequence, run_bind, run_get_or, run_bind, run_get_or.
    change (default DEFAULT_COMMIT_WINDOW (persistent w2 KeyCfgCommitWindow)) with (commit_window w2).
    change (default DEFAULT_REVEAL_WINDOW (persistent w2 KeyCfgRevealWindow)) with (reveal_window w2).
    rewrite run_bind, E1. cbn [lift]. rewrite run_ret, run_bind, E2. cbn [lift]. rewrite run_ret.
    rewrite run_bind, run_panic_if, (proj2 (Z.ltb_ge _ _)) by lia.
    rewrite run_bind, run_panic_if, (proj2 (Z.leb_gt _ _)) by lia.
    rewrite run_bind. unfold get_temporary at 1. cbv beta iota.
    change (temporary w2 (KeyPriceCommit asset source r)) with (commit_at w2 asset source r). rewrite Hk.
    cbn [pc_revealed pc_hash pc_committed_ledger pc_source pc_asset]. rewrite run_bind, run_panic_if, run_bind, run_panic_if.
    by case_bool_decide. }
  split.
  - eexists. split; [by rewrite Hrun, bool_decide_eq_false_2 by (by intros [])|]. split; [|done].
    unfold pending. by rewrite commit_put.
  - intros price' salt' Hne. rewrite Hrun. by rewrite bool_decide_eq_true_2.
Qed.
End Effects.

(** A source with a bond commits in the first round. *)
Section Toy_commitments.

Definition toy_commit_ctx (ledger : Z) : Ctx := MkCtx ledger 1000 (λ a, bool_decide (a = 1%N)) 0%N.
Definition toy_bonded_world : World :=
  put_persistent KeyCommitRevealSlashAmount (Some 20)
    (put_persistent (KeySourceBond 1%N) (Some 50)
      (put_persistent (KeyAssetRegistryIndex 8%N) (Some true) toy_submit_world)).
Definition toy_hash_of (price : Z) : Bytes := @_compute_commit_hash toy_crypto 1%N price [4; 2] 0.
Definition toy_committed : World :=
  invoke (@commit_price Wrapping 1%N 7%N (toy_hash_of 104)) (toy_commit_ctx 5) toy_bonded_world.
Definition toy_committed_twice : World :=
  invoke (@commit_price Wrapping 1%N 8%N (toy_hash_of 104)) (toy_commit_ctx 6) toy_committed.

End Toy_commitments.

#[local] Notation toy_reveal := (@reveal_price Wrapping toy_crypto toy_sort toy_xdr toy_callbacks 1%N 7%N 104 [4; 2] 0).
#[local] Notation toy_open asset := (@open_commit Wrapping toy_crypto 1%N asset 104 [4; 2] 0).
#[local] Notation toy_slash := (@slash_expired_commits Wrapping 7%N 1%N 0).

Lemma toy_commits :
  @commit_price Wrapping 1%N 7%N (toy_hash_of 104) (toy_commit_ctx 5) toy_bonded_world = Ok tt toy_committed.
Proof. apply run_succeeds. vm_compute. reflexivity. Qed.

Lemma reveal_as_committed_witness :
  persistent (invoke toy_reveal (toy_commit_ctx 25) toy_committed) (KeySubmission 7%N 1%N) =
    Some (MkPriceEntry 104 1000 1%N 18 25 1000 None).
Proof.
  assert (toy_reveal (toy_commit_ctx 25) toy_committed = Ok tt (invoke toy_reveal (toy_commit_ctx 25) toy_committed)) as H
    by (apply run_succeeds; vm_compute; reflexivity).
  destruct (@reveal_as_committed Wrapping toy_crypto toy_sort toy_xdr toy_callbacks 1%N 7%N 104 [4; 2] 0
    (toy_commit_ctx 25) toy_committed tt _ H) as (_ & _ & _ & _ & _ & _ & _ & Hs & _).
  rewrite Hs. vm_compute. reflexivity.
Defined.

Lemma commitment_binds_witness :
  (1%N = 1%N :> Address ∧ 104 = 104 ∧ [4; 2] = [4; 2] ∧ 0 = 0) ∨ ∃ a b, a ≠ b ∧ @sha256 toy_crypto a = @sha256 toy_crypto b.
Proof.
  assert (toy_open 7%N (toy_commit_ctx 25) toy_committed_twice = Ok tt (invoke (toy_open 7%N) (toy_commit_ctx 25) toy_committed_twice)) as H
    by (apply run_succeeds; vm_compute; reflexivity).
  assert (toy_open 8%N (toy_commit_ctx 30) toy_committed_twice = Ok tt (invoke (toy_open 8%N) (toy_commit_ctx 30) toy_committed_twice)) as H'
    by (apply run_succeeds; vm_compute; reflexivity).
  apply (@commitment_binds Wrapping toy_crypto 7%N 8%N 1%N 1%N 104 104 [4; 2] [4; 2] 0 0 _ _ _ _ _ _ _ _
    (MkPriceCommit (toy_hash_of 104) 0 1%N 7%N false) (MkPriceCommit (toy_hash_of 104) 0 1%N 8%N false)
    ltac:(intros a a' p p' E; apply app_inj_tail in E as [_ E]; lia)
    ltac:(split; split; vm_compute; discriminate) ltac:(split; split; vm_compute; discriminate) H H');
    vm_compute; reflexivity.
Defined.

Lemma slash_conserves_witness :
  let w' := invoke toy_slash (toy_commit_ctx 45) toy_committed in bond_of w' 1%N = 30 ∧ bond_of w' 1%N + treasury_of w' = 50.
Proof.
  intros w'. assert (toy_slash (toy_commit_ctx 45) toy_committed = Ok tt w') as H
    by (apply run_succeeds; vm_compute; reflexivity).
  split; [vm_compute; reflexivity|].
  destruct (@slash_conserves Wrapping toy_crypto 7%N 1%N 0 (toy_commit_ctx 45) toy_committed tt w' H) as (_ & Hs & _).
  - split; vm_compute; discriminate.
  - vm_compute. discriminate.
  - vm_compute. discriminate.
  - rewrite Hs. vm_compute. reflexivity.
Defined.

Lemma settled_once_witness :
  pending toy_committed 7%N 1%N 0 = 1%nat ∧
  (times (Revealed 7%N 1%N 0) [Committed 7%N 1%N 0] + times (Withheld 7%N 1%N 0) [Committed 7%N 1%N 0] <=
    times (Committed 7%N 1%N 0) [Committed 7%N 1%N 0])%nat.
Proof.
  split; [vm_compute; reflexivity|].
  apply (@settled_once Wrapping toy_crypto toy_sort toy_xdr toy_callbacks toy_committed).
  apply (@cr_commit Wrapping toy_crypto toy_sort toy_xdr toy_callbacks toy_bonded_world [] (toy_commit_ctx 5) 1%N 7%N
    (toy_hash_of 104) tt toy_committed); [|apply toy_commits].
  apply cr_start. intros a s r. reflexivity.
Defined.

Lemma committed_price_opens_witness :
  ∃ w3, toy_open 7%N (toy_commit_ctx 39) toy_committed = Ok tt w3 ∧ pending w3 7%N 1%N 0 = 0%nat.
Proof.
  destruct (@committed_price_opens Wrapping toy_crypto 1%N 7%N 104 [4; 2] (toy_commit_ctx 5) toy_bonded_world tt toy_committed
    (toy_commit_ctx 39) toy_committed 20 40 toy_commits eq_refl) as [(w3 & H & Hp & _) _].
  - vm_compute. reflexivity.
  - vm_compute. split; [discriminate|reflexivity].
  - exists w3. by split.
Defined.
