(* ===== verification/Degradation.v ===== *)
(** * [degradation.rs]: counting the reads that did not get a fresh price *)
From stdpp Require Import base list strings.
From S2P Require Import Prelude Machine Types Host AuditLog Config Admin Assets Frames.
#[local] Open Scope Z_scope.
#[local] Set Default Goal Selector "!".

Definition DEFAULT_WINDOW_LEDGERS : Z := 2016.
Definition DEFAULT_SAMPLE_EVERY : Z := 20.
Definition RETAINED_WINDOWS : Z := 4.

Definition default_config : DegradationConfig :=
  MkDegradationConfig true DEFAULT_WINDOW_LEDGERS DEFAULT_SAMPLE_EVERY true.

Definition get_config : M DegradationConfig := get_or KeyDegradationConfig default_config.

Definition set_config (config : DegradationConfig) : M unit :=
  admin ← get_admin;
  require_auth admin;;
  panic_if ((dc_window_ledgers config =? 0) && dc_count_windows config) InvalidConfiguration;;
  put KeyDegradationConfig config.

Definition current_window (config : DegradationConfig) : M Z :=
  if dc_window_ledgers config =? 0 then mret 0
  else ledger ← ledger_sequence; mret (ledger / dc_window_ledgers config).

(** [DegradationState::is_degraded] and [DegradationState::is_severe] *)
Definition is_degraded (state : DegradationState) : bool := bool_decide (state ≠ DegradationFresh).
Definition is_severe (state : DegradationState) : bool :=
  match state with DegradationClamped | DegradationDeferred => true | _ => false end.

Definition classify (is_stale frozen override_ : bool) (contributing min_sources : Z) (circuit_breaker : bool)
    : DegradationState :=
  if is_stale then DegradationStale
  else if frozen || override_ then DegradationClamped
  else if contributing <? min_sources then DegradationLowConfidence
  else if circuit_breaker then DegradationDeferred
  else DegradationFresh.

Definition classify_aggregate (aggregate : AggregatePrice) (min_sources : Z) : DegradationState :=
  classify false false false (ap_num_sources aggregate) min_sources false.

Definition counters_key (asset : Address) (window : Z) : DataKey := KeyDegradationCounters asset window.

Definition zeroed_states : list Z := [0; 0; 0; 0; 0].

Definition zeroed (window : Z) : DegradationStats := MkDegradationStats window 0 zeroed_states 0 0.

Definition read_counters (asset : Address) (window : Z) : M DegradationStats :=
  get_or (KeyDegradationCounters asset window) (zeroed window).

Definition prune_windows (asset : Address) (window : Z) : M unit :=
  if window <=? RETAINED_WINDOWS then mret tt
  else
    let key := KeyDegradationCounters asset (window - RETAINED_WINDOWS) in
    there ← has key;
    if there : bool then remove key else mret tt.

(** [stats.by_state.set(idx, stats.by_state.get(idx).unwrap_or(0) + 1)]: the
    index must be in range. *)
Definition bump_state `{BuildProfile} (idx : Z) (by_state : list Z) : option (list Z) :=
  n ← u32 (default 0 (by_state !! Z.to_nat idx) + 1);
  if (Z.to_nat idx <? length by_state)%nat then Some (<[Z.to_nat idx := n]> by_state) else None.

(** The counters of a window after one more read. *)
Definition count_read `{BuildProfile} (state : DegradationState) (stats : DegradationStats) : option DegradationStats :=
  by_state ← bump_state (DegradationState_as_u32 state) (ds_by_state stats);
  Some (MkDegradationStats (ds_window stats) (sat_u32 (ds_total_degraded stats + 1)) by_state
          (if is_severe state then sat_u32 (ds_severe stats + 1) else ds_severe stats) (ds_emitted_events stats)).

(** Whether the read announces itself: severe ones always, others by their
    number in this window and the one before. *)
Definition sampled (asset : Address) (config : DegradationConfig) (state : DegradationState) (window : Z)
    (stats : DegradationStats) : M bool :=
  if is_severe state || (dc_sample_every config <=? 1) then mret true
  else
    let cumulative := sat_u32 (ds_total_degraded stats - 1) in
    cumulative ← (if 0 <? window then
                    prev ← read_counters asset (window - 1);
                    mret (sat_u32 (cumulative + ds_total_degraded prev))
                  else mret cumulative);
    mret (cumulative mod dc_sample_every config =? 0).

Definition announce_read (asset : Address) (state : DegradationState) (window : Z) : M unit :=
  publish (MkDegradedReadEvent asset (DegradationState_as_u32 state) window (is_severe state)).

Definition record_read `{BuildProfile} (asset : Address) (state : DegradationState) : M bool :=
  if negb (is_degraded state) then mret false
  else
    config ← get_config;
    if negb (dc_enabled config) then mret false
    else
      window ← current_window config;
      if negb (dc_count_windows config) then
        (if is_severe state || (dc_sample_every config <=? 1) then announce_read asset state window else mret tt);;
        mret true
      else
        existing ← get (KeyDegradationCounters asset window);
        stats ← lift (count_read state (default (zeroed window) existing));
        emit ← sampled asset config state window stats;
        let stats := if emit : bool
                     then MkDegradationStats (ds_window stats) (ds_total_degraded stats) (ds_by_state stats)
                            (ds_severe stats) (sat_u32 (ds_emitted_events stats + 1))
                     else stats in
        set (KeyDegradationCounters asset window) stats;;
        match existing with
        | Some _ => mret tt
        | None => extend_ttl (KeyDegradationCounters asset window);; prune_windows asset window
        end;;
        (if emit : bool then announce_read asset state window else mret tt);;
        mret true.

Definition get_stats (asset : Address) : M DegradationStats :=
  config ← get_config;
  window ← current_window config;
  read_counters asset window.

Definition get_window_stats (asset : Address) (window : Z) : M DegradationStats := read_counters asset window.

Definition total_from_states (stats : DegradationStats) : Z :=
  foldl (λ total n, sat_u32 (total + n)) 0 (drop 1 (ds_by_state stats)).
