(* ===== verification/Twap.v ===== *)
(** * [prices.rs]: time-weighted average prices

    The aggregate of now and the history before it, each weighted by the
    ledgers it was in force; arithmetically, or through fixed-point base-two
    logarithms for the geometric mean. *)
From stdpp Require Import base list strings.
From S2P Require Import Prelude Machine Types Host AuditLog Config Admin Assets Frames History.
#[local] Open Scope Z_scope.
#[local] Set Default Goal Selector "!".

(** ** Fixed-point logarithm and power, Q32.32 *)

(** [x >> i] of a [u128] by a [u32]. *)
Definition shr_u128 `{BuildProfile} (x i : Z) : option Z :=
  if i <? 128 then Some (Z.shiftr x i)
  else match build_profile with OverflowChecks => None | Wrapping => Some (Z.shiftr x (i mod 128)) end.

(** The [32 - n] lower bits of the logarithm of [y], bit by bit. *)
Fixpoint log2_bits (n : nat) (y frac : Z) : Z :=
  match n with
  | O => frac
  | S n =>
      let y := Z.shiftr (sat_u128 (y * y)) 32 in
      if Z.shiftl 2 32 <=? y then log2_bits n (Z.shiftr y 1) (Z.lor frac (Z.shiftl 1 (Z.of_nat n)))
      else log2_bits n y frac
  end.

Definition log2_fixed `{BuildProfile} (value : Z) : option Z :=
  let x := as_u128 value in
  let leading_zeros := if x =? 0 then 128 else 127 - Z.log2 x in
  bit_index ← u32 (127 - leading_zeros);
  let exp := sat_i128 (bit_index - 32) in
  y ← (if 0 <=? exp then shr_u128 x (as_u32 exp) else Some (as_u128 (Z.shiftl x (- exp))));
  Some (Z.lor (Z.shiftl exp 32) (log2_bits 32 y 0)).

Definition LN2 : Z := 2977044471.

Definition exp2_frac (frac : Z) : Z :=
  let x := Z.shiftr (sat_u128 (frac * LN2)) 32 in
  let x2 := Z.shiftr (sat_u128 (x * x)) 32 in
  let x3 := Z.shiftr (sat_u128 (x2 * x)) 32 in
  let x4 := Z.shiftr (sat_u128 (x3 * x)) 32 in
  let x5 := Z.shiftr (sat_u128 (x4 * x)) 32 in
  let x6 := Z.shiftr (sat_u128 (x5 * x)) 32 in
  foldl (λ sum term, sat_u128 (sum + term)) (Z.shiftl 1 32)
    [x; x2 / 2; x3 / 6; x4 / 24; x5 / 120; x6 / 720].

Definition exp2_fixed (log2 : Z) : Z :=
  let int_part := Z.shiftr log2 32 in
  let frac := Z.land log2 4294967295 in
  let base := exp2_frac frac in
  if 0 <=? int_part then
    if 96 <=? int_part then I128_MAX else as_i128 (as_u128 (Z.shiftl base int_part))
  else
    let shift := as_u32 (- int_part) in
    if shift =? 0 then as_i128 base
    else if 128 <=? shift then 0
    else as_i128 (Z.shiftr (sat_u128 (base + Z.shiftl 1 (shift - 1))) shift).

(** ** The average *)

(** [while ledger > 0 { ledger -= 1; .. }]: the entries before [n], latest
    first, down to the first one at or before [start_ledger]; [newest] is the
    ledger of the last one taken. *)
Fixpoint history_before (asset : Address) (start_ledger : Z) (n : nat) (newest : Z) : M (list (Z * Z)) :=
  match n with
  | O => mret []
  | S n =>
      entry ← History.read_history_entry asset (Z.of_nat n);
      match entry with
      | None => history_before asset start_ledger n newest
      | Some entry =>
          let taken := if he_ledger entry =? newest then [] else [(he_ledger entry, he_price entry)] in
          let newest := if he_ledger entry =? newest then newest else he_ledger entry in
          if he_ledger entry <=? start_ledger then mret taken
          else rest ← history_before asset start_ledger n newest; mret (taken ++ rest)
      end
  end.

(** What the loop over the snapshots accumulates. *)
Record TwapSums := MkTwapSums {
  ts_weight : Z;
  ts_price : Z;
  ts_log2 : Z;
  ts_cardinality : Z;
  ts_max_weight : Z
}.

Definition add_segment `{BuildProfile} (method : TwapMethod) (price weight : Z) (s : TwapSums) : option TwapSums :=
  cardinality ← u32 (ts_cardinality s + 1);
  log2 ← (match method with
          | TwapGeometric => l ← log2_fixed price; Some (sat_i128 (ts_log2 s + sat_i128 (l * weight)))
          | TwapArithmetic => Some (ts_log2 s)
          end);
  Some (MkTwapSums (sat_u64 (ts_weight s + weight)) (sat_i128 (ts_price s + sat_i128 (price * weight))) log2
          cardinality (Z.max (ts_max_weight s) weight)).

Fixpoint sum_segments `{BuildProfile} (method : TwapMethod) (start_ledger next_boundary : Z)
    (snapshots : list (Z * Z)) (s : TwapSums) : option TwapSums :=
  match snapshots with
  | [] => Some s
  | (ledger, price) :: snapshots =>
      let segment_start := if ledger <? start_ledger then start_ledger else ledger in
      let counted := segment_start <? next_boundary in
      s ← (if counted then add_segment method price (next_boundary - segment_start) s else Some s);
      if segment_start =? start_ledger then Some s
      else sum_segments method start_ledger (if counted then segment_start else next_boundary) snapshots s
  end.

Definition average `{BuildProfile} (method : TwapMethod) (s : TwapSums) : option Z :=
  match method with
  | TwapArithmetic => div_i128 (ts_price s) (ts_weight s)
  | TwapGeometric => avg_log2 ← div_i128 (ts_log2 s) (ts_weight s); Some (exp2_fixed avg_log2)
  end.

Section Twap.
Context `{BP : BuildProfile}.

Definition compute_twap_stats (asset : Address) (start_ledger current_ledger : Z) (method : TwapMethod)
    : M (option TwapResult) :=
  current_agg ← get (KeyAggregate asset);
  match current_agg with
  | None => mret None
  | Some current_agg =>
      history ← history_before asset start_ledger (Z.to_nat current_ledger) current_ledger;
      let snapshots := (current_ledger, ap_price current_agg) :: history in
      sums ← lift (sum_segments method start_ledger (sat_u32 (current_ledger + 1)) snapshots (MkTwapSums 0 0 0 0 0));
      if ts_weight sums =? 0 then mret None
      else
        price ← lift (average method sums);
        now ← ledger_timestamp;
        max_weight_bps ← lift (scaled ← u64 (ts_max_weight sums * 10000); udiv scaled (ts_weight sums));
        mret (Some (MkTwapResult price now current_ledger (ts_cardinality sums) (as_u32 max_weight_bps)
                      (ts_cardinality sums =? 1)))
  end.

Definition as_price_data (r : TwapResult) : PriceData := MkPriceData (tw_price r) (tw_timestamp r) (tw_last_updated r).

Definition compute_twap_window (asset : Address) (start_ledger current_ledger : Z) (method : TwapMethod)
    : M (option PriceData) :=
  r ← compute_twap_stats asset start_ledger current_ledger method; mret (as_price_data <$> r).

Definition compute_twap_fallback (asset : Address) : M (option AggregatePrice) :=
  current_ledger ← ledger_sequence;
  max_history ← get_max_history_length;
  let max_history := Z.max max_history 5 in
  decimals ← get_decimals;
  price_data ← compute_twap_window asset (sat_u32 (current_ledger - max_history)) current_ledger TwapArithmetic;
  mret ((λ d, MkAggregatePrice (pd_price d) (pd_timestamp d) 0 decimals false 0) <$> price_data).
End Twap.
