(* ===== verification/Queries.v ===== *)
(** * [prices.rs]: reading prices

    The guarded read with its precedence (freeze, override, breaker, live
    aggregate), the SEP-40 style reads, the overrides, and the permissionless
    aggregation. *)
From stdpp Require Import base list strings.
From S2P Require Import Prelude Machine StorageMath Types Host AuditLog Config Admin Assets Frames.
From S2P Require Import History Policy SourceGuards Provenance Aggregation DeadMan.
From S2P Require Import Degradation Twap.
#[local] Open Scope Z_scope.
#[local] Set Default Goal Selector "!".

(** [types::Asset]: a contract on this network, or a symbol. *)
Inductive Asset :=
  | AssetStellar (a : Address)
  | AssetOther (symbol : string).

(** ** The guarded read *)

Section GetPrice.
Context `{BP : BuildProfile}.

(** [timestamp + limit < now], when there is a limit. *)
Definition older_than (limit timestamp now : Z) : bool := (0 <? limit) && (sat_u64 (timestamp + limit) <? now).

Definition serve_frozen (asset : Address) (min_sources : Z) (frozen : FrozenPrice) : M (option AggregatePrice) :=
  resolution ← get_asset_resolution asset;
  now ← ledger_timestamp;
  record_read asset (classify (older_than resolution (fz_timestamp frozen) now) true false 0 min_sources false);;
  mret (Some (MkAggregatePrice (fz_price frozen) (fz_timestamp frozen) 0 (fz_decimals frozen) false 0)).

Definition serve_override (asset : Address) (min_sources : Z) (ovr : PriceOverrideEntry) : M (option AggregatePrice) :=
  extend_ttl (KeyPriceOverride asset);;
  decimals ← get_decimals;
  now ← ledger_timestamp;
  record_read asset (classify false false true 0 min_sources false);;
  mret (Some (MkAggregatePrice (poe_price ovr) now 0 decimals true 0)).

Definition serve_fallback (asset : Address) (min_sources : Z) : M (option AggregatePrice) :=
  twap ← compute_twap_fallback asset;
  fallback ← (match twap with Some a => mret (Some a) | None => get (KeyAggregate asset) end);
  record_read asset (classify false false false min_sources min_sources true);;
  mret fallback.

Definition refuse_stale (asset : Address) (min_sources contributing : Z) : M (option AggregatePrice) :=
  current_ledger ← ledger_sequence;
  publish (MkPriceStaleEvent asset 0 current_ledger);;
  record_read asset (classify true false false contributing min_sources false);;
  mret None.

Definition serve_aggregate (asset : Address) (max_age min_sources : Z) : M (option AggregatePrice) :=
  result ← get (KeyAggregate asset);
  match result with
  | None => mret None
  | Some result =>
      if ap_price result <=? 0 then mret None
      else
        now ← ledger_timestamp;
        if older_than max_age (ap_timestamp result) now then refuse_stale asset min_sources (ap_num_sources result)
        else
          resolution ← get_asset_resolution asset;
          if older_than resolution (ap_timestamp result) now
          then refuse_stale asset min_sources (ap_num_sources result)
          else
            extend_ttl (KeyAggregate asset);;
            record_read asset (classify_aggregate result min_sources);;
            mret (Some result)
  end.

(** An expired override is removed and announced. *)
Definition expire_override (asset : Address) (ovr : PriceOverrideEntry) : M unit :=
  current_ledger ← ledger_sequence;
  publish (MkPriceOverrideExpiredEvent asset (poe_expiry_ledger ovr) current_ledger);;
  remove (KeyPriceOverride asset).

Definition serve_live (asset : Address) (max_age min_sources : Z) : M (option AggregatePrice) :=
  tripped ← is_circuit_breaker_tripped asset;
  if tripped : bool then serve_fallback asset min_sources else serve_aggregate asset max_age min_sources.

Definition get_price (asset : Address) (max_age : Z) : M (option AggregatePrice) :=
  check_registered_asset asset;;
  disabled ← is_asset_disabled asset;
  panic_if disabled AssetDisabled;;
  current_ledger ← ledger_sequence;
  policy ← Policy.effective_policy asset;
  let min_sources := ep_min_sources policy in
  frozen ← get_frozen_price asset;
  match frozen with
  | Some frozen => serve_frozen asset min_sources frozen
  | None =>
      ovr ← get (KeyPriceOverride asset);
      match ovr with
      | Some ovr =>
          if current_ledger <=? poe_expiry_ledger ovr then serve_override asset min_sources ovr
          else expire_override asset ovr;; serve_live asset max_age min_sources
      | None => serve_live asset max_age min_sources
      end
  end.

Definition get_aggregate_with_version (asset : Address) : M VersionedAggregatePrice :=
  check_registered_asset asset;;
  aggregate ← get (KeyAggregate asset);
  match aggregate with
  | None => panic_with_error NoData
  | Some aggregate =>
      extend_ttl (KeyAggregate asset);;
      mret (MkVersionedAggregatePrice aggregate (ap_version aggregate))
  end.
End GetPrice.

(** ** Submissions *)

Definition get_source_price (asset source : Address) : M PriceEntry :=
  check_registered_asset asset;;
  disabled ← is_asset_disabled asset;
  panic_if disabled AssetDisabled;;
  check_source source;;
  entry ← get_touch (KeySubmission asset source);
  match entry with
  | Some entry => mret (entry : PriceEntry)
  | None => decimals ← get_decimals; mret (MkPriceEntry 0 0 source decimals 0 0 None)
  end.

Fixpoint entries_of (asset : Address) (sources : list Address) : M (list PriceEntry) :=
  match sources with
  | [] => mret []
  | src :: sources =>
      entry ← get (KeySubmission asset src);
      rest ← entries_of asset sources;
      mret (match entry with Some entry => entry :: rest | None => rest end)
  end.

Definition get_all_prices (asset : Address) : M (list PriceEntry) :=
  check_registered_asset asset;;
  disabled ← is_asset_disabled asset;
  panic_if disabled AssetDisabled;;
  oracle_sources ← read_oracle_sources;
  entries_of asset (os_sources oracle_sources).

Definition get_price_with_confidence `{BuildProfile} (asset : Address) : M (option (AggregatePrice * Z)) :=
  aggregate ← get_price asset 0;
  match aggregate with
  | None => mret None
  | Some aggregate =>
      entries ← get_all_prices asset;
      confidence_bps ← lift (compute_confidence_bps (pe_price <$> entries));
      mret (Some (aggregate, confidence_bps))
  end.

Definition check_rate_limit_and_increment `{BuildProfile} (consumer : Address) : M unit :=
  subscribed ← is_subscribed consumer;
  if subscribed : bool then mret tt
  else
    ledger ← ledger_sequence;
    max_queries ← get_or KeyQueryRateLimit 100;
    let count_key := KeyQueryCount consumer ledger in
    current_count ← get_temporary_or count_key 0;
    (if max_queries <=? current_count then
       publish (MkRateLimitExceededEvent consumer current_count max_queries);;
       panic_with_error RateLimitExceeded
     else mret tt);;
    new_count ← lift (u32 (current_count + 1));
    set_temporary count_key new_count;;
    extend_ttl_temporary count_key.

(** ** Reads by asset *)

(** The contract of a registered asset. *)
Definition registered_address (asset : Asset) : M (option Address) :=
  match asset with
  | AssetOther _ => mret None
  | AssetStellar addr =>
      registered ← get_or (KeyAssetRegistered addr) false;
      mret (if registered : bool then Some addr else None)
  end.

Definition lastprice (asset : Asset) : M (option PriceData) :=
  addr ← registered_address asset;
  match addr with
  | None => mret None
  | Some addr =>
      result ← get (KeyAggregate addr);
      match result with
      | None => mret None
      | Some result =>
          if ap_price result <=? 0 then mret None
          else
            resolution ← get_asset_resolution addr;
            now ← ledger_timestamp;
            if older_than resolution (ap_timestamp result) now then mret None
            else
              extend_ttl (KeyAggregate addr);;
              ledger ← ledger_sequence;
              mret (Some (MkPriceData (ap_price result) (ap_timestamp result) ledger))
      end
  end.

(** [loop { .. if ledger == start { break; } ledger -= 1; }], over [n + 1]
    ledgers down from [ledger]. *)
Fixpoint first_at_or_before (addr : Address) (timestamp ledger : Z) (n : nat) : M (option PriceData) :=
  entry ← History.read_history_entry addr ledger;
  let found :=
    match entry with
    | Some entry =>
        if he_timestamp entry <=? timestamp
        then Some (MkPriceData (he_price entry) (he_timestamp entry) ledger) else None
    | None => None
    end in
  match found, n with
  | Some d, _ => mret (Some d)
  | None, O => mret None
  | None, S n => first_at_or_before addr timestamp (ledger - 1) n
  end.

Definition price (asset : Asset) (timestamp : Z) : M (option PriceData) :=
  addr ← registered_address asset;
  match addr with
  | None => mret None
  | Some addr =>
      agg ← get (KeyAggregate addr);
      current_ledger ← ledger_sequence;
      match agg with
      | Some agg =>
          if ap_timestamp agg =? timestamp
          then mret (Some (MkPriceData (ap_price agg) (ap_timestamp agg) current_ledger))
          else first_at_or_before addr timestamp current_ledger (Z.to_nat (Z.min current_ledger 1000))
      | None => first_at_or_before addr timestamp current_ledger (Z.to_nat (Z.min current_ledger 1000))
      end
  end.

(** Up to [records] entries over [n + 1] ledgers down from [ledger]. *)
Fixpoint recent_entries (addr : Address) (records : nat) (ledger : Z) (n : nat) : M (list PriceData) :=
  entry ← History.read_history_entry addr ledger;
  let found :=
    match entry with Some e => [MkPriceData (he_price e) (he_timestamp e) ledger] | None => [] end in
  let records := (records - length found)%nat in
  match records, n with
  | O, _ | _, O => mret found
  | _, S n => rest ← recent_entries addr records (ledger - 1) n; mret (found ++ rest)
  end.

Definition prices `{BuildProfile} (asset : Asset) (records : Z) : M (option (list PriceData)) :=
  degraded ← DeadMan.is_degraded;
  if degraded : bool then mret None
  else
    addr ← registered_address asset;
    match addr with
    | None => mret None
    | Some addr =>
        if records =? 0 then mret (Some [])
        else
          max_history ← get_max_history_length;
          panic_if ((max_history <? records) || (Assets.MAX_PAGE_SIZE <? records)) RecordsLimitExceeded;;
          current_ledger ← ledger_sequence;
          tenfold ← lift (u32 (records * 10));
          let max_to_check := Z.min tenfold 10000 in
          result ← recent_entries addr (Z.to_nat records) current_ledger (Z.to_nat (Z.min current_ledger max_to_check));
          match result with
          | [] =>
              agg ← get (KeyAggregate addr);
              mret (Some (match agg with
                          | Some agg => [MkPriceData (ap_price agg) (ap_timestamp agg) current_ledger]
                          | None => []
                          end))
          | _ => mret (Some result)
          end
    end.

(** ** Averages *)

Definition MAX_TWAP_MIN_CARDINALITY : Z := 64.

Definition get_twap_min_cardinality : M Z := get_or KeyTwapMinCardinality 1.

Definition set_twap_min_cardinality (min_cardinality : Z) : M unit :=
  admin ← get_admin;
  require_auth admin;;
  panic_if ((min_cardinality =? 0) || (MAX_TWAP_MIN_CARDINALITY <? min_cardinality)) InvalidConfiguration;;
  put KeyTwapMinCardinality min_cardinality.

Section Averages.
Context `{BP : BuildProfile}.

Definition get_twap_ex (asset : Asset) (window_ledgers : Z) (method : TwapMethod) : M (option TwapResult) :=
  addr ← registered_address asset;
  match addr with
  | None => mret None
  | Some addr =>
      max_history ← (if window_ledgers =? 0 then mret 0 else get_max_history_length);
      panic_if ((window_ledgers =? 0) || (max_history <? window_ledgers)) InvalidConfiguration;;
      current_ledger ← ledger_sequence;
      let start_ledger := sat_u32 (current_ledger - sat_u32 (window_ledgers - 1)) in
      result ← compute_twap_stats addr start_ledger current_ledger method;
      match result with
      | None => mret None
      | Some result =>
          min_cardinality ← get_twap_min_cardinality;
          panic_if (tw_cardinality result <? min_cardinality) TwapInsufficientObservations;;
          mret (Some result)
      end
  end.

Definition get_twap (asset : Asset) (window_ledgers : Z) (method : TwapMethod) : M (option PriceData) :=
  r ← get_twap_ex asset window_ledgers method; mret (as_price_data <$> r).
End Averages.

(** ** Overrides *)

Definition MAX_REASON_LENGTH : Z := 256.

Definition override_price (asset : Address) (price : Z) (reason : string) (expiry_ledger : Z) : M unit :=
  admin ← get_admin;
  require_auth admin;;
  check_registered_asset asset;;
  panic_if (MAX_REASON_LENGTH <? Z.of_nat (String.length reason)) ReasonTooLong;;
  current_ledger ← ledger_sequence;
  panic_if (price <=? 0) InvalidPrice;;
  panic_if (expiry_ledger <=? current_ledger) InvalidConfiguration;;
  put (KeyPriceOverride asset) (MkPriceOverrideEntry price reason expiry_ledger current_ledger);;
  publish (MkPriceOverrideSetEvent asset admin price reason expiry_ledger).

Definition remove_price_override (asset : Address) : M unit :=
  admin ← get_admin;
  require_auth admin;;
  check_registered_asset asset;;
  there ← has (KeyPriceOverride asset);
  panic_if (negb there) NoData;;
  remove (KeyPriceOverride asset);;
  publish (MkPriceOverrideRemovedEvent asset admin).

Definition get_price_override (asset : Address) : M (option PriceOverrideEntry) :=
  check_registered_asset asset;;
  get_touch (KeyPriceOverride asset).

Definition historical_price_change_percent `{BuildProfile} (asset : Address) (current_price : AggregatePrice)
    (ledgers_back : Z) : M (option Z) :=
  current_ledger ← ledger_sequence;
  historical_entry ← History.read_history_entry asset (sat_u32 (current_ledger - ledgers_back));
  match historical_entry with
  | None => mret None
  | Some entry =>
      if he_price entry =? 0 then mret None
      else
        let diff := sat_i128 (ap_price current_price - he_price entry) in
        change_percent ← lift (div_i128 (sat_i128 (diff * 100)) (he_price entry));
        mret (Some change_percent)
  end.

(** ** Aggregation on demand *)

Fixpoint stored_loop (asset : Address) (min_interval current_ledger : Z) (sources : list Address)
    (acc : list Z * list Z * Z) : M (list Z * list Z * Z) :=
  match sources with
  | [] => mret acc
  | src :: sources =>
      last ← (if 0 <? min_interval then get (KeyLastSubmissionLedger src asset) else mret None);
      if negb (within_interval min_interval current_ledger last) then
        stored_loop asset min_interval current_ledger sources acc
      else
        entry ← get (KeySubmission asset src);
        let '(prices, volumes, latest) := acc in
        stored_loop asset min_interval current_ledger sources
          match entry with
          | Some e => (prices ++ [pe_price e], volumes ++ [default 0 (pe_volume e)], Z.max latest (pe_timestamp e))
          | None => acc
          end
  end.

Definition check_trigger_cooldown (asset : Address) (current_ledger cooldown : Z) : M unit :=
  last_triggered ← get (KeyLastAggregationTrigger asset);
  match last_triggered with
  | Some last => panic_if (sat_u32 (current_ledger - last) <? cooldown) InvalidConfiguration
  | None => mret tt
  end.

Definition trigger_aggregation `{BuildProfile} (asset : Address) : M unit :=
  check_registered_asset asset;;
  current_ledger ← ledger_sequence;
  cooldown ← get_aggregation_cooldown;
  check_trigger_cooldown asset current_ledger cooldown;;
  oracle_sources ← read_oracle_sources;
  policy ← Policy.effective_policy asset;
  decimals ← get_decimals;
  min_interval ← get_min_submission_interval;
  '(prices, volumes, latest_timestamp) ←
    stored_loop asset min_interval current_ledger (os_sources oracle_sources) ([], [], 0);
  let contributing_sources := Z.of_nat (length prices) in
  if (ep_min_sources policy <=? contributing_sources) && negb (bool_decide (prices = [])) then
    agg_price ← aggregate_prices asset prices volumes;
    put (KeyAggregate asset)
      (MkAggregatePrice agg_price latest_timestamp contributing_sources decimals false 0);;
    set (KeyLastAggregationTrigger asset) current_ledger;;
    publish (MkAggregationTriggeredEvent asset agg_price contributing_sources current_ledger)
  else panic_with_error InsufficientSources.

Fixpoint compliant (asset : Address) (min_interval current_ledger : Z) (sources : list Address) : M (list Address) :=
  match sources with
  | [] => mret []
  | src :: sources =>
      last ← (if 0 <? min_interval then get (KeyLastSubmissionLedger src asset) else mret None);
      rest ← compliant asset min_interval current_ledger sources;
      mret (if within_interval min_interval current_ledger last then src :: rest else rest)
  end.

Definition get_compliant_sources (asset : Address) : M (list Address) :=
  check_registered_asset asset;;
  oracle_sources ← read_oracle_sources;
  min_interval ← get_min_submission_interval;
  current_ledger ← ledger_sequence;
  compliant asset min_interval current_ledger (os_sources oracle_sources).
