(* ===== verification/QuerySafety.v ===== *)
(** * What the reads of a price promise *)
From stdpp Require Import base list strings.
From S2P Require Import Prelude Machine Types Host AuditLog Config Admin Assets Frames FreshnessWeight.
From S2P Require Import History Policy SourceGuards Provenance PriceCallback Aggregation RoundFrames RoundSafety DeadMan.
From S2P Require Import Sources Triggers Submission SubmissionSafety.
From S2P Require Import Degradation Twap Queries.
#[local] Open Scope Z_scope.
#[local] Set Default Goal Selector "!".

(** ** Entries a read may write *)

Definition read_key (k : DataKey) : Prop :=
  match k with
  | KeyAssetRegistryIndex _ | KeyDegradationCounters _ _ | KeyPriceOverride _ => True
  | _ => False
  end.

Section Reads.
Context `{BP : BuildProfile}.

Lemma modifies_history_read P asset l : modifies P (History.read_history_entry asset l).
Proof. intros c w a w' H. rewrite run_read_entry in H. by injection H as _ <-. Qed.
#[local] Hint Resolve modifies_history_read : modifies.
Lemma modifies_history_before P asset start n : ∀ newest, modifies P (history_before asset start n newest).
Proof. induction n as [|n IH]; intros newest; simpl; frame; apply IH. Qed.
#[local] Hint Resolve modifies_history_before : modifies.

Lemma get_price_frame asset max_age : modifies read_key (get_price asset max_age).
Proof. deep_frame. Qed.

(** ** Which price is served *)

Definition frozen_at (w : World) (asset : Address) : option FrozenPrice :=
  if Flags.is_on w Flags.FREEZE then persistent w (KeyFrozenPrice asset) else None.
Definition override_at (c : Ctx) (w : World) (asset : Address) : option PriceOverrideEntry :=
  match persistent w (KeyPriceOverride asset) with
  | Some ovr => if sequence c <=? poe_expiry_ledger ovr then Some ovr else None
  | None => None
  end.
Definition resolution_at (c : Ctx) (w : World) (asset : Address) : Z :=
  match get_asset_resolution asset c w with Ok r _ => r | Err _ => 0 end.

(** Where a served price comes from, in the order of precedence. *)
Inductive served (c : Ctx) (w : World) (asset : Address) (max_age : Z) (a : AggregatePrice) : Prop :=
  | served_frozen f :
      frozen_at w asset = Some f → a = MkAggregatePrice (fz_price f) (fz_timestamp f) 0 (fz_decimals f) false 0 →
      served c w asset max_age a
  | served_override ovr :
      frozen_at w asset = None → override_at c w asset = Some ovr →
      a = MkAggregatePrice (poe_price ovr) (timestamp c) 0 (default DEFAULT_DECIMALS (persistent w KeyCfgDecimals)) true 0 →
      served c w asset max_age a
  | served_fallback :
      frozen_at w asset = None → override_at c w asset = None → breaker_tripped asset w = true →
      (ap_is_override a = false ∧ ap_num_sources a = 0 ∧ ap_timestamp a = timestamp c) ∨ persistent w (KeyAggregate asset) = Some a →
      served c w asset max_age a
  | served_live :
      frozen_at w asset = None → override_at c w asset = None → breaker_tripped asset w = false →
      persistent w (KeyAggregate asset) = Some a → 0 < ap_price a →
      older_than max_age (ap_timestamp a) (timestamp c) = false →
      older_than (resolution_at c w asset) (ap_timestamp a) (timestamp c) = false →
      served c w asset max_age a.

(** The history the average reads, as a function of the state. *)
Fixpoint taken_history (w : World) (asset : Address) (start : Z) (n : nat) (newest : Z) : list (Z * Z) :=
  match n with
  | O => []
  | S n =>
      match entry_at w asset (Z.of_nat n) with
      | None => taken_history w asset start n newest
      | Some e =>
          let taken := if he_ledger e =? newest then [] else [(he_ledger e, he_price e)] in
          if he_ledger e <=? start then taken
          else taken ++ taken_history w asset start n (if he_ledger e =? newest then newest else he_ledger e)
      end
  end.

Lemma run_history_before asset start n c w : ∀ newest,
  history_before asset start n newest c w = Ok (taken_history w asset start n newest) w.
Proof.
  induction n as [|n IH]; intros newest; [done|]. cbn [history_before taken_history]. rewrite run_bind, run_read_entry.
  destruct (entry_at w asset (Z.of_nat n)) as [e|]; [|apply IH]. cbv zeta. case_match; [done|].
  by rewrite run_bind, IH.
Qed.

Lemma twap_stats_Ok asset start current method c w r w' :
  compute_twap_stats asset start current method c w = Ok r w' →
  w' = w ∧ match r with
           | None => True
           | Some r => ∃ agg sums, persistent w (KeyAggregate asset) = Some agg ∧
               sum_segments method start (sat_u32 (current + 1))
                 ((current, ap_price agg) :: taken_history w asset start (Z.to_nat current) current)
                 (MkTwapSums 0 0 0 0 0) = Some sums ∧ ts_weight sums ≠ 0 ∧ average method sums = Some (tw_price r) ∧
               tw_timestamp r = timestamp c ∧ tw_cardinality r = ts_cardinality sums
           end.
Proof.
  unfold compute_twap_stats. intros H. step H. destruct (persistent w (KeyAggregate asset)) as [agg|] eqn:Ea; [|by injection H as <- <-].
  rewrite run_bind, run_history_before in H. step H. case_match eqn:Ew; [by injection H as <- <-|].
  do 3 step H. injection H as <- <-. split; [done|]. exists agg, v. cbn. apply Z.eqb_neq in Ew. done.
Qed.

Lemma fallback_Ok asset c w r w' :
  compute_twap_fallback asset c w = Ok r w' →
  w' = w ∧ match r with
           | None => True
           | Some a => ap_is_override a = false ∧ ap_num_sources a = 0 ∧ ap_timestamp a = timestamp c ∧ ap_version a = 0
           end.
Proof.
  unfold compute_twap_fallback, compute_twap_window, get_max_history_length, get_decimals. intros H. step H. do 2 step H.
  rewrite run_assoc in H. apply bind_Ok in H as (r1 & w1 & H1 & H). apply twap_stats_Ok in H1 as [-> Hr].
  rewrite run_bind, run_ret in H. injection H as <- <-. split; [done|]. destruct r1 as [r1|]; [|done]. cbn.
  destruct Hr as (agg & sums & _ & _ & _ & _ & Ht & _). done.
Qed.

Lemma frozen_Ok asset c w r w' : get_frozen_price asset c w = Ok r w' → w' = w ∧ r = frozen_at w asset.
Proof.
  unfold get_frozen_price, frozen_at. intros H. step H. destruct (Flags.is_on w Flags.FREEZE); cbn [negb] in H; by injection H as <- <-.
Qed.

Lemma resolution_Ok asset c w r w' : get_asset_resolution asset c w = Ok r w' → w' = w ∧ r = resolution_at c w asset.
Proof.
  intros H. split; [|unfold resolution_at; by rewrite H]. unfold get_asset_resolution, get_resolution in H. step H.
  destruct (persistent w (KeyAssetResolution asset)) as [r'|] eqn:E.
  - rewrite run_bind in H. unfold extend_ttl in H. rewrite E in H. by injection H as _ <-.
  - rewrite run_get_bump_or in H. by injection H as _ <-.
Qed.

Lemma serve_aggregate_Ok asset max_age min_sources c w a w' :
  serve_aggregate asset max_age min_sources c w = Ok (Some a) w' →
  persistent w (KeyAggregate asset) = Some a ∧ 0 < ap_price a ∧
  older_than max_age (ap_timestamp a) (timestamp c) = false ∧
  older_than (resolution_at c w asset) (ap_timestamp a) (timestamp c) = false.
Proof.
  unfold serve_aggregate. intros H. step H. destruct (persistent w (KeyAggregate asset)) as [result|] eqn:Ea; [|done].
  destruct (ap_price result <=? 0) eqn:Ep; [done|]. step H.
  assert (∀ n w1, refuse_stale asset min_sources n c w1 ≠ Ok (Some a) w') as Hno.
  { intros n w1 Hs. unfold refuse_stale in Hs. do 2 step Hs. by apply bind_Ok in Hs as (? & ? & _ & Hs). }
  destruct (older_than max_age (ap_timestamp result) (timestamp c)) eqn:Em; [by apply Hno in H|].
  apply bind_Ok in H as (res & w1 & [-> ->]%resolution_Ok & H).
  destruct (older_than (resolution_at c w asset) (ap_timestamp result) (timestamp c)) eqn:Er; [by apply Hno in H|].
  apply bind_Ok in H as (? & w1 & _ & H). apply bind_Ok in H as (? & w2 & _ & H). injection H as -> _.
  split; [done|]. split; [by apply Z.leb_gt|done].
Qed.

Lemma serve_fallback_Ok asset min_sources c w a w' :
  serve_fallback asset min_sources c w = Ok (Some a) w' →
  (ap_is_override a = false ∧ ap_num_sources a = 0 ∧ ap_timestamp a = timestamp c) ∨ persistent w (KeyAggregate asset) = Some a.
Proof.
  unfold serve_fallback. intros H. apply bind_Ok in H as (r & w1 & [-> Hr]%fallback_Ok & H).
  apply bind_Ok in H as (f & w2 & H2 & H). apply bind_Ok in H as (? & w3 & _ & H). injection H as -> _.
  destruct r as [r|]; [injection H2 as -> _; left; naive_solver|injection H2 as E _; by right].
Qed.

Lemma serve_live_Ok asset max_age min_sources c w a w' :
  serve_live asset max_age min_sources c w = Ok (Some a) w' → frozen_at w asset = None → override_at c w asset = None →
  served c w asset max_age a.
Proof.
  unfold serve_live. rewrite run_bind, run_is_tripped. intros H Hf Ho. destruct (breaker_tripped asset w) eqn:Eb.
  - apply serve_fallback_Ok in H. by eapply served_fallback.
  - apply serve_aggregate_Ok in H as (H1 & H2 & H3 & H4). by eapply served_live.
Qed.

Lemma served_agree c w w' asset max_age a :
  (∀ k, k ≠ KeyAssetRegistryIndex asset → k ≠ KeyPriceOverride asset → persistent w' k = persistent w k) →
  instance_flags w' = instance_flags w → override_at c w' asset = override_at c w asset →
  served c w' asset max_age a → served c w asset max_age a.
Proof.
  intros Hk Hf Ho Hs. assert (frozen_at w' asset = frozen_at w asset) as Ef.
  { unfold frozen_at, Flags.is_on. by rewrite Hf, Hk. }
  assert (resolution_at c w' asset = resolution_at c w asset) as Er.
  { unfold resolution_at, get_asset_resolution, get_resolution. rewrite !run_bind, !run_get, Hk by done.
    destruct (persistent w (KeyAssetResolution asset)) eqn:E; [|by rewrite !run_get_bump_or, Hk].
    rewrite !run_bind. unfold extend_ttl. by rewrite Hk, E by done. }
  assert (breaker_tripped asset w' = breaker_tripped asset w) as Eb by (unfold breaker_tripped; by rewrite Hk).
  destruct Hs as [f H1 H2|o H1 H2 H3|H1 H2 H3 H4|H1 H2 H3 H4 H5 H6 H7]; rewrite Ef in H1.
  - by eapply served_frozen.
  - rewrite Ho in H2. rewrite Hk in H3 by done. by eapply served_override.
  - rewrite Ho in H2. rewrite Eb in H3. rewrite Hk in H4 by done. by eapply served_fallback.
  - rewrite Ho in H2. rewrite Eb in H3. rewrite Hk in H4 by done. rewrite Er in H7. by eapply served_live.
Qed.

Definition not_override (k : DataKey) : Prop := match k with KeyPriceOverride _ => False | _ => True end.
Lemma serve_frozen_frame asset min_sources f : modifies not_override (serve_frozen asset min_sources f).
Proof. deep_frame. Qed.
Lemma serve_override_frame asset min_sources o : modifies not_override (serve_override asset min_sources o).
Proof. deep_frame. Qed.
Lemma serve_live_frame asset max_age min_sources : modifies not_override (serve_live asset max_age min_sources).
Proof. deep_frame. Qed.

Lemma serve_frozen_Ok asset min_sources f c w a w' :
  serve_frozen asset min_sources f c w = Ok (Some a) w' → a = MkAggregatePrice (fz_price f) (fz_timestamp f) 0 (fz_decimals f) false 0.
Proof.
  unfold serve_frozen. intros H. apply bind_Ok in H as (? & w1 & _ & H). step H.
  apply bind_Ok in H as (? & w2 & _ & H). by injection H as <- _.
Qed.

Lemma serve_override_Ok asset min_sources o c w a w' :
  serve_override asset min_sources o c w = Ok (Some a) w' → persistent w (KeyPriceOverride asset) = Some o →
  a = MkAggregatePrice (poe_price o) (timestamp c) 0 (default DEFAULT_DECIMALS (persistent w KeyCfgDecimals)) true 0.
Proof.
  unfold serve_override, get_decimals. intros H E. rewrite run_bind, (run_extend_ttl _ _ _ _ E) in H. step H. step H.
  apply bind_Ok in H as (? & w2 & _ & H). by injection H as <- _.
Qed.

(** From the choice of the price on, in a state without pending registry
    work. *)
Lemma choose_price asset max_age min_sources c w a w' :
  (frozen ← get_frozen_price asset;
   match frozen with
   | Some frozen => serve_frozen asset min_sources frozen
   | None =>
       ovr ← get (KeyPriceOverride asset);
       match ovr with
       | Some ovr =>
           if sequence c <=? poe_expiry_ledger ovr then serve_override asset min_sources ovr
           else expire_override asset ovr;; serve_live asset max_age min_sources
       | None => serve_live asset max_age min_sources
       end
   end) c w = Ok (Some a) w' →
  served c w asset max_age a ∧
  ∀ x, persistent w' (KeyPriceOverride x) = persistent w (KeyPriceOverride x) ∨
    x = asset ∧ override_at c w x = None ∧ persistent w' (KeyPriceOverride x) = None.
Proof.
  intros H. apply bind_Ok in H as (fr & w1 & [-> Hf]%frozen_Ok & H). destruct fr as [f|].
  { split; [by eapply served_frozen; [|eapply serve_frozen_Ok]|]. intros x. left.
    apply (serve_frozen_frame _ _ _ _ _ _ _ H). by intros []. }
  step H. destruct (persistent w (KeyPriceOverride asset)) as [o|] eqn:Eo.
  - destruct (sequence c <=? poe_expiry_ledger o) eqn:Ee.
    + split; [|intros x; left; apply (serve_override_frame _ _ _ _ _ _ _ H); by intros []].
      eapply served_override; [done| |by eapply serve_override_Ok]. unfold override_at. by rewrite Eo, Ee.
    + unfold expire_override in H. do 3 step H. set (w1 := put_persistent (KeyPriceOverride asset) None _) in H.
      assert (override_at c w asset = None) as Hn by (unfold override_at; by rewrite Eo, Ee).
      split.
      * apply (served_agree c w w1); [|done| |].
        -- intros k _ Hk. unfold w1. by rewrite persistent_put_ne.
        -- rewrite Hn. unfold override_at, w1. by rewrite persistent_put_eq.
        -- apply serve_live_Ok in H; [done| |unfold override_at, w1; by rewrite persistent_put_eq].
           rewrite Hf. unfold frozen_at, w1. by rewrite persistent_put_ne.
      * intros x. rewrite (serve_live_frame _ _ _ _ _ _ _ H) by by intros []. unfold w1.
        destruct (decide (x = asset)) as [->|Hx]; [right; by rewrite persistent_put_eq|left].
        by rewrite persistent_put_ne by congruence.
  - split; [apply serve_live_Ok in H; [done|done|unfold override_at; by rewrite Eo]|].
    intros x. left. apply (serve_live_frame _ _ _ _ _ _ _ H). by intros [].
Qed.

End Reads.

(** ** Averages *)

Section Averages.
Context `{BP : BuildProfile}.

(** What the sums are after the segments from [boundary] to [top] were added:
    their weight is the time covered, their price between the bounds. *)
Definition sums_between (lo hi top boundary : Z) (s : TwapSums) : Prop :=
  ts_weight s = top - boundary ∧ lo * ts_weight s <= ts_price s <= hi * ts_weight s ∧
  0 <= ts_max_weight s <= ts_weight s ∧ 0 <= ts_cardinality s <= ts_weight s ∧
  (0 < ts_weight s → 1 <= ts_cardinality s ∧ 1 <= ts_max_weight s).

Lemma add_segment_between lo hi top boundary seg price s s' :
  0 <= lo → hi * 2 ^ 32 <= I128_MAX → lo <= price <= hi → 0 <= seg < boundary → boundary <= top <= U32_MAX →
  sums_between lo hi top boundary s → add_segment TwapArithmetic price (boundary - seg) s = Some s' →
  sums_between lo hi top seg s'.
Proof.
  intros Hlo Hhi Hp Hseg Htop (W & P & M & C & N) H. unfold add_segment in H.
  assert (U32_MAX = 4294967295) as EU by reflexivity. assert (I128_MAX = 170141183460469231731687303715884105727) as EI by reflexivity.
  unfold u32 in H. rewrite arith_ok in H by lia. cbn in H. injection H as <-. unfold sums_between. cbn [ts_weight ts_price ts_max_weight ts_cardinality].
  assert (hi * ts_weight s + hi * (boundary - seg) <= I128_MAX) as Hsum.
  { transitivity (hi * 2 ^ 32); [|done]. rewrite <- Z.mul_add_distr_l. apply Z.mul_le_mono_nonneg_l; lia. }
  assert (0 <= price * (boundary - seg) <= hi * (boundary - seg)) as Hpw by nia.
  assert (lo * (boundary - seg) <= price * (boundary - seg)) as Hpl by nia.
  assert (0 <= lo * ts_weight s) by nia. assert (0 <= hi * ts_weight s) by nia.
  rewrite (sat_i128_id (price * _)) by (unfold in_i128, I128_MIN; lia).
  rewrite sat_u64_id by (unfold in_u64, U64_MAX; lia).
  rewrite sat_i128_id by (unfold in_i128, I128_MIN; lia).
  split; [lia|]. split; [lia|]. split; [lia|]. split; [lia|]. lia.
Qed.

Lemma sum_segments_between lo hi top start snapshots : ∀ boundary s s',
  0 <= lo → hi * 2 ^ 32 <= I128_MAX → Forall (λ p, lo <= p.2 <= hi) snapshots → 0 <= start <= boundary → boundary <= top <= U32_MAX →
  sums_between lo hi top boundary s → sum_segments TwapArithmetic start boundary snapshots s = Some s' →
  ∃ boundary', sums_between lo hi top boundary' s'.
Proof.
  induction snapshots as [|[ledger price] l IH]; intros boundary s s' Hlo Hhi Hl Hst Htop Hs H; cbn [sum_segments] in H.
  { injection H as <-. by exists boundary. }
  apply Forall_cons in Hl as [Hp Hl]. cbn [snd] in Hp. set (seg := if ledger <? start then start else ledger) in H.
  assert (start <= seg) as Hseg by (unfold seg; destruct (ledger <? start) eqn:E; lia).
  destruct (seg <? boundary) eqn:Eb.
  - destruct (add_segment TwapArithmetic price (boundary - seg) s) as [s1|] eqn:E1; [|done]. cbn in H.
    apply (add_segment_between lo hi top) in E1; [|done|done|done|lia|done|done].
    destruct (seg =? start); [injection H as <-; by exists seg|]. by apply (IH seg s1); [..|lia|lia| |].
  - cbn in H. destruct (seg =? start); [injection H as <-; by exists boundary|]. by apply (IH boundary s).
Qed.

Lemma taken_history_forall (P : Z → Prop) w asset start n : ∀ newest,
  (∀ l e, entry_at w asset l = Some e → P (he_price e)) → Forall (λ p, P p.2) (taken_history w asset start n newest).
Proof.
  induction n as [|n IH]; intros newest HP; cbn [taken_history]; [constructor|].
  destruct (entry_at w asset (Z.of_nat n)) as [e|] eqn:E; [|by apply IH]. apply HP in E.
  assert (Forall (λ p : Z * Z, P p.2) (if he_ledger e =? newest then [] else [(he_ledger e, he_price e)])) as Ht
    by (case_match; repeat constructor; done).
  destruct (he_ledger e <=? start); [done|]. apply Forall_app. split; [done|]. by apply IH.
Qed.

(** C28. The arithmetic average is an average.  If the aggregate and every
    recorded price of the asset lie in a range of non-negative prices, small
    enough that thirty-two bits of ledgers of them fit 128 bits, then so does
    the time-weighted arithmetic average over any window of ledgers, whatever
    gaps the history has, and it rests on at least one observation. *)
Theorem twap_bounded asset start current c w r w' lo hi
    (H : compute_twap_stats asset start current TwapArithmetic c w = Ok (Some r) w')
    (Hlo : 0 <= lo) (Hhi : hi * 2 ^ 32 <= I128_MAX) (Hl : 0 <= start <= current) (Hc : current < U32_MAX)
    (Hagg : ∀ agg, persistent w (KeyAggregate asset) = Some agg → lo <= ap_price agg <= hi)
    (Hhist : ∀ l e, entry_at w asset l = Some e → lo <= he_price e <= hi) :
  lo <= tw_price r <= hi ∧ 1 <= tw_cardinality r.
Proof.
  apply twap_stats_Ok in H as [_ (agg & sums & Ha & Hs & Hw & Hp & _ & ->)].
  assert (U32_MAX = 4294967295) as EU by reflexivity.
  rewrite sat_u32_id in Hs by (unfold in_u32; lia).
  apply (sum_segments_between lo hi (current + 1)) in Hs as (b & W & P & M & C & N); [|done|done| |lia|lia|].
  - unfold average, div_i128 in Hp. case_match; [done|]. injection Hp as <-.
    rewrite Z.quot_div_nonneg by nia. split; [|lia].
    split; [apply Z.div_le_lower_bound; lia|apply Z.div_le_upper_bound; lia].
  - constructor; [by apply Hagg|]. by apply (taken_history_forall (λ p, lo <= p <= hi)).
  - unfold sums_between. cbn. lia.
Qed.
End Averages.

(** ** Counting degraded reads *)

Section Accounts.
#[local] Instance checked : BuildProfile := OverflowChecks.

Definition capped (n : Z) : Z := Z.min U32_MAX n.

(** The counters of a window add up: the total to the four degraded states,
    the severe ones to the clamped and the deferred. *)
Record stats_ok (s : DegradationStats) : Prop := {
  sk_states : ∃ stale clamped low deferred, ds_by_state s = [0; stale; clamped; low; deferred] ∧
    Forall (λ n, 0 <= n <= U32_MAX) [stale; clamped; low; deferred] ∧
    ds_total_degraded s = capped (stale + clamped + low + deferred) ∧ ds_severe s = capped (clamped + deferred);
  sk_emitted : 0 <= ds_emitted_events s <= ds_total_degraded s
}.

Definition counters_ok (w : World) : Prop :=
  ∀ asset window s, persistent w (KeyDegradationCounters asset window) = Some s → stats_ok s.

Lemma zeroed_ok window : stats_ok (zeroed window).
Proof.
  split; [|cbn; lia]. exists 0, 0, 0, 0. assert (U32_MAX = 4294967295) as EU by reflexivity.
  split; [done|]. split; [repeat constructor; lia|]. unfold capped. cbn. lia.
Qed.

Lemma count_read_ok state s s' :
  is_degraded state = true → stats_ok s → count_read state s = Some s' →
  stats_ok s' ∧ (ds_emitted_events s' = ds_emitted_events s) ∧ ds_total_degraded s' = capped (ds_total_degraded s + 1) ∧
  (ds_emitted_events s < ds_total_degraded s' ∨ ds_total_degraded s' = U32_MAX).
Proof.
  intros Hd [(st & cl & lo & de & Eb & Hf & Et & Es) He] H. unfold count_read, bump_state in H. rewrite Eb in H.
  assert (U32_MAX = 4294967295) as EU by reflexivity.
  assert (∀ z, 0 <= z → sat_u32 z = capped z) as Hsat by (intros z Hz; unfold sat_u32, clampZ, capped; lia).
  do 4 apply Forall_cons in Hf as [? Hf]. clear Hf.
  destruct state; [done|..]; cbn in H; destruct (u32 _) as [n|] eqn:En; try done; cbn in H; injection H as <-;
    unfold u32, arith in En; cbn in En; (destruct (in_range 0 U32_MAX _) eqn:Er in En; [|done]); injection En as <-;
    apply in_range_true in Er; cbn in Er; rewrite Et, ?Es, !Hsat by (unfold capped; lia); cbn [ds_emitted_events ds_total_degraded];
    (split; [|split; [done|split; [done|unfold capped in *; lia]]]).
  all: (split; [|cbn; unfold capped in *; lia]).
  all: repeat change (Z.to_nat 1) with 1%nat in *; repeat change (Z.to_nat 2) with 2%nat in *; repeat change (Z.to_nat 3) with 3%nat in *; repeat change (Z.to_nat 4) with 4%nat in *; cbn in Er.
  - exists (st + 1), cl, lo, de. split; [done|]. split; [repeat constructor; lia|]. unfold capped. cbn. lia.
  - exists st, (cl + 1), lo, de. split; [done|]. split; [repeat constructor; lia|]. unfold capped. cbn. lia.
  - exists st, cl, (lo + 1), de. split; [done|]. split; [repeat constructor; lia|]. unfold capped. cbn. lia.
  - exists st, cl, lo, (de + 1). split; [done|]. split; [repeat constructor; lia|]. unfold capped. cbn. lia.
Qed.

Lemma total_of_states s : stats_ok s → total_from_states s = ds_total_degraded s.
Proof.
  intros [(st & cl & lo & de & Eb & Hf & Et & _) _]. unfold total_from_states. rewrite Eb, Et. cbn.
  assert (U32_MAX = 4294967295) as EU by reflexivity.
  do 4 apply Forall_cons in Hf as [? Hf]. unfold sat_u32, clampZ, capped. lia.
Qed.

Lemma sampled_Ok asset config state window s c w emit w' :
  sampled asset config state window s c w = Ok emit w' → w' = w ∧ (is_severe state = true → emit = true).
Proof.
  unfold sampled, read_counters. intros H. destruct (is_severe state) eqn:E; cbn [orb] in H; [by injection H as <- <-|].
  split; [|done]. case_match; [by injection H as _ <-|]. rewrite run_bind in H. destruct (0 <? window).
  - rewrite run_bind, run_get_or, run_ret in H. by injection H as _ <-.
  - rewrite run_ret in H. by injection H as _ <-.
Qed.

Lemma counters_put w asset window s :
  counters_ok w → stats_ok s → counters_ok (put_persistent (KeyDegradationCounters asset window) (Some s) w).
Proof.
  intros Hw Hs a x s'. destruct (decide ((asset, window) = (a, x))) as [[= <- <-]|Hne].
  - rewrite persistent_put_eq. by intros [= <-].
  - rewrite persistent_put_ne by congruence. apply Hw.
Qed.

Lemma counters_remove w asset window : counters_ok w → counters_ok (put_persistent (KeyDegradationCounters asset window) None w).
Proof.
  intros Hw a x s'. destruct (decide ((asset, window) = (a, x))) as [[= <- <-]|Hne]; [by rewrite persistent_put_eq|].
  rewrite persistent_put_ne by congruence. apply Hw.
Qed.

Lemma prune_Ok asset window c w u w' :
  prune_windows asset window c w = Ok u w' → 0 <= window → counters_ok w → counters_ok w' ∧
  persistent w' (KeyDegradationCounters asset window) = persistent w (KeyDegradationCounters asset window).
Proof.
  unfold prune_windows. intros H Hw Hok. case_match; [by injection H as _ <-|]. step H. case_match; [|by injection H as _ <-].
  step H. subst w'. split; [by apply counters_remove|]. apply persistent_put_ne. intros [= E]. unfold RETAINED_WINDOWS in E. lia.
Qed.

(** Counting one more read, announced or not. *)
Lemma counted_ok state s s' (emit : bool) :
  is_degraded state = true → stats_ok s → count_read state s = Some s' →
  stats_ok (if emit then MkDegradationStats (ds_window s') (ds_total_degraded s') (ds_by_state s') (ds_severe s')
                           (sat_u32 (ds_emitted_events s' + 1)) else s') ∧
  ds_total_degraded s' = capped (ds_total_degraded s + 1).
Proof.
  intros Hd Hs H. destruct (count_read_ok _ _ _ Hd Hs H) as (Hs' & He & Ht & Hlt). split; [|done].
  destruct emit; [|done]. destruct Hs' as [(st & cl & lo & de & Eb & Hf & Et & Es) Hem]. split; [by exists st, cl, lo, de|].
  assert (U32_MAX = 4294967295) as EU by reflexivity. cbn [ds_emitted_events ds_total_degraded].
  unfold sat_u32, clampZ, capped in *. lia.
Qed.

(** Degraded reads are accounted for.  In a build with overflow checks the
    counters of every window of every asset always add up: the total is the
    sum of the four degraded states and the severe reads are the clamped and
    the deferred ones, each capped at 32 bits, and there are no more
    announcements than reads.  A recorded degraded read keeps this so and,
    when windows are counted, adds one to the total of the current window. *)
Theorem degraded_reads_counted asset state c w b w'
    (H : record_read asset state c w = Ok b w') (Hw : counters_ok w) (Hs : 0 <= sequence c)
    (Hcfg : ∀ config, persistent w KeyDegradationConfig = Some config → 0 <= dc_window_ledgers config) :
  counters_ok w' ∧
  (∀ a x s, persistent w' (KeyDegradationCounters a x) = Some s → total_from_states s = ds_total_degraded s) ∧
  (b = is_degraded state && dc_enabled (default default_config (persistent w KeyDegradationConfig))) ∧
  (b = true → dc_count_windows (default default_config (persistent w KeyDegradationConfig)) = true →
     ∃ window s, current_window (default default_config (persistent w KeyDegradationConfig)) c w = Ok window w ∧
       persistent w' (KeyDegradationCounters asset window) = Some s ∧
       ds_total_degraded s =
         capped (ds_total_degraded (default (zeroed window) (persistent w (KeyDegradationCounters asset window))) + 1)).
Proof.
  enough (counters_ok w' ∧ (b = is_degraded state && dc_enabled (default default_config (persistent w KeyDegradationConfig))) ∧
    (b = true → dc_count_windows (default default_config (persistent w KeyDegradationConfig)) = true →
     ∃ window s, current_window (default default_config (persistent w KeyDegradationConfig)) c w = Ok window w ∧
       persistent w' (KeyDegradationCounters asset window) = Some s ∧
       ds_total_degraded s =
         capped (ds_total_degraded (default (zeroed window) (persistent w (KeyDegradationCounters asset window))) + 1)))
    as (H1 & H2 & H3) by (split; [done|split; [intros a x s E; by apply total_of_states, (H1 a x)|done]]).
  unfold record_read, get_config in H. destruct (is_degraded state) eqn:Ed; cbn [negb] in H; [|by injection H as <- <-].
  set (config := default default_config (persistent w KeyDegradationConfig) : DegradationConfig) in *.
  rewrite run_bind, (run_get_or_as KeyDegradationConfig default_config config) in H by done. cbv beta iota in H.
  destruct (dc_enabled config); cbn [negb] in H; [|by injection H as <- <-].
  apply bind_Ok in H as (window & w1 & H1 & H).
  assert (w1 = w ∧ 0 <= window) as [-> Hwin].
  { unfold current_window in H1. destruct (dc_window_ledgers config =? 0) eqn:E0; [by injection H1 as <- <-|]. step H1. injection H1 as <- <-.
    split; [done|]. apply Z.div_pos; [done|]. assert (0 <= dc_window_ledgers config); [|lia]. unfold config.
    destruct (persistent w KeyDegradationConfig) as [cf|] eqn:E; [by apply (Hcfg cf)|done]. }
  destruct (dc_count_windows config); cbn [negb] in H.
  2:{ apply bind_Ok in H as (? & w2 & H2 & H). injection H as <- <-. split; [|done].
      unfold announce_read in H2. case_match; [step H2; by subst w2|by injection H2 as _ <-]. }
  step H. step H. rename v into s1.
  apply bind_Ok in H as (emit & w1 & [-> _]%sampled_Ok & H). cbv zeta in H. step H.
  assert (stats_ok (default (zeroed window) (persistent w (KeyDegradationCounters asset window)))) as Hold.
  { destruct (persistent w (KeyDegradationCounters asset window)) as [s|] eqn:E; [by apply (Hw asset window)|apply zeroed_ok]. }
  destruct (counted_ok _ _ _ emit Ed Hold Eg) as [Hnew Htot]. set (s2 := if emit then _ else s1) in *.
  apply bind_Ok in H as (? & w3 & H3 & H). apply bind_Ok in H as (? & w4 & H4 & H). injection H as <- <-.
  assert (persistent w4 = persistent w3) as E4.
  { unfold announce_read in H4. destruct emit; [step H4; by subst w4|by injection H4 as _ <-]. }
  assert (counters_ok w3 ∧ persistent w3 (KeyDegradationCounters asset window) = Some s2) as [Hok Hget].
  { pose proof (counters_put w asset window s2 Hw Hnew) as Hput. set (w2 := put_persistent _ _ w) in *.
    assert (persistent w2 (KeyDegradationCounters asset window) = Some s2) as Hp by apply persistent_put_eq.
    destruct (persistent w (KeyDegradationCounters asset window)); [by injection H3 as _ <-|].
    rewrite run_bind, (run_extend_ttl _ _ _ _ Hp) in H3. apply prune_Ok in H3 as [Hok3 Hg3]; [|done|done].
    split; [done|]. by rewrite Hg3. }
  split; [by intros a y s; rewrite E4; apply Hok|]. split; [done|]. intros _ _. exists window, s2. rewrite E4.
  split; [done|]. split; [done|]. rewrite <- Htot. unfold s2. by destruct emit.
Qed.
End Accounts.

(** ** Aggregation on demand *)

Section Trigger.
Context `{BP : BuildProfile}.

Lemma modifies_stored P asset min_interval ledger l : ∀ acc, modifies P (stored_loop asset min_interval ledger l acc).
Proof. induction l as [|s l IH]; intros [[? ?] ?]; simpl; frame; apply IH. Qed.
#[local] Hint Resolve modifies_stored : modifies.

Definition trigger_key (asset : Address) (k : DataKey) : Prop :=
  match k with
  | KeyAssetRegistryIndex a | KeyAggregate a | KeyLastAggregationTrigger a => a = asset
  | _ => False
  end.
Lemma trigger_frame asset : modifies (trigger_key asset) (trigger_aggregation asset).
Proof.
  unfold trigger_aggregation, check_trigger_cooldown, aggregate_prices, read_bft_fault_tolerance, read_bft_aggregation_method,
    get_aggregation_cooldown, get_decimals, get_min_submission_interval, read_oracle_sources.
  repeat (frame; try (apply modifies_check_registered; reflexivity); try (deep_frame; reflexivity)).
Qed.

Lemma resolved_agree w w' asset m : agree w w' → resolved w' asset m = resolved w asset m.
Proof.
  intros A. unfold resolved, global_policy, class_policy_of, asset_policy_of, flagged.
  rewrite !(agree_on _ _ _ A), (agree_key _ _ KeyCfgAggregationMethod A), (agree_key _ _ (KeyAssetPolicy asset) A),
    (agree_key _ _ (KeyAssetClassId asset) A) by by intros [].
  destruct (persistent w (KeyAssetClassId asset)) as [class|]; [|done]. cbn.
  by rewrite (agree_key _ _ (KeyClassPolicy class) A) by by intros [].
Qed.
Lemma quiet_cooldown asset ledger cooldown : quiet (check_trigger_cooldown asset ledger cooldown).
Proof. quiet. Qed.
Lemma quiet_aggregate asset prices volumes : quiet (aggregate_prices asset prices volumes).
Proof. quiet. Qed.

End Trigger.

(** ** Runs *)

Definition returned {A} (m : M A) (c : Ctx) (w : World) : option A := match m c w with Ok a _ => Some a | Err _ => None end.
Lemma run_returns {A} (m : M A) c w a : returned m c w = Some a → m c w = Ok a (invoke m c w).
Proof. unfold returned, invoke. destruct (m c w); [by intros [= ->]|done]. Qed.

Section Toy_reads.

Definition toy_read_ctx : Ctx := MkCtx 5 1000 (λ _, false) 0%N.
Definition toy_priced_world : World :=
  put_persistent (KeyAggregate 7%N) (Some (MkAggregatePrice 102 990 2 18 false 9)) toy_submit_world.
(** The asset is frozen, its breaker tripped and its price out of bounds. *)
Definition toy_frozen_world : World :=
  put_flags (Some Flags.FREEZE)
    (put_persistent (KeyFrozenPrice 7%N) (Some (MkFrozenPrice 50 900 18 "incident" 4))
      (put_persistent (KeyAssetCircuitBreakerTripped 7%N) (Some true)
        (put_persistent (KeyAssetPriceBounds 7%N) (Some (MkPriceBounds 1 60 0)) toy_priced_world))).
Definition toy_single_world (p : Z) : World :=
  put_persistent (KeyAssetRegistered 7%N) (Some true)
    (put_persistent (KeyAggregate 7%N) (Some (MkAggregatePrice p 990 2 18 false 9)) empty_world).

End Toy_reads.

Lemma toy_single_history p l : entry_at (toy_single_world p) 7%N l = None.
Proof. unfold entry_at, History.shard, toy_single_world. cbn [temporary]. by rewrite ?persistent_put_ne. Qed.

#[local] Notation toy_get := (@get_price Wrapping 7%N 60).
#[local] Notation toy_trigger := (@trigger_aggregation Wrapping 7%N).



#[local] Notation toy_twap method := (@compute_twap_stats Wrapping 7%N 0 5 method).

Lemma twap_bounded_witness :
  ∃ r, toy_twap TwapArithmetic toy_read_ctx (toy_single_world 77) = Ok (Some r) (toy_single_world 77) ∧ 77 <= tw_price r <= 77.
Proof.
  assert (toy_twap TwapArithmetic toy_read_ctx (toy_single_world 77) =
    Ok (Some (MkTwapResult 77 1000 5 1 10000 true)) (toy_single_world 77)) as H by (vm_compute; reflexivity).
  eexists. split; [exact H|]. apply (@twap_bounded Wrapping 7%N 0 5 toy_read_ctx _ _ _ 77 77 H).
  - lia.
  - vm_compute. discriminate.
  - lia.
  - reflexivity.
  - intros agg E. injection E as <-. split; vm_compute; discriminate.
  - intros l e. rewrite toy_single_history. discriminate.
Defined.

(** The geometric average drifts below the prices it averages.  There are
    states in which every observation in the window is the same price and the
    geometric average lies below it by more than a millionth, because the power
    of two is computed with six terms of its series; and of a zero price, which
    the aggregate of a migrated asset has, the logarithm fails, or in a build
    without overflow checks yields the largest price there is. *)
Theorem geometric_twap_drifts :
  (∃ w asset p r, (∀ l, entry_at w asset l = None) ∧ ap_price <$> persistent w (KeyAggregate asset) = Some p ∧
     @get_twap_ex Wrapping (AssetStellar asset) 6 TwapGeometric toy_read_ctx w = Ok (Some r) w ∧
     tw_cardinality r = 1 ∧ tw_price r < p ∧ p < (p - tw_price r) * 1000000) ∧
  @log2_fixed OverflowChecks 0 = None ∧ exp2_fixed <$> @log2_fixed Wrapping 0 = Some I128_MAX.
Proof.
  split; [|split; vm_compute; reflexivity].
  exists (toy_single_world 1000000000000000000), 7%N, 1000000000000000000,
    (MkTwapResult 999998109687742464 1000 5 1 10000 true).
  split; [apply toy_single_history|]. split; [reflexivity|]. split; [vm_compute; reflexivity|].
  split; [reflexivity|]. split; vm_compute; reflexivity.
Qed.

Lemma degraded_reads_counted_witness :
  let w' := invoke (@record_read checked 7%N DegradationClamped) toy_read_ctx empty_world in
  counters_ok w' ∧ ∃ window s, persistent w' (KeyDegradationCounters 7%N window) = Some s ∧ ds_total_degraded s = 1.
Proof.
  assert (@record_read checked 7%N DegradationClamped toy_read_ctx empty_world =
    Ok true (invoke (@record_read checked 7%N DegradationClamped) toy_read_ctx empty_world)) as H
    by (apply run_returns; vm_compute; reflexivity).
  destruct (degraded_reads_counted 7%N DegradationClamped toy_read_ctx empty_world true _ H) as (Hok & _ & _ & Hc).
  - intros a x s. discriminate.
  - vm_compute; discriminate.
  - intros config. discriminate.
  - split; [exact Hok|]. destruct (Hc eq_refl eq_refl) as (window & s & _ & Hs & Ht). exists window, s.
    split; [exact Hs|]. rewrite Ht. reflexivity.
Defined.
