(* ===== verification/Multisig.v ===== *)
(** * [multisig.rs]: N-of-M governance over an ordered queue

    Proposals are nodes of a singly linked list in persistent storage: a head
    and a tail pointer, each operation holding the identifier of the next one
    (identifiers count up from 1; 0 is the null pointer).  The handlers are
    translated with the pointer manipulation of the source; the two walks
    over the list take the number of identifiers ever issued as fuel.

    [MsSpec] is the abstract state the module promises (a list of pending
    operations) and [ms_spec] its transitions.  The refinement theorem says
    that every handler implements its transition exactly, errors included,
    so no walk ever runs out of fuel and no operation is ever lost. *)
From Stdlib Require Import Sorted.
From stdpp Require Import base list sets strings.
From S2P Require Import Prelude Machine Types Host AuditLog Config Admin Assets.
#[local] Open Scope Z_scope.
#[local] Set Default Goal Selector "!".

(** ** Storage helpers *)

Definition read_governors : M (list Address) := get_bump_or KeyMsGovernors [].

Definition write_governors (governors : list Address) : M unit :=
  set KeyMsGovernors governors;; extend_ttl KeyMsGovernors.

Definition read_required_approvals : M Z := get_or KeyMsRequiredApprovals 1.

Definition read_op (op_id : Z) : M MultiSigOperation :=
  op ← get (KeyMsOp op_id);
  match op with Some op => mret op | None => panic_with_error OperationNotFound end.

Definition write_op (op : MultiSigOperation) : M unit :=
  set (KeyMsOp (mo_id op)) op;; extend_ttl (KeyMsOp (mo_id op)).

Definition remove_op (op_id : Z) : M unit := remove (KeyMsOp op_id).

Definition read_queue_head : M Z := get_or KeyMsQueueHead 0.
Definition write_queue_head (head : Z) : M unit := set KeyMsQueueHead head.
Definition read_queue_tail : M Z := get_or KeyMsQueueTail 0.
Definition write_queue_tail (tail : Z) : M unit := set KeyMsQueueTail tail.

(** Field updates of an operation. *)
Definition with_next (next : Z) (op : MultiSigOperation) : MultiSigOperation :=
  MkMultiSigOperation (mo_id op) (mo_op_type op) (mo_data op) (mo_approvals op)
    (mo_required_approvals op) (mo_proposed_ledger op) (mo_proposed_by op)
    (mo_timelock_start_ledger op) next.

Definition with_votes (approvals : list Address) (start : Z) (op : MultiSigOperation)
    : MultiSigOperation :=
  MkMultiSigOperation (mo_id op) (mo_op_type op) (mo_data op) approvals
    (mo_required_approvals op) (mo_proposed_ledger op) (mo_proposed_by op) start (mo_next_op_id op).

(** [approvals.len()] *)
Definition count_of (l : list Address) : Z := Z.of_nat (length l).

Definition op_type_to_u32 (op_type : OperationType) : Z :=
  match op_type with
  | OpUpgrade => 0
  | OpSetAdmin => 1
  | OpSetMinSources => 2
  | OpSetMaxHistory => 3
  | OpSetResolution => 4
  | OpSetDecimals => 5
  | OpSetDescription => 6
  | OpSetTimestampThreshold => 7
  end.

Section Multisig.
Context `{BP : BuildProfile}.

Definition next_op_id : M Z :=
  count ← get_or KeyMsOpCount 0;
  next ← lift (u32 (count + 1));
  set KeyMsOpCount next;;
  mret next.

(** ** Governor management *)

(** The rewriting of one operation by a rotation. *)
Definition strip_op (governors : list Address) (op : MultiSigOperation) : MultiSigOperation :=
  let retained := filter (λ a, a ∈ governors) (mo_approvals op) in
  with_votes retained
    (if count_of retained <? mo_required_approvals op then 0 else mo_timelock_start_ledger op) op.

(** [while cursor != 0] of [set_governors] *)
Fixpoint strip_loop (fuel : nat) (governors : list Address) (cursor invalidated_ops : Z) : M Z :=
  match fuel with
  | O => panic
  | S fuel =>
      if cursor =? 0 then mret invalidated_ops
      else
        op ← read_op cursor;
        let retained := filter (λ a, a ∈ governors) (mo_approvals op) in
        if negb (count_of retained =? count_of (mo_approvals op)) then
          invalidated_ops ← lift (u32 (invalidated_ops + 1));
          write_op (strip_op governors op);;
          strip_loop fuel governors (mo_next_op_id op) invalidated_ops
        else strip_loop fuel governors (mo_next_op_id op) invalidated_ops
  end.

(** Enough steps for a walk: one per identifier issued, and one to stop. *)
Definition walk_fuel : M nat := count ← get_or KeyMsOpCount 0; mret (S (Z.to_nat count)).

Definition set_governors (governors : list Address) (required : Z) : M unit :=
  admin ← auth_admin;
  panic_if ((required =? 0) || (count_of governors <? required)) InvalidConfiguration;;
  previous ← read_governors;
  previous_required ← read_required_approvals;
  write_governors governors;;
  set KeyMsRequiredApprovals required;;
  set KeyMsPreviousRequiredApprovals previous_required;;
  cursor ← read_queue_head;
  fuel ← walk_fuel;
  invalidated_ops ← strip_loop fuel governors cursor 0;
  publish (MkMsGovernorsUpdatedEvent admin (count_of governors) required);;
  publish (MkMsGovernorsRotatedEvent admin previous governors previous_required required
    invalidated_ops).

Definition get_governors : M (list Address) := read_governors.
Definition get_required_approvals : M Z := read_required_approvals.

(** ** Proposal lifecycle *)

Definition propose_ms_operation (proposer : Address) (op_type : OperationType) (data : Bytes)
    : M Z :=
  require_auth proposer;;
  governors ← read_governors;
  panic_if (negb (bool_decide (proposer ∈ governors))) NotAuthorized;;
  op_id ← next_op_id;
  required ← read_required_approvals;
  tail ← read_queue_tail;
  ledger ← ledger_sequence;
  write_op (MkMultiSigOperation op_id op_type data [] required ledger proposer 0 0);;
  (if tail =? 0 then
     write_queue_head op_id;;
     write_queue_tail op_id
   else
     tail_op ← read_op tail;
     write_op (with_next op_id tail_op);;
     write_queue_tail op_id);;
  publish (MkMsOperationProposedEvent op_id (op_type_to_u32 op_type) proposer ledger);;
  mret op_id.

Definition approve_operation (governor : Address) (op_id : Z) : M unit :=
  require_auth governor;;
  governors ← read_governors;
  panic_if (negb (bool_decide (governor ∈ governors))) NotAuthorized;;
  op ← read_op op_id;
  panic_if (bool_decide (governor ∈ mo_approvals op)) AlreadyApproved;;
  let approvals := mo_approvals op ++ [governor] in
  ledger ← ledger_sequence;
  let quorum := (mo_required_approvals op <=? count_of approvals) &&
                (mo_timelock_start_ledger op =? 0) in
  (if quorum then publish (MkMsQuorumReachedEvent op_id (count_of approvals)) else mret tt);;
  write_op (with_votes approvals (if quorum then ledger else mo_timelock_start_ledger op) op);;
  publish (MkMsOperationApprovedEvent op_id governor).

Definition retract_approval (governor : Address) (op_id : Z) : M unit :=
  require_auth governor;;
  governors ← read_governors;
  panic_if (negb (bool_decide (governor ∈ governors))) NotAuthorized;;
  op ← read_op op_id;
  panic_if (negb (bool_decide (governor ∈ mo_approvals op))) ApprovalNotFound;;
  let approvals := filter (λ a, a ≠ governor) (mo_approvals op) in
  write_op (with_votes approvals
    (if count_of approvals <? mo_required_approvals op then 0 else mo_timelock_start_ledger op) op);;
  publish (MkMsOperationRetractedEvent op_id governor).

Definition execute_ms_operation (executor : Address) (op_id : Z) : M unit :=
  require_auth executor;;
  admin ← get_admin;
  governors ← read_governors;
  panic_if (negb (bool_decide (executor = admin)) && negb (bool_decide (executor ∈ governors)))
    NotAuthorized;;
  head ← read_queue_head;
  panic_if (negb (head =? op_id)) MsNotQueueHead;;
  op ← read_op op_id;
  panic_if (count_of (mo_approvals op) <? mo_required_approvals op) MsQuorumNotReached;;
  panic_if (mo_timelock_start_ledger op =? 0) TimelockNotReady;;
  timelock_duration ← get_or KeyCfgTimelockDuration 10;
  ledger ← ledger_sequence;
  elapsed ← lift (u32 (ledger - mo_timelock_start_ledger op));
  panic_if (elapsed <? timelock_duration) TimelockNotReady;;
  write_queue_head (mo_next_op_id op);;
  (if mo_next_op_id op =? 0 then write_queue_tail 0 else mret tt);;
  remove_op op_id;;
  publish (MkMsOperationExecutedEvent op_id (op_type_to_u32 (mo_op_type op)) executor).

(** The search for the predecessor of [op_id], patched to skip it. *)
Fixpoint unlink_loop (fuel : nat) (op_id next cursor : Z) : M unit :=
  match fuel with
  | O => panic
  | S fuel =>
      if cursor =? 0 then mret tt
      else
        cur_op ← read_op cursor;
        if mo_next_op_id cur_op =? op_id then
          write_op (with_next next cur_op);;
          (if next =? 0 then write_queue_tail cursor else mret tt)
        else unlink_loop fuel op_id next (mo_next_op_id cur_op)
  end.

Definition cancel_ms_operation (canceller : Address) (op_id : Z) : M unit :=
  require_auth canceller;;
  admin ← get_admin;
  governors ← read_governors;
  panic_if (negb (bool_decide (canceller = admin)) && negb (bool_decide (canceller ∈ governors)))
    NotAuthorized;;
  op ← read_op op_id;
  head ← read_queue_head;
  (if head =? op_id then
     write_queue_head (mo_next_op_id op);;
     (if mo_next_op_id op =? 0 then write_queue_tail 0 else mret tt)
   else
     fuel ← walk_fuel;
     unlink_loop fuel op_id (mo_next_op_id op) head);;
  remove_op op_id;;
  publish (MkMsOperationCancelledEvent op_id canceller).

Definition get_ms_operation (op_id : Z) : M MultiSigOperation := read_op op_id.
Definition get_ms_queue_head : M Z := read_queue_head.
End Multisig.

(** ** Abstract state and transitions *)

Record MsSpec := MkMsSpec {
  sp_admin : option Address;
  sp_governors : list Address;
  sp_required : Z;
  sp_count : Z;
  sp_duration : Z;
  sp_pending : list MultiSigOperation
}.

Inductive MsCall :=
  | CallSetGovernors (governors : list Address) (required : Z)
  | CallPropose (proposer : Address) (op_type : OperationType) (data : Bytes)
  | CallApprove (governor : Address) (op_id : Z)
  | CallRetract (governor : Address) (op_id : Z)
  | CallExecute (executor : Address) (op_id : Z)
  | CallCancel (canceller : Address) (op_id : Z).

Definition run_ms_call `{BuildProfile} (call : MsCall) : M unit :=
  match call with
  | CallSetGovernors gs r => set_governors gs r
  | CallPropose p t d => _ ← propose_ms_operation p t d; mret tt
  | CallApprove g i => approve_operation g i
  | CallRetract g i => retract_approval g i
  | CallExecute e i => execute_ms_operation e i
  | CallCancel x i => cancel_ms_operation x i
  end.

(** The pending operation with an identifier. *)
Fixpoint find_op (i : Z) (ops : list MultiSigOperation) : option MultiSigOperation :=
  match ops with
  | [] => None
  | op :: ops => if mo_id op =? i then Some op else find_op i ops
  end.

Definition update_op (i : Z) (f : MultiSigOperation → MultiSigOperation)
    (ops : list MultiSigOperation) : list MultiSigOperation :=
  map (λ op, if mo_id op =? i then f op else op) ops.

Definition set_pending (ops : list MultiSigOperation) (s : MsSpec) : MsSpec :=
  MkMsSpec (sp_admin s) (sp_governors s) (sp_required s) (sp_count s) (sp_duration s) ops.

(** Adding and withdrawing a vote: the timelock runs exactly while the quorum
    holds. *)
Definition vote (governor : Address) (ledger : Z) (op : MultiSigOperation) : MultiSigOperation :=
  let approvals := mo_approvals op ++ [governor] in
  with_votes approvals
    (if (mo_required_approvals op <=? count_of approvals) && (mo_timelock_start_ledger op =? 0)
     then ledger else mo_timelock_start_ledger op) op.

Definition unvote (governor : Address) (op : MultiSigOperation) : MultiSigOperation :=
  let approvals := filter (λ a, a ≠ governor) (mo_approvals op) in
  with_votes approvals
    (if count_of approvals <? mo_required_approvals op then 0 else mo_timelock_start_ledger op) op.

(** Administrator or governor. *)
Definition may_act (s : MsSpec) (a : Address) : Failure + unit :=
  match sp_admin s with
  | None => inl Panic
  | Some admin =>
      if bool_decide (a = admin) || bool_decide (a ∈ sp_governors s) then inr tt
      else inl (Error NotAuthorized)
  end.

Definition ms_spec (c : Ctx) (call : MsCall) (s : MsSpec) : Failure + MsSpec :=
  match call with
  | CallSetGovernors gs r =>
      match sp_admin s with
      | None => inl Panic
      | Some admin =>
          if negb (authorized c admin) then inl AuthFailed
          else if (r =? 0) || (count_of gs <? r) then inl (Error InvalidConfiguration)
          else inr (MkMsSpec (Some admin) gs r (sp_count s) (sp_duration s)
                      (map (strip_op gs) (sp_pending s)))
      end
  | CallPropose p t d =>
      if negb (authorized c p) then inl AuthFailed
      else if negb (bool_decide (p ∈ sp_governors s)) then inl (Error NotAuthorized)
      else inr (MkMsSpec (sp_admin s) (sp_governors s) (sp_required s) (sp_count s + 1)
                 (sp_duration s)
                 (sp_pending s ++
                   [MkMultiSigOperation (sp_count s + 1) t d [] (sp_required s) (sequence c) p 0 0]))
  | CallApprove g i =>
      if negb (authorized c g) then inl AuthFailed
      else if negb (bool_decide (g ∈ sp_governors s)) then inl (Error NotAuthorized)
      else match find_op i (sp_pending s) with
           | None => inl (Error OperationNotFound)
           | Some op =>
               if bool_decide (g ∈ mo_approvals op) then inl (Error AlreadyApproved)
               else inr (set_pending (update_op i (vote g (sequence c)) (sp_pending s)) s)
           end
  | CallRetract g i =>
      if negb (authorized c g) then inl AuthFailed
      else if negb (bool_decide (g ∈ sp_governors s)) then inl (Error NotAuthorized)
      else match find_op i (sp_pending s) with
           | None => inl (Error OperationNotFound)
           | Some op =>
               if bool_decide (g ∈ mo_approvals op)
               then inr (set_pending (update_op i (unvote g) (sp_pending s)) s)
               else inl (Error ApprovalNotFound)
           end
  | CallExecute e i =>
      if negb (authorized c e) then inl AuthFailed
      else match may_act s e with
           | inl f => inl f
           | inr _ =>
               match sp_pending s with
               | op :: rest =>
                   if negb (mo_id op =? i) then inl (Error MsNotQueueHead)
                   else if count_of (mo_approvals op) <? mo_required_approvals op
                   then inl (Error MsQuorumNotReached)
                   else if mo_timelock_start_ledger op =? 0 then inl (Error TimelockNotReady)
                   else if sequence c - mo_timelock_start_ledger op <? sp_duration s
                   then inl (Error TimelockNotReady)
                   else inr (set_pending rest s)
               | [] => inl (Error (if 0 =? i then OperationNotFound else MsNotQueueHead))
               end
           end
  | CallCancel x i =>
      if negb (authorized c x) then inl AuthFailed
      else match may_act s x with
           | inl f => inl f
           | inr _ =>
               match find_op i (sp_pending s) with
               | None => inl (Error OperationNotFound)
               | Some _ => inr (set_pending (filter (λ op, mo_id op ≠ i) (sp_pending s)) s)
               end
           end
  end.

(** Well-formed abstract states at ledger [now]: identifiers count up, every
    vote is by a current governor and counted once, and the timelock runs
    exactly while the quorum holds. *)
Definition op_wf (governors : list Address) (now : Z) (op : MultiSigOperation) : Prop :=
  NoDup (mo_approvals op) ∧ (∀ a, a ∈ mo_approvals op → a ∈ governors) ∧
  1 <= mo_required_approvals op ∧ 0 <= mo_timelock_start_ledger op <= now ∧
  (mo_timelock_start_ledger op ≠ 0 ↔ mo_required_approvals op <= count_of (mo_approvals op)) ∧
  mo_next_op_id op = 0.

Definition ms_wf (now : Z) (s : MsSpec) : Prop :=
  1 <= sp_required s ∧ 0 <= sp_count s ∧
  StronglySorted Z.lt (map mo_id (sp_pending s)) ∧
  Forall (λ op, 1 <= mo_id op <= sp_count s) (sp_pending s) ∧
  Forall (op_wf (sp_governors s) now) (sp_pending s).

(** ** The linked list of a list of operations *)

Definition hd_id (ops : list MultiSigOperation) : Z :=
  match ops with [] => 0 | op :: _ => mo_id op end.

Definition last_id (ops : list MultiSigOperation) : Z :=
  match last ops with Some op => mo_id op | None => 0 end.

Fixpoint link (ops : list MultiSigOperation) : list MultiSigOperation :=
  match ops with
  | [] => []
  | op :: ops => with_next (hd_id ops) op :: link ops
  end.

(** The storage represents an abstract state. *)
Definition ms_repr (w : World) (s : MsSpec) : Prop :=
  persistent w KeyAdmin = sp_admin s ∧
  default [] (persistent w KeyMsGovernors) = sp_governors s ∧
  default 1 (persistent w KeyMsRequiredApprovals) = sp_required s ∧
  default 0 (persistent w KeyMsOpCount) = sp_count s ∧
  default 10 (persistent w KeyCfgTimelockDuration) = sp_duration s ∧
  default 0 (persistent w KeyMsQueueHead) = hd_id (sp_pending s) ∧
  default 0 (persistent w KeyMsQueueTail) = last_id (sp_pending s) ∧
  ∀ i, persistent w (KeyMsOp i) = find_op i (link (sp_pending s)).

(** *** Lists of operations *)

Definition ids_ok (ops : list MultiSigOperation) : Prop :=
  NoDup (map mo_id ops) ∧ 0 ∉ map mo_id ops.

Lemma sorted_ids_nodup (l : list Z) : StronglySorted Z.lt l → NoDup l.
Proof.
  induction 1 as [|x l _ IH Hx]; constructor; [|done].
  intros Hin. rewrite Forall_forall in Hx. specialize (Hx x Hin). lia.
Qed.

Lemma ms_wf_ids now s : ms_wf now s → ids_ok (sp_pending s).
Proof.
  intros (_ & _ & Hs & Hb & _). split; [by apply sorted_ids_nodup|].
  intros (op & E & Hop)%list_elem_of_fmap. rewrite Forall_forall in Hb. specialize (Hb op Hop). lia.
Qed.

Lemma ids_ok_cons op ops :
  ids_ok (op :: ops) ↔ mo_id op ≠ 0 ∧ (∀ o, o ∈ ops → mo_id o ≠ mo_id op) ∧ ids_ok ops.
Proof.
  unfold ids_ok. simpl. rewrite NoDup_cons, not_elem_of_cons, list_elem_of_fmap. split.
  - intros [[Hn Hd] [H0 Hf]]. split_and!; try done. intros o Ho E. apply Hn. by exists o.
  - intros (H0 & Hn & Hd & Hf). split_and!; try done. intros (o & E & Ho). by apply (Hn o).
Qed.

Lemma find_op_Some i ops op : find_op i ops = Some op → op ∈ ops ∧ mo_id op = i.
Proof.
  induction ops as [|o ops IH]; [done|]. simpl. destruct (Z.eqb_spec (mo_id o) i) as [<-|Hne].
  - intros [= ->]. split; [left|done].
  - intros H. destruct (IH H). split; [by right|done].
Qed.

Lemma find_op_None i ops : find_op i ops = None ↔ ∀ op, op ∈ ops → mo_id op ≠ i.
Proof.
  induction ops as [|o ops IH]; simpl.
  - split; [intros _ op Hop; by apply not_elem_of_nil in Hop|done].
  - destruct (Z.eqb_spec (mo_id o) i) as [<-|Hne].
    + split; [done|]. intros H. exfalso. by apply (H o); [left|].
    + rewrite IH. split.
      * intros H op [->|Hin]%elem_of_cons; [done|auto].
      * intros H op Hin. apply H. by right.
Qed.

Lemma find_op_elem ops op : ids_ok ops → op ∈ ops → find_op (mo_id op) ops = Some op.
Proof.
  induction ops as [|o ops IH]; intros Hok Hin; [by apply not_elem_of_nil in Hin|].
  apply ids_ok_cons in Hok as (_ & Hne & Hok). simpl.
  apply elem_of_cons in Hin as [->|Hin]; [by rewrite Z.eqb_refl|].
  destruct (Z.eqb_spec (mo_id o) (mo_id op)) as [E|_]; [|auto]. exfalso. by apply (Hne op Hin).
Qed.

(** The stored node of an operation: the operation with its successor. *)
Fixpoint succ_id (i : Z) (ops : list MultiSigOperation) : Z :=
  match ops with
  | [] => 0
  | op :: ops => if mo_id op =? i then hd_id ops else succ_id i ops
  end.

Lemma find_link i ops : find_op i (link ops) = with_next (succ_id i ops) <$> find_op i ops.
Proof.
  induction ops as [|op ops IH]; [done|]. simpl. by destruct (mo_id op =? i).
Qed.

Lemma link_length ops : length (link ops) = length ops.
Proof. induction ops; simpl; congruence. Qed.

(** Updates that keep identifiers keep the links. *)
Lemma hd_id_map f ops : (∀ op, mo_id (f op) = mo_id op) → hd_id (map f ops) = hd_id ops.
Proof. intros Hf. destruct ops; [done|]. apply Hf. Qed.

Lemma last_id_map f ops : (∀ op, mo_id (f op) = mo_id op) → last_id (map f ops) = last_id ops.
Proof. intros Hf. unfold last_id. rewrite fmap_last. destruct (last ops); [apply Hf|done]. Qed.

Definition keeps_id (f : MultiSigOperation → MultiSigOperation) : Prop :=
  ∀ op, mo_id (f op) = mo_id op.

Lemma update_keeps_id i f : keeps_id f → keeps_id (λ op, if mo_id op =? i then f op else op).
Proof. intros Hf op. simpl. destruct (mo_id op =? i); [apply Hf|done]. Qed.

Lemma find_link_map f ops i :
  keeps_id f → (∀ op n, f (with_next n op) = with_next n (f op)) →
  find_op i (link (map f ops)) = f <$> find_op i (link ops).
Proof.
  intros Hf Hn. induction ops as [|op ops IH]; [done|]. simpl. rewrite (hd_id_map f) by apply Hf.
  rewrite Hf. destruct (mo_id op =? i); [exact (f_equal Some (eq_sym (Hn op _)))|done].
Qed.

Lemma find_link_update f ops i j :
  keeps_id f → (∀ op n, f (with_next n op) = with_next n (f op)) →
  find_op j (link (update_op i f ops)) =
    if j =? i then f <$> find_op j (link ops) else find_op j (link ops).
Proof.
  intros Hf Hn. unfold update_op. rewrite find_link_map.
  - destruct (find_op j (link ops)) as [op|] eqn:E; simpl; [|by destruct (j =? i)].
    apply find_op_Some in E as [_ ->]. by destruct (j =? i).
  - by apply update_keeps_id.
  - intros op n. simpl. by destruct (mo_id op =? i).
Qed.

Lemma strip_keeps_id gs : keeps_id (strip_op gs). Proof. done. Qed.
Lemma vote_keeps_id g n : keeps_id (vote g n). Proof. done. Qed.
Lemma unvote_keeps_id g : keeps_id (unvote g). Proof. done. Qed.

Lemma find_op_zero ops : ids_ok ops → find_op 0 ops = None.
Proof. intros [_ Hf]. apply find_op_None. intros op Hop E. apply Hf. rewrite <- E. by apply list_elem_of_fmap_2. Qed.

Lemma last_id_cons_ne o o2 ops : ids_ok (o :: o2 :: ops) → mo_id o ≠ last_id (o :: o2 :: ops).
Proof.
  intros (H0 & Hd & _)%ids_ok_cons. unfold last_id. change (last (o :: o2 :: ops)) with (last (o2 :: ops)).
  destruct (last (o2 :: ops)) as [z|] eqn:El; [|done]. apply last_Some_elem_of in El.
  apply not_eq_sym. auto.
Qed.

(** Appending a node patches the last one. *)
Lemma find_link_snoc ops op j :
  ids_ok ops → (∀ o, o ∈ ops → mo_id o ≠ mo_id op) →
  find_op j (link (ops ++ [op])) =
    if j =? mo_id op then Some (with_next 0 op)
    else if j =? last_id ops then with_next (mo_id op) <$> find_op j (link ops)
    else find_op j (link ops).
Proof.
  induction ops as [|o ops IH]; intros Hok Hne.
  { simpl. rewrite (Z.eqb_sym j). destruct (mo_id op =? j); [done|]. by destruct (j =? _). }
  pose proof Hok as Hok'. apply ids_ok_cons in Hok as (H0 & Hd & Hok).
  assert (mo_id o ≠ mo_id op) as Ho by (apply Hne; left).
  simpl. destruct (Z.eqb_spec (mo_id o) j) as [<-|Hj].
  - rewrite (proj2 (Z.eqb_neq _ _) Ho). destruct ops as [|o2 ops]; simpl.
    + unfold last_id. simpl. by rewrite Z.eqb_refl.
    + by rewrite (proj2 (Z.eqb_neq _ _) (last_id_cons_ne o o2 ops Hok')).
  - rewrite IH; [|done|]. 2: { intros o' Ho'. apply Hne. by right. }
    destruct (j =? mo_id op); [done|]. destruct ops as [|o2 ops]; [|done].
    unfold last_id. simpl. rewrite (proj2 (Z.eqb_neq j (mo_id o)) (not_eq_sym Hj)).
    by destruct (j =? 0).
Qed.

(** Removing a node patches its predecessor. *)
Lemma find_link_delete l op r j :
  ids_ok (l ++ op :: r) →
  find_op j (link (l ++ r)) =
    if j =? mo_id op then None
    else if j =? last_id l then with_next (hd_id r) <$> find_op j (link (l ++ op :: r))
    else find_op j (link (l ++ op :: r)).
Proof.
  induction l as [|o l IH]; intros Hok.
  - simpl in *. apply ids_ok_cons in Hok as (H0 & Hd & Hok).
    destruct (Z.eqb_spec j (mo_id op)) as [->|Hj].
    + rewrite find_link. assert (find_op (mo_id op) r = None) as ->; [|done].
      by apply find_op_None.
    + rewrite (proj2 (Z.eqb_neq _ _) (not_eq_sym Hj)). destruct (Z.eqb_spec j (last_id [])) as [->|]; [|done].
      change (last_id []) with 0. by rewrite find_link, find_op_zero.
  - simpl app in *. apply ids_ok_cons in Hok as (H0 & Hd & Hok). specialize (IH Hok).
    assert (mo_id op ≠ mo_id o) as Hop by (apply Hd; set_solver).
    simpl. destruct (Z.eqb_spec (mo_id o) j) as [<-|Hj].
    + rewrite (proj2 (Z.eqb_neq _ _) (not_eq_sym Hop)). destruct l as [|o2 l]; simpl.
      * unfold last_id. simpl. by rewrite Z.eqb_refl.
      * pose proof (last_id_cons_ne o o2 l) as Hl. rewrite (proj2 (Z.eqb_neq _ _)); [done|].
        apply Hl, ids_ok_cons. split_and!; [done|set_solver|].
        destruct Hok as [Hnd Hf]. split.
        -- change (o2 :: l ++ op :: r) with ((o2 :: l) ++ op :: r) in Hnd.
           rewrite map_app in Hnd. by apply NoDup_app in Hnd as (? & _).
        -- change (o2 :: l ++ op :: r) with ((o2 :: l) ++ op :: r) in Hf.
           rewrite map_app in Hf. by apply not_elem_of_app in Hf as [? _].
    + rewrite IH. destruct (j =? mo_id op); [done|]. destruct l as [|o2 l]; [|done].
      unfold last_id. simpl. rewrite (proj2 (Z.eqb_neq j (mo_id o)) (not_eq_sym Hj)).
      destruct (Z.eqb_spec j 0) as [->|]; [|done].
      apply ids_ok_cons in Hok as (Hop0 & _ & Hr). rewrite (proj2 (Z.eqb_neq _ _) Hop0).
      by rewrite find_link, find_op_zero.
Qed.

(** ** Running the helpers on a represented state *)

Lemma run_write_op op c w :
  write_op op c w = Ok tt (put_persistent (KeyMsOp (mo_id op)) (Some (op : interp (ty_of (KeyMsOp (mo_id op))))) w).
Proof. unfold write_op. by rewrite run_bind, run_set, (run_extend_put (KeyMsOp (mo_id op))). Qed.

Lemma run_read_op i c w :
  read_op i c w = match persistent w (KeyMsOp i) with
                  | Some op => Ok op w
                  | None => Err (Error OperationNotFound)
                  end.
Proof. unfold read_op. rewrite run_bind, run_get. by destruct (persistent w (KeyMsOp i)). Qed.

Lemma lookup_op_put i v w j :
  persistent (put_persistent (KeyMsOp i) v w) (KeyMsOp j) =
    if j =? i then v else persistent w (KeyMsOp j).
Proof.
  destruct (Z.eqb_spec j i) as [->|Hne]; [by rewrite persistent_put_eq|].
  by rewrite persistent_put_ne by congruence.
Qed.

Definition op_key (k : DataKey) : Prop := match k with KeyMsOp _ => True | _ => False end.

Lemma modifies_write_op op : modifies op_key (write_op op).
Proof. unfold write_op. solve_modifies. done. Qed.

Lemma modifies_strip_loop `{BuildProfile} gs : ∀ fuel cursor n, modifies op_key (strip_loop fuel gs cursor n).
Proof.
  induction fuel as [|fuel IH]; intros cursor n; cbn [strip_loop]; [apply modifies_fail|].
  unfold read_op. solve_modifies; auto using modifies_write_op.
Qed.

Lemma ids_ok_perm l l' : map mo_id l = map mo_id l' → ids_ok l → ids_ok l'.
Proof. unfold ids_ok. by intros ->. Qed.

Lemma map_ids f ops : keeps_id f → map mo_id (map f ops) = map mo_id ops.
Proof. intros Hf. rewrite map_map. by apply map_ext. Qed.

Lemma update_out i f ops : (∀ o, o ∈ ops → mo_id o ≠ i) → update_op i f ops = ops.
Proof.
  induction ops as [|o ops IH]; intros Hne; [done|]. simpl.
  rewrite (proj2 (Z.eqb_neq _ _)) by (apply Hne; left). f_equal. apply IH.
  intros o' Ho'. apply Hne. by right.
Qed.

Lemma ids_ok_mid l op r :
  ids_ok (l ++ op :: r) →
  mo_id op ≠ 0 ∧ (∀ o, o ∈ l → mo_id o ≠ mo_id op) ∧ (∀ o, o ∈ r → mo_id o ≠ mo_id op).
Proof.
  intros Hok. induction l as [|o l IH].
  - apply ids_ok_cons in Hok as (H0 & Hd & _). split_and!; [done| |done].
    intros o Ho. by apply not_elem_of_nil in Ho.
  - simpl in Hok. apply ids_ok_cons in Hok as (H0 & Hd & Hok). destruct (IH Hok) as (? & ? & ?).
    split_and!; [done| |done]. intros o' [->|Ho']%elem_of_cons; [|auto].
    apply not_eq_sym, Hd. set_solver.
Qed.

Lemma update_mid f l op r :
  ids_ok (l ++ op :: r) → update_op (mo_id op) f (l ++ op :: r) = l ++ f op :: r.
Proof.
  intros (_ & Hl & Hr)%ids_ok_mid. unfold update_op. rewrite map_app. simpl. rewrite Z.eqb_refl.
  pose proof (update_out _ f l Hl) as El. pose proof (update_out _ f r Hr) as Er.
  unfold update_op in El, Er. by rewrite El, Er.
Qed.

Lemma find_link_mid l op r :
  ids_ok (l ++ op :: r) → find_op (mo_id op) (link (l ++ op :: r)) = Some (with_next (hd_id r) op).
Proof.
  intros (_ & Hl & _)%ids_ok_mid. induction l as [|o l IH]; simpl; [by rewrite Z.eqb_refl|].
  rewrite (proj2 (Z.eqb_neq _ _)) by (apply Hl; left). apply IH. intros o' Ho'. apply Hl. by right.
Qed.

Lemma filter_same_count (P : Address → Prop) `{∀ a, Decision (P a)} l :
  count_of (filter P l) = count_of l → filter P l = l.
Proof.
  unfold count_of. induction l as [|a l IH]; [done|]. rewrite filter_cons.
  pose proof (length_filter P l). destruct (decide (P a)); simpl; intros E; [|lia].
  f_equal. apply IH. lia.
Qed.

(** A rotation leaves alone what it does not rewrite. *)
Lemma strip_same gs g0 now op :
  op_wf g0 now op → count_of (filter (λ a, a ∈ gs) (mo_approvals op)) = count_of (mo_approvals op) →
  strip_op gs op = op.
Proof.
  intros (_ & _ & _ & _ & Hq & _) E. unfold strip_op. rewrite E. apply filter_same_count in E.
  rewrite E. unfold with_votes. destruct op as [i t d a r pl pb st nx]; simpl in *.
  destruct (Z.ltb_spec (count_of a) r); [|done]. f_equal.
  destruct (decide (st = 0)) as [|Hne]; [done|]. apply Hq in Hne. lia.
Qed.

Lemma run_strip_loop `{BuildProfile} gs g0 now c : ∀ r l fuel n w,
  ids_ok (l ++ r) → Forall (op_wf g0 now) r →
  (∀ i, persistent w (KeyMsOp i) = find_op i (link (map (strip_op gs) l ++ r))) →
  (length r < fuel)%nat → 0 <= n → n + Z.of_nat (length r) <= U32_MAX →
  ∃ n' w', strip_loop fuel gs (hd_id r) n c w = Ok n' w' ∧
    ∀ i, persistent w' (KeyMsOp i) = find_op i (link (map (strip_op gs) (l ++ r))).
Proof.
  induction r as [|op r IH]; intros l fuel n w Hok Hwf Hw Hfuel Hn Hmax;
    (destruct fuel as [|fuel]; [simpl in *; lia|]); cbn [strip_loop hd_id].
  { exists n, w. split; [done|]. intros i. by rewrite Hw, !app_nil_r. }
  assert (ids_ok (map (strip_op gs) l ++ op :: r)) as Hok'.
  { eapply ids_ok_perm; [|exact Hok]. by rewrite !map_app, map_map. }
  apply Forall_cons in Hwf as [Hop Hwf]. destruct (ids_ok_mid _ _ _ Hok) as (H0 & _).
  rewrite (proj2 (Z.eqb_neq _ _) H0), run_bind, run_read_op, Hw, find_link_mid by done.
  cbn [mo_approvals with_next mo_next_op_id length] in *.
  assert (ids_ok ((l ++ [op]) ++ r)) as Hok2 by (by rewrite <- app_assoc).
  assert (∀ n w, (∀ i, persistent w (KeyMsOp i) = find_op i (link (map (strip_op gs) l ++ strip_op gs op :: r))) →
    0 <= n → n + Z.of_nat (length r) <= U32_MAX →
    ∃ n' w', strip_loop fuel gs (hd_id r) n c w = Ok n' w' ∧
      ∀ i, persistent w' (KeyMsOp i) = find_op i (link (map (strip_op gs) (l ++ op :: r)))) as Hnext.
  { intros n' w' Hw' Hn' Hm'. destruct (IH (l ++ [op]) fuel n' w') as (n1 & w1 & E1 & Hw1); [done|done| |lia|done|done|].
    - intros i. rewrite Hw', map_app, <- app_assoc. done.
    - exists n1, w1. split; [done|]. intros i. by rewrite Hw1, <- app_assoc. }
  destruct (Z.eqb_spec (count_of (filter (λ a, a ∈ gs) (mo_approvals op))) (count_of (mo_approvals op)))
    as [Heq|Hneq]; cbn [negb].
  - apply Hnext; [|lia|lia]. intros i. by rewrite Hw, (strip_same gs g0 now op).
  - rewrite run_bind, u32_ok by (unfold in_u32; lia). cbn [lift]. rewrite run_ret, run_bind, run_write_op.
    apply Hnext; [|lia|lia]. intros i. rewrite lookup_op_put, Hw. rewrite <- (update_mid (strip_op gs)) by done.
    rewrite find_link_update by done. cbn [mo_id strip_op with_votes with_next].
    destruct (Z.eqb_spec i (mo_id op)) as [->|]; [|done]. by rewrite find_link_mid by done.
Qed.

(** The world after unlinking the successor of [u]. *)
Definition unlinked (u : MultiSigOperation) (next : Z) (w : World) : World :=
  let w1 := put_persistent (KeyMsOp (mo_id u))
    (Some (with_next next u : interp (ty_of (KeyMsOp (mo_id u))))) w in
  if next =? 0
  then put_persistent KeyMsQueueTail (Some (mo_id u : interp (ty_of KeyMsQueueTail))) w1 else w1.

Lemma run_unlink_loop op r c w : ∀ l2 l1 fuel,
  l2 ≠ [] → ids_ok (l1 ++ l2 ++ op :: r) →
  (∀ i, persistent w (KeyMsOp i) = find_op i (link (l1 ++ l2 ++ op :: r))) →
  (length l2 < fuel)%nat →
  ∃ u, last l2 = Some u ∧
    unlink_loop fuel (mo_id op) (hd_id r) (hd_id l2) c w = Ok tt (unlinked u (hd_id r) w).
Proof.
  induction l2 as [|u l2 IH]; intros l1 fuel Hne Hok Hw Hfuel; [done|].
  destruct fuel as [|fuel]; [simpl in *; lia|]. cbn [unlink_loop hd_id app] in *.
  destruct (ids_ok_mid _ _ _ Hok) as (H0 & _ & Hr).
  rewrite (proj2 (Z.eqb_neq _ _) H0), run_bind, run_read_op, Hw, find_link_mid by done.
  cbn [mo_next_op_id with_next].
  destruct l2 as [|u2 l2]; cbn [app hd_id].
  - exists u. split; [done|]. rewrite Z.eqb_refl, run_bind, run_write_op.
    unfold unlinked. by destruct (hd_id r =? 0).
  - assert (mo_id u2 ≠ mo_id op) as Hu.
    { destruct (ids_ok_mid (l1 ++ u :: u2 :: l2) op r) as (_ & Hl & _); [by rewrite <- app_assoc|].
      apply Hl. set_solver. }
    rewrite (proj2 (Z.eqb_neq _ _) Hu).
    destruct (IH (l1 ++ [u]) fuel) as (x & Hx & E).
    + done.
    + by rewrite <- app_assoc.
    + intros i. by rewrite Hw, <- app_assoc.
    + simpl in *. lia.
    + by exists x.
Qed.

(** ** Refinement *)

Definition ms_key (k : DataKey) : Prop :=
  match k with
  | KeyAdmin | KeyMsGovernors | KeyMsRequiredApprovals | KeyMsOpCount | KeyCfgTimelockDuration
  | KeyMsQueueHead | KeyMsQueueTail | KeyMsOp _ => True
  | _ => False
  end.

Lemma ms_repr_reads s : reads_only ms_key (λ w, ms_repr w s).
Proof.
  intros w w' Hk. unfold ms_repr. rewrite !Hk by done.
  intros (? & ? & ? & ? & ? & ? & ? & Hops). split_and!; try done. intros i. by rewrite Hk.
Qed.

(** Rewriting operations in place. *)
Lemma ms_repr_update w w' s ops :
  ms_repr w s → (∀ k, ms_key k → ¬ op_key k → persistent w' k = persistent w k) →
  hd_id ops = hd_id (sp_pending s) → last_id ops = last_id (sp_pending s) →
  (∀ i, persistent w' (KeyMsOp i) = find_op i (link ops)) → ms_repr w' (set_pending ops s).
Proof.
  intros (? & ? & ? & ? & ? & Hh & Ht & _) Hk Ehd Elast Hops. unfold ms_repr.
  rewrite !Hk by (done || by intros []). cbn [set_pending sp_pending sp_admin sp_governors
    sp_required sp_count sp_duration]. rewrite Ehd, Elast. done.
Qed.

Lemma last_id_snoc ops op : last_id (ops ++ [op]) = mo_id op.
Proof. unfold last_id. by rewrite last_snoc. Qed.

Lemma last_id_zero ops : ids_ok ops → last_id ops = 0 → ops = [].
Proof.
  intros Hok E. destruct (last ops) as [op|] eqn:El; [|by apply last_None].
  unfold last_id in E. rewrite El in E. exfalso.
  apply last_Some in El as [l ->]. apply ids_ok_mid in Hok as (? & _). done.
Qed.

Lemma hd_id_zero ops : ids_ok ops → hd_id ops = 0 → ops = [].
Proof. destruct ops as [|op ops]; [done|]. by intros (? & _)%ids_ok_cons. Qed.

Section Refinement.
Context `{BP : BuildProfile} (c : Ctx) (w : World) (s : MsSpec) (now : Z).
Context (Hrepr : ms_repr w s) (Hwf : ms_wf now s).
Context (Hnow : now <= sequence c <= U32_MAX) (Hcount : sp_count s < U32_MAX).

Definition refines (call : MsCall) : Prop :=
  match run_ms_call call c w with
  | Ok _ w' => ∃ s', ms_spec c call s = inr s' ∧ ms_repr w' s'
  | Err f => ms_spec c call s = inl f
  end.

Lemma run_read_governors : read_governors c w = Ok (sp_governors s) w.
Proof.
  destruct Hrepr as (_ & <- & _). exact (run_get_bump_or KeyMsGovernors [] c w).
Qed.

Lemma run_read_pending i :
  read_op i c w = match find_op i (sp_pending s) with
                  | Some op => Ok (with_next (succ_id i (sp_pending s)) op) w
                  | None => Err (Error OperationNotFound)
                  end.
Proof.
  rewrite run_read_op. destruct Hrepr as (_ & _ & _ & _ & _ & _ & _ & ->).
  rewrite find_link. by destruct (find_op i (sp_pending s)).
Qed.

(** Voting rewrites one operation. *)
Lemma repr_vote i f op w' :
  find_op i (sp_pending s) = Some op → keeps_id f →
  (∀ op n, f (with_next n op) = with_next n (f op)) →
  (∀ k, persistent w' k = persistent (put_persistent (KeyMsOp i)
     (Some (f (with_next (succ_id i (sp_pending s)) op) : interp (ty_of (KeyMsOp i)))) w) k) →
  ms_repr w' (set_pending (update_op i f (sp_pending s)) s).
Proof.
  intros Hop Hf Hn Hw'. apply (ms_repr_update w); [done| | | |].
  - intros k Hk Hnk. rewrite Hw'. apply persistent_put_ne. by intros <-.
  - by apply hd_id_map, update_keeps_id.
  - by apply last_id_map, update_keeps_id.
  - intros j. rewrite Hw', lookup_op_put, find_link_update by done.
    destruct Hrepr as (_ & _ & _ & _ & _ & _ & _ & Hops). rewrite Hops.
    destruct (Z.eqb_spec j i) as [->|]; [|done]. by rewrite find_link, Hop.
Qed.

Lemma refines_approve g i : refines (CallApprove g i).
Proof.
  unfold refines. cbn [run_ms_call ms_spec]. unfold approve_operation. rewrite run_bind.
  unfold require_auth. destruct (authorized c g); cbn [negb]; [|done].
  rewrite run_bind, run_read_governors, run_bind, run_panic_if.
  destruct (bool_decide (g ∈ sp_governors s)); cbn [negb]; [|done].
  rewrite run_bind, run_read_pending. destruct (find_op i (sp_pending s)) as [op|] eqn:Hop; [|done].
  rewrite run_bind, run_panic_if. cbn [mo_approvals with_next].
  destruct (bool_decide (g ∈ mo_approvals op)); [done|].
  rewrite run_bind, run_sequence, run_bind. cbn [mo_required_approvals mo_timelock_start_ledger with_next].
  destruct (_ && _) eqn:Hq; rewrite ?run_publish, ?run_ret, run_bind, run_write_op, run_publish.
  all: eexists; (split; [reflexivity|]); eapply (repr_vote i (vote g (sequence c)) op); [done..|].
  all: intros k; cbn [persistent add_event]; unfold vote;
    cbn [mo_required_approvals mo_approvals with_next mo_timelock_start_ledger]; rewrite Hq.
  all: apply find_op_Some in Hop as [_ <-]; done.
Qed.

Lemma refines_retract g i : refines (CallRetract g i).
Proof.
  unfold refines. cbn [run_ms_call ms_spec]. unfold retract_approval. rewrite run_bind.
  unfold require_auth. destruct (authorized c g); cbn [negb]; [|done].
  rewrite run_bind, run_read_governors, run_bind, run_panic_if.
  destruct (bool_decide (g ∈ sp_governors s)); cbn [negb]; [|done].
  rewrite run_bind, run_read_pending. destruct (find_op i (sp_pending s)) as [op|] eqn:Hop; [|done].
  rewrite run_bind, run_panic_if. cbn [mo_approvals with_next].
  destruct (bool_decide (g ∈ mo_approvals op)); cbn [negb]; [|done].
  rewrite run_bind, run_write_op, run_publish. eexists. split; [reflexivity|].
  eapply (repr_vote i (unvote g) op); [done..|]. intros k. cbn [persistent add_event].
  apply find_op_Some in Hop as [_ <-]. done.
Qed.

Lemma fresh_id op : op ∈ sp_pending s → mo_id op ≠ sp_count s + 1.
Proof.
  intros Hop. destruct Hwf as (_ & _ & _ & Hb & _). rewrite Forall_forall in Hb.
  specialize (Hb op Hop). lia.
Qed.

(** The queue with a new last node. *)
Lemma repr_append w' op :
  mo_id op = sp_count s + 1 → mo_next_op_id op = 0 →
  persistent w' KeyAdmin = persistent w KeyAdmin →
  persistent w' KeyMsGovernors = persistent w KeyMsGovernors →
  persistent w' KeyMsRequiredApprovals = persistent w KeyMsRequiredApprovals →
  persistent w' KeyCfgTimelockDuration = persistent w KeyCfgTimelockDuration →
  persistent w' KeyMsOpCount = Some (sp_count s + 1) →
  default 0 (persistent w' KeyMsQueueHead) = hd_id (sp_pending s ++ [op]) →
  persistent w' KeyMsQueueTail = Some (mo_id op) →
  (∀ j, persistent w' (KeyMsOp j) =
     if j =? mo_id op then Some op
     else if j =? last_id (sp_pending s) then with_next (mo_id op) <$> persistent w (KeyMsOp j)
     else persistent w (KeyMsOp j)) →
  ms_repr w' (MkMsSpec (sp_admin s) (sp_governors s) (sp_required s) (sp_count s + 1) (sp_duration s)
    (sp_pending s ++ [op])).
Proof.
  intros Hid Hnext Ha Hg Hr Hd Hc Hh Ht Hops. destruct Hrepr as (R1 & R2 & R3 & R4 & R5 & R6 & R7 & R8).
  unfold ms_repr. cbn [sp_admin sp_governors sp_required sp_count sp_duration sp_pending].
  rewrite Ha, Hg, Hr, Hd, Hc, Ht, last_id_snoc. split_and!; try done. intros j.
  rewrite find_link_snoc.
  - rewrite Hops, R8. destruct (j =? mo_id op); [|done]. destruct op; simpl in *. by subst.
  - by eapply ms_wf_ids.
  - intros o Ho. rewrite Hid. by apply fresh_id.
Qed.

Lemma refines_propose p t d : refines (CallPropose p t d).
Proof.
  unfold refines. cbn [run_ms_call ms_spec]. unfold propose_ms_operation. rewrite run_bind, run_bind.
  unfold require_auth. destruct (authorized c p); cbn [negb]; [|done].
  rewrite run_bind, run_read_governors, run_bind, run_panic_if.
  destruct (bool_decide (p ∈ sp_governors s)); cbn [negb]; [|done].
  pose proof Hrepr as (R1 & R2 & R3 & R4 & R5 & R6 & R7 & R8). pose proof Hwf as (_ & Hc0 & _).
  unfold next_op_id. rewrite run_bind, run_bind, (run_get_or_as KeyMsOpCount 0 (sp_count s)) by exact R4.
  rewrite run_bind, u32_ok by (unfold in_u32; lia).
  cbn [lift]. rewrite run_ret, run_bind, run_set, run_ret.
  unfold read_required_approvals.
  rewrite run_bind, (run_get_or_as KeyMsRequiredApprovals 1 (sp_required s)) by (read_store; exact R3).
  unfold read_queue_tail.
  rewrite run_bind, (run_get_or_as KeyMsQueueTail 0 (last_id (sp_pending s))) by (read_store; exact R7).
  rewrite run_bind, run_sequence, run_bind, run_write_op. cbn [mo_id].
  set (op := MkMultiSigOperation _ _ _ _ _ _ _ _ _).
  pose proof (ms_wf_ids _ _ Hwf) as Hids. rewrite run_bind.
  destruct (Z.eqb_spec (last_id (sp_pending s)) 0) as [Hl|Hl].
  - apply last_id_zero in Hl; [|done]. unfold write_queue_head, write_queue_tail.
    rewrite run_bind, run_set, run_set, run_bind, run_publish, !run_ret.
    eexists. split; [reflexivity|]. apply repr_append; [done|done|by read_store..| |by read_store|].
    + rewrite Hl. by read_store.
    + intros j. cbn [persistent add_event]. do 2 (rewrite persistent_put_ne by done).
      rewrite lookup_op_put, persistent_put_ne by done. rewrite Hl. change (last_id []) with 0.
      change (mo_id op) with (sp_count s + 1). destruct (j =? sp_count s + 1); [done|].
      destruct (Z.eqb_spec j 0) as [->|]; [|done]. by rewrite R8, Hl.
  - assert (last_id (sp_pending s) ≠ sp_count s + 1) as Hlast.
    { unfold last_id in *. destruct (last (sp_pending s)) as [o|] eqn:El; [|done].
      apply last_Some_elem_of in El. by apply fresh_id. }
    rewrite run_bind, run_read_op, lookup_op_put, (proj2 (Z.eqb_neq _ _) Hlast).
    rewrite persistent_put_ne, R8 by done.
    assert (∃ o, find_op (last_id (sp_pending s)) (link (sp_pending s)) = Some o ∧
      mo_id o = last_id (sp_pending s)) as (o & Ho & Hoid).
    { unfold last_id in Hl |- *. destruct (last (sp_pending s)) as [o|] eqn:El; [|done].
      apply last_Some_elem_of in El. rewrite find_link, find_op_elem by done. by eexists. }
    rewrite Ho, run_bind, run_write_op. unfold write_queue_tail. rewrite run_set, run_bind, run_publish, !run_ret.
    eexists. split; [reflexivity|]. cbn [mo_id with_next]. rewrite Hoid.
    apply repr_append; [done|done|by read_store..| |by read_store|].
    + read_store. destruct (sp_pending s); [done|exact R6].
    + intros j. cbn [persistent add_event]. rewrite persistent_put_ne by done.
      rewrite !lookup_op_put, persistent_put_ne by done. change (mo_id op) with (sp_count s + 1).
      destruct (Z.eqb_spec j (last_id (sp_pending s))) as [->|]; [|done].
      rewrite (proj2 (Z.eqb_neq _ _) Hlast), R8, Ho. done.
Qed.

Lemma run_get_admin : get_admin c w = match sp_admin s with Some a => Ok a w | None => Err Panic end.
Proof.
  unfold get_admin, get_unwrap. rewrite run_bind, run_get. destruct Hrepr as (-> & _).
  by destruct (sp_admin s).
Qed.

(** The guard of execution and cancellation. *)
Lemma run_may_act {A} x (k : M A) :
  (admin ← get_admin;
   governors ← read_governors;
   panic_if (negb (bool_decide (x = admin)) && negb (bool_decide (x ∈ governors))) NotAuthorized;;
   k) c w = match may_act s x with inl f => Err f | inr _ => k c w end.
Proof.
  rewrite run_bind, run_get_admin. unfold may_act. destruct (sp_admin s) as [admin|]; [|done].
  rewrite run_bind, run_read_governors, run_bind, run_panic_if.
  by destruct (bool_decide (x = admin)), (bool_decide (x ∈ sp_governors s)).
Qed.

(** The queue without its node [op] after [l]. *)
Lemma repr_delete l op r w' :
  sp_pending s = l ++ op :: r →
  (∀ k, ms_key k → ¬ op_key k → k ≠ KeyMsQueueHead → k ≠ KeyMsQueueTail →
        persistent w' k = persistent w k) →
  default 0 (persistent w' KeyMsQueueHead) = hd_id (l ++ r) →
  default 0 (persistent w' KeyMsQueueTail) = last_id (l ++ r) →
  (∀ j, persistent w' (KeyMsOp j) =
     if j =? mo_id op then None
     else if j =? last_id l then with_next (hd_id r) <$> persistent w (KeyMsOp j)
     else persistent w (KeyMsOp j)) →
  ms_repr w' (set_pending (l ++ r) s).
Proof.
  intros Hp Hk Hh Ht Hops. destruct Hrepr as (R1 & R2 & R3 & R4 & R5 & R6 & R7 & R8).
  unfold ms_repr. cbn [set_pending sp_admin sp_governors sp_required sp_count sp_duration sp_pending].
  rewrite !Hk by (done || by intros []). split_and!; try done. intros j. rewrite Hops, R8, Hp.
  symmetry. apply find_link_delete. rewrite <- Hp. by eapply ms_wf_ids.
Qed.

(** The pointers after the head is dropped. *)
Definition popped (rest : list MultiSigOperation) (w : World) : World :=
  let w1 := put_persistent KeyMsQueueHead (Some (hd_id rest : interp (ty_of KeyMsQueueHead))) w in
  if hd_id rest =? 0
  then put_persistent KeyMsQueueTail (Some (0 : interp (ty_of KeyMsQueueTail))) w1 else w1.

Lemma repr_pop op rest e :
  sp_pending s = op :: rest →
  ms_repr (add_event e (put_persistent (KeyMsOp (mo_id op)) None (popped rest w))) (set_pending rest s).
Proof.
  intros Hp. pose proof (ms_wf_ids _ _ Hwf) as Hids. rewrite Hp in Hids.
  pose proof Hrepr as (_ & _ & _ & _ & _ & _ & R7 & R8). rewrite Hp in R7, R8.
  unfold popped. apply (repr_delete [] op rest); [done| | | |].
  - intros k Hk Hnk Hh Ht. cbn [persistent add_event]. rewrite persistent_put_ne by (by intros <-).
    destruct (hd_id rest =? 0); by rewrite !persistent_put_ne by congruence.
  - destruct (hd_id rest =? 0); by read_store.
  - apply ids_ok_cons in Hids as (_ & _ & Hids). destruct (Z.eqb_spec (hd_id rest) 0) as [E|E].
    + apply hd_id_zero in E; [|done]. subst rest. by read_store.
    + read_store. destruct rest; [done|]. exact R7.
  - intros j. cbn [persistent add_event]. rewrite lookup_op_put. destruct (j =? mo_id op); [done|].
    change (last_id []) with 0. assert (persistent w (KeyMsOp 0) = None) as H0.
    { rewrite R8, find_link, find_op_zero by done. done. }
    destruct (hd_id rest =? 0); rewrite !persistent_put_ne by done;
      (destruct (Z.eqb_spec j 0) as [->|]; [by rewrite H0|done]).
Qed.

Lemma refines_execute e i : refines (CallExecute e i).
Proof.
  unfold refines. cbn [run_ms_call ms_spec]. unfold execute_ms_operation. rewrite run_bind.
  unfold require_auth. destruct (authorized c e); cbn [negb]; [|done].
  rewrite run_may_act. destruct (may_act s e) as [f|_]; [done|].
  pose proof Hrepr as (R1 & R2 & R3 & R4 & R5 & R6 & R7 & R8).
  pose proof (ms_wf_ids _ _ Hwf) as Hids. pose proof Hwf as (_ & _ & _ & _ & Hops).
  unfold read_queue_head.
  rewrite run_bind, (run_get_or_as KeyMsQueueHead 0 (hd_id (sp_pending s))) by exact R6.
  rewrite run_bind, run_panic_if. destruct (sp_pending s) as [|op rest] eqn:Hp; cbn [hd_id].
  { destruct (Z.eqb_spec 0 i) as [<-|]; cbn [negb]; [|done]. by rewrite run_bind, run_read_op, R8. }
  destruct (Z.eqb_spec (mo_id op) i) as [<-|]; cbn [negb]; [|done].
  rewrite run_bind, run_read_op, R8. simpl find_op. rewrite Z.eqb_refl, run_bind, run_panic_if.
  cbn [mo_approvals with_next mo_required_approvals mo_timelock_start_ledger mo_next_op_id mo_op_type].
  destruct (_ <? _); [done|]. rewrite run_bind, run_panic_if. destruct (_ =? 0); [done|].
  rewrite run_bind, (run_get_or_as KeyCfgTimelockDuration 10 (sp_duration s)) by exact R5.
  apply Forall_cons in Hops as [(_ & _ & _ & Hst & _) _].
  rewrite run_bind, run_sequence, run_bind, u32_ok by (unfold in_u32; lia). cbn [lift].
  rewrite run_ret, run_bind, run_panic_if. destruct (_ <? sp_duration s); [done|].
  unfold write_queue_head, write_queue_tail, remove_op. rewrite run_bind, run_set, run_bind.
  pose proof (repr_pop op rest) as Hpop. unfold popped in Hpop.
  destruct (hd_id rest =? 0); rewrite ?run_set, ?run_ret, run_bind, run_remove, run_publish;
    (eexists; split; [reflexivity|]); by apply Hpop.
Qed.

Lemma repr_unlink l u op r e :
  sp_pending s = l ++ op :: r → last l = Some u →
  ms_repr (add_event e (put_persistent (KeyMsOp (mo_id op)) None (unlinked u (hd_id r) w)))
    (set_pending (l ++ r) s).
Proof.
  intros Hp Hu. pose proof (ms_wf_ids _ _ Hwf) as Hids. rewrite Hp in Hids.
  pose proof Hrepr as (_ & _ & _ & _ & _ & R6 & R7 & R8). rewrite Hp in R6, R7, R8.
  unfold unlinked. apply (repr_delete l op r); [done| | | |].
  - intros k Hk Hnk Hh Ht. cbn [persistent add_event]. rewrite persistent_put_ne by (by intros <-).
    destruct (hd_id r =? 0); by rewrite !persistent_put_ne by (congruence || by intros <-).
  - destruct l as [|o l]; [done|]. destruct (hd_id r =? 0); read_store; exact R6.
  - destruct (Z.eqb_spec (hd_id r) 0) as [E|E].
    + apply hd_id_zero in E as ->.
      * rewrite app_nil_r. unfold last_id. rewrite Hu. by read_store.
      * destruct Hids as [Hn H0]. rewrite map_app in *. apply NoDup_app in Hn as (_ & _ & Hn).
        apply not_elem_of_app in H0 as [_ H0]. simpl in *. apply NoDup_cons in Hn as [_ Hn].
        apply not_elem_of_cons in H0 as [_ H0]. done.
    + read_store. destruct r as [|o r]; [done|]. unfold last_id in *.
      rewrite last_app in *. exact R7.
  - intros j. cbn [persistent add_event]. rewrite lookup_op_put. destruct (j =? mo_id op); [done|].
    assert (last_id l = mo_id u) as -> by (unfold last_id; by rewrite Hu).
    assert (persistent w (KeyMsOp (mo_id u)) = Some (with_next (succ_id (mo_id u) (l ++ op :: r)) u)) as Hsu.
    { apply last_Some_elem_of in Hu. rewrite R8, find_link, find_op_elem; [done|done|set_solver]. }
    destruct (hd_id r =? 0); rewrite ?(persistent_put_ne KeyMsQueueTail) by done; rewrite lookup_op_put;
      (destruct (Z.eqb_spec j (mo_id u)) as [->|]; [by rewrite Hsu|done]).
Qed.

Lemma filter_out (op : MultiSigOperation) l r :
  ids_ok (l ++ op :: r) → filter (λ o, mo_id o ≠ mo_id op) (l ++ op :: r) = l ++ r.
Proof.
  intros (_ & Hl & Hr)%ids_ok_mid.
  assert (∀ ops : list MultiSigOperation, (∀ o, o ∈ ops → mo_id o ≠ mo_id op) → filter (λ o, mo_id o ≠ mo_id op) ops = ops) as Hall.
  { induction ops as [|o ops IH]; intros Hne; [done|].
    rewrite filter_cons_True by (apply Hne; left). f_equal. apply IH. intros o' Ho'. apply Hne. by right. }
  rewrite filter_app, filter_cons_False by (by intros []). by rewrite !Hall.
Qed.

Lemma pending_length : (length (sp_pending s) <= Z.to_nat (sp_count s))%nat.
Proof.
  destruct Hwf as (_ & Hc & Hs & Hb & _). apply sorted_ids_nodup in Hs.
  rewrite <- (length_map mo_id), <- (length_seqZ 1 (sp_count s)).
  apply submseteq_length, NoDup_submseteq; [done|]. intros x (op & -> & Hop)%list_elem_of_fmap.
  rewrite Forall_forall in Hb. specialize (Hb op Hop). apply elem_of_seqZ. lia.
Qed.

Lemma run_walk_fuel w' :
  persistent w' KeyMsOpCount = persistent w KeyMsOpCount →
  walk_fuel c w' = Ok (S (Z.to_nat (sp_count s))) w'.
Proof.
  intros E. unfold walk_fuel. rewrite run_bind, (run_get_or_as KeyMsOpCount 0 (sp_count s)); [done|].
  rewrite E. apply Hrepr.
Qed.

Lemma refines_cancel x i : refines (CallCancel x i).
Proof.
  unfold refines. cbn [run_ms_call ms_spec]. unfold cancel_ms_operation. rewrite run_bind.
  unfold require_auth. destruct (authorized c x); cbn [negb]; [|done].
  rewrite run_may_act. destruct (may_act s x) as [f|_]; [done|].
  pose proof Hrepr as (R1 & R2 & R3 & R4 & R5 & R6 & R7 & R8).
  pose proof (ms_wf_ids _ _ Hwf) as Hids.
  rewrite run_bind, run_read_pending. destruct (find_op i (sp_pending s)) as [op|] eqn:Hop; [|done].
  apply find_op_Some in Hop as [Hop <-]. apply list_elem_of_split in Hop as (l & r & Hp).
  assert (succ_id (mo_id op) (sp_pending s) = hd_id r) as ->.
  { pose proof (find_link_mid l op r) as E. rewrite <- Hp, find_link in E. specialize (E Hids).
    rewrite find_op_elem in E; [|done|rewrite Hp; set_solver]. by injection E. }
  unfold read_queue_head.
  rewrite run_bind, (run_get_or_as KeyMsQueueHead 0 (hd_id (sp_pending s))) by exact R6.
  cbn [mo_next_op_id with_next]. rewrite run_bind. unfold remove_op.
  assert (filter (λ o, mo_id o ≠ mo_id op) (sp_pending s) = l ++ r) as ->.
  { rewrite Hp in *. by apply filter_out. }
  destruct l as [|o l].
  - pose proof (repr_pop op r) as Hpop. unfold popped in Hpop. rewrite Hp. cbn [app hd_id].
    rewrite Z.eqb_refl. unfold write_queue_head, write_queue_tail. rewrite run_bind, run_set.
    destruct (hd_id r =? 0); rewrite ?run_set, ?run_ret, run_bind, run_remove, run_publish;
      (eexists; split; [reflexivity|]); by apply Hpop.
  - assert (mo_id o ≠ mo_id op) as Ho.
    { rewrite Hp in Hids. simpl in Hids. apply ids_ok_cons in Hids as (_ & Hne & _).
      apply not_eq_sym, Hne. set_solver. }
    rewrite Hp. cbn [app hd_id]. rewrite (proj2 (Z.eqb_neq _ _) Ho), run_bind, run_walk_fuel by done.
    destruct (run_unlink_loop op r c w (o :: l) [] (S (Z.to_nat (sp_count s)))) as (u & Hu & E).
    { done. }
    { by rewrite <- Hp. }
    { intros j. by rewrite R8, Hp. }
    { pose proof pending_length as Hl. rewrite Hp, length_app in Hl. simpl in *. lia. }
    cbn [hd_id] in E. rewrite E, run_bind, run_remove, run_publish.
    eexists. split; [reflexivity|]. by apply (repr_unlink (o :: l) u op r).
Qed.

Lemma refines_set_governors gs r : refines (CallSetGovernors gs r).
Proof.
  unfold refines. cbn [run_ms_call ms_spec]. unfold set_governors, auth_admin.
  rewrite run_bind, run_bind, run_get_admin. destruct (sp_admin s) as [admin|] eqn:Hadm; [|done].
  rewrite run_bind. unfold require_auth. destruct (authorized c admin); cbn [negb]; [|done].
  rewrite run_ret, run_bind, run_panic_if. destruct (_ || _); [done|].
  pose proof Hrepr as (R1 & R2 & R3 & R4 & R5 & R6 & R7 & R8). pose proof Hwf as (_ & Hc0 & _ & _ & Hops).
  rewrite run_bind, run_read_governors. unfold read_required_approvals.
  rewrite run_bind, (run_get_or_as KeyMsRequiredApprovals 1 (sp_required s)) by exact R3.
  unfold write_governors. rewrite run_bind, run_bind, run_set, (run_extend_put KeyMsGovernors).
  rewrite run_bind, run_set, run_bind, run_set. unfold read_queue_head.
  set (w1 := put_persistent KeyMsPreviousRequiredApprovals _ _).
  rewrite run_bind, (run_get_or_as KeyMsQueueHead 0 (hd_id (sp_pending s))) by (subst w1; read_store; exact R6).
  rewrite run_bind, run_walk_fuel by (subst w1; by read_store).
  pose proof pending_length as Hlen.
  destruct (run_strip_loop gs (sp_governors s) now c (sp_pending s) [] (S (Z.to_nat (sp_count s))) 0 w1)
    as (n' & w2 & E & Hw2); [by eapply ms_wf_ids|done| |lia|lia|lia|].
  { intros i. subst w1. read_store. apply R8. }
  rewrite run_bind, E, run_bind, run_publish, run_publish.
  eexists. split; [reflexivity|].
  pose proof (modifies_strip_loop gs _ _ _ _ _ _ _ E) as Hfr.
  unfold ms_repr. cbn [persistent add_event sp_admin sp_governors sp_required sp_count sp_duration sp_pending].
  rewrite !Hfr by (by intros []). subst w1. rewrite hd_id_map, last_id_map by apply strip_keeps_id.
  split_and!; try (read_store; done). read_store. by rewrite R1.
Qed.

Lemma ms_call_refines call : refines call.
Proof.
  destruct call; [apply refines_set_governors|apply refines_propose|apply refines_approve
    |apply refines_retract|apply refines_execute|apply refines_cancel].
Qed.
End Refinement.

(** ** The abstract invariant *)

Lemma op_wf_mono gs now now' op : now <= now' → op_wf gs now op → op_wf gs now' op.
Proof. unfold op_wf. intros Hle (? & ? & ? & ? & ?). split_and!; try done; lia. Qed.

Lemma op_wf_votes gs gs' now op approvals start :
  op_wf gs now op → NoDup approvals → (∀ a, a ∈ approvals → a ∈ gs') → 0 <= start <= now →
  (start ≠ 0 ↔ mo_required_approvals op <= count_of approvals) →
  op_wf gs' now (with_votes approvals start op).
Proof. intros (_ & _ & ? & _ & _ & ?) ????. by unfold op_wf, with_votes. Qed.

Lemma count_filter_le (P : Address → Prop) `{∀ a, Decision (P a)} l : count_of (filter P l) <= count_of l.
Proof. unfold count_of. pose proof (length_filter P l). lia. Qed.

(** Losing votes keeps an operation well formed when the timelock is reset with
    the quorum. *)
Lemma op_wf_filter (P : Address → Prop) `{∀ a, Decision (P a)} gs gs' now op :
  op_wf gs now op → (∀ a, a ∈ mo_approvals op → P a → a ∈ gs') →
  op_wf gs' now (with_votes (filter P (mo_approvals op))
    (if count_of (filter P (mo_approvals op)) <? mo_required_approvals op then 0
     else mo_timelock_start_ledger op) op).
Proof.
  intros Hop HP. pose proof Hop as (Hn & _ & Hreq & Hst & Hq & _). apply (op_wf_votes gs); [done| | | |].
  - by apply NoDup_filter.
  - intros a [? ?]%list_elem_of_filter. auto.
  - destruct (_ <? _); lia.
  - destruct (Z.ltb_spec (count_of (filter P (mo_approvals op))) (mo_required_approvals op)); [lia|].
    rewrite Hq. pose proof (count_filter_le P (mo_approvals op)). lia.
Qed.

Lemma op_wf_vote gs now c op g :
  op_wf gs now op → now <= sequence c → 0 < sequence c → g ∈ gs → g ∉ mo_approvals op →
  op_wf gs (sequence c) (vote g (sequence c) op).
Proof.
  intros Hop Hnow Hc Hg Hna. pose proof Hop as (Hn & Hin & Hreq & Hst & Hq & _).
  apply (op_wf_votes gs); [by eapply op_wf_mono| | | |].
  - apply NoDup_app. split_and!; [done| |apply NoDup_singleton]. set_solver.
  - intros a [?| ->%list_elem_of_singleton]%elem_of_app; auto.
  - destruct (_ && _); lia.
  - unfold count_of in *. rewrite length_app. simpl.
    destruct (Z.leb_spec (mo_required_approvals op) (Z.of_nat (length (mo_approvals op) + 1)));
      destruct (Z.eqb_spec (mo_timelock_start_ledger op) 0) as [E|E]; simpl; lia.
Qed.

Lemma Forall_update (P : MultiSigOperation → Prop) i f ops op :
  ids_ok ops → find_op i ops = Some op → Forall P ops → P (f op) → Forall P (update_op i f ops).
Proof.
  intros Hids Hop Hall Hf. apply Forall_forall. intros x (o & -> & Ho)%list_elem_of_fmap.
  rewrite Forall_forall in Hall. destruct (Z.eqb_spec (mo_id o) i) as [<-|]; [|auto].
  rewrite (find_op_elem _ _ Hids Ho) in Hop. by injection Hop as ->.
Qed.

Lemma sorted_snoc (l : list Z) x :
  StronglySorted Z.lt l → (∀ y, y ∈ l → y < x) → StronglySorted Z.lt (l ++ [x]).
Proof.
  induction 1 as [|y l _ IH Hy]; intros Hlt; simpl; [repeat constructor|].
  constructor; [apply IH; intros z Hz; apply Hlt; by right|].
  apply Forall_app. split; [done|]. constructor; [|constructor]. apply Hlt. left.
Qed.

Lemma sorted_filter_ids (P : MultiSigOperation → Prop) `{∀ o, Decision (P o)} ops :
  StronglySorted Z.lt (map mo_id ops) → StronglySorted Z.lt (map mo_id (filter P ops)).
Proof.
  induction ops as [|o ops IH]; [done|]. simpl. intros Hs. apply StronglySorted_inv in Hs as [Hs Ho].
  rewrite filter_cons. destruct (decide (P o)); [|auto]. simpl. constructor; [auto|].
  apply Forall_forall. intros x (o' & -> & [_ Ho']%list_elem_of_filter)%list_elem_of_fmap.
  rewrite Forall_forall in Ho. apply Ho. by apply list_elem_of_fmap_2.
Qed.

Lemma Forall_wf_mono gs now now' ops :
  now <= now' → Forall (op_wf gs now) ops → Forall (op_wf gs now') ops.
Proof. intros Hle Hall. eapply Forall_impl; [exact Hall|]. intros op. by apply op_wf_mono. Qed.

Lemma update_wf now s c i f op :
  ms_wf now s → now <= sequence c → keeps_id f → find_op i (sp_pending s) = Some op →
  op_wf (sp_governors s) (sequence c) (f op) →
  ms_wf (sequence c) (set_pending (update_op i f (sp_pending s)) s).
Proof.
  intros Hwf Hnow Hf Hop Hfop. pose proof (ms_wf_ids _ _ Hwf) as Hids.
  destruct Hwf as (Hr & Hc & Hs & Hb & Hops). unfold ms_wf. cbn [set_pending sp_pending sp_required
    sp_count sp_governors]. split_and!; [done|done| | |].
  - unfold update_op. by rewrite map_ids by by apply update_keeps_id.
  - eapply Forall_update; [done|done|done|]. rewrite Hf. apply find_op_Some in Hop as [Hop _].
    rewrite Forall_forall in Hb. auto.
  - eapply Forall_update; [done|done|by eapply Forall_wf_mono|done].
Qed.

(** Arguments in the range of their machine types. *)
Definition ms_args_ok (call : MsCall) : Prop :=
  match call with CallSetGovernors _ r => in_u32 r | _ => True end.

Lemma rotate_wf now s c gs r admin :
  ms_wf now s → now <= sequence c → 1 <= r →
  ms_wf (sequence c) (MkMsSpec admin gs r (sp_count s) (sp_duration s) (map (strip_op gs) (sp_pending s))).
Proof.
  intros (_ & Hc0 & Hs & Hb & Hops) Hnow Hr. unfold ms_wf.
  cbn [sp_required sp_count sp_pending sp_governors]. split_and!; [done|done| | |].
  - by rewrite map_ids by apply strip_keeps_id.
  - by apply Forall_fmap.
  - apply Forall_fmap. eapply Forall_impl; [exact Hops|]. intros op Hop. unfold compose, strip_op.
    apply (op_wf_filter _ (sp_governors s)); [by eapply op_wf_mono|done].
Qed.

Lemma propose_wf now s c op :
  ms_wf now s → now <= sequence c → mo_id op = sp_count s + 1 →
  op_wf (sp_governors s) (sequence c) op →
  ms_wf (sequence c) (MkMsSpec (sp_admin s) (sp_governors s) (sp_required s) (sp_count s + 1)
    (sp_duration s) (sp_pending s ++ [op])).
Proof.
  intros (Hr & Hc0 & Hs & Hb & Hops) Hnow Hid Hop. unfold ms_wf.
  cbn [sp_required sp_count sp_pending sp_governors]. split_and!; [done|lia| | |].
  - rewrite map_app. apply sorted_snoc; [done|]. intros y (o & -> & Ho)%list_elem_of_fmap.
    rewrite Forall_forall in Hb. specialize (Hb o Ho). lia.
  - apply Forall_app. split; [|apply Forall_singleton; lia].
    eapply Forall_impl; [exact Hb|]. simpl. lia.
  - apply Forall_app. split; [by eapply Forall_wf_mono|by apply Forall_singleton].
Qed.

Lemma Forall_keep {A} (P Q : A → Prop) `{∀ x, Decision (P x)} l : Forall Q l → Forall Q (filter P l).
Proof.
  rewrite !Forall_forall. intros Hq x [_ Hx]%list_elem_of_filter. auto.
Qed.

Lemma remove_wf now s c (P : MultiSigOperation → Prop) `{∀ o, Decision (P o)} :
  ms_wf now s → now <= sequence c → ms_wf (sequence c) (set_pending (filter P (sp_pending s)) s).
Proof.
  intros (Hr & Hc0 & Hs & Hb & Hops) Hnow. unfold ms_wf.
  cbn [set_pending sp_required sp_count sp_pending sp_governors].
  split_and!; [done|done|by apply sorted_filter_ids| |].
  - by apply Forall_keep.
  - by apply Forall_keep, (Forall_wf_mono _ now).
Qed.

Lemma ms_spec_wf c call s now s' :
  ms_wf now s → now <= sequence c → 0 < sequence c → ms_args_ok call →
  ms_spec c call s = inr s' → ms_wf (sequence c) s'.
Proof.
  intros Hwf Hnow Hc Hargs E. pose proof (ms_wf_ids _ _ Hwf) as Hids.
  pose proof Hwf as (Hr & Hc0 & Hs & Hb & Hops).
  destruct call as [gs r|p t d|g i|g i|e i|x i]; cbn [ms_spec ms_args_ok] in *.
  - destruct (sp_admin s); [|done]. destruct (negb _); [done|]. destruct (_ || _) eqn:Hg; [done|].
    injection E as <-. unfold in_u32 in Hargs. bool_hyps. apply (rotate_wf now); [done|done|lia].
  - destruct (negb _); [done|]. destruct (negb _); [done|]. injection E as <-.
    apply (propose_wf now); [done|done|done|]. unfold op_wf. simpl.
    split_and!; [constructor|set_solver|done|lia|lia|unfold count_of; simpl; lia|done].
  - destruct (negb _); [done|]. case_bool_decide as Hg; [|done]. cbn [negb] in E.
    destruct (find_op i (sp_pending s)) as [op|] eqn:Hop; [|done]. case_bool_decide as Hna; [done|].
    injection E as <-. apply (update_wf now s c i _ op); [done..|].
    apply (op_wf_vote _ now); try done. apply find_op_Some in Hop as [Hop _].
    rewrite Forall_forall in Hops. auto.
  - destruct (negb _); [done|]. case_bool_decide as Hg; [|done]. cbn [negb] in E.
    destruct (find_op i (sp_pending s)) as [op|] eqn:Hop; [|done]. case_bool_decide as Hna; [|done].
    injection E as <-. apply (update_wf now s c i _ op); [done..|].
    apply find_op_Some in Hop as [Hop _]. rewrite Forall_forall in Hops. specialize (Hops op Hop).
    apply (op_wf_filter _ (sp_governors s)); [by eapply op_wf_mono|]. intros a Ha _. by apply Hops.
  - destruct (negb _); [done|]. destruct (may_act s e); [done|].
    destruct (sp_pending s) as [|op rest] eqn:Hp; [done|]. repeat (case_if; [done|]). injection E as <-.
    replace rest with (filter (λ o, mo_id o ≠ mo_id op) (sp_pending s)).
    { by apply (remove_wf now). }
    rewrite Hp. apply (filter_out op [] rest). exact Hids.
  - destruct (negb _); [done|]. destruct (may_act s x); [done|].
    destruct (find_op i (sp_pending s)); [|done]. injection E as <-. by apply (remove_wf now).
Qed.

(** ** Histories *)

(** The keys the module owns. *)
Definition ms_own_key (k : DataKey) : Prop :=
  match k with
  | KeyMsGovernors | KeyMsRequiredApprovals | KeyMsPreviousRequiredApprovals | KeyMsOpCount
  | KeyMsQueueHead | KeyMsQueueTail | KeyMsOp _ => True
  | _ => False
  end.

(** Histories at ledger [now]: multisig calls in any context, successful or
    not, with time moving forward and fewer than [2^32 - 1] proposals;
    between them anything that leaves the module's keys alone. *)
Inductive ms_reachable `{BuildProfile} : World → Z → Prop :=
  | ms_init w : (∀ k, ms_own_key k → persistent w k = None) → ms_reachable w 0
  | ms_other w w' now :
      ms_reachable w now → (∀ k, ms_own_key k → persistent w' k = persistent w k) →
      ms_reachable w' now
  | ms_step w now c call :
      ms_reachable w now → now <= sequence c <= U32_MAX → 0 < sequence c → ms_args_ok call →
      (default 0 (persistent w KeyMsOpCount) : Z) < U32_MAX →
      ms_reachable (invoke (run_ms_call call) c w) (sequence c).

Section Histories.
Context `{BP : BuildProfile}.

Lemma ms_wf_env now s admin duration :
  ms_wf now s →
  ms_wf now (MkMsSpec admin (sp_governors s) (sp_required s) (sp_count s) duration (sp_pending s)).
Proof. done. Qed.

Lemma ms_reachable_inv w now : ms_reachable w now → ∃ s, ms_repr w s ∧ ms_wf now s.
Proof.
  induction 1 as [w Hn|w w' now _ (s & Hr & Hwf) Hk|w now c call _ (s & Hr & Hwf) Hnow Hc Hargs Hcount].
  - exists (MkMsSpec (persistent w KeyAdmin) [] 1 0
      (default 10 (persistent w KeyCfgTimelockDuration)) []).
    split.
    + unfold ms_repr. rewrite (Hn KeyMsGovernors), (Hn KeyMsRequiredApprovals), (Hn KeyMsOpCount),
        (Hn KeyMsQueueHead), (Hn KeyMsQueueTail) by done.
      split_and!; try done. intros i. by rewrite Hn.
    + unfold ms_wf. simpl. split_and!; [lia|lia|constructor..].
  - exists (MkMsSpec (persistent w' KeyAdmin) (sp_governors s) (sp_required s) (sp_count s)
      (default 10 (persistent w' KeyCfgTimelockDuration)) (sp_pending s)).
    split; [|by apply ms_wf_env]. destruct Hr as (_ & ? & ? & ? & _ & ? & ? & Hops).
    unfold ms_repr. cbn [sp_admin sp_governors sp_required sp_count sp_duration sp_pending].
    rewrite !(Hk KeyMsGovernors), !(Hk KeyMsRequiredApprovals), !(Hk KeyMsOpCount),
      !(Hk KeyMsQueueHead), !(Hk KeyMsQueueTail) by done.
    split_and!; try done. intros i. by rewrite Hk, Hops.
  - assert (sp_count s < U32_MAX) as Hcs by (destruct Hr as (_ & _ & _ & <- & _); exact Hcount).
    pose proof (ms_call_refines c w s now Hr Hwf Hnow Hcs call) as Href.
    unfold refines, invoke in *. destruct (run_ms_call call c w) as [a w'|f].
    + destruct Href as (s' & Hs' & Hr'). exists s'. split; [done|]. eapply ms_spec_wf; try done. lia.
    + exists s. split; [done|]. destruct Hwf as (? & ? & ? & ? & Hops). unfold ms_wf. split_and!; try done.
      eapply Forall_wf_mono; [|done]. lia.
Qed.

Lemma stored_op w s now i op :
  ms_repr w s → ms_wf now s → persistent w (KeyMsOp i) = Some op →
  ∃ o, find_op i (sp_pending s) = Some o ∧ op = with_next (succ_id i (sp_pending s)) o ∧
    op_wf (sp_governors s) now o.
Proof.
  intros Hr (_ & _ & _ & _ & Hops) Hop. destruct Hr as (_ & _ & _ & _ & _ & _ & _ & R8).
  rewrite R8, find_link in Hop. destruct (find_op i (sp_pending s)) as [o|] eqn:Ho; [|done].
  injection Hop as <-. exists o. split_and!; [done|done|].
  apply find_op_Some in Ho as [Ho _]. rewrite Forall_forall in Hops. auto.
Qed.
End Histories.

(** ** The properties of the component *)

(** C8. The module implements its abstract queue: in every reachable state the
    linked list in storage represents a list of pending operations with
    increasing identifiers, and every call, in every context, succeeds
    exactly when the abstract transition does, with the same error otherwise,
    and leaves a list that represents the abstract result.  In particular no
    walk over the list runs out of steps. *)
Theorem ms_refinement `{BuildProfile} w now :
  ms_reachable w now →
  ∃ s, ms_repr w s ∧ ms_wf now s ∧
    ∀ c call, now <= sequence c <= U32_MAX → sp_count s < U32_MAX →
      match run_ms_call call c w with
      | Ok _ w' => ∃ s', ms_spec c call s = inr s' ∧ ms_repr w' s'
      | Err f => ms_spec c call s = inl f
      end.
Proof.
  intros Hr. destruct (ms_reachable_inv w now Hr) as (s & Hs & Hwf). exists s.
  split_and!; [done|done|]. intros c call Hc Hcount. by apply (ms_call_refines c w s now).
Qed.

(** Two governors, one proposal. *)
Definition ms_world : World :=
  invoke (@run_ms_call OverflowChecks (CallPropose 5%N OpSetDecimals [])) toy_ctx
    (invoke (@run_ms_call OverflowChecks (CallSetGovernors [5%N; 6%N] 2)) toy_ctx base_world).

Lemma base_world_ms : @ms_reachable OverflowChecks base_world 0.
Proof. apply ms_init. by intros []. Qed.

Lemma ms_world_reachable : @ms_reachable OverflowChecks ms_world (sequence toy_ctx).
Proof.
  unfold ms_world. apply (@ms_step OverflowChecks _ (sequence toy_ctx)); [|done..].
  apply (@ms_step OverflowChecks _ 0); [apply base_world_ms|done..].
Qed.

Lemma ms_refinement_witness : ∃ s, ms_repr ms_world s ∧ ms_wf (sequence toy_ctx) s.
Proof.
  destruct (@ms_refinement OverflowChecks ms_world (sequence toy_ctx) ms_world_reachable)
    as (s & Hs & Hwf & _). exists s. split; [exact Hs|exact Hwf].
Defined.

(** C15. Execution is safe: whoever executes an operation, it is the oldest
    pending one, at least as many distinct current governors as it requires
    approve it, the timelock has run for its whole duration since the quorum,
    and the operation is gone afterwards. *)
Theorem execute_needs_quorum `{BuildProfile} w now executor i c a w' :
  ms_reachable w now → now <= sequence c <= U32_MAX →
  execute_ms_operation executor i c w = Ok a w' →
  ∃ op, persistent w (KeyMsOp i) = Some op ∧
    NoDup (mo_approvals op) ∧
    (∀ g, g ∈ mo_approvals op → g ∈ (default [] (persistent w KeyMsGovernors) : list Address)) ∧
    mo_required_approvals op <= count_of (mo_approvals op) ∧
    default 10 (persistent w KeyCfgTimelockDuration) <= sequence c - mo_timelock_start_ledger op ∧
    (∀ j op', persistent w (KeyMsOp j) = Some op' → i <= j) ∧
    persistent w' (KeyMsOp i) = None.
Proof.
  intros Hr Hc E. destruct (ms_reachable_inv w now Hr) as (s & Hs & Hwf).
  pose proof (refines_execute c w s now Hs Hwf Hc executor i) as Href. unfold refines in Href.
  cbn [run_ms_call] in Href. rewrite E in Href. destruct Href as (s' & Hspec & Hs').
  pose proof (ms_wf_ids _ _ Hwf) as Hids.
  pose proof Hs as (_ & R2 & _ & _ & R5 & _ & _ & R8). destruct Hs' as (_ & _ & _ & _ & _ & _ & _ & R8').
  cbn [ms_spec] in Hspec. destruct (negb _); [done|]. destruct (may_act s executor); [done|].
  destruct (sp_pending s) as [|op rest] eqn:Hp; [done|].
  destruct (negb (mo_id op =? i)) eqn:Hi; [done|]. bool_hyps. subst i.
  repeat (case_if; [done|]). injection Hspec as <-. bool_hyps.
  destruct Hwf as (_ & _ & Hsort & _ & Hops). rewrite Hp in Hsort, Hops.
  apply Forall_cons in Hops as [(Hn & Hg & _) _].
  exists (with_next (hd_id rest) op). rewrite R8. simpl find_op. rewrite Z.eqb_refl.
  cbn [mo_approvals with_next mo_required_approvals mo_timelock_start_ledger].
  split_and!; [done|done| |done| | |].
  - intros g Hgin. change (g ∈ (default [] (persistent w KeyMsGovernors) : list Address)).
    rewrite R2. auto.
  - rewrite R5. done.
  - intros j op' Hj. rewrite R8, find_link in Hj.
    destruct (find_op j (op :: rest)) as [o|] eqn:Ho; [|done]. apply find_op_Some in Ho as [Ho Ej].
    subst j. apply elem_of_cons in Ho as [->|Ho]; [done|].
    apply StronglySorted_inv in Hsort as [_ Hall]. rewrite Forall_forall in Hall.
    apply Z.lt_le_incl, Hall. by apply list_elem_of_fmap_2.
  - rewrite R8', find_link. cbn [set_pending sp_pending].
    assert (find_op (mo_id op) rest = None) as ->; [|done]. apply find_op_None.
    by apply ids_ok_cons in Hids as (_ & ? & _).
Qed.

(** Both governors approve, the timelock runs. *)
Definition ready_world : World :=
  invoke (@run_ms_call OverflowChecks (CallApprove 6%N 1)) toy_ctx
    (invoke (@run_ms_call OverflowChecks (CallApprove 5%N 1)) toy_ctx ms_world).

Lemma ready_world_reachable : @ms_reachable OverflowChecks ready_world (sequence toy_ctx).
Proof.
  unfold ready_world. do 2 (apply (@ms_step OverflowChecks _ (sequence toy_ctx)); [|done..]).
  apply ms_world_reachable.
Qed.

Definition later_ctx : Ctx := MkCtx 20 1100 (λ _, true) 99%N.

Lemma execute_needs_quorum_witness :
  let w' := invoke (@execute_ms_operation OverflowChecks 5%N 1) later_ctx ready_world in
  ∃ op, persistent ready_world (KeyMsOp 1) = Some op ∧
    mo_required_approvals op <= count_of (mo_approvals op) ∧ persistent w' (KeyMsOp 1) = None.
Proof.
  intros w'.
  assert (@execute_ms_operation OverflowChecks 5%N 1 later_ctx ready_world = Ok tt w') as E
    by (apply run_succeeds; vm_compute; reflexivity).
  assert (sequence toy_ctx <= sequence later_ctx <= U32_MAX) as Hc
    by (split; vm_compute; discriminate).
  destruct (@execute_needs_quorum OverflowChecks ready_world (sequence toy_ctx) 5%N 1 later_ctx tt w'
    ready_world_reachable Hc E) as (op & Hop & _ & _ & Hq & _ & _ & Hgone).
  exists op. split_and!; [exact Hop|exact Hq|exact Hgone].
Defined.

(** Rotating the governors invalidates departed votes and nothing else:
    every pending operation keeps exactly the approvals of the new governors,
    keeps the threshold it was proposed under, and has its timelock reset
    when (and only when) its quorum is lost; no operation appears or
    disappears. *)
Theorem rotation_strips_votes `{BuildProfile} w now gs r c a w' i :
  ms_reachable w now → now <= sequence c <= U32_MAX →
  default 0 (persistent w KeyMsOpCount) < U32_MAX →
  set_governors gs r c w = Ok a w' →
  match persistent w (KeyMsOp i), persistent w' (KeyMsOp i) with
  | Some op, Some op' =>
      mo_approvals op' = filter (λ x, x ∈ gs) (mo_approvals op) ∧
      mo_required_approvals op' = mo_required_approvals op ∧
      mo_timelock_start_ledger op' =
        (if count_of (mo_approvals op') <? mo_required_approvals op then 0
         else mo_timelock_start_ledger op) ∧
      mo_next_op_id op' = mo_next_op_id op
  | None, None => True
  | _, _ => False
  end.
Proof.
  intros Hr Hc Hcount E. destruct (ms_reachable_inv w now Hr) as (s & Hs & Hwf).
  assert (sp_count s < U32_MAX) as Hcs by (destruct Hs as (_ & _ & _ & <- & _); exact Hcount).
  pose proof (refines_set_governors c w s now Hs Hwf Hcs gs r) as Href. unfold refines in Href.
  cbn [run_ms_call] in Href. rewrite E in Href. destruct Href as (s' & Hspec & Hs').
  cbn [ms_spec] in Hspec. destruct (sp_admin s); [|done]. destruct (negb _); [done|].
  destruct (_ || _); [done|]. injection Hspec as <-.
  destruct Hs as (_ & _ & _ & _ & _ & _ & _ & ->). destruct Hs' as (_ & _ & _ & _ & _ & _ & _ & ->).
  cbn [sp_pending]. rewrite find_link_map by done. by destruct (find_op i (link (sp_pending s))).
Qed.

Lemma rotation_strips_votes_witness :
  let w' := invoke (@set_governors OverflowChecks [6%N; 8%N] 2) toy_ctx ready_world in
  match persistent ready_world (KeyMsOp 1), persistent w' (KeyMsOp 1) with
  | Some op, Some op' => mo_required_approvals op' = mo_required_approvals op
  | None, None => True
  | _, _ => False
  end.
Proof.
  intros w'.
  assert (@set_governors OverflowChecks [6%N; 8%N] 2 toy_ctx ready_world = Ok tt w') as E
    by (apply run_succeeds; vm_compute; reflexivity).
  assert (sequence toy_ctx <= sequence toy_ctx <= U32_MAX) as Hc
    by (split; vm_compute; discriminate).
  pose proof (@rotation_strips_votes OverflowChecks ready_world (sequence toy_ctx) [6%N; 8%N] 2 toy_ctx tt w' 1
    ready_world_reachable Hc eq_refl E) as H.
  destruct (persistent ready_world (KeyMsOp 1)), (persistent w' (KeyMsOp 1)); [apply H|done..].
Defined.

(** Reachability of the threshold is not what [set_governors] checks: it
    compares the threshold with the length of the list, so an operation that
    requires more approvals than there are distinct governors can be pending,
    and no call in any context ever executes it. *)
Theorem quorum_unreachable `{BuildProfile} w now i op :
  ms_reachable w now → persistent w (KeyMsOp i) = Some op →
  Z.of_nat (length (remove_dups (default [] (persistent w KeyMsGovernors) : list Address))) <
    mo_required_approvals op →
  ∀ executor c, now <= sequence c <= U32_MAX →
    ∃ f, execute_ms_operation executor i c w = Err f.
Proof.
  intros Hr Hop Hlt executor c Hc.
  destruct (execute_ms_operation executor i c w) as [a w'|f] eqn:E; [|by exists f]. exfalso.
  destruct (ms_reachable_inv w now Hr) as (s & Hs & Hwf).
  destruct (stored_op w s now i op Hs Hwf Hop) as (o & Hfind & -> & (Hn & Hg & _)).
  pose proof (refines_execute c w s now Hs Hwf Hc executor i) as Href. unfold refines in Href.
  cbn [run_ms_call] in Href. rewrite E in Href. destruct Href as (s' & Hspec & _).
  cbn [ms_spec] in Hspec. destruct (negb _); [done|]. destruct (may_act s executor); [done|].
  destruct (sp_pending s) as [|op rest]; [done|]. cbn [find_op] in Hfind.
  destruct (mo_id op =? i); [|done]. injection Hfind as ->. cbn [negb] in Hspec.
  case_if; [done|]. bool_hyps. cbn [mo_required_approvals with_next] in Hlt.
  pose proof Hs as (_ & R2 & _). change (default [] (persistent w KeyMsGovernors)) with
    (default [] (persistent w KeyMsGovernors) : list Address) in R2.
  assert (length (mo_approvals o) <=
    length (remove_dups (default [] (persistent w KeyMsGovernors) : list Address)))%nat as Hle.
  { apply submseteq_length, NoDup_submseteq; [done|]. intros x Hx. apply elem_of_remove_dups.
    rewrite R2. auto. }
  unfold count_of in *. lia.
Qed.

(** A governor listed twice. *)
Definition stuck_world : World :=
  invoke (@run_ms_call OverflowChecks (CallPropose 5%N OpSetDecimals [])) toy_ctx
    (invoke (@run_ms_call OverflowChecks (CallSetGovernors [5%N; 5%N] 2)) toy_ctx base_world).

Lemma quorum_unreachable_witness :
  succeeds (@set_governors OverflowChecks [5%N; 5%N] 2) toy_ctx base_world = true ∧
  ∃ f, @execute_ms_operation OverflowChecks 5%N 1 later_ctx stuck_world = Err f.
Proof.
  split; [vm_compute; reflexivity|].
  assert (@ms_reachable OverflowChecks stuck_world (sequence toy_ctx)) as Hr.
  { unfold stuck_world. apply (@ms_step OverflowChecks _ (sequence toy_ctx)); [|done..].
    apply (@ms_step OverflowChecks _ 0); [apply base_world_ms|done..]. }
  refine (@quorum_unreachable OverflowChecks stuck_world (sequence toy_ctx) 1
    (MkMultiSigOperation 1 OpSetDecimals [] [] 2 10 5%N 0 0) Hr _ _ 5%N later_ctx _).
  - vm_compute. reflexivity.
  - vm_compute. reflexivity.
  - split; vm_compute; discriminate.
Defined.
