(* ===== verification/Timelock.v ===== *)
(** * [timelock.rs]: delayed operations and batches

    The administrator queues single operations with a priority, or batches;
    both wait for a delay that is read when they are executed but never less
    than the delay recorded when they were proposed.  The theorems show that
    nothing is executed early or twice, whatever else happens in between, and
    what a batch does to the configuration. *)
From stdpp Require Import base list sets strings.
From S2P Require Import Prelude Machine Types Host AuditLog Config Admin Assets Frames Multisig.
#[local] Open Scope Z_scope.
#[local] Set Default Goal Selector "!".

(** ** Priority delays *)

Definition DEFAULT_URGENT_DELAY : Z := 1.
Definition DEFAULT_NORMAL_DELAY : Z := 10.
Definition DEFAULT_LONG_TERM_DELAY : Z := 100.

Definition get_priority_delay (priority : OperationPriority) : M Z :=
  match priority with
  | PrioUrgent =>
      b ← has KeyTlUrgentDelay;
      if b : bool then extend_ttl KeyTlUrgentDelay;; get_or KeyTlUrgentDelay DEFAULT_URGENT_DELAY
      else mret DEFAULT_URGENT_DELAY
  | PrioNormal =>
      b ← has KeyTlNormalDelay;
      if b : bool then extend_ttl KeyTlNormalDelay;; get_or KeyTlNormalDelay DEFAULT_NORMAL_DELAY
      else get_or KeyCfgTimelockDuration DEFAULT_NORMAL_DELAY
  | PrioLongTerm =>
      b ← has KeyTlLongTermDelay;
      if b : bool then
        extend_ttl KeyTlLongTermDelay;; get_or KeyTlLongTermDelay DEFAULT_LONG_TERM_DELAY
      else mret DEFAULT_LONG_TERM_DELAY
  end.

Definition set_priority_delay (priority : OperationPriority) (delay : Z) : M unit :=
  admin ← auth_admin;
  match priority with
  | PrioUrgent => set KeyTlUrgentDelay delay
  | PrioNormal => set KeyTlNormalDelay delay
  | PrioLongTerm => set KeyTlLongTermDelay delay
  end;;
  publish (MkPriorityDelayChangedEvent
    (match priority with PrioUrgent => 0 | PrioNormal => 1 | PrioLongTerm => 2 end) delay admin).

Definition op_type_to_num (op_type : OperationType) : Z :=
  match op_type with
  | OpUpgrade => 0
  | OpSetAdmin => 1
  | OpSetMinSources => 2
  | OpSetMaxHistory => 3
  | OpSetResolution => 4
  | OpSetDecimals => 5
  | OpSetDescription => 6
  | OpSetTimestampThreshold => 7
  end.

(** [uN::from_be_bytes] *)
Definition from_be_bytes (bytes : Bytes) : Z := fold_left (λ acc b, acc * 256 + b) bytes 0.

Section Timelock.
Context `{BP : BuildProfile}.

(** ** Single operations *)

Definition propose_operation_with_priority (op_type : OperationType) (data : Bytes)
    (priority : OperationPriority) : M Z :=
  admin ← auth_admin;
  current_ledger ← ledger_sequence;
  op_count ← get_or KeyTlPendingOpCount 0;
  op_id ← lift (u32 (op_count + 1));
  set (KeyTlPendingOp op_id)
    (MkPendingOperation op_id op_type admin current_ledger data priority);;
  set KeyTlPendingOpCount op_id;;
  delay ← get_priority_delay priority;
  set (KeyTlOpRequiredDelay op_id) delay;;
  publish (MkOperationProposedEvent op_id (op_type_to_num op_type) admin current_ledger);;
  mret op_id.

Definition propose_operation (op_type : OperationType) (data : Bytes) : M Z :=
  propose_operation_with_priority op_type data PrioNormal.

(** The operation, or [OperationNotFound]. *)
Definition read_pending_op (op_id : Z) : M PendingOperation :=
  op ← get (KeyTlPendingOp op_id);
  match op with Some op => mret op | None => panic_with_error OperationNotFound end.

Definition execute_operation (op_id : Z) : M unit :=
  admin ← auth_admin;
  pending_op ← read_pending_op op_id;
  snapshot ← get_or (KeyTlOpRequiredDelay op_id) 0;
  delay ← get_priority_delay (po_priority pending_op);
  let required_delay := Z.max delay snapshot in
  current_ledger ← ledger_sequence;
  elapsed ← lift (u32 (current_ledger - po_proposed_ledger pending_op));
  panic_if (elapsed <? required_delay) PriorityTimelockNotReady;;
  remove (KeyTlPendingOp op_id);;
  remove (KeyTlOpRequiredDelay op_id);;
  publish (MkOperationExecutedEvent op_id (op_type_to_num (po_op_type pending_op)) admin).

Definition cancel_operation (op_id : Z) : M unit :=
  admin ← auth_admin;
  pending_op ← read_pending_op op_id;
  remove (KeyTlPendingOp op_id);;
  remove (KeyTlOpRequiredDelay op_id);;
  publish (MkOperationCancelledEvent op_id (op_type_to_num (po_op_type pending_op)) admin).

Definition operation_expiry_ledger (op_id : Z) : M (option Z) :=
  pending_op ← get (KeyTlPendingOp op_id);
  match pending_op with
  | None => mret None
  | Some pending_op =>
      snapshot ← get_or (KeyTlOpRequiredDelay op_id) 0;
      delay ← get_priority_delay (po_priority pending_op);
      mret (Some (sat_u32 (po_proposed_ledger pending_op + Z.max delay snapshot)))
  end.

Definition is_operation_expired (op_id : Z) : M bool :=
  expiry ← operation_expiry_ledger op_id;
  match expiry with
  | Some expiry => ledger ← ledger_sequence; mret (expiry <? ledger)
  | None => mret false
  end.

Definition set_timelock_duration (duration : Z) : M unit :=
  admin ← auth_admin;
  snapshot_before_change admin;;
  set KeyCfgTimelockDuration duration.

(** ** Batches *)

Definition element_delay (op_type : Z) : M Z :=
  match op_type with
  | 0 | 1 => get_priority_delay PrioLongTerm
  | _ => get_priority_delay PrioNormal
  end.

Definition batch_required_delay (operations : list BatchOperation) : M Z :=
  delay ← get_or KeyTimelockDuration 10;
  fold_m (λ (delay : Z) op, d ← element_delay (bo_op_type op); mret (Z.max delay d))
    (delay : Z) operations.

Definition propose_batch (operations : list BatchOperation) : M Z :=
  admin ← auth_admin;
  current_ledger ← ledger_sequence;
  batch_count ← get_or KeyPendingBatchCount 0;
  batch_id ← lift (u32 (batch_count + 1));
  required_delay ← batch_required_delay operations;
  set (KeyPendingBatch batch_id) (MkPendingBatch batch_id admin current_ledger operations);;
  set KeyPendingBatchCount batch_id;;
  set (KeyPendingBatchRequiredDelay batch_id) required_delay;;
  publish (MkBatchProposedEvent batch_id (Z.of_nat (length operations)) admin current_ledger);;
  mret batch_id.

(** Length of the payload an operation must carry. *)
Definition expected_len (op_type : Z) : option nat :=
  match op_type with
  | 0 => Some 32%nat
  | 2 | 3 | 4 | 5 => Some 4%nat
  | 7 => Some 8%nat
  | _ => None
  end.

(** A numeric configuration change of a batch: [write] stores the decoded
    value after the snapshot. *)
Definition decode_and_set (admin : Address) (data : Bytes) (len : nat) (write : Z → M unit)
    : M unit :=
  if (len <=? length data)%nat then
    let val := from_be_bytes (take len data) in
    snapshot_before_change admin;;
    write val
  else mret tt.

Definition execute_single_op (op_type : Z) (data : Bytes) : M unit :=
  admin ← get_admin;
  panic_if (match expected_len op_type with
            | Some len => negb (length data =? len)%nat
            | None => false
            end) InvalidConfiguration;;
  match op_type with
  | 0 => publish (WasmUpdated (take 32 data))
  | 1 => _ ← get_unwrap KeyAdmin; mret tt
  | 2 => decode_and_set admin data 4 (λ val, set KeyCfgMinSources val)
  | 3 => decode_and_set admin data 4 (λ val, set KeyCfgMaxHistory val)
  | 4 => decode_and_set admin data 4 (λ val, set KeyCfgResolution val)
  | 5 => decode_and_set admin data 4 (λ val, set KeyCfgDecimals val)
  | 6 => mret tt
  | 7 => decode_and_set admin data 8 (λ val,
           Flags.mark Flags.TIMESTAMP_THRESHOLD;; set KeyCfgTimestampThreshold val)
  | _ => panic_with_error OperationNotFound
  end.

Definition execute_batch (batch_id : Z) : M unit :=
  admin ← auth_admin;
  pending ← get (KeyPendingBatch batch_id);
  match pending with
  | None => panic_with_error OperationNotFound
  | Some pending =>
      snapshot ← get_or (KeyPendingBatchRequiredDelay batch_id) 0;
      delay ← batch_required_delay (pbt_operations pending);
      let timelock_duration := Z.max delay snapshot in
      current_ledger ← ledger_sequence;
      elapsed ← lift (u32 (current_ledger - pbt_proposed_ledger pending));
      panic_if (elapsed <? timelock_duration) TimelockNotReady;;
      for_each (pbt_operations pending) (λ op, execute_single_op (bo_op_type op) (bo_data op));;
      remove (KeyPendingBatch batch_id);;
      remove (KeyPendingBatchRequiredDelay batch_id);;
      publish (MkBatchExecutedEvent batch_id (Z.of_nat (length (pbt_operations pending))) admin)
  end.

Definition cancel_batch (batch_id : Z) : M unit :=
  admin ← auth_admin;
  b ← has (KeyPendingBatch batch_id);
  panic_if (negb b) OperationNotFound;;
  remove (KeyPendingBatch batch_id);;
  remove (KeyPendingBatchRequiredDelay batch_id);;
  publish (MkBatchCancelledEvent batch_id admin).
End Timelock.

(** ** The delays in force *)

Definition delay_of (w : World) (p : OperationPriority) : Z :=
  match p with
  | PrioUrgent => default DEFAULT_URGENT_DELAY (persistent w KeyTlUrgentDelay)
  | PrioNormal =>
      match persistent w KeyTlNormalDelay with
      | Some d => d
      | None => default DEFAULT_NORMAL_DELAY (persistent w KeyCfgTimelockDuration)
      end
  | PrioLongTerm => default DEFAULT_LONG_TERM_DELAY (persistent w KeyTlLongTermDelay)
  end.

Lemma run_priority_delay p c w : get_priority_delay p c w = Ok (delay_of w p) w.
Proof.
  destruct p; cbn [get_priority_delay delay_of]; rewrite run_bind; unfold has.
  - destruct (persistent w KeyTlUrgentDelay) as [d|] eqn:E; [|done].
    rewrite bool_decide_true by eauto. rewrite run_bind, (run_extend_ttl KeyTlUrgentDelay d) by done.
    by rewrite run_get_or, E.
  - destruct (persistent w KeyTlNormalDelay) as [d|] eqn:E; [|done].
    rewrite bool_decide_true by eauto. rewrite run_bind, (run_extend_ttl KeyTlNormalDelay d) by done.
    by rewrite run_get_or, E.
  - destruct (persistent w KeyTlLongTermDelay) as [d|] eqn:E; [|done].
    rewrite bool_decide_true by eauto. rewrite run_bind, (run_extend_ttl KeyTlLongTermDelay d) by done.
    by rewrite run_get_or, E.
Qed.

(** The tier of a batch element: upgrades and handovers are long-term. *)
Definition tier (op_type : Z) : OperationPriority :=
  if (op_type =? 0) || (op_type =? 1) then PrioLongTerm else PrioNormal.

Lemma run_element_delay op_type c w : element_delay op_type c w = Ok (delay_of w (tier op_type)) w.
Proof.
  unfold tier. destruct op_type as [|[p|p|]|p]; cbn [element_delay]; apply run_priority_delay.
Qed.

Definition batch_delay_of (w : World) (operations : list BatchOperation) : Z :=
  fold_left (λ delay op, Z.max delay (delay_of w (tier (bo_op_type op)))) operations
    (default 10 (persistent w KeyTimelockDuration)).

Lemma run_element_delays operations c w : ∀ d : Z,
  fold_m (λ (delay : Z) op, d ← element_delay (bo_op_type op); mret (Z.max delay d)) d operations c w =
  Ok (fold_left (λ delay op, Z.max delay (delay_of w (tier (bo_op_type op)))) operations d) w.
Proof.
  induction operations as [|op operations IH]; intros d; [done|]. cbn [fold_m fold_left].
  rewrite run_bind, run_bind, run_element_delay, run_ret. apply IH.
Qed.

Lemma run_batch_required_delay operations c w :
  batch_required_delay operations c w = Ok (batch_delay_of w operations) w.
Proof.
  unfold batch_required_delay. rewrite run_bind, run_get_or.
  exact (run_element_delays operations c w (default 10 (persistent w KeyTimelockDuration))).
Qed.

Lemma fold_max_ge {A} (f : A → Z) l : ∀ d,
  d <= fold_left (λ acc x, Z.max acc (f x)) l d ∧
  ∀ x, x ∈ l → f x <= fold_left (λ acc x, Z.max acc (f x)) l d.
Proof.
  induction l as [|y l IH]; intros d; simpl.
  - split; [lia|]. intros x Hx. by apply not_elem_of_nil in Hx.
  - destruct (IH (Z.max d (f y))) as [Hd Hall]. split; [lia|].
    intros x [->|Hx]%elem_of_cons; [lia|auto].
Qed.

(** ** Histories *)

Inductive TlCall :=
  | CallSetPriorityDelay (priority : OperationPriority) (delay : Z)
  | CallSetTimelockDuration (duration : Z)
  | CallProposeOp (op_type : OperationType) (data : Bytes) (priority : OperationPriority)
  | CallExecuteOp (op_id : Z)
  | CallCancelOp (op_id : Z)
  | CallProposeBatch (operations : list BatchOperation)
  | CallExecuteBatch (batch_id : Z)
  | CallCancelBatch (batch_id : Z).

Definition run_tl_call `{BuildProfile} (call : TlCall) : M unit :=
  match call with
  | CallSetPriorityDelay p d => set_priority_delay p d
  | CallSetTimelockDuration d => set_timelock_duration d
  | CallProposeOp t d p => _ ← propose_operation_with_priority t d p; mret tt
  | CallExecuteOp i => execute_operation i
  | CallCancelOp i => cancel_operation i
  | CallProposeBatch ops => _ ← propose_batch ops; mret tt
  | CallExecuteBatch i => execute_batch i
  | CallCancelBatch i => cancel_batch i
  end.

Definition op_count (w : World) : Z := default 0 (persistent w KeyTlPendingOpCount).
Definition batch_count (w : World) : Z := default 0 (persistent w KeyPendingBatchCount).

(** The queues of the module. *)
Definition tl_key (k : DataKey) : Prop :=
  match k with
  | KeyTlPendingOp _ | KeyTlOpRequiredDelay _ | KeyTlPendingOpCount
  | KeyPendingBatch _ | KeyPendingBatchRequiredDelay _ | KeyPendingBatchCount => True
  | _ => False
  end.

(** What can follow a state: timelock calls in any context, successful or
    not, with fewer than [2^32 - 1] proposals of each kind, and anything else
    that leaves the queues alone. *)
Inductive tl_future `{BuildProfile} (w0 : World) : World → Prop :=
  | tl_now : tl_future w0 w0
  | tl_call w c call :
      tl_future w0 w → op_count w < U32_MAX → batch_count w < U32_MAX →
      0 <= op_count w → 0 <= batch_count w →
      tl_future w0 (invoke (run_tl_call call) c w)
  | tl_else w w' :
      tl_future w0 w → (∀ k, tl_key k → persistent w' k = persistent w k) → tl_future w0 w'.

(** What can become of a proposed operation: it waits unchanged, or it is
    gone; its identifier is never issued again. *)
Definition op_fate (i : Z) (p : PendingOperation) (d : Z) (w : World) : Prop :=
  i <= op_count w ∧
  (persistent w (KeyTlPendingOp i) = None ∨
   persistent w (KeyTlPendingOp i) = Some p ∧ persistent w (KeyTlOpRequiredDelay i) = Some d).

Definition batch_fate (i : Z) (p : PendingBatch) (d : Z) (w : World) : Prop :=
  i <= batch_count w ∧
  (persistent w (KeyPendingBatch i) = None ∨
   persistent w (KeyPendingBatch i) = Some p ∧
   persistent w (KeyPendingBatchRequiredDelay i) = Some d).

Section Fate.
Context `{BP : BuildProfile}.

(** *** What successful calls did *)

Lemma run_read_pending_op i c w :
  read_pending_op i c w = match persistent w (KeyTlPendingOp i) with
                          | Some op => Ok op w
                          | None => Err (Error OperationNotFound)
                          end.
Proof. unfold read_pending_op. rewrite run_bind, run_get. by destruct (persistent w (KeyTlPendingOp i)). Qed.

(** The queue without operation [i]. *)
Definition drop_op (i : Z) (w : World) : World :=
  put_persistent (KeyTlOpRequiredDelay i) None (put_persistent (KeyTlPendingOp i) None w).

Lemma execute_op_inv i c w a w' :
  execute_operation i c w = Ok a w' →
  ∃ op admin, persistent w (KeyTlPendingOp i) = Some op ∧ persistent w KeyAdmin = Some admin ∧
    authorized c admin = true ∧
    (in_u32 (sequence c - po_proposed_ledger op) →
     Z.max (delay_of w (po_priority op)) (default 0 (persistent w (KeyTlOpRequiredDelay i))) <=
     sequence c - po_proposed_ledger op) ∧
    persistent w' = persistent (drop_op i w).
Proof.
  unfold execute_operation. intros E. apply bind_Ok in E as (admin & w1 & Hau & E).
  apply auth_admin_Ok in Hau as (-> & Had & Hau). rewrite run_bind, run_read_pending_op in E.
  destruct (persistent w (KeyTlPendingOp i)) as [op|] eqn:Hop; [|done].
  rewrite run_bind, run_get_or, run_bind, run_priority_delay, run_bind, run_sequence, run_bind in E.
  destruct (u32 (sequence c - po_proposed_ledger op)) as [el|] eqn:Hel; [|done].
  cbn [lift] in E. rewrite run_ret, run_bind, run_panic_if in E. case_if; [done|].
  rewrite run_bind, run_remove, run_bind, run_remove, run_publish in E. injection E as _ <-.
  exists op, admin. split_and!; try done. intros Hr. rewrite u32_ok in Hel by done.
  injection Hel as <-. bool_hyps. done.
Qed.

Lemma cancel_op_inv i c w a w' :
  cancel_operation i c w = Ok a w' →
  is_Some (persistent w (KeyTlPendingOp i)) ∧ persistent w' = persistent (drop_op i w).
Proof.
  unfold cancel_operation. intros E. apply bind_Ok in E as (admin & w1 & Hau & E).
  apply auth_admin_Ok in Hau as (-> & Had & Hau). rewrite run_bind, run_read_pending_op in E.
  destruct (persistent w (KeyTlPendingOp i)) as [op|] eqn:Hop; [|done].
  rewrite run_bind, run_remove, run_bind, run_remove, run_publish in E. injection E as _ <-.
  split; [by eexists|done].
Qed.

(** The queue with a new operation. *)
Definition add_op (op : PendingOperation) (d : Z) (w : World) : World :=
  put_persistent (KeyTlOpRequiredDelay (po_id op)) (Some (d : interp (ty_of (KeyTlOpRequiredDelay (po_id op)))))
  (put_persistent KeyTlPendingOpCount (Some (po_id op : interp (ty_of KeyTlPendingOpCount)))
  (put_persistent (KeyTlPendingOp (po_id op)) (Some (op : interp (ty_of (KeyTlPendingOp (po_id op))))) w)).

Lemma propose_op_inv t data p c w i w' :
  0 <= op_count w < U32_MAX →
  propose_operation_with_priority t data p c w = Ok i w' →
  ∃ admin, persistent w KeyAdmin = Some admin ∧ authorized c admin = true ∧
    i = op_count w + 1 ∧
    persistent w' = persistent (add_op (MkPendingOperation i t admin (sequence c) data p)
                                  (delay_of w p) w).
Proof.
  intros Hc E. unfold propose_operation_with_priority in E.
  apply bind_Ok in E as (admin & w1 & Hau & E). apply auth_admin_Ok in Hau as (-> & Had & Hau).
  rewrite run_bind, run_sequence, run_bind, (run_get_or_as KeyTlPendingOpCount 0 (op_count w)) in E by done.
  rewrite run_bind, u32_ok in E by (unfold in_u32; lia). cbn [lift] in E.
  rewrite run_ret, run_bind, run_set, run_bind, run_set, run_bind, run_priority_delay in E.
  rewrite run_bind, run_set, run_bind, run_publish, run_ret in E. injection E as <- <-.
  by exists admin.
Qed.

(** *** The queue of operations *)

Definition op_queue_key (k : DataKey) : Prop :=
  match k with
  | KeyTlPendingOp _ | KeyTlOpRequiredDelay _ | KeyTlPendingOpCount => True
  | _ => False
  end.

Lemma op_fate_reads i p d : reads_only op_queue_key (op_fate i p d).
Proof. intros w w' Hk. unfold op_fate, op_count. by rewrite !Hk by done. Qed.

Lemma op_fate_drop i p d j w : op_fate i p d w → op_fate i p d (drop_op j w).
Proof.
  intros [Hi Hf]. unfold op_fate, op_count, drop_op in *. read_store. split; [done|].
  destruct (decide (i = j)) as [->|Hne].
  - left. by read_store.
  - rewrite (persistent_put_ne (KeyTlPendingOp j)), (persistent_put_ne (KeyTlOpRequiredDelay j))
      by congruence. by read_store.
Qed.

Lemma op_fate_add i p d op d' w :
  po_id op = op_count w + 1 → op_fate i p d w → op_fate i p d (add_op op d' w).
Proof.
  intros Hid [Hi Hf]. unfold op_fate, op_count, add_op in *. split.
  - read_store. simpl. lia.
  - read_store. rewrite (persistent_put_ne (KeyTlPendingOp (po_id op))),
      (persistent_put_ne (KeyTlOpRequiredDelay (po_id op))) by (intros [=]; lia). by read_store.
Qed.

(** *** The queue of batches *)

Definition not_queue (k : DataKey) : Prop := ¬ tl_key k.

Lemma modifies_snapshot_queue admin : modifies not_queue (snapshot_before_change admin).
Proof. apply modifies_snapshot. intros k Hk Hq. by destruct k. Qed.

Lemma modifies_decode admin data len write :
  (∀ v, modifies not_queue (write v)) → modifies not_queue (decode_and_set admin data len write).
Proof.
  intros Hw. unfold decode_and_set. destruct (_ <=? _)%nat; [|apply modifies_ret].
  apply modifies_bind; [apply modifies_snapshot_queue|]. intros _. apply Hw.
Qed.

Lemma modifies_single_op t data : modifies not_queue (execute_single_op t data).
Proof.
  unfold execute_single_op. apply modifies_bind; [apply modifies_get_admin|]. intros admin.
  apply modifies_bind; [apply modifies_panic_if|]. intros _.
  destruct t as [|t|t]; try apply modifies_fail; [apply modifies_publish|].
  repeat (destruct t as [t|t|]; try apply modifies_fail).
  all: try (apply modifies_decode; intros v).
  all: try (apply modifies_bind; [apply modifies_mark|intros _]).
  all: solve_modifies; by intros [].
Qed.

Definition drop_batch (i : Z) (w : World) : World :=
  put_persistent (KeyPendingBatchRequiredDelay i) None (put_persistent (KeyPendingBatch i) None w).

Lemma execute_batch_inv i c w a w' :
  execute_batch i c w = Ok a w' →
  ∃ b w1, persistent w (KeyPendingBatch i) = Some b ∧
    (in_u32 (sequence c - pbt_proposed_ledger b) →
     Z.max (batch_delay_of w (pbt_operations b)) (default 0 (persistent w (KeyPendingBatchRequiredDelay i))) <=
     sequence c - pbt_proposed_ledger b) ∧
    for_each (pbt_operations b) (λ op, execute_single_op (bo_op_type op) (bo_data op)) c w = Ok tt w1 ∧
    (∀ k, tl_key k → persistent w1 k = persistent w k) ∧
    persistent w' = persistent (drop_batch i w1).
Proof.
  unfold execute_batch. intros E. apply bind_Ok in E as (admin & w0 & Hau & E).
  apply auth_admin_Ok in Hau as (-> & _ & _). rewrite run_bind, run_get in E.
  destruct (persistent w (KeyPendingBatch i)) as [b|] eqn:Hb; [|done].
  rewrite run_bind, run_get_or, run_bind, run_batch_required_delay, run_bind, run_sequence, run_bind in E.
  destruct (u32 (sequence c - pbt_proposed_ledger b)) as [el|] eqn:Hel; [|done].
  cbn [lift] in E. rewrite run_ret, run_bind, run_panic_if in E. case_if; [done|].
  apply bind_Ok in E as ([] & w1 & Hops & E).
  rewrite run_bind, run_remove, run_bind, run_remove, run_publish in E. injection E as _ <-.
  exists b, w1. split_and!; try done.
  - intros Hr. rewrite u32_ok in Hel by done. injection Hel as <-. bool_hyps. done.
  - intros k Hk. refine (modifies_for_each not_queue _ _ _ _ _ _ _ Hops k _).
    + intros op. apply modifies_single_op.
    + intros Hn. by apply Hn.
Qed.

Lemma cancel_batch_inv i c w a w' :
  cancel_batch i c w = Ok a w' → persistent w' = persistent (drop_batch i w).
Proof.
  unfold cancel_batch. intros E. apply bind_Ok in E as (admin & w1 & Hau & E).
  apply auth_admin_Ok in Hau as (-> & _ & _). unfold has in E. ok_inv. done.
Qed.

Definition add_batch (b : PendingBatch) (d : Z) (w : World) : World :=
  put_persistent (KeyPendingBatchRequiredDelay (pbt_id b))
    (Some (d : interp (ty_of (KeyPendingBatchRequiredDelay (pbt_id b)))))
  (put_persistent KeyPendingBatchCount (Some (pbt_id b : interp (ty_of KeyPendingBatchCount)))
  (put_persistent (KeyPendingBatch (pbt_id b)) (Some (b : interp (ty_of (KeyPendingBatch (pbt_id b))))) w)).

Lemma propose_batch_inv operations c w i w' :
  0 <= batch_count w < U32_MAX →
  propose_batch operations c w = Ok i w' →
  ∃ admin, i = batch_count w + 1 ∧
    persistent w' = persistent (add_batch (MkPendingBatch i admin (sequence c) operations)
                                  (batch_delay_of w operations) w).
Proof.
  intros Hc E. unfold propose_batch in E.
  apply bind_Ok in E as (admin & w1 & Hau & E). apply auth_admin_Ok in Hau as (-> & Had & Hau).
  rewrite run_bind, run_sequence, run_bind, (run_get_or_as KeyPendingBatchCount 0 (batch_count w)) in E by done.
  rewrite run_bind, u32_ok in E by (unfold in_u32; lia). cbn [lift] in E.
  rewrite run_ret, run_bind, run_batch_required_delay, run_bind, run_set, run_bind, run_set in E.
  rewrite run_bind, run_set, run_bind, run_publish, run_ret in E. injection E as <- <-.
  by exists admin.
Qed.

Definition batch_queue_key (k : DataKey) : Prop :=
  match k with
  | KeyPendingBatch _ | KeyPendingBatchRequiredDelay _ | KeyPendingBatchCount => True
  | _ => False
  end.

Lemma batch_fate_reads i p d : reads_only batch_queue_key (batch_fate i p d).
Proof. intros w w' Hk. unfold batch_fate, batch_count. by rewrite !Hk by done. Qed.

Lemma batch_fate_drop i p d j w : batch_fate i p d w → batch_fate i p d (drop_batch j w).
Proof.
  intros [Hi Hf]. unfold batch_fate, batch_count, drop_batch in *. read_store. split; [done|].
  destruct (decide (i = j)) as [->|Hne].
  - left. by read_store.
  - rewrite (persistent_put_ne (KeyPendingBatch j)), (persistent_put_ne (KeyPendingBatchRequiredDelay j))
      by congruence. by read_store.
Qed.

Lemma batch_fate_add i p d b d' w :
  pbt_id b = batch_count w + 1 → batch_fate i p d w → batch_fate i p d (add_batch b d' w).
Proof.
  intros Hid [Hi Hf]. unfold batch_fate, batch_count, add_batch in *. split.
  - read_store. simpl. lia.
  - read_store. rewrite (persistent_put_ne (KeyPendingBatch (pbt_id b))),
      (persistent_put_ne (KeyPendingBatchRequiredDelay (pbt_id b))) by (intros [=]; lia). by read_store.
Qed.

(** *** Both through every call *)

Lemma fate_ext (I : World → Prop) K w w' :
  reads_only K I → persistent w' = persistent w → I w → I w'.
Proof. intros HI E. apply HI. intros k _. by rewrite E. Qed.

Lemma modifies_set_priority q d : modifies not_queue (set_priority_delay q d).
Proof.
  unfold set_priority_delay. apply modifies_bind; [apply modifies_auth_admin|]. intros.
  destruct q; solve_modifies; by intros [].
Qed.

Lemma modifies_set_duration d : modifies not_queue (set_timelock_duration d).
Proof.
  unfold set_timelock_duration. apply modifies_bind; [apply modifies_auth_admin|]. intros.
  apply modifies_bind; [apply modifies_snapshot_queue|]. intros. solve_modifies. by intros [].
Qed.

(** A call outside a queue, seen from the queue. *)
Lemma frame_queue {A} (m : M A) (K : DataKey → Prop) I c w a w' :
  reads_only K I → (∀ k, K k → tl_key k) → modifies not_queue m → m c w = Ok a w' → I w → I w'.
Proof.
  intros HI HK Hm E. apply HI. intros k Hk. apply (Hm _ _ _ _ E). intros Hn. by apply Hn, HK.
Qed.

Lemma op_fate_call i p d call c w :
  0 <= op_count w < U32_MAX → 0 <= batch_count w < U32_MAX →
  op_fate i p d w → op_fate i p d (invoke (run_tl_call call) c w).
Proof.
  intros Hc Hb Hf. unfold invoke. destruct (run_tl_call call c w) as [a w'|f] eqn:E; [|done].
  assert (∀ k, op_queue_key k → tl_key k) as HK by (by intros []).
  destruct call as [q dl|du|t data q|j|j|ops|j|j]; cbn [run_tl_call] in E.
  - by eapply (frame_queue _ _ _ _ _ _ _ (op_fate_reads i p d) HK (modifies_set_priority q dl)).
  - by eapply (frame_queue _ _ _ _ _ _ _ (op_fate_reads i p d) HK (modifies_set_duration du)).
  - apply bind_Ok in E as (id & w1 & E & [= _ <-]).
    destruct (propose_op_inv _ _ _ _ _ _ _ Hc E) as (admin & _ & _ & -> & Hw).
    eapply (fate_ext _ _ _ _ (op_fate_reads i p d) Hw). by apply op_fate_add.
  - destruct (execute_op_inv _ _ _ _ _ E) as (op & admin & _ & _ & _ & _ & Hw).
    eapply (fate_ext _ _ _ _ (op_fate_reads i p d) Hw). by apply op_fate_drop.
  - destruct (cancel_op_inv _ _ _ _ _ E) as [_ Hw].
    eapply (fate_ext _ _ _ _ (op_fate_reads i p d) Hw). by apply op_fate_drop.
  - apply bind_Ok in E as (id & w1 & E & [= _ <-]).
    destruct (propose_batch_inv _ _ _ _ _ Hb E) as (admin & _ & Hw).
    eapply (fate_ext _ _ _ _ (op_fate_reads i p d) Hw).
    apply (op_fate_reads i p d w); [|done]. intros k Hk. unfold add_batch.
    by rewrite !persistent_put_ne by (by intros <-).
  - destruct (execute_batch_inv _ _ _ _ _ E) as (b & w1 & _ & _ & _ & Hk1 & Hw).
    eapply (fate_ext _ _ _ _ (op_fate_reads i p d) Hw).
    apply (op_fate_reads i p d w); [|done]. intros k Hk. unfold drop_batch.
    rewrite !persistent_put_ne by (by intros <-). by apply Hk1, HK.
  - apply cancel_batch_inv in E. eapply (fate_ext _ _ _ _ (op_fate_reads i p d) E).
    apply (op_fate_reads i p d w); [|done]. intros k Hk. unfold drop_batch.
    by rewrite !persistent_put_ne by (by intros <-).
Qed.

Lemma batch_fate_call i p d call c w :
  0 <= op_count w < U32_MAX → 0 <= batch_count w < U32_MAX →
  batch_fate i p d w → batch_fate i p d (invoke (run_tl_call call) c w).
Proof.
  intros Hc Hb Hf. unfold invoke. destruct (run_tl_call call c w) as [a w'|f] eqn:E; [|done].
  assert (∀ k, batch_queue_key k → tl_key k) as HK by (by intros []).
  destruct call as [q dl|du|t data q|j|j|ops|j|j]; cbn [run_tl_call] in E.
  - by eapply (frame_queue _ _ _ _ _ _ _ (batch_fate_reads i p d) HK (modifies_set_priority q dl)).
  - by eapply (frame_queue _ _ _ _ _ _ _ (batch_fate_reads i p d) HK (modifies_set_duration du)).
  - apply bind_Ok in E as (id & w1 & E & [= _ <-]).
    destruct (propose_op_inv _ _ _ _ _ _ _ Hc E) as (admin & _ & _ & _ & Hw).
    eapply (fate_ext _ _ _ _ (batch_fate_reads i p d) Hw).
    apply (batch_fate_reads i p d w); [|done]. intros k Hk. unfold add_op.
    by rewrite !persistent_put_ne by (by intros <-).
  - destruct (execute_op_inv _ _ _ _ _ E) as (op & admin & _ & _ & _ & _ & Hw).
    eapply (fate_ext _ _ _ _ (batch_fate_reads i p d) Hw).
    apply (batch_fate_reads i p d w); [|done]. intros k Hk. unfold drop_op.
    by rewrite !persistent_put_ne by (by intros <-).
  - destruct (cancel_op_inv _ _ _ _ _ E) as [_ Hw].
    eapply (fate_ext _ _ _ _ (batch_fate_reads i p d) Hw).
    apply (batch_fate_reads i p d w); [|done]. intros k Hk. unfold drop_op.
    by rewrite !persistent_put_ne by (by intros <-).
  - apply bind_Ok in E as (id & w1 & E & [= _ <-]).
    destruct (propose_batch_inv _ _ _ _ _ Hb E) as (admin & -> & Hw).
    eapply (fate_ext _ _ _ _ (batch_fate_reads i p d) Hw). by apply batch_fate_add.
  - destruct (execute_batch_inv _ _ _ _ _ E) as (b & w1 & _ & _ & _ & Hk1 & Hw).
    eapply (fate_ext _ _ _ _ (batch_fate_reads i p d) Hw). apply batch_fate_drop.
    apply (batch_fate_reads i p d w); [|done]. intros k Hk. by apply Hk1, HK.
  - apply cancel_batch_inv in E. eapply (fate_ext _ _ _ _ (batch_fate_reads i p d) E).
    by apply batch_fate_drop.
Qed.

Lemma op_fate_future i p d w0 w : tl_future w0 w → op_fate i p d w0 → op_fate i p d w.
Proof.
  intros Hf H0. induction Hf as [|w c call _ IH ????|w w' _ IH Hk]; [done|by apply op_fate_call|].
  apply (op_fate_reads i p d w); [|done]. intros k Hq. apply Hk. by destruct k.
Qed.

Lemma batch_fate_future i p d w0 w : tl_future w0 w → batch_fate i p d w0 → batch_fate i p d w.
Proof.
  intros Hf H0. induction Hf as [|w c call _ IH ????|w w' _ IH Hk]; [done|by apply batch_fate_call|].
  apply (batch_fate_reads i p d w); [|done]. intros k Hq. apply Hk. by destruct k.
Qed.
End Fate.

(** An identifier whose operation is gone stays free of operations. *)
Lemma op_gone_future `{BuildProfile} i w w' :
  tl_future w w' → i <= op_count w → persistent w (KeyTlPendingOp i) = None →
  persistent w' (KeyTlPendingOp i) = None.
Proof.
  intros Hf Hi Hn.
  set (op n := MkPendingOperation i OpUpgrade 0%N n [] PrioUrgent).
  assert (∀ n, op_fate i (op n) 0 w') as Hall.
  { intros n. apply (op_fate_future i (op n) 0 w w' Hf). by split; [|left]. }
  destruct (Hall 0) as [_ [?|[E0 _]]]; [done|]. destruct (Hall 1) as [_ [?|[E1 _]]]; [done|].
  rewrite E0 in E1. discriminate E1.
Qed.

Lemma batch_gone_future `{BuildProfile} i w w' :
  tl_future w w' → i <= batch_count w → persistent w (KeyPendingBatch i) = None →
  persistent w' (KeyPendingBatch i) = None.
Proof.
  intros Hf Hi Hn. set (b n := MkPendingBatch i 0%N n []).
  assert (∀ n, batch_fate i (b n) 0 w') as Hall.
  { intros n. apply (batch_fate_future i (b n) 0 w w' Hf). by split; [|left]. }
  destruct (Hall 0) as [_ [?|[E0 _]]]; [done|]. destruct (Hall 1) as [_ [?|[E1 _]]]; [done|].
  rewrite E0 in E1. discriminate E1.
Qed.

Lemma execute_op_gone `{BuildProfile} i c w a w' :
  execute_operation i c w = Ok a w' → persistent w (KeyTlPendingOp i) ≠ None.
Proof. intros E. destruct (execute_op_inv _ _ _ _ _ E) as (op & _ & -> & _). done. Qed.

Lemma propose_op_fate `{BuildProfile} t data p c w i w' :
  0 <= op_count w < U32_MAX → propose_operation_with_priority t data p c w = Ok i w' →
  ∃ admin, op_fate i (MkPendingOperation i t admin (sequence c) data p) (delay_of w p) w'.
Proof.
  intros Hc E. destruct (propose_op_inv _ _ _ _ _ _ _ Hc E) as (admin & _ & _ & _ & Hw).
  exists admin. unfold op_fate, op_count. rewrite Hw. unfold add_op. cbn [po_id]. read_store.
  split; [simpl; lia|]. by right.
Qed.

Lemma propose_batch_fate `{BuildProfile} operations c w i w' :
  0 <= batch_count w < U32_MAX → propose_batch operations c w = Ok i w' →
  ∃ admin, batch_fate i (MkPendingBatch i admin (sequence c) operations) (batch_delay_of w operations) w'.
Proof.
  intros Hc E. destruct (propose_batch_inv _ _ _ _ _ Hc E) as (admin & _ & Hw).
  exists admin. unfold batch_fate, batch_count. rewrite Hw. unfold add_batch. cbn [pbt_id]. read_store.
  split; [simpl; lia|]. by right.
Qed.

(** ** The properties of the component *)

(** C16. No operation runs early or twice: when an operation proposed at one
    ledger is executed at a later one, whatever timelock calls and other
    activity happened in between, at least the delay in force at the proposal
    has passed, and at least the delay in force at the execution; and after
    that execution no later call ever executes it again. *)
Theorem operation_waits_once `{BuildProfile} t data p c1 w i w1 w2 c2 a w3 :
  0 <= op_count w < U32_MAX →
  propose_operation_with_priority t data p c1 w = Ok i w1 →
  tl_future w1 w2 → in_u32 (sequence c2 - sequence c1) →
  execute_operation i c2 w2 = Ok a w3 →
  delay_of w p <= sequence c2 - sequence c1 ∧
  delay_of w2 p <= sequence c2 - sequence c1 ∧
  ∀ w4 c4 b w5, tl_future w3 w4 → execute_operation i c4 w4 ≠ Ok b w5.
Proof.
  intros Hc E1 Hf Hr E2. destruct (propose_op_fate _ _ _ _ _ _ _ Hc E1) as (admin & Hfate).
  destruct (op_fate_future _ _ _ _ _ Hf Hfate) as [Hi Hcases].
  destruct (execute_op_inv _ _ _ _ _ E2) as (op & adm & Hop & _ & _ & Hd & Hw).
  destruct Hcases as [Hn|[Hp Hs]]; [by rewrite Hn in Hop|].
  rewrite Hop in Hp. injection Hp as ->. cbn [po_proposed_ledger po_priority] in Hd.
  specialize (Hd Hr). rewrite Hs in Hd. cbn [from_option id] in Hd.
  split_and!; [lia|lia|]. intros w4 c4 b w5 Hf4 E5. apply (execute_op_gone _ _ _ _ _ E5).
  apply (op_gone_future i w3 w4 Hf4).
  - unfold op_count in *. rewrite Hw. unfold drop_op. by read_store.
  - rewrite Hw. unfold drop_op. by read_store.
Qed.

(** Every element of the batch is covered by its delay. *)
Lemma batch_delay_covers w operations op :
  op ∈ operations → delay_of w (tier (bo_op_type op)) <= batch_delay_of w operations.
Proof. intros Hop. by apply (fold_max_ge (λ op, delay_of w (tier (bo_op_type op)))). Qed.

(** Batches respect the delay of every element: when a batch proposed at
    one ledger is executed at a later one, each element has waited the delay
    of its own tier (long-term for upgrades and handovers, normal otherwise)
    as it was at the proposal and as it is at the execution; the elements
    then run in order, atomically, and the batch never runs again. *)
Theorem batch_waits_once `{BuildProfile} operations c1 w i w1 w2 c2 a w3 :
  0 <= batch_count w < U32_MAX →
  propose_batch operations c1 w = Ok i w1 →
  tl_future w1 w2 → in_u32 (sequence c2 - sequence c1) →
  execute_batch i c2 w2 = Ok a w3 →
  (∀ op, op ∈ operations →
     delay_of w (tier (bo_op_type op)) <= sequence c2 - sequence c1 ∧
     delay_of w2 (tier (bo_op_type op)) <= sequence c2 - sequence c1) ∧
  (∃ w', for_each operations (λ op, execute_single_op (bo_op_type op) (bo_data op)) c2 w2 = Ok tt w' ∧
         persistent w3 = persistent (drop_batch i w')) ∧
  ∀ w4 c4 b w5, tl_future w3 w4 → execute_batch i c4 w4 ≠ Ok b w5.
Proof.
  intros Hc E1 Hf Hr E2. destruct (propose_batch_fate _ _ _ _ _ Hc E1) as (admin & Hfate).
  destruct (batch_fate_future _ _ _ _ _ Hf Hfate) as [Hi Hcases].
  destruct (execute_batch_inv _ _ _ _ _ E2) as (b & wx & Hb & Hd & Hops & Hk & Hw).
  destruct Hcases as [Hn|[Hp Hs]]; [by rewrite Hn in Hb|].
  rewrite Hb in Hp. injection Hp as ->. cbn [pbt_proposed_ledger pbt_operations] in *.
  specialize (Hd Hr). rewrite Hs in Hd. cbn [from_option id] in Hd. split_and!.
  - intros op Hop. pose proof (batch_delay_covers w _ _ Hop). pose proof (batch_delay_covers w2 _ _ Hop). lia.
  - by exists wx.
  - intros w4 c4 b w5 Hf4 E5.
    destruct (execute_batch_inv _ _ _ _ _ E5) as (b' & _ & Hb' & _).
    rewrite (batch_gone_future i w3 w4 Hf4) in Hb'; [done| |].
    + unfold batch_count in *. rewrite Hw. unfold drop_batch. read_store. by rewrite Hk.
    + rewrite Hw. unfold drop_batch. by read_store.
Qed.

(** Expiry is not enforced and starts where execution does: every
    successful execution happens at or after the ledger
    [operation_expiry_ledger] reports, so an operation is executable only
    once it is due to expire, and expired operations still execute. *)
Theorem executions_are_expired `{BuildProfile} i c w a w' op :
  persistent w (KeyTlPendingOp i) = Some op →
  in_u32 (sequence c - po_proposed_ledger op) → in_u32 (sequence c) →
  execute_operation i c w = Ok a w' →
  ∃ expiry, operation_expiry_ledger i c w = Ok (Some expiry) w ∧ expiry <= sequence c ∧
    is_operation_expired i c w = Ok (expiry <? sequence c) w.
Proof.
  intros Hop Hr Hc E. destruct (execute_op_inv _ _ _ _ _ E) as (op' & adm & Hop' & _ & _ & Hd & _).
  rewrite Hop in Hop'. injection Hop' as <-. specialize (Hd Hr).
  set (e := sat_u32 (po_proposed_ledger op + Z.max (delay_of w (po_priority op))
    (default 0 (persistent w (KeyTlOpRequiredDelay i))))).
  assert (operation_expiry_ledger i c w = Ok (Some e) w) as He.
  { unfold operation_expiry_ledger. rewrite run_bind, run_get, Hop.
    by rewrite run_bind, run_get_or, run_bind, run_priority_delay. }
  exists e. split_and!; [done| |].
  - subst e. unfold sat_u32, clampZ, in_u32 in *. lia.
  - unfold is_operation_expired. by rewrite run_bind, He, run_bind.
Qed.

(** *** Concrete runs *)

Definition tl_ctx (ledger : Z) : Ctx := MkCtx ledger 1000 (λ _, true) 99%N.

Definition proposed_world : World :=
  invoke (_ ← @propose_operation_with_priority OverflowChecks OpSetDecimals [] PrioUrgent; mret tt)
    (tl_ctx 10) base_world.

Lemma operation_waits_once_witness :
  delay_of base_world PrioUrgent <= sequence (tl_ctx 12) - sequence (tl_ctx 10).
Proof.
  set (w3 := invoke (@execute_operation OverflowChecks 1) (tl_ctx 12) proposed_world).
  assert (@propose_operation_with_priority OverflowChecks OpSetDecimals [] PrioUrgent (tl_ctx 10) base_world =
    Ok 1 proposed_world) as E1 by (vm_compute; reflexivity).
  assert (@execute_operation OverflowChecks 1 (tl_ctx 12) proposed_world = Ok tt w3) as E2
    by (apply run_succeeds; vm_compute; reflexivity).
  assert (0 <= op_count base_world < U32_MAX) as Hc by (split; [vm_compute; discriminate|reflexivity]).
  assert (in_u32 (sequence (tl_ctx 12) - sequence (tl_ctx 10))) as Hr by (split; vm_compute; discriminate).
  exact (proj1 (@operation_waits_once OverflowChecks _ _ _ _ _ _ _ _ _ _ _ Hc E1
    (tl_now proposed_world) Hr E2)).
Defined.

(** A batch that sets the number of required sources to 0 and the decimals to
    255. *)
Definition bad_batch : list BatchOperation :=
  [MkBatchOperation 2 [0; 0; 0; 0]; MkBatchOperation 5 [0; 0; 0; 255]].

Definition batched_world : World :=
  invoke (_ ← @propose_batch OverflowChecks bad_batch; mret tt) (tl_ctx 10) base_world.

Lemma batch_waits_once_witness :
  Forall (λ op, delay_of base_world (tier (bo_op_type op)) <= sequence (tl_ctx 30) - sequence (tl_ctx 10))
    bad_batch.
Proof.
  set (w3 := invoke (@execute_batch OverflowChecks 1) (tl_ctx 30) batched_world).
  assert (@propose_batch OverflowChecks bad_batch (tl_ctx 10) base_world = Ok 1 batched_world) as E1
    by (vm_compute; reflexivity).
  assert (@execute_batch OverflowChecks 1 (tl_ctx 30) batched_world = Ok tt w3) as E2
    by (apply run_succeeds; vm_compute; reflexivity).
  assert (0 <= batch_count base_world < U32_MAX) as Hc by (split; [vm_compute; discriminate|reflexivity]).
  assert (in_u32 (sequence (tl_ctx 30) - sequence (tl_ctx 10))) as Hr by (split; vm_compute; discriminate).
  apply list.Forall_forall. intros op Hop.
  exact (proj1 (proj1 (@batch_waits_once OverflowChecks _ _ _ _ _ _ _ _ _ Hc E1
    (tl_now batched_world) Hr E2) op Hop)).
Defined.

Lemma executions_are_expired_witness :
  ∃ expiry, @operation_expiry_ledger 1 (tl_ctx 12) proposed_world = Ok (Some expiry) proposed_world ∧
    expiry <= 12.
Proof.
  set (w3 := invoke (@execute_operation OverflowChecks 1) (tl_ctx 12) proposed_world).
  assert (@execute_operation OverflowChecks 1 (tl_ctx 12) proposed_world = Ok tt w3) as E2
    by (apply run_succeeds; vm_compute; reflexivity).
  assert (persistent proposed_world (KeyTlPendingOp 1) =
    Some (MkPendingOperation 1 OpSetDecimals 7%N 10 [] PrioUrgent)) as Hop by (vm_compute; reflexivity).
  assert (in_u32 (sequence (tl_ctx 12) - 10)) as Hr by (split; vm_compute; discriminate).
  assert (in_u32 (sequence (tl_ctx 12))) as Hs by (split; vm_compute; discriminate).
  destruct (@executions_are_expired OverflowChecks 1 (tl_ctx 12) proposed_world tt w3 _ Hop Hr Hs E2)
    as (e & He & Hle & _). exists e. split; [exact He|exact Hle].
Defined.

(** Batches bypass the bounds of the setters: a value that the direct
    setters refuse with [InvalidConfiguration] is accepted in a batch, which
    leaves the contract with no required sources and 255 decimals. *)
Theorem batch_bypasses_bounds :
  let w := invoke (@execute_batch OverflowChecks 1) (tl_ctx 30) batched_world in
  @set_min_sources_required OverflowChecks toy_crypto 0 (tl_ctx 10) base_world =
    Err (Error InvalidConfiguration) ∧
  @set_decimals OverflowChecks toy_crypto 255 (tl_ctx 10) base_world =
    Err (Error InvalidConfiguration) ∧
  persistent w KeyCfgMinSources = Some 0 ∧ persistent w KeyCfgDecimals = Some 255.
Proof. vm_compute. split_and!; reflexivity. Qed.
