(* ===== verification/AuditReports.v ===== *)
(** * [audit_log.rs] and [storage.rs]: reports over the retained records

    The conformance scorecard of a source, the completeness check of a
    governance cycle, incident bundles and rewards, all computed from the audit
    log of [AuditLog.v]; and the list of known storage entries. *)
From stdpp Require Import base list strings.
From S2P Require Import Prelude Machine Types Host AuditLog Config Admin Assets Frames.
#[local] Open Scope Z_scope.
#[local] Set Default Goal Selector "!".

(** ** The conformance scorecard *)

(** [ScorecardWindow] of this module: inclusive ledgers and seconds. *)
Record ConformanceWindow := MkConformanceWindow {
  cw_from_ledger : Z;
  cw_to_ledger : Z;
  cw_from_timestamp : Z;
  cw_to_timestamp : Z
}.

Record SourceConformanceScorecard := MkSourceConformanceScorecard {
  scf_source : Address;
  scf_window : ConformanceWindow;
  scf_has_data : bool;
  scf_total_submissions : Z;
  scf_schema_valid : Z;
  scf_schema_invalid : Z;
  scf_timestamp_valid : Z;
  scf_timestamp_invalid : Z;
  scf_accepted : Z;
  scf_rejected : Z;
  scf_max_continuity_gap : Z;
  scf_continuity_breaks : Z
}.

Definition empty_scorecard (source : Address) (window : ConformanceWindow) : SourceConformanceScorecard :=
  MkSourceConformanceScorecard source window false 0 0 0 0 0 0 0 0 0.

Definition in_window (source : Address) (window : ConformanceWindow) (entry : AuditEntry) : bool :=
  bool_decide (ae_admin entry = source)
  && ((cw_from_ledger window <=? ae_ledger entry) && (ae_ledger entry <=? cw_to_ledger window))
  && ((cw_from_timestamp window <=? ae_timestamp entry) && (ae_timestamp entry <=? cw_to_timestamp window)).

Section Reports.
Context `{BP : BuildProfile}.

(** [+= 1] of the counter a condition selects. *)
Definition count_if (b : bool) (n : Z) : option Z := if b then u32 (n + 1) else Some n.

Definition score_entry (window : ConformanceWindow) (max_expected_gap : Z) (last_ledger : option Z)
    (s : SourceConformanceScorecard) (entry : AuditEntry) : option SourceConformanceScorecard :=
  total ← u32 (scf_total_submissions s + 1);
  let schema_ok := bool_decide (ae_data entry ≠ []) in
  schema_valid ← count_if schema_ok (scf_schema_valid s);
  schema_invalid ← count_if (negb schema_ok) (scf_schema_invalid s);
  let timestamp_ok := negb (ae_timestamp entry =? 0)
    && (cw_from_timestamp window <=? ae_timestamp entry) && (ae_timestamp entry <=? cw_to_timestamp window) in
  timestamp_valid ← count_if timestamp_ok (scf_timestamp_valid s);
  timestamp_invalid ← count_if (negb timestamp_ok) (scf_timestamp_invalid s);
  accepted ← count_if (schema_ok && timestamp_ok) (scf_accepted s);
  rejected ← count_if (negb (schema_ok && timestamp_ok)) (scf_rejected s);
  let gap := match last_ledger with Some prev => sat_u32 (ae_ledger entry - prev) | None => 0 end in
  let broken := match last_ledger with Some _ => max_expected_gap <? gap | None => false end in
  breaks ← count_if broken (scf_continuity_breaks s);
  Some (MkSourceConformanceScorecard (scf_source s) (scf_window s) true total schema_valid schema_invalid
          timestamp_valid timestamp_invalid accepted rejected (Z.max (scf_max_continuity_gap s) gap) breaks).

Definition score_step (source : Address) (window : ConformanceWindow) (max_expected_gap : Z)
    (acc : SourceConformanceScorecard * option Z) (i : Z) : M (SourceConformanceScorecard * option Z) :=
  let '(s, last_ledger) := acc in
  entry ← get (KeyAuditEntry i);
  match (entry : option AuditEntry) with
  | Some entry =>
      if in_window source window entry then
        s ← lift (score_entry window max_expected_gap last_ledger s entry);
        mret (s, Some (ae_ledger entry))
      else mret acc
  | None => mret acc
  end.

Definition compute_source_conformance_scorecard (source : Address) (window : ConformanceWindow)
    (max_expected_gap : Z) : M SourceConformanceScorecard :=
  entry_count ← get_or KeyAuditEntryCount 0;
  '(scorecard, _) ←
    fold_m (score_step source window max_expected_gap) (empty_scorecard source window, None)
      (seqZ 1 entry_count);
  mret scorecard.

(** ** Governance cycles *)

Inductive GovernanceAuditFailure := FailureNone | FailureMissingEvent | FailureMalformedEvent | FailureUnlinkedEvent.

(** The first entry that is missing, malformed or misnumbered, or the actions
    of all entries. *)
Fixpoint cycle_actions (n : nat) (i : Z) (expected_admin : Address) (seen : list string)
    : M (GovernanceAuditFailure + list string) :=
  match n with
  | O => mret (inr seen)
  | S n =>
      entry ← get (KeyAuditEntry i);
      match (entry : option AuditEntry) with
      | None => mret (inl FailureMissingEvent)
      | Some entry =>
          if bool_decide (ae_action entry = ""%string) || (ae_timestamp entry =? 0)
             || bool_decide (ae_admin entry ≠ expected_admin)
          then mret (inl FailureMalformedEvent)
          else if negb (ae_id entry =? i) then mret (inl FailureUnlinkedEvent)
          else cycle_actions n (i + 1) expected_admin (seen ++ [ae_action entry])
      end
  end.

Definition audit_governance_cycle `{Crypto} (expected_actions : list string) (expected_admin : Address)
    (approval_count : Z) : M GovernanceAuditFailure :=
  let expected := Z.of_nat (length expected_actions) in
  if (expected =? 0) && (approval_count =? 0) then mret FailureNone
  else
    valid ← verify_audit_chain;
    if negb valid then mret FailureUnlinkedEvent
    else
      entry_count ← get_audit_log_count;
      if negb (approval_count =? expected) then mret FailureMissingEvent
      else
        seen ← cycle_actions (Z.to_nat entry_count) 1 expected_admin [];
        match seen with
        | inl failure => mret failure
        | inr seen =>
            mret (if forallb (λ action, bool_decide (action ∈ seen)) expected_actions
                  then FailureNone else FailureMissingEvent)
        end.

(** ** Incident bundles and rewards *)

(** [Symbol::to_xdr] of the host. *)
Class SymbolXdr := symbol_to_xdr : string → Bytes.

(** [b"INCIDENT_BUNDLE_V1"] *)
Definition BUNDLE_TAG : Bytes :=
  [73; 78; 67; 73; 68; 69; 78; 84; 95; 66; 85; 78; 68; 76; 69; 95; 86; 49].

(** An entry without its administrator and data. *)
Definition redacted_entry `{SymbolXdr} (entry : AuditEntry) : Bytes :=
  to_le_bytes 4 (ae_id entry) ++ symbol_to_xdr (ae_action entry) ++ to_le_bytes 8 (ae_timestamp entry)
  ++ to_le_bytes 4 (ae_ledger entry) ++ ae_previous_hash entry ++ ae_current_hash entry.

Definition bundle_step `{SymbolXdr} (bundle : Bytes) (i : Z) : M Bytes :=
  entry ← get (KeyAuditEntry i);
  mret (match (entry : option AuditEntry) with Some entry => bundle ++ redacted_entry entry | None => bundle end).

(** [while i <= end_id && i <= entry_count] *)
Definition id_range (first last : Z) : list Z := seqZ first (last - first + 1).

Definition collect_incident_bundle `{Crypto} `{SymbolXdr} (from_id to_id : Z) (source_version : string)
    : M Bytes :=
  entry_count ← get_audit_log_count;
  let start_id := if from_id =? 0 then 1 else from_id in
  let end_id := if to_id =? 0 then entry_count else to_id in
  head ← get_audit_log_head;
  valid ← verify_audit_chain;
  fold_m bundle_step
    (BUNDLE_TAG ++ symbol_to_xdr source_version ++ to_le_bytes 4 start_id ++ to_le_bytes 4 end_id
     ++ head ++ [if valid : bool then 1 else 0])
    (id_range start_id (Z.min end_id entry_count)).

Definition reward_weight (entry : AuditEntry) : option Z := u64 (1 + Z.of_nat (length (ae_data entry))).

Definition reward_step (admin : Address) (total : Z) (i : Z) : M Z :=
  entry ← get (KeyAuditEntry i);
  match (entry : option AuditEntry) with
  | Some entry =>
      if bool_decide (ae_admin entry = admin)
      then weight ← lift (reward_weight entry); mret (sat_u64 (total + weight))
      else mret total
  | None => mret total
  end.

Definition compute_source_reward (admin : Address) (from_id to_id : Z) : M Z :=
  entry_count ← get_or KeyAuditEntryCount 0;
  let start_id := if from_id =? 0 then 1 else from_id in
  let end_id := if (to_id =? 0) || (entry_count <? to_id) then entry_count else to_id in
  fold_m (reward_step admin) 0 (id_range start_id end_id).
End Reports.

(** ** Known storage entries *)

(** The remaining lifetime is reported as zero. *)
Record StorageTtlEntry := MkStorageTtlEntry { ste_key : string; ste_exists : bool; ste_remaining_ttl : Z }.

Definition history_status (asset : Address) (out : list StorageTtlEntry) (ledger : Z) : M (list StorageTtlEntry) :=
  known ← has_temporary (KeyPriceHistory asset ledger);
  mret (out ++ [MkStorageTtlEntry "PriceHistory" known 0]).

Definition asset_status (out : list StorageTtlEntry) (asset : Address) : M (list StorageTtlEntry) :=
  known ← has (KeyAggregate asset);
  ledgers ← get (KeyPriceHistoryLedgers asset);
  fold_m (history_status asset) (out ++ [MkStorageTtlEntry "Aggregate" known 0])
    (default [] (ledgers : option (list Z))).

Definition get_storage_ttl_status : M (list StorageTtlEntry) :=
  assets_known ← has KeyAssetRegistry;
  sources_known ← has KeySrcRegistry;
  assets ← read_registered_assets;
  fold_m asset_status
    [MkStorageTtlEntry "AssetRegistry" assets_known 0; MkStorageTtlEntry "SrcRegistry" sources_known 0] assets.
