(* ===== verification/EmergencyPause.v ===== *)
(** * [reentrancy.rs] and [emergency_pause.rs]: the entry lock and the emergency pause

    The lock is one flag in temporary storage: an entry point takes it, runs
    its body and releases it.  The emergency pause sets the ordinary pause flag
    together with a record of when it is to end. *)
From stdpp Require Import base list strings.
From S2P Require Import Prelude Machine Types Host AuditLog Config Admin Assets Frames.
#[local] Open Scope Z_scope.
#[local] Set Default Goal Selector "!".

(** ** The lock *)

Definition enter : M unit :=
  entered ← get_temporary_or KeyReentrancyGuard false;
  panic_if entered Reentrant;;
  set_temporary KeyReentrancyGuard true.

Definition exit : M unit := remove_temporary KeyReentrancyGuard.

(** What almost every guarded entry point is: [enter], the call, [exit]. *)
Definition guarded {A} (m : M A) : M A :=
  enter;;
  result ← m;
  exit;;
  mret result.

(** ** The emergency pause *)

Section EmergencyPause.
Context `{BP : BuildProfile} `{CR : Crypto}.

Definition emergency_pause (reason : string) (auto_unpause_ledgers : Z) : M unit :=
  admin ← get_admin;
  require_auth admin;;
  panic_if (256 <? Z.of_nat (String.length reason)) ReasonTooLong;;
  current_ledger ← ledger_sequence;
  auto_unpause_ledger ← lift (u32 (current_ledger + auto_unpause_ledgers));
  Flags.mark Flags.PAUSE;;
  set KeyCfgPauseFlag true;;
  set KeyEmergencyPauseActive true;;
  set KeyEmergencyPauseEntry
    {| epa_initiated_by := admin; epa_reason := reason; epa_initiated_ledger := current_ledger;
       epa_auto_unpause_ledger := auto_unpause_ledger |};;
  set KeyEmergencyPauseReason reason;;
  publish (MkEmergencyPausedEvent admin auto_unpause_ledger reason admin);;
  emit_admin_action "emgp" admin [].

(** [get(..).ok_or_else(|| panic_with_error!(..)).unwrap()] *)
Definition active_emergency : M EmergencyPause :=
  pause ← get KeyEmergencyPauseEntry;
  match pause with Some pause => mret pause | None => panic_with_error InvalidConfiguration end.

Definition extend_emergency_pause (additional_ledgers : Z) : M unit :=
  admin ← get_admin;
  require_auth admin;;
  pause ← active_emergency;
  current_ledger ← ledger_sequence;
  panic_if (epa_auto_unpause_ledger pause <=? current_ledger) InvalidConfiguration;;
  extended ← lift (u32 (epa_auto_unpause_ledger pause + additional_ledgers));
  set KeyEmergencyPauseEntry
    {| epa_initiated_by := epa_initiated_by pause; epa_reason := epa_reason pause;
       epa_initiated_ledger := epa_initiated_ledger pause; epa_auto_unpause_ledger := extended |};;
  publish (MkEmergencyPauseExtendedEvent admin extended (epa_reason pause) admin);;
  emit_admin_action "extep" admin [].

Definition clear_emergency : M unit :=
  remove KeyEmergencyPauseActive;;
  remove KeyEmergencyPauseEntry;;
  remove KeyEmergencyPauseReason.

Definition cancel_emergency_pause : M unit :=
  admin ← get_admin;
  require_auth admin;;
  pause ← active_emergency;
  clear_emergency;;
  set KeyCfgPauseFlag false;;
  publish (MkEmergencyUnpausedEvent admin (epa_reason pause) admin);;
  emit_admin_action "cnlep" admin [].
End EmergencyPause.

Definition auto_unpause_if_due : M unit :=
  active ← get_or KeyEmergencyPauseActive false;
  if negb active then mret tt
  else
    pause ← get KeyEmergencyPauseEntry;
    match pause with
    | Some pause =>
        current_ledger ← ledger_sequence;
        if epa_auto_unpause_ledger pause <=? current_ledger then
          set KeyCfgPauseFlag false;;
          clear_emergency
        else mret tt
    | None => mret tt
    end.

Definition is_emergency_pause_active : M bool := get_or KeyEmergencyPauseActive false.
Definition get_emergency_pause : M (option EmergencyPause) := get KeyEmergencyPauseEntry.
