(* ===== verification/Challenger.v ===== *)
(** * [challenger.rs]: challenging a published price

    Anyone opens a challenge, within caps per challenger and per asset; the
    administrator decides it, which credits a reward or a strike.  Rewards are
    numbers: claiming one moves no token. *)
From stdpp Require Import base list strings.
From S2P Require Import Prelude Machine Types Host AuditLog Config Admin Assets Frames.
#[local] Open Scope Z_scope.
#[local] Set Default Goal Selector "!".

Definition MAX_OPEN_CHALLENGES_PER_CHALLENGER : Z := 3.
Definition MAX_OPEN_CHALLENGES_PER_ASSET : Z := 5.
Definition MAX_CHALLENGER_STRIKES : Z := 3.

(** [read_u32] and [write_u32], whose zero is the missing entry, at the three
    counters they are used for. *)
Definition read_strikes (challenger : Address) : M Z := get_or (KeyChallengerStrikes challenger) 0.
Definition read_challenger_open (challenger : Address) : M Z := get_or (KeyChallengerOpenCount challenger) 0.
Definition read_asset_open (asset : Address) : M Z := get_or (KeyAssetOpenChallenges asset) 0.
Definition write_strikes (challenger : Address) (value : Z) : M unit :=
  if value =? 0 then remove (KeyChallengerStrikes challenger) else set (KeyChallengerStrikes challenger) value.
Definition write_challenger_open (challenger : Address) (value : Z) : M unit :=
  if value =? 0 then remove (KeyChallengerOpenCount challenger)
  else set (KeyChallengerOpenCount challenger) value.
Definition write_asset_open (asset : Address) (value : Z) : M unit :=
  if value =? 0 then remove (KeyAssetOpenChallenges asset) else set (KeyAssetOpenChallenges asset) value.

Section Challenger.
Context `{BP : BuildProfile} `{CR : Crypto}.

(** One more open challenge, within the caps. *)
Definition count_challenge (challenger asset : Address) : M unit :=
  strikes ← read_strikes challenger;
  panic_if (MAX_CHALLENGER_STRIKES <=? strikes) NotAuthorized;;
  challenger_open ← read_challenger_open challenger;
  asset_open ← read_asset_open asset;
  panic_if ((MAX_OPEN_CHALLENGES_PER_CHALLENGER <=? challenger_open)
            || (MAX_OPEN_CHALLENGES_PER_ASSET <=? asset_open)) RateLimitExceeded;;
  more ← lift (u32 (challenger_open + 1));
  write_challenger_open challenger more;;
  more ← lift (u32 (asset_open + 1));
  write_asset_open asset more.

Definition challenge_price (challenger asset : Address) (expected_price : Z) (proof_data : Bytes) : M unit :=
  require_auth challenger;;
  check_registered_asset asset;;
  panic_if (expected_price <=? 0) InvalidPrice;;
  count_challenge challenger asset;;
  current_ledger ← ledger_sequence;
  challenge_count ← get_or KeyChallengeCount 0;
  challenge_id ← lift (u32 (challenge_count + 1));
  set (KeyChallenge challenge_id)
    {| ch_id := challenge_id; ch_asset := asset; ch_challenger := challenger;
       ch_expected_price := expected_price; ch_proof_data := proof_data;
       ch_challenged_ledger := current_ledger; ch_is_resolved := false; ch_is_valid := false;
       ch_reward_amount := 0 |};;
  set KeyChallengeCount challenge_id;;
  publish (MkChallengePricedEvent asset challenger challenge_id expected_price current_ledger);;
  emit_admin_action "chall" challenger proof_data.

(** A thousandth of the claimed price, at least one. *)
Definition reward_of (expected_price : Z) : Z :=
  let base_reward := Z.quot expected_price 1000 in if 0 <? base_reward then base_reward else 1.

(** The consequence for the challenger; the reward the challenge records. *)
Definition settle_challenge (challenge : Challenge) (is_valid : bool) : M Z :=
  let challenger := ch_challenger challenge in
  if is_valid then
    rewards ← get_or (KeyChallengerRewards challenger) 0;
    total ← lift (i128 (rewards + reward_of (ch_expected_price challenge)));
    set (KeyChallengerRewards challenger) total;;
    mret (reward_of (ch_expected_price challenge))
  else
    strikes ← read_strikes challenger;
    more ← lift (u32 (strikes + 1));
    write_strikes challenger more;;
    rewards ← get_or (KeyChallengerRewards challenger) 0;
    left_over ← lift (i128 (rewards - Z.max (Z.quot (ch_expected_price challenge) 1000) 1));
    set (KeyChallengerRewards challenger) (Z.max left_over 0);;
    mret (ch_reward_amount challenge).

Definition resolve_challenge (challenge_id : Z) (is_valid : bool) : M unit :=
  admin ← get_admin;
  require_auth admin;;
  challenge ← get (KeyChallenge challenge_id);
  match (challenge : option Challenge) with
  | None => panic_with_error OperationNotFound
  | Some challenge =>
      panic_if (ch_is_resolved challenge) InvalidConfiguration;;
      open_count ← read_challenger_open (ch_challenger challenge);
      write_challenger_open (ch_challenger challenge) (sat_u32 (open_count - 1));;
      open_count ← read_asset_open (ch_asset challenge);
      write_asset_open (ch_asset challenge) (sat_u32 (open_count - 1));;
      reward_amount ← settle_challenge challenge is_valid;
      set (KeyChallenge challenge_id)
        {| ch_id := ch_id challenge; ch_asset := ch_asset challenge;
           ch_challenger := ch_challenger challenge; ch_expected_price := ch_expected_price challenge;
           ch_proof_data := ch_proof_data challenge;
           ch_challenged_ledger := ch_challenged_ledger challenge; ch_is_resolved := true;
           ch_is_valid := is_valid; ch_reward_amount := reward_amount |};;
      publish (MkChallengeResolvedEvent (ch_asset challenge) challenge_id is_valid reward_amount admin);;
      emit_admin_action "resch" admin []
  end.

Definition claim_rewards (claimer : Address) : M Z :=
  require_auth claimer;;
  rewards ← get_or (KeyChallengerRewards claimer) 0;
  if rewards =? 0 then mret 0
  else
    remove (KeyChallengerRewards claimer);;
    publish (MkRewardsClaimedEvent claimer rewards);;
    emit_admin_action "claim" claimer [];;
    mret rewards.
End Challenger.

(** [while i > 0 && returned < effective_limit]; the fuel is the counter. *)
Fixpoint challenges_from (fuel : nat) (asset : Address) (i effective_limit returned : Z)
    (results : list Challenge) : M (list Challenge) :=
  match fuel with
  | O => mret results
  | S fuel =>
      if (i <=? 0) || (effective_limit <=? returned) then mret results
      else
        challenge ← get (KeyChallenge i);
        match (challenge : option Challenge) with
        | Some challenge =>
            if bool_decide (ch_asset challenge = asset)
            then challenges_from fuel asset (i - 1) effective_limit (returned + 1) (results ++ [challenge])
            else challenges_from fuel asset (i - 1) effective_limit returned results
        | None => challenges_from fuel asset (i - 1) effective_limit returned results
        end
  end.

Definition get_challenge_history (asset : Address) (limit : Z) : M (list Challenge) :=
  check_registered_asset asset;;
  let effective_limit := if (limit =? 0) || (100 <? limit) then 100 else limit in
  challenge_count ← get_or KeyChallengeCount 0;
  challenges_from (Z.to_nat challenge_count) asset challenge_count effective_limit 0 [].

Definition get_open_challenge_count (asset : Address) : M Z := read_asset_open asset.
Definition get_challenger_rewards (challenger : Address) : M Z := get_or (KeyChallengerRewards challenger) 0.
