(* ===== verification/Optimistic.v ===== *)
(** * [optimistic.rs]: prices proposed, disputed and finalized

    Anyone proposes a price with a bond; undisputed for the window it becomes
    the aggregate, disputed it waits for the administrator and is rejected
    when nobody decides.  Finalization happens inside the next call that looks
    at the proposal. *)
From stdpp Require Import base list strings.
From S2P Require Import Prelude Machine Types Host AuditLog Config Admin Assets History Frames SourceGuards.
#[local] Open Scope Z_scope.
#[local] Set Default Goal Selector "!".

Definition DEFAULT_DISPUTE_WINDOW : Z := 120.
Definition DEFAULT_MIN_BOND : Z := 100000000.
Definition MAX_DISPUTE_DURATION : Z := 17280.

Definition read_dispute_window : M Z := get_or KeyCfgOptimisticDisputeWindow DEFAULT_DISPUTE_WINDOW.
Definition read_min_bond : M Z := get_or KeyCfgOptimisticMinBond DEFAULT_MIN_BOND.
Definition read_proposal_count : M Z := get_or KeyOptimisticProposalCount 0.
Definition write_proposal_count (count : Z) : M unit := set KeyOptimisticProposalCount count.
Definition write_proposal (proposal : OptimisticProposal) : M unit :=
  set (KeyOptimisticProposal (op_id proposal)) proposal.
Definition read_proposal (proposal_id : Z) : M (option OptimisticProposal) :=
  get (KeyOptimisticProposal proposal_id).

(** The status of a proposal, its dispute and its outcome; the rest stays. *)
Definition with_status (proposal : OptimisticProposal) (status : OptimisticProposalStatus)
    (disputed resolved : bool) (resolution : Z) (disputer : option Address) : OptimisticProposal :=
  {| op_id := op_id proposal; op_asset := op_asset proposal; op_proposer := op_proposer proposal;
     op_price := op_price proposal; op_timestamp := op_timestamp proposal;
     op_bond_amount := op_bond_amount proposal; op_dispute_window := op_dispute_window proposal;
     op_expires_at_ledger := op_expires_at_ledger proposal;
     op_status := OptimisticProposalStatus_as_u32 status; op_disputed := disputed;
     op_resolved := resolved; op_resolution := resolution; op_disputer := disputer |}.

Definition resolved_as (proposal : OptimisticProposal) (status : OptimisticProposalStatus) (resolution : Z)
    : OptimisticProposal :=
  with_status proposal status (op_disputed proposal) true resolution (op_disputer proposal).

Definition has_status (proposal : OptimisticProposal) (status : OptimisticProposalStatus) : bool :=
  op_status proposal =? OptimisticProposalStatus_as_u32 status.

Section Optimistic.
Context `{BP : BuildProfile}.

(** [while ledger_list.len() > max_history] *)
Fixpoint drop_oldest (asset : Address) (max_history : Z) (ledger_list : list Z) : M (list Z) :=
  match ledger_list with
  | [] => mret []
  | oldest :: rest =>
      if Z.of_nat (length ledger_list) <=? max_history then mret ledger_list
      else
        remove_temporary (KeyPriceHistory asset oldest);;
        remove_history_shard_entry asset oldest;;
        drop_oldest asset max_history rest
  end.

Definition write_snapshot_history (asset : Address) (entry : PriceHistoryEntry) (current_ledger : Z) : M unit :=
  let ledgers_key := KeyPriceHistoryLedgers asset in
  ledger_list ← get_or ledgers_key [];
  skip ← should_skip_on_write asset (he_price entry);
  ledger_list ←
    (if skip : bool then mret (ledger_list : list Z)
     else
       set_temporary (KeyPriceHistory asset current_ledger) entry;;
       write_history_shard asset entry;;
       mret (if bool_decide (last (ledger_list : list Z) = Some current_ledger) then ledger_list
             else ledger_list ++ [current_ledger]));
  max_history ← get_max_history_length;
  ledger_list ← drop_oldest asset max_history ledger_list;
  set ledgers_key ledger_list.

Definition write_price_snapshot (asset : Address) (price timestamp num_sources current_ledger decimals : Z)
    : M unit :=
  prev ← get (KeyAggregate asset);
  let version :=
    match (prev : option AggregatePrice) with
    | Some a => if price =? ap_price a then ap_version a else sat_u32 (ap_version a + 1)
    | None => 0
    end in
  put (KeyAggregate asset) (MkAggregatePrice price timestamp num_sources decimals false version);;
  write_snapshot_history asset (MkPriceHistoryEntry price timestamp current_ledger num_sources false)
    current_ledger.

(** Publishes what a proposal proposes. *)
Definition publish_proposal (asset : Address) (price timestamp : Z) : M unit :=
  current_ledger ← ledger_sequence;
  decimals ← get_decimals;
  write_price_snapshot asset price timestamp 1 current_ledger decimals.

Definition finalize_if_expired (proposal : OptimisticProposal) : M OptimisticProposal :=
  current_ledger ← ledger_sequence;
  if has_status proposal ProposalDisputed then
    if current_ledger <? sat_u32 (op_expires_at_ledger proposal + MAX_DISPUTE_DURATION) then mret proposal
    else
      let rejected := resolved_as proposal ProposalResolved 2 in
      write_proposal rejected;;
      mret rejected
  else if negb (has_status proposal ProposalPending) then mret proposal
  else if current_ledger <? op_expires_at_ledger proposal then mret proposal
  else
    let finalized := resolved_as proposal ProposalFinalized 1 in
    write_proposal finalized;;
    publish_proposal (op_asset finalized) (op_price finalized) (op_timestamp finalized);;
    mret finalized.

Definition existing_proposal (proposal_id : Z) : M OptimisticProposal :=
  proposal ← read_proposal proposal_id;
  match proposal with Some proposal => mret proposal | None => panic_with_error ProposalNotFound end.

Definition propose_price (proposer asset : Address) (price timestamp bond_amount : Z) : M Z :=
  check_registered_asset asset;;
  panic_if (price <=? 0) InvalidPrice;;
  threshold ← get_timestamp_threshold;
  ledger_time ← ledger_timestamp;
  panic_if (sat_u64 (ledger_time + threshold) <? timestamp) InvalidTimestamp;;
  min_bond ← read_min_bond;
  panic_if (bond_amount <? min_bond) BondTooSmall;;
  require_auth proposer;;
  count ← read_proposal_count;
  proposal_id ← lift (u32 (count + 1));
  dispute_window ← read_dispute_window;
  current_ledger ← ledger_sequence;
  let expires_at_ledger := sat_u32 (current_ledger + dispute_window) in
  write_proposal_count proposal_id;;
  write_proposal
    {| op_id := proposal_id; op_asset := asset; op_proposer := proposer; op_price := price;
       op_timestamp := timestamp; op_bond_amount := bond_amount; op_dispute_window := dispute_window;
       op_expires_at_ledger := expires_at_ledger;
       op_status := OptimisticProposalStatus_as_u32 ProposalPending; op_disputed := false;
       op_resolved := false; op_resolution := 0; op_disputer := None |};;
  publish (MkPriceProposalCreatedEvent asset proposer proposal_id price timestamp bond_amount
             expires_at_ledger);;
  mret proposal_id.

Definition dispute_proposal (disputer : Address) (proposal_id : Z) : M unit :=
  require_auth disputer;;
  proposal ← existing_proposal proposal_id;
  proposal ← finalize_if_expired proposal;
  (if has_status proposal ProposalPending then mret tt
   else
     panic_if (has_status proposal ProposalDisputed) ProposalAlreadyDisputed;;
     panic_if (has_status proposal ProposalResolved || has_status proposal ProposalFinalized)
       ProposalAlreadyResolved);;
  current_ledger ← ledger_sequence;
  panic_if (op_expires_at_ledger proposal <=? current_ledger) ProposalExpired;;
  min_bond ← read_min_bond;
  panic_if (op_bond_amount proposal <? min_bond) BondTooSmall;;
  write_proposal (with_status proposal ProposalDisputed true (op_resolved proposal)
                    (op_resolution proposal) (Some disputer));;
  publish (MkPriceProposalDisputedEvent proposal_id disputer (op_bond_amount proposal)).

(** A proposal that is still in dispute. *)
Definition disputed_proposal (proposal_id : Z) : M OptimisticProposal :=
  proposal ← existing_proposal proposal_id;
  proposal ← finalize_if_expired proposal;
  panic_if (negb (op_disputed proposal)) ProposalNotDisputed;;
  panic_if (has_status proposal ProposalResolved || has_status proposal ProposalFinalized)
    ProposalAlreadyResolved;;
  mret proposal.

Definition resolve_dispute (proposal_id : Z) (resolution : bool) : M unit :=
  admin ← get_admin;
  require_auth admin;;
  proposal ← disputed_proposal proposal_id;
  (if resolution then publish_proposal (op_asset proposal) (op_price proposal) (op_timestamp proposal)
   else mret tt);;
  write_proposal (resolved_as proposal ProposalResolved (if resolution then 1 else 2));;
  publish (MkPriceProposalResolvedEvent proposal_id resolution resolution).

Definition get_proposal (proposal_id : Z) : M (option OptimisticProposal) :=
  proposal ← read_proposal proposal_id;
  match proposal with
  | None => mret None
  | Some proposal =>
      updated ← finalize_if_expired proposal;
      mret (if op_id updated =? op_id proposal then Some updated else None)
  end.

(** The bytes a data proof hashes. *)
Definition external_preimage `{Crypto} (source : Address) (external_price timestamp : Z) : Bytes :=
  address_to_xdr source ++ to_le_bytes 16 (as_u128 external_price) ++ to_le_bytes 8 timestamp.

Definition check_external_proof `{Crypto} (external_price : Z) (proof : ExternalDataProof) : M unit :=
  check_source (edp_source proof);;
  threshold ← get_timestamp_threshold;
  ledger_time ← ledger_timestamp;
  panic_if (sat_u64 (ledger_time + threshold) <? edp_timestamp proof) InvalidTimestamp;;
  panic_if (forallb (Z.eqb 0) (edp_signature proof)) InvalidExternalProof;;
  panic_if (bool_decide (sha256 (external_preimage (edp_source proof) external_price (edp_timestamp proof))
                         ≠ edp_data_hash proof)) InvalidExternalProof.

Definition resolve_via_external_data `{Crypto} (proposal_id external_price : Z) (proof : ExternalDataProof)
    : M unit :=
  admin ← get_admin;
  require_auth admin;;
  proposal ← disputed_proposal proposal_id;
  check_external_proof external_price proof;;
  publish_proposal (op_asset proposal) external_price (edp_timestamp proof);;
  write_proposal (resolved_as proposal ProposalResolved 1);;
  publish (MkExternalDataResolvedEvent proposal_id external_price admin).

Definition active_proposal (active : list OptimisticProposal) (id : Z) : M (list OptimisticProposal) :=
  proposal ← read_proposal id;
  match proposal with
  | None => mret active
  | Some proposal =>
      proposal ← finalize_if_expired proposal;
      mret (if has_status proposal ProposalPending || has_status proposal ProposalDisputed
            then active ++ [proposal] else active)
  end.

Definition get_active_proposals : M (list OptimisticProposal) :=
  count ← read_proposal_count;
  fold_m active_proposal [] (seqZ 1 count).
End Optimistic.
