(* ===== verification/Scheduling.v ===== *)
(** * [scheduling.rs] and the liveness of a source: submission schedules

    A source registers how often it submits an asset; [record_submission] and
    [check_liveness] measure the gap since the last recorded submission.  The
    first is called by nothing: [SourceSafety] and [Submission] show what a
    submission writes. *)
From stdpp Require Import base list strings.
From S2P Require Import Prelude Machine Types Host AuditLog Config Admin Assets Frames SourceGuards.
#[local] Open Scope Z_scope.
#[local] Set Default Goal Selector "!".

Definition write_schedule (schedule : SubmissionSchedule) : M unit :=
  put (KeySubmissionSchedule (sch_source schedule) (sch_asset schedule)) schedule.
Definition read_schedule (source asset : Address) : M (option SubmissionSchedule) :=
  get_touch (KeySubmissionSchedule source asset).
Definition write_last_submission (source asset : Address) (record : LastSubmissionRecord) : M unit :=
  put (KeyLastScheduledSubmission source asset) record.
Definition read_last_submission (source asset : Address) : M (option LastSubmissionRecord) :=
  get_touch (KeyLastScheduledSubmission source asset).

Definition schedule_kind (kind : Z) : option ScheduleKind :=
  if kind =? 0 then Some ScheduleEveryNLedgers else if kind =? 1 then Some ScheduleEveryNSeconds else None.

Definition register_schedule (source asset : Address) (kind interval deadline_multiplier : Z) : M unit :=
  require_auth source;;
  check_source source;;
  check_registered_asset asset;;
  panic_if ((interval =? 0) || (deadline_multiplier =? 0)) InvalidConfiguration;;
  match schedule_kind kind with
  | None => panic_with_error InvalidConfiguration
  | Some schedule_kind =>
      write_schedule (MkSubmissionSchedule source asset schedule_kind interval deadline_multiplier);;
      publish (ScheduleRegisteredEvent source asset kind interval deadline_multiplier)
  end.

(** What both removals do after their authorisation. *)
Definition drop_schedule (source asset : Address) : M unit :=
  known ← has (KeySubmissionSchedule source asset);
  panic_if (negb known) NoData;;
  remove (KeySubmissionSchedule source asset);;
  seen ← has (KeyLastScheduledSubmission source asset);
  (if seen : bool then remove (KeyLastScheduledSubmission source asset) else mret tt);;
  publish (MkScheduleRemovedEvent source asset).

Definition remove_schedule (source asset : Address) : M unit :=
  require_auth source;;
  drop_schedule source asset.

Definition admin_remove_schedule (source asset : Address) : M unit :=
  admin ← get_admin;
  require_auth admin;;
  drop_schedule source asset.

Definition get_schedule (source asset : Address) : M (option SubmissionSchedule) := read_schedule source asset.

(** The gap since [prev] and whether it is within the deadline. *)
Definition gap_since (schedule : SubmissionSchedule) (prev : LastSubmissionRecord)
    (current_ledger current_timestamp : Z) : bool * Z :=
  let deadline_interval := sat_u64 (sch_interval schedule * sch_deadline_multiplier schedule) in
  let gap :=
    match sch_kind schedule with
    | ScheduleEveryNLedgers => sat_u64 (current_ledger - lsr_ledger prev)
    | ScheduleEveryNSeconds => sat_u64 (current_timestamp - lsr_timestamp prev)
    end in
  (gap <=? deadline_interval, gap).

Definition report_violation (source asset : Address) (schedule : SubmissionSchedule) (on_time : bool) (gap : Z)
    : M unit :=
  if on_time then mret tt
  else publish (ScheduleViolationEvent source asset (sch_interval schedule) gap
                  (ScheduleKind_as_u32 (sch_kind schedule))).

Definition record_submission (source asset : Address) : M bool :=
  current_ledger ← ledger_sequence;
  current_timestamp ← ledger_timestamp;
  let now := MkLastSubmissionRecord current_ledger current_timestamp in
  schedule ← read_schedule source asset;
  match schedule with
  | None => write_last_submission source asset now;; mret true
  | Some schedule =>
      previous ← read_last_submission source asset;
      let '(on_time, gap) :=
        match previous with
        | None => (true, 0)
        | Some prev => gap_since schedule prev current_ledger current_timestamp
        end in
      write_last_submission source asset now;;
      report_violation source asset schedule on_time gap;;
      mret on_time
  end.

Definition check_liveness (source asset : Address) : M bool :=
  schedule ← read_schedule source asset;
  match schedule with
  | None => mret true
  | Some schedule =>
      previous ← read_last_submission source asset;
      match previous with
      | None => mret true
      | Some prev =>
          current_ledger ← ledger_sequence;
          current_timestamp ← ledger_timestamp;
          let '(on_time, gap) := gap_since schedule prev current_ledger current_timestamp in
          report_violation source asset schedule on_time gap;;
          mret on_time
      end
  end.

Definition get_last_submission (source asset : Address) : M (option LastSubmissionRecord) :=
  read_last_submission source asset.

(** [sources::check_source_liveness] *)
Definition check_source_liveness (source asset : Address) : M bool :=
  live ← check_liveness source asset;
  if negb live then mret false
  else
    entry ← get (KeySubmission asset source);
    match (entry : option PriceEntry) with
    | Some entry =>
        interval ← get_heartbeat_interval;
        now ← ledger_timestamp;
        mret (now <=? sat_u64 (pe_timestamp entry + interval))
    | None => mret true
    end.
