(* ===== verification/Reputation.v ===== *)
(** * [reputation.rs]: stakes, reputation and the slashing of stakes

    The parts of the module that stake, slash and sweep, and the reputation
    update that follows an aggregation.  Two modules keep a reputation under
    the same key with different defaults; the other one is in [Sources.v]. *)
From stdpp Require Import base list strings.
From S2P Require Import Prelude Machine Types Host AuditLog Config Admin Assets Frames SourceGuards Sources.
#[local] Open Scope Z_scope.
#[local] Set Default Goal Selector "!".

Definition INITIAL_REPUTATION : Z := 50.
Definition MAX_REPUTATION : Z := 100.
Definition MIN_REPUTATION : Z := 0.
Definition DEFAULT_DECAY_FACTOR : Z := 5.
Definition DEFAULT_SLASH_PERCENT : Z := 20.
Definition DEFAULT_SLASH_THRESHOLD : Z := 20.
Definition BPS_PRECISION : Z := 10000.

(** ** Settings *)

Definition set_stake_token_contract (token : Address) : M unit :=
  admin ← get_admin;
  require_auth admin;;
  set KeyStakeTokenContract token.

Definition set_decay_factor (factor : Z) : M unit :=
  admin ← get_admin;
  require_auth admin;;
  panic_if (100 <? factor) InvalidConfiguration;;
  set KeyReputationDecayFactor factor;;
  publish (MkReputationDecayChangedEvent factor).

Definition get_decay_factor : M Z := get_or KeyReputationDecayFactor DEFAULT_DECAY_FACTOR.

Definition set_slash_percent (percent : Z) : M unit :=
  admin ← get_admin;
  require_auth admin;;
  panic_if (100 <? percent) InvalidConfiguration;;
  set KeySlashPercent percent.

Definition get_slash_percent : M Z := get_or KeySlashPercent DEFAULT_SLASH_PERCENT.

Definition set_slash_threshold (threshold : Z) : M unit :=
  admin ← get_admin;
  require_auth admin;;
  panic_if (100 <? threshold) InvalidConfiguration;;
  set KeySlashReputationThreshold threshold.

Definition get_slash_threshold : M Z := get_or KeySlashReputationThreshold DEFAULT_SLASH_THRESHOLD.

(** ** Stakes *)

Definition get_stake_record (source : Address) : M SourceStakeRecord :=
  current_ledger ← ledger_sequence;
  get_or (KeySourceStake source) (MkSourceStakeRecord 0 current_ledger).

Definition get_stake (source : Address) : M Z :=
  record ← get (KeySourceStake source);
  mret (match record with Some record => ssr_amount record | None => 0 end).

Section Staking.
Context `{TK : Token}.

Definition stake_source (source : Address) (amount : Z) (token_contract : Address) : M unit :=
  require_auth source;;
  panic_if (amount <=? 0) InvalidPrice;;
  contract ← contract_address;
  transfer token_contract source contract amount;;
  existing ← get_stake_record source;
  current_ledger ← ledger_sequence;
  let total := sat_i128 (ssr_amount existing + amount) in
  put (KeySourceStake source) (MkSourceStakeRecord total current_ledger);;
  publish (MkSourceStakedEvent source amount total).

(** A failed transfer does not stop the removal. *)
Definition unstake_source (source : Address) : M unit :=
  record ← get (KeySourceStake source);
  match (record : option SourceStakeRecord) with
  | None => mret tt
  | Some record =>
      (if 0 <? ssr_amount record then
         token ← get_stake_token_contract;
         match token with
         | Some token =>
             contract ← contract_address;
             try_transfer token contract source (ssr_amount record);;
             mret tt
         | None => mret tt
         end
       else mret tt);;
      remove (KeySourceStake source);;
      publish (MkSourceUnstakedEvent source (ssr_amount record))
  end.

Definition sweep_treasury (recipient : Address) : M unit :=
  admin ← get_admin;
  require_auth admin;;
  balance ← get_or KeyTreasuryBalance 0;
  if balance <=? 0 then mret tt
  else
    token ← get_stake_token_contract;
    match token with
    | Some token =>
        contract ← contract_address;
        transfer token contract recipient balance;;
        set KeyTreasuryBalance 0
    | None => mret tt
    end.
End Staking.

Definition get_treasury_balance : M Z := get_or KeyTreasuryBalance 0.

(** ** Reputation *)

(** [.. as u32] *)
Definition get_reputation (source : Address) : M Z :=
  score ← get_or (KeySourceReputation source) INITIAL_REPUTATION;
  mret (as_u32 score).

(** Full marks up to one percent of deviation, ten at thirty, none at fifty. *)
Definition accuracy_of (deviation_bps : Z) : Z :=
  clampZ 0 100
    (if 5000 <=? deviation_bps then 0
     else if 3000 <=? deviation_bps then 10 - Z.quot ((deviation_bps - 3000) * 10) 2000
     else if deviation_bps <=? 100 then 100
     else 100 - Z.quot ((deviation_bps - 100) * 90) 2900).

(** [|a|] of an [i128], which overflows on the least one. *)
Definition abs_i128 `{BuildProfile} (z : Z) : option Z := i128 (Z.abs z).

Definition deviation_bps_of `{BuildProfile} (source_price median_price : Z) : option Z :=
  diff ← i128 (source_price - median_price);
  size ← abs_i128 diff;
  div_i128 (sat_i128 (size * BPS_PRECISION)) median_price.

Definition blend_score `{BuildProfile} (old_score decay accuracy : Z) : option Z :=
  kept ← i128 (100 - decay);
  old ← i128 (old_score * kept);
  new ← i128 (accuracy * decay);
  sum ← i128 (old + new);
  Some (clampZ MIN_REPUTATION MAX_REPUTATION (Z.quot sum 100)).

Definition update_reputation_on_submission `{BuildProfile} (source : Address) (source_price median_price : Z)
    : M unit :=
  if median_price <=? 0 then mret tt
  else
    old_score ← get_reputation source;
    decay ← get_decay_factor;
    deviation_bps ← lift (deviation_bps_of source_price median_price);
    new_score ← lift (blend_score old_score decay (accuracy_of deviation_bps));
    put (KeySourceReputation source) new_score;;
    publish (MkSourceReputationUpdatedEvent source old_score new_score).

Definition decayed_score `{BuildProfile} (score decay : Z) : option Z :=
  distance ← i128 (score - INITIAL_REPUTATION);
  scaled ← i128 (distance * decay);
  rest ← i128 (score - Z.quot scaled 100);
  Some (clampZ MIN_REPUTATION MAX_REPUTATION rest).

Definition apply_reputation_decay `{BuildProfile} (source : Address) : M unit :=
  score ← get_or (KeySourceReputation source) INITIAL_REPUTATION;
  if score =? INITIAL_REPUTATION then mret tt
  else
    decay ← get_decay_factor;
    new_score ← lift (decayed_score score decay);
    if new_score =? score then mret tt else put (KeySourceReputation source) new_score.

(** ** Slashing *)

Definition stake_slash `{BuildProfile} (amount percent : Z) : option Z :=
  scaled ← i128 (amount * percent);
  Some (Z.min (Z.max (Z.quot scaled 100) 1) amount).

Definition check_slashable (source : Address) : M unit :=
  threshold ← get_slash_threshold;
  score ← get_reputation source;
  panic_if (threshold <=? score) ReputationTooHighToSlash.

Definition slash_source `{BuildProfile} (source : Address) (force : bool) : M unit :=
  admin ← get_admin;
  require_auth admin;;
  (if force then mret tt else check_slashable source);;
  record ← get_stake_record source;
  if ssr_amount record =? 0 then mret tt
  else
    slash_pct ← get_slash_percent;
    slash_amount ← lift (stake_slash (ssr_amount record) slash_pct);
    remaining ← lift (i128 (ssr_amount record - slash_amount));
    current_ledger ← ledger_sequence;
    put (KeySourceStake source) (MkSourceStakeRecord remaining current_ledger);;
    current_treasury ← get_or KeyTreasuryBalance 0;
    put KeyTreasuryBalance (sat_i128 (current_treasury + slash_amount));;
    publish (MkSourceSlashedEvent source slash_amount remaining slash_pct).
