(* ===== verification/Verification.v ===== *)
(** * [verification.rs]: checks that consumers call before acting on a price *)
From stdpp Require Import base list strings.
From S2P Require Import Prelude Machine Types Host AuditLog Config Admin Assets Frames FreshnessWeight.
From S2P Require Import SourceGuards Provenance PriceCallback Aggregation Degradation Twap Queries.
#[local] Open Scope Z_scope.
#[local] Set Default Goal Selector "!".

(** The distance of two prices in basis points of the larger one; zero when
    that is zero, capped at the width of [u32]. *)
Definition deviation_from_larger `{BuildProfile} (price_a price_b : Z) : option Z :=
  let reference := if price_b <=? price_a then price_a else price_b in
  if reference =? 0 then Some 0
  else
    diff ← i128 (if price_b <=? price_a then price_a - price_b else price_b - price_a);
    scaled ← i128 (diff * 10000);
    bps ← div_i128 scaled reference;
    Some (if U32_MAX <? bps then U32_MAX else as_u32 bps).

Definition verify_price_deviation `{BuildProfile} (price_a price_b max_deviation_bps : Z) : M bool :=
  deviation_bps ← lift (deviation_from_larger price_a price_b);
  let within_tolerance := deviation_bps <=? max_deviation_bps in
  publish (MkPriceDeviationVerifiedEvent price_a price_b deviation_bps max_deviation_bps within_tolerance);;
  mret within_tolerance.

Section Verified.
Context `{BP : BuildProfile}.

Definition verify_price_freshness (asset : Address) (max_age : Z) : M bool :=
  if max_age =? 0 then publish (PriceFreshnessVerified asset true 0 0);; mret true
  else
    agg ← get_price asset 0;
    now ← ledger_timestamp;
    let '(is_fresh, price_age) :=
      match (agg : option AggregatePrice) with
      | None => (false, U64_MAX)
      | Some a => let age := sat_u64 (now - ap_timestamp a) in (age <=? max_age, age)
      end in
    publish (PriceFreshnessVerified asset is_fresh max_age (if price_age =? U64_MAX then 0 else price_age));;
    mret is_fresh.

Definition verify_cross_oracle (asset : Address) (reference_price max_deviation_bps : Z) : M bool :=
  agg ← get_price asset 0;
  match (agg : option AggregatePrice) with
  | None =>
      publish (MkCrossOracleDeviationEvent asset 0 reference_price U32_MAX max_deviation_bps false);;
      mret false
  | Some a =>
      deviation_bps ← lift (deviation_from_larger (ap_price a) reference_price);
      let within_tolerance := deviation_bps <=? max_deviation_bps in
      publish (MkCrossOracleDeviationEvent asset (ap_price a) reference_price deviation_bps
                 max_deviation_bps within_tolerance);;
      mret within_tolerance
  end.
End Verified.

Definition get_oracle_decimals : M Z := get_decimals.
