(* ===== verification/SignedSubmission.v ===== *)
(** * [signed_submission.rs]: prices signed off chain

    A source registers an Ed25519 key; anyone may then submit what the key
    signed.  The signature check and the identity of the network are the
    host's. *)
From stdpp Require Import base list strings.
From S2P Require Import Prelude Machine StorageMath Types Host AuditLog Config Admin Assets Frames FreshnessWeight.
From S2P Require Import SourceGuards Latency Provenance PriceCallback Policy Aggregation Sources.
From S2P Require Import Triggers Submission.
#[local] Open Scope Z_scope.
#[local] Set Default Goal Selector "!".

(** The host's signature scheme and network: [ed25519_verify] of a key, a
    message and a signature traps when it does not hold. *)
Class Signatures := {
  signature_valid : Bytes → Bytes → Bytes → bool;
  network_id : Bytes
}.

Definition ed25519_verify `{Signatures} (public_key message signature : Bytes) : M unit :=
  if signature_valid public_key message signature then mret tt else panic.

Definition register_submission_key (source : Address) (public_key : Bytes) : M unit :=
  require_auth source;;
  check_source source;;
  put (KeySignedSubmitPubKey source) public_key;;
  publish (MkSubmissionKeyRegisteredEvent source public_key).

Definition read_submission_key (source : Address) : M Bytes :=
  key ← get (KeySignedSubmitPubKey source);
  match key with Some key => mret (key : Bytes) | None => panic_with_error SigningKeyNotRegistered end.

(** [b"price_proof_v2"] *)
Definition PROOF_TAG : Bytes := [112; 114; 105; 99; 101; 95; 112; 114; 111; 111; 102; 95; 118; 50].

Section Signed.
Context `{BP : BuildProfile} `{CR : Crypto} `{US : UnstableSort} `{XD : Xdr} `{CB : Callbacks} `{SG : Signatures}.

Definition proof_payload (contract source asset : Address) (nonce price timestamp expiration_ledger : Z) : Bytes :=
  PROOF_TAG ++ network_id ++ address_to_xdr contract ++ address_to_xdr source ++ address_to_xdr asset
  ++ to_le_bytes 8 nonce ++ to_le_bytes 16 (as_u128 price) ++ to_le_bytes 8 timestamp
  ++ to_le_bytes 4 expiration_ledger.

Definition hash_proof_payload (source asset : Address) (nonce price timestamp expiration_ledger : Z) : M Bytes :=
  contract ← contract_address;
  mret (sha256 (proof_payload contract source asset nonce price timestamp expiration_ledger)).

(** Who the price is attributed to, and whether its proof is still fresh. *)
Definition check_proof_fresh (source asset : Address) (nonce expiration_ledger : Z) : M unit :=
  check_not_paused;;
  check_source source;;
  check_registered_asset asset;;
  check_not_frozen asset;;
  check_source_asset source asset;;
  suspended ← is_source_suspended source;
  panic_if suspended NotAuthorized;;
  current_ledger ← ledger_sequence;
  panic_if (expiration_ledger <? current_ledger) SignatureExpired;;
  last_nonce ← get_or (KeySignedSubmitNonce source) 0;
  panic_if (nonce <=? last_nonce) InvalidNonce.

Definition check_proof_signature (source asset : Address) (price timestamp nonce expiration_ledger : Z)
    (signature : Bytes) : M unit :=
  public_key ← read_submission_key source;
  digest ← hash_proof_payload source asset nonce price timestamp expiration_ledger;
  ed25519_verify public_key digest signature.

(** The price itself: its floor, its time, and its order after the stored one. *)
Definition check_proof_price (source asset : Address) (price timestamp : Z) : M unit :=
  min_price ← get_min_price asset;
  panic_if (price <? min_price) PriceBelowMinimum;;
  ledger_time ← ledger_timestamp;
  check_not_future source timestamp ledger_time;;
  prev ← get (KeySubmission asset source);
  match prev with
  | Some prev => panic_if (timestamp <? pe_timestamp prev) InvalidTimestamp
  | None => mret tt
  end.

Definition submit_price_with_proof (source asset : Address) (price timestamp nonce expiration_ledger : Z)
    (signature : Bytes) : M unit :=
  check_proof_fresh source asset nonce expiration_ledger;;
  (if price <=? 0 then reject source InvalidPrice else mret tt);;
  check_proof_signature source asset price timestamp nonce expiration_ledger signature;;
  check_proof_price source asset price timestamp;;
  tripped ← check_deviation_circuit_breaker asset;
  if tripped : bool then mret tt
  else
    put (KeySignedSubmitNonce source) nonce;;
    decimals ← get_decimals;
    current_ledger ← ledger_sequence;
    ledger_time ← ledger_timestamp;
    store_submission asset source price timestamp decimals current_ledger ledger_time None;;
    record_successful_submission source;;
    publish (MkPriceSubmittedWithProofEvent asset source price timestamp nonce);;
    record_submission_for_triggers asset price;;
    do_aggregate asset.
End Signed.
