(* ===== verification/Relayer.v ===== *)
(** * [relayer.rs], [relayer_bonds.rs], [relayer_dashboard.rs]: relayed submissions

    A relayer submits on behalf of sources.  It is approved by the
    administrator or delegated to by a source's signature, posts a bond when
    one is required, and accrues fees and rewards as numbers in storage. *)
From stdpp Require Import base list gmap strings.
From S2P Require Import Prelude Machine StorageMath Types Host AuditLog Config Admin Assets Frames FreshnessWeight.
From S2P Require Import SourceGuards Latency Provenance PriceCallback Policy InputValidation Aggregation Sources.
From S2P Require Import Submission.
From S2P Require Import SignedSubmission.
#[local] Open Scope Z_scope.
#[local] Set Default Goal Selector "!".

Definition MAX_BATCH_SIZE : Z := 25.
Definition DEFAULT_RELAYER_SLASH_PERCENT : Z := 20.
Definition DEFAULT_RELAYER_FAILURE_THRESHOLD : Z := 3.
Definition LEDGERS_PER_DAY : Z := 17280.

(** ** Approval and delegation *)

Definition add_relayer (relayer : Address) (name : string) : M unit :=
  admin ← get_admin;
  require_auth admin;;
  validate_string "add_relayer" "name" name;;
  approved ← has (KeyApprovedRelayer relayer);
  panic_if approved RelayerAlreadyExists;;
  ledger ← ledger_sequence;
  put (KeyApprovedRelayer relayer) (MkRelayerInfo name ledger);;
  registry ← get_or KeyRelayerRegistry [];
  (if bool_decide (relayer ∈ (registry : list Address)) then mret tt
   else put KeyRelayerRegistry (registry ++ [relayer]));;
  publish (MkRelayerAddedEvent relayer admin name).

Definition remove_relayer (relayer : Address) : M unit :=
  admin ← get_admin;
  require_auth admin;;
  approved ← has (KeyApprovedRelayer relayer);
  panic_if (negb approved) RelayerNotAuthorized;;
  remove (KeyApprovedRelayer relayer);;
  publish (MkRelayerRemovedEvent relayer admin).

Definition is_relayer (relayer : Address) : M bool :=
  approved ← has (KeyApprovedRelayer relayer);
  (if approved : bool then extend_ttl (KeyApprovedRelayer relayer) else mret tt);;
  mret approved.

Definition get_relayer_info (relayer : Address) : M (option RelayerInfo) := get_touch (KeyApprovedRelayer relayer).

(** [b"source_relayer_delegation_v2"] *)
Definition DELEGATION_TAG : Bytes :=
  [115; 111; 117; 114; 99; 101; 95; 114; 101; 108; 97; 121; 101; 114; 95; 100; 101; 108; 101; 103; 97; 116; 105;
   111; 110; 95; 118; 50].

(** [Address::to_string] as bytes, the host's. *)
Class AddressText := address_text : Address → Bytes.

Section Delegation.
Context `{CR : Crypto} `{SG : Signatures} `{AT : AddressText}.

Definition delegation_payload (contract source relayer : Address) (nonce expiration_ledger : Z) : Bytes :=
  DELEGATION_TAG ++ network_id ++ address_to_xdr contract ++ to_le_bytes 8 nonce ++ address_text source
  ++ address_text relayer ++ to_le_bytes 4 expiration_ledger.

Definition hash_relayer_delegation_payload (source relayer : Address) (nonce expiration_ledger : Z) : M Bytes :=
  contract ← contract_address;
  mret (sha256 (delegation_payload contract source relayer nonce expiration_ledger)).

Definition delegate_relayer (source relayer : Address) (nonce expiration_ledger : Z) (signature : Bytes)
    : M unit :=
  check_source source;;
  current_ledger ← ledger_sequence;
  panic_if (expiration_ledger <? current_ledger) SignatureExpired;;
  last_nonce ← get_or (KeySourceRelayerDelegationNonce source) 0;
  panic_if (nonce <=? last_nonce) InvalidNonce;;
  public_key ← read_submission_key source;
  digest ← hash_relayer_delegation_payload source relayer nonce expiration_ledger;
  ed25519_verify public_key digest signature;;
  set (KeySourceRelayerDelegation source relayer)
    (MkSourceRelayerDelegation source relayer nonce expiration_ledger);;
  set (KeySourceRelayerDelegationNonce source) nonce;;
  extend_ttl (KeySourceRelayerDelegation source relayer);;
  extend_ttl (KeySourceRelayerDelegationNonce source).
End Delegation.

Definition get_relayer_delegation (source relayer : Address) : M (option SourceRelayerDelegation) :=
  get_touch (KeySourceRelayerDelegation source relayer).

Definition has_valid_relayer_delegation (source relayer : Address) : M bool :=
  delegation ← get_relayer_delegation source relayer;
  match delegation with
  | None => mret false
  | Some delegation =>
      current_ledger ← ledger_sequence;
      mret (current_ledger <=? rd_expiration_ledger delegation)
  end.

Definition may_relay (relayer source : Address) : M bool :=
  approved ← is_relayer relayer;
  if approved : bool then mret true else has_valid_relayer_delegation source relayer.

(** ** Bonds *)

Definition set_relayer_bond_amount (amount : Z) : M unit :=
  admin ← get_admin;
  require_auth admin;;
  set KeyRelayerBondAmount amount;;
  publish (RelayerBondConfigChanged admin amount).

Definition get_relayer_bond_amount : M Z := get_or KeyRelayerBondAmount 0.
Definition get_relayer_bond_balance (relayer : Address) : M Z := get_or (KeyRelayerBond relayer) 0.
Definition get_relayer_failure_count (relayer : Address) : M Z := get_or (KeyRelayerFailureCount relayer) 0.

(** The staking token, without which bonds do not move. *)
Definition stake_token : M Address :=
  token ← get_stake_token_contract;
  match token with Some token => mret token | None => panic_with_error StakeTokenNotConfigured end.

Section Bonds.
Context `{BP : BuildProfile} `{TK : Token}.

Definition deposit_relayer_bond (relayer : Address) : M unit :=
  require_auth relayer;;
  approved ← is_relayer relayer;
  panic_if (negb approved) RelayerNotAuthorized;;
  required ← get_relayer_bond_amount;
  if required <=? 0 then mret tt
  else
    current ← get_relayer_bond_balance relayer;
    if required <=? current then mret tt
    else
      deposit_amount ← lift (i128 (required - current));
      token ← stake_token;
      contract ← contract_address;
      transfer token relayer contract deposit_amount;;
      put (KeyRelayerBond relayer) required;;
      publish (MkRelayerBondDepositedEvent relayer deposit_amount required).

Definition withdraw_relayer_bond (relayer : Address) : M unit :=
  require_auth relayer;;
  deposited ← get_relayer_bond_balance relayer;
  if deposited <=? 0 then mret tt
  else
    failures ← get_relayer_failure_count relayer;
    panic_if (0 <? failures) RelayerBondLocked;;
    token ← stake_token;
    contract ← contract_address;
    transfer token contract relayer deposited;;
    set (KeyRelayerBond relayer) 0;;
    publish (MkRelayerBondWithdrawnEvent relayer deposited).
End Bonds.

Definition record_relayer_failure (relayer : Address) (reason : RelayerFailureReason) : M unit :=
  admin ← get_admin;
  require_auth admin;;
  approved ← is_relayer relayer;
  panic_if (negb approved) RelayerNotAuthorized;;
  count ← get_relayer_failure_count relayer;
  put (KeyRelayerFailureCount relayer) (sat_u32 (count + 1));;
  publish (MkRelayerFailureRecordedEvent relayer (RelayerFailureReason_as_u32 reason) (sat_u32 (count + 1))).

Definition set_relayer_slash_percent (percent : Z) : M unit :=
  admin ← get_admin;
  require_auth admin;;
  panic_if (100 <? percent) InvalidConfiguration;;
  set KeyRelayerSlashPercent percent.

Definition get_relayer_slash_percent : M Z := get_or KeyRelayerSlashPercent DEFAULT_RELAYER_SLASH_PERCENT.

Definition set_relayer_failure_threshold (threshold : Z) : M unit :=
  admin ← get_admin;
  require_auth admin;;
  set KeyRelayerFailureThreshold threshold.

Definition get_relayer_failure_threshold : M Z :=
  get_or KeyRelayerFailureThreshold DEFAULT_RELAYER_FAILURE_THRESHOLD.

Definition set_relayer_reward_rate (rate : Z) : M unit :=
  admin ← get_admin;
  require_auth admin;;
  set KeyRelayerRewardRate rate.

Definition get_relayer_reward_rate : M Z := get_or KeyRelayerRewardRate 0.
Definition get_relayer_reward_balance (relayer : Address) : M Z := get_or (KeyRelayerRewardBalance relayer) 0.

(** The part of a bond that a slash takes, and where it goes. *)
Definition slash_of `{BuildProfile} (bond percent : Z) : option Z :=
  scaled ← i128 (bond * percent);
  Some (Z.min (Z.max (Z.quot scaled 100) 1) bond).

Definition credit_treasury (amount : Z) : M unit :=
  treasury ← get_or KeyTreasuryBalance 0;
  put KeyTreasuryBalance (sat_i128 (treasury + amount)).

Definition slash_relayer `{BuildProfile} (relayer : Address) (force : bool) : M unit :=
  admin ← get_admin;
  require_auth admin;;
  (if force then mret tt
   else
     threshold ← get_relayer_failure_threshold;
     count ← get_relayer_failure_count relayer;
     panic_if (count <? threshold) RelayerFailureThresholdMiss);;
  deposited ← get_relayer_bond_balance relayer;
  if deposited <=? 0 then mret tt
  else
    percent ← get_relayer_slash_percent;
    slash_amount ← lift (slash_of deposited percent);
    remaining ← lift (i128 (deposited - slash_amount));
    put (KeyRelayerBond relayer) remaining;;
    credit_treasury slash_amount;;
    set (KeyRelayerFailureCount relayer) 0;;
    publish (MkRelayerSlashedEvent relayer slash_amount remaining percent).

(** Rewards are weighed by the share of submissions without a reported
    failure. *)
Definition accrue_relayer_reward (relayer : Address) (total_submissions : Z) : M unit :=
  rate ← get_relayer_reward_rate;
  if rate <=? 0 then mret tt
  else
    failures ← get_relayer_failure_count relayer;
    let denom := Z.max (sat_u64 (total_submissions + failures)) 1 in
    let accuracy_bps := sat_u64 (total_submissions * 10000) / denom in
    let reward := Z.quot (sat_i128 (rate * accuracy_bps)) 10000 in
    if 0 <? reward then
      balance ← get_relayer_reward_balance relayer;
      put (KeyRelayerRewardBalance relayer) (sat_i128 (balance + reward))
    else mret tt.

(** ** Statistics *)

Definition record_relayer_latency (relayer : Address) (observation_timestamp latency : Z) : M unit :=
  latency_sum ← get_or (KeyRelayerLatencySum relayer) 0;
  put (KeyRelayerLatencySum relayer) (sat_u64 (latency_sum + latency));;
  history ← get_or (KeyRelayerSubmissionHistory relayer) [];
  put (KeyRelayerSubmissionHistory relayer) (history ++ [observation_timestamp]);;
  latency_history ← get_or (KeyRelayerLatencyHistory relayer) [];
  put (KeyRelayerLatencyHistory relayer) (latency_history ++ [latency]).

Definition record_relayer_asset (relayer asset : Address) (latency : Z) : M unit :=
  assets ← get_or (KeyRelayerAssetList relayer) [];
  (if bool_decide (asset ∈ (assets : list Address)) then mret tt
   else put (KeyRelayerAssetList relayer) (assets ++ [asset]));;
  count ← get_or (KeyRelayerAssetCount relayer asset) 0;
  put (KeyRelayerAssetCount relayer asset) (sat_u64 (count + 1));;
  latency_sum ← get_or (KeyRelayerAssetLatencySum relayer asset) 0;
  put (KeyRelayerAssetLatencySum relayer asset) (sat_u64 (latency_sum + latency));;
  latency_count ← get_or (KeyRelayerAssetLatencyCount relayer asset) 0;
  put (KeyRelayerAssetLatencyCount relayer asset) (sat_u64 (latency_count + 1)).

Definition record_relayer_submission_stats (relayer asset : Address)
    (observation_timestamp ledger_timestamp : Z) : M unit :=
  let latency := Z.abs (ledger_timestamp - observation_timestamp) in
  record_relayer_latency relayer observation_timestamp latency;;
  record_relayer_asset relayer asset latency.

(** ** Fees *)

Definition set_relayer_fee_per_submission (fee : Z) : M unit :=
  admin ← get_admin;
  require_auth admin;;
  set KeyRelayerFeePerSubmission fee;;
  publish (RelayerFeeSet admin fee).

Definition get_relayer_fee_per_submission : M Z := get_or KeyRelayerFeePerSubmission 0.
Definition get_relayer_fee_balance (relayer : Address) : M Z := get_or (KeyRelayerFeeBalance relayer) 0.
Definition get_relayer_submission_count (relayer : Address) : M Z := get_or (KeyRelayerSubmissionCount relayer) 0.

Definition accrue_relayer_submission_metrics (relayer : Address) (priority_fee : Z) : M unit :=
  count ← get_relayer_submission_count relayer;
  let new_count := sat_u64 (count + 1) in
  put (KeyRelayerSubmissionCount relayer) new_count;;
  flat_fee ← get_relayer_fee_per_submission;
  let total_fee := sat_i128 (flat_fee + Z.min priority_fee I128_MAX) in
  (if 0 <? total_fee then
     balance ← get_relayer_fee_balance relayer;
     put (KeyRelayerFeeBalance relayer) (sat_i128 (balance + total_fee))
   else mret tt);;
  accrue_relayer_reward relayer new_count.

(** ** Relayed submissions *)

Section Relaying.
Context `{BP : BuildProfile} `{CR : Crypto} `{US : UnstableSort} `{XD : Xdr} `{CB : Callbacks}.

(** Who may relay for whom, and with which bond. *)
Definition check_relayer (relayer source : Address) : M unit :=
  allowed ← may_relay relayer source;
  panic_if (negb allowed) RelayerNotAuthorized;;
  required_bond ← get_relayer_bond_amount;
  if 0 <? required_bond then
    deposited ← get_relayer_bond_balance relayer;
    panic_if (deposited <? required_bond) RelayerBondInsufficient
  else mret tt.

Definition check_leg (source asset : Address) (price timestamp : Z) : M unit :=
  check_source source;;
  check_registered_asset asset;;
  check_source_asset source asset;;
  suspended ← is_source_suspended source;
  panic_if suspended NotAuthorized;;
  (if price <=? 0 then reject source InvalidPrice else mret tt);;
  min_price ← get_min_price asset;
  panic_if (price <? min_price) PriceBelowMinimum;;
  ledger_time ← ledger_timestamp;
  check_not_future source timestamp ledger_time.

(** [false] when the tripped breaker drops the leg. *)
Definition process_relayed_leg (relayer source asset : Address) (price timestamp : Z) : M bool :=
  check_relayer relayer source;;
  check_leg source asset price timestamp;;
  tripped ← check_deviation_circuit_breaker asset;
  if tripped : bool then mret false
  else
    ledger_time ← ledger_timestamp;
    decimals ← get_decimals;
    current_ledger ← ledger_sequence;
    store_submission asset source price timestamp decimals current_ledger ledger_time None;;
    record_successful_submission source;;
    publish (MkPriceRelayedEvent asset source relayer price timestamp);;
    do_aggregate asset;;
    record_relayer_submission_stats relayer asset timestamp ledger_time;;
    mret true.

Definition submit_price_relayed (relayer source asset : Address) (price timestamp : Z) : M unit :=
  check_not_paused;;
  require_auth relayer;;
  require_auth source;;
  stored ← process_relayed_leg relayer source asset price timestamp;
  if stored : bool then accrue_relayer_submission_metrics relayer 0 else mret tt.

(** The legs come in an order of fees that never rises. *)
Fixpoint fees_descend (submissions : list RelayedSubmission) : bool :=
  match submissions with
  | prev :: (curr :: _) as rest => (rs_priority_fee curr <=? rs_priority_fee prev) && fees_descend rest
  | _ => true
  end.

Definition validate_fee_priority_order (submissions : list RelayedSubmission) : M unit :=
  panic_if (negb (fees_descend submissions)) BatchNotFeePrioritized.

Definition relay_leg (relayer : Address) (total_priority_fee : Z) (leg : RelayedSubmission) : M Z :=
  require_auth (rs_source leg);;
  stored ← process_relayed_leg relayer (rs_source leg) (rs_asset leg) (rs_price leg) (rs_timestamp leg);
  if stored : bool then
    accrue_relayer_submission_metrics relayer (rs_priority_fee leg);;
    mret (sat_i128 (total_priority_fee + as_i128 (rs_priority_fee leg)))
  else mret total_priority_fee.

Definition submit_prices_relayed (relayer : Address) (submissions : list RelayedSubmission) : M unit :=
  check_not_paused;;
  require_auth relayer;;
  let len := Z.of_nat (length submissions) in
  panic_if (len =? 0) BatchEmpty;;
  panic_if (MAX_BATCH_SIZE <? len) BatchTooLarge;;
  validate_fee_priority_order submissions;;
  total_priority_fee ← fold_m (relay_leg relayer) 0 submissions;
  publish (MkBatchPriceRelayedEvent relayer len total_priority_fee).
End Relaying.

(** ** Challenging a relayer *)

(** The slashed part goes to the treasury, and half of it again to the
    challenger. *)
Definition slash_for_challenge `{BuildProfile} (challenger relayer : Address) : M unit :=
  bond ← get_relayer_bond_balance relayer;
  panic_if (bond <=? 0) InsufficientBond;;
  percent ← get_relayer_slash_percent;
  slash_amount ← lift (slash_of bond percent);
  new_balance ← lift (i128 (bond - slash_amount));
  put (KeyRelayerBond relayer) new_balance;;
  credit_treasury slash_amount;;
  existing ← get_or (KeyChallengerRewards challenger) 0;
  set (KeyChallengerRewards challenger) (sat_i128 (existing + Z.quot slash_amount 2)).

(** [price] and [timestamp] are read by nothing, and of [proof_data] only
    whether it is empty. *)
Definition challenge_relayed_submission `{BuildProfile} (challenger relayer source asset : Address)
    (price timestamp : Z) (proof_data : Bytes) : M unit :=
  check_source source;;
  check_registered_asset asset;;
  check_source_asset source asset;;
  valid_auth ← may_relay relayer source;
  panic_if valid_auth NotAuthorized;;
  panic_if (bool_decide (proof_data = [])) InvalidProof;;
  slash_for_challenge challenger relayer;;
  still_approved ← is_relayer relayer;
  if still_approved : bool then record_relayer_failure relayer FailureUnauthorizedPrice else mret tt.

(** ** The dashboard *)

Section Dashboard.
Context `{BP : BuildProfile}.

Definition compute_percentile_rank (total_submissions : Z) : M Z :=
  registry ← get_or KeyRelayerRegistry [];
  let total_relayers := Z.of_nat (length registry) in
  if total_relayers =? 0 then mret 0
  else
    le_count ← fold_m (λ n other,
      other_count ← get_relayer_submission_count other;
      if other_count <=? total_submissions then lift (u32 (n + 1)) else mret n) 0 registry;
    scaled ← lift (u32 (le_count * 100));
    mret (scaled / total_relayers).

(** The share of successes, in basis points. *)
Definition success_rate_bps (submissions failures : Z) : Z :=
  as_u32 (sat_u64 (submissions * 10000) / Z.max (sat_u64 (submissions + failures)) 1).

Definition asset_stat (relayer : Address) (stats : list RelayerAssetStat) (asset : Address)
    : M (list RelayerAssetStat) :=
  submissions ← get_or (KeyRelayerAssetCount relayer asset) 0;
  failures ← get_relayer_failure_count relayer;
  latency_sum ← get_or (KeyRelayerAssetLatencySum relayer asset) 0;
  latency_count ← get_or (KeyRelayerAssetLatencyCount relayer asset) 0;
  mret (stats ++ [
    {| ras_asset := asset; ras_submissions := submissions; ras_successful_submissions := submissions;
       ras_failed_submissions := failures;
       ras_success_rate_bps :=
         if sat_u64 (submissions + failures) =? 0 then 0 else success_rate_bps submissions failures;
       ras_avg_latency_seconds := if 0 <? latency_count then latency_sum / latency_count else 0 |}]).

Definition collect_per_asset_stats (relayer : Address) : M (list RelayerAssetStat) :=
  asset_list ← get_or (KeyRelayerAssetList relayer) [];
  fold_m (asset_stat relayer) [] asset_list.

(** The selection sort of the source: the least of what is left comes next. *)
Fixpoint min_index (best i : nat) (xs : list Z) (rest : list Z) : nat :=
  match rest with
  | [] => best
  | x :: rest => min_index (if x <? default 0 (xs !! best) then i else best) (S i) xs rest
  end.

Fixpoint selection_sort (fuel i : nat) (xs : list Z) : list Z :=
  match fuel with
  | O => xs
  | S fuel =>
      let m := min_index i (S i) xs (drop (S i) xs) in
      selection_sort fuel (S i) (<[m := default 0 (xs !! i)]> (<[i := default 0 (xs !! m)]> xs))
  end.

Definition percentile_index (len pct : Z) : option Z :=
  if 100 <=? pct then Some (sat_u32 (len - 1))
  else scaled ← u32 (len * pct); Some (Z.min (sat_u32 (scaled / 100 - 1)) (sat_u32 (len - 1))).

Definition compute_latency_percentiles (relayer : Address) : M (gmap Z Z) :=
  values ← get_or (KeyRelayerLatencyHistory relayer) [];
  if bool_decide ((values : list Z) = []) then mret ∅
  else
    let sorted := selection_sort (length values) 0 values in
    fold_m (λ percentiles pct,
      index ← lift (percentile_index (Z.of_nat (length sorted)) pct);
      mret (<[pct := default 0 (sorted !! Z.to_nat index)]> percentiles)) ∅ [50; 90; 95; 99].

Definition get_relayer_dashboard (relayer : Address) : M RelayerDashboard :=
  total_submissions ← get_relayer_submission_count relayer;
  failed_submissions ← get_relayer_failure_count relayer;
  latency_sum ← get_or (KeyRelayerLatencySum relayer) 0;
  submission_history ← get_or (KeyRelayerSubmissionHistory relayer) [];
  latency_percentiles ← compute_latency_percentiles relayer;
  info ← get_relayer_info relayer;
  current_ledger ← ledger_sequence;
  fee_earnings ← get_relayer_fee_balance relayer;
  reward_earnings ← get_relayer_reward_balance relayer;
  bond_deposited ← get_relayer_bond_balance relayer;
  percentile_rank ← compute_percentile_rank total_submissions;
  per_asset ← collect_per_asset_stats relayer;
  mret
    {| rdb_relayer := relayer; rdb_total_submissions := total_submissions;
       rdb_failed_submissions := failed_submissions;
       rdb_success_rate_bps := success_rate_bps total_submissions failed_submissions;
       rdb_submissions_per_day :=
         match info with
         | Some info =>
             total_submissions
             / Z.max (sat_u32 (current_ledger - ri_approved_at_ledger info) / LEDGERS_PER_DAY) 1
         | None => 0
         end;
       rdb_avg_latency_seconds := if 0 <? total_submissions then latency_sum / total_submissions else 0;
       rdb_submission_history := submission_history; rdb_latency_percentiles := latency_percentiles;
       rdb_fee_earnings := fee_earnings; rdb_reward_earnings := reward_earnings;
       rdb_bond_deposited := bond_deposited; rdb_percentile_rank := percentile_rank;
       rdb_per_asset := per_asset |}.
End Dashboard.
