(* ===== verification/StateChannel.v ===== *)
(** * [state_channel.rs]: price updates through a channel

    A source locks a deposit and then settles signed batches of prices, of
    which the one with the highest nonce is kept; anyone may settle a later
    batch once the dispute time has come.  The events go out by topic. *)
From stdpp Require Import base list strings.
From S2P Require Import Prelude Machine Types Host AuditLog Config Admin Assets Frames SourceGuards Sources.
From S2P Require Import SignedSubmission.
#[local] Open Scope Z_scope.
#[local] Set Default Goal Selector "!".

Definition DEFAULT_DISPUTE_TIMEOUT_SECS : Z := 3600.

(** [b"sc_batch_v1"] *)
Definition BATCH_TAG : Bytes := [115; 99; 95; 98; 97; 116; 99; 104; 95; 118; 49].

Definition read_channel (source : Address) : M (option StateChannel) := get_touch (KeyStateChannel source).
Definition write_channel (channel : StateChannel) : M unit :=
  put (KeyStateChannel (scn_source channel)) channel.
Definition remove_channel (source : Address) : M unit :=
  remove (KeyStateChannel source);; remove (KeyStateChannelSigner source).

Definition open_one (source : Address) : M StateChannel :=
  channel ← read_channel source;
  match channel with
  | Some channel => if negb (scn_is_closed channel) then mret channel else panic_with_error ChannelNotFound
  | None => panic_with_error ChannelNotFound
  end.

Definition check_channel_signer (source : Address) (pubkey : Bytes) (may_bind : bool) : M unit :=
  bound ← get (KeyStateChannelSigner source);
  match bound with
  | Some bound => panic_if (bool_decide ((bound : Bytes) ≠ pubkey)) NotAuthorized
  | None => if may_bind then put (KeyStateChannelSigner source) pubkey else panic_with_error NotAuthorized
  end.

(** ** The signed bytes *)

(** [u64_to_le_bytes] and [u128_to_le_bytes] write out what [to_le_bytes] does. *)
Definition u64_to_le_bytes (v : Z) : Bytes :=
  (λ i, Z.land (Z.shiftr v (8 * i)) 255) <$> seqZ 0 8.
Definition u128_to_le_bytes (v : Z) : Bytes :=
  (λ i, Z.land (Z.shiftr v (8 * i)) 255) <$> seqZ 0 16.

Definition item_bytes (item : BatchItem) : Bytes :=
  u64_to_le_bytes (bi_nonce item) ++ u128_to_le_bytes (bi_price item) ++ u64_to_le_bytes (bi_timestamp item).

Definition batch_payload (batch : list BatchItem) : Bytes := BATCH_TAG ++ concat (item_bytes <$> batch).

Definition hash_batch_payload `{Crypto} (_source : Address) (batch : list BatchItem) : Bytes :=
  sha256 (batch_payload batch).

(** ** Settling a batch *)

(** The nonces of a batch rise strictly, from the second item on. *)
Fixpoint nonces_rise (prev : option Z) (batch : list BatchItem) : bool :=
  match batch with
  | [] => true
  | item :: batch =>
      match prev with Some prev => prev <? bi_nonce item | None => true end
      && nonces_rise (Some (bi_nonce item)) batch
  end.

(** The item of the highest nonce above the one the channel has. *)
Definition best_item (best : Z * Z * Z) (item : BatchItem) : Z * Z * Z :=
  let '(best_nonce, _, _) := best in
  if best_nonce <? bi_nonce item then (bi_nonce item, bi_price item, bi_timestamp item) else best.

Definition best_of (channel : StateChannel) (batch : list BatchItem) : Z * Z * Z :=
  foldl best_item (scn_nonce channel, scn_last_price channel, scn_last_timestamp channel) batch.

Definition advance (channel : StateChannel) (batch : list BatchItem) : M (Z * Z * Z) :=
  let '(best_nonce, best_price, best_ts) := best_of channel batch in
  panic_if (best_nonce =? scn_nonce channel) InvalidTimestamp;;
  write_channel
    {| scn_source := scn_source channel; scn_deposit := scn_deposit channel; scn_nonce := best_nonce;
       scn_last_price := best_price; scn_last_timestamp := best_ts;
       scn_dispute_timeout := scn_dispute_timeout channel; scn_is_closed := scn_is_closed channel;
       scn_token_contract := scn_token_contract channel |};;
  mret (best_nonce, best_price, best_ts).

Section Channel.
Context `{BP : BuildProfile} `{CR : Crypto} `{SG : Signatures} `{TK : Token}.

Definition open_channel (source : Address) (deposit : Z) (token_contract : Address) : M unit :=
  require_auth source;;
  panic_if (deposit <=? 0) InvalidPrice;;
  existing ← read_channel source;
  panic_if (match existing with Some channel => negb (scn_is_closed channel) | None => false end)
    ChannelAlreadyOpen;;
  contract ← contract_address;
  transfer token_contract source contract deposit;;
  now_ts ← ledger_timestamp;
  dispute_timeout ← lift (u64 (now_ts + DEFAULT_DISPUTE_TIMEOUT_SECS));
  write_channel
    {| scn_source := source; scn_deposit := deposit; scn_nonce := 0; scn_last_price := 0;
       scn_last_timestamp := 0; scn_dispute_timeout := dispute_timeout; scn_is_closed := false;
       scn_token_contract := token_contract |};;
  publish (ChannelOpened source deposit dispute_timeout).

Definition submit_batch (source : Address) (batch : list BatchItem) (signature source_pubkey : Bytes) : M unit :=
  require_auth source;;
  match batch with
  | [] => mret tt
  | _ =>
      channel ← open_one source;
      check_channel_signer source source_pubkey true;;
      ed25519_verify source_pubkey (hash_batch_payload source batch) signature;;
      panic_if (negb (nonces_rise None batch)) InvalidTimestamp;;
      '(best_nonce, best_price, best_ts) ← advance channel batch;
      publish (ChannelBatch source best_nonce best_price best_ts)
  end.

Definition close_channel (source : Address) : M unit :=
  require_auth source;;
  channel ← open_one source;
  write_channel
    {| scn_source := scn_source channel; scn_deposit := scn_deposit channel; scn_nonce := scn_nonce channel;
       scn_last_price := scn_last_price channel; scn_last_timestamp := scn_last_timestamp channel;
       scn_dispute_timeout := scn_dispute_timeout channel; scn_is_closed := true;
       scn_token_contract := scn_token_contract channel |};;
  (if 0 <? scn_deposit channel then
     contract ← contract_address;
     transfer (scn_token_contract channel) contract source (scn_deposit channel)
   else mret tt);;
  remove_channel source;;
  publish (ChannelClosed source (scn_nonce channel) (scn_deposit channel)).

Definition dispute_channel (source : Address) (last_known_batch : list BatchItem)
    (signature source_pubkey : Bytes) : M unit :=
  channel ← open_one source;
  now_ts ← ledger_timestamp;
  panic_if (now_ts <? scn_dispute_timeout channel) TimelockNotReady;;
  panic_if (bool_decide (length last_known_batch = 0%nat)) InvalidTimestamp;;
  check_channel_signer source source_pubkey false;;
  ed25519_verify source_pubkey (hash_batch_payload source last_known_batch) signature;;
  '(best_nonce, best_price, best_ts) ← advance channel last_known_batch;
  publish (ChannelDisputed source best_nonce best_price best_ts).
End Channel.

Definition get_channel (source : Address) : M (option StateChannel) := read_channel source.
