(* ===== verification/Footprint.v ===== *)
(** * Which protected entries a call may write

    The persistent entries that the safety of the contract rests on fall into
    areas.  A call is [within allowed] when it leaves every entry of the areas
    that are not allowed as it was, never turns the pause feature off and
    gives the entry lock back as it found it; [walk] proves this of a handler by walking through everything it
    calls..  The recursive helpers and
    a round of aggregation follow as lemmas of the [within] database. *)
From stdpp Require Import base list gmap strings.
From S2P Require Import Prelude Machine Types Host AuditLog Config Admin Assets Frames EmergencyPause.
From S2P Require Import FreshnessWeight Provenance PriceCallback Sources.
From S2P Require History Deferral Aggregation Twap Queries ConsensusRounds Challenger Optimistic Submission Multisig ConfidenceBand SanityLattice AuditReports.
#[local] Open Scope Z_scope.
#[local] Set Default Goal Selector "!".

Inductive Area :=
  | AreaAdmin
  | AreaPause
  | AreaConfig
  | AreaAssets
  | AreaIndex
  | AreaSources
  | AreaGovernance
  | AreaGovernors
  | AreaGuardians
  | AreaMoney
  | AreaNonces
  | AreaSubmissions
  | AreaPrices
  | AreaOverrides.

#[export] Instance Area_eq_dec : EqDecision Area.
Proof. solve_decision. Defined.

Definition area_of (k : DataKey) : option Area :=
  match k with
  | KeyAdmin => Some AreaAdmin
  | KeyCfgPauseFlag | KeyEmergencyPauseActive | KeyEmergencyPauseEntry => Some AreaPause
  | KeyCfgMinSources | KeyCfgMaxHistory | KeyCfgResolution | KeyCfgDecimals | KeyCfgTimestampThreshold
  | KeyCfgMaxDeviation | KeyCfgHeartbeatInterval | KeyCfgAggregationMethod => Some AreaConfig
  | KeyAssetRegistry | KeyAssetRegistered _ => Some AreaAssets
  | KeyAssetRegistryIndex _ => Some AreaIndex
  | KeySrcRegistry | KeySrcActive _ | KeySource _ | KeySourcePendingRemoval _ | KeyLcRevokedAddress _ =>
      Some AreaSources
  | KeySourceGovConfig => Some AreaGovernance
  | KeyMsGovernors | KeyMsRequiredApprovals => Some AreaGovernors
  | KeyRecoveryGuardians | KeyRecoveryThreshold | KeyRecoveryDelay | KeyPendingRecovery | KeyRecoveryVeto =>
      Some AreaGuardians
  | KeySourceBond _ | KeySourceStake _ | KeyRelayerBond _ | KeyTreasuryBalance => Some AreaMoney
  | KeySourceNonce _ | KeySignedSubmitNonce _ | KeySourceRelayerDelegationNonce _ => Some AreaNonces
  | KeySubmission _ _ => Some AreaSubmissions
  | KeyAggregate _ => Some AreaPrices
  | KeyPriceOverride _ | KeyFrozenPrice _ => Some AreaOverrides
  | _ => None
  end.

Definition is_lock (k : DataKey) : bool := match k with KeyReentrancyGuard => true | _ => false end.

(** A write of [k] that [allowed] does not forbid. *)
Definition may_write (allowed : Area → bool) (k : DataKey) : bool :=
  match area_of k with Some area => allowed area | None => true end.

(** Whether an entry point is running. *)
Definition lock_held (w : World) : bool := default false (temporary w KeyReentrancyGuard).

(** What a call within [allowed] does to the world: the index of registered
    assets is a cache, and filling it is no change. *)
Record Within (allowed : Area → bool) (w w' : World) : Prop := {
  within_area k area : area_of k = Some area → area ≠ AreaIndex → allowed area = false →
    persistent w' k = persistent w k;
  within_index asset : allowed AreaIndex = false → allowed AreaAssets = false →
    persistent w' (KeyAssetRegistryIndex asset) = persistent w (KeyAssetRegistryIndex asset) ∨
    (persistent w' (KeyAssetRegistryIndex asset) = Some true ∧
     persistent w (KeyAssetRegistered asset) = Some true);
  within_lock : lock_held w' = lock_held w;
  within_flag : Flags.is_on w Flags.PAUSE = true → Flags.is_on w' Flags.PAUSE = true
}.

Definition within (allowed : Area → bool) {A} (m : M A) : Prop :=
  ∀ c w a w', m c w = Ok a w' → Within allowed w w'.

Section Rules.
Context (allowed : Area → bool).

Lemma Within_refl w : Within allowed w w.
Proof. split; auto. Qed.

Lemma Within_trans w1 w2 w3 : Within allowed w1 w2 → Within allowed w2 w3 → Within allowed w1 w3.
Proof.
  intros [A1 I1 L1 F1] [A2 I2 L2 F2]. split.
  - intros k area Hk Hi Ha. rewrite (A2 k area), (A1 k area) by done. done.
  - intros asset Hi Ha. destruct (I2 asset Hi Ha) as [->|[-> Hr]]; [by apply I1|].
    right. split; [done|]. rewrite <- Hr. symmetry. by apply (A1 (KeyAssetRegistered asset) AreaAssets).
  - by rewrite L2.
  - auto.
Qed.

Lemma Within_events e w : Within allowed w (add_event e w).
Proof. split; auto. Qed.

Lemma Within_persistent k v w : may_write allowed k = true → Within allowed w (put_persistent k v w).
Proof.
  unfold may_write. intros Hk. split.
  - intros k' area Hk' Hi Ha. apply persistent_put_ne. intros <-. rewrite Hk' in Hk. congruence.
  - intros asset Hi Ha. left. apply persistent_put_ne. intros ->. cbn in Hk. congruence.
  - done.
  - done.
Qed.

Lemma Within_temporary k v w : is_lock k = false → Within allowed w (put_temporary k v w).
Proof. intros Hk. split; auto. unfold lock_held. rewrite temporary_put_ne; [done|]. by intros ->. Qed.

(** Calls that leave the world as it was but for events and flags. *)
Lemma within_same {A} (m : M A) :
  (∀ c w a w', m c w = Ok a w' → persistent w' = persistent w ∧ temporary w' = temporary w ∧ instance_flags w' = instance_flags w) →
  within allowed m.
Proof. intros Hm c w a w' H. destruct (Hm _ _ _ _ H) as (Hp & Ht & Hf).
  split; unfold lock_held, Flags.is_on; rewrite ?Hp, ?Ht, ?Hf; auto. Qed.

Lemma within_ret {A} (a : A) : within allowed (mret a).
Proof. apply within_same. by intros c w ? ? [= <- <-]. Qed.
Lemma within_fail {A} f : within allowed (fail f : M A).
Proof. by intros c w ? ?. Qed.
Lemma within_bind {A B} (m : M A) (f : A → M B) :
  within allowed m → (∀ a, within allowed (f a)) → within allowed (m ≫= f).
Proof. intros Hm Hf c w b w' (a & w1 & H1 & H2)%bind_Ok. eapply Within_trans; [by eapply Hm|by eapply Hf]. Qed.
Lemma within_panic_if b e : within allowed (panic_if b e).
Proof. destruct b; [apply within_fail|apply within_ret]. Qed.
Lemma within_lift {A} (o : option A) : within allowed (lift o).
Proof. destruct o; [apply within_ret|apply within_fail]. Qed.
Lemma within_get k : within allowed (get k).
Proof. apply within_same. by intros c w ? ? [= <- <-]. Qed.
Lemma within_has k : within allowed (has k).
Proof. apply within_same. by intros c w ? ? [= <- <-]. Qed.
Lemma within_get_or k d : within allowed (get_or k d).
Proof. apply within_same. by intros c w ? ? [= <- <-]. Qed.
Lemma within_extend_ttl k : within allowed (extend_ttl k).
Proof. apply within_same. intros c w ? ? H. unfold extend_ttl in H. by destruct (persistent w k); [injection H as <- <-|]. Qed.
Lemma within_get_bump_or k d : within allowed (get_bump_or k d).
Proof. apply within_same. intros c w ? ? H. rewrite run_get_bump_or in H. by injection H as <- <-. Qed.
Lemma within_get_touch k : within allowed (get_touch k).
Proof. apply within_same. intros c w ? ? H. rewrite run_get_touch in H. by injection H as <- <-. Qed.
Lemma within_get_temporary k : within allowed (get_temporary k).
Proof. apply within_same. by intros c w ? ? [= <- <-]. Qed.
Lemma within_get_temporary_or k d : within allowed (get_temporary_or k d).
Proof. apply within_same. by intros c w ? ? [= <- <-]. Qed.
Lemma within_has_temporary k : within allowed (has_temporary k).
Proof. apply within_same. by intros c w ? ? [= <- <-]. Qed.
Lemma within_extend_temporary k : within allowed (extend_ttl_temporary k).
Proof.
  apply within_same. intros c w ? ? H. unfold extend_ttl_temporary in H.
  by destruct (temporary w k); [injection H as <- <-|].
Qed.
Lemma within_set k v : may_write allowed k = true → within allowed (set k v).
Proof. intros Hk c w ? ? [= <- <-]. by apply Within_persistent. Qed.
Lemma within_remove k : may_write allowed k = true → within allowed (remove k).
Proof. intros Hk c w ? ? [= <- <-]. by apply Within_persistent. Qed.
Lemma within_put k v : may_write allowed k = true → within allowed (put k v).
Proof. intros Hk. apply within_bind; [by apply within_set|]. intros _. apply within_extend_ttl. Qed.
Lemma within_set_temporary k v : is_lock k = false → within allowed (set_temporary k v).
Proof. intros Hk c w ? ? [= <- <-]. by apply Within_temporary. Qed.
Lemma within_remove_temporary k : is_lock k = false → within allowed (remove_temporary k).
Proof. intros Hk c w ? ? [= <- <-]. by apply Within_temporary. Qed.
Lemma within_publish e : within allowed (publish e).
Proof. intros c w ? ? [= <- <-]. apply Within_events. Qed.
Lemma within_require_auth a : within allowed (require_auth a).
Proof. apply within_same. intros c w ? ? H. unfold require_auth in H. by destruct (authorized c a); [injection H as <- <-|]. Qed.
Lemma within_sequence : within allowed ledger_sequence.
Proof. apply within_same. by intros c w ? ? [= <- <-]. Qed.
Lemma within_timestamp : within allowed ledger_timestamp.
Proof. apply within_same. by intros c w ? ? [= <- <-]. Qed.
Lemma within_contract : within allowed contract_address.
Proof. apply within_same. by intros c w ? ? [= <- <-]. Qed.
Lemma within_get_flags : within allowed get_flags.
Proof. apply within_same. by intros c w ? ? [= <- <-]. Qed.
Lemma within_mark_all : within allowed Flags.mark_all.
Proof. intros c w ? ? [= <- <-]. by split; auto. Qed.
Lemma within_mark b : within allowed (Flags.mark b).
Proof.
  intros c w ? ? H. rewrite run_mark in H. injection H as <- <-. split; [by auto..|].
  intros Hf. rewrite is_on_marked. apply orb_true_iff. by left.
Qed.
Lemma within_flag_on b : within allowed (Flags.on b).
Proof. apply within_same. intros c w ? ? H. rewrite run_flag_on in H. by injection H as <- <-. Qed.

Lemma within_for_each {A} (xs : list A) body :
  (∀ x, within allowed (body x)) → within allowed (for_each xs body).
Proof.
  intros Hb. induction xs as [|x xs IH]; [apply within_ret|]. apply within_bind; [done|]. by intros _.
Qed.
Lemma within_fold_m {A B} (body : B → A → M B) xs : ∀ acc,
  (∀ b x, within allowed (body b x)) → within allowed (fold_m body acc xs).
Proof.
  induction xs as [|x xs IH]; intros acc Hb; [apply within_ret|]. apply within_bind; [done|]. intros b. by apply IH.
Qed.
End Rules.

(** Filling the index cache. *)
Lemma within_check_registered allowed asset : within allowed (check_registered_asset asset).
Proof.
  intros c w u w' H. unfold check_registered_asset in H. step H.
  destruct (default _ _) eqn:Ei in H.
  { exact (within_extend_ttl allowed _ c w u w' H). }
  step H. destruct (persistent w (KeyAssetRegistered asset)) as [[]|] eqn:Er; step H; [|done..].
  rewrite run_bind, (run_extend_ttl _ _ _ _ Er) in H. cbv beta iota in H. step H.
  rewrite run_extend_put in H. injection H as _ <-. split.
  - intros k area Hk Hi _. apply persistent_put_ne. intros <-. by injection Hk as <-.
  - intros a _ _. destruct (decide (a = asset)) as [->|Hne].
    + right. by rewrite persistent_put_eq.
    + left. apply persistent_put_ne. congruence.
  - done.
  - done.
Qed.

Lemma within_get_unwrap allowed k : within allowed (get_unwrap k).
Proof. apply within_bind; [apply within_get|]. intros v. apply within_lift. Qed.
Lemma within_get_admin allowed : within allowed get_admin.
Proof. exact (within_get_unwrap allowed KeyAdmin). Qed.

(** ** The entry lock *)

Lemma enter_Ok c w u w' :
  enter c w = Ok u w' → lock_held w = false ∧ w' = put_temporary KeyReentrancyGuard (Some true) w.
Proof.
  unfold enter, lock_held. rewrite run_bind. cbn [get_temporary_or]. destruct (default _ _); [done|].
  intros [= _ <-]. done.
Qed.

(** A guarded call runs only while the lock is free, and frees it. *)
Lemma guarded_Ok {A} (m : M A) c w a w' :
  guarded m c w = Ok a w' →
  lock_held w = false ∧ lock_held w' = false ∧
  ∃ w1, m c (put_temporary KeyReentrancyGuard (Some true) w) = Ok a w1 ∧
    w' = put_temporary KeyReentrancyGuard None w1.
Proof.
  unfold guarded. intros (u & w1 & [Hl ->]%enter_Ok & H)%bind_Ok.
  apply bind_Ok in H as (b & w2 & Hm & H). rewrite run_bind in H. unfold exit, remove_temporary in H.
  injection H as -> <-. split; [done|]. split; [|by exists w2].
  unfold lock_held. by rewrite temporary_put_eq.
Qed.

Lemma guarded_held {A} (m : M A) c w : lock_held w = true → guarded m c w = Err (Error Reentrant).
Proof.
  unfold lock_held, guarded, enter. intros Hl. rewrite !run_bind. unfold get_temporary_or.
  by destruct (default _ _).
Qed.

Lemma within_guarded {A} allowed (m : M A) : within allowed m → within allowed (guarded m).
Proof.
  intros Hm c w a w' (Hl & Hl' & w1 & H1 & ->)%guarded_Ok. destruct (Hm _ _ _ _ H1) as [HA HI _ HF].
  split; [done|done| |done]. by rewrite Hl, Hl'.
Qed.

Create HintDb within.
#[export] Hint Resolve within_ret within_fail within_panic_if within_lift within_get within_has within_get_or
  within_extend_ttl within_get_bump_or within_get_touch within_get_temporary within_get_temporary_or
  within_has_temporary within_extend_temporary within_publish within_require_auth within_sequence
  within_timestamp within_contract within_get_flags within_mark_all within_mark within_flag_on
  within_check_registered within_get_unwrap within_get_admin : within.

(** The writes a footprint allows, by computation or by an assumption about
    an unknown one. *)
Ltac may_write_leaf :=
  first [ reflexivity | assumption | match goal with k : _ |- _ => destruct k; reflexivity end ].

(** [walk] follows a handler into everything it calls; recursive helpers need
    a hint in [within]. *)
Ltac walk_step :=
  lazymatch goal with
  | |- within ?a (_ ≫= _) => apply (within_bind a)
  | |- within ?a (put ?k ?v) => refine (within_put a k v _); may_write_leaf
  | |- within ?a (set ?k ?v) => refine (within_set a k v _); may_write_leaf
  | |- within ?a (remove ?k) => refine (within_remove a k _); may_write_leaf
  | |- within ?a (set_temporary ?k ?v) => refine (within_set_temporary a k v _); reflexivity
  | |- within ?a (remove_temporary ?k) => refine (within_remove_temporary a k _); reflexivity
  | |- within ?a (get ?k) => exact (within_get a k)
  | |- within ?a (has ?k) => exact (within_has a k)
  | |- within ?a (get_or ?k ?d) => exact (within_get_or a k d)
  | |- within ?a (get_bump_or ?k ?d) => exact (within_get_bump_or a k d)
  | |- within ?a (get_touch ?k) => exact (within_get_touch a k)
  | |- within ?a (get_unwrap ?k) => exact (within_get_unwrap a k)
  | |- within ?a (get_temporary ?k) => exact (within_get_temporary a k)
  | |- within ?a (get_temporary_or ?k ?d) => exact (within_get_temporary_or a k d)
  | |- within ?a (guarded _) => apply (within_guarded a)
  | |- within ?a (for_each _ _) => apply (within_for_each a)
  | |- within ?a (fold_m _ _ _) => apply (within_fold_m a)
  | |- within _ (match ?x with _ => _ end) => destruct x
  | |- within _ ?m =>
      first [ solve [eauto 2 with within nocore] | let h := head_of m in progress unfold h ]
  end.
Ltac walk := repeat first [ progress intros | walk_step ].

(** ** The recursive helpers, and a round of aggregation *)

(** [walk_rec] also uses the induction hypotheses. *)
Ltac walk_rec :=
  repeat first [ progress intros | match goal with IH : _ |- within _ _ => apply IH end | walk_step ].

Section Recursive.
Context `{BP : BuildProfile} `{CR : Crypto} `{US : UnstableSort} `{XD : Xdr} `{CB : Callbacks} `{TK : Token}.
Context (allowed : Area → bool).
#[local] Notation within := (within allowed).

Lemma within_prune_versions index : within (prune_versions index).
Proof. induction index as [|v index IH]; cbn [prune_versions]; walk_rec. Qed.
Lemma within_history_from index_rev : ∀ returned take, within (history_from index_rev returned take).
Proof. induction index_rev as [|v index IH]; intros; cbn [history_from]; walk_rec. Qed.
Lemma within_audit_log_from n : ∀ i count limit results, within (audit_log_from n i count limit results).
Proof. induction n as [|n IH]; intros; cbn [audit_log_from]; walk_rec. Qed.
Lemma within_verify_from n : ∀ i h, within (verify_from n i h).
Proof. induction n as [|n IH]; intros; cbn [verify_from]; walk_rec. Qed.
Lemma within_cycle_actions n : ∀ i a seen, within (AuditReports.cycle_actions n i a seen).
Proof. induction n as [|n IH]; intros; cbn [AuditReports.cycle_actions]; walk_rec. Qed.
Lemma within_history_page asset cursor l : ∀ n, within (History.history_page asset cursor n l).
Proof. induction l as [|x l IH]; intros; cbn [History.history_page]; walk_rec. Qed.
Lemma within_range_loop n : ∀ asset ledger, within (History.range_loop n asset ledger).
Proof. induction n as [|n IH]; intros; cbn [History.range_loop]; walk_rec. Qed.
Lemma within_count_recent asset now window l : within (Deferral.count_recent asset now window l).
Proof. induction l as [|x l IH]; intros; cbn [Deferral.count_recent]; walk_rec. Qed.
Lemma within_head_before asset ledger l : within (head_before_loop asset ledger l).
Proof. induction l as [|x l IH]; intros; cbn [head_before_loop]; walk_rec. Qed.
Lemma within_drop_oldest asset m l : within (Optimistic.drop_oldest asset m l).
Proof. induction l as [|x l IH]; intros; cbn [Optimistic.drop_oldest]; walk_rec. Qed.
Lemma within_callback ct m a p t n : within (try_invoke_callback ct m a p t n).
Proof. apply within_same. by intros c w ? ? [= <- <-]. Qed.
Lemma within_try_transfer token from to amount : within (try_transfer token from to amount).
Proof.
  intros c w a w' H. unfold try_transfer in H. destruct (token_accepts _ _ _ _ _ _); injection H as <- <-.
  - apply Within_events.
  - apply Within_refl.
Qed.
Lemma within_stored_prices asset l : ∀ n, within (ConfidenceBand.stored_prices n asset l).
Proof. induction l as [|x l IH]; intros [|n]; cbn [ConfidenceBand.stored_prices]; walk_rec. Qed.
Lemma within_expand n : ∀ seen out frontier, within (SanityLattice.expand n seen out frontier).
Proof. induction n as [|n IH]; intros ? ? [|x l]; cbn [SanityLattice.expand]; walk_rec. Qed.
Lemma within_count_loop asset i l s : within (Aggregation.count_loop asset i l s).
Proof. induction s as [|x s IH]; intros; cbn [Aggregation.count_loop]; walk_rec. Qed.
Lemma within_candidate_loop asset source p t s : ∀ acc, within (Aggregation.candidate_loop asset source p t s acc).
Proof. induction s as [|x s IH]; intros; cbn [Aggregation.candidate_loop]; walk_rec. Qed.
Lemma within_submitted source l : ∀ out, within (Aggregation.submitted_assets source out l).
Proof. induction l as [|x l IH]; intros; cbn [Aggregation.submitted_assets]; walk_rec. Qed.
Lemma within_history_before asset s n : ∀ newest, within (Twap.history_before asset s n newest).
Proof. induction n as [|n IH]; intros; cbn [Twap.history_before]; walk_rec. Qed.
Lemma within_entries_of asset s : within (Queries.entries_of asset s).
Proof. induction s as [|x s IH]; intros; cbn [Queries.entries_of]; walk_rec. Qed.
Lemma within_first_at asset t n : ∀ ledger, within (Queries.first_at_or_before asset t ledger n).
Proof. induction n as [|n IH]; intros; cbn [Queries.first_at_or_before]; walk_rec. Qed.
Lemma within_recent_entries asset n : ∀ r ledger, within (Queries.recent_entries asset r ledger n).
Proof. induction n as [|n IH]; intros; cbn [Queries.recent_entries]; walk_rec. Qed.
Lemma within_stored_loop asset m l s : ∀ acc, within (Queries.stored_loop asset m l s acc).
Proof. induction s as [|x s IH]; intros; cbn [Queries.stored_loop]; walk_rec. Qed.
Lemma within_compliant asset m l s : within (Queries.compliant asset m l s).
Proof. induction s as [|x s IH]; intros; cbn [Queries.compliant]; walk_rec. Qed.
Lemma within_collect_votes asset r s : within (ConsensusRounds.collect_votes asset r s).
Proof. induction s as [|x s IH]; intros; cbn [ConsensusRounds.collect_votes]; walk_rec. Qed.
Lemma within_collect_run n : ∀ asset r, within (ConsensusRounds.collect_run n asset r).
Proof. induction n as [|n IH]; intros; cbn [ConsensusRounds.collect_run]; walk_rec. Qed.
Lemma within_agreement b l : ∀ w, within (ConsensusRounds.check_agreement b w l).
Proof. induction l as [|x [|y l] IH]; intros; cbn [ConsensusRounds.check_agreement]; walk_rec. Qed.
Lemma within_challenges_from n : ∀ asset i e r results, within (Challenger.challenges_from n asset i e r results).
Proof. induction n as [|n IH]; intros; cbn [Challenger.challenges_from]; walk_rec. Qed.
Lemma within_prune_candidates m l s : within (prune_candidates m l s).
Proof. induction s as [|x s IH]; intros; cbn [prune_candidates]; walk_rec. Qed.
Lemma within_active_sources s : within (active_sources s).
Proof. induction s as [|x s IH]; intros; cbn [active_sources]; walk_rec. Qed.
Lemma within_count_geo s : ∀ a b c, within (count_geo s a b c).
Proof. induction s as [|x s IH]; intros; cbn [count_geo]; walk_rec. Qed.
Lemma within_strip_loop n : ∀ g c i, within (Multisig.strip_loop n g c i).
Proof. induction n as [|n IH]; intros; cbn [Multisig.strip_loop]; walk_rec. Qed.
Lemma within_unlink_loop n : ∀ g c i, within (Multisig.unlink_loop n g c i).
Proof. induction n as [|n IH]; intros; cbn [Multisig.unlink_loop]; walk_rec. Qed.
Lemma within_fresh_gather asset curve l : ∀ n, within (gather n asset curve l).
Proof. induction l as [|x l IH]; intros [|n]; cbn [gather]; walk_rec. Qed.
Lemma within_events_from n : ∀ i prev a b c, within (audit_events_from n i prev a b c).
Proof. induction n as [|n IH]; intros; cbn [audit_events_from]; walk_rec. Qed.
End Recursive.

#[export] Hint Resolve within_prune_versions within_history_from within_audit_log_from within_verify_from
  within_cycle_actions within_history_page within_range_loop within_count_recent within_head_before
  within_drop_oldest within_callback within_try_transfer within_stored_prices within_expand within_count_loop
  within_candidate_loop within_submitted within_history_before within_entries_of within_first_at
  within_recent_entries within_stored_loop within_compliant within_collect_votes within_collect_run
  within_agreement within_challenges_from within_prune_candidates within_active_sources within_count_geo
  within_strip_loop within_unlink_loop within_fresh_gather within_events_from : within.
#[export] Hint Extern 1 (_ = true) => reflexivity : within.

(** ** A round of aggregation *)

Section Round.
Context `{BP : BuildProfile} `{CR : Crypto} `{US : UnstableSort} `{XD : Xdr} `{CB : Callbacks} `{TK : Token}.
Context (allowed : Area → bool) (Hprices : allowed AreaPrices = true).
#[local] Notation within := (within allowed).

Lemma within_history_prune f asset cap m l : ∀ n, within (Aggregation.prune_loop f asset cap m l n).
Proof. induction l as [|x l IH]; intros; cbn [Aggregation.prune_loop]; walk_rec. Qed.
#[local] Hint Resolve within_history_prune : within.
Lemma within_gather rc asset g src : within (Aggregation.gather_one rc asset g src).
Proof. walk. Qed.
#[local] Hint Resolve within_gather : within.
Lemma within_publish_price rc asset g prices weights raw price degraded ledger decimals me :
  within (Aggregation.publish_price rc asset g prices weights raw price degraded ledger decimals me).
Proof. walk. Qed.
#[local] Hint Resolve within_publish_price : within.
Lemma within_round asset ledger decimals recompute :
  within (Aggregation.aggregate_asset_mode asset ledger decimals recompute).
Proof. walk. Qed.
#[local] Hint Resolve within_round : within.
Lemma within_recompute_loop reason ledger l : ∀ n deferred,
  within (Aggregation.recompute_loop reason ledger n deferred l).
Proof. induction l as [|x l IH]; intros; cbn [Aggregation.recompute_loop]; walk_rec. Qed.
#[local] Hint Resolve within_recompute_loop : within.
Lemma within_source_change source reason : within (Aggregation.recompute_source_change source reason).
Proof. walk. Qed.
#[local] Hint Resolve within_source_change : within.

Context (Hmoney : allowed AreaMoney = true).
Lemma within_is_inactive source : within (is_source_inactive source).
Proof. walk. Qed.
#[local] Hint Resolve within_is_inactive : within.
Lemma within_count_inactive s : ∀ n, within (count_inactive s n).
Proof. induction s as [|x s IH]; intros; cbn [count_inactive]; walk_rec. Qed.
Context (Hsources : allowed AreaSources = true).
Lemma within_prune_loop m l s : ∀ n, within (prune_loop m l n s).
Proof. induction s as [|x s IH]; intros; cbn [prune_loop]; walk_rec. Qed.
End Round.

#[export] Hint Resolve within_history_prune within_gather within_publish_price within_round within_recompute_loop within_source_change
  within_is_inactive within_count_inactive within_prune_loop : within.

Lemma within_store_batch allowed source d l t ps :
  allowed AreaSubmissions = true → within allowed (Submission.store_batch source d l t ps).
Proof. intros Hs. induction ps as [|[[a p] ts] ps IH]; cbn [Submission.store_batch]; walk_rec. Qed.
#[export] Hint Resolve within_store_batch : within.
