(* ===== verification/Entry.v ===== *)
(** * [lib.rs]: the entry points of the contract

    Each definition is one [pub fn] of the contract interface: it validates the
    sizes and texts the interface caps, takes the lock where the source does
    ([guarded]) and forwards to the module that implements it.  The names of
    the interface and of the modules coincide, so calls are qualified by file. *)
From stdpp Require Import base list strings.
From S2P Require Import Prelude Machine Types Host AuditLog Config Admin Assets Frames.
From S2P Require Import SourceGuards FreshnessWeight Provenance PriceCallback Sources InputValidation.
From S2P Require History Policy PriceBounds RiskTier FreshnessQuorum InfluenceCap Explanation.
From S2P Require Correlation OutlierFilter Deferral DqPipeline SourceLifecycle SourceComparison Blackout.
From S2P Require SanityLattice Scorecards ConfidenceBand GasMetering Disagreement Latency Rbac StorageTier.
From S2P Require ContributionQuality Corrections Aggregation Resilience ConsensusRounds Breaker Recovery.
From S2P Require DeadMan Triggers Submission CommitReveal Degradation Twap Queries Multisig Timelock.
From S2P Require AuditReports Challenger Optimistic Scheduling Reputation Verification.
From S2P Require Relayer StateChannel.
From S2P Require Import EmergencyPause SignedSubmission.
#[local] Open Scope Z_scope.
#[local] Set Default Goal Selector "!".

Section Entry.
Context `{BP : BuildProfile} `{CR : Crypto} `{US : UnstableSort} `{XD : Xdr} `{CB : Callbacks} `{TK : Token}.
Context `{SG : Signatures} `{AT : Relayer.AddressText} `{SX : AuditReports.SymbolXdr}.

Definition initialize (admin : Address) (min_sources_required max_history_length decimals : Z)
    (description : string) : M unit :=
  guarded (Admin.initialize admin min_sources_required max_history_length decimals description).

Definition upgrade (new_wasm_hash : Bytes) : M unit := guarded (Admin.upgrade new_wasm_hash).

Definition enable_all_feature_flags : M unit :=
  guarded (admin ← get_admin; require_auth admin;; Flags.mark_all).

Definition set_admin (new_admin : Address) : M unit := guarded (Admin.set_admin new_admin).

Definition get_admin_address : M Address := guarded Admin.get_admin_address.

Definition has_role (caller : Address) (role : Role) : M bool := Rbac.has_role caller role.

Definition delegate_role (delegatee : Address) (role : Role) : M unit := Rbac.delegate_role delegatee role.

Definition revoke_role (delegatee : Address) (role : Role) : M unit := Rbac.revoke_role delegatee role.

Definition get_role_holders (role : Role) : M (list Address) := Rbac.get_role_holders role.

Definition get_roles_for_holder (holder : Address) : M (list Role) := Rbac.get_roles_for_holder holder.

Definition emergency_pause (reason : string) (auto_unpause_ledgers : Z) : M unit :=
  EmergencyPause.emergency_pause reason auto_unpause_ledgers.

Definition extend_emergency_pause (additional_ledgers : Z) : M unit :=
  EmergencyPause.extend_emergency_pause additional_ledgers.

Definition cancel_emergency_pause : M unit := EmergencyPause.cancel_emergency_pause.

Definition is_emergency_pause_active : M bool := EmergencyPause.is_emergency_pause_active.

Definition get_emergency_pause : M (option EmergencyPause) := EmergencyPause.get_emergency_pause.

Definition set_correlation_pair (base_asset quote_asset : Address) (min_ratio max_ratio : Z) (enabled : bool)
    : M unit :=
  Correlation.set_correlation_pair base_asset quote_asset min_ratio max_ratio enabled.

Definition is_correlation_flagged (source asset : Address) : M bool :=
  Correlation.is_correlation_flagged source asset.

Definition clear_correlation_flag (source asset : Address) : M unit :=
  Correlation.clear_correlation_flag source asset.

Definition challenge_price (challenger asset : Address) (expected_price : Z) (proof_data : Bytes) : M unit :=
  Challenger.challenge_price challenger asset expected_price proof_data.

Definition resolve_challenge (challenge_id : Z) (is_valid : bool) : M unit :=
  Challenger.resolve_challenge challenge_id is_valid.

Definition get_challenge_history (asset : Address) (limit : Z) : M (list Challenge) :=
  Challenger.get_challenge_history asset limit.

Definition get_challenger_rewards (challenger : Address) : M Z := Challenger.get_challenger_rewards challenger.

Definition get_open_challenge_count (asset : Address) : M Z := Challenger.get_open_challenge_count asset.

Definition get_audit_log_count : M Z := AuditLog.get_audit_log_count.

Definition get_admin_audit_log (from_id limit : Z) : M (list AuditEntry) :=
  AuditLog.get_admin_audit_log from_id limit.

Definition get_audit_log_head : M Bytes := AuditLog.get_audit_log_head.

Definition verify_audit_chain : M bool := AuditLog.verify_audit_chain.

Definition simulate_aggregation (asset : Address) (hypothetical_prices : list (Address * Z)) : M (option Z) :=
  validate_list_len "simulate_aggregation" "hypothetical_prices" (Z.of_nat (length hypothetical_prices));;
  Submission.simulate_aggregation asset hypothetical_prices.

Definition submit_price_merkle (source : Address) (root : Bytes) (proofs : list MerkleProof) : M unit :=
  validate_list_len "submit_price_merkle" "proofs" (Z.of_nat (length proofs));;
  Submission.submit_price_merkle source root proofs.

Definition set_min_sources_required (new_min : Z) : M unit := guarded (Admin.set_min_sources_required new_min).

Definition get_min_sources_required : M Z := guarded Config.get_min_sources_required.

Definition set_max_history_length (new_max : Z) : M unit := guarded (Admin.set_max_history_length new_max).

Definition get_max_history_length : M Z := guarded Config.get_max_history_length.

Definition set_resolution (new_resolution : Z) : M unit := guarded (Admin.set_resolution new_resolution).

Definition get_resolution : M Z := guarded Config.get_resolution.

Definition set_decimals (new_decimals : Z) : M unit := guarded (Admin.set_decimals new_decimals).

Definition get_decimals : M Z := guarded Config.get_decimals.

Definition set_description (new_description : string) : M unit := guarded (Admin.set_description new_description).

Definition get_description : M string := guarded Config.get_description.

Definition set_timestamp_threshold (threshold : Z) : M unit := guarded (Admin.set_timestamp_threshold threshold).

Definition get_timestamp_threshold : M Z := guarded Config.get_timestamp_threshold.

Definition set_max_price_deviation (deviation_basis_points : Z) : M unit :=
  guarded (Admin.set_max_price_deviation deviation_basis_points).

Definition get_max_price_deviation : M Z := guarded Config.get_max_price_deviation.

Definition set_heartbeat_interval (interval : Z) : M unit := guarded (Admin.set_heartbeat_interval interval).

Definition get_heartbeat_interval : M Z := guarded Config.get_heartbeat_interval.

Definition set_query_rate_limit (max_per_ledger : Z) : M unit := Admin.set_query_rate_limit max_per_ledger.

Definition get_query_rate_limit : M Z := Config.get_query_rate_limit.

Definition set_subscription_price (duration amount : Z) : M unit := Admin.set_subscription_price duration amount.

Definition set_asset_resolution (asset : Address) (resolution : Z) : M unit :=
  Admin.set_asset_resolution asset resolution.

Definition get_asset_resolution (asset : Address) : M Z := Config.get_asset_resolution asset.

Definition trigger_aggregation (asset : Address) : M unit := Queries.trigger_aggregation asset.

Definition set_aggregation_cooldown (cooldown_ledgers : Z) : M unit :=
  Admin.set_aggregation_cooldown cooldown_ledgers.

Definition get_aggregation_cooldown : M Z := Config.get_aggregation_cooldown.

Definition set_aggregation_method (method : Z) : M unit := guarded (Admin.set_aggregation_method method).

Definition get_aggregation_method : M Z := Config.get_aggregation_method.

Definition get_config_history (count : Z) : M (list ConfigSnapshot) := Config.get_config_history count.

Definition rollback_config (version : Z) : M unit := guarded (Config.rollback_config version).

Definition set_min_submission_interval (interval_ledgers : Z) : M unit :=
  Admin.set_min_submission_interval interval_ledgers.

Definition get_min_submission_interval : M Z := Config.get_min_submission_interval.

Definition get_compliant_sources (asset : Address) : M (list Address) := Queries.get_compliant_sources asset.

Definition propose_batch (operations : list BatchOperation) : M Z :=
  validate_list_len "propose_batch" "operations" (Z.of_nat (length operations));;
  Timelock.propose_batch operations.

Definition execute_batch (batch_id : Z) : M unit := Timelock.execute_batch batch_id.

Definition cancel_batch (batch_id : Z) : M unit := Timelock.cancel_batch batch_id.

Definition add_source (source : Address) (name : string) : M unit := guarded (Sources.add_source source name).

Definition enroll_source (source : Address) (name : string) : M unit :=
  validate_string "enroll_source" "name" name;;
  guarded (Sources.enroll_source source name).

Definition submit_source_evidence (source : Address) (identity_evidence endpoint_ownership_evidence : string)
    (operational_contact reliability_evidence : string) : M unit :=
  for_each
    [("identity_evidence", identity_evidence); ("endpoint_ownership_evidence", endpoint_ownership_evidence);
     ("operational_contact", operational_contact); ("reliability_evidence", reliability_evidence)]
    (λ '(param, value), validate_string "submit_source_evidence" param value);;
  guarded (Sources.submit_source_evidence source identity_evidence endpoint_ownership_evidence
             operational_contact reliability_evidence).

Definition activate_source (source : Address) : M unit := guarded (Sources.activate_source source).

Definition get_source_enrollment (source : Address) : M (option SourceEnrollment) :=
  Sources.get_source_enrollment source.

Definition set_max_sources (new_max : Z) : M unit := Admin.set_max_sources new_max.

Definition get_max_sources : M Z := Config.get_max_sources.

Definition set_max_history_per_asset (new_max : Z) : M unit := Admin.set_max_history_per_asset new_max.

Definition get_max_history_per_asset : M Z := Config.get_max_history_per_asset.

Definition set_max_events_per_call (new_max : Z) : M unit := Admin.set_max_events_per_call new_max.

Definition get_max_events_per_call : M Z := Config.get_max_events_per_call.

Definition set_max_aggregation_sources (new_max : Z) : M unit := Admin.set_max_aggregation_sources new_max.

Definition get_max_aggregation_sources : M Z := Config.get_max_aggregation_sources.

Definition remove_source (source : Address) : M unit := guarded (Sources.remove_source source).

Definition is_source (source : Address) : M bool := guarded (Sources.is_source source).

Definition get_oracle_sources : M OracleSources := guarded Sources.get_oracle_sources.

Definition add_source_with_assets (source : Address) (name : string) (assets : list Address) : M unit :=
  guarded
    (validate_list_len "add_source_with_assets" "assets" (Z.of_nat (length assets));;
     Sources.add_source_with_assets source name assets).

Definition get_source_assets (source : Address) : M (list Address) := Sources.get_source_assets source.

Definition add_source_asset (source asset : Address) : M unit := guarded (Sources.add_source_asset source asset).

Definition remove_source_asset (source asset : Address) : M unit :=
  guarded (Sources.remove_source_asset source asset).

Definition set_source_verification (source : Address) (verified : bool) (verification_method : string)
    (verifier : Address) : M unit :=
  guarded (Sources.set_source_verification source verified verification_method verifier).

Definition get_source_verification (source : Address) : M (option SourceVerification) :=
  Sources.get_source_verification source.

Definition rotate_source_key (source new_address : Address) : M unit :=
  guarded (Sources.rotate_source_key source new_address).

Definition submit_heartbeat (source : Address) : M unit := guarded (Sources.submit_heartbeat source).

Definition is_source_inactive (source : Address) : M bool := guarded (Sources.is_source_inactive source).

Definition get_inactive_sources : M Z := guarded Sources.get_inactive_sources.

Definition get_source_last_heartbeat (source : Address) : M Z :=
  guarded (SourceGuards.get_source_last_heartbeat source).

Definition get_source_reputation (source : Address) : M Z := Sources.get_source_reputation source.

Definition set_reputation_decay_factor (factor : Z) : M unit := Sources.set_reputation_decay_factor factor.

Definition get_reputation_decay_factor : M Z := Sources.get_reputation_decay_factor.

Definition mark_source_for_removal (source : Address) : M unit := Sources.mark_source_for_removal source.

Definition cancel_source_removal (source : Address) : M unit := Sources.cancel_source_removal source.

Definition finalize_source_removal (source : Address) : M unit := Sources.finalize_source_removal source.

Definition set_removal_cooldown (ledgers : Z) : M unit := Sources.set_removal_cooldown ledgers.

Definition get_removal_cooldown : M Z := Sources.get_removal_cooldown.

Definition is_source_pending_removal (source : Address) : M bool := Sources.is_source_pending_removal source.

Definition set_demerit_config (config : DemeritConfig) : M unit := guarded (SourceGuards.set_demerit_config config).

Definition get_demerit_config : M DemeritConfig := SourceGuards.get_demerit_config.

Definition get_source_demerits (source : Address) : M SourceDemeritState := SourceGuards.get_source_demerits source.

Definition reset_source_demerits (source : Address) : M unit := guarded (SourceGuards.reset_source_demerits source).

Definition set_source_governance (approvers : list Address) (threshold : Z) : M unit :=
  guarded
    (validate_list_len "set_source_governance" "approvers" (Z.of_nat (length approvers));;
     Sources.set_source_governance approvers threshold).

Definition get_source_governance : M (option SourceGovernance) := Sources.get_source_governance.

Definition propose_source (proposer source : Address) (name : string) : M Z :=
  guarded (Sources.propose_source proposer source name).

Definition approve_source (approver : Address) (proposal_id : Z) : M unit :=
  guarded (Sources.approve_source approver proposal_id).

Definition get_source_proposal (proposal_id : Z) : M SourceProposal := Sources.get_source_proposal proposal_id.

Definition set_source_geo (source : Address) (metadata : SourceGeoMetadata) : M unit :=
  guarded (Sources.set_source_geo source metadata).

Definition get_source_geo (source : Address) : M (option SourceGeoMetadata) := Sources.get_source_geo source.

Definition get_decentralization_report : M DecentralizationReport := Sources.get_decentralization_report.

Definition set_degradation_config (config : DegradationConfig) : M unit := guarded (Degradation.set_config config).

Definition get_degradation_config : M DegradationConfig := Degradation.get_config.

Definition get_degradation_stats (asset : Address) : M DegradationStats := Degradation.get_stats asset.

Definition get_degradation_window_stats (asset : Address) (window : Z) : M DegradationStats :=
  Degradation.get_window_stats asset window.

Definition set_anomaly_retention (retention : Z) : M unit := guarded (Explanation.set_retention retention).

Definition get_anomaly_retention : M Z := Explanation.get_retention.

Definition get_flag_explanations (asset source : Address) : M (list AnomalyExplanation) :=
  Explanation.get_for_source asset source.

Definition explain_submission (source asset : Address) (price timestamp : Z) : M (option AnomalyExplanation) :=
  Explanation.explain_submission source asset price timestamp.

Definition get_latest_flag_explanation (asset source : Address) : M (option AnomalyExplanation) :=
  Explanation.latest_for_source asset source.

Definition get_aggregate_flag_explanations (asset : Address) : M (list AnomalyExplanation) :=
  Explanation.get_for_asset asset.

Definition set_dq_config (asset : Address) (config : DqConfig) : M unit :=
  guarded (DqPipeline.set_config asset config).

Definition clear_dq_config (asset : Address) : M unit := guarded (DqPipeline.clear_config asset).

Definition get_dq_config (asset : Address) : M (option DqConfig) := DqPipeline.get_config asset.

Definition get_dq_anchor (asset : Address) : M (option DqAnchor) := DqPipeline.get_anchor asset.

Definition schedule_blackout (asset : Address) (start end_ : Z) : M unit :=
  guarded (Blackout.schedule asset start end_).

Definition extend_blackout (asset : Address) (new_end : Z) : M unit := guarded (Blackout.extend asset new_end).

Definition cancel_blackout (asset : Address) : M unit := guarded (Blackout.cancel asset).

Definition signal_volatility (source asset : Address) : M bool := guarded (Blackout.signal_volatility source asset).

Definition set_volatility_quorum (quorum : Z) : M unit := Blackout.set_volatility_quorum quorum.

Definition get_blackout (asset : Address) : M (option BlackoutWindow) := Blackout.get_window asset.

Definition set_source_comparison (asset : Address) (enabled : bool) : M unit :=
  SourceComparison.set_enabled asset enabled.

Definition get_source_comparison (asset : Address) : M ComparisonReport := SourceComparison.report asset.

Definition set_lifecycle_config (config : LifecycleConfig) : M unit := SourceLifecycle.set_config config.

Definition onboard_source (source : Address) (name : string) (identity : Bytes) : M unit :=
  validate_string "onboard_source" "name" name;;
  guarded (Sources.onboard source name identity).

Definition graduate_source (source : Address) : M unit := Sources.graduate source.

Definition get_onboarding_checklist (source : Address) : M OnboardingChecklist := Sources.checklist source.

Definition offboard_source (source : Address) (evidence_asset : option Address) : M unit :=
  guarded (Sources.offboard source evidence_asset).

Definition set_source_bond (amount : Z) : M unit := guarded (SourceGuards.set_source_bond amount).

Definition get_source_bond : M Z := SourceGuards.get_source_bond.

Definition deposit_source_bond (source : Address) : M unit := guarded (Sources.deposit_source_bond source).

Definition get_source_deposited_bond (source : Address) : M Z := SourceGuards.get_source_deposited_bond source.

Definition set_stake_token_contract (token : Address) : M unit := guarded (Reputation.set_stake_token_contract token).

Definition get_stake_token_contract : M (option Address) := Sources.get_stake_token_contract.

Definition set_max_assets (count : Z) : M unit := Admin.set_max_assets count.

Definition get_max_assets : M Z := Config.get_max_assets.

Definition register_asset (asset : Address) : M unit := guarded (Assets.register_asset asset).

Definition unregister_asset (asset : Address) : M unit := guarded (Assets.unregister_asset asset).

Definition disable_asset (asset : Address) : M unit := guarded (Assets.disable_asset asset).

Definition enable_asset (asset : Address) : M unit := guarded (Assets.enable_asset asset).

Definition is_asset_disabled (asset : Address) : M bool := guarded (Config.is_asset_disabled asset).

Definition get_asset_disabled_at (asset : Address) : M Z := guarded (Config.get_asset_disabled_at asset).

Definition is_asset_registered (asset : Address) : M bool := guarded (Assets.is_asset_registered asset).

Definition set_price_bounds (asset : Address) (min_price max_price max_change_bps_per_ledger : Z) : M unit :=
  guarded (Assets.set_price_bounds asset min_price max_price max_change_bps_per_ledger).

Definition get_price_bounds (asset : Address) : M PriceBounds := Assets.get_price_bounds asset.

Definition pause_asset (asset : Address) : M unit := guarded (Assets.pause_asset asset).

Definition unpause_asset (asset : Address) : M unit := guarded (Assets.unpause_asset asset).

Definition is_asset_paused (asset : Address) : M bool := Assets.is_asset_paused asset.

Definition is_circuit_breaker_tripped (asset : Address) : M bool := Assets.is_circuit_breaker_tripped asset.

Definition propose_price (proposer asset : Address) (price timestamp bond_amount : Z) : M Z :=
  guarded (Optimistic.propose_price proposer asset price timestamp bond_amount).

Definition dispute_proposal (disputer : Address) (proposal_id : Z) : M unit :=
  guarded (Optimistic.dispute_proposal disputer proposal_id).

Definition resolve_dispute (proposal_id : Z) (resolution : bool) : M unit :=
  guarded (Optimistic.resolve_dispute proposal_id resolution).

Definition get_proposal (proposal_id : Z) : M (option OptimisticProposal) := Optimistic.get_proposal proposal_id.

Definition resolve_via_external_data (proposal_id external_price : Z) (proof : ExternalDataProof) : M unit :=
  guarded (Optimistic.resolve_via_external_data proposal_id external_price proof).

Definition get_active_proposals : M (list OptimisticProposal) := Optimistic.get_active_proposals.

Definition set_optimistic_dispute_window (dispute_window_ledgers : Z) : M unit :=
  Admin.set_optimistic_dispute_window dispute_window_ledgers.

Definition get_optimistic_dispute_window : M Z := Config.get_optimistic_dispute_window.

Definition set_optimistic_min_bond (min_bond : Z) : M unit := Admin.set_optimistic_min_bond min_bond.

Definition get_optimistic_min_bond : M Z := Config.get_optimistic_min_bond.

Definition submit_price_inner (source asset : Address) (price timestamp : Z) (nonce : option Z) : M unit :=
  guarded
    (before_cpu ← GasMetering.cpu_usage;
     before_mem ← GasMetering.mem_usage;
     match nonce with
     | Some nonce => Submission.submit_price source asset price timestamp nonce
     | None => Submission.submit_price_auto source asset price timestamp
     end;;
     after_cpu ← GasMetering.cpu_usage;
     after_mem ← GasMetering.mem_usage;
     GasMetering.write_last_gas "submit_price" (sat_u64 (after_cpu - before_cpu)) (sat_u64 (after_mem - before_mem))).

Definition submit_price (source asset : Address) (price timestamp : Z) : M unit :=
  submit_price_inner source asset price timestamp None.

Definition submit_price_with_nonce (source asset : Address) (price timestamp nonce : Z) : M unit :=
  submit_price_inner source asset price timestamp (Some nonce).

Definition submit_price_with_volume (source asset : Address) (price timestamp : Z) (volume : option Z) : M unit :=
  guarded (Submission.submit_price_with_volume source asset price timestamp volume).

Definition submit_prices (source : Address) (asset_prices : list (Address * Z * Z)) : M unit :=
  validate_list_len "submit_prices" "asset_prices" (Z.of_nat (length asset_prices));;
  Submission.submit_prices source asset_prices.

Definition register_submission_key (source : Address) (public_key : Bytes) : M unit :=
  SignedSubmission.register_submission_key source public_key.

Definition submit_price_with_proof (source asset : Address) (price timestamp nonce expiration_ledger : Z)
    (signature : Bytes) : M unit :=
  SignedSubmission.submit_price_with_proof source asset price timestamp nonce expiration_ledger signature.

Definition set_time_trigger (asset : Address) (interval_seconds : Z) : M unit :=
  Triggers.set_time_trigger asset interval_seconds.

Definition get_time_trigger (asset : Address) : M Z := Triggers.get_time_trigger asset.

Definition set_submission_threshold_trigger (asset : Address) (threshold : Z) : M unit :=
  Triggers.set_submission_threshold_trigger asset threshold.

Definition get_submission_threshold_trigger (asset : Address) : M Z :=
  Triggers.get_submission_threshold_trigger asset.

Definition set_deviation_trigger (asset : Address) (deviation_bps : Z) : M unit :=
  Triggers.set_deviation_trigger asset deviation_bps.

Definition get_deviation_trigger (asset : Address) : M Z := Triggers.get_deviation_trigger asset.

Definition poke_time_trigger (asset : Address) : M bool := Triggers.poke_time_trigger asset.

Definition get_gas_stats : M (Z * Z * option GasRecord) :=
  cpu ← GasMetering.cpu_usage;
  mem ← GasMetering.mem_usage;
  last ← GasMetering.read_last_gas;
  mret (cpu, mem, last).

Definition get_storage_ttl_status : M (list AuditReports.StorageTtlEntry) := AuditReports.get_storage_ttl_status.

Definition get_price (asset : Address) (max_age : Z) : M (option AggregatePrice) :=
  guarded (Queries.get_price asset max_age).

Definition get_price_with_confidence (asset : Address) : M (option (AggregatePrice * Z)) :=
  Queries.get_price_with_confidence asset.

Definition get_source_price (asset source : Address) : M PriceEntry :=
  guarded (Queries.get_source_price asset source).

Definition get_all_prices (asset : Address) : M (list PriceEntry) := guarded (Queries.get_all_prices asset).

Definition override_price (asset : Address) (price : Z) (reason : string) (expiry_ledger : Z) : M unit :=
  Queries.override_price asset price reason expiry_ledger.

Definition remove_price_override (asset : Address) : M unit := Queries.remove_price_override asset.

Definition get_price_override (asset : Address) : M (option PriceOverrideEntry) := Queries.get_price_override asset.

Definition get_latest_ledger : M Z := guarded ledger_sequence.

Definition get_historical_price (asset : Address) (ledger : Z) : M PriceHistoryEntry :=
  guarded (History.get_historical_price asset ledger).

Definition has_historical_price (asset : Address) (ledger : Z) : M bool :=
  guarded (History.has_historical_price asset ledger).

Definition get_historical_prices (asset : Address) (start_ledger end_ledger : Z) : M (list PriceHistoryEntry) :=
  guarded (History.get_historical_prices asset start_ledger end_ledger).

Definition get_historical_prices_paginated (asset : Address) (cursor limit : Z)
    : M (list PriceHistoryEntry * option Z) :=
  guarded (History.get_historical_prices_paginated asset cursor limit).

Definition freeze_price (asset : Address) (reason : string) : M unit := Assets.freeze_price asset reason.

Definition unfreeze_price (asset : Address) : M unit := Assets.unfreeze_price asset.

Definition is_price_frozen (asset : Address) : M bool := Assets.is_price_frozen asset.

Definition set_interpolation_enabled (enabled : bool) : M unit := Admin.set_interpolation_enabled enabled.

Definition get_interpolation_enabled : M bool := Config.get_interpolation_enabled.

Definition get_aggregate_with_version (asset : Address) : M VersionedAggregatePrice :=
  guarded (Queries.get_aggregate_with_version asset).

Definition set_compaction_threshold_bps (threshold_bps : Z) : M unit :=
  guarded (History.admin_set_compaction_threshold_bps threshold_bps).

Definition get_compaction_threshold_bps : M Z := History.get_compaction_threshold_bps.

Definition compact_history (asset : Address) : M CompactionMetadata :=
  guarded (admin ← get_admin; require_auth admin;; History.compact_history asset).

Definition get_compaction_metadata (asset : Address) : M (option CompactionMetadata) :=
  History.get_compaction_metadata asset.

Definition migrate_history_to_shards (asset : Address) : M Z :=
  guarded (admin ← get_admin; require_auth admin;; History.migrate_history_to_shards asset).

Definition get_bucket_entries (asset : Address) (ledger : Z) : M (list PriceHistoryEntry) :=
  History.get_bucket_entries asset ledger.

Definition get_storage_budget (asset : Address) : M StorageBudget := guarded (History.get_storage_budget asset).

Definition get_total_storage_budget : M TotalStorageBudget := guarded History.get_total_storage_budget.

Definition decimals : M Z := guarded Config.get_decimals.

(** [assets.rs] *)
Definition MAX_ASSET_QUERY_SIZE : Z := 100.

Definition assets : M (list Queries.Asset) :=
  guarded
    (registered ← read_registered_assets;
     panic_if (MAX_ASSET_QUERY_SIZE <? Z.of_nat (length registered)) RecordsLimitExceeded;;
     mret (Queries.AssetStellar <$> registered)).

Definition assets_paginated (cursor : option Address) (limit : Z) : M (list Queries.Asset * option Address) :=
  guarded
    ('(registered, next_cursor) ← Assets.get_registered_assets_paginated cursor limit;
     mret (Queries.AssetStellar <$> registered, next_cursor)).

Definition resolution : M Z := guarded Config.get_resolution.

Definition lastprice (asset : Queries.Asset) : M (option PriceData) := guarded (Queries.lastprice asset).

Definition set_twap_min_cardinality (min_cardinality : Z) : M unit :=
  Queries.set_twap_min_cardinality min_cardinality.

Definition get_twap_min_cardinality : M Z := Queries.get_twap_min_cardinality.

Definition claim_rewards (claimer : Address) : M Z := Challenger.claim_rewards claimer.

Definition get_address_roles (holder : Address) : M (list Z) := Rbac.get_address_roles holder.

Definition price (asset : Queries.Asset) (timestamp : Z) : M (option PriceData) :=
  guarded (Queries.price asset timestamp).

Definition prices (asset : Queries.Asset) (records : Z) : M (option (list PriceData)) :=
  guarded (Queries.prices asset records).

Definition pause : M unit := guarded Config.pause.

Definition unpause : M unit := guarded Config.unpause.

Definition is_paused : M bool := guarded Config.is_paused.

(** The numbers the interface uses for operation types and priorities. *)
Definition operation_type (op_type : Z) : M OperationType :=
  match [OpUpgrade; OpSetAdmin; OpSetMinSources; OpSetMaxHistory; OpSetResolution; OpSetDecimals;
         OpSetDescription; OpSetTimestampThreshold] !! Z.to_nat op_type with
  | Some op => if op_type <? 0 then panic_with_error InvalidOperationType else mret op
  | None => panic_with_error InvalidOperationType
  end.
Definition operation_priority (priority : Z) : M OperationPriority :=
  if priority =? 0 then mret PrioUrgent else if priority =? 1 then mret PrioNormal
  else if priority =? 2 then mret PrioLongTerm else panic_with_error InvalidPriority.

Definition propose_operation (op_type : Z) (data : Bytes) : M Z :=
  guarded (op ← operation_type op_type; Timelock.propose_operation op data).

Definition execute_operation (op_id : Z) : M unit := guarded (Timelock.execute_operation op_id).

Definition cancel_operation (op_id : Z) : M unit := guarded (Timelock.cancel_operation op_id).

Definition get_timelock_duration : M Z := guarded Config.get_timelock_duration.

Definition set_timelock_duration (duration : Z) : M unit := guarded (Timelock.set_timelock_duration duration).

Definition propose_operation_with_priority (op_type : Z) (data : Bytes) (priority : Z) : M Z :=
  guarded
    (op ← operation_type op_type;
     prio ← operation_priority priority;
     Timelock.propose_operation_with_priority op data prio).

Definition get_priority_delay (priority : Z) : M Z :=
  prio ← operation_priority priority;
  Timelock.get_priority_delay prio.

Definition set_priority_delay (priority delay : Z) : M unit :=
  guarded (prio ← operation_priority priority; Timelock.set_priority_delay prio delay).

Definition add_relayer (relayer : Address) (name : string) : M unit := Relayer.add_relayer relayer name.

Definition remove_relayer (relayer : Address) : M unit := Relayer.remove_relayer relayer.

Definition is_relayer (relayer : Address) : M bool := Relayer.is_relayer relayer.

Definition get_relayer_info (relayer : Address) : M (option RelayerInfo) := Relayer.get_relayer_info relayer.

Definition delegate_relayer (source relayer : Address) (nonce expiration_ledger : Z) (signature : Bytes) : M unit :=
  Relayer.delegate_relayer source relayer nonce expiration_ledger signature.

Definition get_relayer_delegation (source relayer : Address) : M (option SourceRelayerDelegation) :=
  Relayer.get_relayer_delegation source relayer.

Definition challenge_relayed_submission (challenger relayer source asset : Address) (price timestamp : Z)
    (proof_data : Bytes) : M unit :=
  Relayer.challenge_relayed_submission challenger relayer source asset price timestamp proof_data.

Definition submit_price_relayed (relayer source asset : Address) (price timestamp : Z) : M unit :=
  Relayer.submit_price_relayed relayer source asset price timestamp.

Definition set_relayer_fee_per_submission (fee : Z) : M unit := Relayer.set_relayer_fee_per_submission fee.

Definition get_relayer_fee_per_submission : M Z := Relayer.get_relayer_fee_per_submission.

Definition get_relayer_fee_balance (relayer : Address) : M Z := Relayer.get_relayer_fee_balance relayer.

Definition get_relayer_submission_count (relayer : Address) : M Z := Relayer.get_relayer_submission_count relayer.

Definition submit_prices_relayed (relayer : Address) (submissions : list RelayedSubmission) : M unit :=
  validate_list_len "submit_prices_relayed" "submissions" (Z.of_nat (length submissions));;
  Relayer.submit_prices_relayed relayer submissions.

Definition set_relayer_bond_amount (amount : Z) : M unit := Relayer.set_relayer_bond_amount amount.

Definition get_relayer_bond_amount : M Z := Relayer.get_relayer_bond_amount.

Definition deposit_relayer_bond (relayer : Address) : M unit := Relayer.deposit_relayer_bond relayer.

Definition get_relayer_bond_balance (relayer : Address) : M Z := Relayer.get_relayer_bond_balance relayer.

Definition withdraw_relayer_bond (relayer : Address) : M unit := Relayer.withdraw_relayer_bond relayer.

Definition record_relayer_failure (relayer : Address) (reason : RelayerFailureReason) : M unit :=
  Relayer.record_relayer_failure relayer reason.

Definition get_relayer_failure_count (relayer : Address) : M Z := Relayer.get_relayer_failure_count relayer.

Definition slash_relayer (relayer : Address) (force : bool) : M unit := Relayer.slash_relayer relayer force.

Definition set_relayer_slash_percent (percent : Z) : M unit := Relayer.set_relayer_slash_percent percent.

Definition get_relayer_slash_percent : M Z := Relayer.get_relayer_slash_percent.

Definition set_relayer_failure_threshold (threshold : Z) : M unit := Relayer.set_relayer_failure_threshold threshold.

Definition get_relayer_failure_threshold : M Z := Relayer.get_relayer_failure_threshold.

Definition set_relayer_reward_rate (rate : Z) : M unit := Relayer.set_relayer_reward_rate rate.

Definition get_relayer_reward_rate : M Z := Relayer.get_relayer_reward_rate.

Definition get_relayer_reward_balance (relayer : Address) : M Z := Relayer.get_relayer_reward_balance relayer.

Definition get_relayer_dashboard (relayer : Address) : M RelayerDashboard := Relayer.get_relayer_dashboard relayer.

Definition get_source_health (source : Address) : M SourceHealthStatus := Sources.get_source_health source.

Definition get_missed_heartbeats (source : Address) : M Z := Sources.get_missed_heartbeats source.

Definition get_last_price_ledger (source : Address) : M Z := SourceGuards.get_last_price_ledger source.

Definition set_max_inactive_ledgers (ledgers : Z) : M unit := Sources.set_max_inactive_ledgers ledgers.

Definition get_max_inactive_ledgers : M Z := Sources.get_max_inactive_ledgers.

Definition set_heartbeat_window (window : Z) : M unit := Sources.set_heartbeat_window window.

Definition get_heartbeat_window : M Z := Sources.get_heartbeat_window.

Definition check_and_prune_inactive_sources : M Z := Sources.check_and_prune_inactive_sources.

Definition compute_adaptive_interval (missed : Z) : M Z :=
  base ← Config.get_heartbeat_interval;
  window ← Sources.get_heartbeat_window;
  mret (Sources.compute_adaptive_interval base missed window).

Definition commit_price (source asset : Address) (hash : Bytes) : M unit :=
  guarded (CommitReveal.commit_price source asset hash).

Definition reveal_price (source asset : Address) (price : Z) (salt : Bytes) (round_ledger : Z) : M unit :=
  guarded (CommitReveal.reveal_price source asset price salt round_ledger).

Definition reveal_prices_batch (source : Address) (reveals : list (Address * Z * Bytes * Z)) : M unit :=
  guarded (CommitReveal.reveal_prices_batch source reveals).

Definition current_round_ledger : M Z := CommitReveal.current_round_ledger.

Definition set_commit_window (ledgers : Z) : M unit := CommitReveal.set_commit_window ledgers.

Definition get_commit_window : M Z := CommitReveal.get_commit_window.

Definition set_reveal_window (ledgers : Z) : M unit := CommitReveal.set_reveal_window ledgers.

Definition get_reveal_window : M Z := CommitReveal.get_reveal_window.

Definition set_bft_parameters (fault_tolerance method : Z) : M unit :=
  guarded (Aggregation.set_bft_parameters fault_tolerance method).

Definition get_bft_fault_tolerance : M Z := Aggregation.get_bft_fault_tolerance.

Definition get_bft_aggregation_method : M Z := Aggregation.get_bft_aggregation_method.

Definition set_commit_reveal_enabled (enabled : bool) : M unit :=
  guarded (CommitReveal.set_commit_reveal_enabled enabled).

Definition get_commit_reveal_enabled : M bool := CommitReveal.get_commit_reveal_enabled.

Definition set_commit_reveal_slash_amount (amount : Z) : M unit :=
  guarded (CommitReveal.set_commit_reveal_slash_amount amount).

Definition get_commit_reveal_slash_amount : M Z := CommitReveal.get_commit_reveal_slash_amount.

Definition slash_expired_commits (asset source : Address) (round_ledger : Z) : M unit :=
  CommitReveal.slash_expired_commits asset source round_ledger.

Definition set_outlier_config (asset : Address) (config : option OutlierConfig) : M unit :=
  OutlierFilter.set_config asset config.

Definition get_outlier_exclusions (asset : Address) : M (list OutlierExclusion) := OutlierFilter.get_exclusions asset.

Definition get_outlier_config (asset : Address) : M OutlierConfig := OutlierFilter.get_config asset.

Definition get_latency_report (source asset : Address) : M LatencyReport := Latency.get_report source asset.

Definition get_latency_samples (source asset : Address) : M (list LatencySample) := Latency.get_samples source asset.

Definition get_provenance (asset : Address) (ledger : Z) : M ProvenanceRecord :=
  record ← Provenance.get_record asset ledger;
  match record with Some record => mret record | None => panic_with_error NoData end.

Definition verify_provenance (asset : Address) (ledger : Z) : M bool := Provenance.verify_link asset ledger.

Definition get_disagreement_index (asset : Address) : M (option DisagreementIndex) := Disagreement.get_index asset.

Definition dead_man_configure (trigger_after warn_after : Z) (operators : list Address) : M unit :=
  validate_list_len "dead_man_configure" "operators" (Z.of_nat (length operators));;
  DeadMan.configure trigger_after warn_after operators.

Definition dead_man_get_config : M DeadManConfig := DeadMan.get_config.

Definition dead_man_heartbeat (operator : Address) : M unit := DeadMan.heartbeat operator.

Definition dead_man_evaluate : M Z :=
  state ← DeadMan.evaluate;
  mret (match state with DeadManOperational => 0 | DeadManDegraded => 1 end).

Definition dead_man_is_degraded : M bool := DeadMan.is_degraded.

Definition dead_man_recover (guardian : Address) : M unit := DeadMan.recover guardian.

Definition ms_set_governors (governors : list Address) (required : Z) : M unit :=
  validate_list_len "ms_set_governors" "governors" (Z.of_nat (length governors));;
  Multisig.set_governors governors required.

Definition ms_get_governors : M (list Address) := Multisig.get_governors.

Definition ms_get_required_approvals : M Z := Multisig.get_required_approvals.

Definition ms_propose_operation (proposer : Address) (op_type : Z) (data : Bytes) : M Z :=
  guarded (op ← operation_type op_type; Multisig.propose_ms_operation proposer op data).

Definition ms_approve_operation (governor : Address) (op_id : Z) : M unit :=
  guarded (Multisig.approve_operation governor op_id).

Definition ms_retract_approval (governor : Address) (op_id : Z) : M unit :=
  guarded (Multisig.retract_approval governor op_id).

Definition ms_execute_operation (executor : Address) (op_id : Z) : M unit :=
  guarded (Multisig.execute_ms_operation executor op_id).

Definition ms_cancel_operation (canceller : Address) (op_id : Z) : M unit :=
  guarded (Multisig.cancel_ms_operation canceller op_id).

Definition ms_get_operation (op_id : Z) : M MultiSigOperation := Multisig.get_ms_operation op_id.

Definition ms_get_queue_head : M Z := Multisig.get_ms_queue_head.

Definition sc_open_channel (source : Address) (deposit : Z) (token_contract : Address) : M unit :=
  guarded (StateChannel.open_channel source deposit token_contract).

Definition sc_submit_batch (source : Address) (batch : list BatchItem) (signature source_pubkey : Bytes) : M unit :=
  validate_list_len "sc_submit_batch" "batch" (Z.of_nat (length batch));;
  guarded (StateChannel.submit_batch source batch signature source_pubkey).

Definition sc_close_channel (source : Address) : M unit := guarded (StateChannel.close_channel source).

Definition sc_dispute_channel (source : Address) (last_known_batch : list BatchItem)
    (signature source_pubkey : Bytes) : M unit :=
  validate_list_len "sc_dispute_channel" "last_known_batch" (Z.of_nat (length last_known_batch));;
  guarded (StateChannel.dispute_channel source last_known_batch signature source_pubkey).

Definition sc_get_channel (source : Address) : M (option StateChannel) := StateChannel.get_channel source.

Definition recovery_set_guardians (guardians : list Address) (threshold : Z) : M unit :=
  validate_list_len "recovery_set_guardians" "guardians" (Z.of_nat (length guardians));;
  Recovery.set_guardians guardians threshold.

Definition recovery_get_guardians : M (list Address) := Recovery.get_guardians.

Definition recovery_get_threshold : M Z := Recovery.get_recovery_threshold.

Definition recovery_set_delay (delay_ledgers : Z) : M unit := Recovery.set_recovery_delay delay_ledgers.

Definition recovery_get_delay : M Z := Recovery.get_recovery_delay.

Definition recovery_approve (guardian new_admin : Address) : M unit :=
  guarded (Recovery.approve_recovery guardian new_admin).

Definition recovery_cancel : M unit := guarded Recovery.cancel_recovery.

Definition recovery_execute : M unit := guarded Recovery.execute_recovery.

Definition recovery_get_pending : M (option GuardianRecovery) := Recovery.get_pending_recovery.

Definition get_admin : M Address := Config.get_admin.

Definition get_min_sources : M Z := Config.get_min_sources_required.

Definition set_max_history (new_max : Z) : M unit := Admin.set_max_history_length new_max.

Definition list_sources : M (list Address) :=
  registry ← read_oracle_sources;
  mret (os_sources registry).

Definition list_assets : M (list Address) :=
  registered ← read_registered_assets;
  panic_if (MAX_ASSET_QUERY_SIZE <? Z.of_nat (length registered)) RecordsLimitExceeded;;
  mret registered.

Definition get_price_history (asset : Address) (cursor limit : Z) : M (list PriceHistoryEntry) :=
  '(entries, _) ← History.get_historical_prices_paginated asset cursor limit;
  mret entries.

Definition check_source_liveness (source asset : Address) : M bool := Scheduling.check_source_liveness source asset.

Definition get_contribution_quality (source asset : Address) : M (option ContribQualityRecord) :=
  ContributionQuality.get_contribution_quality source asset.

Definition set_scoring_window (window : Z) : M unit := ContributionQuality.set_scoring_window window.

Definition get_scoring_window : M Z := ContributionQuality.get_scoring_window.

Definition register_price_callback (consumer asset callback_contract : Address) (method : string) : M unit :=
  PriceCallback.register_price_callback consumer asset callback_contract method.

Definition unregister_price_callback (consumer asset : Address) : M unit :=
  PriceCallback.unregister_price_callback consumer asset.

Definition get_price_callbacks (asset : Address) : M (list CallbackRegistration) :=
  PriceCallback.get_price_callbacks asset.

Definition set_asset_policy (asset : Address) (policy : option PolicyOverride) : M unit :=
  Policy.set_asset_policy asset policy.

Definition set_class_policy (class : Z) (policy : option PolicyOverride) : M unit :=
  Policy.set_class_policy class policy.

Definition set_asset_class (asset : Address) (class : option Z) : M unit := Policy.set_asset_class asset class.

Definition get_effective_policy (asset : Address) : M EffectivePolicy := Policy.effective_policy asset.

Definition get_asset_policy (asset : Address) : M (option PolicyOverride) := Policy.get_asset_policy asset.

Definition set_freshness_curve (asset : Address) (window_secs min_weight : Z) : M unit :=
  FreshnessWeight.set_curve asset window_secs min_weight.

Definition get_freshness_curve (asset : Address) : M FreshnessCurve := FreshnessWeight.get_curve asset.

Definition get_weighted_aggregate (asset : Address) : M (option WeightedAggregate) :=
  FreshnessWeight.get_weighted_aggregate asset.

Definition set_influence_cap (cap_bps : Z) : M unit := InfluenceCap.set_cap_bps cap_bps.

Definition get_influence_cap : M Z := InfluenceCap.get_cap_bps.

Definition get_confidence_band (asset : Address) : M (option ConfidenceBand) :=
  ConfidenceBand.get_confidence_band asset.

Definition remove_sources (sources : list Address) : M unit :=
  guarded
    (validate_list_len "remove_sources" "sources" (Z.of_nat (length sources));;
     Sources.remove_sources sources).

Definition recompute_asset_price (asset : Address) : M unit :=
  guarded
    (Aggregation.recompute_asset asset;;
     mret tt).

Definition is_source_excluded (source : Address) : M bool := Aggregation.is_excluded source.

Definition audit_governance_events : M GovernanceAuditReport := AuditLog.audit_governance_events.

Definition abandon_stalled_round (asset : Address) : M Z := ConsensusRounds.abandon_stalled_round asset.

Definition add_sanity_relation (asset : Address) (relation : SanityRelation) : M unit :=
  SanityLattice.add_relation asset relation.

Definition approve_storage_tier_downgrade (asset approver : Address) : M unit :=
  StorageTier.approve_storage_tier_downgrade asset approver.

Definition clear_breaker (asset : Address) : M unit := Breaker.clear_breaker asset.

Definition clear_deferral_policy (asset : Address) : M unit := Deferral.clear_policy asset.

Definition clear_depeg (asset : Address) : M unit := SanityLattice.clear_depeg asset.

Definition correct_price (asset : Address) (new_price : Z) (reason : string) : M Z :=
  guarded (Corrections.correct_price asset new_price reason).

Definition declare_depeg (asset : Address) (until_ledger : Z) (reason : string) : M unit :=
  validate_string "declare_depeg" "reason" reason;;
  SanityLattice.declare_depeg asset until_ledger reason.

Definition disable_scorecards : M unit := Scorecards.disable.

Definition enable_scorecards : M unit := Scorecards.enable.

Definition evaluate_breaker_rearm (asset : Address) (deviation_bps : Z) : M bool :=
  Breaker.evaluate_rearm asset deviation_bps.

Definition record_breaker_source_recovery (asset : Address) : M unit :=
  admin ← get_admin;
  require_auth admin;;
  check_registered_asset asset;;
  Breaker.record_source_recovery asset.

Definition execute_storage_tier_downgrade (asset : Address) : M unit :=
  StorageTier.execute_storage_tier_downgrade asset.

Definition finalize_confirmation (asset : Address) : M ConfirmedPrice := ConsensusRounds.finalize_confirmation asset.

Definition get_asset_risk_tier (asset : Address) : M (option RiskTier) := RiskTier.get_tier asset.

Definition get_asset_storage_tier (asset : Address) : M HistoryStorageTier :=
  StorageTier.get_asset_storage_tier asset.

Definition get_breaker_policy (asset : Address) : M BreakerPolicy := Breaker.get_breaker_policy asset.

Definition get_breaker_status (asset : Address) : M BreakerStatus := Breaker.get_breaker_status asset.

Definition get_confirmed_price (asset : Address) : M (option ConfirmedPrice) :=
  ConsensusRounds.get_confirmed_price asset.

Definition get_correction_count (asset : Address) : M Z := Corrections.correction_count asset.

Definition get_default_freshness_window : M Z := FreshnessQuorum.default_window.

Definition get_deferral_policy (asset : Address) : M (option DeferralPolicy) := Deferral.get_policy asset.

Definition get_equivocation_count (source asset : Address) : M Z :=
  ConsensusRounds.get_equivocation_count source asset.

Definition get_freshness_status (asset : Address) : M (option FreshnessStatus) := FreshnessQuorum.get_status asset.

Definition get_original_price (asset : Address) : M (option Z) := Corrections.get_original_price asset.

Definition get_price_bound_status (asset : Address) : M (option BoundStatus) := PriceBounds.get_status asset.

Definition get_price_bounds_tier (asset : Address) : M (option BoundsTier) := PriceBounds.get_bounds asset.

Definition clear_price_bounds_tier (asset : Address) : M unit := PriceBounds.clear_bounds asset.

Definition get_price_revision (asset : Address) (index : Z) : M (option PriceRevision) :=
  Corrections.get_revision asset index.

Definition get_price_revisions (asset : Address) : M (list PriceRevision) := Corrections.get_revisions asset.

Definition get_publication_status (asset : Address) : M (option PublicationStatus) := Deferral.get_status asset.

Definition get_recompute_affected_assets (source : Address) : M (list Address) := Aggregation.affected_assets source.

Definition get_resolved_asset_tier (asset : Address) : M (option ResolvedTier) :=
  over ← get_or (KeyAssetPolicy asset) (MkPolicyOverride None None None None);
  RiskTier.resolve asset over.

Definition get_risk_tier_params : M (list TierParams) := 
  mret (RiskTier.params <$> [Tier1BlueChip; Tier2Standard; Tier3Thin; Tier4Speculative]).

Definition get_round_config (asset : Address) : M RoundConfig := ConsensusRounds.get_round_config asset.

Definition get_round_status (asset : Address) : M RoundStatus := ConsensusRounds.get_round_status asset.

Definition get_round_tally (asset : Address) (round : Z) : M (option RoundTally) :=
  ConsensusRounds.get_round_tally asset round.

Definition get_sanity_peers (asset : Address) : M (list Address) := SanityLattice.reachable asset.

Definition get_sanity_relations (asset : Address) : M (list SanityRelation) := SanityLattice.get_relations asset.

Definition get_sanity_status (asset : Address) : M (option SanityStatus) := SanityLattice.get_status asset.

Definition get_scorecard_config : M ScorecardConfig := Scorecards.config.

Definition get_source_accuracy_score (source : Address) : M Z := Scorecards.accuracy_score source.

Definition get_source_scorecard (source : Address) : M SourceScorecard := Scorecards.get_scorecard source.

Definition get_source_scorecard_samples (source : Address) : M (list Z) := Scorecards.samples source.

Definition get_storage_tier_info (asset : Address) : M StorageTierInfo := StorageTier.get_storage_tier_info asset.

Definition get_tiered_historical_price (asset : Address) (ledger : Z) : M (option PriceHistoryEntry) :=
  StorageTier.read_history_entry asset ledger.

Definition has_asset_risk_tier (asset : Address) : M bool := RiskTier.require_tier asset.

Definition has_tiered_historical_price (asset : Address) (ledger : Z) : M bool :=
  entry ← StorageTier.read_history_entry asset ledger;
  mret (bool_decide (is_Some entry)).

Definition is_barred_from_round (source asset : Address) (round : Z) : M bool :=
  ConsensusRounds.is_barred_from_round source asset round.

Definition is_depeg_suspended (asset : Address) : M bool := SanityLattice.is_suspended asset.

Definition migrate_history_to_tier (asset : Address) (to_tier : HistoryStorageTier) : M Z :=
  StorageTier.migrate_history_to_tier asset to_tier.

Definition propose_storage_tier_downgrade (asset : Address) : M Z := StorageTier.propose_storage_tier_downgrade asset.

Definition remove_sanity_relation (asset peer : Address) (kind : SanityRelationKind) : M unit :=
  SanityLattice.remove_relation asset peer kind.

Definition report_equivocation (source asset : Address) (round : Z) : M unit :=
  ConsensusRounds.report_equivocation source asset round.

Definition set_asset_freshness_window (asset : Address) (secs : Z) : M unit :=
  FreshnessQuorum.set_asset_window asset secs.

Definition set_asset_risk_tier (asset : Address) (tier : option RiskTier) (reason : string) : M unit :=
  validate_string "set_asset_risk_tier" "reason" reason;;
  RiskTier.set_tier asset tier reason.

Definition set_asset_storage_tier (asset : Address) (tier : HistoryStorageTier) : M unit :=
  StorageTier.set_asset_storage_tier asset tier.

Definition set_breaker_policy (asset : Address) (policy : BreakerPolicy) : M unit :=
  Breaker.set_breaker_policy asset policy.

Definition set_correction_scope (scope : CorrectionScope) : M unit := Corrections.set_correction_scope scope.

Definition get_correction_scope : M CorrectionScope := Corrections.get_correction_scope.

Definition set_default_freshness_window (secs : Z) : M unit := FreshnessQuorum.set_default_window secs.

Definition set_deferral_policy (asset : Address) (policy : DeferralPolicy) : M unit :=
  Deferral.set_policy asset policy.

Definition set_price_bounds_tier (asset : Address) (tier : BoundsTier) : M unit := PriceBounds.set_bounds asset tier.

Definition set_risk_tier_enforcement (enabled : bool) : M unit := RiskTier.set_enforcement enabled.

Definition set_round_config (asset : Address) (config : RoundConfig) : M unit :=
  ConsensusRounds.set_round_config asset config.

Definition set_scorecard_config (config : ScorecardConfig) : M unit := Scorecards.set_config config.

Definition start_round (asset : Address) : M Z := ConsensusRounds.start_round asset.

Definition submit_round_vote (source asset : Address) (round price timestamp : Z) : M unit :=
  ConsensusRounds.submit_round_vote source asset round price timestamp.
End Entry.
