(* ===== verification/Contract.v ===== *)
(** * The contract as one machine

    A call of the contract is an entry point of [Entry.v] with its arguments;
    [run_entry] is what the host runs for it.  [areas_of] lists, entry point by
    entry point, the protected areas it may write, and [footprint_entry] proves
    that the list is complete. *)
From stdpp Require Import base list strings.
From S2P Require Import Prelude Machine Types Host AuditLog Config Admin Assets Frames.
From S2P Require Import SourceGuards FreshnessWeight Provenance PriceCallback Sources InputValidation.
From S2P Require History Policy PriceBounds RiskTier FreshnessQuorum InfluenceCap Explanation.
From S2P Require Correlation OutlierFilter Deferral DqPipeline SourceLifecycle SourceComparison Blackout.
From S2P Require SanityLattice Scorecards ConfidenceBand GasMetering Disagreement Latency Rbac StorageTier.
From S2P Require ContributionQuality Corrections Aggregation Resilience ConsensusRounds Breaker Recovery.
From S2P Require DeadMan Triggers Submission CommitReveal Degradation Twap Queries Multisig Timelock.
From S2P Require AuditReports Challenger Optimistic Scheduling Reputation Verification.
From S2P Require Relayer StateChannel.
From S2P Require Import EmergencyPause SignedSubmission.
From S2P Require Entry.
From S2P Require Import Footprint.
#[local] Open Scope Z_scope.
#[local] Set Default Goal Selector "!".

Inductive Call :=
  | EpInitialize (admin : Address) (min_sources_required max_history_length decimals : Z) (description : string)
  | EpUpgrade (new_wasm_hash : Bytes)
  | EpEnableAllFeatureFlags
  | EpSetAdmin (new_admin : Address)
  | EpGetAdminAddress
  | EpHasRole (caller : Address) (role : Role)
  | EpDelegateRole (delegatee : Address) (role : Role)
  | EpRevokeRole (delegatee : Address) (role : Role)
  | EpGetRoleHolders (role : Role)
  | EpGetRolesForHolder (holder : Address)
  | EpEmergencyPause (reason : string) (auto_unpause_ledgers : Z)
  | EpExtendEmergencyPause (additional_ledgers : Z)
  | EpCancelEmergencyPause
  | EpIsEmergencyPauseActive
  | EpGetEmergencyPause
  | EpSetCorrelationPair (base_asset quote_asset : Address) (min_ratio max_ratio : Z) (enabled : bool)
  | EpIsCorrelationFlagged (source asset : Address)
  | EpClearCorrelationFlag (source asset : Address)
  | EpChallengePrice (challenger asset : Address) (expected_price : Z) (proof_data : Bytes)
  | EpResolveChallenge (challenge_id : Z) (is_valid : bool)
  | EpGetChallengeHistory (asset : Address) (limit : Z)
  | EpGetChallengerRewards (challenger : Address)
  | EpGetOpenChallengeCount (asset : Address)
  | EpGetAuditLogCount
  | EpGetAdminAuditLog (from_id limit : Z)
  | EpGetAuditLogHead
  | EpVerifyAuditChain
  | EpSimulateAggregation (asset : Address) (hypothetical_prices : list (Address * Z))
  | EpSubmitPriceMerkle (source : Address) (root : Bytes) (proofs : list MerkleProof)
  | EpSetMinSourcesRequired (new_min : Z)
  | EpGetMinSourcesRequired
  | EpSetMaxHistoryLength (new_max : Z)
  | EpGetMaxHistoryLength
  | EpSetResolution (new_resolution : Z)
  | EpGetResolution
  | EpSetDecimals (new_decimals : Z)
  | EpGetDecimals
  | EpSetDescription (new_description : string)
  | EpGetDescription
  | EpSetTimestampThreshold (threshold : Z)
  | EpGetTimestampThreshold
  | EpSetMaxPriceDeviation (deviation_basis_points : Z)
  | EpGetMaxPriceDeviation
  | EpSetHeartbeatInterval (interval : Z)
  | EpGetHeartbeatInterval
  | EpSetQueryRateLimit (max_per_ledger : Z)
  | EpGetQueryRateLimit
  | EpSetSubscriptionPrice (duration amount : Z)
  | EpSetAssetResolution (asset : Address) (resolution : Z)
  | EpGetAssetResolution (asset : Address)
  | EpTriggerAggregation (asset : Address)
  | EpSetAggregationCooldown (cooldown_ledgers : Z)
  | EpGetAggregationCooldown
  | EpSetAggregationMethod (method : Z)
  | EpGetAggregationMethod
  | EpGetConfigHistory (count : Z)
  | EpRollbackConfig (version : Z)
  | EpSetMinSubmissionInterval (interval_ledgers : Z)
  | EpGetMinSubmissionInterval
  | EpGetCompliantSources (asset : Address)
  | EpProposeBatch (operations : list BatchOperation)
  | EpExecuteBatch (batch_id : Z)
  | EpCancelBatch (batch_id : Z)
  | EpAddSource (source : Address) (name : string)
  | EpEnrollSource (source : Address) (name : string)
  | EpSubmitSourceEvidence (source : Address) (identity_evidence endpoint_ownership_evidence : string)
      (operational_contact reliability_evidence : string)
  | EpActivateSource (source : Address)
  | EpGetSourceEnrollment (source : Address)
  | EpSetMaxSources (new_max : Z)
  | EpGetMaxSources
  | EpSetMaxHistoryPerAsset (new_max : Z)
  | EpGetMaxHistoryPerAsset
  | EpSetMaxEventsPerCall (new_max : Z)
  | EpGetMaxEventsPerCall
  | EpSetMaxAggregationSources (new_max : Z)
  | EpGetMaxAggregationSources
  | EpRemoveSource (source : Address)
  | EpIsSource (source : Address)
  | EpGetOracleSources
  | EpAddSourceWithAssets (source : Address) (name : string) (assets : list Address)
  | EpGetSourceAssets (source : Address)
  | EpAddSourceAsset (source asset : Address)
  | EpRemoveSourceAsset (source asset : Address)
  | EpSetSourceVerification (source : Address) (verified : bool) (verification_method : string) (verifier : Address)
  | EpGetSourceVerification (source : Address)
  | EpRotateSourceKey (source new_address : Address)
  | EpSubmitHeartbeat (source : Address)
  | EpIsSourceInactive (source : Address)
  | EpGetInactiveSources
  | EpGetSourceLastHeartbeat (source : Address)
  | EpGetSourceReputation (source : Address)
  | EpSetReputationDecayFactor (factor : Z)
  | EpGetReputationDecayFactor
  | EpMarkSourceForRemoval (source : Address)
  | EpCancelSourceRemoval (source : Address)
  | EpFinalizeSourceRemoval (source : Address)
  | EpSetRemovalCooldown (ledgers : Z)
  | EpGetRemovalCooldown
  | EpIsSourcePendingRemoval (source : Address)
  | EpSetDemeritConfig (config : DemeritConfig)
  | EpGetDemeritConfig
  | EpGetSourceDemerits (source : Address)
  | EpResetSourceDemerits (source : Address)
  | EpSetSourceGovernance (approvers : list Address) (threshold : Z)
  | EpGetSourceGovernance
  | EpProposeSource (proposer source : Address) (name : string)
  | EpApproveSource (approver : Address) (proposal_id : Z)
  | EpGetSourceProposal (proposal_id : Z)
  | EpSetSourceGeo (source : Address) (metadata : SourceGeoMetadata)
  | EpGetSourceGeo (source : Address)
  | EpGetDecentralizationReport
  | EpSetDegradationConfig (config : DegradationConfig)
  | EpGetDegradationConfig
  | EpGetDegradationStats (asset : Address)
  | EpGetDegradationWindowStats (asset : Address) (window : Z)
  | EpSetAnomalyRetention (retention : Z)
  | EpGetAnomalyRetention
  | EpGetFlagExplanations (asset source : Address)
  | EpExplainSubmission (source asset : Address) (price timestamp : Z)
  | EpGetLatestFlagExplanation (asset source : Address)
  | EpGetAggregateFlagExplanations (asset : Address)
  | EpSetDqConfig (asset : Address) (config : DqConfig)
  | EpClearDqConfig (asset : Address)
  | EpGetDqConfig (asset : Address)
  | EpGetDqAnchor (asset : Address)
  | EpScheduleBlackout (asset : Address) (start end_ : Z)
  | EpExtendBlackout (asset : Address) (new_end : Z)
  | EpCancelBlackout (asset : Address)
  | EpSignalVolatility (source asset : Address)
  | EpSetVolatilityQuorum (quorum : Z)
  | EpGetBlackout (asset : Address)
  | EpSetSourceComparison (asset : Address) (enabled : bool)
  | EpGetSourceComparison (asset : Address)
  | EpSetLifecycleConfig (config : LifecycleConfig)
  | EpOnboardSource (source : Address) (name : string) (identity : Bytes)
  | EpGraduateSource (source : Address)
  | EpGetOnboardingChecklist (source : Address)
  | EpOffboardSource (source : Address) (evidence_asset : option Address)
  | EpSetSourceBond (amount : Z)
  | EpGetSourceBond
  | EpDepositSourceBond (source : Address)
  | EpGetSourceDepositedBond (source : Address)
  | EpSetStakeTokenContract (token : Address)
  | EpGetStakeTokenContract
  | EpSetMaxAssets (count : Z)
  | EpGetMaxAssets
  | EpRegisterAsset (asset : Address)
  | EpUnregisterAsset (asset : Address)
  | EpDisableAsset (asset : Address)
  | EpEnableAsset (asset : Address)
  | EpIsAssetDisabled (asset : Address)
  | EpGetAssetDisabledAt (asset : Address)
  | EpIsAssetRegistered (asset : Address)
  | EpSetPriceBounds (asset : Address) (min_price max_price max_change_bps_per_ledger : Z)
  | EpGetPriceBounds (asset : Address)
  | EpPauseAsset (asset : Address)
  | EpUnpauseAsset (asset : Address)
  | EpIsAssetPaused (asset : Address)
  | EpIsCircuitBreakerTripped (asset : Address)
  | EpProposePrice (proposer asset : Address) (price timestamp bond_amount : Z)
  | EpDisputeProposal (disputer : Address) (proposal_id : Z)
  | EpResolveDispute (proposal_id : Z) (resolution : bool)
  | EpGetProposal (proposal_id : Z)
  | EpResolveViaExternalData (proposal_id external_price : Z) (proof : ExternalDataProof)
  | EpGetActiveProposals
  | EpSetOptimisticDisputeWindow (dispute_window_ledgers : Z)
  | EpGetOptimisticDisputeWindow
  | EpSetOptimisticMinBond (min_bond : Z)
  | EpGetOptimisticMinBond
  | EpSubmitPrice (source asset : Address) (price timestamp : Z)
  | EpSubmitPriceWithNonce (source asset : Address) (price timestamp nonce : Z)
  | EpSubmitPriceWithVolume (source asset : Address) (price timestamp : Z) (volume : option Z)
  | EpSubmitPrices (source : Address) (asset_prices : list (Address * Z * Z))
  | EpRegisterSubmissionKey (source : Address) (public_key : Bytes)
  | EpSubmitPriceWithProof (source asset : Address) (price timestamp nonce expiration_ledger : Z) (signature : Bytes)
  | EpSetTimeTrigger (asset : Address) (interval_seconds : Z)
  | EpGetTimeTrigger (asset : Address)
  | EpSetSubmissionThresholdTrigger (asset : Address) (threshold : Z)
  | EpGetSubmissionThresholdTrigger (asset : Address)
  | EpSetDeviationTrigger (asset : Address) (deviation_bps : Z)
  | EpGetDeviationTrigger (asset : Address)
  | EpPokeTimeTrigger (asset : Address)
  | EpGetGasStats
  | EpGetStorageTtlStatus
  | EpGetPrice (asset : Address) (max_age : Z)
  | EpGetPriceWithConfidence (asset : Address)
  | EpGetSourcePrice (asset source : Address)
  | EpGetAllPrices (asset : Address)
  | EpOverridePrice (asset : Address) (price : Z) (reason : string) (expiry_ledger : Z)
  | EpRemovePriceOverride (asset : Address)
  | EpGetPriceOverride (asset : Address)
  | EpGetLatestLedger
  | EpGetHistoricalPrice (asset : Address) (ledger : Z)
  | EpHasHistoricalPrice (asset : Address) (ledger : Z)
  | EpGetHistoricalPrices (asset : Address) (start_ledger end_ledger : Z)
  | EpGetHistoricalPricesPaginated (asset : Address) (cursor limit : Z)
  | EpFreezePrice (asset : Address) (reason : string)
  | EpUnfreezePrice (asset : Address)
  | EpIsPriceFrozen (asset : Address)
  | EpSetInterpolationEnabled (enabled : bool)
  | EpGetInterpolationEnabled
  | EpGetAggregateWithVersion (asset : Address)
  | EpSetCompactionThresholdBps (threshold_bps : Z)
  | EpGetCompactionThresholdBps
  | EpCompactHistory (asset : Address)
  | EpGetCompactionMetadata (asset : Address)
  | EpMigrateHistoryToShards (asset : Address)
  | EpGetBucketEntries (asset : Address) (ledger : Z)
  | EpGetStorageBudget (asset : Address)
  | EpGetTotalStorageBudget
  | EpDecimals
  | EpAssets
  | EpAssetsPaginated (cursor : option Address) (limit : Z)
  | EpResolution
  | EpLastprice (asset : Queries.Asset)
  | EpSetTwapMinCardinality (min_cardinality : Z)
  | EpGetTwapMinCardinality
  | EpClaimRewards (claimer : Address)
  | EpGetAddressRoles (holder : Address)
  | EpPrice (asset : Queries.Asset) (timestamp : Z)
  | EpPrices (asset : Queries.Asset) (records : Z)
  | EpPause
  | EpUnpause
  | EpIsPaused
  | EpProposeOperation (op_type : Z) (data : Bytes)
  | EpExecuteOperation (op_id : Z)
  | EpCancelOperation (op_id : Z)
  | EpGetTimelockDuration
  | EpSetTimelockDuration (duration : Z)
  | EpProposeOperationWithPriority (op_type : Z) (data : Bytes) (priority : Z)
  | EpGetPriorityDelay (priority : Z)
  | EpSetPriorityDelay (priority delay : Z)
  | EpAddRelayer (relayer : Address) (name : string)
  | EpRemoveRelayer (relayer : Address)
  | EpIsRelayer (relayer : Address)
  | EpGetRelayerInfo (relayer : Address)
  | EpDelegateRelayer (source relayer : Address) (nonce expiration_ledger : Z) (signature : Bytes)
  | EpGetRelayerDelegation (source relayer : Address)
  | EpChallengeRelayedSubmission (challenger relayer source asset : Address) (price timestamp : Z)
      (proof_data : Bytes)
  | EpSubmitPriceRelayed (relayer source asset : Address) (price timestamp : Z)
  | EpSetRelayerFeePerSubmission (fee : Z)
  | EpGetRelayerFeePerSubmission
  | EpGetRelayerFeeBalance (relayer : Address)
  | EpGetRelayerSubmissionCount (relayer : Address)
  | EpSubmitPricesRelayed (relayer : Address) (submissions : list RelayedSubmission)
  | EpSetRelayerBondAmount (amount : Z)
  | EpGetRelayerBondAmount
  | EpDepositRelayerBond (relayer : Address)
  | EpGetRelayerBondBalance (relayer : Address)
  | EpWithdrawRelayerBond (relayer : Address)
  | EpRecordRelayerFailure (relayer : Address) (reason : RelayerFailureReason)
  | EpGetRelayerFailureCount (relayer : Address)
  | EpSlashRelayer (relayer : Address) (force : bool)
  | EpSetRelayerSlashPercent (percent : Z)
  | EpGetRelayerSlashPercent
  | EpSetRelayerFailureThreshold (threshold : Z)
  | EpGetRelayerFailureThreshold
  | EpSetRelayerRewardRate (rate : Z)
  | EpGetRelayerRewardRate
  | EpGetRelayerRewardBalance (relayer : Address)
  | EpGetRelayerDashboard (relayer : Address)
  | EpGetSourceHealth (source : Address)
  | EpGetMissedHeartbeats (source : Address)
  | EpGetLastPriceLedger (source : Address)
  | EpSetMaxInactiveLedgers (ledgers : Z)
  | EpGetMaxInactiveLedgers
  | EpSetHeartbeatWindow (window : Z)
  | EpGetHeartbeatWindow
  | EpCheckAndPruneInactiveSources
  | EpComputeAdaptiveInterval (missed : Z)
  | EpCommitPrice (source asset : Address) (hash : Bytes)
  | EpRevealPrice (source asset : Address) (price : Z) (salt : Bytes) (round_ledger : Z)
  | EpRevealPricesBatch (source : Address) (reveals : list (Address * Z * Bytes * Z))
  | EpCurrentRoundLedger
  | EpSetCommitWindow (ledgers : Z)
  | EpGetCommitWindow
  | EpSetRevealWindow (ledgers : Z)
  | EpGetRevealWindow
  | EpSetBftParameters (fault_tolerance method : Z)
  | EpGetBftFaultTolerance
  | EpGetBftAggregationMethod
  | EpSetCommitRevealEnabled (enabled : bool)
  | EpGetCommitRevealEnabled
  | EpSetCommitRevealSlashAmount (amount : Z)
  | EpGetCommitRevealSlashAmount
  | EpSlashExpiredCommits (asset source : Address) (round_ledger : Z)
  | EpSetOutlierConfig (asset : Address) (config : option OutlierConfig)
  | EpGetOutlierExclusions (asset : Address)
  | EpGetOutlierConfig (asset : Address)
  | EpGetLatencyReport (source asset : Address)
  | EpGetLatencySamples (source asset : Address)
  | EpGetProvenance (asset : Address) (ledger : Z)
  | EpVerifyProvenance (asset : Address) (ledger : Z)
  | EpGetDisagreementIndex (asset : Address)
  | EpDeadManConfigure (trigger_after warn_after : Z) (operators : list Address)
  | EpDeadManGetConfig
  | EpDeadManHeartbeat (operator : Address)
  | EpDeadManEvaluate
  | EpDeadManIsDegraded
  | EpDeadManRecover (guardian : Address)
  | EpMsSetGovernors (governors : list Address) (required : Z)
  | EpMsGetGovernors
  | EpMsGetRequiredApprovals
  | EpMsProposeOperation (proposer : Address) (op_type : Z) (data : Bytes)
  | EpMsApproveOperation (governor : Address) (op_id : Z)
  | EpMsRetractApproval (governor : Address) (op_id : Z)
  | EpMsExecuteOperation (executor : Address) (op_id : Z)
  | EpMsCancelOperation (canceller : Address) (op_id : Z)
  | EpMsGetOperation (op_id : Z)
  | EpMsGetQueueHead
  | EpScOpenChannel (source : Address) (deposit : Z) (token_contract : Address)
  | EpScSubmitBatch (source : Address) (batch : list BatchItem) (signature source_pubkey : Bytes)
  | EpScCloseChannel (source : Address)
  | EpScDisputeChannel (source : Address) (last_known_batch : list BatchItem) (signature source_pubkey : Bytes)
  | EpScGetChannel (source : Address)
  | EpRecoverySetGuardians (guardians : list Address) (threshold : Z)
  | EpRecoveryGetGuardians
  | EpRecoveryGetThreshold
  | EpRecoverySetDelay (delay_ledgers : Z)
  | EpRecoveryGetDelay
  | EpRecoveryApprove (guardian new_admin : Address)
  | EpRecoveryCancel
  | EpRecoveryExecute
  | EpRecoveryGetPending
  | EpGetAdmin
  | EpGetMinSources
  | EpSetMaxHistory (new_max : Z)
  | EpListSources
  | EpListAssets
  | EpGetPriceHistory (asset : Address) (cursor limit : Z)
  | EpCheckSourceLiveness (source asset : Address)
  | EpGetContributionQuality (source asset : Address)
  | EpSetScoringWindow (window : Z)
  | EpGetScoringWindow
  | EpRegisterPriceCallback (consumer asset callback_contract : Address) (method : string)
  | EpUnregisterPriceCallback (consumer asset : Address)
  | EpGetPriceCallbacks (asset : Address)
  | EpSetAssetPolicy (asset : Address) (policy : option PolicyOverride)
  | EpSetClassPolicy (class : Z) (policy : option PolicyOverride)
  | EpSetAssetClass (asset : Address) (class : option Z)
  | EpGetEffectivePolicy (asset : Address)
  | EpGetAssetPolicy (asset : Address)
  | EpSetFreshnessCurve (asset : Address) (window_secs min_weight : Z)
  | EpGetFreshnessCurve (asset : Address)
  | EpGetWeightedAggregate (asset : Address)
  | EpSetInfluenceCap (cap_bps : Z)
  | EpGetInfluenceCap
  | EpGetConfidenceBand (asset : Address)
  | EpRemoveSources (sources : list Address)
  | EpRecomputeAssetPrice (asset : Address)
  | EpIsSourceExcluded (source : Address)
  | EpAuditGovernanceEvents
  | EpAbandonStalledRound (asset : Address)
  | EpAddSanityRelation (asset : Address) (relation : SanityRelation)
  | EpApproveStorageTierDowngrade (asset approver : Address)
  | EpClearBreaker (asset : Address)
  | EpClearDeferralPolicy (asset : Address)
  | EpClearDepeg (asset : Address)
  | EpCorrectPrice (asset : Address) (new_price : Z) (reason : string)
  | EpDeclareDepeg (asset : Address) (until_ledger : Z) (reason : string)
  | EpDisableScorecards
  | EpEnableScorecards
  | EpEvaluateBreakerRearm (asset : Address) (deviation_bps : Z)
  | EpRecordBreakerSourceRecovery (asset : Address)
  | EpExecuteStorageTierDowngrade (asset : Address)
  | EpFinalizeConfirmation (asset : Address)
  | EpGetAssetRiskTier (asset : Address)
  | EpGetAssetStorageTier (asset : Address)
  | EpGetBreakerPolicy (asset : Address)
  | EpGetBreakerStatus (asset : Address)
  | EpGetConfirmedPrice (asset : Address)
  | EpGetCorrectionCount (asset : Address)
  | EpGetDefaultFreshnessWindow
  | EpGetDeferralPolicy (asset : Address)
  | EpGetEquivocationCount (source asset : Address)
  | EpGetFreshnessStatus (asset : Address)
  | EpGetOriginalPrice (asset : Address)
  | EpGetPriceBoundStatus (asset : Address)
  | EpGetPriceBoundsTier (asset : Address)
  | EpClearPriceBoundsTier (asset : Address)
  | EpGetPriceRevision (asset : Address) (index : Z)
  | EpGetPriceRevisions (asset : Address)
  | EpGetPublicationStatus (asset : Address)
  | EpGetRecomputeAffectedAssets (source : Address)
  | EpGetResolvedAssetTier (asset : Address)
  | EpGetRiskTierParams
  | EpGetRoundConfig (asset : Address)
  | EpGetRoundStatus (asset : Address)
  | EpGetRoundTally (asset : Address) (round : Z)
  | EpGetSanityPeers (asset : Address)
  | EpGetSanityRelations (asset : Address)
  | EpGetSanityStatus (asset : Address)
  | EpGetScorecardConfig
  | EpGetSourceAccuracyScore (source : Address)
  | EpGetSourceScorecard (source : Address)
  | EpGetSourceScorecardSamples (source : Address)
  | EpGetStorageTierInfo (asset : Address)
  | EpGetTieredHistoricalPrice (asset : Address) (ledger : Z)
  | EpHasAssetRiskTier (asset : Address)
  | EpHasTieredHistoricalPrice (asset : Address) (ledger : Z)
  | EpIsBarredFromRound (source asset : Address) (round : Z)
  | EpIsDepegSuspended (asset : Address)
  | EpMigrateHistoryToTier (asset : Address) (to_tier : HistoryStorageTier)
  | EpProposeStorageTierDowngrade (asset : Address)
  | EpRemoveSanityRelation (asset peer : Address) (kind : SanityRelationKind)
  | EpReportEquivocation (source asset : Address) (round : Z)
  | EpSetAssetFreshnessWindow (asset : Address) (secs : Z)
  | EpSetAssetRiskTier (asset : Address) (tier : option RiskTier) (reason : string)
  | EpSetAssetStorageTier (asset : Address) (tier : HistoryStorageTier)
  | EpSetBreakerPolicy (asset : Address) (policy : BreakerPolicy)
  | EpSetCorrectionScope (scope : CorrectionScope)
  | EpGetCorrectionScope
  | EpSetDefaultFreshnessWindow (secs : Z)
  | EpSetDeferralPolicy (asset : Address) (policy : DeferralPolicy)
  | EpSetPriceBoundsTier (asset : Address) (tier : BoundsTier)
  | EpSetRiskTierEnforcement (enabled : bool)
  | EpSetRoundConfig (asset : Address) (config : RoundConfig)
  | EpSetScorecardConfig (config : ScorecardConfig)
  | EpStartRound (asset : Address)
  | EpSubmitRoundVote (source asset : Address) (round price timestamp : Z).

(** What the host runs for a call. *)
Section Dispatch.
Context `{BP : BuildProfile} `{CR : Crypto} `{US : UnstableSort} `{XD : Xdr} `{CB : Callbacks} `{TK : Token}.
Context `{SG : Signatures} `{AT : Relayer.AddressText}.

Definition run_entry (call : Call) : M unit :=
  match call with
  | EpInitialize admin min_sources_required max_history_length decimals description =>
      Entry.initialize admin min_sources_required max_history_length decimals description
  | EpUpgrade new_wasm_hash => Entry.upgrade new_wasm_hash
  | EpEnableAllFeatureFlags => Entry.enable_all_feature_flags
  | EpSetAdmin new_admin => Entry.set_admin new_admin
  | EpGetAdminAddress => Entry.get_admin_address;; mret tt
  | EpHasRole caller role => Entry.has_role caller role;; mret tt
  | EpDelegateRole delegatee role => Entry.delegate_role delegatee role
  | EpRevokeRole delegatee role => Entry.revoke_role delegatee role
  | EpGetRoleHolders role => Entry.get_role_holders role;; mret tt
  | EpGetRolesForHolder holder => Entry.get_roles_for_holder holder;; mret tt
  | EpEmergencyPause reason auto_unpause_ledgers => Entry.emergency_pause reason auto_unpause_ledgers
  | EpExtendEmergencyPause additional_ledgers => Entry.extend_emergency_pause additional_ledgers
  | EpCancelEmergencyPause => Entry.cancel_emergency_pause
  | EpIsEmergencyPauseActive => Entry.is_emergency_pause_active;; mret tt
  | EpGetEmergencyPause => Entry.get_emergency_pause;; mret tt
  | EpSetCorrelationPair base_asset quote_asset min_ratio max_ratio enabled =>
      Entry.set_correlation_pair base_asset quote_asset min_ratio max_ratio enabled
  | EpIsCorrelationFlagged source asset => Entry.is_correlation_flagged source asset;; mret tt
  | EpClearCorrelationFlag source asset => Entry.clear_correlation_flag source asset
  | EpChallengePrice challenger asset expected_price proof_data =>
      Entry.challenge_price challenger asset expected_price proof_data
  | EpResolveChallenge challenge_id is_valid => Entry.resolve_challenge challenge_id is_valid
  | EpGetChallengeHistory asset limit => Entry.get_challenge_history asset limit;; mret tt
  | EpGetChallengerRewards challenger => Entry.get_challenger_rewards challenger;; mret tt
  | EpGetOpenChallengeCount asset => Entry.get_open_challenge_count asset;; mret tt
  | EpGetAuditLogCount => Entry.get_audit_log_count;; mret tt
  | EpGetAdminAuditLog from_id limit => Entry.get_admin_audit_log from_id limit;; mret tt
  | EpGetAuditLogHead => Entry.get_audit_log_head;; mret tt
  | EpVerifyAuditChain => Entry.verify_audit_chain;; mret tt
  | EpSimulateAggregation asset hypothetical_prices =>
      Entry.simulate_aggregation asset hypothetical_prices;; mret tt
  | EpSubmitPriceMerkle source root proofs => Entry.submit_price_merkle source root proofs
  | EpSetMinSourcesRequired new_min => Entry.set_min_sources_required new_min
  | EpGetMinSourcesRequired => Entry.get_min_sources_required;; mret tt
  | EpSetMaxHistoryLength new_max => Entry.set_max_history_length new_max
  | EpGetMaxHistoryLength => Entry.get_max_history_length;; mret tt
  | EpSetResolution new_resolution => Entry.set_resolution new_resolution
  | EpGetResolution => Entry.get_resolution;; mret tt
  | EpSetDecimals new_decimals => Entry.set_decimals new_decimals
  | EpGetDecimals => Entry.get_decimals;; mret tt
  | EpSetDescription new_description => Entry.set_description new_description
  | EpGetDescription => Entry.get_description;; mret tt
  | EpSetTimestampThreshold threshold => Entry.set_timestamp_threshold threshold
  | EpGetTimestampThreshold => Entry.get_timestamp_threshold;; mret tt
  | EpSetMaxPriceDeviation deviation_basis_points => Entry.set_max_price_deviation deviation_basis_points
  | EpGetMaxPriceDeviation => Entry.get_max_price_deviation;; mret tt
  | EpSetHeartbeatInterval interval => Entry.set_heartbeat_interval interval
  | EpGetHeartbeatInterval => Entry.get_heartbeat_interval;; mret tt
  | EpSetQueryRateLimit max_per_ledger => Entry.set_query_rate_limit max_per_ledger
  | EpGetQueryRateLimit => Entry.get_query_rate_limit;; mret tt
  | EpSetSubscriptionPrice duration amount => Entry.set_subscription_price duration amount
  | EpSetAssetResolution asset resolution => Entry.set_asset_resolution asset resolution
  | EpGetAssetResolution asset => Entry.get_asset_resolution asset;; mret tt
  | EpTriggerAggregation asset => Entry.trigger_aggregation asset
  | EpSetAggregationCooldown cooldown_ledgers => Entry.set_aggregation_cooldown cooldown_ledgers
  | EpGetAggregationCooldown => Entry.get_aggregation_cooldown;; mret tt
  | EpSetAggregationMethod method => Entry.set_aggregation_method method
  | EpGetAggregationMethod => Entry.get_aggregation_method;; mret tt
  | EpGetConfigHistory count => Entry.get_config_history count;; mret tt
  | EpRollbackConfig version => Entry.rollback_config version
  | EpSetMinSubmissionInterval interval_ledgers => Entry.set_min_submission_interval interval_ledgers
  | EpGetMinSubmissionInterval => Entry.get_min_submission_interval;; mret tt
  | EpGetCompliantSources asset => Entry.get_compliant_sources asset;; mret tt
  | EpProposeBatch operations => Entry.propose_batch operations;; mret tt
  | EpExecuteBatch batch_id => Entry.execute_batch batch_id
  | EpCancelBatch batch_id => Entry.cancel_batch batch_id
  | EpAddSource source name => Entry.add_source source name
  | EpEnrollSource source name => Entry.enroll_source source name
  | EpSubmitSourceEvidence source identity_evidence endpoint_ownership_evidence operational_contact reliability_evidence =>
      Entry.submit_source_evidence source identity_evidence endpoint_ownership_evidence operational_contact reliability_evidence
  | EpActivateSource source => Entry.activate_source source
  | EpGetSourceEnrollment source => Entry.get_source_enrollment source;; mret tt
  | EpSetMaxSources new_max => Entry.set_max_sources new_max
  | EpGetMaxSources => Entry.get_max_sources;; mret tt
  | EpSetMaxHistoryPerAsset new_max => Entry.set_max_history_per_asset new_max
  | EpGetMaxHistoryPerAsset => Entry.get_max_history_per_asset;; mret tt
  | EpSetMaxEventsPerCall new_max => Entry.set_max_events_per_call new_max
  | EpGetMaxEventsPerCall => Entry.get_max_events_per_call;; mret tt
  | EpSetMaxAggregationSources new_max => Entry.set_max_aggregation_sources new_max
  | EpGetMaxAggregationSources => Entry.get_max_aggregation_sources;; mret tt
  | EpRemoveSource source => Entry.remove_source source
  | EpIsSource source => Entry.is_source source;; mret tt
  | EpGetOracleSources => Entry.get_oracle_sources;; mret tt
  | EpAddSourceWithAssets source name assets => Entry.add_source_with_assets source name assets
  | EpGetSourceAssets source => Entry.get_source_assets source;; mret tt
  | EpAddSourceAsset source asset => Entry.add_source_asset source asset
  | EpRemoveSourceAsset source asset => Entry.remove_source_asset source asset
  | EpSetSourceVerification source verified verification_method verifier =>
      Entry.set_source_verification source verified verification_method verifier
  | EpGetSourceVerification source => Entry.get_source_verification source;; mret tt
  | EpRotateSourceKey source new_address => Entry.rotate_source_key source new_address
  | EpSubmitHeartbeat source => Entry.submit_heartbeat source
  | EpIsSourceInactive source => Entry.is_source_inactive source;; mret tt
  | EpGetInactiveSources => Entry.get_inactive_sources;; mret tt
  | EpGetSourceLastHeartbeat source => Entry.get_source_last_heartbeat source;; mret tt
  | EpGetSourceReputation source => Entry.get_source_reputation source;; mret tt
  | EpSetReputationDecayFactor factor => Entry.set_reputation_decay_factor factor
  | EpGetReputationDecayFactor => Entry.get_reputation_decay_factor;; mret tt
  | EpMarkSourceForRemoval source => Entry.mark_source_for_removal source
  | EpCancelSourceRemoval source => Entry.cancel_source_removal source
  | EpFinalizeSourceRemoval source => Entry.finalize_source_removal source
  | EpSetRemovalCooldown ledgers => Entry.set_removal_cooldown ledgers
  | EpGetRemovalCooldown => Entry.get_removal_cooldown;; mret tt
  | EpIsSourcePendingRemoval source => Entry.is_source_pending_removal source;; mret tt
  | EpSetDemeritConfig config => Entry.set_demerit_config config
  | EpGetDemeritConfig => Entry.get_demerit_config;; mret tt
  | EpGetSourceDemerits source => Entry.get_source_demerits source;; mret tt
  | EpResetSourceDemerits source => Entry.reset_source_demerits source
  | EpSetSourceGovernance approvers threshold => Entry.set_source_governance approvers threshold
  | EpGetSourceGovernance => Entry.get_source_governance;; mret tt
  | EpProposeSource proposer source name => Entry.propose_source proposer source name;; mret tt
  | EpApproveSource approver proposal_id => Entry.approve_source approver proposal_id
  | EpGetSourceProposal proposal_id => Entry.get_source_proposal proposal_id;; mret tt
  | EpSetSourceGeo source metadata => Entry.set_source_geo source metadata
  | EpGetSourceGeo source => Entry.get_source_geo source;; mret tt
  | EpGetDecentralizationReport => Entry.get_decentralization_report;; mret tt
  | EpSetDegradationConfig config => Entry.set_degradation_config config
  | EpGetDegradationConfig => Entry.get_degradation_config;; mret tt
  | EpGetDegradationStats asset => Entry.get_degradation_stats asset;; mret tt
  | EpGetDegradationWindowStats asset window => Entry.get_degradation_window_stats asset window;; mret tt
  | EpSetAnomalyRetention retention => Entry.set_anomaly_retention retention
  | EpGetAnomalyRetention => Entry.get_anomaly_retention;; mret tt
  | EpGetFlagExplanations asset source => Entry.get_flag_explanations asset source;; mret tt
  | EpExplainSubmission source asset price timestamp =>
      Entry.explain_submission source asset price timestamp;; mret tt
  | EpGetLatestFlagExplanation asset source => Entry.get_latest_flag_explanation asset source;; mret tt
  | EpGetAggregateFlagExplanations asset => Entry.get_aggregate_flag_explanations asset;; mret tt
  | EpSetDqConfig asset config => Entry.set_dq_config asset config
  | EpClearDqConfig asset => Entry.clear_dq_config asset
  | EpGetDqConfig asset => Entry.get_dq_config asset;; mret tt
  | EpGetDqAnchor asset => Entry.get_dq_anchor asset;; mret tt
  | EpScheduleBlackout asset start end_ => Entry.schedule_blackout asset start end_
  | EpExtendBlackout asset new_end => Entry.extend_blackout asset new_end
  | EpCancelBlackout asset => Entry.cancel_blackout asset
  | EpSignalVolatility source asset => Entry.signal_volatility source asset;; mret tt
  | EpSetVolatilityQuorum quorum => Entry.set_volatility_quorum quorum
  | EpGetBlackout asset => Entry.get_blackout asset;; mret tt
  | EpSetSourceComparison asset enabled => Entry.set_source_comparison asset enabled
  | EpGetSourceComparison asset => Entry.get_source_comparison asset;; mret tt
  | EpSetLifecycleConfig config => Entry.set_lifecycle_config config
  | EpOnboardSource source name identity => Entry.onboard_source source name identity
  | EpGraduateSource source => Entry.graduate_source source
  | EpGetOnboardingChecklist source => Entry.get_onboarding_checklist source;; mret tt
  | EpOffboardSource source evidence_asset => Entry.offboard_source source evidence_asset
  | EpSetSourceBond amount => Entry.set_source_bond amount
  | EpGetSourceBond => Entry.get_source_bond;; mret tt
  | EpDepositSourceBond source => Entry.deposit_source_bond source
  | EpGetSourceDepositedBond source => Entry.get_source_deposited_bond source;; mret tt
  | EpSetStakeTokenContract token => Entry.set_stake_token_contract token
  | EpGetStakeTokenContract => Entry.get_stake_token_contract;; mret tt
  | EpSetMaxAssets count => Entry.set_max_assets count
  | EpGetMaxAssets => Entry.get_max_assets;; mret tt
  | EpRegisterAsset asset => Entry.register_asset asset
  | EpUnregisterAsset asset => Entry.unregister_asset asset
  | EpDisableAsset asset => Entry.disable_asset asset
  | EpEnableAsset asset => Entry.enable_asset asset
  | EpIsAssetDisabled asset => Entry.is_asset_disabled asset;; mret tt
  | EpGetAssetDisabledAt asset => Entry.get_asset_disabled_at asset;; mret tt
  | EpIsAssetRegistered asset => Entry.is_asset_registered asset;; mret tt
  | EpSetPriceBounds asset min_price max_price max_change_bps_per_ledger =>
      Entry.set_price_bounds asset min_price max_price max_change_bps_per_ledger
  | EpGetPriceBounds asset => Entry.get_price_bounds asset;; mret tt
  | EpPauseAsset asset => Entry.pause_asset asset
  | EpUnpauseAsset asset => Entry.unpause_asset asset
  | EpIsAssetPaused asset => Entry.is_asset_paused asset;; mret tt
  | EpIsCircuitBreakerTripped asset => Entry.is_circuit_breaker_tripped asset;; mret tt
  | EpProposePrice proposer asset price timestamp bond_amount =>
      Entry.propose_price proposer asset price timestamp bond_amount;; mret tt
  | EpDisputeProposal disputer proposal_id => Entry.dispute_proposal disputer proposal_id
  | EpResolveDispute proposal_id resolution => Entry.resolve_dispute proposal_id resolution
  | EpGetProposal proposal_id => Entry.get_proposal proposal_id;; mret tt
  | EpResolveViaExternalData proposal_id external_price proof =>
      Entry.resolve_via_external_data proposal_id external_price proof
  | EpGetActiveProposals => Entry.get_active_proposals;; mret tt
  | EpSetOptimisticDisputeWindow dispute_window_ledgers =>
      Entry.set_optimistic_dispute_window dispute_window_ledgers
  | EpGetOptimisticDisputeWindow => Entry.get_optimistic_dispute_window;; mret tt
  | EpSetOptimisticMinBond min_bond => Entry.set_optimistic_min_bond min_bond
  | EpGetOptimisticMinBond => Entry.get_optimistic_min_bond;; mret tt
  | EpSubmitPrice source asset price timestamp => Entry.submit_price source asset price timestamp
  | EpSubmitPriceWithNonce source asset price timestamp nonce =>
      Entry.submit_price_with_nonce source asset price timestamp nonce
  | EpSubmitPriceWithVolume source asset price timestamp volume =>
      Entry.submit_price_with_volume source asset price timestamp volume
  | EpSubmitPrices source asset_prices => Entry.submit_prices source asset_prices
  | EpRegisterSubmissionKey source public_key => Entry.register_submission_key source public_key
  | EpSubmitPriceWithProof source asset price timestamp nonce expiration_ledger signature =>
      Entry.submit_price_with_proof source asset price timestamp nonce expiration_ledger signature
  | EpSetTimeTrigger asset interval_seconds => Entry.set_time_trigger asset interval_seconds
  | EpGetTimeTrigger asset => Entry.get_time_trigger asset;; mret tt
  | EpSetSubmissionThresholdTrigger asset threshold => Entry.set_submission_threshold_trigger asset threshold
  | EpGetSubmissionThresholdTrigger asset => Entry.get_submission_threshold_trigger asset;; mret tt
  | EpSetDeviationTrigger asset deviation_bps => Entry.set_deviation_trigger asset deviation_bps
  | EpGetDeviationTrigger asset => Entry.get_deviation_trigger asset;; mret tt
  | EpPokeTimeTrigger asset => Entry.poke_time_trigger asset;; mret tt
  | EpGetGasStats => Entry.get_gas_stats;; mret tt
  | EpGetStorageTtlStatus => Entry.get_storage_ttl_status;; mret tt
  | EpGetPrice asset max_age => Entry.get_price asset max_age;; mret tt
  | EpGetPriceWithConfidence asset => Entry.get_price_with_confidence asset;; mret tt
  | EpGetSourcePrice asset source => Entry.get_source_price asset source;; mret tt
  | EpGetAllPrices asset => Entry.get_all_prices asset;; mret tt
  | EpOverridePrice asset price reason expiry_ledger => Entry.override_price asset price reason expiry_ledger
  | EpRemovePriceOverride asset => Entry.remove_price_override asset
  | EpGetPriceOverride asset => Entry.get_price_override asset;; mret tt
  | EpGetLatestLedger => Entry.get_latest_ledger;; mret tt
  | EpGetHistoricalPrice asset ledger => Entry.get_historical_price asset ledger;; mret tt
  | EpHasHistoricalPrice asset ledger => Entry.has_historical_price asset ledger;; mret tt
  | EpGetHistoricalPrices asset start_ledger end_ledger =>
      Entry.get_historical_prices asset start_ledger end_ledger;; mret tt
  | EpGetHistoricalPricesPaginated asset cursor limit =>
      Entry.get_historical_prices_paginated asset cursor limit;; mret tt
  | EpFreezePrice asset reason => Entry.freeze_price asset reason
  | EpUnfreezePrice asset => Entry.unfreeze_price asset
  | EpIsPriceFrozen asset => Entry.is_price_frozen asset;; mret tt
  | EpSetInterpolationEnabled enabled => Entry.set_interpolation_enabled enabled
  | EpGetInterpolationEnabled => Entry.get_interpolation_enabled;; mret tt
  | EpGetAggregateWithVersion asset => Entry.get_aggregate_with_version asset;; mret tt
  | EpSetCompactionThresholdBps threshold_bps => Entry.set_compaction_threshold_bps threshold_bps
  | EpGetCompactionThresholdBps => Entry.get_compaction_threshold_bps;; mret tt
  | EpCompactHistory asset => Entry.compact_history asset;; mret tt
  | EpGetCompactionMetadata asset => Entry.get_compaction_metadata asset;; mret tt
  | EpMigrateHistoryToShards asset => Entry.migrate_history_to_shards asset;; mret tt
  | EpGetBucketEntries asset ledger => Entry.get_bucket_entries asset ledger;; mret tt
  | EpGetStorageBudget asset => Entry.get_storage_budget asset;; mret tt
  | EpGetTotalStorageBudget => Entry.get_total_storage_budget;; mret tt
  | EpDecimals => Entry.decimals;; mret tt
  | EpAssets => Entry.assets;; mret tt
  | EpAssetsPaginated cursor limit => Entry.assets_paginated cursor limit;; mret tt
  | EpResolution => Entry.resolution;; mret tt
  | EpLastprice asset => Entry.lastprice asset;; mret tt
  | EpSetTwapMinCardinality min_cardinality => Entry.set_twap_min_cardinality min_cardinality
  | EpGetTwapMinCardinality => Entry.get_twap_min_cardinality;; mret tt
  | EpClaimRewards claimer => Entry.claim_rewards claimer;; mret tt
  | EpGetAddressRoles holder => Entry.get_address_roles holder;; mret tt
  | EpPrice asset timestamp => Entry.price asset timestamp;; mret tt
  | EpPrices asset records => Entry.prices asset records;; mret tt
  | EpPause => Entry.pause
  | EpUnpause => Entry.unpause
  | EpIsPaused => Entry.is_paused;; mret tt
  | EpProposeOperation op_type data => Entry.propose_operation op_type data;; mret tt
  | EpExecuteOperation op_id => Entry.execute_operation op_id
  | EpCancelOperation op_id => Entry.cancel_operation op_id
  | EpGetTimelockDuration => Entry.get_timelock_duration;; mret tt
  | EpSetTimelockDuration duration => Entry.set_timelock_duration duration
  | EpProposeOperationWithPriority op_type data priority =>
      Entry.propose_operation_with_priority op_type data priority;; mret tt
  | EpGetPriorityDelay priority => Entry.get_priority_delay priority;; mret tt
  | EpSetPriorityDelay priority delay => Entry.set_priority_delay priority delay
  | EpAddRelayer relayer name => Entry.add_relayer relayer name
  | EpRemoveRelayer relayer => Entry.remove_relayer relayer
  | EpIsRelayer relayer => Entry.is_relayer relayer;; mret tt
  | EpGetRelayerInfo relayer => Entry.get_relayer_info relayer;; mret tt
  | EpDelegateRelayer source relayer nonce expiration_ledger signature =>
      Entry.delegate_relayer source relayer nonce expiration_ledger signature
  | EpGetRelayerDelegation source relayer => Entry.get_relayer_delegation source relayer;; mret tt
  | EpChallengeRelayedSubmission challenger relayer source asset price timestamp proof_data =>
      Entry.challenge_relayed_submission challenger relayer source asset price timestamp proof_data
  | EpSubmitPriceRelayed relayer source asset price timestamp =>
      Entry.submit_price_relayed relayer source asset price timestamp
  | EpSetRelayerFeePerSubmission fee => Entry.set_relayer_fee_per_submission fee
  | EpGetRelayerFeePerSubmission => Entry.get_relayer_fee_per_submission;; mret tt
  | EpGetRelayerFeeBalance relayer => Entry.get_relayer_fee_balance relayer;; mret tt
  | EpGetRelayerSubmissionCount relayer => Entry.get_relayer_submission_count relayer;; mret tt
  | EpSubmitPricesRelayed relayer submissions => Entry.submit_prices_relayed relayer submissions
  | EpSetRelayerBondAmount amount => Entry.set_relayer_bond_amount amount
  | EpGetRelayerBondAmount => Entry.get_relayer_bond_amount;; mret tt
  | EpDepositRelayerBond relayer => Entry.deposit_relayer_bond relayer
  | EpGetRelayerBondBalance relayer => Entry.get_relayer_bond_balance relayer;; mret tt
  | EpWithdrawRelayerBond relayer => Entry.withdraw_relayer_bond relayer
  | EpRecordRelayerFailure relayer reason => Entry.record_relayer_failure relayer reason
  | EpGetRelayerFailureCount relayer => Entry.get_relayer_failure_count relayer;; mret tt
  | EpSlashRelayer relayer force => Entry.slash_relayer relayer force
  | EpSetRelayerSlashPercent percent => Entry.set_relayer_slash_percent percent
  | EpGetRelayerSlashPercent => Entry.get_relayer_slash_percent;; mret tt
  | EpSetRelayerFailureThreshold threshold => Entry.set_relayer_failure_threshold threshold
  | EpGetRelayerFailureThreshold => Entry.get_relayer_failure_threshold;; mret tt
  | EpSetRelayerRewardRate rate => Entry.set_relayer_reward_rate rate
  | EpGetRelayerRewardRate => Entry.get_relayer_reward_rate;; mret tt
  | EpGetRelayerRewardBalance relayer => Entry.get_relayer_reward_balance relayer;; mret tt
  | EpGetRelayerDashboard relayer => Entry.get_relayer_dashboard relayer;; mret tt
  | EpGetSourceHealth source => Entry.get_source_health source;; mret tt
  | EpGetMissedHeartbeats source => Entry.get_missed_heartbeats source;; mret tt
  | EpGetLastPriceLedger source => Entry.get_last_price_ledger source;; mret tt
  | EpSetMaxInactiveLedgers ledgers => Entry.set_max_inactive_ledgers ledgers
  | EpGetMaxInactiveLedgers => Entry.get_max_inactive_ledgers;; mret tt
  | EpSetHeartbeatWindow window => Entry.set_heartbeat_window window
  | EpGetHeartbeatWindow => Entry.get_heartbeat_window;; mret tt
  | EpCheckAndPruneInactiveSources => Entry.check_and_prune_inactive_sources;; mret tt
  | EpComputeAdaptiveInterval missed => Entry.compute_adaptive_interval missed;; mret tt
  | EpCommitPrice source asset hash => Entry.commit_price source asset hash
  | EpRevealPrice source asset price salt round_ledger => Entry.reveal_price source asset price salt round_ledger
  | EpRevealPricesBatch source reveals => Entry.reveal_prices_batch source reveals
  | EpCurrentRoundLedger => Entry.current_round_ledger;; mret tt
  | EpSetCommitWindow ledgers => Entry.set_commit_window ledgers
  | EpGetCommitWindow => Entry.get_commit_window;; mret tt
  | EpSetRevealWindow ledgers => Entry.set_reveal_window ledgers
  | EpGetRevealWindow => Entry.get_reveal_window;; mret tt
  | EpSetBftParameters fault_tolerance method => Entry.set_bft_parameters fault_tolerance method
  | EpGetBftFaultTolerance => Entry.get_bft_fault_tolerance;; mret tt
  | EpGetBftAggregationMethod => Entry.get_bft_aggregation_method;; mret tt
  | EpSetCommitRevealEnabled enabled => Entry.set_commit_reveal_enabled enabled
  | EpGetCommitRevealEnabled => Entry.get_commit_reveal_enabled;; mret tt
  | EpSetCommitRevealSlashAmount amount => Entry.set_commit_reveal_slash_amount amount
  | EpGetCommitRevealSlashAmount => Entry.get_commit_reveal_slash_amount;; mret tt
  | EpSlashExpiredCommits asset source round_ledger => Entry.slash_expired_commits asset source round_ledger
  | EpSetOutlierConfig asset config => Entry.set_outlier_config asset config
  | EpGetOutlierExclusions asset => Entry.get_outlier_exclusions asset;; mret tt
  | EpGetOutlierConfig asset => Entry.get_outlier_config asset;; mret tt
  | EpGetLatencyReport source asset => Entry.get_latency_report source asset;; mret tt
  | EpGetLatencySamples source asset => Entry.get_latency_samples source asset;; mret tt
  | EpGetProvenance asset ledger => Entry.get_provenance asset ledger;; mret tt
  | EpVerifyProvenance asset ledger => Entry.verify_provenance asset ledger;; mret tt
  | EpGetDisagreementIndex asset => Entry.get_disagreement_index asset;; mret tt
  | EpDeadManConfigure trigger_after warn_after operators =>
      Entry.dead_man_configure trigger_after warn_after operators
  | EpDeadManGetConfig => Entry.dead_man_get_config;; mret tt
  | EpDeadManHeartbeat operator => Entry.dead_man_heartbeat operator
  | EpDeadManEvaluate => Entry.dead_man_evaluate;; mret tt
  | EpDeadManIsDegraded => Entry.dead_man_is_degraded;; mret tt
  | EpDeadManRecover guardian => Entry.dead_man_recover guardian
  | EpMsSetGovernors governors required => Entry.ms_set_governors governors required
  | EpMsGetGovernors => Entry.ms_get_governors;; mret tt
  | EpMsGetRequiredApprovals => Entry.ms_get_required_approvals;; mret tt
  | EpMsProposeOperation proposer op_type data => Entry.ms_propose_operation proposer op_type data;; mret tt
  | EpMsApproveOperation governor op_id => Entry.ms_approve_operation governor op_id
  | EpMsRetractApproval governor op_id => Entry.ms_retract_approval governor op_id
  | EpMsExecuteOperation executor op_id => Entry.ms_execute_operation executor op_id
  | EpMsCancelOperation canceller op_id => Entry.ms_cancel_operation canceller op_id
  | EpMsGetOperation op_id => Entry.ms_get_operation op_id;; mret tt
  | EpMsGetQueueHead => Entry.ms_get_queue_head;; mret tt
  | EpScOpenChannel source deposit token_contract => Entry.sc_open_channel source deposit token_contract
  | EpScSubmitBatch source batch signature source_pubkey =>
      Entry.sc_submit_batch source batch signature source_pubkey
  | EpScCloseChannel source => Entry.sc_close_channel source
  | EpScDisputeChannel source last_known_batch signature source_pubkey =>
      Entry.sc_dispute_channel source last_known_batch signature source_pubkey
  | EpScGetChannel source => Entry.sc_get_channel source;; mret tt
  | EpRecoverySetGuardians guardians threshold => Entry.recovery_set_guardians guardians threshold
  | EpRecoveryGetGuardians => Entry.recovery_get_guardians;; mret tt
  | EpRecoveryGetThreshold => Entry.recovery_get_threshold;; mret tt
  | EpRecoverySetDelay delay_ledgers => Entry.recovery_set_delay delay_ledgers
  | EpRecoveryGetDelay => Entry.recovery_get_delay;; mret tt
  | EpRecoveryApprove guardian new_admin => Entry.recovery_approve guardian new_admin
  | EpRecoveryCancel => Entry.recovery_cancel
  | EpRecoveryExecute => Entry.recovery_execute
  | EpRecoveryGetPending => Entry.recovery_get_pending;; mret tt
  | EpGetAdmin => Entry.get_admin;; mret tt
  | EpGetMinSources => Entry.get_min_sources;; mret tt
  | EpSetMaxHistory new_max => Entry.set_max_history new_max
  | EpListSources => Entry.list_sources;; mret tt
  | EpListAssets => Entry.list_assets;; mret tt
  | EpGetPriceHistory asset cursor limit => Entry.get_price_history asset cursor limit;; mret tt
  | EpCheckSourceLiveness source asset => Entry.check_source_liveness source asset;; mret tt
  | EpGetContributionQuality source asset => Entry.get_contribution_quality source asset;; mret tt
  | EpSetScoringWindow window => Entry.set_scoring_window window
  | EpGetScoringWindow => Entry.get_scoring_window;; mret tt
  | EpRegisterPriceCallback consumer asset callback_contract method =>
      Entry.register_price_callback consumer asset callback_contract method
  | EpUnregisterPriceCallback consumer asset => Entry.unregister_price_callback consumer asset
  | EpGetPriceCallbacks asset => Entry.get_price_callbacks asset;; mret tt
  | EpSetAssetPolicy asset policy => Entry.set_asset_policy asset policy
  | EpSetClassPolicy class policy => Entry.set_class_policy class policy
  | EpSetAssetClass asset class => Entry.set_asset_class asset class
  | EpGetEffectivePolicy asset => Entry.get_effective_policy asset;; mret tt
  | EpGetAssetPolicy asset => Entry.get_asset_policy asset;; mret tt
  | EpSetFreshnessCurve asset window_secs min_weight => Entry.set_freshness_curve asset window_secs min_weight
  | EpGetFreshnessCurve asset => Entry.get_freshness_curve asset;; mret tt
  | EpGetWeightedAggregate asset => Entry.get_weighted_aggregate asset;; mret tt
  | EpSetInfluenceCap cap_bps => Entry.set_influence_cap cap_bps
  | EpGetInfluenceCap => Entry.get_influence_cap;; mret tt
  | EpGetConfidenceBand asset => Entry.get_confidence_band asset;; mret tt
  | EpRemoveSources sources => Entry.remove_sources sources
  | EpRecomputeAssetPrice asset => Entry.recompute_asset_price asset
  | EpIsSourceExcluded source => Entry.is_source_excluded source;; mret tt
  | EpAuditGovernanceEvents => Entry.audit_governance_events;; mret tt
  | EpAbandonStalledRound asset => Entry.abandon_stalled_round asset;; mret tt
  | EpAddSanityRelation asset relation => Entry.add_sanity_relation asset relation
  | EpApproveStorageTierDowngrade asset approver => Entry.approve_storage_tier_downgrade asset approver
  | EpClearBreaker asset => Entry.clear_breaker asset
  | EpClearDeferralPolicy asset => Entry.clear_deferral_policy asset
  | EpClearDepeg asset => Entry.clear_depeg asset
  | EpCorrectPrice asset new_price reason => Entry.correct_price asset new_price reason;; mret tt
  | EpDeclareDepeg asset until_ledger reason => Entry.declare_depeg asset until_ledger reason
  | EpDisableScorecards => Entry.disable_scorecards
  | EpEnableScorecards => Entry.enable_scorecards
  | EpEvaluateBreakerRearm asset deviation_bps => Entry.evaluate_breaker_rearm asset deviation_bps;; mret tt
  | EpRecordBreakerSourceRecovery asset => Entry.record_breaker_source_recovery asset
  | EpExecuteStorageTierDowngrade asset => Entry.execute_storage_tier_downgrade asset
  | EpFinalizeConfirmation asset => Entry.finalize_confirmation asset;; mret tt
  | EpGetAssetRiskTier asset => Entry.get_asset_risk_tier asset;; mret tt
  | EpGetAssetStorageTier asset => Entry.get_asset_storage_tier asset;; mret tt
  | EpGetBreakerPolicy asset => Entry.get_breaker_policy asset;; mret tt
  | EpGetBreakerStatus asset => Entry.get_breaker_status asset;; mret tt
  | EpGetConfirmedPrice asset => Entry.get_confirmed_price asset;; mret tt
  | EpGetCorrectionCount asset => Entry.get_correction_count asset;; mret tt
  | EpGetDefaultFreshnessWindow => Entry.get_default_freshness_window;; mret tt
  | EpGetDeferralPolicy asset => Entry.get_deferral_policy asset;; mret tt
  | EpGetEquivocationCount source asset => Entry.get_equivocation_count source asset;; mret tt
  | EpGetFreshnessStatus asset => Entry.get_freshness_status asset;; mret tt
  | EpGetOriginalPrice asset => Entry.get_original_price asset;; mret tt
  | EpGetPriceBoundStatus asset => Entry.get_price_bound_status asset;; mret tt
  | EpGetPriceBoundsTier asset => Entry.get_price_bounds_tier asset;; mret tt
  | EpClearPriceBoundsTier asset => Entry.clear_price_bounds_tier asset
  | EpGetPriceRevision asset index => Entry.get_price_revision asset index;; mret tt
  | EpGetPriceRevisions asset => Entry.get_price_revisions asset;; mret tt
  | EpGetPublicationStatus asset => Entry.get_publication_status asset;; mret tt
  | EpGetRecomputeAffectedAssets source => Entry.get_recompute_affected_assets source;; mret tt
  | EpGetResolvedAssetTier asset => Entry.get_resolved_asset_tier asset;; mret tt
  | EpGetRiskTierParams => Entry.get_risk_tier_params;; mret tt
  | EpGetRoundConfig asset => Entry.get_round_config asset;; mret tt
  | EpGetRoundStatus asset => Entry.get_round_status asset;; mret tt
  | EpGetRoundTally asset round => Entry.get_round_tally asset round;; mret tt
  | EpGetSanityPeers asset => Entry.get_sanity_peers asset;; mret tt
  | EpGetSanityRelations asset => Entry.get_sanity_relations asset;; mret tt
  | EpGetSanityStatus asset => Entry.get_sanity_status asset;; mret tt
  | EpGetScorecardConfig => Entry.get_scorecard_config;; mret tt
  | EpGetSourceAccuracyScore source => Entry.get_source_accuracy_score source;; mret tt
  | EpGetSourceScorecard source => Entry.get_source_scorecard source;; mret tt
  | EpGetSourceScorecardSamples source => Entry.get_source_scorecard_samples source;; mret tt
  | EpGetStorageTierInfo asset => Entry.get_storage_tier_info asset;; mret tt
  | EpGetTieredHistoricalPrice asset ledger => Entry.get_tiered_historical_price asset ledger;; mret tt
  | EpHasAssetRiskTier asset => Entry.has_asset_risk_tier asset;; mret tt
  | EpHasTieredHistoricalPrice asset ledger => Entry.has_tiered_historical_price asset ledger;; mret tt
  | EpIsBarredFromRound source asset round => Entry.is_barred_from_round source asset round;; mret tt
  | EpIsDepegSuspended asset => Entry.is_depeg_suspended asset;; mret tt
  | EpMigrateHistoryToTier asset to_tier => Entry.migrate_history_to_tier asset to_tier;; mret tt
  | EpProposeStorageTierDowngrade asset => Entry.propose_storage_tier_downgrade asset;; mret tt
  | EpRemoveSanityRelation asset peer kind => Entry.remove_sanity_relation asset peer kind
  | EpReportEquivocation source asset round => Entry.report_equivocation source asset round
  | EpSetAssetFreshnessWindow asset secs => Entry.set_asset_freshness_window asset secs
  | EpSetAssetRiskTier asset tier reason => Entry.set_asset_risk_tier asset tier reason
  | EpSetAssetStorageTier asset tier => Entry.set_asset_storage_tier asset tier
  | EpSetBreakerPolicy asset policy => Entry.set_breaker_policy asset policy
  | EpSetCorrectionScope scope => Entry.set_correction_scope scope
  | EpGetCorrectionScope => Entry.get_correction_scope;; mret tt
  | EpSetDefaultFreshnessWindow secs => Entry.set_default_freshness_window secs
  | EpSetDeferralPolicy asset policy => Entry.set_deferral_policy asset policy
  | EpSetPriceBoundsTier asset tier => Entry.set_price_bounds_tier asset tier
  | EpSetRiskTierEnforcement enabled => Entry.set_risk_tier_enforcement enabled
  | EpSetRoundConfig asset config => Entry.set_round_config asset config
  | EpSetScorecardConfig config => Entry.set_scorecard_config config
  | EpStartRound asset => Entry.start_round asset;; mret tt
  | EpSubmitRoundVote source asset round price timestamp =>
      Entry.submit_round_vote source asset round price timestamp
  end.
End Dispatch.

(** The entry points that run under the entry lock. *)
Definition takes_lock (call : Call) : bool :=
  match call with
  | EpInitialize _ _ _ _ _ | EpUpgrade _ | EpEnableAllFeatureFlags | EpSetAdmin _ | EpGetAdminAddress
  | EpSetMinSourcesRequired _ | EpGetMinSourcesRequired | EpSetMaxHistoryLength _ | EpGetMaxHistoryLength
  | EpSetResolution _ | EpGetResolution | EpSetDecimals _ | EpGetDecimals | EpSetDescription _ | EpGetDescription
  | EpSetTimestampThreshold _ | EpGetTimestampThreshold | EpSetMaxPriceDeviation _ | EpGetMaxPriceDeviation
  | EpSetHeartbeatInterval _ | EpGetHeartbeatInterval | EpSetAggregationMethod _ | EpRollbackConfig _
  | EpAddSource _ _ | EpEnrollSource _ _ | EpSubmitSourceEvidence _ _ _ _ _ | EpActivateSource _ | EpRemoveSource _
  | EpIsSource _ | EpGetOracleSources | EpAddSourceWithAssets _ _ _ | EpAddSourceAsset _ _
  | EpRemoveSourceAsset _ _ | EpSetSourceVerification _ _ _ _ | EpRotateSourceKey _ _ | EpSubmitHeartbeat _
  | EpIsSourceInactive _ | EpGetInactiveSources | EpGetSourceLastHeartbeat _ | EpSetDemeritConfig _
  | EpResetSourceDemerits _ | EpSetSourceGovernance _ _ | EpProposeSource _ _ _ | EpApproveSource _ _
  | EpSetSourceGeo _ _ | EpSetDegradationConfig _ | EpSetAnomalyRetention _ | EpSetDqConfig _ _ | EpClearDqConfig _
  | EpScheduleBlackout _ _ _ | EpExtendBlackout _ _ | EpCancelBlackout _ | EpSignalVolatility _ _
  | EpOnboardSource _ _ _ | EpOffboardSource _ _ | EpSetSourceBond _ | EpDepositSourceBond _
  | EpSetStakeTokenContract _ | EpRegisterAsset _ | EpUnregisterAsset _ | EpDisableAsset _ | EpEnableAsset _
  | EpIsAssetDisabled _ | EpGetAssetDisabledAt _ | EpIsAssetRegistered _ | EpSetPriceBounds _ _ _ _
  | EpPauseAsset _ | EpUnpauseAsset _ | EpProposePrice _ _ _ _ _ | EpDisputeProposal _ _ | EpResolveDispute _ _
  | EpResolveViaExternalData _ _ _ | EpSubmitPrice _ _ _ _ | EpSubmitPriceWithNonce _ _ _ _ _
  | EpSubmitPriceWithVolume _ _ _ _ _ | EpGetPrice _ _ | EpGetSourcePrice _ _ | EpGetAllPrices _
  | EpGetLatestLedger | EpGetHistoricalPrice _ _ | EpHasHistoricalPrice _ _ | EpGetHistoricalPrices _ _ _
  | EpGetHistoricalPricesPaginated _ _ _ | EpGetAggregateWithVersion _ | EpSetCompactionThresholdBps _
  | EpCompactHistory _ | EpMigrateHistoryToShards _ | EpGetStorageBudget _ | EpGetTotalStorageBudget | EpDecimals
  | EpAssets | EpAssetsPaginated _ _ | EpResolution | EpLastprice _ | EpPrice _ _ | EpPrices _ _ | EpPause
  | EpUnpause | EpIsPaused | EpProposeOperation _ _ | EpExecuteOperation _ | EpCancelOperation _
  | EpGetTimelockDuration | EpSetTimelockDuration _ | EpProposeOperationWithPriority _ _ _ | EpSetPriorityDelay _ _
  | EpCommitPrice _ _ _ | EpRevealPrice _ _ _ _ _ | EpRevealPricesBatch _ _ | EpSetBftParameters _ _
  | EpSetCommitRevealEnabled _ | EpSetCommitRevealSlashAmount _ | EpMsProposeOperation _ _ _
  | EpMsApproveOperation _ _ | EpMsRetractApproval _ _ | EpMsExecuteOperation _ _ | EpMsCancelOperation _ _
  | EpScOpenChannel _ _ _ | EpScSubmitBatch _ _ _ _ | EpScCloseChannel _ | EpScDisputeChannel _ _ _ _
  | EpRecoveryApprove _ _ | EpRecoveryCancel | EpRecoveryExecute | EpRemoveSources _ | EpRecomputeAssetPrice _
  | EpCorrectPrice _ _ _ => true
  | _ => false
  end.

(** The areas an entry point may write; all others it leaves alone. *)
Definition areas_of (call : Call) : list Area :=
  match call with
  | EpSetAdmin _ => [AreaAdmin]
  | EpInitialize _ _ _ _ _ => [AreaAdmin; AreaConfig; AreaAssets; AreaSources]
  | EpRecoveryExecute => [AreaAdmin; AreaGuardians]
  | EpRegisterAsset _ => [AreaAssets; AreaIndex]
  | EpUnregisterAsset _ => [AreaAssets; AreaIndex; AreaPrices]
  | EpSetSourceGovernance _ _ => [AreaGovernance]
  | EpMsSetGovernors _ _ => [AreaGovernors]
  | EpIsAssetRegistered _ => [AreaIndex]
  | EpDelegateRelayer _ _ _ _ _ => [AreaNonces]
  | EpRollbackConfig _ => [AreaPause; AreaConfig]
  | EpOffboardSource _ _ => [AreaSources; AreaMoney; AreaSubmissions; AreaPrices]
  | EpRotateSourceKey _ _ => [AreaSources; AreaSubmissions]
  | EpIsSourceInactive _ | EpGetInactiveSources => [AreaMoney; AreaPrices]
  | EpRemoveSource _ | EpRemoveSources _ => [AreaSources; AreaMoney; AreaPrices]
  | EpSubmitPrice _ _ _ _ | EpSubmitPriceWithNonce _ _ _ _ _ | EpSubmitPriceWithProof _ _ _ _ _ _ _ => [AreaNonces; AreaSubmissions; AreaPrices]
  | EpRecoverySetGuardians _ _ | EpRecoverySetDelay _ | EpRecoveryApprove _ _ | EpRecoveryCancel => [AreaGuardians]
  | EpDepositSourceBond _ | EpChallengeRelayedSubmission _ _ _ _ _ _ _ | EpDepositRelayerBond _
  | EpWithdrawRelayerBond _ | EpSlashRelayer _ _ | EpSlashExpiredCommits _ _ _ => [AreaMoney]
  | EpGetPrice _ _ | EpGetPriceWithConfidence _ | EpOverridePrice _ _ _ _ | EpRemovePriceOverride _
  | EpFreezePrice _ _ | EpUnfreezePrice _ => [AreaOverrides]
  | EpEmergencyPause _ _ | EpExtendEmergencyPause _ | EpCancelEmergencyPause | EpPause | EpUnpause
  | EpDeadManEvaluate | EpDeadManRecover _ => [AreaPause]
  | EpSubmitPriceMerkle _ _ _ | EpRemoveSourceAsset _ _ | EpSubmitPriceWithVolume _ _ _ _ _ | EpSubmitPrices _ _
  | EpSubmitPriceRelayed _ _ _ _ _ | EpSubmitPricesRelayed _ _ | EpRevealPrice _ _ _ _ _ | EpRevealPricesBatch _ _ => [AreaSubmissions; AreaPrices]
  | EpTriggerAggregation _ | EpDisputeProposal _ _ | EpResolveDispute _ _ | EpGetProposal _
  | EpResolveViaExternalData _ _ _ | EpGetActiveProposals | EpPokeTimeTrigger _ | EpRecomputeAssetPrice _
  | EpCorrectPrice _ _ _ => [AreaPrices]
  | EpSetMinSourcesRequired _ | EpSetMaxHistoryLength _ | EpSetResolution _ | EpSetDecimals _
  | EpSetTimestampThreshold _ | EpSetMaxPriceDeviation _ | EpSetHeartbeatInterval _ | EpSetAggregationMethod _
  | EpExecuteBatch _ | EpSetMaxHistory _ => [AreaConfig]
  | EpAddSource _ _ | EpActivateSource _ | EpAddSourceWithAssets _ _ _ | EpSetSourceVerification _ _ _ _
  | EpMarkSourceForRemoval _ | EpCancelSourceRemoval _ | EpFinalizeSourceRemoval _ | EpApproveSource _ _
  | EpOnboardSource _ _ _ | EpCheckAndPruneInactiveSources => [AreaSources]
  | _ => []
  end.

Definition touches (call : Call) (area : Area) : bool := existsb (λ a, bool_decide (a = area)) (areas_of call).

(** ** The footprint of every entry point *)

Section Footprints.
Context `{BP : BuildProfile} `{CR : Crypto} `{US : UnstableSort} `{XD : Xdr} `{CB : Callbacks} `{TK : Token}.
Context `{SG : Signatures} `{AT : Relayer.AddressText}.

Lemma footprint_entry call : within (touches call) (run_entry call).
Proof. destruct call; cbn [run_entry]; walk. Qed.

(** ** The lock of every guarded entry point *)

(** Succeeds only while the lock is free, and leaves it free. *)
Definition locking {A} (m : M A) : Prop :=
  ∀ c w a w', m c w = Ok a w' → lock_held w = false ∧ lock_held w' = false.

Lemma locking_guarded {A} (m : M A) : locking (guarded m).
Proof. intros c w a w' (? & ? & _)%guarded_Ok. done. Qed.

Lemma locking_then {A B} (m : M A) (f : A → M B) :
  locking m → (∀ a, within (λ _, true) (f a)) → locking (m ≫= f).
Proof.
  intros Hm Hf c w b w' (a & w1 & H1 & H2)%bind_Ok. destruct (Hm _ _ _ _ H1) as [Hl Hl'].
  split; [done|]. rewrite <- Hl'. by apply (within_lock _ _ _ (Hf _ _ _ _ _ H2)).
Qed.

Lemma locking_after {A B} (m : M A) (f : A → M B) :
  within (λ _, true) m → (∀ a, locking (f a)) → locking (m ≫= f).
Proof.
  intros Hm Hf c w b w' (a & w1 & H1 & H2)%bind_Ok. destruct (Hf _ _ _ _ _ H2) as [? ?].
  split; [|done]. by rewrite <- (within_lock _ _ _ (Hm _ _ _ _ H1)).
Qed.

Ltac locks :=
  lazymatch goal with
  | |- locking (guarded _) => apply locking_guarded
  | |- locking (_ ≫= _) =>
      first [ apply locking_then; [solve [locks]|solve [walk]]
            | apply locking_after; [solve [walk]|intros; locks] ]
  | |- locking ?m => let h := head_of m in progress unfold h; locks
  end.

Lemma locking_entry call : takes_lock call = true → locking (run_entry call).
Proof. destruct call; intros Ht; try discriminate Ht; clear Ht; cbn [run_entry]; locks. Qed.
End Footprints.
