(* ===== verification/AccessControl.v ===== *)
(** * Who must authorise a call

    A call demands an authorisation when it cannot return without it.  The
    entry points that demand the administrator's are listed here, and every
    setting of the contract is shown to change by one of these alone. *)
From stdpp Require Import base list gmap strings.
From S2P Require Import Prelude Machine Types Host AuditLog Config Admin Assets Frames EmergencyPause.
From S2P Require Import Footprint Contract.
From S2P Require Import SourceGuards FreshnessWeight Provenance PriceCallback Sources SignedSubmission.
From S2P Require Relayer AuditReports DeadMan RoundSafety SourceSafety.
#[local] Open Scope Z_scope.
#[local] Set Default Goal Selector "!".

(** A call that cannot return unless [a] has authorised it. *)
Definition demands (a : Address) {A} (m : M A) : Prop :=
  ∀ c w x w', m c w = Ok x w' → authorized c a = true.

(** A call that cannot return unless the administrator has authorised it. *)
Definition gated {A} (m : M A) : Prop :=
  ∀ c w x w', m c w = Ok x w' → ∃ admin, persistent w KeyAdmin = Some admin ∧ authorized c admin = true.

(** What is done before the administrator is asked. *)
Definition keeps_admin (area : Area) : bool := negb (bool_decide (area = AreaAdmin)).

Section Rules.
Lemma demands_auth a : demands a (require_auth a).
Proof. intros c w x w' H. unfold require_auth in H. by destruct (authorized c a). Qed.
Lemma demands_first a {A B} (m : M A) (f : A → M B) : demands a m → demands a (m ≫= f).
Proof. intros Hm c w b w' (x & w1 & H & _)%bind_Ok. by eapply Hm. Qed.
Lemma demands_after a {A B} (m : M A) (f : A → M B) : (∀ x, demands a (f x)) → demands a (m ≫= f).
Proof. intros Hf c w b w' (x & w1 & _ & H)%bind_Ok. by eapply Hf. Qed.
Lemma demands_guarded a {A} (m : M A) : demands a m → demands a (guarded m).
Proof. intros Hm c w x w' (_ & _ & w1 & H & _)%guarded_Ok. by eapply Hm. Qed.
Lemma demands_fail a {A} f : demands a (fail f : M A).
Proof. by intros c w x w' ?. Qed.

Lemma gated_get_admin {A} (f : Address → M A) : (∀ a, demands a (f a)) → gated (get_admin ≫= f).
Proof.
  intros Hf c w x w' (a & w1 & [-> Ha]%get_admin_Ok & H)%bind_Ok. exists a. split; [done|]. by eapply Hf.
Qed.
Lemma gated_auth_admin : gated auth_admin.
Proof. intros c w x w' (-> & Ha & Hau)%auth_admin_Ok. eauto. Qed.
Lemma gated_first {A B} (m : M A) (f : A → M B) : gated m → gated (m ≫= f).
Proof. intros Hm c w b w' (x & w1 & H & _)%bind_Ok. by eapply Hm. Qed.
Lemma gated_after {A B} (m : M A) (f : A → M B) :
  within keeps_admin m → (∀ x, gated (f x)) → gated (m ≫= f).
Proof.
  intros Hm Hf c w b w' (x & w1 & H1 & H2)%bind_Ok. destruct (Hf _ _ _ _ _ H2) as (a & Ha & Hau).
  exists a. split; [|done]. by rewrite <- (within_area _ _ _ (Hm _ _ _ _ H1) KeyAdmin AreaAdmin).
Qed.
Lemma gated_guarded {A} (m : M A) : gated m → gated (guarded m).
Proof. intros Hm c w x w' (_ & _ & w1 & H & _)%guarded_Ok. by destruct (Hm _ _ _ _ H) as (a & ? & ?); exists a. Qed.
Lemma gated_fail {A} f : gated (fail f : M A).
Proof. by intros c w x w' ?. Qed.
End Rules.

(** [asks] looks for the demand in a handler, [gates] for the administrator. *)
Ltac asks :=
  lazymatch goal with
  | |- demands ?a (require_auth ?a) => apply demands_auth
  | |- demands _ (fail _) => apply demands_fail
  | |- demands _ (panic_with_error _) => apply demands_fail
  | |- demands _ (guarded _) => apply demands_guarded; asks
  | |- demands ?a (require_auth ?a ≫= _) => apply demands_first, demands_auth
  | |- demands _ (_ ≫= _) => apply demands_after; intros; asks
  | |- demands _ (match ?x with _ => _ end) => destruct x; asks
  | |- demands _ ?m => let h := head_of m in progress unfold h; asks
  end.
Ltac gates :=
  lazymatch goal with
  | |- gated auth_admin => apply gated_auth_admin
  | |- gated (auth_admin ≫= _) => apply gated_first, gated_auth_admin
  | |- gated (get_admin ≫= _) => apply gated_get_admin; intros; asks
  | |- gated (fail _) => apply gated_fail
  | |- gated (panic_with_error _) => apply gated_fail
  | |- gated (guarded _) => apply gated_guarded; gates
  | |- gated (_ ≫= _) =>
      first [ apply gated_after; [solve [walk]|intros; solve [gates]] | apply gated_first; solve [gates] ]
  | |- gated (match ?x with _ => _ end) => destruct x; gates
  | |- gated ?m => let h := head_of m in progress unfold h; gates
  end.

(** ** While the contract is paused *)

(** A call that cannot return while the contract is paused. *)
Definition halted {A} (m : M A) : Prop :=
  ∀ c w x w', paused w = true → m c w = Ok x w' → False.

Definition keeps_pause (area : Area) : bool := negb (bool_decide (area = AreaPause)).

Lemma paused_flag w : paused w = true ↔ Flags.is_on w Flags.PAUSE = true ∧ persistent w KeyCfgPauseFlag = Some true.
Proof. unfold paused. destruct (Flags.is_on _ _); [|naive_solver]. destruct (persistent w KeyCfgPauseFlag) as [[]|]; naive_solver. Qed.

Lemma Within_paused allowed w w' :
  allowed AreaPause = false → Within allowed w w' → paused w = true → paused w' = true.
Proof.
  intros Ha [HA _ _ HF] [Hf Hp]%paused_flag. apply paused_flag. split; [by apply HF|].
  by rewrite (HA KeyCfgPauseFlag AreaPause).
Qed.

Section Halted.
Lemma halted_check {A} (f : unit → M A) : halted (check_not_paused ≫= f).
Proof.
  intros c w x w' Hp H. unfold check_not_paused in H. rewrite run_assoc, run_bind, run_is_paused, Hp in H. done.
Qed.
Lemma halted_first {A B} (m : M A) (f : A → M B) : halted m → halted (m ≫= f).
Proof. intros Hm c w b w' Hp (x & w1 & H & _)%bind_Ok. by eapply Hm. Qed.
Lemma halted_after {A B} (m : M A) (f : A → M B) :
  within keeps_pause m → (∀ x, halted (f x)) → halted (m ≫= f).
Proof.
  intros Hm Hf c w b w' Hp (x & w1 & H1 & H2)%bind_Ok. eapply Hf; [|exact H2].
  eapply Within_paused; [|by eapply Hm|done]. done.
Qed.
Lemma halted_guarded {A} (m : M A) : halted m → halted (guarded m).
Proof. intros Hm c w x w' Hp (_ & _ & w1 & H & _)%guarded_Ok. eapply Hm; [|exact H]. done. Qed.
Lemma halted_fail {A} f : halted (fail f : M A).
Proof. by intros c w x w' _ ?. Qed.
End Halted.

Ltac halts :=
  lazymatch goal with
  | |- halted (check_not_paused ≫= _) => apply halted_check
  | |- halted (fail _) => apply halted_fail
  | |- halted (panic_with_error _) => apply halted_fail
  | |- halted (guarded _) => apply halted_guarded; halts
  | |- halted (_ ≫= _) =>
      first [ apply halted_after; [solve [walk]|intros; solve [halts]] | apply halted_first; solve [halts] ]
  | |- halted (match ?x with _ => _ end) => destruct x; halts
  | |- halted ?m => let h := head_of m in progress unfold h; halts
  end.

(** ** The entry points *)

(** Those that ask the administrator. *)
Definition requires_admin (call : Call) : bool :=
  match call with
  | EpUpgrade _ | EpEnableAllFeatureFlags | EpSetAdmin _ | EpDelegateRole _ _ | EpRevokeRole _ _
  | EpEmergencyPause _ _ | EpExtendEmergencyPause _ | EpCancelEmergencyPause | EpSetCorrelationPair _ _ _ _ _
  | EpClearCorrelationFlag _ _ | EpResolveChallenge _ _ | EpSetMinSourcesRequired _ | EpSetMaxHistoryLength _
  | EpSetResolution _ | EpSetDecimals _ | EpSetDescription _ | EpSetTimestampThreshold _ | EpSetMaxPriceDeviation _
  | EpSetHeartbeatInterval _ | EpSetQueryRateLimit _ | EpSetSubscriptionPrice _ _ | EpSetAssetResolution _ _
  | EpSetAggregationCooldown _ | EpSetAggregationMethod _ | EpRollbackConfig _ | EpSetMinSubmissionInterval _
  | EpProposeBatch _ | EpExecuteBatch _ | EpCancelBatch _ | EpAddSource _ _ | EpEnrollSource _ _
  | EpActivateSource _ | EpSetMaxSources _ | EpSetMaxHistoryPerAsset _ | EpSetMaxEventsPerCall _
  | EpSetMaxAggregationSources _ | EpRemoveSource _ | EpAddSourceWithAssets _ _ _ | EpAddSourceAsset _ _
  | EpRemoveSourceAsset _ _ | EpSetSourceVerification _ _ _ _ | EpSetReputationDecayFactor _
  | EpMarkSourceForRemoval _ | EpCancelSourceRemoval _ | EpFinalizeSourceRemoval _ | EpSetRemovalCooldown _
  | EpSetDemeritConfig _ | EpResetSourceDemerits _ | EpSetSourceGovernance _ _ | EpSetSourceGeo _ _
  | EpSetDegradationConfig _ | EpSetAnomalyRetention _ | EpSetDqConfig _ _ | EpClearDqConfig _
  | EpScheduleBlackout _ _ _ | EpExtendBlackout _ _ | EpCancelBlackout _ | EpSetVolatilityQuorum _
  | EpSetSourceComparison _ _ | EpSetLifecycleConfig _ | EpOnboardSource _ _ _ | EpOffboardSource _ _
  | EpSetSourceBond _ | EpSetStakeTokenContract _ | EpSetMaxAssets _ | EpRegisterAsset _ | EpUnregisterAsset _
  | EpDisableAsset _ | EpEnableAsset _ | EpSetPriceBounds _ _ _ _ | EpPauseAsset _ | EpUnpauseAsset _
  | EpResolveDispute _ _ | EpResolveViaExternalData _ _ _ | EpSetOptimisticDisputeWindow _
  | EpSetOptimisticMinBond _ | EpSetTimeTrigger _ _ | EpSetSubmissionThresholdTrigger _ _
  | EpSetDeviationTrigger _ _ | EpOverridePrice _ _ _ _ | EpRemovePriceOverride _ | EpFreezePrice _ _
  | EpUnfreezePrice _ | EpSetInterpolationEnabled _ | EpSetCompactionThresholdBps _ | EpCompactHistory _
  | EpMigrateHistoryToShards _ | EpSetTwapMinCardinality _ | EpPause | EpUnpause | EpProposeOperation _ _
  | EpExecuteOperation _ | EpCancelOperation _ | EpSetTimelockDuration _ | EpProposeOperationWithPriority _ _ _
  | EpSetPriorityDelay _ _ | EpAddRelayer _ _ | EpRemoveRelayer _ | EpSetRelayerFeePerSubmission _
  | EpSetRelayerBondAmount _ | EpRecordRelayerFailure _ _ | EpSlashRelayer _ _ | EpSetRelayerSlashPercent _
  | EpSetRelayerFailureThreshold _ | EpSetRelayerRewardRate _ | EpSetMaxInactiveLedgers _ | EpSetHeartbeatWindow _
  | EpSetCommitWindow _ | EpSetRevealWindow _ | EpSetBftParameters _ _ | EpSetCommitRevealEnabled _
  | EpSetCommitRevealSlashAmount _ | EpSetOutlierConfig _ _ | EpDeadManConfigure _ _ _ | EpMsSetGovernors _ _
  | EpRecoverySetGuardians _ _ | EpRecoverySetDelay _ | EpRecoveryCancel | EpSetMaxHistory _ | EpSetScoringWindow _
  | EpSetAssetPolicy _ _ | EpSetClassPolicy _ _ | EpSetAssetClass _ _ | EpSetFreshnessCurve _ _ _
  | EpSetInfluenceCap _ | EpRemoveSources _ | EpAddSanityRelation _ _ | EpClearBreaker _ | EpClearDeferralPolicy _
  | EpClearDepeg _ | EpCorrectPrice _ _ _ | EpDeclareDepeg _ _ _ | EpDisableScorecards | EpEnableScorecards
  | EpExecuteStorageTierDowngrade _ | EpClearPriceBoundsTier _ | EpMigrateHistoryToTier _ _
  | EpProposeStorageTierDowngrade _ | EpRemoveSanityRelation _ _ _ | EpSetAssetFreshnessWindow _ _
  | EpSetAssetRiskTier _ _ _ | EpSetAssetStorageTier _ _ | EpSetBreakerPolicy _ _ | EpSetCorrectionScope _
  | EpSetDefaultFreshnessWindow _ | EpSetDeferralPolicy _ _ | EpSetPriceBoundsTier _ _ | EpSetRiskTierEnforcement _
  | EpSetRoundConfig _ _ | EpSetScorecardConfig _ => true
  | _ => false
  end.

(** Those that take prices, or commitments to prices. *)
Definition submits (call : Call) : bool :=
  match call with
  | EpSubmitPriceMerkle _ _ _ | EpSubmitPrice _ _ _ _ | EpSubmitPriceWithNonce _ _ _ _ _
  | EpSubmitPriceWithVolume _ _ _ _ _ | EpSubmitPrices _ _ | EpSubmitPriceWithProof _ _ _ _ _ _ _
  | EpSubmitPriceRelayed _ _ _ _ _ | EpSubmitPricesRelayed _ _ | EpCommitPrice _ _ _ | EpRevealPrice _ _ _ _ _
  | EpRevealPricesBatch _ _ => true
  | _ => false
  end.

(** Those that can end a pause. *)
Definition lifts (call : Call) : bool :=
  match call with
  | EpUnpause | EpCancelEmergencyPause | EpRollbackConfig _ | EpDeadManRecover _ => true
  | _ => false
  end.

(** The call that sets the contract up. *)
Definition deploys (call : Call) : bool := match call with EpInitialize _ _ _ _ _ => true | _ => false end.

(** The settings: parameters, assets, admission rules and governors. *)
Definition setting (area : Area) : bool :=
  match area with AreaConfig | AreaAssets | AreaGovernance | AreaGovernors => true | _ => false end.

(** A guarded call is the call itself, up to the lock. *)
Lemma guarded_persistent {A} (m : M A) c w a w' :
  guarded m c w = Ok a w' → ∃ w0 w1, persistent w0 = persistent w ∧ m c w0 = Ok a w1 ∧ persistent w' = persistent w1.
Proof. intros (_ & _ & w1 & H & ->)%guarded_Ok. by exists (put_temporary KeyReentrancyGuard (Some true) w), w1. Qed.

Lemma preserves_guarded {A} (I : World → Prop) (m : M A) :
  (∀ w w', persistent w' = persistent w → I w → I w') → preserves I m → preserves I (guarded m).
Proof.
  intros HI Hm c w a w' Hw (w0 & w1 & H0 & H1 & H2)%guarded_persistent.
  apply (HI w1); [done|]. eapply Hm; [|exact H1]. by apply (HI w).
Qed.

Section Entries.
Context `{BP : BuildProfile} `{CR : Crypto} `{US : UnstableSort} `{XD : Xdr} `{CB : Callbacks} `{TK : Token}.
Context `{SG : Signatures} `{AT : Relayer.AddressText}.

Lemma gated_entry call : requires_admin call = true → gated (run_entry call).
Proof. destruct call; intros Hg; try discriminate Hg; clear Hg; cbn [run_entry]; gates. Qed.

Lemma halted_entry call : submits call = true → halted (run_entry call).
Proof. destruct call; intros Hs; try discriminate Hs; clear Hs; cbn [run_entry]; halts. Qed.

Lemma setting_calls call area :
  setting area = true → touches call area = true → requires_admin call = true ∨ deploys call = true.
Proof. destruct call, area; intros Hs Ht; try discriminate Hs; try discriminate Ht; by auto. Qed.

Lemma emitted_key action admin data c w u w' k :
  emit_admin_action action admin data c w = Ok u w' → ¬ audit_key k → persistent w' k = persistent w k.
Proof. intros H Hk. by apply (modifies_emit _ _ _ _ _ _ _ H). Qed.

Lemma initialize_Ok admin min_sources max_history decimals description c w u w' :
  initialize admin min_sources max_history decimals description c w = Ok u w' →
  persistent w KeyAdmin = None ∧ authorized c admin = true ∧ persistent w' KeyAdmin = Some admin ∧
  persistent w' KeySrcRegistry = Some (MkOracleSources [] ∅ ∅).
Proof.
  unfold initialize, get_unwrap. intros H. do 4 step H. apply bool_decide_eq_false_1, eq_None_not_Some in Eg.
  steps H. split; [done|]. split; [done|].
  split; rewrite (emitted_key _ _ _ _ _ _ _ _ H) by (by intros []); cbn [persistent add_event]; by read_store.
Qed.

(** Keeping a pause. *)
Lemma pausing_set : preserves (λ w, paused w = true) (set KeyCfgPauseFlag true).
Proof. intros c w u w' [Hf _]%paused_flag [= <- <-]. apply paused_flag. split; [done|]. by read_store. Qed.
Lemma pausing_put k v : k ≠ KeyCfgPauseFlag → preserves (λ w, paused w = true) (set k v).
Proof. intros Hk c w u w' [Hf Hp]%paused_flag [= <- <-]. apply paused_flag. split; [done|]. by read_store. Qed.
Lemma pausing_within {A} (m : M A) : within keeps_pause m → preserves (λ w, paused w = true) m.
Proof. intros Hm c w a w' Hp H. eapply Within_paused; [|by eapply Hm|done]. done. Qed.
Lemma pausing_guarded {A} (m : M A) :
  preserves (λ w, paused w = true) m → preserves (λ w, paused w = true) (guarded m).
Proof.
  intros Hm c w a w' Hp (_ & _ & w1 & H & ->)%guarded_Ok.
  exact (Hm c (put_temporary KeyReentrancyGuard (Some true) w) a w1 Hp H).
Qed.

Ltac pausing :=
  first
    [ apply pausing_set
    | apply pausing_put; discriminate
    | apply pausing_within; solve [walk]
    | lazymatch goal with
      | |- preserves _ (guarded _) => apply pausing_guarded; pausing
      | |- preserves _ (_ ≫= _) => apply preserves_bind; [pausing|intros; pausing]
      | |- preserves _ (match ?x with _ => _ end) => destruct x; pausing
      | |- preserves _ ?m => let h := head_of m in progress unfold h; pausing
      end ].

Lemma pausing_entry call : lifts call = false → preserves (λ w, paused w = true) (run_entry call).
Proof.
  intros Hl. destruct (touches call AreaPause) eqn:Ht.
  - destruct call; try discriminate Ht; try discriminate Hl; clear Ht Hl; cbn [run_entry]; pausing.
  - intros c w u w' Hp H. eapply Within_paused; [exact Ht|by eapply footprint_entry|done].
Qed.

Lemma recover_Ok guardian c w u w' :
  DeadMan.recover guardian c w = Ok u w' → authorized c guardian = true ∧ persistent w KeyDeadManDegraded = Some true.
Proof.
  unfold DeadMan.recover, DeadMan.is_degraded. intros H. do 4 step H.
  destruct (persistent w KeyDeadManDegraded) as [[]|]; done.
Qed.

(** One call after another. *)
Definition after (calls : list (Ctx * Call)) (w : World) : World :=
  foldl (λ w '(c, call), invoke (run_entry call) c w) w calls.

(** The call that ended a pause. *)
Lemma pause_ended calls : ∀ w, paused w = true → paused (after calls w) = false →
  ∃ before c call rest, calls = before ++ (c, call) :: rest ∧ paused (after before w) = true ∧ lifts call = true ∧
    ∃ w', run_entry call c (after before w) = Ok tt w'.
Proof.
  induction calls as [|[c call] calls IH]; intros w Hp Hn; [cbn in Hn; congruence|].
  cbn [after foldl] in Hn. destruct (paused (invoke (run_entry call) c w)) eqn:Hp'.
  - destruct (IH _ Hp' Hn) as (before & c' & call' & rest & -> & H1 & H2 & H3).
    by exists ((c, call) :: before), c', call', rest.
  - exists [], c, call, calls. split; [done|]. split; [done|]. unfold invoke in Hp'.
    destruct (run_entry call c w) as [[] w'|] eqn:E; [|congruence]. destruct (lifts call) eqn:Hl; [by eauto|].
    by rewrite (pausing_entry _ Hl _ _ _ _ Hp E) in Hp'.
Qed.


End Entries.

(** ** A contract on a small host *)

Definition toy_signatures : Signatures := {| signature_valid _ _ _ := true; network_id := [] |}.
Definition toy_text : Relayer.AddressText := λ a, [Z.of_N a].

(** An entry point on this host, at a ledger, with the authorisation of one address. *)
Notation toy_entry_point :=
  (@run_entry Wrapping toy_crypto RoundSafety.toy_sort RoundSafety.toy_xdr RoundSafety.toy_callbacks
    SourceSafety.toy_token toy_signatures toy_text).
Definition toy_by (who : Address) (ledger : Z) : Ctx := MkCtx ledger (5 * ledger) (λ a, bool_decide (a = who)) 99%N.
Definition toy_deployed : World :=
  invoke (toy_entry_point (EpInitialize 9%N 1 10 7 "prices")) (toy_by 9%N 1) empty_world.
Definition toy_stopped : World :=
  invoke (toy_entry_point (EpEmergencyPause "incident" 10)) (toy_by 9%N 2) toy_deployed.


