(* ===== verification/ContractSafety.v ===== *)
(** * What the contract as a whole keeps

    The theorems of the components speak about the calls of their component;
    here they are carried to every history of entry points of the contract. *)
From stdpp Require Import base list gmap strings.
From S2P Require Import Prelude Machine Types Host AuditLog Config Admin Assets Frames.
From S2P Require Import SourceGuards FreshnessWeight Provenance PriceCallback Sources SignedSubmission.
From S2P Require Import InputValidation EmergencyPause Footprint Contract.
From S2P Require Import AccessControl.
From S2P Require Relayer AuditReports SourceSafety Recovery.
#[local] Open Scope Z_scope.
#[local] Set Default Goal Selector "!".

Section Histories.
Context `{BP : BuildProfile} `{CR : Crypto} `{US : UnstableSort} `{XD : Xdr} `{CB : Callbacks} `{TK : Token}.
Context `{SG : Signatures} `{AT : Relayer.AddressText}.

(** An approval of a recovery that its guardian has authorised. *)
Definition approvals_in (call : Call) (c : Ctx) : list (Address * Address * Z) :=
  match call with
  | EpRecoveryApprove guardian new_admin =>
      if authorized c guardian then [(guardian, new_admin, sequence c)] else []
  | _ => []
  end.

(** The unsigned arguments the recovery settings are made of. *)
Definition call_ok (call : Call) : Prop :=
  match call with
  | EpRecoverySetGuardians _ threshold => 0 <= threshold
  | EpRecoverySetDelay delay_ledgers => 0 <= delay_ledgers
  | _ => True
  end.

(** The histories of the contract from its deployment: calls of any entry
    points by anyone, successful or not, at ledgers that do not decrease, and
    the expiry of temporary entries; with the approvals of recoveries. *)
Inductive contract_reach : World → Z → list (Address * Address * Z) → Prop :=
  | deployed : contract_reach empty_world 0 []
  | called w now log c call :
      contract_reach w now log → now <= sequence c → call_ok call →
      contract_reach (invoke (run_entry call) c w) (sequence c) (log ++ approvals_in call c)
  | lapsed w now log k : contract_reach w now log → contract_reach (put_temporary k None w) now log.

(** Invariants that a call either keeps or does not return from. *)
Lemma reach_inv (I : World → Prop) w now log :
  I empty_world → (∀ call, preserves I (run_entry call)) → (∀ w k, I w → I (put_temporary k None w)) →
  contract_reach w now log → I w.
Proof.
  intros H0 Hc Hl. induction 1 as [|w now log c call _ IH _ _|w now log k _ IH]; [done| |by apply Hl].
  unfold invoke. destruct (run_entry call c w) as [a w'|f] eqn:E; [|done]. by eapply Hc.
Qed.

Lemma entry_keeps call c w a w' k area :
  run_entry call c w = Ok a w' → area_of k = Some area → area ≠ AreaIndex → touches call area = false →
  persistent w' k = persistent w k.
Proof. intros H Hk Hi Ht. exact (within_area _ _ _ (footprint_entry call _ _ _ _ H) k area Hk Hi Ht). Qed.

(** ** The lock *)

Lemma lock_free w now log : contract_reach w now log → lock_held w = false.
Proof.
  apply (reach_inv (λ w, lock_held w = false)); [done| |].
  - intros call c w1 a w2 Hw H. by rewrite (within_lock _ _ _ (footprint_entry call _ _ _ _ H)).
  - intros w1 k Hw. unfold lock_held in *. destruct (decide (k = KeyReentrancyGuard)) as [->|Hk].
    + by rewrite temporary_put_eq.
    + by rewrite temporary_put_ne.
Qed.

(** ** Who may be administrator *)

Lemma run_discard {A} (m : M A) c w u w' : (m;; mret tt) c w = Ok u w' → ∃ a, m c w = Ok a w'.
Proof. intros (a & w1 & H & [= <- <-])%bind_Ok. by exists a. Qed.

(** The recovery settings and the pending recovery are what the calls of the
    component made of them. *)
Lemma recovery_kept w now log : contract_reach w now log → Recovery.recovery_inv w now log.
Proof.
  induction 1 as [|w now log c call _ IH Hnow Hok|w now log k _ IH].
  - apply Recovery.recovery_inv_start; [done|lia].
  - assert (∀ l w', (∀ k, Recovery.recovery_key k → persistent w' k = persistent w k) →
      Recovery.recovery_inv w' (sequence c) (log ++ l)) as Hlater.
    { intros l w' Hk. apply (Recovery.recovery_inv_frame w); [done|].
      eapply Recovery.recovery_inv_later; [done| |done]. intros x Hx. apply elem_of_app. by left. }
    unfold invoke. destruct (run_entry call c w) as [u w'|e] eqn:E; [|by apply Hlater].
    destruct (touches call AreaGuardians) eqn:Ht.
    2:{ apply Hlater. intros k Hk. apply (entry_keeps call c w u w' k AreaGuardians E); [|done|done].
        by destruct k. }
    assert (∀ rc w0 a w1, Recovery.recovery_call_ok rc → persistent w0 = persistent w →
      Recovery.run_recovery_call rc c w0 = Ok a w1 → persistent w' = persistent w1 →
      Recovery.recovery_inv w' (sequence c) (log ++ Recovery.authorised_approval rc c)) as Hrun.
    { intros rc w0 a w1 Hrc H0 Hr H1. apply (Recovery.recovery_inv_frame w1); [by intros; rewrite H1|].
      replace w1 with (invoke (Recovery.run_recovery_call rc) c w0) by (unfold invoke; by rewrite Hr).
      apply Recovery.recovery_call_inv with now; [|done|done].
      apply (Recovery.recovery_inv_frame w); [by intros; rewrite H0|done]. }
    destruct call; try discriminate Ht; cbn [run_entry approvals_in] in *.
    + apply bind_Ok in E as (? & w0 & Hv & E).
      eapply (Hrun (Recovery.CallSetGuardians guardians threshold)); [done| |exact E|done].
      unfold validate_list_len in Hv. destruct (list_cap_for _ _); [|done]. by apply panic_if_Ok in Hv as [-> _].
    + eapply (Hrun (Recovery.CallSetDelay delay_ledgers)); [done|done|exact E|done].
    + apply guarded_persistent in E as (w0 & w1 & H0 & H1 & H2).
      by eapply (Hrun (Recovery.CallApprove guardian new_admin)).
    + apply guarded_persistent in E as (w0 & w1 & H0 & H1 & H2). by eapply (Hrun Recovery.CallCancel).
    + apply guarded_persistent in E as (w0 & w1 & H0 & H1 & H2). by eapply (Hrun Recovery.CallExecute).
  - by apply (Recovery.recovery_inv_frame w).
Qed.

Lemma set_admin_Ok new_admin c w u w' :
  set_admin new_admin c w = Ok u w' →
  ∃ admin, persistent w KeyAdmin = Some admin ∧ authorized c admin = true ∧ persistent w' KeyAdmin = Some new_admin.
Proof.
  unfold set_admin. intros (admin & w1 & (-> & Ha & Hau)%auth_admin_Ok & H)%bind_Ok. do 2 step H.
  exists admin. split; [done|]. split; [done|].
  rewrite (emitted_key _ _ _ _ _ _ _ KeyAdmin H) by (by intros []). cbn [persistent add_event]. by read_store.
Qed.

(** C2. The administrator is secured.  In every history of the contract, when a
    call changes the administrator then it was the first initialisation, by the
    administrator it installs; or the administrator in office handed the office
    over; or it executed a recovery, and then as many distinct current guardians
    as the threshold in force, at least one, had each authorised exactly the
    successor, all at least the cancellation delay in force before. *)
Theorem administrator_secured w now log call c u w' :
  contract_reach w now log → now <= sequence c < U32_MAX → run_entry call c w = Ok u w' →
  persistent w' KeyAdmin ≠ persistent w KeyAdmin →
  (persistent w KeyAdmin = None ∧ ∃ admin min_sources max_history decimals description,
     call = EpInitialize admin min_sources max_history decimals description ∧
     authorized c admin = true ∧ persistent w' KeyAdmin = Some admin) ∨
  (∃ admin new_admin, persistent w KeyAdmin = Some admin ∧ authorized c admin = true ∧
     call = EpSetAdmin new_admin ∧ persistent w' KeyAdmin = Some new_admin) ∨
  (call = EpRecoveryExecute ∧ ∃ new_admin guardians, persistent w' KeyAdmin = Some new_admin ∧
     NoDup guardians ∧ guardians ≠ [] ∧ Z.of_nat (length guardians) = Recovery.threshold_of w ∧
     ∀ g, g ∈ guardians → g ∈ Recovery.guardians_of w ∧
       ∃ l, (g, new_admin, l) ∈ log ∧ l + Recovery.delay_of w <= sequence c).
Proof.
  intros Hr Hnow E Hne. destruct (touches call AreaAdmin) eqn:Ht.
  2:{ by destruct Hne; apply (entry_keeps call c w u w' KeyAdmin AreaAdmin). }
  destruct call; try discriminate Ht; cbn [run_entry] in E.
  - left. apply guarded_persistent in E as (w0 & w1 & H0 & (A1 & A2 & A3 & _)%initialize_Ok & H2).
    rewrite <- H0, H2. split; [done|]. by eexists _, _, _, _, _.
  - right. left. apply guarded_persistent in E as (w0 & w1 & H0 & (old & A1 & A2 & A3)%set_admin_Ok & H2).
    rewrite <- H0, H2. by exists old, new_admin.
  - right. right. split; [done|]. apply guarded_persistent in E as (w0 & w1 & H0 & H1 & H2).
    destruct (Recovery.recovery_quorum w0 now log c u w1) as (n & gs & A1 & _ & A2 & A3 & A4 & A5); [|done|done|].
    { apply (Recovery.recovery_inv_frame w); [by intros; rewrite H0|by apply recovery_kept]. }
    exists n, gs. rewrite H2. unfold Recovery.threshold_of, Recovery.guardians_of, Recovery.delay_of in *.
    by rewrite !H0 in *.
Qed.

(** ** The registry of assets *)

Lemma preserves_discard {A} I (m : M A) : preserves I m → preserves I (m;; mret tt).
Proof. intros Hm c w u w' Hw (a & H)%run_discard. by eapply Hm. Qed.

Lemma registry_inv_persistent w w' : persistent w' = persistent w → registry_inv w → registry_inv w'.
Proof. intros E. apply registry_inv_reads. intros k _. by rewrite E. Qed.

Lemma registry_ok_within call c w u w' :
  run_entry call c w = Ok u w' → touches call AreaAssets = false → touches call AreaIndex = false →
  registry_ok w → registry_ok w' ∧ registered w' = registered w.
Proof.
  intros E Ha Hi (Hn & Hr & Hx).
  assert (registered w' = registered w) as Er.
  { unfold registered. by rewrite (entry_keeps call c w u w' KeyAssetRegistry AreaAssets). }
  split; [|done]. unfold registry_ok. rewrite Er. split; [done|]. split.
  - intros a. by rewrite (entry_keeps call c w u w' (KeyAssetRegistered a) AreaAssets).
  - intros a v. destruct (within_index _ _ _ (footprint_entry call _ _ _ _ E) a Hi Ha) as [->|[-> Hreg]]; [apply Hx|].
    intros [= <-]. rewrite Hr in Hreg. by case_bool_decide.
Qed.

Lemma admin_stays call c w u w' :
  run_entry call c w = Ok u w' → deploys call = false → persistent w' KeyAdmin = None → persistent w KeyAdmin = None.
Proof.
  intros E Hd Hnone. destruct (touches call AreaAdmin) eqn:Ht.
  2:{ by rewrite <- (entry_keeps call c w u w' KeyAdmin AreaAdmin). }
  destruct call; try discriminate Ht; try discriminate Hd; cbn [run_entry] in E;
    apply guarded_persistent in E as (w0 & w1 & H0 & H1 & H2); rewrite H2 in Hnone.
  - apply set_admin_Ok in H1 as (? & _ & _ & ?). congruence.
  - apply Recovery.execute_recovery_Ok in H1 as (? & _ & _ & _ & ? & _). congruence.
Qed.

Lemma registry_entry call : preserves registry_inv (run_entry call).
Proof.
  destruct (touches call AreaAssets || touches call AreaIndex) eqn:Ht.
  - destruct call; try discriminate Ht; cbn [run_entry].
    + apply preserves_guarded; [apply registry_inv_persistent|]. apply registry_initialize.
    + apply preserves_guarded; [apply registry_inv_persistent|].
      exact (registry_run_asset_call (CallRegisterAsset asset)).
    + apply preserves_guarded; [apply registry_inv_persistent|].
      exact (registry_run_asset_call (CallUnregisterAsset asset)).
    + apply preserves_discard, preserves_guarded; [apply registry_inv_persistent|].
      apply registry_inv_is_registered.
  - apply orb_false_iff in Ht as [Ha Hi]. intros c w u w' [Hok Hn] E.
    destruct (registry_ok_within call c w u w' E Ha Hi Hok) as [Hok' Er]. split; [done|].
    rewrite Er. intros Hnone. apply Hn. eapply admin_stays; [exact E| |done]. by destruct call.
Qed.

Lemma registry_kept w now log : contract_reach w now log → registry_inv w.
Proof.
  apply reach_inv; [split; [apply registry_ok_empty|done]|apply registry_entry|].
  intros w1 k. by apply registry_inv_persistent.
Qed.

(** ** The registry of sources *)

(** A call that cannot return while there is no administrator. *)
Definition barred {A} (m : M A) : Prop :=
  ∀ c w a w', persistent w KeyAdmin = None → m c w = Ok a w' → False.

Lemma barred_get_admin {A} (f : Address → M A) : barred (get_admin ≫= f).
Proof. intros c w a w' Hn (x & w1 & (_ & H)%get_admin_Ok & _)%bind_Ok. congruence. Qed.
Lemma barred_auth_admin {A} (f : Address → M A) : barred (auth_admin ≫= f).
Proof. intros c w a w' Hn (x & w1 & (_ & H & _)%auth_admin_Ok & _)%bind_Ok. congruence. Qed.
Lemma barred_first {A B} (m : M A) (f : A → M B) : barred m → barred (m ≫= f).
Proof. intros Hm c w b w' Hn (a & w1 & H & _)%bind_Ok. by eapply Hm. Qed.
Lemma barred_after {A B} (m : M A) (f : A → M B) :
  within (λ area, bool_decide (area ≠ AreaAdmin)) m → (∀ a, barred (f a)) → barred (m ≫= f).
Proof.
  intros Hm Hf c w b w' Hn (a & w1 & H1 & H2)%bind_Ok. eapply Hf; [|exact H2].
  by rewrite (within_area _ _ _ (Hm _ _ _ _ H1) KeyAdmin AreaAdmin).
Qed.
Lemma barred_guarded {A} (m : M A) : barred m → barred (guarded m).
Proof. intros Hm c w a w' Hn (w0 & w1 & H0 & H1 & _)%guarded_persistent. eapply Hm; [|exact H1]. by rewrite H0. Qed.

Ltac bars :=
  lazymatch goal with
  | |- barred (get_admin ≫= _) => apply barred_get_admin
  | |- barred (auth_admin ≫= _) => apply barred_auth_admin
  | |- barred (guarded _) => apply barred_guarded; bars
  | |- barred (_ ≫= _) =>
      first [ apply barred_after; [solve [walk]|intros; solve [bars]] | apply barred_first; solve [bars] ]
  | |- barred (match ?x with _ => _ end) => destruct x; bars
  | |- barred ?m => let h := head_of m in progress unfold h; bars
  end.

(** The entries of the source registry, and who governs admissions to it. *)
Definition admission_key (k : DataKey) : Prop := SourceSafety.source_key k ∨ k = KeySourceGovConfig.

Record sources_kept (w : World) : Prop := {
  sk_inv : SourceSafety.sources_inv w;
  sk_fresh : persistent w KeyAdmin = None → ∀ k, admission_key k → persistent w k = None
}.

Lemma sources_kept_persistent w w' : persistent w' = persistent w → sources_kept w → sources_kept w'.
Proof.
  intros E [H1 H2]. split; rewrite ?E; [|done]. eapply SourceSafety.sources_inv_frame; [|exact H1].
  intros k _. by rewrite E.
Qed.

(** A call that, while there is no administrator, leaves the registry and the
    admissions as they are. *)
Definition idle {A} (m : M A) : Prop :=
  ∀ c w a w' k, sources_kept w → persistent w KeyAdmin = None → m c w = Ok a w' → admission_key k →
    persistent w' k = persistent w k.

Lemma barred_idle {A} (m : M A) : barred m → idle m.
Proof. intros Hm c w a w' k _ Hn H _. destruct (Hm _ _ _ _ Hn H). Qed.

Lemma idle_discard {A} (m : M A) : idle m → idle (m;; mret tt).
Proof. intros Hm c w u w' k Hw Hn (a & H)%run_discard. by eapply Hm. Qed.

Lemma idle_rotate source new_address : idle (rotate_source_key source new_address).
Proof.
  intros c w a w' k [_ Hf] Hn H _. exfalso. unfold rotate_source_key in H. do 2 step H.
  rewrite run_bind, SourceSafety.run_is_source in H.
  by rewrite (Hf Hn (KeySrcActive source) (or_introl I)) in H.
Qed.

Lemma idle_approve approver proposal_id : idle (approve_source approver proposal_id).
Proof.
  intros c w a w' k [_ Hf] Hn H _. exfalso. unfold approve_source, governance_of_approver, get_source_governance in H.
  step H. rewrite run_bind in H. rewrite run_bind in H. cbn [get] in H.
  rewrite (Hf Hn KeySourceGovConfig (or_intror eq_refl)) in H. done.
Qed.

Lemma admission_same {A} (m : M A) c w a w' k :
  within (λ _, false) m → m c w = Ok a w' → admission_key k → persistent w' k = persistent w k.
Proof.
  intros Hm H [Hk| ->]; [|by apply (within_area _ _ _ (Hm _ _ _ _ H) _ AreaGovernance)].
  apply (within_area _ _ _ (Hm _ _ _ _ H) _ AreaSources); [by destruct k|done|done].
Qed.

Lemma idle_prune : idle check_and_prune_inactive_sources.
Proof.
  intros c w a w' k [_ Hf] Hn H Hk. unfold check_and_prune_inactive_sources in H.
  apply bind_Ok in H as (max & w1 & H1 & H). step H. apply bind_Ok in H as (min & w2 & H2 & H).
  assert (∀ k, admission_key k → persistent w2 k = persistent w k) as Hk2.
  { intros k' Hk'. rewrite (admission_same get_min_sources_required c _ min w2 k') by (done || walk).
    by apply (admission_same get_max_inactive_ledgers c w max w1); [walk|..]. }
  unfold read_oracle_sources in H. rewrite run_bind, run_get_bump_or in H. cbv beta iota in H.
  rewrite (Hk2 KeySrcRegistry), (Hf Hn KeySrcRegistry) in H by (by left). injection H as _ <-. by apply Hk2.
Qed.

Lemma sources_kept_run sc :
  idle (SourceSafety.run_source_call sc) →
  within (λ area, negb (bool_decide (area = AreaAdmin))) (SourceSafety.run_source_call sc) →
  preserves sources_kept (SourceSafety.run_source_call sc).
Proof.
  intros Hi Hm c w u w' Hw H. split.
  - eapply SourceSafety.source_call_inv; [|exact H]. apply (sk_inv _ Hw).
  - rewrite (within_area _ _ _ (Hm _ _ _ _ H) KeyAdmin AreaAdmin) by done. intros Hn k Hk.
    rewrite (Hi _ _ _ _ k Hw Hn H Hk). by apply (sk_fresh _ Hw).
Qed.

Lemma sources_kept_barred sc :
  barred (SourceSafety.run_source_call sc) →
  within (λ area, negb (bool_decide (area = AreaAdmin))) (SourceSafety.run_source_call sc) →
  preserves sources_kept (SourceSafety.run_source_call sc).
Proof. intros Hb. by apply sources_kept_run, barred_idle. Qed.

Lemma sources_kept_same {A} (m : M A) : within (λ _, false) m → preserves sources_kept m.
Proof.
  intros Hm c w a w' [Hinv Hf] H. split.
  - apply (SourceSafety.sources_inv_frame w); [|done]. intros k Hk. apply (admission_same m c w a w'); [done|done|by left].
  - rewrite (within_area _ _ _ (Hm _ _ _ _ H) KeyAdmin AreaAdmin) by done. intros Hn k Hk.
    rewrite (admission_same m c w a w' k) by done. by apply Hf.
Qed.

Lemma sources_kept_guarded {A} (m : M A) : preserves sources_kept m → preserves sources_kept (guarded m).
Proof. apply preserves_guarded, sources_kept_persistent. Qed.

Lemma initialize_admission admin min_sources max_history decimals description c w u w' k :
  initialize admin min_sources max_history decimals description c w = Ok u w' → admission_key k →
  k = KeySrcRegistry ∨ persistent w' k = persistent w k.
Proof.
  unfold initialize. intros H Hk. do 4 step H. steps H.
  destruct (decide (k = KeySrcRegistry)) as [|Hne]; [by left|right].
  rewrite (emitted_key _ _ _ _ _ _ _ _ H) by (by intros He; destruct k, Hk; try done; destruct He).
  cbn [persistent add_event]. rewrite !persistent_put_ne; try done; intros <-; by destruct Hk.
Qed.

Lemma sources_initialize admin min_sources max_history decimals description :
  preserves sources_kept (initialize admin min_sources max_history decimals description).
Proof.
  intros c w u w' [Hinv Hf] H. pose proof (initialize_Ok _ _ _ _ _ _ _ _ _ H) as (Hn & _ & Ha & Hr).
  split; [|by rewrite Ha].
  apply SourceSafety.sources_inv_empty; [unfold SourceSafety.reg; by rewrite Hr|]. intros k Hk Hne.
  destruct (initialize_admission _ _ _ _ _ _ _ _ _ k H (or_introl Hk)) as [? | ->]; [done|]. apply (Hf Hn). by left.
Qed.

Lemma sources_kept_checked {A B} (m : M A) (m' : M B) :
  within (λ _, false) m → preserves sources_kept m' → preserves sources_kept (m;; m').
Proof. intros Hm Hm'. apply preserves_bind; [by apply sources_kept_same|by intros _]. Qed.

Lemma sources_entry_of call :
  touches call AreaSources || touches call AreaGovernance = true → deploys call = false →
  preserves sources_kept (run_entry call).
Proof.
  intros Ht Hd. destruct call; try discriminate Ht; try discriminate Hd; clear Ht Hd; cbn [run_entry].
  - apply sources_kept_guarded. apply (sources_kept_barred (SourceSafety.CallAddSource source name)); [bars|walk].
  - apply sources_kept_guarded. apply (sources_kept_barred (SourceSafety.CallActivate source)); [bars|walk].
  - apply sources_kept_guarded. apply (sources_kept_barred (SourceSafety.CallRemoveSource source)); [bars|walk].
  - apply sources_kept_guarded. apply sources_kept_checked; [walk|]. apply (sources_kept_barred (SourceSafety.CallAddSourceWithAssets source name assets)); [bars|walk].
  - apply sources_kept_guarded. apply (sources_kept_barred (SourceSafety.CallSetVerification source verified verification_method verifier)); [bars|walk].
  - apply sources_kept_guarded. apply (sources_kept_run (SourceSafety.CallRotateKey source new_address)); [apply idle_rotate|walk].
  - apply (sources_kept_barred (SourceSafety.CallMarkForRemoval source)); [bars|walk].
  - apply (sources_kept_barred (SourceSafety.CallCancelRemoval source)); [bars|walk].
  - apply (sources_kept_barred (SourceSafety.CallFinalizeRemoval source)); [bars|walk].
  - apply sources_kept_guarded. apply sources_kept_checked; [walk|]. apply (sources_kept_barred (SourceSafety.CallSetGovernance approvers threshold)); [bars|walk].
  - apply sources_kept_guarded. apply (sources_kept_run (SourceSafety.CallApproveSource approver proposal_id)); [apply idle_approve|walk].
  - apply sources_kept_checked; [walk|]. apply sources_kept_guarded. apply (sources_kept_barred (SourceSafety.CallOnboard source name identity)); [bars|walk].
  - apply sources_kept_guarded. apply (sources_kept_barred (SourceSafety.CallOffboard source evidence_asset)); [bars|walk].
  - apply (sources_kept_run (SourceSafety.CallPrune)); [apply idle_discard, idle_prune|walk].
  - apply sources_kept_guarded. apply sources_kept_checked; [walk|]. apply (sources_kept_barred (SourceSafety.CallRemoveSources sources)); [bars|walk].
Qed.

Lemma sources_entry call : preserves sources_kept (run_entry call).
Proof.
  destruct (deploys call) eqn:Hd.
  { destruct call; try discriminate Hd. apply sources_kept_guarded, sources_initialize. }
  destruct (touches call AreaSources || touches call AreaGovernance) eqn:Ht; [by apply sources_entry_of|].
  apply orb_false_iff in Ht as [Hs Hg]. intros c w u w' [Hinv Hf] E.
  assert (∀ k, admission_key k → persistent w' k = persistent w k) as Hk.
  { intros k [Hk| ->]; [|by apply (entry_keeps call c w u w' _ AreaGovernance)].
    apply (entry_keeps call c w u w' _ AreaSources); [done|by destruct k|done|done]. }
  split.
  - apply (SourceSafety.sources_inv_frame w); [|done]. intros k Hsk. apply Hk. by left.
  - intros Hn k Hak. rewrite Hk by done. apply Hf; [|done]. by eapply admin_stays.
Qed.

Lemma sources_hold w now log : contract_reach w now log → sources_kept w.
Proof.
  apply reach_inv; [|apply sources_entry|intros w1 k; by apply sources_kept_persistent].
  split; [|done]. by apply SourceSafety.sources_inv_start.
Qed.

(** ** Theorems on every history *)

(** C4. The registries are consistent in every history of the contract, whatever
    entry points are called by whomever.  No asset is listed twice, an asset is
    flagged registered exactly when it is listed, and the index that is filled
    on demand holds listed assets only.  No source is listed twice; an address
    is listed exactly when its activity entry holds and exactly when it carries
    a name, of a length within the limit; an address revoked at offboarding is
    not listed; and no source is ever pending a phased removal, since marking
    one reads an entry that nothing writes. *)
Theorem registries_consistent w now log (Hr : contract_reach w now log) :
  (NoDup (registered w) ∧
   (∀ a, persistent w (KeyAssetRegistered a) = Some true ↔ a ∈ registered w) ∧
   (∀ a, persistent w (KeyAssetRegistryIndex a) = Some true → a ∈ registered w)) ∧
  NoDup (SourceSafety.sources_of w) ∧
  (∀ s, s ∈ SourceSafety.sources_of w ↔ persistent w (KeySrcActive s) = Some true) ∧
  (∀ s, s ∈ SourceSafety.sources_of w ↔ ∃ name, os_metadata (SourceSafety.reg w) !! s = Some name) ∧
  (∀ s name, os_metadata (SourceSafety.reg w) !! s = Some name →
     name ≠ ""%string ∧ Z.of_nat (String.length name) <= MAX_SOURCE_NAME_LENGTH) ∧
  (∀ s, persistent w (KeyLcRevokedAddress s) ≠ None → s ∉ SourceSafety.sources_of w) ∧
  (∀ s, persistent w (KeySourcePendingRemoval s) = None).
Proof.
  destruct (registry_kept _ _ _ Hr) as [(H1 & H2 & H3) _]. split.
  - split; [done|]. split; intros a; [rewrite H2; by case_bool_decide|]. by intros [_ Ha]%H3.
  - destruct (sk_inv _ (sources_hold _ _ _ Hr)) as [S1 S2 _ S4 S5 S6 S7]. split_and!; [done..|]. intros s. apply S6.
Qed.


(** Pruning only removes. *)
Definition unlisted (s : Address) (w : World) : Prop := s ∉ SourceSafety.sources_of w.

Lemma listed_persistent w w' :
  persistent w' = persistent w → SourceSafety.sources_of w' = SourceSafety.sources_of w.
Proof. intros E. unfold SourceSafety.sources_of, SourceSafety.reg. by rewrite E. Qed.

Lemma unlisted_same {A} s (m : M A) : within (λ _, false) m → preserves (unlisted s) m.
Proof.
  intros Hm c w a w' Hu H. unfold unlisted, SourceSafety.sources_of, SourceSafety.reg in *.
  by rewrite (admission_same m c w a w' KeySrcRegistry) by (done || by left).
Qed.

Lemma unlisted_prune_one s ledger src : preserves (unlisted s) (prune_one ledger src).
Proof.
  unfold prune_one. do 3 (apply preserves_bind; [apply unlisted_same; walk|intros ?]).
  apply preserves_bind; [|intros _; apply unlisted_same; walk].
  intros c w u w' Hu (Hs & _)%SourceSafety.internal_removal_Ok. unfold unlisted. rewrite Hs.
  rewrite SourceSafety.elem_of_without. by intros [_ ?].
Qed.

Lemma unlisted_prune s : preserves (unlisted s) check_and_prune_inactive_sources.
Proof.
  unfold check_and_prune_inactive_sources. do 5 (apply preserves_bind; [apply unlisted_same; walk|intros ?]).
  generalize 0. induction a3 as [|x l IH]; intros n; cbn [prune_loop]; [apply unlisted_same; walk|].
  do 2 (apply preserves_bind; [apply unlisted_same; walk|intros ?]). case_match; [apply unlisted_same; walk|].
  apply preserves_bind; [apply unlisted_prune_one|intros _].
  apply preserves_bind; [apply unlisted_same; walk|intros ?]. apply IH.
Qed.

(** What approving a source proposal takes. *)
Definition carried (w : World) (source approver : Address) (proposal_id : Z) : Prop :=
  ∃ gov p, persistent w KeySourceGovConfig = Some gov ∧ approver ∈ sg_approvers gov ∧
    persistent w (KeySourceProposal proposal_id) = Some p ∧ sp_source p = source ∧ sp_executed p = false ∧
    approver ∉ sp_approvals p ∧ sg_threshold gov <= Z.of_nat (length (sp_approvals p ++ [approver])).

Lemma unlisted_register s source name c w u w' :
  register_source_internal source name c w = Ok u w' → unlisted s w → s ∈ SourceSafety.sources_of w' → s = source.
Proof.
  intros H Hu. destruct (SourceSafety.register_Ok _ _ _ _ _ _ H) as (_ & _ & _ & Hreg & _).
  unfold SourceSafety.sources_of at 1. rewrite Hreg. cbn [os_sources].
  rewrite elem_of_app, list_elem_of_singleton. by intros [?|?].
Qed.

Lemma unlisted_back {A} s (m : M A) c w a w' :
  within (λ _, false) m → m c w = Ok a w' → unlisted s w' → unlisted s w.
Proof.
  intros Hm H. unfold unlisted, SourceSafety.sources_of, SourceSafety.reg.
  by rewrite (admission_same m c w a w' KeySrcRegistry) by (done || by left).
Qed.

Lemma approve_Ok s approver proposal_id c w u w' :
  approve_source approver proposal_id c w = Ok u w' → unlisted s w → ¬ unlisted s w' →
  authorized c approver = true ∧ carried w s approver proposal_id.
Proof.
  unfold approve_source, governance_of_approver, get_source_governance. intros H Hu Hs. do 2 step H.
  destruct (persistent w KeySourceGovConfig) as [gov|] eqn:Hgov; [|done]. do 4 step H.
  destruct (persistent w (KeySourceProposal proposal_id)) as [p|] eqn:Hp; [|done]. do 3 step H.
  apply bind_Ok in H as (u1 & w1 & H1 & H).
  destruct (sg_threshold gov <=? _) eqn:Et.
  2:{ destruct Hs. eapply (unlisted_same s); [| |exact H]; [walk|]. by injection H1 as _ <-. }
  apply bind_Ok in H1 as (u2 & w2 & H1 & [= _ <-]). bool_hyps.
  assert (s = sp_source p) as ->.
  { destruct (decide (s = sp_source p)) as [|Hne]; [done|]. destruct Hs.
    eapply (unlisted_same s); [| |exact H]; [walk|]. intros Hin. destruct Hne.
    by eapply unlisted_register. }
  apply bool_decide_eq_false_1, dec_stable in Eg1. apply bool_decide_eq_false_1 in Eg3.
  split; [done|]. by exists gov, p.
Qed.

Lemma rotate_listed s source new_address c w u w' :
  SourceSafety.sources_inv w → rotate_source_key source new_address c w = Ok u w' → unlisted s w → ¬ unlisted s w' →
  s = new_address ∧ authorized c source = true ∧ authorized c new_address = true ∧
  source ∈ SourceSafety.sources_of w ∧ unlisted source w'.
Proof.
  intros Hinv H Hu Hs. pose proof (SourceSafety.rotate_Ok _ _ _ _ _ _ H Hinv) as Hrot.
  pose proof (SourceSafety.rotated_inv _ _ _ _ Hrot Hinv) as Hinv'.
  destruct Hrot as (Hreg & Ha & Hna & Ha' & _). apply (SourceSafety.ri_active _ Hinv) in Ha.
  assert (authorized c source = true ∧ authorized c new_address = true) as [Au Au'].
  { unfold rotate_source_key in H. by do 2 step H. }
  split.
  - destruct (decide (s = new_address)) as [|Hne]; [done|]. destruct Hs. unfold unlisted, SourceSafety.sources_of.
    rewrite Hreg. cbn. rewrite SourceSafety.elem_of_replace_first by (exact (SourceSafety.ri_nodup _ Hinv) || exact Ha). by intros [?|[_ ?]].
  - split; [done|]. split; [done|]. split; [done|]. unfold unlisted.
    by rewrite (SourceSafety.ri_active _ Hinv'), Ha'.
Qed.

(** C5. Sources are admitted by those in charge.  In every history of the
    contract, when a call adds an address to the registry of sources then the
    administrator had authorised the call; or a registered source moved, with
    its own authorisation and that of the new address, to the new address, and
    is no longer listed; or an approver under the admission rules in force
    authorised the approval that brought the approvals of an open proposal for
    this very address, none of them by this approver before, to the threshold. *)
Theorem sources_admitted w now log call c u w' s
    (Hr : contract_reach w now log) (Hrun : run_entry call c w = Ok u w')
    (Hold : s ∉ SourceSafety.sources_of w) (Hnew : s ∈ SourceSafety.sources_of w') :
  (∃ admin, persistent w KeyAdmin = Some admin ∧ authorized c admin = true) ∨
  (∃ source, call = EpRotateSourceKey source s ∧ authorized c source = true ∧ authorized c s = true ∧
     source ∈ SourceSafety.sources_of w ∧ source ∉ SourceSafety.sources_of w') ∨
  (∃ approver proposal_id gov p, call = EpApproveSource approver proposal_id ∧ authorized c approver = true ∧
     persistent w KeySourceGovConfig = Some gov ∧ approver ∈ sg_approvers gov ∧
     persistent w (KeySourceProposal proposal_id) = Some p ∧ sp_source p = s ∧ sp_executed p = false ∧
     approver ∉ sp_approvals p ∧ sg_threshold gov <= Z.of_nat (length (sp_approvals p ++ [approver]))).
Proof.
  pose proof (sk_inv _ (sources_hold _ _ _ Hr)) as Hinv.
  destruct (requires_admin call) eqn:Hg; [left; by apply (gated_entry call Hg c w u w')|].
  destruct (touches call AreaSources) eqn:Ht.
  2:{ destruct Hold. unfold SourceSafety.sources_of, SourceSafety.reg in *.
      by rewrite <- (entry_keeps call c w u w' KeySrcRegistry AreaSources). }
  assert (¬ unlisted s w') as Hs by (intros Hs; by apply Hs).
  destruct call; try discriminate Hg; try discriminate Ht; cbn [run_entry] in Hrun.
  - exfalso. apply Hs. apply guarded_persistent in Hrun as (w0 & w1 & _ & (_ & _ & _ & Hreg)%initialize_Ok & H2).
    unfold unlisted, SourceSafety.sources_of, SourceSafety.reg. rewrite H2, Hreg. apply not_elem_of_nil.
  - right. left. exists source. apply guarded_persistent in Hrun as (w0 & w1 & H0 & H1 & H2).
    pose proof (listed_persistent w w0 H0) as L0. pose proof (listed_persistent w1 w' H2) as L1.
    destruct (rotate_listed s source new_address c w0 u w1) as (-> & A1 & A2 & A3 & A4); [|done|unfold unlisted..|].
    + by apply (SourceSafety.sources_inv_frame w); [intros; rewrite H0|].
    + by rewrite L0.
    + by rewrite <- L1.
    + rewrite L0 in A3. unfold unlisted in A4. by rewrite <- L1 in A4.
  - right. right. exists approver, proposal_id. apply guarded_persistent in Hrun as (w0 & w1 & H0 & H1 & H2).
    destruct (approve_Ok s approver proposal_id c w0 u w1) as (Ha & gov & p & Hc); [done| | |].
    + unfold unlisted. by rewrite (listed_persistent w w0).
    + unfold unlisted in *. by rewrite <- (listed_persistent w1 w').
    + exists gov, p. rewrite H0 in Hc. naive_solver.
  - exfalso. apply run_discard in Hrun as (n & Hrun). by apply Hs, (unlisted_prune s _ _ _ _ Hold Hrun).
Qed.
End Histories.

(** ** A history on the small host *)

(** A call of the history, returned or not. *)
Notation toy_after call c w := (invoke (toy_entry_point call) c w).

Definition toy_governed : World :=
  toy_after (EpRecoverySetGuardians [2%N; 3%N; 4%N] 2) (toy_by 9%N 2)
    (toy_after (EpAddSource 1%N "reuters") (toy_by 9%N 2)
       (toy_after (EpRegisterAsset 30%N) (toy_by 9%N 2) toy_deployed)).
Definition toy_approved : World :=
  toy_after (EpRecoveryApprove 3%N 8%N) (toy_by 3%N 20)
    (toy_after (EpRecoveryApprove 2%N 8%N) (toy_by 2%N 10) toy_governed).

Notation toy_reach :=
  (@contract_reach Wrapping toy_crypto RoundSafety.toy_sort RoundSafety.toy_xdr RoundSafety.toy_callbacks
    SourceSafety.toy_token toy_signatures toy_text).

Lemma toy_called call w now log who ledger :
  toy_reach w now log → now <= ledger → call_ok call →
  toy_reach (toy_after call (toy_by who ledger) w) ledger (log ++ approvals_in call (toy_by who ledger)).
Proof. intros Hr Hl Hok. by apply (called w now log (toy_by who ledger) call). Qed.

Lemma toy_governed_reach : toy_reach toy_governed 2 [].
Proof.
  apply (toy_called (EpRecoverySetGuardians _ _) _ 2 []); [|lia|cbn; lia].
  apply (toy_called (EpAddSource _ _) _ 2 []); [|lia|exact I].
  apply (toy_called (EpRegisterAsset _) _ 1 []); [|lia|exact I].
  apply (toy_called (EpInitialize _ _ _ _ _) _ 0 []); [constructor|lia|exact I].
Qed.

Lemma toy_approved_reach : toy_reach toy_approved 20 [(2%N, 8%N, 10); (3%N, 8%N, 20)].
Proof.
  apply (toy_called (EpRecoveryApprove 3%N 8%N) _ 10 [(2%N, 8%N, 10)] 3%N 20); [|lia|exact I].
  apply (toy_called (EpRecoveryApprove 2%N 8%N) _ 2 [] 2%N 10); [apply toy_governed_reach|lia|exact I].
Qed.

(** Two of three guardians replace the administrator, who is silent. *)
Definition toy_recovery_ledger : Z := 20 + Recovery.DEFAULT_RECOVERY_DELAY.
Definition toy_recovered : World := toy_after EpRecoveryExecute (toy_by 5%N toy_recovery_ledger) toy_approved.

Lemma administrator_secured_witness :
  toy_entry_point EpRecoveryExecute (toy_by 5%N toy_recovery_ledger) toy_approved = Ok tt toy_recovered ∧
  persistent toy_approved KeyAdmin = Some 9%N ∧
  ∃ new_admin (guardians : list Address), persistent toy_recovered KeyAdmin = Some new_admin ∧ NoDup guardians ∧
    Z.of_nat (length guardians) = 2.
Proof.
  assert (toy_entry_point EpRecoveryExecute (toy_by 5%N toy_recovery_ledger) toy_approved = Ok tt toy_recovered) as H.
  { apply run_succeeds. vm_compute. reflexivity. }
  split; [exact H|]. split; [vm_compute; reflexivity|].
  assert (persistent toy_recovered KeyAdmin ≠ persistent toy_approved KeyAdmin) as Hne.
  { assert (persistent toy_approved KeyAdmin = Some 9%N) as -> by (vm_compute; reflexivity).
    assert (persistent toy_recovered KeyAdmin = Some 8%N) as -> by (vm_compute; reflexivity). done. }
  destruct (@administrator_secured Wrapping toy_crypto RoundSafety.toy_sort RoundSafety.toy_xdr
    RoundSafety.toy_callbacks SourceSafety.toy_token toy_signatures toy_text toy_approved 20 _ EpRecoveryExecute
    (toy_by 5%N toy_recovery_ledger) tt toy_recovered toy_approved_reach
    ltac:(vm_compute; split; [discriminate|reflexivity]) H Hne)
    as [(_ & a & b & d & e & f & E & _)|[(a & b & _ & _ & E & _)|(_ & n & gs & Hn & Hnd & _ & Hl & _)]];
    [discriminate E|discriminate E|].
  exists n, gs. split; [exact Hn|]. split; [exact Hnd|]. rewrite Hl. vm_compute. reflexivity.
Defined.

Lemma registries_consistent_witness :
  registered toy_approved = [30%N] ∧ SourceSafety.sources_of toy_approved = [1%N] ∧ NoDup (registered toy_approved).
Proof.
  split; [vm_compute; reflexivity|]. split; [vm_compute; reflexivity|].
  exact (proj1 (proj1 (@registries_consistent Wrapping toy_crypto RoundSafety.toy_sort RoundSafety.toy_xdr
    RoundSafety.toy_callbacks SourceSafety.toy_token toy_signatures toy_text _ _ _ toy_approved_reach))).
Defined.


(** The source of the history moves to a new address. *)
Lemma sources_admitted_witness :
  let c := MkCtx 30 150 (λ a, bool_decide (a ∈ [1%N; 7%N])) 99%N in
  let w' := toy_after (EpRotateSourceKey 1%N 7%N) c toy_approved in
  toy_entry_point (EpRotateSourceKey 1%N 7%N) c toy_approved = Ok tt w' ∧
  ((∃ admin, persistent toy_approved KeyAdmin = Some admin ∧ authorized c admin = true) ∨
   authorized c 1%N = true).
Proof.
  intros c w'. assert (toy_entry_point (EpRotateSourceKey 1%N 7%N) c toy_approved = Ok tt w') as H.
  { apply run_succeeds. vm_compute. reflexivity. }
  split; [exact H|].
  destruct (@sources_admitted Wrapping toy_crypto RoundSafety.toy_sort RoundSafety.toy_xdr
    RoundSafety.toy_callbacks SourceSafety.toy_token toy_signatures toy_text _ _ _ _ c tt w' 7%N toy_approved_reach H)
    as [Ha|[(s & E & Ha & _)|(a & i & g & p & E & _)]].
  - apply (bool_decide_eq_true_1 (7%N ∉ SourceSafety.sources_of toy_approved)). vm_compute. reflexivity.
  - apply (bool_decide_eq_true_1 (7%N ∈ SourceSafety.sources_of w')). vm_compute. reflexivity.
  - left. exact Ha.
  - right. injection E as <-. exact Ha.
  - discriminate E.
Defined.
